(* ===== verification/_CoqProject ===== *)
-Q . S2P
Prelude.v
BuddyList.v
Buddy.v
BuddyTree.v
BuddyRep.v
BuddySpec.v
BuddyInit.v
BuddyBoot.v
BuddyTheorems.v
Address.v
Pte.v
PhysMem.v
PageTable.v
PageTableSpec.v
KernelHeap.v
UserCopy.v
PageTableTheorems.v
UvmCopy.v
KernelMap.v
MemoryRoom.v
Bytes.v
Bio.v
BioSpec.v
BioCache.v
BioClient.v
BioTheorems.v
DiskLayout.v
Log.v
LogSpec.v
LogCrash.v
LogTheorems.v
Bitmap.v
Inode.v
InodeSpec.v
InodeWrite.v
InodeTheorems.v
BitmapTheorems.v
Path.v
PathTheorems.v
Directory.v
Mkfs.v
MkfsSpec.v
MkfsImage.v
MkfsMain.v
MkfsRead.v
MkfsTheorems.v
File.v
Registers.v
Cpu.v
SpinlockConc.v
SleepConc.v
Proc.v
Sched.v
ProcTheorems.v
Kernel.v
Exec.v
Syscall.v
Uart.v
UartTheorems.v
Console.v
ConsoleTheorems.v
Virtio.v
VirtioTheorems.v
Mbuf.v
Trap.v
TrapTheorems.v
ForkMemory.v
ForkTheorems.v
ExecMemory.v
Sbrk.v
ExecLoad.v
ExecStack.v
ExecTheorems.v
Asm.v
AsmSpec.v
AsmTheorems.v
AsmUser.v
ForkReturn.v
Boot.v
BootTheorems.v
