(* ===== verification/Prelude.v ===== *)
(** * xv6-rust: a verification library

    The program is a Unix-like kernel for RISC-V in Rust ([src/kernel]) on a
    buddy allocator of its own ([src/allocator]).  From the bottom up: the
    allocator hands out pages and other blocks; page tables and the copies
    between kernel and user memory are built from such pages; the disk driver
    moves blocks, the buffer cache holds them, the log makes groups of writes
    atomic, and inodes, directories, paths, pipes and open files stand on these;
    harts, spinlocks, sleep locks and the process table run the processes; system
    calls and traps connect user programs with all of this; the serial line and
    the console are the terminal.  The assembly routines ([src/kernel/src/asm])
    enter and leave the kernel and switch between threads, [rust_main] brings all
    of it up, and [xv6-mkfs/mkfs.c] makes the disk image the kernel starts from.

    ** Reading the models

    Every function of the source is a function here, with the source's name
    where it does not clash, and the state it changes as an argument and result.
    The result type [outcome] of this file separates the ways a function of the
    debug build can end: [Done], [Panic] (an overflow of the checked arithmetic,
    an index out of range, a failed [unwrap] or assertion, an explicit panic),
    [UB] (an access the language does not define) and [NoFuel] (a wait that
    nobody ends, or a loop that ran out of fuel).  Machine integers are [Z] with
    the overflow checks written out ([uadd], [u32add], ...), wrapping ones are
    taken modulo their width.  Loops are the combinators [for_range], [for_each],
    [for_range_until] and [while_fuel]; fuel is always a bound computed from the
    state (the number of sizes, pages, buffers, descriptors, blocks or characters
    left, plus one), and the theorems state that the result is [Done], so they
    include that the fuel is enough.

    Code outside of the repository is an interface with laws that state its
    documented behaviour, together with a concrete instance that satisfies them:
    [BitField] and [BitFlags] (the crates bit_field and bitflags),
    [BlockDevice] (a disk that keeps its blocks, in [Bio]), [Mmio] (device
    registers, in [Uart]), [Mmu] (address translation by the hardware, in [Asm]),
    and the build host of [mkfs].  Interfaces between the parts of the kernel are
    classes as well: [PageSource] and [StackSource] (pages and stacks for page
    tables, implemented by the buddy allocator in [KernelHeap] and [KernelMap]),
    [PageRoom] and [StackRoom] (they cannot fail while there is room, in
    [MemoryRoom]), [PageFree], [WakeUp] (implemented by the process manager), [Copier],
    [Destination] and [Source] (where file contents are copied to and from).

    ** Files

    - [Prelude]: outcomes, arithmetic, loops and their rules, bit fields.
    - [BuddyList], [Buddy]: [allocator/src/list.rs] and [lib.rs] on a byte memory
      with the lists and bitmaps inside.  [BuddyTree] is the abstract block tree,
      [BuddyRep] says which allocator states represent a tree, [BuddySpec],
      [BuddyInit] and [BuddyBoot] show that each operation keeps this,
      [BuddyTheorems] has the contract: allocation and freeing are correct on
      every branch, initialisation establishes the invariant, clients get disjoint
      blocks, freeing undoes allocation, and two corner cases fail.
    - [Address], [Pte], [PhysMem], [PageTable]: [memory/address.rs], the constants
      of [arch/riscv/qemu], [memory/mapping], [misc.rs].  [KernelHeap] is
      [memory/kalloc.rs], [UserCopy] has the copies, [KernelMap] the kernel's own
      table.  [PageTableSpec] and [PageTableTheorems] show that [map] maps exactly
      its range, that the kernel's table maps what it should, what the copies do,
      and two defects of clearing and copying.  [UvmCopy]: copying the memory of a
      process ends, and copies exactly its pages.  [MemoryRoom]: how much free
      memory is enough for the kernel's table.
    - [Bytes], [Bio], [DiskLayout], [Log]: blocks, [fs/bio.rs],
      [fs/superblock.rs], [fs/dinode.rs], [fs/stat.rs], [fs/log.rs].  [BioSpec],
      [BioCache], [BioClient] and [BioTheorems]: the cache implements a store of
      blocks.  [LogSpec], [LogCrash] and [LogTheorems]: a transaction is all or
      nothing wherever the power fails, recovery can be restarted, and operations
      that keep to their budget are logged, but for one block too many that
      [begin_op] admits.
    - [Bitmap], [Inode], [Path], [File]: [fs/bitmap.rs], [fs/inode.rs],
      [fs/pipe.rs], [fs/file.rs], [fs/devices.rs].  [InodeSpec], [InodeWrite] and
      [InodeTheorems]: what a write stores a read delivers, and inodes survive
      [update]; [BitmapTheorems]: allocation of blocks; [PathTheorems]: parsing of
      paths; [Directory]: what [dir_lookup] and [namei] find.
    - [Mkfs]: [xv6-mkfs/mkfs.c], every function, on the image as a file of
      sectors.  [MkfsSpec] has the image as a list of files, [MkfsImage] and
      [MkfsMain] show that each function keeps this, [MkfsRead] how the kernel
      reads the structures, and [MkfsTheorems] that the kernel finds exactly the
      files [mkfs] was given, with their contents, that the bitmap is exact, and
      that [mkfs] makes files the kernel cannot read.
    - [Registers], [Cpu]: the control registers, the machine-mode start,
      [process/cpu.rs], [lock/spinlock.rs].  [SpinlockConc] is the spinlock with
      every load and store of every hart as a step, [SleepConc] the sleep lock
      with [sleep] and [wake_up] between processes: mutual exclusion, no lost
      wake-up, no deadlock.
    - [Proc], [Kernel], [Exec]: [process/process.rs], [process/manager.rs],
      [process/mod.rs], [process/elf.rs].  [ProcTheorems]: the process table stays
      well formed, the scheduler picks a runnable process.  [Sched] is a thread
      that gives up its hart and gets one back.  [ForkMemory] and [ForkTheorems]:
      [fork] makes a copy of the process, or leaves it alone.  [ExecMemory] is the
      address space of a new program, [Sbrk] how a process grows and shrinks (pages
      that it gives back stay mapped, and asking for them again panics), [ExecLoad]
      the loading of the segments of a program, [ExecStack] its stack and the change
      of programs; [ExecTheorems]: [exec] starts the program in the file with its
      arguments, and the programs given to [mkfs] are the programs [exec] starts, as
      long as the loadable headers come first and the first argument does not end at
      the top of the stack; for other headers and arguments the same file shows what
      goes wrong.
    - [Syscall], [Trap]: [syscall/], [trap.rs], [shutdown.rs].  [TrapTheorems]:
      the way of an [ecall] and back.
    - [Asm]: [asm/entry.S], [switch.S], [kernelvec.S] and [trampoline.S] as lists
      of instructions, executed on a machine with registers, control registers and
      virtual memory.  [AsmSpec] has the rules, [AsmTheorems]: context switch,
      interrupts in kernel mode and the timer; [AsmUser]: from an [ecall] in user
      mode through the kernel back behind it.  [ForkReturn]: [fork] returns twice,
      at the level of the user's registers.
    - [Boot]: [rust_main].  [BootTheorems]: hart 0 runs to the scheduler without a
      failed allocation, for an image in the first 32 megabytes of memory (so that
      the heap has the [BOOT_ROOM] of 4096 chunks of 16 kilobytes, more than the
      tables and stacks of the kernel need), and the first process enters user
      mode with the initial program.
    - [Uart], [Console], [Virtio], [Mbuf]: [driver/uart.rs], [driver/plic.rs],
      [driver/console.rs], [driver/virtio_disk.rs], [net/mbuf.rs].  [UartTheorems]
      (with the lemmas on ring buffers), [ConsoleTheorems] and [VirtioTheorems]:
      bytes are sent in order on a line that only accepts a byte when it is idle,
      the console implements a line discipline, disk requests go through the rings
      to the device (the relation [serves]) and back and use their descriptors
      properly, with two defects.

    ** What the models leave out

    - Concurrency is explicit in [SpinlockConc] and [SleepConc], with sequentially
      consistent memory.  Elsewhere a function runs from the point where it has
      its locks to the point where it releases them or sleeps; going to sleep is
      a result of its own.
    - [Kernel.fork] is one step: that the child is runnable before its parent is
      recorded is not visible.  In [Trap] the interrupt controller and the handlers
      of the two devices, whose state is not part of the kernel's record, are
      arguments; [Uart], [Console] and [Virtio] have them on the devices' state.
    - The list nodes and bitmaps of the allocator live in the memory of its own
      model; the physical memory of the page tables has the pages it hands out.
    - Heap blocks other than pages and stacks ([Box], [Arc], [String], vectors) are
      values; running out of memory for them is not modelled.  Reference counts
      of open files are explicit.
    - Printing: [printf.rs] hands its arguments to the formatting of the core
      library, and the dump of the process table only prints.
    - The [csrr] and [csrw] wrappers of [arch/riscv/register] are the projections
      and updates of a record.
    - [net/protocol.rs], [net/e1000.rs] and [driver/pci.rs] are commented out in
      the source, and [src/buddy-allocator] is a byte-for-byte copy of
      [src/allocator].
    - The user programs in [xv6-user] are C programs on top of the system calls;
      the kernel makes no assumption about them. *)

From Stdlib Require Import ZArith Lia Btauto.
From stdpp Require Import base gmap strings numbers list.

Local Open Scope Z_scope.

(** ** Outcomes of Rust code *)

(** What running a piece of the kernel can end in.  [Done] is a normal return.
    [Panic] is a Rust panic (an explicit [panic!], a failed [unwrap], [assert!]
    or [debug_assert!], an out-of-range index, an arithmetic overflow in the
    debug build that the Makefile produces).  [UB] is an operation whose
    behaviour Rust does not define (an unchecked access out of bounds, a
    dereference of an address that holds no object).  [NoFuel] marks a loop
    model that has been given too few iterations. *)
Inductive outcome (A : Type) : Type :=
| Done (a : A)
| Panic (msg : string)
| UB (msg : string)
| NoFuel.
Global Arguments Done {A} a.
Global Arguments Panic {A} msg.
Global Arguments UB {A} msg.
Global Arguments NoFuel {A}.

Global Instance outcome_ret : MRet outcome := fun A a => Done a.
Global Instance outcome_bind : MBind outcome := fun A B f m =>
  match m with
  | Done a => f a
  | Panic s => Panic s
  | UB s => UB s
  | NoFuel => NoFuel
  end.

(** A Rust [Result<T, &'static str>]. *)
Inductive result (A : Type) : Type :=
| Ok (a : A)
| Err (msg : string).
Global Arguments Ok {A} a.
Global Arguments Err {A} msg.

Lemma bind_Done {A B} (m : outcome A) (f : A → outcome B) b :
  (m ≫= f) = Done b ↔ ∃ a, m = Done a ∧ f a = Done b.
Proof.
  split.
  - destruct m; simpl; intros H; try discriminate. eauto.
  - intros (a & -> & H). exact H.
Qed.

Lemma bind_Done_l {A B} (a : A) (f : A → outcome B) : (Done a ≫= f) = f a.
Proof. reflexivity. Qed.

(** [Option::unwrap] and the like: a [None] becomes a panic. *)
Definition unwrap {A} (msg : string) (o : option A) : outcome A :=
  match o with Some a => Done a | None => Panic msg end.

(** A failed guard panics. *)
Definition ensure (b : bool) (msg : string) : outcome unit :=
  if b then Done tt else Panic msg.

(** ** Machine integers *)

(** A [w]-bit unsigned integer is a [Z] between 0 and [2^w]; [chk] is the
    overflow check of the debug build. *)
Definition in_width (w x : Z) : bool := (0 <=? x) && (x <? 2 ^ w).

Definition chk (w x : Z) : outcome Z :=
  if in_width w x then Done x else Panic "arithmetic overflow".

Definition uadd (a b : Z) : outcome Z := chk 64 (a + b).
Definition usub (a b : Z) : outcome Z := chk 64 (a - b).
Definition umul (a b : Z) : outcome Z := chk 64 (a * b).
Definition udiv (a b : Z) : outcome Z :=
  if b =? 0 then Panic "attempt to divide by zero" else Done (a / b).
Definition urem (a b : Z) : outcome Z :=
  if b =? 0 then Panic "attempt to calculate the remainder with a divisor of zero"
  else Done (a mod b).
(** [1usize << k]: the shift amount is checked in the debug build. *)
Definition ushl (a k : Z) : outcome Z :=
  if (0 <=? k) && (k <? 64) then Done (Z.shiftl a k mod 2 ^ 64)
  else Panic "attempt to shift left with overflow".
Definition u32add (a b : Z) : outcome Z := chk 32 (a + b).
Definition u32sub (a b : Z) : outcome Z := chk 32 (a - b).

(** [!x] on a [w]-bit unsigned integer. *)
Definition unot (w x : Z) : Z := Z.lxor x (Z.ones w).

Global Arguments chk : simpl never.
Global Arguments uadd : simpl never.
Global Arguments usub : simpl never.
Global Arguments umul : simpl never.
Global Arguments udiv : simpl never.
Global Arguments urem : simpl never.
Global Arguments ushl : simpl never.
Global Arguments u32add : simpl never.
Global Arguments u32sub : simpl never.

Lemma chk_ok w x : 0 ≤ x < 2 ^ w → chk w x = Done x.
Proof. intros H. unfold chk, in_width. destruct (Z.leb_spec 0 x), (Z.ltb_spec x (2^w)); simpl; try reflexivity; lia. Qed.

Lemma chk_Done w x y : chk w x = Done y ↔ y = x ∧ 0 ≤ x < 2 ^ w.
Proof.
  unfold chk, in_width.
  destruct (Z.leb_spec 0 x), (Z.ltb_spec x (2^w)); simpl; split; try discriminate; try lia;
    [intros [= <-] | intros [-> _]]; auto.
Qed.

Lemma uadd_ok a b : 0 ≤ a + b < 2 ^ 64 → uadd a b = Done (a + b).
Proof. apply chk_ok. Qed.
Lemma usub_ok a b : 0 ≤ a - b < 2 ^ 64 → usub a b = Done (a - b).
Proof. apply chk_ok. Qed.
Lemma umul_ok a b : 0 ≤ a * b < 2 ^ 64 → umul a b = Done (a * b).
Proof. apply chk_ok. Qed.
Lemma udiv_ok a b : b ≠ 0 → udiv a b = Done (a / b).
Proof. intros H. unfold udiv. destruct (Z.eqb_spec b 0); [lia|reflexivity]. Qed.
Lemma urem_ok a b : b ≠ 0 → urem a b = Done (a mod b).
Proof. intros H. unfold urem. destruct (Z.eqb_spec b 0); [lia|reflexivity]. Qed.
Lemma u32add_ok a b : 0 ≤ a + b < 2 ^ 32 → u32add a b = Done (a + b).
Proof. apply chk_ok. Qed.
Lemma u32sub_ok a b : 0 ≤ a - b < 2 ^ 32 → u32sub a b = Done (a - b).
Proof. apply chk_ok. Qed.

Lemma ushl_one_ok k : 0 ≤ k < 64 → ushl 1 k = Done (2 ^ k).
Proof.
  intros H. unfold ushl. destruct (Z.leb_spec 0 k), (Z.ltb_spec k 64); simpl; try lia.
  rewrite Z.shiftl_mul_pow2, Z.mul_1_l by lia.
  rewrite Z.mod_small; [reflexivity|]. split; [lia|]. apply Z.pow_lt_mono_r; lia.
Qed.

(** ** Bits *)

Lemma testbit_high x w i : 0 ≤ x < 2 ^ w → w ≤ i → Z.testbit x i = false.
Proof.
  intros Hx Hi. destruct (Z.eq_dec x 0) as [->|]; [apply Z.testbit_0_l|].
  destruct (Z.le_gt_cases 0 w) as [Hw|Hw]; [|rewrite Z.pow_neg_r in Hx by lia; lia].
  apply Z.bits_above_log2; [lia|]. apply Z.log2_lt_pow2; [lia|].
  eapply Z.lt_le_trans; [apply Hx|]. apply Z.pow_le_mono_r; lia.
Qed.

(** Clearing the low [k] bits of a [w]-bit integer with the mask [!(2^k - 1)]. *)
Lemma land_unot_low w k x :
  0 ≤ k ≤ w → 0 ≤ x < 2 ^ w → Z.land x (unot w (2 ^ k - 1)) = x / 2 ^ k * 2 ^ k.
Proof.
  intros Hk Hx.
  assert (2 ^ k - 1 = Z.ones k) as -> by (rewrite Z.ones_equiv; lia).
  transitivity (Z.ldiff x (Z.ones k)).
  - apply Z.bits_inj'. intros i Hi. unfold unot.
    rewrite Z.land_spec, Z.ldiff_spec, Z.lxor_spec.
    destruct (Z.le_gt_cases w i).
    + rewrite (testbit_high x w) by lia. reflexivity.
    + rewrite (Z.ones_spec_low w) by lia. btauto.
  - rewrite Z.ldiff_ones_r by lia.
    rewrite Z.shiftl_mul_pow2, Z.shiftr_div_pow2 by lia. reflexivity.
Qed.

Lemma land_lt_pow2 x m w : 0 ≤ x → 0 ≤ m < 2 ^ w → 0 ≤ w → 0 ≤ Z.land x m < 2 ^ w.
Proof.
  intros Hx Hm Hw. assert (0 ≤ Z.land x m) as H0 by (apply Z.land_nonneg; auto).
  split; [exact H0|]. destruct (Z.eq_dec (Z.land x m) 0) as [->|]; [lia|].
  apply Z.log2_lt_pow2; [lia|]. pose proof (Z.log2_land x m Hx (proj1 Hm)).
  destruct (Z.eq_dec m 0) as [->|]; [rewrite Z.land_0_r in *; lia|].
  assert (Z.log2 m < w) by (apply Z.log2_lt_pow2; lia). lia.
Qed.

Lemma lor_lt_pow2 x y w : 0 ≤ w → 0 ≤ x < 2 ^ w → 0 ≤ y < 2 ^ w → 0 ≤ Z.lor x y < 2 ^ w.
Proof.
  intros Hw Hx Hy. assert (0 ≤ Z.lor x y) as H0 by (apply Z.lor_nonneg; lia).
  split; [exact H0|]. destruct (Z.eq_dec (Z.lor x y) 0) as [->|Hne]; [lia|].
  apply Z.log2_lt_pow2; [lia|]. rewrite Z.log2_lor by lia.
  assert (0 < w) by (destruct (Z.eq_dec w 0) as [->|]; [|lia];
    assert (x = 0) as -> by lia; assert (y = 0) as -> by lia; now destruct Hne).
  apply Z.max_lub_lt.
  - destruct (Z.eq_dec x 0) as [->|]; [simpl; lia|apply Z.log2_lt_pow2; lia].
  - destruct (Z.eq_dec y 0) as [->|]; [simpl; lia|apply Z.log2_lt_pow2; lia].
Qed.

(** The [bit_field] crate, which is not part of the repository: [get_bit] and
    [set_bit] on an unsigned integer, with the behaviour its documentation
    states. *)
Class BitField := {
  get_bit : Z → Z → bool;
  set_bit : Z → Z → bool → Z;
}.

Class BitFieldLaws `{!BitField} : Prop := {
  get_set_bit_eq w x i v : 0 ≤ i < w → 0 ≤ x < 2 ^ w → get_bit (set_bit x i v) i = v;
  get_set_bit_ne w x i j v :
    0 ≤ i < w → 0 ≤ j < w → 0 ≤ x < 2 ^ w → i ≠ j →
    get_bit (set_bit x i v) j = get_bit x j;
  set_bit_range w x i v : 0 ≤ i < w → 0 ≤ x < 2 ^ w → 0 ≤ set_bit x i v < 2 ^ w;
  get_bit_0 i : 0 ≤ i → get_bit 0 i = false;
}.

(** The bits are numbered from the least significant one. *)
Class BitFieldBits `{!BitField} : Prop := {
  get_bit_bits w x i : 0 ≤ i < w → 0 ≤ x < 2 ^ w → get_bit x i = Z.testbit x i;
  set_bit_bits w x i v : 0 ≤ i < w → 0 ≤ x < 2 ^ w → set_bit x i v = if v then Z.setbit x i else Z.clearbit x i;
}.

(** A reading of the crate, used only to show that its laws can be met. *)
Definition bit_field_std : BitField := {|
  get_bit x i := Z.testbit x i;
  set_bit x i v := if v then Z.setbit x i else Z.clearbit x i;
|}.

Lemma bit_field_std_laws : @BitFieldLaws bit_field_std.
Proof.
  split; simpl.
  - intros w x i [] Hi Hx; [apply Z.setbit_eq|apply Z.clearbit_eq]; lia.
  - intros w x i j [] Hi Hj Hx Hne; [apply Z.setbit_neq|apply Z.clearbit_neq]; lia.
  - intros w x i [] Hi Hx; unfold Z.setbit, Z.clearbit.
    + rewrite Z.shiftl_1_l. apply lor_lt_pow2; [lia|lia|].
      split; [lia|apply Z.pow_lt_mono_r; lia].
    + assert (0 ≤ Z.ldiff x (Z.shiftl 1 i) ≤ x) as ?; [|lia].
      apply Z.ldiff_le; [lia|]. apply Z.bits_inj_0. intros j.
      rewrite !Z.ldiff_spec. btauto.
  - intros i Hi. apply Z.testbit_0_l.
Qed.

Lemma bit_field_std_bits : @BitFieldBits bit_field_std.
Proof. by split. Qed.

(** The [bitflags] crate, which is not part of the repository: the union of two
    sets of flags, each given by its bits. *)
Class BitFlags := flags_or : Z → Z → Z.

Class BitFlagsLaws `{!BitFlags} : Prop := flags_or_bits x y : flags_or x y = Z.lor x y.

(** A reading of the crate, used only to show that its law can be met. *)
Definition bit_flags_std : BitFlags := Z.lor.

Lemma bit_flags_std_laws : @BitFlagsLaws bit_flags_std.
Proof. intros x y. reflexivity. Qed.

(** ** Loops *)

(** [for x in xs { body }]. *)
Fixpoint for_each {A S} (xs : list A) (body : A → S → outcome S) (s : S) : outcome S :=
  match xs with
  | [] => Done s
  | x :: r => s' ← body x s; for_each r body s'
  end.

(** [for i in lo..hi { body }]. *)
Definition for_range {S} (lo hi : Z) (body : Z → S → outcome S) (s : S) : outcome S :=
  for_each (seqZ lo (hi - lo)) body s.

(** A [for] loop whose body may leave it: [inl r] is a [return r] (or a
    [break] carrying [r]), [inr s] goes on with the state [s]. *)
Fixpoint for_each_until {A S R} (xs : list A) (body : A → S → outcome (R + S))
    (s : S) : outcome (R + S) :=
  match xs with
  | [] => Done (inr s)
  | x :: r =>
      o ← body x s;
      match o with
      | inl v => Done (inl v)
      | inr s' => for_each_until r body s'
      end
  end.

Definition for_range_until {S R} (lo hi : Z) (body : Z → S → outcome (R + S)) (s : S) :
    outcome (R + S) :=
  for_each_until (seqZ lo (hi - lo)) body s.

(** [while]/[loop] with an iteration budget: [inl r] leaves the loop with [r]. *)
Fixpoint while_fuel {S R} (fuel : nat) (body : S → outcome (R + S)) (s : S) : outcome R :=
  match fuel with
  | O => NoFuel
  | S n =>
      o ← body s;
      match o with
      | inl r => Done r
      | inr s' => while_fuel n body s'
      end
  end.

Lemma for_range_inv {S} (I : Z → S → Prop) lo hi (body : Z → S → outcome S) s :
  lo ≤ hi → I lo s →
  (∀ i s, lo ≤ i < hi → I i s → ∃ s', body i s = Done s' ∧ I (i + 1) s') →
  ∃ s', for_range lo hi body s = Done s' ∧ I hi s'.
Proof.
  unfold for_range. intros Hle. remember (Z.to_nat (hi - lo)) as n eqn:Hn.
  revert lo s Hle Hn. induction n as [|n IH]; intros lo s Hle Hn HI Hstep.
  - assert (lo = hi) as -> by lia. rewrite seqZ_nil by lia. simpl. eauto.
  - rewrite seqZ_cons by lia. simpl.
    destruct (Hstep lo s) as (s1 & -> & HI1); [lia|done|]. simpl.
    replace (Z.pred (hi - lo)) with (hi - Z.succ lo) by lia.
    apply IH; [lia|lia|exact HI1|]. intros i s2 Hi. apply Hstep. lia.
Qed.

(** The same for a loop whose body may also end in one particular panic. *)
Lemma for_range_panic {S} (I : Z → S → Prop) e lo hi (body : Z → S → outcome S) s :
  lo ≤ hi → I lo s →
  (∀ i s, lo ≤ i < hi → I i s → body i s = Panic e ∨ ∃ s', body i s = Done s' ∧ I (i + 1) s') →
  for_range lo hi body s = Panic e ∨ ∃ s', for_range lo hi body s = Done s' ∧ I hi s'.
Proof.
  unfold for_range. intros Hle. remember (Z.to_nat (hi - lo)) as n eqn:Hn.
  revert lo s Hle Hn. induction n as [|n IH]; intros lo s Hle Hn HI Hstep.
  - assert (lo = hi) as -> by lia. rewrite seqZ_nil by lia. simpl. eauto.
  - rewrite seqZ_cons by lia. simpl.
    destruct (Hstep lo s) as [->|(s1 & -> & HI1)]; [lia|done|by left|]. simpl.
    replace (Z.pred (hi - lo)) with (hi - Z.succ lo) by lia.
    apply IH; [lia|lia|exact HI1|]. intros i s2 Hi. apply Hstep. lia.
Qed.

Lemma for_range_until_inv {S R} (I : Z → S → Prop) (Q : R → Prop) lo hi
    (body : Z → S → outcome (R + S)) s :
  lo ≤ hi → I lo s →
  (∀ i s, lo ≤ i < hi → I i s →
     (∃ r, body i s = Done (inl r) ∧ Q r) ∨ (∃ s', body i s = Done (inr s') ∧ I (i + 1) s')) →
  (∃ r, for_range_until lo hi body s = Done (inl r) ∧ Q r) ∨
  (∃ s', for_range_until lo hi body s = Done (inr s') ∧ I hi s').
Proof.
  unfold for_range_until. intros Hle. remember (Z.to_nat (hi - lo)) as n eqn:Hn.
  revert lo s Hle Hn. induction n as [|n IH]; intros lo s Hle Hn HI Hstep.
  - assert (lo = hi) as -> by lia. rewrite seqZ_nil by lia. simpl. right. eauto.
  - rewrite seqZ_cons by lia. simpl.
    destruct (Hstep lo s) as [(r & -> & HQ)|(s1 & -> & HI1)]; [lia|done| |]; simpl; [left; eauto|].
    replace (Z.pred (hi - lo)) with (hi - Z.succ lo) by lia.
    apply IH; [lia|lia|exact HI1|]. intros i s2 Hi. apply Hstep. lia.
Qed.

(** A loop that is only left by a panic. *)
Lemma for_range_until_panic {S R} (I : Z → S → Prop) e lo hi (body : Z → S → outcome (R + S)) s :
  lo ≤ hi → I lo s →
  (∀ i s, lo ≤ i < hi → I i s → body i s = Panic e ∨ ∃ s', body i s = Done (inr s') ∧ I (i + 1) s') →
  for_range_until lo hi body s = Panic e ∨ ∃ s', for_range_until lo hi body s = Done (inr s') ∧ I hi s'.
Proof.
  unfold for_range_until. intros Hle. remember (Z.to_nat (hi - lo)) as n eqn:Hn.
  revert lo s Hle Hn. induction n as [|n IH]; intros lo s Hle Hn HI Hstep.
  - assert (lo = hi) as -> by lia. rewrite seqZ_nil by lia. simpl. eauto.
  - rewrite seqZ_cons by lia. simpl. destruct (Hstep lo s) as [->|(s1 & -> & HI1)]; [lia|done|by left|]. simpl.
    replace (Z.pred (hi - lo)) with (hi - Z.succ lo) by lia.
    apply IH; [lia|lia|exact HI1|]. intros i s2 Hi. apply Hstep. lia.
Qed.

(** The result with which a loop is left comes from one of its rounds. *)
Lemma for_range_until_inl {S R} lo hi (body : Z → S → outcome (R + S)) s r :
  for_range_until lo hi body s = Done (inl r) → ∃ i s', body i s' = Done (inl r).
Proof.
  unfold for_range_until. revert s. induction (seqZ lo (hi - lo)) as [|i l IH]; intros s; simpl; [done|].
  destruct (body i s) as [[r'|s']| | |] eqn:E; simpl; try done; [intros [= ->]; eauto|apply IH].
Qed.

Lemma while_fuel_inv {S R} (I : S → Prop) (m : S → Z) (Q : R → Prop)
    (body : S → outcome (R + S)) :
  (∀ s, I s →
     (∃ r, body s = Done (inl r) ∧ Q r) ∨
     (∃ s', body s = Done (inr s') ∧ I s' ∧ 0 ≤ m s' < m s)) →
  ∀ fuel s, I s → m s < Z.of_nat fuel → 0 ≤ m s →
  ∃ r, while_fuel fuel body s = Done r ∧ Q r.
Proof.
  intros Hstep. induction fuel as [|fuel IH]; intros s HI Hm Hm0; [lia|]. simpl.
  destruct (Hstep s HI) as [(r & -> & HQ)|(s1 & -> & HI1 & Hlt)]; simpl; [eauto|].
  apply IH; [done|lia|lia].
Qed.

(** The same for loops that may also panic or run into undefined behaviour. *)
Lemma while_fuel_rule {S R} (I : S → Prop) (m : S → Z) (Q : outcome R → Prop)
    (body : S → outcome (R + S)) :
  (∀ s, I s →
     (∃ r, body s = Done (inl r) ∧ Q (Done r)) ∨
     (∃ msg, body s = Panic msg ∧ Q (Panic msg)) ∨
     (∃ msg, body s = UB msg ∧ Q (UB msg)) ∨
     (∃ s', body s = Done (inr s') ∧ I s' ∧ 0 ≤ m s' < m s)) →
  ∀ fuel s, I s → m s < Z.of_nat fuel → 0 ≤ m s → Q (while_fuel fuel body s).
Proof.
  intros Hstep. induction fuel as [|fuel IH]; intros s HI Hm Hm0; [lia|]. simpl.
  destruct (Hstep s HI) as [(r & -> & HQ)|[(msg & -> & HQ)|[(msg & -> & HQ)|(s1 & -> & HI1 & Hlt)]]];
    simpl; [done..|].
  apply IH; [done|lia|lia].
Qed.

(** ** Automation *)

Create Rewrite HintDb xv6.
#[export] Hint Rewrite @bind_Done_l : xv6.
#[export] Hint Rewrite uadd_ok usub_ok umul_ok udiv_ok urem_ok ushl_one_ok
  u32add_ok u32sub_ok chk_ok using lia : xv6.

(** Linear arithmetic with quotients and remainders. *)
Ltac divlia := Z.to_euclidean_division_equations; lia.

(** Split every hypothesis saying that a sequence of steps returned normally. *)
Ltac inv_done :=
  repeat match goal with
  | H : Done _ = Done _ |- _ => injection H as H; subst
  | H : (_ ≫= _) = Done _ |- _ =>
      let a := fresh "v" in let H1 := fresh "Hv" in
      apply bind_Done in H as (a & H1 & H)
  | H : Panic _ = Done _ |- _ => discriminate H
  | H : UB _ = Done _ |- _ => discriminate H
  | H : NoFuel = Done _ |- _ => discriminate H
  | H : chk _ _ = Done _ |- _ => apply chk_Done in H as [-> ?]
  | H : uadd _ _ = Done _ |- _ => apply chk_Done in H as [-> ?]
  | H : usub _ _ = Done _ |- _ => apply chk_Done in H as [-> ?]
  | H : umul _ _ = Done _ |- _ => apply chk_Done in H as [-> ?]
  end.

(** Turn boolean comparisons into propositions. *)
Ltac zify_bool :=
  repeat match goal with
  | H : (_ =? _) = true |- _ => apply Z.eqb_eq in H
  | H : (_ =? _) = false |- _ => apply Z.eqb_neq in H
  | H : (_ <? _) = true |- _ => apply Z.ltb_lt in H
  | H : (_ <? _) = false |- _ => apply Z.ltb_ge in H
  | H : (_ <=? _) = true |- _ => apply Z.leb_le in H
  | H : (_ <=? _) = false |- _ => apply Z.leb_gt in H
  | H : (_ && _)%bool = true |- _ => apply andb_true_iff in H as [? ?]
  | H : (_ || _)%bool = false |- _ => apply orb_false_iff in H as [? ?]
  | H : negb _ = true |- _ => apply negb_true_iff in H
  | H : negb _ = false |- _ => apply negb_false_iff in H
  end.
