(* ===== verification/BuddyList.v ===== *)
(** * The intrusive doubly-linked list of the buddy allocator

    Models [allocator/src/list.rs].  A [List] node lives at a machine address,
    inside the free block it describes or inside a [BuddyInfo]; the part of
    memory that holds nodes is a finite map from addresses to nodes.  The
    operations are the pointer updates of the source, in its order.  They are
    shown to implement the operations of a sequence of addresses: [is_list m h
    xs] says that the sentinel [h] heads the circular list of the blocks [xs]. *)

From Stdlib Require Import ZArith Lia.
From stdpp Require Import base gmap strings numbers list.
From S2P Require Import Prelude.

Local Open Scope Z_scope.

(** [struct List { prev, next }]; a null pointer is the address 0. *)
Record List := mkList { prev : Z; next : Z }.

(** The nodes in memory, by address. *)
Abbreviation nodes := (gmap Z List).

(** Read the node at an address.  Reading where no node was ever written is
    undefined behaviour. *)
Definition load (m : nodes) (a : Z) : outcome List :=
  match m !! a with
  | Some l => Done l
  | None => UB "no List node at this address"
  end.

(** [p.as_mut().unwrap()] on a raw pointer. *)
Definition as_mut (p : Z) : outcome Z :=
  if p =? 0 then Panic "called `Option::unwrap()` on a `None` value" else Done p.

Definition init (self : Z) (m : nodes) : nodes := <[self := mkList self self]> m.

Definition push (self raw_addr : Z) (m : nodes) : outcome nodes :=
  s ← load m self;
  let m := <[raw_addr := mkList self (next s)]> m in
  s ← load m self;
  n ← as_mut (next s);
  old ← load m n;
  let m := <[n := mkList raw_addr (next old)]> m in
  s ← load m self;
  Done (<[self := mkList (prev s) raw_addr]> m).

Definition is_empty (self : Z) (m : nodes) : outcome bool :=
  s ← load m self;
  Done (next s =? self).

Definition remove (self : Z) (m : nodes) : outcome nodes :=
  s ← load m self;
  p ← load m (prev s);
  let m := <[prev s := mkList (prev p) (next s)]> m in
  s ← load m self;
  n ← load m (next s);
  Done (<[next s := mkList (prev s) (next n)]> m).

Definition pop (self : Z) (m : nodes) : outcome (option Z * nodes) :=
  e ← is_empty self m;
  if e : bool then Done (None, m)
  else
    s ← load m self;
    let raw_addr := next s in
    a ← as_mut (next s);
    m ← remove a m;
    Done (Some raw_addr, m).

(** ** The sequence a list stands for *)

Definition nx (m : nodes) (a : Z) : option Z := next <$> m !! a.
Definition pv (m : nodes) (a : Z) : option Z := prev <$> m !! a.

(** Consecutive nodes of [l] point at each other. *)
Fixpoint path (m : nodes) (l : list Z) : Prop :=
  match l with
  | a :: ((b :: _) as l') => nx m a = Some b ∧ pv m b = Some a ∧ path m l'
  | _ => True
  end.

(** The circular list headed by the sentinel [h] holds the addresses [xs]. *)
Definition is_list (m : nodes) (h : Z) (xs : list Z) : Prop :=
  NoDup (h :: xs) ∧ Forall (λ a, a ≠ 0) (h :: xs) ∧ path m (h :: xs ++ [h]).

Lemma path_cons m a b l :
  path m (a :: b :: l) ↔ nx m a = Some b ∧ pv m b = Some a ∧ path m (b :: l).
Proof. done. Qed.

Lemma path_app m l1 y l2 : path m (l1 ++ y :: l2) ↔ path m (l1 ++ [y]) ∧ path m (y :: l2).
Proof.
  induction l1 as [|a l1 IH]; simpl; [tauto|].
  destruct l1 as [|b l1]; simpl in *; [tauto|]. rewrite IH. tauto.
Qed.

(** A path only depends on the forward pointers of all its nodes but the last
    and on the backward pointers of all its nodes but the first. *)
Lemma path_ext m m' l z :
  path m (l ++ [z]) →
  (∀ y, y ∈ l → nx m' y = nx m y) →
  (∀ y, y ∈ tail (l ++ [z]) → pv m' y = pv m y) →
  path m' (l ++ [z]).
Proof.
  induction l as [|a l IH]; simpl; [done|].
  destruct (l ++ [z]) as [|b r] eqn:E; [done|].
  intros (Hn & Hp & Hr) Hnx Hpv. split_and!.
  - rewrite Hnx; [done|set_solver].
  - rewrite Hpv; [done|set_solver].
  - apply IH; [done|set_solver|]. simpl in *. set_solver.
Qed.

Lemma nx_insert m a l b : nx (<[a := l]> m) b = if decide (a = b) then Some (next l) else nx m b.
Proof. unfold nx. rewrite lookup_insert. by case_decide. Qed.
Lemma pv_insert m a l b : pv (<[a := l]> m) b = if decide (a = b) then Some (prev l) else pv m b.
Proof. unfold pv. rewrite lookup_insert. by case_decide. Qed.

Lemma nx_load m a b : nx m a = Some b → ∃ l, load m a = Done l ∧ next l = b.
Proof. unfold nx, load. destruct (m !! a) as [l|]; simpl; [|done]. intros [= <-]. eauto. Qed.
Lemma pv_load m a b : pv m a = Some b → ∃ l, load m a = Done l ∧ prev l = b.
Proof. unfold pv, load. destruct (m !! a) as [l|]; simpl; [|done]. intros [= <-]. eauto. Qed.
Lemma load_nx m a l : load m a = Done l → nx m a = Some (next l).
Proof. unfold nx, load. destruct (m !! a); simpl; [|done]. by intros [= ->]. Qed.
Lemma load_pv m a l : load m a = Done l → pv m a = Some (prev l).
Proof. unfold pv, load. destruct (m !! a); simpl; [|done]. by intros [= ->]. Qed.
Lemma load_insert m a l b : load (<[a := l]> m) b = if decide (a = b) then Done l else load m b.
Proof. unfold load. rewrite lookup_insert. by case_decide. Qed.

(** The sentinel and its two neighbours are nodes that point at each other. *)
Lemma is_list_ends m h xs :
  is_list m h xs →
  ∃ l, load m h = Done l ∧ next l = hd h xs ∧ prev l = default h (list.last xs).
Proof.
  intros (_ & _ & Hp). destruct (m !! h) as [l|] eqn:E; cycle 1.
  { exfalso. destruct xs as [|x xs]; destruct Hp as [Hn _]; unfold nx in Hn;
      rewrite E in Hn; discriminate. }
  exists l. unfold load. rewrite E. split_and!; [done| |].
  - destruct xs as [|x xs]; destruct Hp as [Hn _]; unfold nx in Hn; rewrite E in Hn;
      by injection Hn.
  - destruct xs as [|x xs] using rev_ind.
    + destruct Hp as (_ & Hn & _). unfold pv in Hn. rewrite E in Hn. by injection Hn.
    + clear IHxs. rewrite last_snoc. simpl.
      rewrite <- app_assoc in Hp. rewrite (app_comm_cons _ _ h) in Hp. simpl in Hp.
      apply (path_app m (h :: xs) x [h]) in Hp as [_ (_ & Hn & _)].
      unfold pv in Hn. rewrite E in Hn. by injection Hn.
Qed.

Lemma is_list_nil_init h m : h ≠ 0 → is_list (init h m) h [].
Proof.
  intros Hh. split_and!.
  - apply NoDup_singleton.
  - by apply Forall_singleton.
  - simpl. unfold init. rewrite nx_insert, pv_insert, !decide_True by done. done.
Qed.

Lemma is_empty_spec m h xs : is_list m h xs → is_empty h m = Done (bool_decide (xs = [])).
Proof.
  intros Hl. pose proof Hl as (Hnd & _ & _).
  apply is_list_ends in Hl as (l & Hload & Hn & _). unfold is_empty. rewrite Hload. simpl.
  rewrite Hn. destruct xs as [|x xs]; simpl.
  - by rewrite Z.eqb_refl.
  - apply NoDup_cons in Hnd as [Hnd _].
    f_equal. transitivity false; [apply Z.eqb_neq; set_solver|done].
Qed.

Global Arguments path : simpl never.

(** A list is not affected by changes elsewhere in memory. *)
Lemma is_list_frame m m' h xs :
  is_list m h xs → (∀ a, a ∈ h :: xs → m' !! a = m !! a) → is_list m' h xs.
Proof.
  intros (Hnd & Hnz & Hp) Hext. split_and!; [done|done|].
  rewrite app_comm_cons in *. apply (path_ext m); [done| |];
    intros y Hy; unfold nx, pv; rewrite Hext; set_solver.
Qed.

Lemma push_spec m h xs raw :
  is_list m h xs → raw ∉ h :: xs → raw ≠ 0 →
  ∃ m', push h raw m = Done m' ∧ is_list m' h (raw :: xs) ∧
        ∀ a, a ∉ raw :: h :: xs → m' !! a = m !! a.
Proof.
  intros Hl Hraw Hraw0. pose proof Hl as (Hnd & Hnz & Hp).
  apply is_list_ends in Hl as (l & Hload & Hn & Hpv).
  unfold push. rewrite Hload. simpl. rewrite load_insert, decide_False by set_solver.
  rewrite Hload. simpl. unfold as_mut.
  assert (next l ≠ 0) as Hnl0.
  { rewrite Hn. destruct xs as [|x xs]; simpl; by inversion Hnz as [|?? ? Hx]; inversion Hx. }
  destruct (Z.eqb_spec (next l) 0); [done|]. simpl.
  destruct xs as [|x xs]; simpl in Hn, Hpv.
  - rewrite Hn. rewrite load_insert, decide_False by set_solver. rewrite Hload. simpl.
    rewrite load_insert, decide_True by done. simpl.
    eexists. split; [done|]. split; [split_and!|].
    + apply NoDup_cons; split; [set_solver|apply NoDup_singleton].
    + repeat constructor; [by inversion Hnz|done].
    + simpl. rewrite !path_cons, !nx_insert, !pv_insert. simpl.
      assert (raw ≠ h) by set_solver. repeat case_decide; split_and!; congruence || done.
    + intros a Ha. rewrite !lookup_insert_ne by set_solver. done.
  - rewrite Hn. pose proof Hnd as [Hhx _]%NoDup_cons. assert (x ≠ h ∧ x ≠ raw ∧ raw ≠ h) as (Hxh & Hxr & Hrh) by set_solver.
    simpl in Hp. rewrite path_cons in Hp. destruct Hp as (Hnh & Hpx & Hrest).
    destruct (nx_load m x) with (b := hd h xs) as (lx & Hlx & Hnx).
    { destruct xs as [|y xs]; simpl in Hrest |- *; rewrite path_cons in Hrest; tauto. }
    rewrite load_insert, decide_False by done. rewrite Hlx. simpl.
    rewrite !load_insert, !decide_False by done. rewrite Hload. simpl.
    eexists. split; [done|]. split; [split_and!|].
    + apply NoDup_cons in Hnd as [Hh Hnd].
      apply NoDup_cons; split; [set_solver|]. apply NoDup_cons; split; [set_solver|done].
    + rewrite !Forall_cons in *. tauto.
    + simpl. rewrite !path_cons, !nx_insert, !pv_insert.
      split_and!; [repeat case_decide; simpl; congruence..|].
      rewrite app_comm_cons in *. apply (path_ext m); [done| |].
      * intros y Hy. rewrite !nx_insert. simpl.
        rewrite (decide_False (P := h = y)) by set_solver.
        case_decide as Hxy.
        { subst y. apply load_nx in Hlx. by rewrite Hlx. }
        rewrite decide_False by set_solver. done.
      * intros y Hy. simpl in Hy. rewrite !pv_insert. simpl.
        apply NoDup_cons in Hnd as [Hh Hnd]. apply NoDup_cons in Hnd as [Hx Hnd].
        case_decide as Hhy.
        { subst y. apply load_pv in Hload. by rewrite Hload. }
        rewrite !decide_False by set_solver. done.
    + intros a Ha. rewrite !lookup_insert_ne by set_solver. done.
Qed.

(** The second read of [remove]: the predecessor may also be the successor. *)
Lemma remove_last_node m p n lp ln :
  load m n = Done ln →
  ∃ ln', (if decide (p = n) then Done (mkList (prev lp) n) else load m n) = Done ln' ∧
         next ln' = if decide (p = n) then n else next ln.
Proof. intros Hln. case_decide; eexists; split; [done|done|done|done]. Qed.

Lemma remove_spec m h xs a ys :
  is_list m h (xs ++ a :: ys) →
  ∃ m', remove a m = Done m' ∧ is_list m' h (xs ++ ys) ∧
        ∀ b, b ∉ h :: xs ++ ys → m' !! b = m !! b.
Proof.
  intros (Hnd & Hnz & Hp).
  assert (∃ ps p, h :: xs = ps ++ [p]) as (ps & p & Hps).
  { destruct xs as [|x xs _] using rev_ind; [by exists [], h|]. by exists (h :: xs), x. }
  assert (∃ n ns, ys ++ [h] = n :: ns) as (n & ns & Hns) by (destruct ys; simpl; eauto).
  assert (h :: (xs ++ a :: ys) ++ [h] = ps ++ p :: a :: n :: ns) as Hcyc.
  { rewrite <- app_assoc. simpl. rewrite app_comm_cons, Hps, Hns, <- app_assoc. done. }
  rewrite Hcyc in Hp. rewrite path_app, !path_cons in Hp.
  destruct Hp as (Hpath1 & Hnp & Hpa & Hna & Hpn & Hpath2).
  assert (n ∈ h :: ys) as Hnin by (destruct ys; simpl in Hns; simplify_eq; set_solver).
  assert ((n ∉ xs) ∧ (n ∉ ns) ∧ (p ∉ ys)) as (Hnxs & Hnns & Hpys).
  { pose proof Hnd as Hnd'. rewrite app_comm_cons, Hps in Hnd'.
    apply NoDup_app in Hnd' as (_ & Hdisj & _).
    apply NoDup_cons in Hnd as [Hh Hnd]. apply NoDup_app in Hnd as (_ & Hd & Hnd).
    apply NoDup_cons in Hnd as [_ Hndys].
    assert (NoDup (ys ++ [h])) as Hndn
      by (apply NoDup_app; split_and!; [done|set_solver|apply NoDup_singleton]).
    rewrite Hns in Hndn. apply NoDup_cons in Hndn as [Hndn _]. set_solver. }
  rewrite app_comm_cons, Hps in Hnd.
  apply NoDup_app in Hnd as (Hnd1 & Hdisj & Hnd2).
  apply NoDup_cons in Hnd2 as [Hays Hndys]. pose proof Hnd1 as (_ & Hdp & _)%NoDup_app.
  assert (p ≠ a) as Hpne by set_solver.
  assert (h ∈ ps ++ [p]) as Hhin by (rewrite <- Hps; set_solver).
  assert (n ≠ a) as Hnne by set_solver.
  apply nx_load in Hna as (la & Hla & Hnla). pose proof (load_pv _ _ _ Hla) as Hpla.
  assert (prev la = p) as Hprev by congruence.
  apply nx_load in Hnp as (lp & Hlp & Hnlp).
  apply pv_load in Hpn as (ln & Hln & Hpln).
  unfold remove. rewrite Hla. simpl. rewrite Hprev, Hlp. simpl.
  rewrite load_insert, decide_False by done. rewrite Hla. simpl. rewrite Hnla, Hprev.
  rewrite load_insert.
  destruct (remove_last_node m p n lp ln Hln) as (ln' & -> & Hnln'). simpl.
  eexists. split; [done|]. split; [split_and!|].
  - rewrite app_comm_cons, Hps. apply NoDup_app. split_and!; [done|set_solver|done].
  - rewrite app_comm_cons, Hps in *. rewrite !Forall_app, !Forall_cons in *. tauto.
  - rewrite <- app_assoc, app_comm_cons, Hps, Hns, <- app_assoc. simpl.
    rewrite path_app, path_cons. split_and!.
    + apply (path_ext m); [done| |]; intros y Hy; rewrite ?nx_insert, ?pv_insert; simpl.
      * rewrite Hnln'. apply load_nx in Hln. assert (p ≠ y) by set_solver.
        repeat case_decide; congruence.
      * rewrite <- Hps in Hy. simpl in Hy. apply load_pv in Hlp.
        assert (n ≠ y) by set_solver. repeat case_decide; congruence.
    + rewrite !nx_insert. simpl. rewrite Hnln'. repeat case_decide; congruence.
    + rewrite pv_insert. by rewrite decide_True.
    + rewrite <- Hns in *. apply (path_ext m); [done| |];
        intros y Hy; rewrite ?nx_insert, ?pv_insert; simpl.
      * rewrite Hnln'. apply load_nx in Hln. assert (p ≠ y) by set_solver.
        repeat case_decide; congruence.
      * rewrite Hns in Hy. simpl in Hy. apply load_pv in Hlp.
        assert (n ≠ y) by set_solver. repeat case_decide; congruence.
  - intros b Hb. rewrite app_comm_cons, Hps in Hb.
    rewrite !lookup_insert_ne; [done|set_solver|].
    intros ->. rewrite <- Hps in Hb. set_solver.
Qed.

(** Popping takes the head of the sequence, or reports that it is empty. *)
Lemma pop_spec m h x xs :
  is_list m h (x :: xs) →
  ∃ m', pop h m = Done (Some x, m') ∧ is_list m' h xs ∧
        ∀ b, b ∉ h :: xs → m' !! b = m !! b.
Proof.
  intros Hl. unfold pop. rewrite (is_empty_spec m h (x :: xs)) by done. simpl.
  pose proof Hl as (_ & Hnz & _).
  destruct (is_list_ends _ _ _ Hl) as (l & -> & Hn & _). simpl in *. rewrite Hn.
  unfold as_mut. destruct (Z.eqb_spec x 0); [rewrite !Forall_cons in Hnz; tauto|]. simpl.
  destruct (remove_spec m h [] x xs Hl) as (m' & -> & Hl' & Hfr). simpl. eauto.
Qed.

Lemma pop_empty m h : is_list m h [] → pop h m = Done (None, m).
Proof. intros Hl. unfold pop. by rewrite (is_empty_spec m h []). Qed.
