(* ===== verification/Buddy.v ===== *)
(** * The buddy allocator

    Models [allocator/src/lib.rs] (the crate that [kernel/src/memory/kalloc.rs]
    wraps in a spinlock as the global allocator).  [BuddySystem] keeps the
    fields of the source; the [infos] slice is a list of [BuddyInfo]s whose
    alloc and split bitmaps are lists of bytes, and the [List] heads of the
    [free] fields live in the node memory [mem], the one of size [i] at
    [infos_ptr + 48 * i].  Every arithmetic operation carries the overflow
    check of the debug build, and every unchecked slice access its bound: a
    violation is [Panic] or [UB], never a made-up value. *)

From Stdlib Require Import ZArith Lia.
From stdpp Require Import base gmap strings numbers list.
From S2P Require Import Prelude BuddyList.

Local Open Scope Z_scope.

(** [core::alloc::Layout]. *)
Record Layout := mkLayout { size : Z; align : Z }.

Record BuddyInfo := mkInfo { alloc_map : list Z; split_map : list Z }.

Record BuddySystem := mkBuddy {
  initialized : bool;
  base : Z;
  actual_end : Z;
  nsizes : Z;
  leaf_size : Z;
  max_alignment : Z;
  infos_ptr : Z;
  infos : list BuddyInfo;
  mem : nodes;
}.

Definition set_infos (b : BuddySystem) (l : list BuddyInfo) : BuddySystem :=
  mkBuddy (initialized b) (base b) (actual_end b) (nsizes b) (leaf_size b)
    (max_alignment b) (infos_ptr b) l (mem b).
Definition set_mem (b : BuddySystem) (m : nodes) : BuddySystem :=
  mkBuddy (initialized b) (base b) (actual_end b) (nsizes b) (leaf_size b)
    (max_alignment b) (infos_ptr b) (infos b) m.
Definition set_nsizes (b : BuddySystem) (n : Z) : BuddySystem :=
  mkBuddy (initialized b) (base b) (actual_end b) n (leaf_size b)
    (max_alignment b) (infos_ptr b) (infos b) (mem b).

(** ** Integer helpers *)

(** [usize::is_power_of_two], [usize::next_power_of_two],
    [usize::trailing_zeros] of the standard library. *)
Definition is_power_of_two (n : Z) : bool := (0 <? n) && (Z.land n (n - 1) =? 0).

Definition next_power_of_two (n : Z) : outcome Z :=
  if n <=? 1 then Done 1 else chk 64 (2 ^ (Z.log2 (n - 1) + 1)).

Fixpoint pos_trailing_zeros (p : positive) : Z :=
  match p with
  | xO q => 1 + pos_trailing_zeros q
  | _ => 0
  end.

Definition trailing_zeros (n : Z) : Z :=
  match n with
  | Zpos p => pos_trailing_zeros p
  | _ => 64
  end.

Definition round_up (n size : Z) : outcome Z :=
  a ← usub n 1;
  q ← udiv a size;
  q1 ← uadd q 1;
  umul q1 size.

Definition round_down (n size : Z) : outcome Z :=
  q ← udiv n size;
  umul q size.

(** The loop halves a 64-bit integer, so 64 iterations and one test are enough. *)
Definition log2 (n : Z) : outcome Z :=
  while_fuel 65 (λ '(n, k),
    if 1 <? n then
      k ← uadd k 1;
      Done (inr (Z.shiftr n 1, k))
    else Done (inl k)) (n, 0).

(** ** Geometry of the blocks *)

Section Geometry.
Variable b : BuddySystem.

Definition max_size : outcome Z := usub (nsizes b) 1.

Definition n_blk (k : Z) : outcome Z :=
  m ← max_size;
  d ← usub m k;
  ushl 1 d.

Definition blk_size (k : Z) : outcome Z :=
  s ← ushl 1 k;
  umul s (leaf_size b).

Definition blk_index (k addr : Z) : outcome Z :=
  d ← usub addr (base b);
  bs ← blk_size k;
  udiv d bs.

Definition blk_index_next (k addr : Z) : outcome Z :=
  bs ← blk_size k;
  d ← usub addr (base b);
  i ← udiv d bs;
  d ← usub addr (base b);
  r ← urem d bs;
  if 0 <? r then uadd i 1 else Done i.

Definition blk_addr (k bi : Z) : outcome Z :=
  bs ← blk_size k;
  o ← umul bi bs;
  uadd (base b) o.
End Geometry.

(** ** The bitmaps of a [BuddyInfo] *)

Definition get_alloc (info : BuddyInfo) (index : Z) : outcome Z :=
  match alloc_map info !! Z.to_nat index with
  | Some byte => Done byte
  | None => UB "get_unchecked out of the alloc slice"
  end.

Definition get_split (info : BuddyInfo) (index : Z) : outcome Z :=
  match split_map info !! Z.to_nat index with
  | Some byte => Done byte
  | None => UB "get_unchecked out of the split slice"
  end.

Section Bits.
Context {BF : BitField}.

Definition alloc_set (info : BuddyInfo) (index : Z) (set_or_clear : bool) : outcome BuddyInfo :=
  let i1 := index / 8 in
  let i2 := index mod 8 in
  byte ← get_alloc info i1;
  Done (mkInfo (<[Z.to_nat i1 := set_bit byte i2 set_or_clear]> (alloc_map info))
               (split_map info)).

Definition split_set (info : BuddyInfo) (index : Z) (set_or_clear : bool) : outcome BuddyInfo :=
  let i1 := index / 8 in
  let i2 := index mod 8 in
  byte ← get_split info i1;
  Done (mkInfo (alloc_map info)
               (<[Z.to_nat i1 := set_bit byte i2 set_or_clear]> (split_map info))).

Definition is_alloc_set (info : BuddyInfo) (index : Z) : outcome bool :=
  let i1 := index / 8 in
  let i2 := index mod 8 in
  byte ← get_alloc info i1;
  Done (get_bit byte i2).

Definition is_split_set (info : BuddyInfo) (index : Z) : outcome bool :=
  let i1 := index / 8 in
  let i2 := index mod 8 in
  byte ← get_split info i1;
  Done (get_bit byte i2).
End Bits.

(** [get_info_mut]: an unchecked access into the [infos] slice. *)
Definition get_info_mut (b : BuddySystem) (index : Z) : outcome BuddyInfo :=
  match infos b !! Z.to_nat index with
  | Some info => Done info
  | None => UB "get_unchecked_mut out of the infos slice"
  end.

(** Write back the [BuddyInfo] that [get_info_mut] borrowed. *)
Definition put_info (b : BuddySystem) (index : Z) (info : BuddyInfo) : BuddySystem :=
  set_infos b (<[Z.to_nat index := info]> (infos b)).

(** [size_of::<BuddyInfo>()]: a [List] and two fat pointers. *)
Definition size_of_BuddyInfo : Z := 48.

(** The address of the [free] field of the info of size [i]. *)
Definition free_list (b : BuddySystem) (i : Z) : Z := infos_ptr b + size_of_BuddyInfo * i.

Section Operations.
Context {BF : BitField}.

(** ** Allocation *)

(** The first size from [sizei] on whose free list is not empty. *)
Definition find_free (b : BuddySystem) (sizei : Z) : outcome Z :=
  while_fuel (S (Z.to_nat (nsizes b))) (λ sizei,
    if sizei <? nsizes b then
      _ ← get_info_mut b sizei;
      e ← is_empty (free_list b sizei) (mem b);
      if negb e then Done (inl sizei)
      else
        s ← uadd sizei 1;
        Done (inr s)
    else Done (inl sizei)) sizei.

(** Split the block of size [sizei] at [raw_addr]: keep its left half, free its
    right half. *)
Definition split_iter (b : BuddySystem) (sizei raw_addr : Z) : outcome (Z * BuddySystem) :=
  bi ← blk_index b sizei raw_addr;
  info ← get_info_mut b sizei;
  info ← split_set info bi true;
  let b := put_info b sizei info in
  sizei1 ← usub sizei 1;
  bs1 ← blk_size b sizei1;
  bi1 ← blk_index b sizei1 raw_addr;
  info1 ← get_info_mut b sizei1;
  info1 ← alloc_set info1 bi1 true;
  let b := put_info b sizei1 info1 in
  buddy_addr ← uadd raw_addr bs1;
  m ← push (free_list b sizei1) buddy_addr (mem b);
  Done (sizei1, set_mem b m).

(** Split the block at [raw_addr] down to the size [smalli]. *)
Definition split_down (b : BuddySystem) (sizei smalli raw_addr : Z) : outcome BuddySystem :=
  while_fuel (S (Z.to_nat (nsizes b))) (λ '(sizei, b),
    if smalli <? sizei then
      s ← split_iter b sizei raw_addr;
      Done (inr s)
    else Done (inl b)) (sizei, b).

(** The smallest block size that can hold the layout. *)
Definition small_size (b : BuddySystem) (layout : Layout) : outcome Z :=
  if size layout <=? leaf_size b then Done 0
  else
    p ← next_power_of_two (size layout);
    q ← udiv p (leaf_size b);
    Done (trailing_zeros q).

(** [alloc]; a null pointer is the address 0. *)
Definition alloc (b : BuddySystem) (layout : Layout) : outcome (Z * BuddySystem) :=
  if size layout =? 0 then Done (0, b)
  else if max_alignment b <? align layout then Done (0, b)
  else
    smalli ← small_size b layout;
    sizei ← find_free b smalli;
    if nsizes b <=? sizei then Done (0, b)
    else
      _ ← get_info_mut b sizei;
      '(o, m) ← pop (free_list b sizei) (mem b);
      let b := set_mem b m in
      match o with
      | None => Done (0, b)
      | Some raw_addr =>
          bi ← blk_index b sizei raw_addr;
          info ← get_info_mut b sizei;
          info ← alloc_set info bi true;
          let b := put_info b sizei info in
          b ← split_down b sizei smalli raw_addr;
          Done (raw_addr, b)
      end.

(** ** Deallocation *)

(** The size of the block an address was handed out from: the first size
    whose parent block is split; [nsizes] when there is none. *)
Definition find_size (b : BuddySystem) (raw_addr : Z) : outcome Z :=
  m ← max_size b;
  r ← for_range_until 0 m (λ i (_ : unit),
    i1 ← uadd i 1;
    bi ← blk_index b i1 raw_addr;
    info ← get_info_mut b i1;
    s ← is_split_set info bi;
    if s : bool then Done (inl i) else Done (inr tt)) tt;
  match r with
  | inl i => Done i
  | inr _ => Done (nsizes b)
  end.

(** Clear the alloc bit of the block of size [sizei] at [raw_addr]; [inl] when
    its buddy is in use, else [inr] with the parent the two are merged into. *)
Definition coalesce_iter (b : BuddySystem) (sizei raw_addr : Z) :
    outcome (Z * Z * BuddySystem + Z * Z * BuddySystem) :=
  bi ← blk_index b sizei raw_addr;
  buddyi ← (if bi mod 2 =? 0 then uadd bi 1 else usub bi 1);
  info ← get_info_mut b sizei;
  info ← alloc_set info bi false;
  let b := put_info b sizei info in
  a ← is_alloc_set info buddyi;
  if a : bool then Done (inl (sizei, raw_addr, b))
  else
    buddy_addr ← blk_addr b sizei buddyi;
    p ← as_mut buddy_addr;
    m ← remove p (mem b);
    let b := set_mem b m in
    let raw_addr := if buddyi mod 2 =? 0 then buddy_addr else raw_addr in
    sizei ← uadd sizei 1;
    spliti ← blk_index b sizei raw_addr;
    info ← get_info_mut b sizei;
    info ← split_set info spliti false;
    let b := put_info b sizei info in
    Done (inr (sizei, raw_addr, b)).

(** Free the block and merge it with its buddies as long as they are free. *)
Definition coalesce (b : BuddySystem) (sizei raw_addr : Z) :
    outcome (Z * Z * BuddySystem) :=
  while_fuel (S (Z.to_nat (nsizes b))) (λ '(sizei, raw_addr, b),
    m ← max_size b;
    if sizei <? m then coalesce_iter b sizei raw_addr
    else Done (inl (sizei, raw_addr, b))) (sizei, raw_addr, b).

(** [dealloc], with the checks of the debug build. *)
Definition dealloc (b : BuddySystem) (ptr : Z) (layout : Layout) : outcome BuddySystem :=
  let raw_addr := ptr in
  if (raw_addr <? base b) || (actual_end b <=? raw_addr) then
    Panic "allocator: dealloc ptr out of range"
  else
    sizei ← find_size b raw_addr;
    if sizei =? nsizes b then Panic "allocator: dealloc cannot recycle ptr"
    else
      bs ← blk_size b sizei;
      if bs <? size layout then Panic "allocator: layout > blk size"
      else
        '(sizei, raw_addr, b) ← coalesce b sizei raw_addr;
        _ ← get_info_mut b sizei;
        m ← push (free_list b sizei) raw_addr (mem b);
        Done (set_mem b m).

(** ** Initialisation *)

(** [while bi < bj { mark the block of size i } ] *)
Definition mark_size (b : BuddySystem) (i bi bj : Z) : outcome BuddySystem :=
  while_fuel (S (Z.to_nat (bj - bi))) (λ '(bi, b),
    if bi <? bj then
      info ← get_info_mut b i;
      info ← alloc_set info bi true;
      info ← (if 0 <? i then split_set info bi true else Done info);
      let b := put_info b i info in
      bi ← uadd bi 1;
      Done (inr (bi, b))
    else Done (inl b)) (bi, b).

Definition mark (b : BuddySystem) (left right : Z) : outcome BuddySystem :=
  l ← urem left (leaf_size b);
  _ ← ensure (l =? 0) "assertion failed: left % self.leaf_size == 0";
  r ← urem right (leaf_size b);
  _ ← ensure (r =? 0) "assertion failed: right % self.leaf_size == 0";
  for_range 0 (nsizes b) (λ i b,
    bi ← blk_index b i left;
    bj ← blk_index_next b i right;
    mark_size b i bi bj) b.

Definition mark_meta (b : BuddySystem) (cur : Z) : outcome (Z * BuddySystem) :=
  meta ← usub cur (base b);
  b ← mark b (base b) cur;
  Done (meta, b).

Definition mark_unavail (b : BuddySystem) : outcome (Z * BuddySystem) :=
  ms ← max_size b;
  bs ← blk_size b ms;
  d ← usub (actual_end b) (base b);
  unavail ← usub bs d;
  right ← uadd (actual_end b) unavail;
  b ← mark b (actual_end b) right;
  Done (unavail, b).

Definition init_free_pair (b : BuddySystem) (sizei bi : Z) : outcome (Z * BuddySystem) :=
  buddyi ← (if bi mod 2 =? 0 then uadd bi 1 else usub bi 1);
  blk_addr_bi ← blk_addr b sizei bi;
  blk_addr_buddyi ← blk_addr b sizei buddyi;
  info ← get_info_mut b sizei;
  a ← is_alloc_set info bi;
  a' ← is_alloc_set info buddyi;
  if negb (Bool.eqb a a') then
    a ← is_alloc_set info bi;
    m ← push (free_list b sizei) (if a : bool then blk_addr_buddyi else blk_addr_bi) (mem b);
    let b := set_mem b m in
    bs ← blk_size b sizei;
    Done (bs, b)
  else Done (0, b).

Definition init_free (b : BuddySystem) (left : Z) : outcome (Z * BuddySystem) :=
  let right := actual_end b in
  ms ← max_size b;
  for_range 0 ms (λ i '(free, b),
    lbi ← blk_index_next b i left;
    rbi ← blk_index b i right;
    '(f, b) ← init_free_pair b i lbi;
    free ← uadd free f;
    if left <? right then
      '(f, b) ← init_free_pair b i rbi;
      free ← uadd free f;
      Done (free, b)
    else Done (free, b)) (0, b).

(** [init_slice_empty::<T>(cur, len)] with [size_of::<T>() = sz]: the new
    [cur]; the slice itself is [len] zeroed elements at the old one. *)
Definition init_slice_empty (cur sz len : Z) : outcome Z :=
  n ← umul sz len;
  uadd cur n.

(** Initialise the [free] list and place the alloc bitmap of size [i]. *)
Definition init_alloc_slice (i : Z) (s : Z * BuddySystem) : outcome (Z * BuddySystem) :=
  let '(cur, b) := s in
  nblk ← n_blk b i;
  info ← get_info_mut b i;
  let b := set_mem b (init (free_list b i) (mem b)) in
  r ← round_up nblk 8;
  alloc_size ← udiv r 8;
  cur ← init_slice_empty cur 1 alloc_size;
  Done (cur, put_info b i (mkInfo (replicate (Z.to_nat alloc_size) 0) (split_map info))).

(** Place the split bitmap of size [i]. *)
Definition init_split_slice (i : Z) (s : Z * BuddySystem) : outcome (Z * BuddySystem) :=
  let '(cur, b) := s in
  nblk ← n_blk b i;
  info ← get_info_mut b i;
  r ← round_up nblk 8;
  split_size ← udiv r 8;
  cur ← init_slice_empty cur 1 split_size;
  Done (cur, put_info b i (mkInfo (alloc_map info) (replicate (Z.to_nat split_size) 0))).

Definition uninit : BuddySystem := mkBuddy false 0 0 0 0 0 0 [] ∅.

(** [init]; the state is the one left behind, also when an error is
    returned. *)
Definition buddy_init (b : BuddySystem) (start end_ leaf_size max_alignment : Z) :
    outcome (result unit * BuddySystem) :=
  if initialized b then Done (Err "init twice", b)
  else
    d ← usub end_ start;
    if d <? leaf_size then Done (Err "range too small", b)
    else if negb (is_power_of_two leaf_size) || negb (is_power_of_two max_alignment) then
      Done (Err "leaf size or max_alignment not 2^n", b)
    else
      cur ← round_up start (Z.max leaf_size max_alignment);
      ae ← round_down end_ (Z.max leaf_size max_alignment);
      d ← usub ae cur;
      q ← udiv d leaf_size;
      l ← log2 q;
      ns ← uadd l 1;
      let b := mkBuddy (initialized b) cur ae ns leaf_size max_alignment
                 (infos_ptr b) (infos b) (mem b) in
      d ← usub ae cur;
      ms ← max_size b;
      bs ← blk_size b ms;
      b ← (if bs <? d then ns ← uadd (nsizes b) 1; Done (set_nsizes b ns) else Done b);
      let ptr := cur in
      cur ← init_slice_empty cur size_of_BuddyInfo (nsizes b);
      let b := mkBuddy (initialized b) (base b) (actual_end b) (nsizes b) leaf_size
                 max_alignment ptr (replicate (Z.to_nat (nsizes b)) (mkInfo [] [])) (mem b) in
      '(cur, b) ← for_range 0 (nsizes b) init_alloc_slice (cur, b);
      '(cur, b) ← for_range 1 (nsizes b) init_split_slice (cur, b);
      cur ← round_up cur leaf_size;
      '(meta, b) ← mark_meta b cur;
      '(unavail, b) ← mark_unavail b;
      '(free, b) ← init_free b cur;
      ms ← max_size b;
      bs ← blk_size b ms;
      t ← usub bs meta;
      t ← usub t unavail;
      if negb (free =? t) then
        Done (Err "allocator bug: tot != meta + free + unavail", b)
      else
        Done (Ok tt, mkBuddy true (base b) (actual_end b) (nsizes b) leaf_size
                       max_alignment (infos_ptr b) (infos b) (mem b)).

(** [meta_info]. *)
Definition meta_info (b : BuddySystem) : bool * Z * Z * Z :=
  (initialized b, base b, actual_end b, nsizes b).
End Operations.
