(* ===== verification/BuddyTree.v ===== *)
(** * The block tree of the buddy allocator

    The abstract view of an allocator state: for every block (a size index and
    a block index) its alloc and split bits, and for every size the sequence
    of addresses in its free list.  [tree_inv] is the invariant that ties the
    three together; the lemmas show that it is kept by the four moves the
    allocator is made of: taking a block off a free list, splitting a block in
    two, merging a block with its free buddy, and putting a block on a free
    list.  Each lemma also says how the set of blocks in use changes. *)

From Stdlib Require Import ZArith Lia.
From stdpp Require Import base gmap strings numbers list.
From S2P Require Import Prelude.

Local Open Scope Z_scope.

(** A function on blocks or sizes changed at one point. *)
Definition upd2 {A} (f : Z → Z → A) (k i : Z) (x : A) : Z → Z → A :=
  λ k' i', if decide (k' = k ∧ i' = i) then x else f k' i'.
Definition upd1 {A} (f : Z → A) (k : Z) (x : A) : Z → A :=
  λ k', if decide (k' = k) then x else f k'.

Lemma upd2_eq {A} (f : Z → Z → A) k i x : upd2 f k i x k i = x.
Proof. unfold upd2. by rewrite decide_True. Qed.
Lemma upd2_ne {A} (f : Z → Z → A) k i x k' i' :
  ¬ (k' = k ∧ i' = i) → upd2 f k i x k' i' = f k' i'.
Proof. intros H. unfold upd2. by rewrite decide_False. Qed.
Lemma upd1_eq {A} (f : Z → A) k x : upd1 f k x k = x.
Proof. unfold upd1. by rewrite decide_True. Qed.
Lemma upd1_ne {A} (f : Z → A) k x k' : k' ≠ k → upd1 f k x k' = f k'.
Proof. intros H. unfold upd1. by rewrite decide_False. Qed.

Record view := mkView { vA : Z → Z → bool; vS : Z → Z → bool; vF : Z → list Z }.

(** The index of the other half of the parent of block [i]. *)
Definition buddy_of (i : Z) : Z := if i mod 2 =? 0 then i + 1 else i - 1.

Lemma buddy_of_spec i :
  (i mod 2 = 0 ∧ buddy_of i = i + 1) ∨ (i mod 2 = 1 ∧ buddy_of i = i - 1).
Proof. unfold buddy_of. pose proof (Z.mod_pos_bound i 2 eq_refl).
  destruct (Z.eqb_spec (i mod 2) 0); lia. Qed.

Lemma buddy_of_half i : buddy_of i / 2 = i / 2.
Proof. destruct (buddy_of_spec i) as [[? ->]|[? ->]]; divlia. Qed.

Section Tree.
(** The largest size index, the first managed address, the leaf size, and the
    address of the array of free-list heads. *)
Context (mx bs lf hd : Z).
Context (Hmx : 0 ≤ mx) (Hlf : 0 < lf).

Definition nblk (k : Z) : Z := 2 ^ (mx - k).
Definition bsize (k : Z) : Z := 2 ^ k * lf.
Definition baddr (k i : Z) : Z := bs + i * bsize k.
Definition head (k : Z) : Z := hd + 48 * k.

(** [(k, i)] is a block of the tree. *)
Definition block (k i : Z) : Prop := 0 ≤ k ≤ mx ∧ 0 ≤ i < nblk k.

(** The block holds none of the free-list heads. *)
Definition no_head (k i : Z) : Prop :=
  ∀ j, 0 ≤ j ≤ mx → ¬ (baddr k i ≤ head j < baddr k i + bsize k).

(** The block is currently a node of the tree: the root, or half of a split
    block. *)
Definition exists_in (v : view) (k i : Z) : Prop := k = mx ∨ vS v (k + 1) (i / 2) = true.

(** The block is handed out: a node that is neither split nor free. *)
Definition used (v : view) (k i : Z) : Prop :=
  exists_in v k i ∧ vS v k i = false ∧ baddr k i ∉ vF v k.

Record tree_inv (v : view) : Prop := {
  (** only nodes bigger than a leaf are split *)
  ti_split k i : block k i → vS v k i = true → 0 < k ∧ exists_in v k i;
  (** free blocks are unsplit nodes outside the allocator's own data *)
  ti_free k i :
    block k i → baddr k i ∈ vF v k → exists_in v k i ∧ vS v k i = false ∧ no_head k i;
  (** below the root, the alloc bit says that a node is not free *)
  ti_alloc k i :
    block k i → k < mx → vA v k i = true ↔ exists_in v k i ∧ baddr k i ∉ vF v k;
  (** free lists hold addresses of blocks of their size, each once *)
  ti_addr k a : 0 ≤ k ≤ mx → a ∈ vF v k → ∃ i, block k i ∧ a = baddr k i;
  ti_nodup k : 0 ≤ k ≤ mx → NoDup (vF v k);
  (** the two halves of a split block are never both free *)
  ti_merged k i :
    block k i → k < mx → vS v (k + 1) (i / 2) = true →
    baddr k i ∈ vF v k → baddr k (buddy_of i) ∉ vF v k;
}.

(** ** Geometry *)

Lemma bsize_pos k : 0 ≤ k → 0 < bsize k.
Proof. intros H. unfold bsize. pose proof (Z.pow_pos_nonneg 2 k). nia. Qed.

Lemma bsize_succ k : 0 ≤ k → bsize (k + 1) = 2 * bsize k.
Proof. intros H. unfold bsize. rewrite Z.pow_add_r by lia. lia. Qed.

Lemma nblk_pos k : k ≤ mx → 0 < nblk k.
Proof. intros H. apply Z.pow_pos_nonneg; lia. Qed.

Lemma nblk_succ k : k < mx → nblk k = 2 * nblk (k + 1).
Proof.
  intros H. unfold nblk. replace (mx - k) with (1 + (mx - (k + 1))) by lia.
  rewrite Z.pow_add_r by lia. lia.
Qed.

Lemma nblk_top : nblk mx = 1.
Proof. unfold nblk. by rewrite Z.sub_diag. Qed.

Lemma baddr_inj k i j : 0 ≤ k → baddr k i = baddr k j → i = j.
Proof. intros Hk. unfold baddr. pose proof (bsize_pos k Hk). nia. Qed.

Lemma baddr_child k i : 0 ≤ k → baddr (k + 1) i = baddr k (2 * i).
Proof. intros H. unfold baddr. rewrite bsize_succ by lia. lia. Qed.

Lemma block_parent k i : block k i → k < mx → block (k + 1) (i / 2).
Proof. intros [Hk Hi] Hlt. rewrite nblk_succ in Hi by lia. split; [lia|divlia]. Qed.

Lemma block_buddy k i : block k i → k < mx → block k (buddy_of i).
Proof.
  intros [Hk Hi] Hlt. split; [lia|]. rewrite nblk_succ in * by lia.
  destruct (buddy_of_spec i) as [[? ->]|[? ->]]; divlia.
Qed.

Lemma block_child k i j : block (k + 1) i → 0 ≤ k → j / 2 = i → block k j.
Proof.
  intros [Hk Hi] H <-. split; [lia|]. rewrite nblk_succ by lia.
  divlia.
Qed.

(** A node below the root has split ancestors all the way up. *)
Lemma split_ancestors v k i (d : nat) :
  tree_inv v → block k i → exists_in v k i → k + 1 + Z.of_nat d ≤ mx →
  vS v (k + 1 + Z.of_nat d) (i / 2 ^ (1 + Z.of_nat d)) = true ∧
  block (k + 1 + Z.of_nat d) (i / 2 ^ (1 + Z.of_nat d)).
Proof.
  intros Hti Hb He. induction d as [|d IH]; intros Hd.
  - rewrite Z.add_0_r in *. change (2 ^ (1 + Z.of_nat 0)) with 2.
    destruct He as [->|He]; [lia|]. split; [done|]. apply block_parent; [done|lia].
  - destruct IH as [IH HbI]; [lia|].
    destruct (ti_split v Hti _ _ HbI IH) as [_ [Heq|He']]; [lia|].
    rewrite Nat2Z.inj_succ.
    replace (k + 1 + Z.succ (Z.of_nat d)) with (k + 1 + Z.of_nat d + 1) by lia.
    replace (1 + Z.succ (Z.of_nat d)) with (1 + Z.of_nat d + 1) by lia.
    rewrite (Z.pow_add_r 2 (1 + Z.of_nat d) 1), Z.pow_1_r, <- Z.div_div by lia.
    split; [done|]. apply block_parent; [done|lia].
Qed.

(** An address inside a block determines the index of the block at its size. *)
Lemma index_of_addr k i a :
  0 ≤ k → baddr k i ≤ a < baddr k i + bsize k ↔ (a - bs) / bsize k = i.
Proof.
  intros Hk. pose proof (bsize_pos k Hk) as Hp. unfold baddr. split.
  - intros H. symmetry. apply (Z.div_unique_pos _ _ _ (a - bs - i * bsize k)); nia.
  - intros <-. pose proof (Z.div_mod (a - bs) (bsize k)).
    pose proof (Z.mod_pos_bound (a - bs) (bsize k)). nia.
Qed.

Lemma index_up k (d : nat) a :
  0 ≤ k → (a - bs) / bsize (k + 1 + Z.of_nat d) = (a - bs) / bsize k / 2 ^ (1 + Z.of_nat d).
Proof.
  intros Hk. rewrite Z.div_div; [|pose proof (bsize_pos k Hk); lia|apply Z.pow_pos_nonneg; lia].
  f_equal. unfold bsize. replace (k + 1 + Z.of_nat d) with (k + (1 + Z.of_nat d)) by lia.
  rewrite Z.pow_add_r by lia. lia.
Qed.

Lemma index_parent k a : 0 ≤ k → (a - bs) / bsize (k + 1) = (a - bs) / bsize k / 2.
Proof.
  intros Hk. pose proof (index_up k 0 a Hk) as H. by rewrite Z.add_0_r in H.
Qed.

(** There are no nodes below an unsplit block. *)
Lemma no_node_below v k i k' i' a :
  tree_inv v → block k i → block k' i' → exists_in v k i → vS v k' i' = false →
  baddr k i ≤ a < baddr k i + bsize k → baddr k' i' ≤ a < baddr k' i' + bsize k' →
  k' ≤ k.
Proof.
  intros Hti Hb Hb' He Hs Ha Ha'. destruct (Z.le_gt_cases k' k) as [|Hlt]; [done|exfalso].
  pose proof Hb as [Hk _]. pose proof Hb' as [Hk' _].
  rewrite index_of_addr in Ha, Ha' by lia.
  destruct (split_ancestors v k i (Z.to_nat (k' - k - 1))) as [Hsp _]; [done|done|done|lia|].
  replace (k + 1 + Z.of_nat (Z.to_nat (k' - k - 1))) with k' in Hsp by lia.
  rewrite <- Ha, <- index_up in Hsp by lia.
  replace (k + 1 + Z.of_nat (Z.to_nat (k' - k - 1))) with k' in Hsp by lia.
  rewrite Ha' in Hsp. congruence.
Qed.

(** Unsplit nodes do not overlap. *)
Lemma leaves_disjoint v k i k' i' a :
  tree_inv v → block k i → block k' i' →
  exists_in v k i → vS v k i = false → exists_in v k' i' → vS v k' i' = false →
  baddr k i ≤ a < baddr k i + bsize k → baddr k' i' ≤ a < baddr k' i' + bsize k' →
  k = k' ∧ i = i'.
Proof.
  intros Hti Hb Hb' He Hs He' Hs' Ha Ha'.
  assert (k' ≤ k) by (by apply (no_node_below v k i k' i' a)).
  assert (k ≤ k') by (by apply (no_node_below v k' i' k i a)).
  assert (k = k') as <- by lia. split; [done|].
  pose proof Hb as [Hk _]. rewrite index_of_addr in Ha, Ha' by lia. congruence.
Qed.

Definition is_leaf (v : view) (k i : Z) : Prop :=
  block k i ∧ exists_in v k i ∧ vS v k i = false.

Lemma free_leaf v k i : tree_inv v → block k i → baddr k i ∈ vF v k → is_leaf v k i.
Proof. intros Hti Hb Hf. destruct (ti_free v Hti k i) as (?&?&?); done. Qed.

Lemma used_leaf v k i : block k i → used v k i → is_leaf v k i.
Proof. intros Hb (?&?&?); done. Qed.

Lemma leaf_eq v k i k' i' a :
  tree_inv v → is_leaf v k i → is_leaf v k' i' →
  baddr k i ≤ a < baddr k i + bsize k → baddr k' i' ≤ a < baddr k' i' + bsize k' →
  k = k' ∧ i = i'.
Proof. intros Hti (?&?&?) (?&?&?). by apply (leaves_disjoint v). Qed.

(** An address inside a block in use is in no free list. *)
Lemma used_not_free v k i k' a :
  tree_inv v → block k i → used v k i → 0 ≤ k' ≤ mx →
  baddr k i ≤ a < baddr k i + bsize k → a ∉ vF v k'.
Proof.
  intros Hti Hb Hu Hk' Ha Hin.
  destruct (ti_addr v Hti k' a Hk' Hin) as (i' & Hb' & ->).
  pose proof (bsize_pos k' ltac:(lia)).
  destruct (leaf_eq v k i k' i' (baddr k' i')) as [-> ->]; eauto using free_leaf, used_leaf; [lia|].
  by destruct Hu as (_&_&?).
Qed.

(** The free lists of two sizes share no address. *)
Lemma free_disjoint v k k' a :
  tree_inv v → 0 ≤ k ≤ mx → 0 ≤ k' ≤ mx → a ∈ vF v k → a ∈ vF v k' → k = k'.
Proof.
  intros Hti Hk Hk' Hin Hin'.
  destruct (ti_addr v Hti k a Hk Hin) as (i & Hb & ->).
  destruct (ti_addr v Hti k' _ Hk' Hin') as (i' & Hb' & Heq).
  pose proof (bsize_pos k ltac:(lia)). pose proof (bsize_pos k' ltac:(lia)).
  rewrite Heq in Hin'.
  destruct (leaf_eq v k i k' i' (baddr k i)) as [-> ->]; eauto using free_leaf; lia.
Qed.

Lemma free_no_head v k j : tree_inv v → 0 ≤ k ≤ mx → 0 ≤ j ≤ mx → head j ∉ vF v k.
Proof.
  intros Hti Hk Hj Hin. destruct (ti_addr v Hti k _ Hk Hin) as (i & Hb & Heq).
  rewrite Heq in Hin. destruct (ti_free v Hti k i Hb Hin) as (_&_&Hn).
  apply (Hn j Hj). pose proof (bsize_pos k ltac:(lia)). lia.
Qed.

Lemma no_head_addr k i j : 0 ≤ k → 0 ≤ j ≤ mx → no_head k i → baddr k i ≠ head j.
Proof. intros Hk Hj Hn Heq. apply (Hn j Hj). pose proof (bsize_pos k Hk). lia. Qed.

(** Membership in the free lists after adding or removing one block. *)
Lemma mem_push (F : Z → list Z) k i k' i' :
  0 ≤ k →
  baddr k' i' ∈ upd1 F k (baddr k i :: F k) k' ↔
  baddr k' i' ∈ F k' ∨ (k' = k ∧ i' = i).
Proof.
  intros Hk. destruct (decide (k' = k)) as [->|].
  - rewrite upd1_eq, elem_of_cons. split.
    + intros [Heq|?]; [|by left]. apply baddr_inj in Heq; [|done]. tauto.
    + intros [?|[_ ->]]; [by right|by left].
  - rewrite upd1_ne by done. tauto.
Qed.

Lemma mem_remove (F : Z → list Z) k i xs ys k' i' :
  0 ≤ k → F k = xs ++ baddr k i :: ys → NoDup (F k) →
  baddr k' i' ∈ upd1 F k (xs ++ ys) k' ↔ baddr k' i' ∈ F k' ∧ ¬ (k' = k ∧ i' = i).
Proof.
  intros Hk Hf Hnd. destruct (decide (k' = k)) as [->|].
  - rewrite upd1_eq, Hf, !elem_of_app, elem_of_cons. rewrite Hf in Hnd.
    apply NoDup_app in Hnd as (_ & Hd & [Hn _]%NoDup_cons). split.
    + intros Hin. split; [tauto|]. intros [_ ->]. destruct Hin as [Hin|?]; [|done].
      apply (Hd _ Hin). by left.
    + intros [[?|[Heq|?]] Hne]; [by left| |by right].
      apply baddr_inj in Heq; [|done]. by destruct Hne.
  - rewrite upd1_ne by done. tauto.
Qed.

Lemma sub_remove (F : Z → list Z) k a xs ys k' :
  F k = xs ++ a :: ys → upd1 F k (xs ++ ys) k' ⊆ F k'.
Proof.
  intros Hf. destruct (decide (k' = k)) as [->|]; [|by rewrite upd1_ne].
  rewrite upd1_eq, Hf. set_solver.
Qed.

Lemma nodup_remove (F : Z → list Z) k a xs ys k' :
  F k = xs ++ a :: ys → NoDup (F k') → NoDup (upd1 F k (xs ++ ys) k').
Proof.
  intros Hf. destruct (decide (k' = k)) as [->|]; [|by rewrite upd1_ne].
  rewrite upd1_eq, Hf, !NoDup_app, NoDup_cons. set_solver.
Qed.

(** ** Taking a block off its free list *)

Definition take_block (v : view) (k i : Z) (xs ys : list Z) : view :=
  mkView (upd2 (vA v) k i true) (vS v) (upd1 (vF v) k (xs ++ ys)).

Lemma take_inv v k i xs ys :
  tree_inv v → block k i → vF v k = xs ++ baddr k i :: ys →
  tree_inv (take_block v k i xs ys) ∧
  (∀ k' i', block k' i' →
    used (take_block v k i xs ys) k' i' ↔ used v k' i' ∨ (k' = k ∧ i' = i)).
Proof.
  intros Hti Hb Hf. pose proof Hb as [Hk Hi].
  pose proof (λ k' i', mem_remove _ k i xs ys k' i' (proj1 Hk) Hf (ti_nodup v Hti k Hk)) as Hmem.
  pose proof (λ k', sub_remove _ k _ xs ys k' Hf) as Hsub.
  assert (baddr k i ∈ vF v k) as Hin by (rewrite Hf; set_solver).
  destruct (ti_free v Hti k i Hb Hin) as (He & Hs & _).
  split; [constructor|]; simpl.
  - exact (ti_split v Hti).
  - intros k' i' Hb' [Hin' _]%Hmem. exact (ti_free v Hti k' i' Hb' Hin').
  - intros k' i' Hb' Hlt. rewrite (Hmem k' i').
    destruct (decide (k' = k ∧ i' = i)) as [[-> ->]|Hne].
    + rewrite upd2_eq. unfold exists_in in *; simpl. tauto.
    + rewrite upd2_ne by done. rewrite (ti_alloc v Hti) by done. unfold exists_in; simpl. tauto.
  - intros k' a Hk' Hin'. apply (ti_addr v Hti); [done|]. by apply Hsub.
  - intros k' Hk'. apply (nodup_remove _ _ _ _ _ _ Hf), (ti_nodup v Hti k' Hk').
  - intros k' i' Hb' Hlt Hs' Hin1 Hin2.
    apply (ti_merged v Hti k' i'); [done..| |]; by apply Hsub.
  - intros k' i' Hb'. unfold used, exists_in in *; simpl. rewrite Hmem.
    destruct (decide (k' = k ∧ i' = i)) as [[-> ->]|]; tauto.
Qed.

(** ** Splitting a block in use: the left half stays in use, the right half is free *)

Definition split_block (v : view) (k i : Z) : view :=
  mkView (upd2 (vA v) k (2 * i) true) (upd2 (vS v) (k + 1) i true)
         (upd1 (vF v) k (baddr k (2 * i + 1) :: vF v k)).

(** The halves of an unsplit block are not nodes, so all their bits are clear. *)
Lemma no_children v k i j :
  tree_inv v → block (k + 1) i → 0 ≤ k → vS v (k + 1) i = false → j / 2 = i →
  ¬ exists_in v k j ∧ vS v k j = false ∧ baddr k j ∉ vF v k.
Proof.
  intros Hti Hb Hk Hs Hj. pose proof (block_child k i j Hb Hk Hj) as Hbj.
  assert (¬ exists_in v k j) as Hne.
  { unfold exists_in. rewrite Hj, Hs. destruct Hb as [Hb _]. intros [?|?]; [lia|done]. }
  split; [done|split].
  - destruct (vS v k j) eqn:Hsj; [|done]. by destruct (ti_split v Hti k j Hbj Hsj).
  - intros Hin. by destruct (ti_free v Hti k j Hbj Hin).
Qed.

Lemma no_head_child k i j : 0 ≤ k → no_head (k + 1) i → j / 2 = i → no_head k j.
Proof.
  intros Hk Hn Hj m Hm Ha. apply (Hn m Hm). unfold baddr in *. rewrite bsize_succ by lia.
  pose proof (bsize_pos k Hk). assert (2 * i ≤ j ≤ 2 * i + 1) by divlia. nia.
Qed.

Lemma split_exists v k i k' i' :
  exists_in (split_block v k i) k' i' ↔ exists_in v k' i' ∨ (k' = k ∧ i' / 2 = i).
Proof.
  unfold exists_in; simpl. destruct (decide (k' + 1 = k + 1 ∧ i' / 2 = i)) as [[? ?]|Hne].
  - rewrite H, H0, upd2_eq. assert (k' = k) by lia. tauto.
  - rewrite upd2_ne by done. assert (¬ (k' = k ∧ i' / 2 = i)) by lia. tauto.
Qed.

Lemma split_inv v k i :
  tree_inv v → 0 ≤ k → block (k + 1) i → used v (k + 1) i → no_head (k + 1) i →
  tree_inv (split_block v k i) ∧
  (∀ k' i', block k' i' →
    used (split_block v k i) k' i' ↔
    (used v k' i' ∧ ¬ (k' = k + 1 ∧ i' = i)) ∨ (k' = k ∧ i' = 2 * i)).
Proof.
  intros Hti Hk Hb (He & Hs & Hnf) Hnh.
  pose proof (λ k' i', mem_push (vF v) k (2 * i + 1) k' i' Hk) as Hmem.
  pose proof (no_children v k i (2 * i) Hti Hb Hk Hs ltac:(divlia)) as (Hl1 & Hl2 & Hl3).
  pose proof (no_children v k i (2 * i + 1) Hti Hb Hk Hs ltac:(divlia)) as (Hr1 & Hr2 & Hr3).
  pose proof (block_child k i (2 * i + 1) Hb Hk ltac:(divlia)) as Hbr.
  assert (∀ i', i' / 2 = i → i' = 2 * i ∨ i' = 2 * i + 1) as Hhalf by (intros; divlia).
  split; [constructor|]; simpl.
  - intros k' i' Hb' Hs'. rewrite split_exists.
    destruct (decide (k' = k + 1 ∧ i' = i)) as [[-> ->]|Hne]; [split; [lia|by left]|].
    rewrite upd2_ne in Hs' by done. destruct (ti_split v Hti k' i' Hb' Hs'). tauto.
  - intros k' i' Hb' [Hin|[-> ->]]%Hmem; rewrite split_exists.
    + destruct (ti_free v Hti k' i' Hb' Hin) as (?&?&?).
      rewrite upd2_ne by (intros [-> ->]; done). tauto.
    + rewrite upd2_ne by lia. split; [right; split; [done|divlia]|].
      split; [done|]. apply (no_head_child k i); [done|done|divlia].
  - intros k' i' Hb' Hlt. rewrite Hmem, split_exists.
    destruct (decide (k' = k ∧ i' = 2 * i)) as [[-> ->]|Hne].
    + rewrite upd2_eq. split; [intros _|done]. split; [right; split; [done|divlia]|]. intros [?|?]; [done|lia].
    + rewrite upd2_ne, (ti_alloc v Hti) by done.
      split; [intros [? ?]; split; [by left|]; intros [?|[-> ->]]; done|].
      intros [[?|[-> Hh]] Hn]; [tauto|]. destruct (Hhalf i' Hh) as [->| ->]; tauto.
  - intros k' a Hk' Hin. destruct (decide (k' = k)) as [->|].
    + rewrite upd1_eq, elem_of_cons in Hin. destruct Hin as [->|Hin]; [eauto|by apply (ti_addr v Hti)].
    + rewrite upd1_ne in Hin by done. by apply (ti_addr v Hti).
  - intros k' Hk'. pose proof (ti_nodup v Hti k' Hk'). destruct (decide (k' = k)) as [->|].
    + rewrite upd1_eq. by constructor.
    + by rewrite upd1_ne.
  - intros k' i' Hb' Hlt Hs' [Hin|[-> ->]]%Hmem [Hin'|[Hkk Heq]]%Hmem.
    + apply (ti_merged v Hti k' i'); [done|done| |done|done].
      destruct (ti_free v Hti k' i' Hb' Hin) as ([->|?]&_); [lia|done].
    + subst k'. pose proof (buddy_of_half i'). rewrite Heq in H. destruct (Hhalf i') as [->| ->]; [divlia|done..].
    + assert (buddy_of (2 * i + 1) = 2 * i) as Hbud
        by (destruct (buddy_of_spec (2 * i + 1)) as [[? ?]|[? ->]]; divlia).
      rewrite Hbud in Hin'. done.
    + destruct (buddy_of_spec (2 * i + 1)) as [[? ?]|[? ?]]; divlia.
  - intros k' i' Hb'. unfold used. rewrite split_exists. simpl. rewrite Hmem.
    destruct (decide (k' = k + 1 ∧ i' = i)) as [[-> ->]|Hne].
    + rewrite upd2_eq. assert (¬ (k + 1 = k)) by lia. naive_solver.
    + rewrite upd2_ne by done. split.
      * intros ([?|[-> Hh]]&?&?); [tauto|]. destruct (Hhalf i' Hh) as [->| ->]; tauto.
      * intros [[? ?]|[-> ->]].
        -- split; [tauto|]. split; [tauto|]. intros [?|[-> ->]]; tauto.
        -- split; [right; split; [done|divlia]|]. split; [done|]. intros [?|?]; [done|lia].
Qed.

(** ** Merging a block in use with its free buddy: the parent is in use *)

Definition merge_block (v : view) (k i : Z) (xs ys : list Z) : view :=
  mkView (upd2 (vA v) k i false) (upd2 (vS v) (k + 1) (i / 2) false)
         (upd1 (vF v) k (xs ++ ys)).

Lemma half_cases i j : j / 2 = i / 2 ↔ j = i ∨ j = buddy_of i.
Proof. destruct (buddy_of_spec i) as [[? ->]|[? ->]]; split; divlia. Qed.

Lemma merge_exists v k i xs ys k' i' :
  k < mx → exists_in (merge_block v k i xs ys) k' i' ↔ exists_in v k' i' ∧ ¬ (k' = k ∧ i' / 2 = i / 2).
Proof.
  intros Hk. unfold exists_in; simpl.
  destruct (decide (k' + 1 = k + 1 ∧ i' / 2 = i / 2)) as [[? Heq]|Hne].
  - assert (k' = k) as -> by lia. rewrite Heq, upd2_eq. split; [intros [?|?]; [lia|done]|tauto].
  - rewrite upd2_ne by done. assert (¬ (k' = k ∧ i' / 2 = i / 2)) by lia. tauto.
Qed.

Lemma no_head_parent k i :
  0 ≤ k → no_head k i → no_head k (buddy_of i) → no_head (k + 1) (i / 2).
Proof.
  intros Hk H1 H2 m Hm Ha. specialize (H1 m Hm). specialize (H2 m Hm).
  unfold baddr in *. rewrite bsize_succ in Ha by done. pose proof (bsize_pos k Hk).
  destruct (buddy_of_spec i) as [[Hi Hbi]|[Hi Hbi]]; rewrite Hbi in H2.
  - assert (i = 2 * (i / 2)) by divlia. nia.
  - assert (i = 2 * (i / 2) + 1) by divlia. nia.
Qed.

Lemma merge_inv v k i xs ys :
  tree_inv v → block k i → k < mx → used v k i → no_head k i →
  vF v k = xs ++ baddr k (buddy_of i) :: ys →
  tree_inv (merge_block v k i xs ys) ∧ no_head (k + 1) (i / 2) ∧
  (∀ k' i', block k' i' →
    used (merge_block v k i xs ys) k' i' ↔
    (used v k' i' ∧ ¬ (k' = k ∧ i' = i)) ∨ (k' = k + 1 ∧ i' = i / 2)).
Proof.
  intros Hti Hb Hlt (He & Hs & Hnf) Hnh Hf. pose proof Hb as [Hk Hi].
  pose proof (λ k' i', mem_remove _ k _ xs ys k' i' (proj1 Hk) Hf (ti_nodup v Hti k Hk)) as Hmem.
  pose proof (λ k', sub_remove _ k _ xs ys k' Hf) as Hsub.
  assert (baddr k (buddy_of i) ∈ vF v k) as Hbin by (rewrite Hf; set_solver).
  pose proof (block_buddy k i Hb Hlt) as Hbb. pose proof (block_parent k i Hb Hlt) as Hbp.
  destruct (ti_free v Hti _ _ Hbb Hbin) as (Hbe & Hbs & Hbh).
  assert (vS v (k + 1) (i / 2) = true) as Hps by (destruct He; [lia|done]).
  destruct (ti_split v Hti _ _ Hbp Hps) as [_ Hpe].
  split; [constructor|split]; simpl.
  - intros k' i' Hb' Hs'. destruct (decide (k' = k + 1 ∧ i' = i / 2)) as [[-> ->]|Hne].
    { by rewrite upd2_eq in Hs'. }
    rewrite upd2_ne in Hs' by done. destruct (ti_split v Hti _ _ Hb' Hs').
    rewrite merge_exists by done. repeat split; [done..|].
    rewrite half_cases. intros [-> [-> | ->]]; congruence.
  - intros k' i' Hb' [Hin Hne]%Hmem. destruct (ti_free v Hti _ _ Hb' Hin) as (?&?&?).
    rewrite merge_exists by done. repeat split; [done| | |done].
    + rewrite half_cases. intros [-> [-> | ->]]; tauto.
    + unfold upd2. by case_decide.
  - intros k' i' Hb' Hlt'. rewrite merge_exists, Hmem, half_cases by done.
    destruct (decide (k' = k ∧ i' = i)) as [[-> ->]|Hne]; [rewrite upd2_eq; naive_solver|].
    rewrite upd2_ne, (ti_alloc v Hti) by done. naive_solver.
  - intros k' a Hk' Hin. apply (ti_addr v Hti); [done|]. by apply Hsub.
  - intros k' Hk'. apply (nodup_remove _ _ _ _ _ _ Hf), (ti_nodup v Hti k' Hk').
  - intros k' i' Hb' Hlt' Hs' Hin1 Hin2.
    apply (ti_merged v Hti k' i'); [done|done| |by apply Hsub..].
    unfold upd2 in Hs'. by case_decide.
  - apply no_head_parent; [lia|done|done].
  - intros k' i' Hb'. unfold used. rewrite merge_exists by done. simpl. rewrite Hmem.
    destruct (decide (k' = k + 1 ∧ i' = i / 2)) as [[-> ->]|Hne].
    + rewrite upd2_eq. split; [by right|]. intros _. split; [split; [done|lia]|]. split; [done|].
      intros [Hin _]. destruct (ti_free v Hti _ _ Hbp Hin) as (_&?&_). congruence.
    + rewrite upd2_ne, half_cases by done. naive_solver.
Qed.

(** ** Putting a block in use on its free list *)

Definition release_block (v : view) (k i : Z) : view :=
  mkView (upd2 (vA v) k i false) (vS v) (upd1 (vF v) k (baddr k i :: vF v k)).

Lemma release_inv v k i :
  tree_inv v → block k i → used v k i → no_head k i →
  (k < mx → baddr k (buddy_of i) ∉ vF v k) →
  tree_inv (release_block v k i) ∧
  (∀ k' i', block k' i' → used (release_block v k i) k' i' ↔ used v k' i' ∧ ¬ (k' = k ∧ i' = i)).
Proof.
  intros Hti Hb (He & Hs & Hnf) Hnh Hbud. pose proof Hb as [Hk Hi].
  pose proof (λ k' i', mem_push (vF v) k i k' i' (proj1 Hk)) as Hmem.
  split; [constructor|]; simpl.
  - exact (ti_split v Hti).
  - intros k' i' Hb' [Hin|[-> ->]]%Hmem; [exact (ti_free v Hti _ _ Hb' Hin)|done].
  - intros k' i' Hb' Hlt'. rewrite Hmem. change (exists_in (release_block v k i) k' i') with (exists_in v k' i').
    destruct (decide (k' = k ∧ i' = i)) as [[-> ->]|Hne]; [rewrite upd2_eq; naive_solver|].
    rewrite upd2_ne, (ti_alloc v Hti) by done. tauto.
  - intros k' a Hk' Hin. destruct (decide (k' = k)) as [->|].
    + rewrite upd1_eq, elem_of_cons in Hin. destruct Hin as [->|Hin]; [eauto|by apply (ti_addr v Hti)].
    + rewrite upd1_ne in Hin by done. by apply (ti_addr v Hti).
  - intros k' Hk'. pose proof (ti_nodup v Hti k' Hk'). destruct (decide (k' = k)) as [->|].
    + rewrite upd1_eq. by constructor.
    + by rewrite upd1_ne.
  - intros k' i' Hb' Hlt Hs' Hin1 Hin2. apply Hmem in Hin1, Hin2.
    destruct Hin1 as [Hin1|[-> ->]], Hin2 as [Hin2|[Hkk Heq]].
    + by apply (ti_merged v Hti k' i').
    + subst k'. apply (Hbud Hlt). rewrite <- Heq.
      replace (buddy_of (buddy_of i')) with i'; [done|].
      destruct (buddy_of_spec i') as [[? Hx]|[? Hx]]; rewrite Hx;
        [destruct (buddy_of_spec (i' + 1)) as [[? ->]|[? ->]]|
         destruct (buddy_of_spec (i' - 1)) as [[? ->]|[? ->]]]; divlia.
    + by apply (Hbud Hlt).
    + destruct (buddy_of_spec i) as [[? ?]|[? ?]]; lia.
  - intros k' i' Hb'. unfold used, exists_in; simpl. rewrite Hmem. naive_solver.
Qed.


(** ** The blocks in use determine the tree *)

(** A block is split exactly when there is a block in use strictly below it. *)
Lemma split_used_below v (d : nat) i :
  tree_inv v → block (Z.of_nat d) i → vS v (Z.of_nat d) i = true →
  ∃ k' i', block k' i' ∧ 0 ≤ k' < Z.of_nat d ∧ i' / 2 ^ (Z.of_nat d - k') = i ∧ used v k' i'.
Proof.
  intros Hti. revert i. induction d as [|d IH]; intros i Hb Hs.
  { by destruct (ti_split v Hti _ _ Hb Hs). }
  rewrite Nat2Z.inj_succ in *. set (k := Z.of_nat d) in *. rewrite <- Z.add_1_r in *.
  assert (∀ j, j / 2 = i → block k j ∧ exists_in v k j) as Hch.
  { intros j Hj. split; [apply (block_child k i); [done|lia|done]|]. right. by rewrite Hj. }
  assert (∀ j, j / 2 = i → baddr k j ∉ vF v k → ∃ k' i', block k' i' ∧ 0 ≤ k' < k + 1 ∧
    i' / 2 ^ (k + 1 - k') = i ∧ used v k' i') as Hgo.
  { intros j Hj Hn. destruct (Hch j Hj) as [Hbj Hej]. destruct (vS v k j) eqn:Hsj.
    - destruct (IH j Hbj Hsj) as (k' & i' & ? & ? & Hd & ?). exists k', i'.
      split_and!; [done|lia|lia| |done]. replace (k + 1 - k') with (k - k' + 1) by lia.
      rewrite Z.pow_add_r by lia. rewrite <- Z.div_div by (try apply Z.pow_nonzero; lia).
      by rewrite Hd, Z.pow_1_r.
    - exists k, j. split_and!; [done|lia|lia| |done]. by replace (k + 1 - k) with 1 by lia. }
  assert (2 * i / 2 = i) as Hl by divlia. assert ((2 * i + 1) / 2 = i) as Hr by divlia.
  destruct (decide (baddr k (2 * i) ∈ vF v k)) as [Hin|Hn]; [|by apply (Hgo (2 * i))].
  apply (Hgo (2 * i + 1)); [done|]. destruct (Hch (2 * i) Hl) as [Hbl _].
  pose proof Hb as [? _].
  pose proof (ti_merged v Hti k (2 * i) Hbl ltac:(lia) ltac:(by rewrite Hl) Hin) as Hm.
  destruct (buddy_of_spec (2 * i)) as [[_ Heq]|[? _]]; [by rewrite Heq in Hm|divlia].
Qed.

Lemma used_below_split v k i k' i' :
  tree_inv v → block k i → block k' i' → k' < k → i' / 2 ^ (k - k') = i → used v k' i' →
  vS v k i = true.
Proof.
  intros Hti Hb Hb' Hlt Hi (He & _). pose proof Hb as [Hk _].
  destruct (split_ancestors v k' i' (Z.to_nat (k - k' - 1)) Hti Hb' He) as [Hs _]; [lia|].
  replace (k' + 1 + Z.of_nat (Z.to_nat (k - k' - 1))) with k in Hs by lia.
  replace (1 + Z.of_nat (Z.to_nat (k - k' - 1))) with (k - k') in Hs by lia. by rewrite Hi in Hs.
Qed.

(** Two allocator trees with the same blocks in use have the same splits and
    the same free blocks: freed memory is merged as far as possible. *)
Lemma tree_canonical v v' :
  tree_inv v → tree_inv v' → (∀ k i, block k i → used v k i ↔ used v' k i) →
  ∀ k, 0 ≤ k ≤ mx → vF v k ≡ₚ vF v' k.
Proof.
  assert (∀ v v', tree_inv v → tree_inv v' → (∀ k i, block k i → used v k i → used v' k i) →
    ∀ k i, block k i → vS v k i = true → vS v' k i = true) as Hs.
  { intros w w' Hw Hw' Hu k i Hb Hs. pose proof Hb as [Hk _].
    replace k with (Z.of_nat (Z.to_nat k)) in Hs, Hb by lia.
    destruct (split_used_below w (Z.to_nat k) i Hw Hb Hs) as (k' & i' & Hb' & Hlt & Hi & Hu').
    rewrite Z2Nat.id in * by lia. apply (used_below_split w' k i k' i'); eauto; lia. }
  assert (∀ v v', tree_inv v → tree_inv v' → (∀ k i, block k i → used v k i ↔ used v' k i) →
    ∀ k a, 0 ≤ k ≤ mx → a ∈ vF v k → a ∈ vF v' k) as Hf.
  { intros w w' Hw Hw' Hu k a Hk Hin. destruct (ti_addr w Hw k a Hk Hin) as (i & Hb & ->).
    destruct (ti_free w Hw k i Hb Hin) as (He & Hsk & _).
    assert (∀ k i, block k i → used w k i → used w' k i) as Hu1 by (intros; by apply Hu).
    assert (∀ k i, block k i → used w' k i → used w k i) as Hu2 by (intros; by apply Hu).
    destruct (decide (baddr k i ∈ vF w' k)) as [|Hn]; [done|exfalso].
    assert (used w' k i) as Hu'; [|by apply Hu2 in Hu' as (_ & _ & ?)].
    split_and!; [|destruct (vS w' k i) eqn:E; [|done]; by rewrite (Hs w' w Hw' Hw Hu2 k i Hb E) in Hsk|done].
    destruct He as [->|He]; [by left|]. destruct (decide (k = mx)) as [->|]; [by left|right].
    apply (Hs w w'); [done..| |done]. apply block_parent; [done|lia]. }
  intros Hv Hv' Hu k Hk. apply NoDup_Permutation; [by apply ti_nodup..|].
  intros a. split; [by apply (Hf v v')|]. apply (Hf v' v); [done..| |done]. intros. symmetry. by apply Hu.
Qed.
End Tree.
