(* ===== verification/BuddyRep.v ===== *)
(** * Representation of the block tree by an allocator state

    [rep] relates the bitmaps and free lists of a [BuddySystem] to a [view] of
    [BuddyTree]; the lemmas evaluate the address arithmetic and say what each
    primitive step of the allocator (setting a bit, pushing on or removing
    from a free list) does to the view. *)

From Stdlib Require Import ZArith Lia.
From stdpp Require Import base gmap strings numbers list.
From S2P Require Import Prelude BuddyList Buddy BuddyTree.

Local Open Scope Z_scope.

(** ** Bitmaps *)

Section Bitmap.
Context {BF : BitField} {BFL : BitFieldLaws}.

Definition is_byte (x : Z) : Prop := 0 ≤ x < 2 ^ 8.

Definition map_bit (l : list Z) (i : Z) : bool :=
  match l !! Z.to_nat (i / 8) with
  | Some byte => get_bit byte (i mod 8)
  | None => false
  end.

Lemma map_lookup (l : list Z) i :
  0 ≤ i < 8 * Z.of_nat (length l) → ∃ byte, l !! Z.to_nat (i / 8) = Some byte.
Proof. intros Hi. apply lookup_lt_is_Some_2. divlia. Qed.

Lemma map_bit_insert (l : list Z) i j byte v :
  Forall is_byte l → 0 ≤ i → 0 ≤ j → l !! Z.to_nat (i / 8) = Some byte →
  map_bit (<[Z.to_nat (i / 8) := set_bit byte (i mod 8) v]> l) j =
  if decide (j = i) then v else map_bit l j.
Proof.
  intros Hl Hi Hj Hlk. unfold map_bit.
  assert (is_byte byte) as Hb by (by apply (Forall_lookup_1 _ _ _ _ Hl Hlk)).
  pose proof (Z.mod_pos_bound i 8 eq_refl). pose proof (Z.mod_pos_bound j 8 eq_refl).
  destruct (decide (j / 8 = i / 8)) as [Heq|Hne].
  - rewrite Heq, list_lookup_insert, decide_True
      by (split; [done|by eapply lookup_lt_Some]).
    case_decide as Hji.
    + subst j. by apply (get_set_bit_eq 8).
    + rewrite Hlk. apply (get_set_bit_ne 8); [lia|lia|done|divlia].
  - rewrite list_lookup_insert_ne by divlia. by rewrite decide_False by (intros ->; done).
Qed.

Lemma bytes_insert (l : list Z) n byte i v :
  Forall is_byte l → l !! n = Some byte → 0 ≤ i < 8 →
  Forall is_byte (<[n := set_bit byte i v]> l).
Proof.
  intros Hl Hlk Hi. apply Forall_insert; [done|]. apply set_bit_range; [done|].
  by apply (Forall_lookup_1 _ _ _ _ Hl Hlk).
Qed.
End Bitmap.

(** ** Well-formed states *)

Definition mx (b : BuddySystem) : Z := nsizes b - 1.

Definition geom (b : BuddySystem) : Z * Z * Z * Z * Z * Z :=
  (base b, actual_end b, nsizes b, leaf_size b, max_alignment b, infos_ptr b).

Abbreviation bblock b := (block (mx b)).
Abbreviation bbaddr b := (baddr (base b) (leaf_size b)).
Abbreviation bbsize b := (bsize (leaf_size b)).
Abbreviation bno_head b := (no_head (mx b) (base b) (leaf_size b) (infos_ptr b)).
Abbreviation bused b := (used (mx b) (base b) (leaf_size b)).

(** A bitmap with a bit for each of [n] blocks. *)
Definition map_ok (n : Z) (l : list Z) : Prop :=
  n ≤ 8 * Z.of_nat (length l) ∧ Forall is_byte l.

Record wf (b : BuddySystem) : Prop := {
  wf_nsizes : 1 ≤ nsizes b;
  wf_leaf : ∃ l, 0 ≤ l ∧ leaf_size b = 2 ^ l;
  wf_base : 0 < base b;
  wf_top : base b + bbsize b (mx b) < 2 ^ 64;
  wf_infos k : 0 ≤ k ≤ mx b →
    ∃ info, infos b !! Z.to_nat k = Some info ∧
      map_ok (nblk (mx b) k) (alloc_map info) ∧
      (0 < k → map_ok (nblk (mx b) k) (split_map info));
}.

Section Rep.
Context {BF : BitField} {BFL : BitFieldLaws}.

Definition abit (b : BuddySystem) (k i : Z) : bool :=
  match infos b !! Z.to_nat k with
  | Some info => map_bit (alloc_map info) i
  | None => false
  end.

Definition sbit (b : BuddySystem) (k i : Z) : bool :=
  match infos b !! Z.to_nat k with
  | Some info => map_bit (split_map info) i
  | None => false
  end.

(** The state represents the view.  The alloc bit of the root carries no
    information, and leaves have no split bit. *)
Record rep (b : BuddySystem) (v : view) : Prop := {
  rep_alloc k i : bblock b k i → k < mx b → abit b k i = vA v k i;
  rep_split k i : bblock b k i → 0 < k → sbit b k i = vS v k i;
  rep_free k : 0 ≤ k ≤ mx b → is_list (mem b) (free_list b k) (vF v k);
}.

(** The invariant of an initialised allocator. *)
Record buddy_inv (b : BuddySystem) (v : view) : Prop := {
  inv_wf : wf b;
  inv_rep : rep b v;
  inv_tree : tree_inv (mx b) (base b) (leaf_size b) (infos_ptr b) v;
}.

(** ** Address arithmetic *)

Lemma wf_leaf_pos b : wf b → 0 < leaf_size b.
Proof. intros Hwf. destruct (wf_leaf b Hwf) as (l & Hl & ->). by apply Z.pow_pos_nonneg. Qed.

Lemma mx_nonneg b : wf b → 0 ≤ mx b.
Proof. intros Hwf. pose proof (wf_nsizes b Hwf). unfold mx. lia. Qed.

(** Any number of whole blocks up to the size of the region fits a [usize]. *)
Lemma span_bound b k i :
  wf b → 0 ≤ k ≤ mx b → 0 ≤ i ≤ nblk (mx b) k →
  0 ≤ i * bbsize b k ≤ bbsize b (mx b) ∧ 0 < bbsize b k.
Proof.
  intros Hwf Hk Hi. pose proof (wf_leaf_pos b Hwf) as Hl.
  pose proof (bsize_pos (leaf_size b) Hl k ltac:(lia)) as Hp. split; [|done].
  assert (bbsize b (mx b) = nblk (mx b) k * bbsize b k) as ->; [|nia].
  unfold bsize, nblk. rewrite Z.mul_assoc, <- Z.pow_add_r by lia. do 2 f_equal. lia.
Qed.

Lemma bsize_bound b k : wf b → 0 ≤ k ≤ mx b → 0 < bbsize b k ≤ bbsize b (mx b).
Proof.
  intros Hwf Hk. pose proof (nblk_pos (mx b) k ltac:(lia)).
  destruct (span_bound b k 1 Hwf Hk); lia.
Qed.

Lemma mx_lt_64 b : wf b → mx b < 64.
Proof.
  intros Hwf. pose proof (wf_top b Hwf). pose proof (wf_base b Hwf).
  pose proof (wf_leaf_pos b Hwf). pose proof (mx_nonneg b Hwf). unfold bsize in *.
  apply (Z.pow_lt_mono_r_iff 2); [lia|lia|]. pose proof (Z.pow_pos_nonneg 2 (mx b)). nia.
Qed.

Lemma max_size_ok b : wf b → max_size b = Done (mx b).
Proof.
  intros Hwf. pose proof (mx_lt_64 b Hwf). pose proof (mx_nonneg b Hwf). unfold max_size, mx in *.
  apply usub_ok. lia.
Qed.

Lemma blk_size_ok b k : wf b → 0 ≤ k ≤ mx b → blk_size b k = Done (bbsize b k).
Proof.
  intros Hwf Hk. pose proof (bsize_bound b k Hwf Hk). pose proof (wf_top b Hwf).
  pose proof (wf_base b Hwf). pose proof (mx_lt_64 b Hwf).
  unfold blk_size. rewrite ushl_one_ok by lia. simpl. apply umul_ok. fold (bsize (leaf_size b) k). lia.
Qed.

Lemma blk_index_ok b k a :
  wf b → 0 ≤ k ≤ mx b → base b ≤ a < 2 ^ 64 →
  blk_index b k a = Done ((a - base b) / bbsize b k).
Proof.
  intros Hwf Hk Ha. pose proof (wf_base b Hwf). pose proof (bsize_bound b k Hwf Hk).
  unfold blk_index. rewrite usub_ok by lia. simpl. rewrite blk_size_ok by done. simpl.
  apply udiv_ok. lia.
Qed.

Lemma bbaddr_range b k i :
  wf b → bblock b k i → base b ≤ bbaddr b k i ∧ bbaddr b k i + bbsize b k < 2 ^ 64.
Proof.
  intros Hwf [Hk Hi]. pose proof (wf_top b Hwf). unfold baddr.
  destruct (span_bound b k (i + 1) Hwf Hk ltac:(lia)).
  destruct (span_bound b k i Hwf Hk ltac:(lia)). lia.
Qed.

(** The index, at size [k] or above, of an address inside a block of size [k]. *)
Lemma blk_index_block b k i a :
  wf b → bblock b k i → bbaddr b k i ≤ a < bbaddr b k i + bbsize b k →
  blk_index b k a = Done i.
Proof.
  intros Hwf Hb Ha. pose proof (bbaddr_range b k i Hwf Hb). pose proof Hb as [Hk _].
  rewrite blk_index_ok by (done || lia). f_equal.
  apply index_of_addr; [by apply wf_leaf_pos|lia|done].
Qed.

Lemma blk_index_addr b k i : wf b → bblock b k i → blk_index b k (bbaddr b k i) = Done i.
Proof.
  intros Hwf Hb. apply blk_index_block; [done|done|]. pose proof Hb as [Hk _].
  pose proof (bsize_bound b k Hwf Hk). lia.
Qed.

Lemma blk_addr_ok b k i : wf b → bblock b k i → blk_addr b k i = Done (bbaddr b k i).
Proof.
  intros Hwf Hb. pose proof (bbaddr_range b k i Hwf Hb) as Hr. pose proof Hb as [Hk Hi].
  pose proof (wf_base b Hwf). pose proof (bsize_bound b k Hwf Hk). pose proof (wf_top b Hwf).
  destruct (span_bound b k i Hwf Hk ltac:(lia)).
  unfold blk_addr. rewrite blk_size_ok by done. simpl. rewrite umul_ok by lia. simpl.
  apply uadd_ok. unfold baddr in *. lia.
Qed.

(** ** Bit operations *)

Lemma get_info_ok b k :
  wf b → 0 ≤ k ≤ mx b →
  ∃ info, get_info_mut b k = Done info ∧ infos b !! Z.to_nat k = Some info ∧
    map_ok (nblk (mx b) k) (alloc_map info) ∧
    (0 < k → map_ok (nblk (mx b) k) (split_map info)).
Proof.
  intros Hwf Hk. destruct (wf_infos b Hwf k Hk) as (info & Hl & ?).
  exists info. unfold get_info_mut. by rewrite Hl.
Qed.

Lemma get_put_info b k info info' :
  infos b !! Z.to_nat k = Some info → get_info_mut (put_info b k info') k = Done info'.
Proof.
  intros Hl. unfold get_info_mut, put_info; simpl.
  rewrite list_lookup_insert, decide_True; [done|split; [done|by eapply lookup_lt_Some]].
Qed.

(** Replacing the bitmaps of one size by well-formed ones. *)
Lemma wf_put_info b k info' :
  wf b → 0 ≤ k ≤ mx b →
  map_ok (nblk (mx b) k) (alloc_map info') →
  (0 < k → map_ok (nblk (mx b) k) (split_map info')) →
  wf (put_info b k info').
Proof.
  intros Hwf Hk Ha Hs. destruct Hwf as [H1 H2 H3 H4 H5].
  constructor; [done..|]. intros k' Hk'. change (mx (put_info b k info')) with (mx b) in *.
  destruct (H5 k' Hk') as (info & Hl & ? & ?). simpl.
  destruct (decide (k = k')) as [<-|].
  - exists info'. rewrite list_lookup_insert, decide_True; [done|].
    split; [done|by eapply lookup_lt_Some].
  - exists info. rewrite list_lookup_insert_ne by lia. done.
Qed.

Lemma wf_set_mem b m : wf b → wf (set_mem b m).
Proof. intros [H1 H2 H3 H4 H5]. by constructor. Qed.

Lemma infos_put b k info info' k' :
  0 ≤ k → 0 ≤ k' → infos b !! Z.to_nat k = Some info →
  infos (put_info b k info') !! Z.to_nat k' =
  if decide (k' = k) then Some info' else infos b !! Z.to_nat k'.
Proof.
  intros Hk Hk' Hl. simpl. case_decide.
  - subst. rewrite list_lookup_insert, decide_True; [done|split; [done|by eapply lookup_lt_Some]].
  - apply list_lookup_insert_ne. lia.
Qed.

Lemma is_alloc_set_ok b k i info :
  wf b → bblock b k i → get_info_mut b k = Done info → is_alloc_set info i = Done (abit b k i).
Proof.
  intros Hwf [Hk Hi] Hg. destruct (get_info_ok b k Hwf Hk) as (? & Hg' & Hl & [Hm _] & _).
  rewrite Hg in Hg'. injection Hg' as <-.
  destruct (map_lookup (alloc_map info) i) as [byte Hb]; [lia|].
  unfold is_alloc_set, get_alloc, abit, map_bit. rewrite Hl, Hb. done.
Qed.

Lemma is_split_set_ok b k i info :
  wf b → bblock b k i → 0 < k → get_info_mut b k = Done info →
  is_split_set info i = Done (sbit b k i).
Proof.
  intros Hwf [Hk Hi] H0 Hg. destruct (get_info_ok b k Hwf Hk) as (? & Hg' & Hl & _ & Hm).
  rewrite Hg in Hg'. injection Hg' as <-. destruct (Hm H0) as [Hm' _].
  destruct (map_lookup (split_map info) i) as [byte Hb]; [lia|].
  unfold is_split_set, get_split, sbit, map_bit. rewrite Hl, Hb. done.
Qed.

Definition with_A (v : view) (k i : Z) (x : bool) : view := mkView (upd2 (vA v) k i x) (vS v) (vF v).
Definition with_S (v : view) (k i : Z) (x : bool) : view := mkView (vA v) (upd2 (vS v) k i x) (vF v).
Definition with_F (v : view) (k : Z) (l : list Z) : view := mkView (vA v) (vS v) (upd1 (vF v) k l).

Lemma alloc_set_rep b v k i x :
  wf b → rep b v → bblock b k i →
  ∃ info info', get_info_mut b k = Done info ∧ alloc_set info i x = Done info' ∧
    get_info_mut (put_info b k info') k = Done info' ∧
    wf (put_info b k info') ∧ rep (put_info b k info') (with_A v k i x).
Proof.
  intros Hwf Hrep [Hk Hi].
  destruct (get_info_ok b k Hwf Hk) as (info & Hg & Hl & [Hlen Hby] & Hsp).
  destruct (map_lookup (alloc_map info) i) as [byte Hb]; [lia|].
  exists info. unfold alloc_set, get_alloc. rewrite Hb. simpl. eexists.
  split_and!; [done|done|by eapply get_put_info| |].
  - apply wf_put_info; [done|done| |done]. split; simpl; [by rewrite length_insert|].
    apply bytes_insert; [done|done|]. by apply Z.mod_pos_bound.
  - pose proof (λ info' k' Hk', infos_put b k info info' k' (proj1 Hk) Hk' Hl) as Hput.
    constructor.
    + intros k' i' [Hk' Hi'] Hlt. unfold abit. rewrite Hput by lia. simpl. unfold upd2.
      case_decide as Hkk.
      * subst k'. simpl. rewrite map_bit_insert by (done || lia).
        destruct (decide (i' = i)); [by rewrite decide_True|rewrite decide_False by tauto].
        rewrite <- (rep_alloc b v Hrep k i') by done. unfold abit. by rewrite Hl.
      * rewrite decide_False by tauto. by apply (rep_alloc b v Hrep).
    + intros k' i' [Hk' Hi'] H0. unfold sbit. rewrite Hput by lia. simpl.
      rewrite <- (rep_split b v Hrep k' i') by done. unfold sbit.
      case_decide; [subst; by rewrite Hl|done].
    + apply (rep_free b v Hrep).
Qed.

Lemma split_set_rep b v k i x :
  wf b → rep b v → bblock b k i → 0 < k →
  ∃ info info', get_info_mut b k = Done info ∧ split_set info i x = Done info' ∧
    wf (put_info b k info') ∧ rep (put_info b k info') (with_S v k i x).
Proof.
  intros Hwf Hrep [Hk Hi] H0.
  destruct (get_info_ok b k Hwf Hk) as (info & Hg & Hl & Hal & [Hlen Hby]%(λ f, f H0)).
  destruct (map_lookup (split_map info) i) as [byte Hb]; [lia|].
  exists info. unfold split_set, get_split. rewrite Hb. simpl. eexists.
  split_and!; [done|done| |].
  - apply wf_put_info; [done|done|done|]. intros _. split; simpl; [by rewrite length_insert|].
    apply bytes_insert; [done|done|]. by apply Z.mod_pos_bound.
  - pose proof (λ info' k' Hk', infos_put b k info info' k' (proj1 Hk) Hk' Hl) as Hput.
    constructor.
    + intros k' i' [Hk' Hi'] Hlt. unfold abit. rewrite Hput by lia. simpl.
      rewrite <- (rep_alloc b v Hrep k' i') by done. unfold abit.
      case_decide; [subst; by rewrite Hl|done].
    + intros k' i' [Hk' Hi'] Hlt. unfold sbit. rewrite Hput by lia. simpl. unfold upd2.
      case_decide as Hkk.
      * subst k'. simpl. rewrite map_bit_insert by (done || lia).
        destruct (decide (i' = i)); [by rewrite decide_True|rewrite decide_False by tauto].
        rewrite <- (rep_split b v Hrep k i') by done. unfold sbit. by rewrite Hl.
      * rewrite decide_False by tauto. by apply (rep_split b v Hrep).
    + apply (rep_free b v Hrep).
Qed.

(** ** List operations *)

(** No address is in two free lists, and no list head is in a free list. *)
Definition lists_ok (b : BuddySystem) (F : Z → list Z) : Prop :=
  (∀ k k' a, 0 ≤ k ≤ mx b → 0 ≤ k' ≤ mx b → a ∈ F k → a ∈ F k' → k = k') ∧
  (∀ k j, 0 ≤ k ≤ mx b → 0 ≤ j ≤ mx b → free_list b j ∉ F k).

Lemma tree_lists_ok b v :
  wf b → tree_inv (mx b) (base b) (leaf_size b) (infos_ptr b) v → lists_ok b (vF v).
Proof.
  intros Hwf Hti. pose proof (wf_leaf_pos b Hwf). pose proof (mx_nonneg b Hwf). split.
  - intros k k' a ????. by eapply free_disjoint.
  - intros k j ??. by eapply (free_no_head (mx b)).
Qed.

Lemma free_list_inj b k k' : free_list b k = free_list b k' → k = k'.
Proof. unfold free_list, size_of_BuddyInfo. lia. Qed.

(** Changing the nodes of the free list of size [k] leaves the others alone. *)
Lemma rep_frame b v k m' xs (extra : list Z) :
  rep b v → lists_ok b (vF v) → 0 ≤ k ≤ mx b →
  is_list m' (free_list b k) xs →
  (∀ a, a ∉ free_list b k :: vF v k ++ extra → m' !! a = mem b !! a) →
  (∀ k' a, 0 ≤ k' ≤ mx b → a ∈ extra → a ∉ free_list b k' :: vF v k') →
  rep (set_mem b m') (with_F v k xs).
Proof.
  intros Hrep [Hd Hh] Hk Hl Hfr Hex. constructor; [apply Hrep|apply Hrep|].
  intros k' Hk'. change (mx (set_mem b m')) with (mx b) in Hk'. simpl.
  change (free_list (set_mem b m') k') with (free_list b k').
  destruct (decide (k' = k)) as [->|Hne]; [by rewrite upd1_eq|]. rewrite upd1_ne by done.
  eapply is_list_frame; [by apply (rep_free b v Hrep)|]. intros a Ha. apply Hfr.
  rewrite elem_of_cons, elem_of_app. intros [->|[Hin|Hin]].
  - apply elem_of_cons in Ha as [Heq|Ha]; [by apply free_list_inj in Heq as ->|].
    by apply (Hh k' k).
  - apply elem_of_cons in Ha as [->|Ha]; [by apply (Hh k k')|].
    apply Hne. by apply (Hd k' k a).
  - by apply (Hex k' a).
Qed.

Lemma push_rep b v k a :
  rep b v → lists_ok b (vF v) → 0 ≤ k ≤ mx b → a ≠ 0 →
  (∀ k', 0 ≤ k' ≤ mx b → a ≠ free_list b k' ∧ a ∉ vF v k') →
  ∃ m', push (free_list b k) a (mem b) = Done m' ∧
        rep (set_mem b m') (with_F v k (a :: vF v k)).
Proof.
  intros Hrep Hlo Hk Ha0 Ha.
  destruct (push_spec (mem b) (free_list b k) (vF v k) a) as (m' & Hp & Hl & Hfr);
    [by apply (rep_free b v Hrep)| |done|].
  { rewrite elem_of_cons. destruct (Ha k Hk). tauto. }
  exists m'. split; [done|]. apply (rep_frame b v k m' _ [a]); [done..| |].
  - intros c Hc. apply Hfr. set_solver.
  - intros k' c Hk' ->%list_elem_of_singleton. rewrite elem_of_cons. destruct (Ha k' Hk'). tauto.
Qed.

Lemma remove_rep b v k xs a ys :
  rep b v → lists_ok b (vF v) → 0 ≤ k ≤ mx b → vF v k = xs ++ a :: ys →
  ∃ m', remove a (mem b) = Done m' ∧ rep (set_mem b m') (with_F v k (xs ++ ys)).
Proof.
  intros Hrep Hlo Hk Hf.
  destruct (remove_spec (mem b) (free_list b k) xs a ys) as (m' & Hp & Hl & Hfr).
  { rewrite <- Hf. by apply (rep_free b v Hrep). }
  exists m'. split; [done|]. apply (rep_frame b v k m' _ []); [done..| |set_solver].
  intros c Hc. apply Hfr. rewrite Hf in Hc. set_solver.
Qed.

Lemma pop_rep b v k a ys :
  rep b v → lists_ok b (vF v) → 0 ≤ k ≤ mx b → vF v k = a :: ys →
  ∃ m', pop (free_list b k) (mem b) = Done (Some a, m') ∧ rep (set_mem b m') (with_F v k ys).
Proof.
  intros Hrep Hlo Hk Hf.
  destruct (pop_spec (mem b) (free_list b k) a ys) as (m' & Hp & Hl & Hfr).
  { rewrite <- Hf. by apply (rep_free b v Hrep). }
  exists m'. split; [done|]. apply (rep_frame b v k m' _ []); [done..| |set_solver].
  intros c Hc. apply Hfr. rewrite Hf in Hc. set_solver.
Qed.
End Rep.
