(* ===== verification/BuddySpec.v ===== *)
(** * Correctness of [alloc] and [dealloc]

    Every call on a state satisfying [buddy_inv] returns normally (no panic,
    no access out of bounds, no endless loop), keeps the invariant, and
    changes the set of blocks in use by exactly the block it hands out or
    takes back. *)

From Stdlib Require Import ZArith Lia.
From stdpp Require Import base gmap strings numbers list.
From S2P Require Import Prelude BuddyList Buddy BuddyTree BuddyRep.

Local Open Scope Z_scope.

(** What [core::alloc::Layout] guarantees of its fields. *)
Definition layout_ok (l : Layout) : Prop :=
  0 ≤ size l < 2 ^ 63 ∧ ∃ a, 0 ≤ a ∧ align l = 2 ^ a.

Lemma trailing_zeros_pow2 k : 0 ≤ k → trailing_zeros (2 ^ k) = k.
Proof.
  intros Hk. rewrite <- (Z2Nat.id k Hk). induction (Z.to_nat k) as [|n IH]; [done|].
  rewrite Nat2Z.inj_succ, Z.pow_succ_r by lia.
  pose proof (Z.pow_pos_nonneg 2 (Z.of_nat n) eq_refl (Nat2Z.is_nonneg n)).
  destruct (2 ^ Z.of_nat n) as [|p|p]; [lia| |lia].
  change (2 * Z.pos p) with (Z.pos p~0). cbn in *. lia.
Qed.

Lemma next_power_of_two_ok n :
  1 < n ≤ 2 ^ 63 →
  ∃ c, 0 ≤ c ≤ 63 ∧ next_power_of_two n = Done (2 ^ c) ∧ 2 ^ (c - 1) < n ≤ 2 ^ c ∧ 0 < c.
Proof.
  intros Hn. exists (Z.log2 (n - 1) + 1).
  pose proof (Z.log2_spec (n - 1) ltac:(lia)) as [H1 H2].
  pose proof (Z.log2_nonneg (n - 1)).
  assert (Z.log2 (n - 1) < 63) by (apply Z.log2_lt_pow2; lia).
  unfold next_power_of_two. destruct (Z.leb_spec n 1); [lia|].
  replace (Z.log2 (n - 1) + 1 - 1) with (Z.log2 (n - 1)) by lia.
  rewrite <- Z.add_1_r in H2. split; [lia|]. split; [|lia].
  apply chk_ok. split; [lia|]. apply Z.pow_lt_mono_r; lia.
Qed.

Section Spec.
Context {BF : BitField} {BFL : BitFieldLaws}.

(** Two blocks in use, or one in use and one free, that share an address are
    the same block. *)
Lemma leaf_unique b v k i k' i' a :
  buddy_inv b v → is_leaf (mx b) v k i → is_leaf (mx b) v k' i' →
  bbaddr b k i ≤ a < bbaddr b k i + bbsize b k →
  bbaddr b k' i' ≤ a < bbaddr b k' i' + bbsize b k' → k = k' ∧ i = i'.
Proof.
  intros Hinv. eapply leaf_eq; [by apply wf_leaf_pos, (inv_wf _ _ Hinv)|apply (inv_tree _ _ Hinv)].
Qed.

Lemma addr_unique b v k i k' i' :
  buddy_inv b v → is_leaf (mx b) v k i → is_leaf (mx b) v k' i' →
  bbaddr b k i = bbaddr b k' i' → k = k' ∧ i = i'.
Proof.
  intros Hinv Hl Hl' Heq. pose proof (inv_wf _ _ Hinv) as Hwf.
  pose proof Hl as [[Hk _] _]. pose proof Hl' as [[Hk' _] _].
  pose proof (bsize_bound b k Hwf Hk). pose proof (bsize_bound b k' Hwf Hk').
  apply (leaf_unique b v k i k' i' (bbaddr b k i)); [done..|lia|lia].
Qed.

(** ** Allocation *)

(** [small_size] is the smallest size index whose blocks can hold the request. *)
Lemma small_size_ok b l :
  wf b → 0 < size l < 2 ^ 63 →
  ∃ s, small_size b l = Done s ∧ 0 ≤ s ∧ size l ≤ bbsize b s ∧
       (s = 0 ∨ bbsize b (s - 1) < size l).
Proof.
  intros Hwf Hs. destruct (wf_leaf b Hwf) as (lg & Hlg & Hleaf). unfold small_size.
  destruct (Z.leb_spec (size l) (leaf_size b)).
  { exists 0. unfold bsize. split_and!; [done|lia|lia|by left]. }
  pose proof (Z.pow_pos_nonneg 2 lg eq_refl Hlg).
  destruct (next_power_of_two_ok (size l)) as (c & Hc & -> & [Hlo Hhi] & Hc0); [lia|]. simpl.
  rewrite udiv_ok by lia. simpl. rewrite Hleaf in *.
  assert (lg < c) by (apply (Z.pow_lt_mono_r_iff 2); lia).
  assert (2 ^ c = 2 ^ (c - lg) * 2 ^ lg) as Hsp by (rewrite <- Z.pow_add_r by lia; f_equal; lia).
  rewrite Hsp, Z.div_mul by lia. rewrite trailing_zeros_pow2 by lia.
  exists (c - lg). unfold bsize. split_and!; [done|lia|lia|]. right.
  rewrite <- Z.pow_add_r by lia. replace (c - lg - 1 + lg) with (c - 1) by lia. done.
Qed.

(** [find_free] finds the smallest size with a free block. *)
Lemma find_free_ok b v s :
  wf b → rep b v → 0 ≤ s →
  ∃ r, find_free b s = Done r ∧ s ≤ r ∧ (∀ j, s ≤ j < r → j < nsizes b → vF v j = []) ∧
       (r < nsizes b → vF v r ≠ []).
Proof.
  intros Hwf Hrep Hs. unfold find_free.
  pose proof (mx_lt_64 b Hwf). pose proof (wf_nsizes b Hwf). unfold mx in *.
  apply (while_fuel_inv (λ r, s ≤ r ∧ ∀ j, s ≤ j < r → j < nsizes b → vF v j = [])
           (λ r, Z.max 0 (nsizes b - r))); [|split; [lia|intros; lia]|lia|lia].
  intros r [Hr Hj]. destruct (Z.ltb_spec r (nsizes b)); cycle 1.
  { left. exists r. split_and!; [done|done|done|lia]. }
  destruct (get_info_ok b r Hwf) as (info & -> & _); [unfold mx; lia|]. simpl.
  rewrite (is_empty_spec _ _ (vF v r)) by (apply (rep_free b v Hrep); unfold mx; lia). simpl.
  case_bool_decide as He; simpl.
  - right. rewrite uadd_ok by lia. simpl. eexists. split; [done|]. split; [|lia].
    split; [lia|]. intros j Hj1 Hj2. destruct (decide (j = r)) as [->|]; [done|]. apply Hj; lia.
  - left. exists r. split; [done|]. done.
Qed.

(** The block [(s, i')] starts where [(k, i)] does, and the set of blocks in
    use has changed by exchanging the one for the other. *)
Definition exchanged (b : BuddySystem) (v v' : view) (k i s i' : Z) : Prop :=
  ∀ k2 i2, bblock b k2 i2 →
    bused b v' k2 i2 ↔ (bused b v k2 i2 ∧ ¬ (k2 = k ∧ i2 = i)) ∨ (k2 = s ∧ i2 = i').

Lemma block_left_half b k i : 0 ≤ k → bblock b (k + 1) i → bblock b k (2 * i).
Proof. intros Hk Hb. eapply block_child; [done|done|divlia]. Qed.

(** One iteration of the splitting loop. *)
Lemma split_iter_ok b v k i :
  buddy_inv b v → 0 ≤ k → bblock b (k + 1) i → bused b v (k + 1) i → bno_head b (k + 1) i →
  ∃ b' v', split_iter b (k + 1) (bbaddr b (k + 1) i) = Done (k, b') ∧
    buddy_inv b' v' ∧ geom b' = geom b ∧ bno_head b k (2 * i) ∧
    exchanged b v v' (k + 1) i k (2 * i).
Proof.
  intros [Hwf Hrep Hti] Hk Hb Hu Hnh. pose proof Hb as [Hk1 _].
  pose proof (block_left_half b k i Hk Hb) as Hbl.
  pose proof (wf_leaf_pos b Hwf) as Hlf. pose proof (mx_nonneg b Hwf) as Hmx.
  pose proof (mx_lt_64 b Hwf). pose proof (wf_base b Hwf).
  pose proof (bbaddr_range b _ _ Hwf Hb). pose proof (bsize_bound b k Hwf ltac:(lia)).
  assert (bbsize b (k + 1) = 2 * bbsize b k) as Hsz by (by apply bsize_succ).
  destruct (split_set_rep b v (k + 1) i true) as (info & info' & Hg & Hss & Hwf1 & Hrep1);
    [done|done|done|lia|].
  destruct (alloc_set_rep (put_info b (k + 1) info') _ k (2 * i) true Hwf1 Hrep1 Hbl)
    as (info1 & info1' & Hg1 & Has & _ & Hwf2 & Hrep2).
  destruct (push_rep _ _ k (bbaddr b (k + 1) i + bbsize b k) Hrep2) as (m & Hpush & Hrep3);
    [by apply (tree_lists_ok b v)|change (mx _) with (mx b); lia|lia| |].
  { intros k' Hk'. change (mx _) with (mx b) in Hk'. simpl. split.
    - intros Heq. apply (Hnh k' Hk'). change (head (infos_ptr b) k') with (free_list b k').
      change (free_list _ k') with (free_list b k') in Heq. lia.
    - apply (used_not_free (mx b) (base b) (leaf_size b) (infos_ptr b) Hlf v (k + 1) i);
        [done..|lia]. }
  destruct (split_inv (mx b) (base b) (leaf_size b) (infos_ptr b) Hlf v k i) as [Hti' Huse];
    [done..|].
  exists (set_mem (put_info (put_info b (k + 1) info') k info1') m), (split_block (base b) (leaf_size b) v k i).
  split; [|split_and!; [|done|by apply (no_head_child _ _ _ _ Hlf k i); [..|divlia]|done]].
  - unfold split_iter. rewrite blk_index_addr by done. simpl. rewrite Hg. simpl. rewrite Hss. simpl.
    rewrite usub_ok by lia. simpl. replace (k + 1 - 1) with k by lia.
    rewrite (blk_size_ok (put_info b (k + 1) info')) by (done || change (mx _) with (mx b); lia).
    simpl. rewrite (blk_index_block (put_info b (k + 1) info') k (2 * i));
      [|done|done|simpl; rewrite baddr_child by done; lia].
    simpl. rewrite Hg1. simpl. rewrite Has. simpl. rewrite uadd_ok by lia. simpl in *.
    rewrite Hpush. done.
  - assert (bbaddr b (k + 1) i + bbsize b k = bbaddr b k (2 * i + 1)) as Heq.
    { rewrite baddr_child by done. unfold baddr. lia. }
    constructor; [by apply wf_set_mem|rewrite Heq in Hrep3; exact Hrep3|done].
Qed.

(** Statements about a state hold of any state with the same geometry. *)
Lemma geom_eq b b' :
  geom b' = geom b →
  mx b' = mx b ∧ base b' = base b ∧ leaf_size b' = leaf_size b ∧ infos_ptr b' = infos_ptr b ∧
  nsizes b' = nsizes b ∧ actual_end b' = actual_end b.
Proof. unfold geom, mx. intros [= -> -> -> -> _ ->]. done. Qed.

(** Exchanging a block for another twice. *)
Lemma exchanged_trans b v v1 v2 k i k1 i1 k2 i2 :
  exchanged b v v1 k i k1 i1 → exchanged b v1 v2 k1 i1 k2 i2 →
  (bused b v k1 i1 → k1 = k ∧ i1 = i) → exchanged b v v2 k i k2 i2.
Proof.
  intros H1 H2 Hne k' i' Hb. rewrite (H2 k' i' Hb), (H1 k' i' Hb).
  destruct (decide (k' = k1 ∧ i' = i1)) as [[-> ->]|]; tauto.
Qed.

Lemma split_down_ok b v k i s :
  buddy_inv b v → bblock b k i → bused b v k i → bno_head b k i → 0 ≤ s ≤ k →
  ∃ b' v' i', split_down b k s (bbaddr b k i) = Done b' ∧ buddy_inv b' v' ∧ geom b' = geom b ∧
    bblock b s i' ∧ bbaddr b s i' = bbaddr b k i ∧ bno_head b s i' ∧
    exchanged b v v' k i s i'.
Proof.
  intros Hinv Hb Hu Hnh Hs.
  set (I := λ p : Z * BuddySystem, ∃ v' i',
    s ≤ p.1 ∧ buddy_inv p.2 v' ∧ geom p.2 = geom b ∧ bblock b p.1 i' ∧
    bbaddr b p.1 i' = bbaddr b k i ∧ bno_head b p.1 i' ∧ exchanged b v v' k i p.1 i').
  set (Q := λ b', ∃ v' i', buddy_inv b' v' ∧ geom b' = geom b ∧
    bblock b s i' ∧ bbaddr b s i' = bbaddr b k i ∧ bno_head b s i' ∧ exchanged b v v' k i s i').
  cut (∃ b', split_down b k s (bbaddr b k i) = Done b' ∧ Q b').
  { intros (b' & ? & v' & i' & ?). by exists b', v', i'. }
  unfold split_down. apply (while_fuel_inv I (λ p, p.1)); cycle 1.
  { exists v, i. split_and!; try done; simpl; [lia|]. intros k2 i2 Hb2.
    destruct (decide (k2 = k ∧ i2 = i)) as [[-> ->]|]; tauto. }
  { simpl. destruct Hb as [Hb _]. unfold mx in Hb. lia. }
  { simpl. lia. }
  intros [sz b1] (v1 & i1 & Hs1 & Hinv1 & Hg1 & Hb1 & Ha1 & Hn1 & Hex1). simpl in *.
  destruct (Z.ltb_spec s sz); cycle 1.
  { left. assert (sz = s) as -> by lia. eexists. split; [done|]. exists v1, i1. done. }
  right. destruct (geom_eq _ _ Hg1) as (E1 & E2 & E3 & E4 & _).
  assert (∃ k0, sz = k0 + 1) as [k0 ->] by (exists (sz - 1); lia).
  assert (bused b v1 (k0 + 1) i1) as Hu1 by (apply Hex1; [done|by right]).
  destruct (split_iter_ok b1 v1 k0 i1) as (b2 & v2 & Hit & Hinv2 & Hg2 & Hn2 & Hex2);
    rewrite ?E1, ?E2, ?E3, ?E4; [done|lia|done..|].
  rewrite E2, E3, Ha1 in Hit. rewrite Hit. simpl. eexists. split; [done|]. split; [|simpl; lia].
  rewrite E1, E2, E3, E4 in Hn2. unfold exchanged in Hex2. rewrite E1, E2, E3 in Hex2.
  exists v2, (2 * i1). split_and!; simpl; [lia|done|congruence| | |done|].
  - by apply block_left_half; [lia|].
  - by rewrite <- Ha1, baddr_child by lia.
  - eapply exchanged_trans; [done|exact Hex2|]. intros Hu2.
    by apply (addr_unique b v); [|apply (used_leaf _ (base b) (leaf_size b))..|].
Qed.

(** [k] is the best fit for the layout: the smallest size that holds it. *)
Definition best_fit (b : BuddySystem) (l : Layout) (k : Z) : Prop :=
  size l ≤ bbsize b k ∧ (k = 0 ∨ bbsize b (k - 1) < size l).

Lemma bsize_mono b k k' : wf b → 0 ≤ k ≤ k' → bbsize b k ≤ bbsize b k'.
Proof.
  intros Hwf Hk. unfold bsize. pose proof (wf_leaf_pos b Hwf).
  apply Z.mul_le_mono_nonneg_r; [lia|]. apply Z.pow_le_mono_r; lia.
Qed.

(** Taking the first block of the free list of size [r]. *)
Lemma take_ok b v r :
  buddy_inv b v → 0 ≤ r ≤ mx b → vF v r ≠ [] →
  ∃ i m info info' b' v',
    bblock b r i ∧ bbaddr b r i ∈ vF v r ∧
    pop (free_list b r) (mem b) = Done (Some (bbaddr b r i), m) ∧
    get_info_mut (set_mem b m) r = Done info ∧ alloc_set info i true = Done info' ∧
    b' = put_info (set_mem b m) r info' ∧ buddy_inv b' v' ∧ geom b' = geom b ∧
    (∀ k' i', bblock b k' i' → bused b v' k' i' ↔ bused b v k' i' ∨ (k' = r ∧ i' = i)).
Proof.
  intros [Hwf Hrep Hti] Hr Hne. pose proof (wf_leaf_pos b Hwf) as Hlf.
  destruct (vF v r) as [|a ys] eqn:Hf; [done|].
  destruct (ti_addr _ _ _ _ v Hti r a Hr) as (i & Hb & ->); [rewrite Hf; set_solver|].
  destruct (pop_rep b v r _ ys Hrep (tree_lists_ok b v Hwf Hti) Hr Hf) as (m & Hpop & Hrep1).
  destruct (alloc_set_rep (set_mem b m) _ r i true (wf_set_mem _ m Hwf) Hrep1 Hb)
    as (info & info' & Hg & Has & _ & Hwf2 & Hrep2).
  destruct (take_inv (mx b) (base b) (leaf_size b) (infos_ptr b) (mx_nonneg b Hwf) Hlf v r i [] ys)
    as [Hti' Huse]; [done|done|by rewrite Hf|].
  exists i, m, info, info', (put_info (set_mem b m) r info'), (take_block v r i [] ys).
  split_and!; try done; set_solver.
Qed.

(** The behaviour of [alloc] on every branch. *)
Lemma alloc_spec b v l :
  buddy_inv b v → layout_ok l →
  ∃ p b' v', alloc b l = Done (p, b') ∧ buddy_inv b' v' ∧ geom b' = geom b ∧
    ((p = 0 ∧ b' = b ∧ v' = v ∧
      (size l = 0 ∨ max_alignment b < align l ∨
       ∀ k, 0 ≤ k ≤ mx b → size l ≤ bbsize b k → vF v k = [])) ∨
     (∃ k i, bblock b k i ∧ p = bbaddr b k i ∧ best_fit b l k ∧ bno_head b k i ∧
       ¬ bused b v k i ∧
       ∀ k' i', bblock b k' i' → bused b v' k' i' ↔ bused b v k' i' ∨ (k' = k ∧ i' = i))).
Proof.
  intros Hinv [Hsz _]. pose proof (inv_wf _ _ Hinv) as Hwf. unfold alloc.
  destruct (Z.eqb_spec (size l) 0) as [H0|H0]; [exists 0, b, v; tauto|].
  destruct (Z.ltb_spec (max_alignment b) (align l)) as [Hal|Hal]; [exists 0, b, v; tauto|].
  destruct (small_size_ok b l Hwf) as (s & -> & Hs0 & Hfit); [lia|]. simpl.
  destruct (find_free_ok b v s Hwf (inv_rep _ _ Hinv) Hs0) as (r & -> & Hr & Hnone & Hsome). simpl.
  destruct (Z.leb_spec (nsizes b) r).
  { exists 0, b, v. split_and!; [done..|]. left. split_and!; [done..|]. right. right.
    intros k Hk Hkl. unfold mx in Hk. apply Hnone; [|lia]. split; [|lia].
    destruct (Z.le_gt_cases s k) as [|Hlt]; [done|].
    pose proof (bsize_mono b k (s - 1) Hwf ltac:(lia)). lia. }
  assert (0 ≤ r ≤ mx b) as Hrm by (unfold mx; lia).
  destruct (take_ok b v r Hinv Hrm) as
    (i & m & info & info' & b1 & v1 & Hb & Hin & Hpop & Hg & Has & Hb1 & Hinv1 & Hg1 & Huse1);
    [by apply Hsome|].
  destruct (get_info_ok b r Hwf Hrm) as (? & -> & _). simpl. rewrite Hpop. simpl.
  change (blk_index (set_mem b m) r) with (blk_index b r). rewrite blk_index_addr by done. simpl.
  rewrite Hg. simpl. rewrite Has. simpl. rewrite <- Hb1.
  destruct (geom_eq _ _ Hg1) as (E1 & E2 & E3 & E4 & _).
  assert (bno_head b r i) as Hnh by (by apply (ti_free _ _ _ _ v (inv_tree _ _ Hinv))).
  destruct (split_down_ok b1 v1 r i s) as (b2 & v2 & i2 & Hsd & Hinv2 & Hg2 & Hb2 & Ha2 & Hnh2 & Hex2);
    rewrite ?E1, ?E2, ?E3, ?E4; [done|done| |done|lia|].
  { apply Huse1; [done|by right]. }
  unfold exchanged in Hex2. rewrite E1, E2, E3 in *. rewrite E4 in Hnh2. rewrite Hsd. simpl.
  assert (is_leaf (mx b) v r i) as Hleaf by (by eapply free_leaf; [apply (inv_tree _ _ Hinv)|..]).
  assert (∀ k' i', bblock b k' i' → bused b v k' i' → bbaddr b k' i' = bbaddr b r i →
    False) as Hfresh.
  { intros k' i' Hb' Hu Heq. pose proof (used_leaf _ _ _ _ _ _ Hb' Hu) as Hl'.
    destruct (addr_unique b v k' i' r i Hinv Hl' Hleaf Heq) as [-> ->]. by apply Hu. }
  eexists _, b2, v2. split; [done|]. split; [done|]. split; [congruence|]. right.
  exists s, i2. split_and!; try done; [apply Hfit..|eauto|].
  intros k' i' Hb'. rewrite Hex2, Huse1 by done.
  destruct (decide (k' = r ∧ i' = i)) as [[-> ->]|]; [|tauto].
  split; [tauto|]. intros [Hu|?]; [|tauto]. by destruct (Hfresh r i).
Qed.

(** ** Deallocation *)

Lemma index_block b k i j :
  wf b → bblock b k i → 0 ≤ j ≤ mx b →
  let a := bbaddr b k i in
  let i' := (a - base b) / bbsize b j in
  bblock b j i' ∧ bbaddr b j i' ≤ a < bbaddr b j i' + bbsize b j.
Proof.
  intros Hwf Hb Hj a i'. pose proof (bbaddr_range b k i Hwf Hb) as [Hlo _].
  pose proof (bsize_bound b j Hwf Hj). pose proof Hb as [Hk Hi].
  assert (0 ≤ a - base b < nblk (mx b) j * bbsize b j) as Ha.
  { subst a. destruct (span_bound b k (i + 1) Hwf Hk ltac:(lia)).
    assert (nblk (mx b) j * bbsize b j = bbsize b (mx b)) as ->; [|unfold baddr in *; lia].
    unfold bsize, nblk. rewrite Z.mul_assoc, <- Z.pow_add_r by lia. do 2 f_equal. lia. }
  split; [|by apply index_of_addr; [apply wf_leaf_pos|lia|]].
  split; [done|]. split; [apply Z.div_pos; lia|]. apply Z.div_lt_upper_bound; lia.
Qed.

Lemma find_size_ok b v k i :
  buddy_inv b v → bblock b k i → k < mx b → bused b v k i →
  find_size b (bbaddr b k i) = Done k.
Proof.
  intros [Hwf Hrep Hti] Hb Hlt Hu. pose proof Hb as [Hk Hi].
  pose proof (bbaddr_range b k i Hwf Hb). pose proof (mx_lt_64 b Hwf).
  pose proof (bsize_bound b k Hwf Hk). pose proof (wf_leaf_pos b Hwf) as Hlf.
  unfold find_size. rewrite max_size_ok by done. simpl.
  match goal with |- context [for_range_until 0 (mx b) ?f tt] =>
    destruct (for_range_until_inv (λ j _, j ≤ k) (λ r, r = k) 0 (mx b) f tt) as [(r & -> & ->)|(s & _ & Hbad)]
  end; [lia|lia| |done|lia].
  intros j [] Hj Hjk. rewrite uadd_ok by lia. simpl. rewrite blk_index_ok by (done || lia). simpl.
  destruct (index_block b k i (j + 1)) as [Hb' Ha]; [done|done|lia|].
  set (i' := (bbaddr b k i - base b) / bbsize b (j + 1)) in *.
  destruct (get_info_ok b (j + 1) Hwf) as (info & Hg & _); [lia|]. rewrite Hg. simpl.
  rewrite (is_split_set_ok b (j + 1) i') by (done || lia). simpl.
  rewrite (rep_split b v Hrep) by (done || lia).
  destruct (decide (j = k)) as [->|].
  - left. exists k. assert (i' = i / 2) as ->; [|by destruct Hu as ([-> | ->] & _); [lia|]].
    rewrite index_of_addr in Ha by (done || lia). rewrite <- Ha.
    rewrite index_parent by (done || lia). f_equal. apply index_of_addr; [done|lia|lia].
  - right. exists tt. split; [|lia]. destruct (vS v (j + 1) i') eqn:Hs; [exfalso|done].
    destruct (ti_split _ _ _ _ v Hti _ _ Hb' Hs) as [_ He].
    pose proof (no_node_below _ _ _ _ Hlf v (j + 1) i' k i (bbaddr b k i) Hti Hb' Hb He
      (proj1 (proj2 Hu)) Ha ltac:(lia)).
    assert (j + 1 = k) as <- by lia. rewrite index_of_addr in Ha by (done || lia).
    assert (i' = i) as Heq; [|rewrite Heq in Hs; destruct Hu as (_ & ? & _); congruence].
    rewrite <- Ha. apply index_of_addr; [done|lia|lia].
Qed.

Lemma buddy_index_ok b k i :
  wf b → bblock b k i → k < mx b →
  (if i mod 2 =? 0 then uadd i 1 else usub i 1) = Done (buddy_of i).
Proof.
  intros Hwf Hb Hlt. pose proof (block_buddy _ k i Hb Hlt) as [_ Hb']. pose proof Hb as [Hk Hi].
  pose proof (mx_lt_64 b Hwf). assert (nblk (mx b) k < 2 ^ 64) by (apply Z.pow_lt_mono_r; lia).
  unfold buddy_of in *. destruct (Z.eqb_spec (i mod 2) 0); [apply uadd_ok|apply usub_ok]; lia.
Qed.

(** The even one of two buddies is where their parent starts. *)
Lemma merged_addr b k i :
  0 ≤ k →
  (if buddy_of i mod 2 =? 0 then bbaddr b k (buddy_of i) else bbaddr b k i) =
  bbaddr b (k + 1) (i / 2).
Proof.
  intros Hk. rewrite baddr_child by done.
  destruct (Z.eqb_spec (buddy_of i mod 2) 0) as [He|He];
    destruct (buddy_of_spec i) as [[? Hbi]|[? Hbi]]; rewrite Hbi in *; f_equal; divlia.
Qed.

(** One iteration of the merging loop: either the buddy is in use, and only
    the alloc bit of the block is cleared, or the two become their parent. *)
Lemma coalesce_iter_ok b v k i :
  buddy_inv b v → bblock b k i → k < mx b → bused b v k i → bno_head b k i →
  (∃ b', coalesce_iter b k (bbaddr b k i) = Done (inl (k, bbaddr b k i, b')) ∧
     wf b' ∧ rep b' (with_A v k i false) ∧ geom b' = geom b ∧
     bbaddr b k (buddy_of i) ∉ vF v k) ∨
  (∃ b' v', coalesce_iter b k (bbaddr b k i) = Done (inr (k + 1, bbaddr b (k + 1) (i / 2), b')) ∧
     buddy_inv b' v' ∧ geom b' = geom b ∧ bno_head b (k + 1) (i / 2) ∧
     exchanged b v v' k i (k + 1) (i / 2)).
Proof.
  intros [Hwf Hrep Hti] Hb Hlt Hu Hnh. pose proof Hb as [Hk Hi].
  pose proof (wf_leaf_pos b Hwf) as Hlf. pose proof (mx_nonneg b Hwf) as Hmx.
  pose proof (mx_lt_64 b Hwf). pose proof (block_buddy _ k i Hb Hlt) as Hbb.
  pose proof (block_parent _ k i Hb Hlt) as Hbp.
  unfold coalesce_iter. rewrite blk_index_addr by done. simpl. rewrite (buddy_index_ok b k) by done. simpl.
  destruct (alloc_set_rep b v k i false Hwf Hrep Hb)
    as (info & info' & Hg & Has & Hg' & Hwf1 & Hrep1).
  rewrite Hg. simpl. rewrite Has. simpl.
  rewrite (is_alloc_set_ok _ _ _ _ Hwf1 Hbb Hg'), (rep_alloc _ _ Hrep1) by done. simpl.
  rewrite upd2_ne by (intros [_ Heq]; destruct (buddy_of_spec i) as [[? ?]|[? ?]]; lia).
  destruct (vA v k (buddy_of i)) eqn:HA.
  { left. eexists. split_and!; [done|done|done|done|].
    by apply (ti_alloc _ _ _ _ v Hti) in HA as [_ ?]. }
  right.
  assert (bbaddr b k (buddy_of i) ∈ vF v k) as Hin.
  { destruct (decide (bbaddr b k (buddy_of i) ∈ vF v k)) as [|Hn]; [done|exfalso].
    assert (vA v k (buddy_of i) = true); [|congruence]. apply (ti_alloc _ _ _ _ v Hti); [done|done|].
    split; [|done]. destruct Hu as ([->|He] & _); [lia|]. right. by rewrite buddy_of_half. }
  apply list_elem_of_split in Hin as (xs & ys & Hf).
  change (blk_addr (put_info b k info') k) with (blk_addr b k). rewrite blk_addr_ok by done. simpl.
  pose proof (wf_base b Hwf). pose proof (bbaddr_range b _ _ Hwf Hbb).
  pose proof (bbaddr_range b _ _ Hwf Hbp). pose proof (bsize_bound b (k + 1) Hwf ltac:(lia)).
  unfold as_mut. destruct (Z.eqb_spec (bbaddr b k (buddy_of i)) 0); [lia|]. simpl.
  destruct (remove_rep (put_info b k info') _ k xs (bbaddr b k (buddy_of i)) ys Hrep1) as (m & Hrm & Hrep2);
    [by apply (tree_lists_ok b v)|done|done|].
  simpl in Hrm. rewrite Hrm. simpl. rewrite merged_addr by lia.
  rewrite uadd_ok by lia. simpl.
  destruct (split_set_rep (set_mem (put_info b k info') m) _ (k + 1) (i / 2) false
    (wf_set_mem _ m Hwf1) Hrep2) as (info2 & info2' & Hg2 & Hss & Hwf3 & Hrep3); [done|lia|].
  change (blk_index (set_mem (put_info b k info') m) (k + 1)) with (blk_index b (k + 1)).
  rewrite blk_index_addr by done. simpl. rewrite Hg2. simpl. rewrite Hss. simpl.
  destruct (merge_inv (mx b) (base b) (leaf_size b) (infos_ptr b) Hmx Hlf v k i xs ys)
    as (Hti' & Hnh' & Huse); [done..|].
  eexists _, (merge_block v k i xs ys). split; [done|]. split_and!; try done.
Qed.

(** The merging loop ends in a block in use, whose alloc bit is already
    cleared and whose buddy is not free. *)
Lemma coalesce_ok b v k i :
  buddy_inv b v → bblock b k i → bused b v k i → bno_head b k i →
  ∃ k' i' b' v', coalesce b k (bbaddr b k i) = Done (k', bbaddr b k' i', b') ∧
    geom b' = geom b ∧ wf b' ∧ rep b' (with_A v' k' i' false) ∧
    tree_inv (mx b) (base b) (leaf_size b) (infos_ptr b) v' ∧
    bblock b k' i' ∧ bused b v' k' i' ∧ bno_head b k' i' ∧
    (k' < mx b → bbaddr b k' (buddy_of i') ∉ vF v' k') ∧ exchanged b v v' k i k' i' ∧
    bbaddr b k' i' ≤ bbaddr b k i < bbaddr b k' i' + bbsize b k'.
Proof.
  intros Hinv Hb Hu Hnh.
  set (I := λ p : Z * Z * BuddySystem, ∃ v1 i1,
    buddy_inv p.2 v1 ∧ geom p.2 = geom b ∧ bblock b p.1.1 i1 ∧ p.1.2 = bbaddr b p.1.1 i1 ∧
    k ≤ p.1.1 ∧ bbaddr b p.1.1 i1 ≤ bbaddr b k i < bbaddr b p.1.1 i1 + bbsize b p.1.1 ∧
    bno_head b p.1.1 i1 ∧ exchanged b v v1 k i p.1.1 i1).
  set (Q := λ p : Z * Z * BuddySystem, ∃ v' i', p.1.2 = bbaddr b p.1.1 i' ∧
    geom p.2 = geom b ∧ wf p.2 ∧ rep p.2 (with_A v' p.1.1 i' false) ∧
    tree_inv (mx b) (base b) (leaf_size b) (infos_ptr b) v' ∧
    bblock b p.1.1 i' ∧ bused b v' p.1.1 i' ∧ bno_head b p.1.1 i' ∧
    (p.1.1 < mx b → bbaddr b p.1.1 (buddy_of i') ∉ vF v' p.1.1) ∧
    exchanged b v v' k i p.1.1 i' ∧
    bbaddr b p.1.1 i' ≤ bbaddr b k i < bbaddr b p.1.1 i' + bbsize b p.1.1).
  cut (∃ p, coalesce b k (bbaddr b k i) = Done p ∧ Q p).
  { intros ([[k' a'] b'] & Hc & v' & i' & Ha & HQ). simpl in *. subst a'. by exists k', i', b', v'. }
  pose proof Hb as [Hk Hi]. pose proof (bsize_bound b k (inv_wf _ _ Hinv) Hk).
  unfold coalesce. apply (while_fuel_inv I (λ p, mx b - p.1.1)); cycle 1.
  { exists v, i. split_and!; simpl; try done; try lia. intros k2 i2 Hb2.
    destruct (decide (k2 = k ∧ i2 = i)) as [[-> ->]|]; tauto. }
  { simpl. unfold mx in *. lia. }
  { simpl. lia. }
  intros [[k1 a1] b1] (v1 & i1 & Hinv1 & Hg1 & Hb1 & Ha0 & Hkk & Ha1 & Hn1 & Hex1). simpl in *.
  subst a1.
  destruct (geom_eq _ _ Hg1) as (E1 & E2 & E3 & E4 & _).
  rewrite max_size_ok by apply Hinv1. simpl. rewrite E1.
  assert (bused b v1 k1 i1) as Hu1 by (apply Hex1; [done|by right]).
  destruct (Z.ltb_spec k1 (mx b)); cycle 1.
  { left. eexists. split; [done|]. exists v1, i1. pose proof Hb1 as [? _].
    destruct Hinv1 as [? [Hr1 Hr2 Hr3] Hti1]. rewrite ?E1, ?E2, ?E3, ?E4 in *.
    split_and!; try done; simpl; try lia. constructor; rewrite ?E1 in *; [|done|done].
    intros k2 i2 [? ?] ?. simpl. rewrite upd2_ne by lia. by apply Hr1. }
  destruct (coalesce_iter_ok b1 v1 k1 i1) as [(b2 & Hit & Hwf2 & Hrep2 & Hg2 & Hbud)|
    (b2 & v2 & Hit & Hinv2 & Hg2 & Hn2 & Hex2)]; rewrite ?E1, ?E2, ?E3, ?E4; [done..| |].
  - left. rewrite E2, E3 in *. rewrite Hit. eexists. split; [done|]. exists v1, i1.
    destruct Hinv1 as [_ _ Hti1]. rewrite E1, E2, E3, E4 in Hti1.
    split_and!; try done; simpl; try lia; congruence.
  - right. unfold exchanged in Hex2. rewrite E1, E2, E3 in *. rewrite E4 in Hn2. rewrite Hit.
    eexists. split; [done|]. pose proof Hb1 as [? _]. split; [|simpl; lia].
    assert (bbsize b (k1 + 1) = 2 * bbsize b k1) by (apply bsize_succ; lia).
    exists v2, (i1 / 2). split_and!; simpl; try done; try lia; [congruence|by apply block_parent|..].
    + rewrite baddr_child by lia. assert (2 * (i1 / 2) ≤ i1) by divlia. unfold baddr in *. nia.
    + rewrite baddr_child by lia. assert (i1 ≤ 2 * (i1 / 2) + 1) by divlia. unfold baddr in *. nia.
    + eapply exchanged_trans; [done|exact Hex2|]. intros Hu2.
      destruct (leaf_unique b v k1 i1 k i (bbaddr b k i)) as [-> ->];
        [done|by apply (used_leaf _ (base b) (leaf_size b))..|done|lia|done].
Qed.

(** Freeing a block in use. *)
Lemma dealloc_spec b v k i l :
  buddy_inv b v → bblock b k i → k < mx b → bused b v k i → bno_head b k i →
  bbaddr b k i < actual_end b → size l ≤ bbsize b k →
  ∃ b' v', dealloc b (bbaddr b k i) l = Done b' ∧ buddy_inv b' v' ∧ geom b' = geom b ∧
    ∀ k' i', bblock b k' i' → bused b v' k' i' ↔ bused b v k' i' ∧ ¬ (k' = k ∧ i' = i).
Proof.
  intros Hinv Hb Hlt Hu Hnh Hend Hsz. pose proof (inv_wf _ _ Hinv) as Hwf.
  pose proof (bbaddr_range b k i Hwf Hb). pose proof Hb as [Hk Hi]. unfold dealloc.
  destruct (Z.ltb_spec (bbaddr b k i) (base b)); [lia|].
  destruct (Z.leb_spec (actual_end b) (bbaddr b k i)); [lia|]. simpl.
  rewrite (find_size_ok b v) by done. simpl.
  destruct (Z.eqb_spec k (nsizes b)); [unfold mx in *; lia|].
  rewrite blk_size_ok by done. simpl. destruct (Z.ltb_spec (bbsize b k) (size l)); [lia|].
  destruct (coalesce_ok b v k i) as
    (k1 & i1 & b1 & v1 & -> & Hg1 & Hwf1 & Hrep1 & Hti1 & Hb1 & Hu1 & Hn1 & Hbud & Hex & Hin); [done..|].
  simpl. destruct (geom_eq _ _ Hg1) as (E1 & E2 & E3 & E4 & _).
  pose proof Hb1 as [Hk1 _]. pose proof (wf_leaf_pos b Hwf) as Hlf.
  destruct (get_info_ok b1 k1 Hwf1) as (? & -> & _); [lia|]. simpl.
  pose proof (bbaddr_range b k1 i1 Hwf Hb1). pose proof (wf_base b Hwf).
  pose proof (bsize_bound b k1 Hwf Hk1).
  destruct (push_rep b1 _ k1 (bbaddr b k1 i1) Hrep1) as (m & -> & Hrep2).
  - apply (tree_lists_ok b1 v1 Hwf1). by rewrite E1, E2, E3, E4.
  - by rewrite E1.
  - lia.
  - intros k2 Hk2. rewrite E1 in Hk2. split; simpl.
    + intros Heq. apply (Hn1 k2 Hk2). unfold free_list in Heq. rewrite E4 in Heq.
      change (head (infos_ptr b) k2) with (infos_ptr b + size_of_BuddyInfo * k2). lia.
    + apply (used_not_free (mx b) (base b) _ (infos_ptr b) Hlf v1 k1 i1); [done..|lia].
  - destruct (release_inv (mx b) (base b) (leaf_size b) (infos_ptr b) Hlf v1 k1 i1) as [Hti2 Huse];
      [done..|].
    eexists _, (release_block (base b) (leaf_size b) v1 k1 i1). split; [done|].
    split; [constructor; [by apply wf_set_mem|exact Hrep2|]|].
    { change (tree_inv (mx b1) (base b1) (leaf_size b1) (infos_ptr b1)
        (release_block (base b) (leaf_size b) v1 k1 i1)). by rewrite E1, E2, E3, E4. }
    split; [done|]. intros k2 i2 Hb2. rewrite Huse, (Hex k2 i2) by done.
    destruct (decide (k2 = k1 ∧ i2 = i1)) as [[-> ->]|]; [|tauto].
    split; [tauto|]. intros [Hu2 Hne]. destruct Hne.
    apply (leaf_unique b v k1 i1 k i (bbaddr b k i)); 
      [done|by apply (used_leaf _ (base b) (leaf_size b))..|done|].
    pose proof (bsize_bound b k Hwf Hk). lia.
Qed.
End Spec.
