(* ===== verification/BuddyInit.v ===== *)
(** * Correctness of the allocator's initialisation

    [buddy_init] places its own data at the start of the region, marks it and
    the part of the tree beyond the region as allocated, and builds the free
    lists.  On a region whose size is not a power of two and whose metadata
    fits in the first quarter of the tree it succeeds and establishes
    [buddy_inv]; the concrete runs at the end show what happens outside of
    these conditions. *)

From Stdlib Require Import ZArith Lia.
From stdpp Require Import base gmap strings numbers list.
From S2P Require Import Prelude BuddyList Buddy BuddyTree BuddyRep BuddySpec.

Local Open Scope Z_scope.

(** The quotient rounded up. *)
Definition cdiv (a b : Z) : Z := (a + b - 1) / b.

Lemma cdiv_double a s : 0 < s → cdiv a (2 * s) = (cdiv a s + 1) / 2.
Proof.
  intros Hs. unfold cdiv.
  replace ((a + s - 1) / s + 1) with ((a + s - 1 + 1 * s) / s) by (rewrite Z.div_add by lia; lia).
  rewrite Z.div_div by lia. f_equal; lia.
Qed.

Lemma cdiv_bounds a b : 0 < b → a ≤ cdiv a b * b < a + b.
Proof.
  intros Hb. unfold cdiv. pose proof (Z.div_mod (a + b - 1) b ltac:(lia)).
  pose proof (Z.mod_pos_bound (a + b - 1) b Hb). nia.
Qed.

(** ** The tree after initialisation *)

Section InitTree.
(** [bs + c] is the end of the metadata, [bs + e] the end of the region. *)
Context (mx bs lf hd c e : Z).
Context (Hmx : 2 ≤ mx) (Hlf : 0 < lf).
Context (Hc : 0 < c) (Hquarter : 4 * c ≤ 2 ^ mx * lf).
Context (He : 2 ^ (mx - 1) * lf < e) (Htop : e < 2 ^ mx * lf).
Context (Hcl : c mod lf = 0) (Hel : e mod lf = 0).
Context (Hheads : ∀ j, 0 ≤ j ≤ mx → bs ≤ hd + 48 * j < bs + c).

(** The first block of size [k] after the metadata and the one the region ends in. *)
Definition lbi (k : Z) : Z := cdiv c (bsize lf k).
Definition rbi (k : Z) : Z := e / bsize lf k.

(** Blocks that overlap the metadata or the part beyond the region. *)
Definition marked (k i : Z) : bool := (i <? lbi k) || (rbi k <=? i).

Definition free_blocks (k : Z) : list Z :=
  if (k <? mx) && (lbi k <? rbi k) then
    (if rbi k mod 2 =? 1 then [baddr bs lf k (rbi k - 1)] else []) ++
    (if lbi k mod 2 =? 1 then [baddr bs lf k (lbi k)] else [])
  else [].

Definition init_view : view :=
  mkView marked (λ k i, (0 <? k) && marked k i) free_blocks.

Local Abbreviation bsize := (bsize lf).
Local Abbreviation baddr := (baddr bs lf).
Local Abbreviation block := (block mx).
Local Abbreviation nblk := (nblk mx).

Lemma lbi_up k : 0 ≤ k → lbi (k + 1) = (lbi k + 1) / 2.
Proof using Hlf.
  intros Hk. unfold lbi. rewrite bsize_succ by done.
  apply cdiv_double, bsize_pos; [exact Hlf|exact Hk].
Qed.

Lemma rbi_up k : 0 ≤ k → rbi (k + 1) = rbi k / 2.
Proof using Hlf.
  intros Hk. unfold rbi. rewrite bsize_succ by done.
  rewrite Z.div_div; [|pose proof (bsize_pos lf Hlf k Hk) as Hp; clear - Hp; lia|done].
  f_equal. apply Z.mul_comm.
Qed.

Lemma bsize_split k j : 0 ≤ k → 0 ≤ j → bsize (k + j) = 2 ^ j * bsize k.
Proof. intros. unfold BuddyTree.bsize. rewrite Z.pow_add_r by lia. lia. Qed.

(** At sizes below the root the metadata ends in the left half of the tree and
    the region in the right half, strictly before the end. *)
Lemma lbi_bound k : 0 ≤ k ≤ mx - 2 → 1 ≤ lbi k ≤ 2 ^ (mx - 2 - k).
Proof.
  intros Hk. unfold lbi. pose proof (bsize_pos lf Hlf k ltac:(lia)) as Hp.
  pose proof (cdiv_bounds c (bsize k) Hp).
  assert (4 * c ≤ 4 * (2 ^ (mx - 2 - k) * bsize k)).
  { rewrite <- bsize_split by lia. replace (k + (mx - 2 - k)) with (mx - 2) by lia.
    unfold BuddyTree.bsize. replace (2 ^ mx) with (4 * 2 ^ (mx - 2)) in Hquarter; [lia|].
    change 4 with (2 ^ 2). rewrite <- Z.pow_add_r by lia. f_equal. lia. }
  nia.
Qed.

Lemma lbi_top k : mx - 1 ≤ k ≤ mx → lbi k = 1.
Proof.
  intros Hk. pose proof (lbi_bound (mx - 2) ltac:(lia)) as Hb.
  replace (mx - 2 - (mx - 2)) with 0 in Hb by lia. change (2 ^ 0) with 1 in Hb.
  pose proof (lbi_up (mx - 2) ltac:(lia)) as H1. replace (mx - 2 + 1) with (mx - 1) in H1 by lia.
  pose proof (lbi_up (mx - 1) ltac:(lia)) as H2. replace (mx - 1 + 1) with mx in H2 by lia.
  assert (lbi (mx - 2) = 1) as H0 by lia. rewrite H0 in H1. change ((1 + 1) / 2) with 1 in H1.
  rewrite H1 in H2. change ((1 + 1) / 2) with 1 in H2.
  assert (k = mx - 1 ∨ k = mx) as [-> | ->] by lia; done.
Qed.

Lemma rbi_bound k : 0 ≤ k < mx → 2 ^ (mx - 1 - k) ≤ rbi k < nblk k.
Proof.
  intros Hk. unfold rbi, BuddyTree.nblk. pose proof (bsize_pos lf Hlf k ltac:(lia)) as Hp. split.
  - apply Z.div_le_lower_bound; [done|].
    rewrite Z.mul_comm, <- bsize_split by lia. replace (k + (mx - 1 - k)) with (mx - 1) by lia.
    unfold BuddyTree.bsize. lia.
  - apply Z.div_lt_upper_bound; [done|].
    rewrite Z.mul_comm, <- bsize_split by lia. replace (k + (mx - k)) with mx by lia. done.
Qed.

Lemma rbi_root : rbi mx = 0.
Proof.
  unfold rbi. apply Z.div_small. split; [|done].
  pose proof (Z.pow_pos_nonneg 2 (mx - 1) eq_refl ltac:(lia)). nia.
Qed.

Lemma lbi_block k : 0 ≤ k < mx → block k (lbi k).
Proof.
  intros Hk. split; [lia|]. unfold BuddyTree.nblk. destruct (Z.le_gt_cases k (mx - 2)).
  - pose proof (lbi_bound k ltac:(lia)). split; [lia|].
    eapply Z.le_lt_trans; [apply H0|]. apply Z.pow_lt_mono_r; lia.
  - rewrite lbi_top by lia. replace k with (mx - 1) by lia. replace (mx - (mx - 1)) with 1 by lia. lia.
Qed.

Lemma rbi_block k : 0 ≤ k < mx → block k (rbi k).
Proof.
  intros Hk. pose proof (rbi_bound k Hk). split; [lia|].
  pose proof (Z.pow_pos_nonneg 2 (mx - 1 - k) eq_refl ltac:(lia)). lia.
Qed.

(** The two boundaries are never the two halves of one block with the left
    half free. *)
Lemma no_collision k : 0 ≤ k < mx → lbi k mod 2 = 0 → rbi k ≠ lbi k + 1.
Proof.
  intros Hk Hev Heq. pose proof (rbi_bound k Hk).
  destruct (Z.le_gt_cases k (mx - 2)).
  - pose proof (lbi_bound k ltac:(lia)) as Hl.
    replace (mx - 1 - k) with (1 + (mx - 2 - k)) in H by lia. rewrite Z.pow_add_r in H by lia.
    assert (lbi k = 1) as Hl1 by lia. rewrite Hl1 in Hev. done.
  - rewrite lbi_top in Hev by lia. done.
Qed.

Lemma marked_spec k i : marked k i = true ↔ i < lbi k ∨ rbi k ≤ i.
Proof. unfold marked. rewrite orb_true_iff, Z.ltb_lt, Z.leb_le. done. Qed.
Lemma unmarked_spec k i : marked k i = false ↔ lbi k ≤ i < rbi k.
Proof. unfold marked. rewrite orb_false_iff, Z.ltb_ge, Z.leb_gt. done. Qed.

Lemma free_blocks_spec k i :
  0 ≤ k → baddr k i ∈ free_blocks k ↔
  k < mx ∧ lbi k < rbi k ∧ ((i = rbi k - 1 ∧ rbi k mod 2 = 1) ∨ (i = lbi k ∧ lbi k mod 2 = 1)).
Proof.
  intros Hk. unfold free_blocks.
  destruct (Z.ltb_spec k mx), (Z.ltb_spec (lbi k) (rbi k)); simpl; [|set_solver by lia..].
  assert (∀ j, baddr k i ∈ [baddr k j] ↔ i = j) as Hone.
  { intros j. rewrite list_elem_of_singleton. split; [apply baddr_inj; [done|lia]|by intros ->]. }
  rewrite elem_of_app.
  destruct (Z.eqb_spec (rbi k mod 2) 1), (Z.eqb_spec (lbi k mod 2) 1); rewrite ?Hone, ?elem_of_nil; tauto.
Qed.

Lemma free_blocks_in k a : a ∈ free_blocks k → ∃ i, a = baddr k i.
Proof. unfold free_blocks. repeat case_match; set_solver. Qed.

(** Marks propagate upwards, and an unmarked block under a marked one is free. *)
Lemma marked_up k i : 0 ≤ k → marked k i = true → marked (k + 1) (i / 2) = true.
Proof. intros Hk. rewrite !marked_spec, lbi_up, rbi_up by done. divlia. Qed.

Lemma unmarked_free k i :
  0 ≤ k < mx → marked k i = false →
  marked (k + 1) (i / 2) = true ↔ baddr k i ∈ free_blocks k.
Proof.
  intros Hk. rewrite unmarked_spec, marked_spec, free_blocks_spec, lbi_up, rbi_up by lia. divlia.
Qed.

Lemma free_unmarked k i : 0 ≤ k → baddr k i ∈ free_blocks k → k < mx ∧ marked k i = false.
Proof. intros Hk. rewrite unmarked_spec, free_blocks_spec by done. lia. Qed.

Lemma marked_root : marked mx 0 = true.
Proof. apply marked_spec. rewrite lbi_top by lia. lia. Qed.

Lemma init_exists k i : block k i →
  exists_in mx init_view k i ↔ k = mx ∨ marked (k + 1) (i / 2) = true.
Proof.
  intros [Hk _]. unfold exists_in. simpl.
  destruct (Z.ltb_spec 0 (k + 1)); [done|lia].
Qed.

Lemma init_tree_inv : tree_inv mx bs lf hd init_view.
Proof.
  constructor.
  - intros k i Hb Hs. simpl in Hs. zify_bool. rewrite init_exists by done. split; [done|].
    destruct (decide (k = mx)); [by left|right]. apply marked_up; [lia|done].
  - intros k i Hb Hin. pose proof Hb as [Hk _]. simpl in Hin. rewrite init_exists by done.
    destruct (free_unmarked k i ltac:(lia) Hin) as [Hlt Hm]. simpl. rewrite Hm, andb_false_r.
    split_and!; [right; by apply unmarked_free; [lia|..]|done|].
    intros j Hj [Ha _]. apply unmarked_spec in Hm as [Hl _]. specialize (Hheads j Hj).
    unfold head, BuddyTree.baddr in Ha. pose proof (bsize_pos lf Hlf k ltac:(lia)) as Hp.
    pose proof (cdiv_bounds c (bsize k) Hp) as Hcd. fold (lbi k) in Hcd. nia.
  - intros k i Hb Hlt. pose proof Hb as [Hk _]. rewrite init_exists by done. simpl.
    destruct (marked k i) eqn:Hm.
    + split; [intros _|done]. split; [right; apply marked_up; [lia|done]|].
      intros Hin. destruct (free_unmarked k i ltac:(lia) Hin). congruence.
    + split; [done|]. intros [[->|Hp] Hn]; [lia|]. by apply unmarked_free in Hp; [|lia|].
  - intros k a Hk Hin. simpl in Hin. destruct (free_blocks_in k a Hin) as [i ->].
    exists i. split; [|done]. apply free_blocks_spec in Hin as (Hlt & Hlr & Hi); [|lia].
    pose proof (lbi_block k ltac:(lia)) as [_ ?]. pose proof (rbi_block k ltac:(lia)) as [_ ?].
    split; [lia|]. lia.
  - intros k Hk. simpl. unfold free_blocks.
    destruct ((k <? mx) && (lbi k <? rbi k)); [|constructor].
    destruct (Z.eqb_spec (rbi k mod 2) 1), (Z.eqb_spec (lbi k mod 2) 1); simpl;
      repeat constructor; rewrite ?list_elem_of_singleton; try set_solver.
    intros Heq%baddr_inj; [|done|lia]. divlia.
  - intros k i Hb Hlt _ Hin Hin'. pose proof Hb as [Hk _]. simpl in *.
    apply free_blocks_spec in Hin as (_ & Hlr & Hi); [|lia].
    apply free_blocks_spec in Hin' as (_ & _ & Hi'); [|lia].
    destruct (buddy_of_spec i) as [[? Hbi]|[? Hbi]]; rewrite Hbi in Hi'; divlia.
Qed.

(** Only leaves that overlap the reserved parts are in use. *)
Lemma init_used k i : block k i → used mx bs lf init_view k i ↔ k = 0 ∧ marked 0 i = true.
Proof.
  intros Hb. pose proof Hb as [Hk Hi]. unfold used. rewrite init_exists by done. simpl. split.
  - intros (Hex & Hs & Hn). destruct (marked k i) eqn:Hm.
    + rewrite andb_true_r in Hs. apply Z.ltb_ge in Hs. assert (k = 0) as -> by lia. done.
    + exfalso. destruct Hex as [-> | Hp].
      * rewrite nblk_top in Hi. assert (i = 0) as -> by lia. by rewrite marked_root in Hm.
      * destruct (decide (k = mx)) as [->|].
        -- rewrite nblk_top in Hi. assert (i = 0) as -> by lia. by rewrite marked_root in Hm.
        -- apply Hn. by apply unmarked_free; [lia|..].
  - intros [-> Hm]. split_and!; [right; by apply marked_up|done|].
    intros Hin. destruct (free_unmarked 0 i ltac:(lia) Hin). congruence.
Qed.
End InitTree.

(** ** Marking *)

Section Init.
Context {BF : BitField} {BFL : BitFieldLaws}.

Lemma rep_ext b v v' :
  rep b v →
  (∀ k i, bblock b k i → vA v' k i = vA v k i ∧ (0 < k → vS v' k i = vS v k i) ∧ vF v' k = vF v k) →
  rep b v'.
Proof.
  intros [H1 H2 H3] Heq. constructor.
  - intros k i Hb Hlt. destruct (Heq k i Hb) as (-> & _ & _). by apply H1.
  - intros k i Hb Hlt. destruct (Heq k i Hb) as (_ & Hs & _). rewrite Hs by done. by apply H2.
  - intros k Hk. destruct (Heq k 0) as (_ & _ & ->); [|by apply H3].
    split; [done|]. pose proof (nblk_pos (mx b) k ltac:(lia)). lia.
Qed.

(** Mark the blocks of size [k] selected by [P]. *)
Definition mark_view (v : view) (P : Z → Z → bool) : view :=
  mkView (λ k i, P k i || vA v k i) (λ k i, P k i || vS v k i) (vF v).

Lemma put_put_info b k x y : put_info (put_info b k x) k y = put_info b k y.
Proof. unfold put_info, set_infos; simpl. by rewrite list_insert_insert_eq. Qed.

Lemma mark_row_step (f : Z → Z → bool) k bi j k' i' :
  bi ≤ j →
  (k' =? k) && (bi <=? i') && (i' <? j + 1) || f k' i' =
  upd2 (λ k' i', (k' =? k) && (bi <=? i') && (i' <? j) || f k' i') k j true k' i'.
Proof.
  intros Hj. unfold upd2.
  destruct (Z.eqb_spec k' k), (Z.leb_spec bi i'), (Z.ltb_spec i' j), (Z.ltb_spec i' (j + 1)),
    (decide (k' = k ∧ i' = j)); simpl; try done; lia.
Qed.

Lemma mark_size_ok b v k bi bj :
  wf b → rep b v → 0 ≤ k ≤ mx b → 0 ≤ bi ≤ bj → bj ≤ nblk (mx b) k →
  ∃ b', mark_size b k bi bj = Done b' ∧ wf b' ∧ geom b' = geom b ∧
    rep b' (mark_view v (λ k' i', (k' =? k) && (bi <=? i') && (i' <? bj))).
Proof.
  intros Hwf Hrep Hk Hij Hj. unfold mark_size.
  apply (while_fuel_inv (λ p : Z * BuddySystem, bi ≤ p.1 ≤ bj ∧ wf p.2 ∧ geom p.2 = geom b ∧
    rep p.2 (mark_view v (λ k' i', (k' =? k) && (bi <=? i') && (i' <? p.1))))
    (λ p, bj - p.1)); simpl; [|split_and!; try done; try lia|lia|lia]; cycle 1.
  { apply (rep_ext b v); [done|]. intros k' i' _. simpl. split_and!; [| |done].
    all: try intros _; destruct (Z.leb_spec bi i'), (Z.ltb_spec i' bi); try lia;
      by rewrite ?andb_false_r. }
  intros [j b1] (Hj1 & Hwf1 & Hg1 & Hrep1). simpl in *.
  destruct (geom_eq _ _ Hg1) as (E1 & _). destruct (Z.ltb_spec j bj); cycle 1.
  { left. assert (j = bj) as -> by lia. eauto. }
  right. assert (bblock b1 k j) as Hb1 by (rewrite E1; split; lia).
  pose proof (mx_lt_64 b Hwf). assert (nblk (mx b) k < 2 ^ 64) by (apply Z.pow_lt_mono_r; lia).
  destruct (alloc_set_rep b1 _ k j true Hwf1 Hrep1 Hb1)
    as (info & info' & Hgi & Has & Hgi' & Hwf2 & Hrep2).
  rewrite Hgi. simpl. rewrite Has. simpl.
  destruct (Z.ltb_spec 0 k) as [Hk0|Hk0].
  - destruct (split_set_rep _ _ k j true Hwf2 Hrep2 Hb1 Hk0)
      as (info2 & info3 & Hgi2 & Hss & Hwf3 & Hrep3).
    rewrite Hgi' in Hgi2. injection Hgi2 as <-. rewrite Hss. simpl. rewrite uadd_ok by lia. simpl.
    rewrite put_put_info in *. eexists. split; [done|]. simpl. split; [|lia].
    split_and!; [lia|lia|done|done|]. apply (rep_ext _ _ _ Hrep3). intros k' i' _. simpl.
    split_and!; [by apply (mark_row_step (vA v)); lia|intros _; by apply (mark_row_step (vS v)); lia|done].
  - simpl. rewrite uadd_ok by lia. simpl. eexists. split; [done|]. simpl. split; [|lia].
    split_and!; [lia|lia|done|done|]. apply (rep_ext _ _ _ Hrep2). intros k' i' _. simpl.
    split_and!; [by apply (mark_row_step (vA v)); lia|intros ?|done].
    destruct (Z.eqb_spec k' k); [lia|done].
Qed.

Lemma blk_index_next_ok b k a :
  wf b → 0 ≤ k ≤ mx b → base b ≤ a ≤ base b + bbsize b (mx b) →
  blk_index_next b k a = Done (cdiv (a - base b) (bbsize b k)).
Proof.
  intros Hwf Hk Ha. pose proof (wf_base b Hwf). pose proof (wf_top b Hwf).
  pose proof (bsize_bound b k Hwf Hk) as Hp. unfold blk_index_next.
  rewrite blk_size_ok by done. simpl. rewrite usub_ok by lia. simpl.
  rewrite udiv_ok, urem_ok by lia. simpl.
  set (s := bbsize b k) in *. set (d := a - base b) in *.
  pose proof (Z.div_mod d s ltac:(lia)) as Hdm. pose proof (Z.mod_pos_bound d s ltac:(lia)).
  assert (d / s ≤ d) by (apply Z.div_le_upper_bound; nia).
  unfold cdiv. destruct (Z.ltb_spec 0 (d mod s)).
  - rewrite uadd_ok by (split; [apply Z.add_nonneg_nonneg; [apply Z.div_pos|]|]; lia). f_equal.
    apply (Z.div_unique_pos _ _ _ (d mod s - 1)); lia.
  - f_equal. apply (Z.div_unique_pos _ _ _ (s - 1)); lia.
Qed.

Lemma cdiv_mono a a' b : 0 < b → a ≤ a' → cdiv a b ≤ cdiv a' b.
Proof. intros Hb Ha. unfold cdiv. apply Z.div_le_mono; lia. Qed.

Lemma cdiv_mul n b : 0 < b → cdiv (n * b) b = n.
Proof. intros Hb. unfold cdiv. symmetry. apply (Z.div_unique_pos _ _ _ (b - 1)); lia. Qed.

Lemma cdiv_ge a b : 0 < b → a / b ≤ cdiv a b.
Proof. intros Hb. unfold cdiv. apply Z.div_le_mono; lia. Qed.

(** [mark] marks, at every size, the blocks that overlap [left, right). *)
Lemma mark_ok b v left right :
  wf b → rep b v → left mod leaf_size b = 0 → right mod leaf_size b = 0 →
  base b ≤ left ≤ right → right ≤ base b + bbsize b (mx b) →
  ∃ b', mark b left right = Done b' ∧ wf b' ∧ geom b' = geom b ∧
    rep b' (mark_view v (λ k i, ((left - base b) / bbsize b k <=? i) &&
                                (i <? cdiv (right - base b) (bbsize b k)))).
Proof.
  intros Hwf Hrep Hl Hr Hle Htop. pose proof (wf_leaf_pos b Hwf). unfold mark.
  rewrite (urem_ok left) by lia. simpl. rewrite Hl. simpl.
  rewrite (urem_ok right) by lia. simpl. rewrite Hr. simpl.
  pose proof (wf_nsizes b Hwf) as Hns.
  set (P := λ k i, ((left - base b) / bbsize b k <=? i) && (i <? cdiv (right - base b) (bbsize b k))).
  destruct (for_range_inv (λ n b', wf b' ∧ geom b' = geom b ∧
    rep b' (mark_view v (λ k i, (k <? n) && P k i))) 0 (nsizes b)
    (λ i b, bi ← blk_index b i left; bj ← blk_index_next b i right; mark_size b i bi bj) b)
    as (b' & -> & Hwf' & Hg' & Hrep'); [lia|split_and!; try done| |].
  - apply (rep_ext b v); [done|]. intros k i [Hk _]. simpl.
    destruct (Z.ltb_spec k 0); [lia|]. done.
  - intros n b1 Hn (Hwf1 & Hg1 & Hrep1). destruct (geom_eq _ _ Hg1) as (E1 & E2 & E3 & _).
    pose proof (wf_top b Hwf). assert (0 ≤ n ≤ mx b) as Hn' by (unfold mx; lia).
    pose proof (bsize_bound b n Hwf Hn').
    rewrite blk_index_ok by (rewrite ?E1, ?E2, ?E3; done || lia). simpl.
    rewrite blk_index_next_ok by (rewrite ?E1, ?E2, ?E3; done || lia). simpl. rewrite E2, E3.
    destruct (mark_size_ok b1 _ n ((left - base b) / bbsize b n) (cdiv (right - base b) (bbsize b n))
      Hwf1 Hrep1) as (b2 & -> & Hwf2 & Hg2 & Hrep2); [by rewrite E1| | |].
    + split; [apply Z.div_pos; lia|]. etrans; [apply cdiv_ge; lia|]. apply cdiv_mono; lia.
    + rewrite E1. rewrite <- (cdiv_mul (nblk (mx b) n) (bbsize b n)) by lia. apply cdiv_mono; [lia|].
      assert (nblk (mx b) n * bbsize b n = bbsize b (mx b)) as ->; [|lia].
      unfold bsize, nblk. rewrite Z.mul_assoc, <- Z.pow_add_r by lia. do 2 f_equal. lia.
    + eexists. split; [done|]. split_and!; [done|congruence|].
      apply (rep_ext _ _ _ Hrep2). intros k i _. simpl.
      assert ((k <? n + 1) && P k i = ((k =? n) && ((left - base b) / bbsize b n <=? i) &&
        (i <? cdiv (right - base b) (bbsize b n))) || (k <? n) && P k i) as Heq.
      { unfold P. destruct (Z.ltb_spec k (n + 1)), (Z.eqb_spec k n), (Z.ltb_spec k n); try lia;
          subst; by rewrite ?orb_false_r. }
      rewrite Heq, !orb_assoc. done.
  - exists b'. split_and!; [done..|]. apply (rep_ext _ _ _ Hrep'). intros k i [Hk _].
    destruct (geom_eq _ _ Hg') as (E1 & _). rewrite E1 in Hk. simpl.
    destruct (Z.ltb_spec k (nsizes b)); [done|unfold mx in Hk; lia].
Qed.

(** ** Building the free lists *)

Lemma init_free_pair_ok b v k i :
  wf b → rep b v → bblock b k i → k < mx b → lists_ok b (vF v) →
  let j := if vA v k i then buddy_of i else i in
  (vA v k i ≠ vA v k (buddy_of i) →
   ∀ k', 0 ≤ k' ≤ mx b → bbaddr b k j ≠ free_list b k' ∧ bbaddr b k j ∉ vF v k') →
  ∃ b', init_free_pair b k i =
          Done (if decide (vA v k i = vA v k (buddy_of i)) then 0 else bbsize b k, b') ∧
    wf b' ∧ geom b' = geom b ∧
    rep b' (if decide (vA v k i = vA v k (buddy_of i)) then v
            else with_F v k (bbaddr b k j :: vF v k)).
Proof.
  intros Hwf Hrep Hb Hlt Hlo j Hj. pose proof Hb as [Hk _].
  pose proof (block_buddy _ k i Hb Hlt) as Hbb. unfold init_free_pair.
  rewrite (buddy_index_ok b k) by done. simpl. rewrite !blk_addr_ok by done. simpl.
  destruct (get_info_ok b k Hwf Hk) as (info & Hg & _). rewrite Hg. simpl.
  rewrite (is_alloc_set_ok b k i), (is_alloc_set_ok b k (buddy_of i)) by done. simpl.
  rewrite !(rep_alloc b v Hrep) by done.
  destruct (decide (vA v k i = vA v k (buddy_of i))) as [Heq|Hne].
  { rewrite Heq, Bool.eqb_reflx. simpl. eauto. }
  destruct (Bool.eqb _ _) eqn:E; [by apply Bool.eqb_prop in E|]. simpl.
  destruct (push_rep b v k (bbaddr b k j)) as (m & Hm & Hrep'); [done..| |by apply Hj|].
  { pose proof (wf_base b Hwf).
    assert (bblock b k j) as Hbj by (subst j; by destruct (vA v k i)).
    pose proof (bbaddr_range b _ _ Hwf Hbj). lia. }
  assert ((if vA v k i then bbaddr b k (buddy_of i) else bbaddr b k i) = bbaddr b k j) as ->
    by (subst j; by destruct (vA v k i)).
  rewrite Hm. simpl. change (blk_size (set_mem b m) k) with (blk_size b k).
  rewrite blk_size_ok by done. simpl. eexists. split; [done|].
  split_and!; [by apply wf_set_mem|done|done].
Qed.

Section FreeLists.
Context (b0 : BuddySystem) (c e : Z) (A S : Z → Z → bool).
Context (Hwf0 : wf b0) (Hmx : 2 ≤ mx b0).
Context (Hc : 0 < c) (Hquarter : 4 * c ≤ bbsize b0 (mx b0)).
Context (He : bbsize b0 (mx b0 - 1) < e) (Htop : e < bbsize b0 (mx b0)).
Context (Hcl : c mod leaf_size b0 = 0) (Hel : e mod leaf_size b0 = 0).
Context (Hend : actual_end b0 = base b0 + e).
Context (Hheads : ∀ j, 0 ≤ j ≤ mx b0 → base b0 ≤ infos_ptr b0 + 48 * j < base b0 + c).
Context (HA : ∀ k i, bblock b0 k i → k < mx b0 → A k i = marked (leaf_size b0) c e k i).

Local Abbreviation lf := (leaf_size b0).
Local Abbreviation fblocks := (free_blocks (mx b0) (base b0) lf c e).
Local Abbreviation l := (lbi lf c).
Local Abbreviation r := (rbi lf e).

Lemma fl_tree : tree_inv (mx b0) (base b0) lf (infos_ptr b0) (init_view (mx b0) (base b0) lf c e).
Proof. apply init_tree_inv; try done. by apply wf_leaf_pos. Qed.

(** Lists of blocks that are among the ones to be freed can be pushed on. *)
Lemma fl_lists (F : Z → list Z) :
  (∀ k, 0 ≤ k ≤ mx b0 → F k ⊆ fblocks k) → lists_ok b0 F.
Proof.
  intros Hsub. destruct (tree_lists_ok b0 _ Hwf0 fl_tree) as [H1 H2]. split.
  - intros k k' a Hk Hk' Hin Hin'. apply (H1 k k' a); [done|done|by apply Hsub..].
  - intros k j Hk Hj Hin. apply (H2 k j); [done|done|by apply Hsub].
Qed.

Lemma fl_fresh (F : Z → list Z) n a :
  (∀ k, 0 ≤ k ≤ mx b0 → F k ⊆ fblocks k) → 0 ≤ n ≤ mx b0 → a ∈ fblocks n → a ∉ F n →
  ∀ k', 0 ≤ k' ≤ mx b0 → a ≠ free_list b0 k' ∧ a ∉ F k'.
Proof.
  intros Hsub Hn Ha Hna k' Hk'. destruct (tree_lists_ok b0 _ Hwf0 fl_tree) as [H1 H2]. split.
  - intros ->. by apply (H2 n k').
  - intros Hin. assert (n = k') as ->; [|done]. apply (H1 n k' a); [done|done|done|by apply Hsub].
Qed.

(** The free lists with the first [n] sizes done. *)
Definition lists_upto (n : Z) (cur : list Z) : Z → list Z :=
  λ k, if k <? n then fblocks k else if k =? n then cur else [].

Lemma lists_upto_sub n cur : cur ⊆ fblocks n → ∀ k, lists_upto n cur k ⊆ fblocks k.
Proof.
  intros Hc' k. unfold lists_upto. destruct (Z.ltb_spec k n); [done|].
  destruct (Z.eqb_spec k n) as [->|]; set_solver.
Qed.

Definition left_part (n : Z) : list Z :=
  if (l n <? r n) && (l n mod 2 =? 1) then [bbaddr b0 n (l n)] else [].
Definition right_part (n : Z) : list Z :=
  if (l n <? r n) && (r n mod 2 =? 1) then [bbaddr b0 n (r n - 1)] else [].

Lemma parts n : n < mx b0 → fblocks n = right_part n ++ left_part n.
Proof.
  intros Hn. unfold free_blocks, left_part, right_part. destruct (Z.ltb_spec n (mx b0)); [|lia].
  by destruct (l n <? r n), (r n mod 2 =? 1), (l n mod 2 =? 1).
Qed.

(** A pair of blocks of which only the right one is free. *)
Lemma pair_step b1 n i j cur :
  wf b1 → geom b1 = geom b0 → rep b1 (mkView A S (lists_upto n cur)) →
  0 ≤ n < mx b0 → bblock b0 n i → cur ⊆ fblocks n → (i = j ∨ buddy_of i = j) →
  A n i ≠ A n (buddy_of i) → A n j = false → bbaddr b0 n j ∈ fblocks n → bbaddr b0 n j ∉ cur →
  ∃ b2, init_free_pair b1 n i = Done (bbsize b0 n, b2) ∧ wf b2 ∧ geom b2 = geom b0 ∧
    rep b2 (mkView A S (lists_upto n (bbaddr b0 n j :: cur))).
Proof.
  intros Hwf1 Hg1 Hrep1 Hn Hb Hsub Hij Hne Hj Hin Hnin.
  destruct (geom_eq _ _ Hg1) as (E1 & E2 & E3 & E4 & _).
  assert (∀ k', free_list b1 k' = free_list b0 k') as E5 by (intros; unfold free_list; congruence).
  pose proof (lists_upto_sub n cur Hsub) as Hsub'.
  assert (lists_upto n cur n = cur) as Hcur.
  { unfold lists_upto. destruct (Z.ltb_spec n n), (Z.eqb_spec n n); try lia. done. }
  assert ((if A n i then buddy_of i else i) = j) as Hsel.
  { destruct Hij as [<-|<-]; [by rewrite Hj|]. rewrite Hj in Hne. by destruct (A n i). }
  destruct (init_free_pair_ok b1 _ n i Hwf1 Hrep1) as (b2 & Hp & Hwf2 & Hg2 & Hrep2);
    [by rewrite E1|by rewrite E1; lia| | |].
  - destruct (fl_lists _ (λ k _, Hsub' k)) as [H1 H2]. split; rewrite E1; [done|].
    intros k k' ??. rewrite E5. by apply H2.
  - simpl. rewrite Hsel, E1, E2, E3. intros _ k' Hk'. rewrite E5.
    apply (fl_fresh _ n (bbaddr b0 n j) (λ k _, Hsub' k)); [lia|done|by rewrite Hcur|done].
  - simpl in *. rewrite decide_False in Hp by done. rewrite decide_False in Hrep2 by done. rewrite Hsel in Hrep2. rewrite E2, E3 in *.
    exists b2. split_and!; [done|done|congruence|]. apply (rep_ext _ _ _ Hrep2).
    intros k' i' _. simpl. split_and!; [done..|]. rewrite Hcur. unfold lists_upto, upd1.
    destruct (Z.ltb_spec k' n), (Z.eqb_spec k' n), (decide (k' = n)); try lia; done.
Qed.

(** A pair whose blocks are both free or both not. *)
Lemma pair_skip b1 n i cur :
  wf b1 → geom b1 = geom b0 → rep b1 (mkView A S (lists_upto n cur)) →
  0 ≤ n < mx b0 → bblock b0 n i → cur ⊆ fblocks n → A n i = A n (buddy_of i) →
  ∃ b2, init_free_pair b1 n i = Done (0, b2) ∧ wf b2 ∧ geom b2 = geom b0 ∧
    rep b2 (mkView A S (lists_upto n cur)).
Proof.
  intros Hwf1 Hg1 Hrep1 Hn Hb Hsub Heq.
  destruct (geom_eq _ _ Hg1) as (E1 & E2 & E3 & E4 & _).
  pose proof (lists_upto_sub n cur Hsub) as Hsub'.
  destruct (init_free_pair_ok b1 _ n i Hwf1 Hrep1) as (b2 & Hp & Hwf2 & Hg2 & Hrep2);
    [by rewrite E1|by rewrite E1; lia| |done|].
  - destruct (fl_lists _ (λ k _, Hsub' k)) as [H1 H2]. split; rewrite E1; [done|].
    intros k k' ??. unfold free_list. rewrite E4. by apply H2.
  - simpl in *. rewrite decide_True in Hp by done. rewrite decide_True in Hrep2 by done. exists b2.
    split_and!; [done|done|congruence|done].
Qed.

Lemma parts_sub n : n < mx b0 → left_part n ⊆ fblocks n.
Proof. intros Hn. rewrite parts by done. set_solver. Qed.

Lemma parity n : n mod 2 = 0 ∨ n mod 2 = 1.
Proof. divlia. Qed.

(** The two pairs at the ends of the region give exactly the free blocks of
    size [n]. *)
Lemma left_pair b1 n :
  wf b1 → geom b1 = geom b0 → rep b1 (mkView A S (lists_upto n [])) → 0 ≤ n < mx b0 →
  ∃ b2, init_free_pair b1 n (l n) = Done (bbsize b0 n * Z.of_nat (length (left_part n)), b2) ∧
    wf b2 ∧ geom b2 = geom b0 ∧ rep b2 (mkView A S (lists_upto n (left_part n))).
Proof.
  intros Hwf1 Hg1 Hrep1 Hn. pose proof (wf_leaf_pos b0 Hwf0) as Hlf.
  pose proof (lbi_block (mx b0) lf c Hmx Hlf Hc Hquarter n Hn) as Hb.
  pose proof (block_buddy _ n _ Hb ltac:(lia)) as Hbb.
  pose proof (no_collision (mx b0) lf c e Hmx Hlf Hc Hquarter He Htop n Hn) as Hcol.
  pose proof (parts_sub n ltac:(lia)) as Hps.
  unfold left_part in *. destruct (Z.eqb_spec (l n mod 2) 1) as [Hodd|Hev].
  - assert (buddy_of (l n) = l n - 1) as Hbud
      by (destruct (buddy_of_spec (l n)) as [[? ?]|[? ?]]; lia).
    assert (A n (buddy_of (l n)) = true) as Hb1.
    { rewrite HA by (done || lia). apply marked_spec. lia. }
    destruct (Z.ltb_spec (l n) (r n)) as [Hlr|Hlr]; simpl in *.
    + rewrite Z.mul_1_r. assert (A n (l n) = false) as Ha.
      { rewrite HA by (done || lia). apply unmarked_spec. lia. }
      apply (pair_step b1 n (l n) (l n));
        [done|done|done|done|done|set_solver|by left|congruence|done|apply Hps; set_solver|set_solver].
    + rewrite Z.mul_0_r. apply pair_skip; [done|done|done|done|done|set_solver|]. rewrite Hb1, HA by (done || lia).
      apply marked_spec. lia.
  - rewrite andb_false_r in *. simpl. rewrite Z.mul_0_r. apply pair_skip; [done|done|done|done|done|set_solver|].
    assert (buddy_of (l n) = l n + 1) as Hbud
      by (destruct (buddy_of_spec (l n)) as [[? ?]|[? ?]]; lia).
    assert (l n mod 2 = 0) as Hev' by (destruct (parity (l n)); lia). specialize (Hcol Hev').
    rewrite !HA by (done || lia). apply Bool.eq_iff_eq_true. rewrite !marked_spec. lia.
Qed.

Lemma right_pair b1 n :
  wf b1 → geom b1 = geom b0 → rep b1 (mkView A S (lists_upto n (left_part n))) → 0 ≤ n < mx b0 →
  ∃ b2, init_free_pair b1 n (r n) = Done (bbsize b0 n * Z.of_nat (length (right_part n)), b2) ∧
    wf b2 ∧ geom b2 = geom b0 ∧ rep b2 (mkView A S (lists_upto n (fblocks n))).
Proof.
  intros Hwf1 Hg1 Hrep1 Hn. pose proof (wf_leaf_pos b0 Hwf0) as Hlf.
  pose proof (rbi_block (mx b0) lf e Hmx Hlf He Htop n Hn) as Hb.
  pose proof (block_buddy _ n _ Hb ltac:(lia)) as Hbb.
  pose proof (parts n ltac:(lia)) as Hp. pose proof (parts_sub n ltac:(lia)) as Hps.
  assert (A n (r n) = true) as Hr.
  { rewrite HA by (done || lia). apply marked_spec. lia. }
  rewrite Hp. unfold right_part in *. destruct (Z.eqb_spec (r n mod 2) 1) as [Hodd|Hev].
  - assert (buddy_of (r n) = r n - 1) as Hbud
      by (destruct (buddy_of_spec (r n)) as [[? ?]|[? ?]]; lia).
    destruct (Z.ltb_spec (l n) (r n)) as [Hlr|Hlr]; simpl in *.
    + rewrite Z.mul_1_r. assert (A n (buddy_of (r n)) = false) as Ha.
      { rewrite HA by (done || lia). apply unmarked_spec. lia. }
      apply (pair_step b1 n (r n) (r n - 1));
        [done|done|done|done|done|done|by right|congruence|by rewrite <- Hbud| |].
      * rewrite Hp. set_solver.
      * unfold left_part. destruct ((l n <? r n) && (l n mod 2 =? 1)) eqn:E; [|set_solver].
        zify_bool. rewrite list_elem_of_singleton. intros Heq%baddr_inj; [divlia|done|lia].
    + rewrite Z.mul_0_r. apply pair_skip; try done. rewrite Hr, HA by (done || lia).
      symmetry. apply marked_spec. lia.
  - rewrite andb_false_r in *. simpl. rewrite Z.mul_0_r. apply pair_skip; try done.
    assert (buddy_of (r n) = r n + 1) as Hbud
      by (destruct (buddy_of_spec (r n)) as [[? ?]|[? ?]]; lia).
    rewrite Hr, HA by (done || lia). symmetry. apply marked_spec. lia.
Qed.

(** What is free at size [n] is split between the lists of size [n] and the
    bigger sizes. *)
Lemma accounting n :
  0 ≤ n < mx b0 →
  Z.of_nat (length (left_part n)) + Z.of_nat (length (right_part n)) +
  2 * Z.max 0 (r (n + 1) - l (n + 1)) = Z.max 0 (r n - l n).
Proof.
  intros Hn. pose proof (wf_leaf_pos b0 Hwf0) as Hlf.
  rewrite lbi_up, rbi_up by lia. unfold left_part, right_part.
  destruct (parity (l n)) as [Hl|Hl], (parity (r n)) as [Hr|Hr]; rewrite Hl, Hr; simpl;
    destruct (Z.ltb_spec (l n) (r n)); simpl; divlia.
Qed.

Lemma init_free_ok b1 :
  wf b1 → geom b1 = geom b0 → rep b1 (mkView A S (λ _, [])) →
  ∃ b2, init_free b1 (base b0 + c) = Done (e - c, b2) ∧ wf b2 ∧ geom b2 = geom b0 ∧
    rep b2 (mkView A S fblocks).
Proof.
  intros Hwf1 Hg1 Hrep1. pose proof (wf_leaf_pos b0 Hwf0) as Hlf.
  destruct (geom_eq _ _ Hg1) as (E1 & E2 & E3 & E4 & E5 & E6).
  assert (bbsize b0 (mx b0) = 2 * bbsize b0 (mx b0 - 1)) as Htwo.
  { replace (mx b0) with (mx b0 - 1 + 1) at 1 by lia. apply bsize_succ. lia. }
  pose proof (wf_top b0 Hwf0). pose proof (wf_base b0 Hwf0).
  unfold init_free. rewrite max_size_ok by done. simpl. rewrite E1, E6, Hend.
  match goal with |- context [for_range 0 (mx b0) ?f (0, b1)] =>
    destruct (for_range_inv (λ n (p : Z * BuddySystem), wf p.2 ∧ geom p.2 = geom b0 ∧
      rep p.2 (mkView A S (lists_upto n [])) ∧ 0 ≤ p.1 ∧
      p.1 + bbsize b0 n * Z.max 0 (r n - l n) = e - c) 0 (mx b0) f (0, b1))
      as ([free b2] & -> & Hwf2 & Hg2 & Hrep2 & _ & Hacc) end; simpl in *.
  - lia.
  - split_and!; [done|done| |lia|].
    + apply (rep_ext _ _ _ Hrep1). intros k i [Hk _]. simpl. split_and!; [done..|].
      unfold lists_upto. destruct (Z.ltb_spec k 0); [lia|]. by destruct (k =? 0).
    + unfold lbi, rbi, bsize. rewrite Z.pow_0_r, Z.mul_1_l.
      pose proof (cdiv_bounds c lf Hlf). pose proof (Z.div_mod e lf ltac:(lia)).
      pose proof (Z.div_mod c lf ltac:(lia)).
      assert (cdiv c lf = c / lf) as -> by (unfold cdiv in *; nia). nia.
  - intros n [free b2] Hn (Hwf2 & Hg2 & Hrep2 & Hf0 & Hacc). simpl in *.
    destruct (geom_eq _ _ Hg2) as (F1 & F2 & F3 & F4 & F5 & F6).
    rewrite blk_index_next_ok by (rewrite ?F1, ?F2, ?F3; done || lia). simpl.
    rewrite blk_index_ok by (rewrite ?F1, ?F2, ?F3; done || lia). simpl.
    rewrite F2, F3. replace (base b0 + c - base b0) with c by lia.
    replace (base b0 + e - base b0) with e by lia. fold (l n) (r n).
    destruct (left_pair b2 n Hwf2 Hg2 Hrep2 Hn) as (b3 & -> & Hwf3 & Hg3 & Hrep3). simpl.
    pose proof (accounting n Hn) as Hac. pose proof (bsize_bound b0 n Hwf0 ltac:(lia)) as Hbn.
    rewrite (bsize_succ lf n) by lia.
    set (L := Z.of_nat (length (left_part n))) in *. set (R := Z.of_nat (length (right_part n))) in *.
    assert (0 ≤ L ∧ 0 ≤ R) as [HL HR] by lia.
    assert (0 ≤ bbsize b0 n * L) by nia. assert (0 ≤ bbsize b0 n * R) by nia.
    assert (bbsize b0 n * L + bbsize b0 n * R + 2 * bbsize b0 n * Z.max 0 (r (n + 1) - l (n + 1)) =
      bbsize b0 n * Z.max 0 (r n - l n)) as Hsum by (rewrite <- Hac; lia).
    assert (0 ≤ 2 * bbsize b0 n * Z.max 0 (r (n + 1) - l (n + 1))) by nia.
    rewrite uadd_ok by lia. simpl. destruct (Z.ltb_spec (base b0 + c) (base b0 + e)); [|lia].
    destruct (right_pair b3 n Hwf3 Hg3 Hrep3 Hn) as (b4 & -> & Hwf4 & Hg4 & Hrep4). simpl.
    fold R. rewrite uadd_ok by lia. simpl. eexists. split; [done|]. simpl.
    split_and!; [done|done| |lia|lia]. apply (rep_ext _ _ _ Hrep4). intros k i _. simpl.
    split_and!; [done..|]. unfold lists_upto.
    destruct (Z.ltb_spec k n), (Z.ltb_spec k (n + 1)), (Z.eqb_spec k n), (Z.eqb_spec k (n + 1));
      try lia; subst; done.
  - exists b2. rewrite (lbi_top (mx b0)), (rbi_root (mx b0)), Z.mul_0_r in Hacc by (done || lia).
    assert (free = e - c) as -> by lia. split_and!; [done..|]. apply (rep_ext _ _ _ Hrep2).
    destruct (geom_eq _ _ Hg2) as (F1 & _). intros k i [Hk _]. rewrite F1 in Hk. simpl.
    split_and!; [done..|]. unfold lists_upto, free_blocks.
    destruct (Z.ltb_spec k (mx b0)), (Z.eqb_spec k (mx b0)); try lia; done.
Qed.
End FreeLists.
End Init.
