(* ===== verification/BuddyBoot.v ===== *)
(** * Initialisation of the allocator and its contract

    The phases of [buddy_init] put together, and the heap its clients see. *)

From Stdlib Require Import ZArith Lia.
From stdpp Require Import base gmap strings numbers list.
From S2P Require Import Prelude BuddyList Buddy BuddyTree BuddyRep BuddySpec BuddyInit.

Local Open Scope Z_scope.

(** * Initialisation establishes the allocator's invariant

    The layout of the metadata that [buddy_init] places at the start of the
    region, and the theorem that puts the phases of [buddy_init] together. *)

(** ** Integer helpers *)

Lemma log2_ok n : 0 ≤ n < 2 ^ 64 → log2 n = Done (Z.log2 n).
Proof.
  intros Hn. unfold log2.
  destruct (while_fuel_inv (λ p : Z * Z, 0 ≤ p.1 < 2 ^ 64 ∧ 0 ≤ p.2 ∧ Z.log2 p.1 + p.2 = Z.log2 n)
    (λ p, Z.log2 p.1) (λ k, k = Z.log2 n)
    (λ '(n, k), if 1 <? n then k ← uadd k 1; Done (inr (Z.shiftr n 1, k)) else Done (inl k)))
    with (fuel := 65%nat) (s := (n, 0)) as (k & -> & ->); simpl; [| | |apply Z.log2_nonneg|done].
  - intros [x k] ([Hx1 Hx2] & Hk & Hl). simpl in *.
    assert (Z.log2 n < 64).
    { destruct (decide (n = 0)) as [->|]; [done|]. apply Z.log2_lt_pow2; lia. }
    destruct (Z.ltb_spec 1 x).
    + right. pose proof (Z.log2_nonneg x). rewrite uadd_ok by lia. simpl. eexists. split; [done|]. simpl.
      rewrite Z.shiftr_div_pow2 by lia. change (2 ^ 1) with 2.
      assert (Z.log2 x = 1 + Z.log2 (x / 2)).
      { rewrite <- Z.div2_div. pose proof (Z.log2_shiftr x 1 ltac:(lia)) as Hs.
        rewrite Z.shiftr_div_pow2 in Hs by lia. change (2 ^ 1) with 2 in Hs.
        rewrite Z.div2_div. assert (1 ≤ Z.log2 x) by (apply (Z.log2_le_mono 2 x); lia). lia. }
      pose proof (Z.log2_nonneg (x / 2)). split; [|lia]. split; [divlia|]. lia.
    + left. exists k. split; [done|]. assert (x = 0 ∨ x = 1) as [-> | ->] by lia; simpl in Hl; lia.
  - split; [lia|]. lia.
  - destruct (decide (n = 0)) as [->|]; [done|]. assert (Z.log2 n < 64) by (apply Z.log2_lt_pow2; lia). lia.
Qed.

Lemma round_up_ok n s : 0 < s → 0 < n → cdiv n s * s < 2 ^ 64 → round_up n s = Done (cdiv n s * s).
Proof.
  intros Hs Hn Hlt. pose proof (cdiv_bounds n s Hs).
  assert (cdiv n s = (n - 1) / s + 1) as Heq.
  { unfold cdiv. replace (n + s - 1) with (n - 1 + 1 * s) by lia. by rewrite Z.div_add by lia. }
  assert (0 ≤ (n - 1) / s) by (apply Z.div_pos; lia).
  unfold round_up. rewrite usub_ok by lia. simpl. rewrite udiv_ok by lia. simpl.
  rewrite uadd_ok by nia. simpl. rewrite <- Heq. apply umul_ok. nia.
Qed.

Lemma round_down_ok n s : 0 < s → 0 ≤ n < 2 ^ 64 → round_down n s = Done (n / s * s).
Proof.
  intros Hs Hn. pose proof (Z.div_mod n s ltac:(lia)). pose proof (Z.mod_pos_bound n s Hs).
  assert (0 ≤ n / s) by (apply Z.div_pos; lia).
  unfold round_down. rewrite udiv_ok by lia. simpl. apply umul_ok. nia.
Qed.

Lemma is_power_of_two_pow k : 0 ≤ k → is_power_of_two (2 ^ k) = true.
Proof.
  intros Hk. unfold is_power_of_two. pose proof (Z.pow_pos_nonneg 2 k eq_refl Hk).
  destruct (Z.ltb_spec 0 (2 ^ k)); [|lia]. simpl. apply Z.eqb_eq.
  replace (2 ^ k - 1) with (Z.ones k) by (rewrite Z.ones_equiv; lia).
  rewrite Z.land_ones by done. by rewrite Z.mod_same by lia.
Qed.

(** ** The metadata *)

(** Bytes of a bitmap for the blocks of size [k]. *)
Definition slice_bytes (m k : Z) : Z := cdiv (nblk m k) 8.

Definition sum_slices (m lo n : Z) : Z := foldr (λ k acc, slice_bytes m k + acc) 0 (seqZ lo n).

Lemma foldr_sum_app m (l1 l2 : list Z) :
  foldr (λ k acc, slice_bytes m k + acc) 0 (l1 ++ l2) =
  foldr (λ k acc, slice_bytes m k + acc) 0 l1 + foldr (λ k acc, slice_bytes m k + acc) 0 l2.
Proof. induction l1 as [|a l1 IH]; cbn [foldr app]; [done|]. rewrite IH. lia. Qed.

Lemma sum_slices_succ m lo n :
  0 ≤ n → sum_slices m lo (n + 1) = sum_slices m lo n + slice_bytes m (lo + n).
Proof.
  intros Hn. unfold sum_slices. rewrite (seqZ_app lo n 1) by lia. rewrite foldr_sum_app.
  rewrite (seqZ_cons (lo + n)), (seqZ_nil (Z.succ (lo + n))) by lia. cbn [foldr]. lia.
Qed.

Lemma slice_bytes_pos m k : k ≤ m → 0 < slice_bytes m k.
Proof.
  intros Hk. unfold slice_bytes. pose proof (nblk_pos m k Hk).
  pose proof (cdiv_bounds (nblk m k) 8). lia.
Qed.

Lemma sum_slices_nil m lo : sum_slices m lo 0 = 0.
Proof. unfold sum_slices. by rewrite seqZ_nil by lia. Qed.

Lemma sum_slices_mono m lo n n' :
  0 ≤ lo → 0 ≤ n ≤ n' → lo + n' ≤ m + 1 → sum_slices m lo n ≤ sum_slices m lo n'.
Proof.
  intros Hlo Hn Hn'. replace n' with (n + Z.of_nat (Z.to_nat (n' - n))) in * by lia.
  induction (Z.to_nat (n' - n)) as [|d IH]; [by rewrite Z.add_0_r|].
  rewrite Nat2Z.inj_succ in *. replace (n + Z.succ (Z.of_nat d)) with (n + Z.of_nat d + 1) in * by lia.
  rewrite sum_slices_succ by lia. pose proof (slice_bytes_pos m (lo + (n + Z.of_nat d)) ltac:(lia)).
  specialize (IH ltac:(lia) ltac:(lia)). lia.
Qed.

Lemma sum_slices_nonneg m lo n : 0 ≤ lo → 0 ≤ n → lo + n ≤ m + 1 → 0 ≤ sum_slices m lo n.
Proof. intros. rewrite <- (sum_slices_nil m lo). apply sum_slices_mono; lia. Qed.

(** Where the metadata of an allocator at [bs] with sizes [0..m] ends. *)
Definition meta_end (bs m lf : Z) : Z :=
  cdiv (bs + 48 * (m + 1) + sum_slices m 0 (m + 1) + sum_slices m 1 m) lf * lf.

Section Boot.
Context {BF : BitField} {BFL : BitFieldLaws}.

Definition zeros (m k : Z) : list Z := replicate (Z.to_nat (slice_bytes m k)) 0.

Lemma zeros_ok m k : k ≤ m → map_ok (nblk m k) (zeros m k).
Proof.
  intros Hk. pose proof (slice_bytes_pos m k Hk). unfold slice_bytes in *.
  pose proof (cdiv_bounds (nblk m k) 8). split; unfold zeros, slice_bytes.
  - rewrite length_replicate. lia.
  - apply Forall_replicate. split; lia.
Qed.

Lemma map_bit_zeros m k i : map_bit (zeros m k) i = false.
Proof.
  unfold map_bit. destruct (zeros m k !! _) as [x|] eqn:E; [|done].
  apply lookup_replicate in E as [-> _]. apply get_bit_0. by apply Z.mod_pos_bound.
Qed.

(** The alloc bitmaps and list heads of the first [n] sizes, and the split
    bitmaps of the sizes from 1 to [n'], are in place. *)
Definition placed (m n n' : Z) (b : BuddySystem) : Prop :=
  length (infos b) = Z.to_nat (m + 1) ∧
  ∀ k, 0 ≤ k < n →
    is_list (mem b) (free_list b k) [] ∧
    ∃ info, infos b !! Z.to_nat k = Some info ∧ alloc_map info = zeros m k ∧
            (1 ≤ k < n' → split_map info = zeros m k).

Lemma n_blk_ok b k : 0 ≤ k ≤ mx b → mx b < 64 → n_blk b k = Done (nblk (mx b) k).
Proof.
  intros Hk Hm. unfold n_blk, max_size. unfold mx in *. rewrite usub_ok by lia. simpl.
  rewrite usub_ok by lia. simpl. apply ushl_one_ok. lia.
Qed.

Lemma slice_len_ok b k :
  0 ≤ k ≤ mx b → mx b < 64 →
  round_up (nblk (mx b) k) 8 = Done (slice_bytes (mx b) k * 8) ∧
  slice_bytes (mx b) k * 8 / 8 = slice_bytes (mx b) k.
Proof.
  intros Hk Hm. pose proof (nblk_pos (mx b) k ltac:(lia)).
  assert (nblk (mx b) k ≤ 2 ^ 63) by (apply Z.pow_le_mono_r; lia).
  pose proof (cdiv_bounds (nblk (mx b) k) 8). split; [apply round_up_ok; lia|].
  by rewrite Z.div_mul by lia.
Qed.

Lemma init_slice_empty_ok cur n :
  0 ≤ n → 0 ≤ cur → cur + n < 2 ^ 64 → init_slice_empty cur 1 n = Done (cur + n).
Proof.
  intros Hn Hc Hb. unfold init_slice_empty. rewrite umul_ok by lia. simpl.
  rewrite Z.mul_1_l. apply uadd_ok. lia.
Qed.

Lemma init_alloc_slice_ok b n cur :
  placed (mx b) n 0 b → 0 ≤ n ≤ mx b → mx b < 64 → 0 < infos_ptr b → 0 ≤ cur →
  cur + slice_bytes (mx b) n < 2 ^ 64 →
  ∃ b', init_alloc_slice n (cur, b) = Done (cur + slice_bytes (mx b) n, b') ∧
    placed (mx b) (n + 1) 0 b' ∧ geom b' = geom b.
Proof.
  intros [Hlen Hpl] Hn Hm Hip Hcur Hb. pose proof (slice_bytes_pos (mx b) n ltac:(lia)).
  destruct (slice_len_ok b n Hn Hm) as [Hru Hud].
  destruct (lookup_lt_is_Some_2 (infos b) (Z.to_nat n)) as [info Hinfo]; [lia|].
  unfold init_alloc_slice. rewrite n_blk_ok by done. simpl.
  unfold get_info_mut. rewrite Hinfo. simpl. rewrite Hru. simpl. rewrite Hud.
  rewrite init_slice_empty_ok by lia. simpl. eexists. split; [done|]. split; [|done].
  split; simpl; [by rewrite length_insert|]. intros k Hk.
  destruct (decide (k = n)) as [->|Hne].
  - split; [apply is_list_nil_init; unfold free_list, size_of_BuddyInfo; simpl; lia|].
    eexists. rewrite list_lookup_insert, decide_True by (split; [done|by eapply lookup_lt_Some]).
    split; [done|]. split; [done|]. lia.
  - destruct (Hpl k ltac:(lia)) as [Hl Hi]. rewrite list_lookup_insert_ne by lia. split; [|done].
    eapply is_list_frame; [exact Hl|]. intros a ->%list_elem_of_singleton.
    unfold init. apply lookup_insert_ne. unfold free_list, size_of_BuddyInfo. simpl. lia.
Qed.

Lemma init_split_slice_ok b n cur :
  placed (mx b) (nsizes b) n b → 1 ≤ n ≤ mx b → mx b < 64 → 0 ≤ cur →
  cur + slice_bytes (mx b) n < 2 ^ 64 →
  ∃ b', init_split_slice n (cur, b) = Done (cur + slice_bytes (mx b) n, b') ∧
    placed (mx b) (nsizes b) (n + 1) b' ∧ geom b' = geom b.
Proof.
  intros [Hlen Hpl] Hn Hm Hcur Hb. pose proof (slice_bytes_pos (mx b) n ltac:(lia)).
  destruct (slice_len_ok b n ltac:(lia) Hm) as [Hru Hud].
  destruct (Hpl n ltac:(unfold mx in *; lia)) as (_ & info & Hinfo & Ha & _).
  unfold init_split_slice. rewrite n_blk_ok by lia. simpl.
  unfold get_info_mut. rewrite Hinfo. simpl. rewrite Hru. simpl. rewrite Hud.
  rewrite init_slice_empty_ok by lia. simpl. eexists. split; [done|]. split; [|done].
  split; simpl; [by rewrite length_insert|]. intros k Hk.
  destruct (Hpl k Hk) as (Hl & info' & Hinfo' & Ha' & Hs'). split; [done|].
  destruct (decide (k = n)) as [->|Hne].
  - eexists. rewrite list_lookup_insert, decide_True by (split; [done|by eapply lookup_lt_Some]).
    split; [done|]. done.
  - exists info'. rewrite list_lookup_insert_ne by lia. split_and!; [done..|]. intros ?. apply Hs'. lia.
Qed.

(** Both placement loops. *)
Lemma slices_ok b cur :
  length (infos b) = Z.to_nat (nsizes b) → 1 ≤ nsizes b → mx b < 64 → 0 < infos_ptr b → 0 ≤ cur →
  cur + sum_slices (mx b) 0 (mx b + 1) + sum_slices (mx b) 1 (mx b) < 2 ^ 64 →
  ∃ b1 b2, for_range 0 (nsizes b) init_alloc_slice (cur, b) =
           Done (cur + sum_slices (mx b) 0 (mx b + 1), b1) ∧ nsizes b1 = nsizes b ∧
    for_range 1 (nsizes b) init_split_slice (cur + sum_slices (mx b) 0 (mx b + 1), b1) =
      Done (cur + sum_slices (mx b) 0 (mx b + 1) + sum_slices (mx b) 1 (mx b), b2) ∧
    placed (mx b) (nsizes b) (nsizes b) b2 ∧ geom b2 = geom b.
Proof.
  intros Hlen Hns Hm Hip Hcur Hb. set (m := mx b) in *. assert (nsizes b = m + 1) as Hm1 by (unfold m, mx; lia).
  pose proof (sum_slices_mono m) as Hmono. pose proof (sum_slices_nil m) as Hz.
  pose proof (sum_slices_nonneg m) as Hpos.
  pose proof (Hpos 1 m ltac:(lia) ltac:(lia) ltac:(lia)).
  destruct (for_range_inv (λ n (p : Z * BuddySystem), p.1 = cur + sum_slices m 0 n ∧
    placed m n 0 p.2 ∧ geom p.2 = geom b) 0 (nsizes b) init_alloc_slice (cur, b))
    as ([cur1 b1] & -> & Hc1 & Hp1 & Hg1); [lia| | |].
  - split_and!; simpl; [rewrite Hz; lia| |done]. split; [simpl; lia|]. intros; lia.
  - intros n [c b1] Hn (Hc & Hp & Hg). cbn [fst snd] in *. destruct (geom_eq _ _ Hg) as (E1 & E2 & E3 & E4 & E5 & E6).
    fold m in E1. pose proof (Hmono 0 (n + 1) (m + 1) ltac:(lia) ltac:(lia) ltac:(lia)) as Hle.
    pose proof (Hpos 0 n ltac:(lia) ltac:(lia) ltac:(lia)). rewrite (sum_slices_succ m 0 n) in * by lia.
    rewrite Z.add_0_l in Hle.
    destruct (init_alloc_slice_ok b1 n c) as (b2 & -> & Hp2 & Hg2); rewrite ?E1, ?E4; [done|lia..|].
    eexists. split; [done|]. rewrite E1 in *. split_and!; cbn [fst snd]; [|done|congruence].
    rewrite Z.add_0_l. lia.
  - simpl in *. rewrite Hm1 in *. subst cur1.
    destruct (geom_eq _ _ Hg1) as (_ & _ & _ & _ & E5 & _).
    destruct (for_range_inv (λ n (p : Z * BuddySystem),
      p.1 = cur + sum_slices m 0 (m + 1) + sum_slices m 1 (n - 1) ∧
      placed m (m + 1) n p.2 ∧ geom p.2 = geom b) 1 (m + 1) init_split_slice
      (cur + sum_slices m 0 (m + 1), b1)) as ([cur2 b2] & Hrun & Hc2 & Hp2 & Hg2); [lia| | |].
    + split_and!; simpl; [rewrite Hz; lia| |done]. destruct Hp1 as [? Hp1]. split; [done|].
      intros k Hk. destruct (Hp1 k Hk) as (? & info & ? & ? & ?). split; [done|]. exists info.
      split_and!; [done..|lia].
    + intros n [c b2] Hn (Hc & Hp & Hg). cbn [fst snd] in *.
      destruct (geom_eq _ _ Hg) as (F1 & _ & _ & _ & F5 & _). fold m in F1. rewrite Hm1 in F5.
      pose proof (Hmono 1 n m ltac:(lia) ltac:(lia) ltac:(lia)) as Hle.
      pose proof (Hpos 1 (n - 1) ltac:(lia) ltac:(lia) ltac:(lia)).
      pose proof (Hpos 0 (m + 1) ltac:(lia) ltac:(lia) ltac:(lia)).
      replace n with (n - 1 + 1) in Hle at 1 by lia. rewrite sum_slices_succ in Hle by lia.
      replace (1 + (n - 1)) with n in Hle by lia.
      destruct (init_split_slice_ok b2 n c) as (b3 & -> & Hp3 & Hg3); rewrite ?F1, ?F5; [done|lia..|].
      eexists. split; [done|]. rewrite F1, F5 in *. split_and!; simpl; [|done|congruence].
      replace (n + 1 - 1) with (n - 1 + 1) by lia. rewrite (sum_slices_succ m 1) by lia.
      replace (1 + (n - 1)) with n by lia. lia.
    + exists b1, b2. simpl in *. replace (m + 1 - 1) with m in Hc2 by lia. subst cur2.
      split_and!; [done|lia|done|done|done].
Qed.

(** The state after placing the metadata: everything is free of marks. *)
Definition blank : view := mkView (λ _ _, false) (λ _ _, false) (λ _, []).

Lemma placed_rep b lg :
  placed (mx b) (nsizes b) (nsizes b) b → 0 ≤ mx b → 0 < base b → 0 ≤ lg → leaf_size b = 2 ^ lg →
  base b + bbsize b (mx b) < 2 ^ 64 → wf b ∧ rep b blank.
Proof.
  intros [Hlen Hpl] Hm Hbs Hlg Hleaf Htop. unfold mx in *. split; constructor; unfold mx; try done.
  - lia.
  - eauto.
  - intros k Hk. destruct (Hpl k ltac:(lia)) as (_ & info & Hi & Ha & Hs). exists info.
    split; [done|]. rewrite Ha. split; [apply zeros_ok; lia|]. intros H0. rewrite Hs by lia.
    apply zeros_ok. lia.
  - intros k i [Hk _] _. unfold abit. destruct (Hpl k ltac:(lia)) as (_ & info & -> & -> & _).
    apply map_bit_zeros.
  - intros k i [Hk _] H0. unfold sbit. destruct (Hpl k ltac:(lia)) as (_ & info & -> & _ & Hs).
    rewrite Hs by lia. apply map_bit_zeros.
  - intros k Hk. destruct (Hpl k ltac:(lia)) as (Hl & _). exact Hl.
Qed.

(** Marking the metadata and the part beyond the region. *)
Lemma marks_ok b c e :
  wf b → rep b blank → 0 < c → c ≤ bbsize b (mx b) → 0 ≤ e ≤ bbsize b (mx b) →
  base b mod leaf_size b = 0 → c mod leaf_size b = 0 → e mod leaf_size b = 0 →
  actual_end b = base b + e →
  ∃ b1 b2, mark_meta b (base b + c) = Done (c, b1) ∧
    mark_unavail b1 = Done (bbsize b (mx b) - e, b2) ∧ wf b2 ∧ geom b2 = geom b ∧
    ∃ A S, rep b2 (mkView A S (λ _, [])) ∧
      ∀ k i, bblock b k i → A k i = marked (leaf_size b) c e k i ∧
                            S k i = marked (leaf_size b) c e k i.
Proof.
  intros Hwf Hrep Hc Hct He Hbl Hcl Hel Hend. pose proof (wf_leaf_pos b Hwf) as Hlf.
  pose proof (wf_base b Hwf). pose proof (wf_top b Hwf). pose proof (mx_nonneg b Hwf).
  pose proof (bsize_bound b (mx b) Hwf ltac:(lia)).
  assert (∀ x, x mod leaf_size b = 0 → (base b + x) mod leaf_size b = 0) as Hmod.
  { intros x Hx. rewrite Z.add_mod, Hbl, Hx by lia. by apply Z.mod_0_l; lia. }
  destruct (mark_ok b blank (base b) (base b + c)) as (b1 & Hm1 & Hwf1 & Hg1 & Hrep1);
    [done|done|done|by apply Hmod|lia|lia|].
  destruct (geom_eq _ _ Hg1) as (E1 & E2 & E3 & E4 & E5 & E6).
  destruct (mark_ok b1 _ (base b + e) (base b + bbsize b (mx b)) Hwf1 Hrep1)
    as (b2 & Hm2 & Hwf2 & Hg2 & Hrep2); rewrite ?E1, ?E2, ?E3; [by apply Hmod| |lia|lia|].
  { apply Hmod. unfold bsize. by rewrite Z.mod_mul by lia. }
  exists b1, b2. split; [|split; [|split; [done|split; [congruence|]]]].
  - unfold mark_meta. rewrite usub_ok by lia. simpl. rewrite Hm1. simpl. do 2 f_equal. lia.
  - unfold mark_unavail. rewrite max_size_ok by done. simpl.
    rewrite blk_size_ok by (rewrite ?E1; done || lia). simpl. rewrite E1, E2, E3, E6, Hend.
    rewrite usub_ok by lia. simpl. replace (base b + e - base b) with e by lia.
    rewrite usub_ok by lia. simpl. rewrite uadd_ok by lia. simpl.
    replace (base b + e + (bbsize b (mx b) - e)) with (base b + bbsize b (mx b)) by lia.
    by rewrite Hm2.
  - eexists _, _. split; [exact Hrep2|]. intros k i [Hk Hi]. simpl. rewrite E2, E3, !orb_false_r.
    pose proof (bsize_bound b k Hwf Hk).
    replace (base b + e - base b) with e by lia. replace (base b + c - base b) with c by lia.
    rewrite Z.sub_diag, Z.div_0_l by lia.
    replace (base b + bbsize b (mx b) - base b) with (nblk (mx b) k * bbsize b k); cycle 1.
    { unfold bsize, nblk. rewrite Z.mul_assoc, <- Z.pow_add_r by lia.
      replace (mx b - k + k) with (mx b) by lia. lia. }
    rewrite cdiv_mul by lia. unfold marked, lbi, rbi.
    destruct (Z.leb_spec 0 i), (Z.ltb_spec i (nblk (mx b) k)); lia.
Qed.

(** From the marks to the final state. *)
Lemma finish_ok b c e :
  wf b → rep b blank → 2 ≤ mx b → 0 < c → 4 * c ≤ bbsize b (mx b) →
  bbsize b (mx b - 1) < e → e < bbsize b (mx b) →
  base b mod leaf_size b = 0 → c mod leaf_size b = 0 → e mod leaf_size b = 0 →
  actual_end b = base b + e → infos_ptr b = base b → 48 * (mx b + 1) ≤ c →
  ∃ b1 b2 b3, mark_meta b (base b + c) = Done (c, b1) ∧
    mark_unavail b1 = Done (bbsize b (mx b) - e, b2) ∧
    init_free b2 (base b + c) = Done (e - c, b3) ∧ geom b3 = geom b ∧
    buddy_inv b3 (init_view (mx b) (base b) (leaf_size b) c e).
Proof.
  intros Hwf Hrep Hm Hc Hq He Htop Hbl Hcl Hel Hend Hptr Hheads.
  pose proof (wf_leaf_pos b Hwf) as Hlf.
  pose proof (bsize_bound b (mx b) Hwf ltac:(lia)). pose proof (bsize_bound b (mx b - 1) Hwf ltac:(lia)).
  destruct (marks_ok b c e) as (b1 & b2 & Hmm & Hmu & Hwf2 & Hg2 & A & S & Hrep2 & HAS);
    [done|done|lia|lia|lia|done..|].
  destruct (init_free_ok b c e A S) with (b1 := b2) as (b3 & Hif & Hwf3 & Hg3 & Hrep3);
    [done|done|done|done|done|done|done|done|done| | |done|done|done|].
  { intros j Hj. rewrite Hptr. lia. }
  { intros k i Hb _. by apply HAS. }
  exists b1, b2, b3. split_and!; [done..|].
  destruct (geom_eq _ _ Hg3) as (E1 & E2 & E3 & E4 & _). constructor; [done| |].
  - apply (rep_ext _ _ _ Hrep3). intros k i Hb. rewrite E1 in Hb. simpl.
    destruct (HAS k i Hb) as [-> ->].
    split_and!; [done| |done]. intros Hk0. by destruct (Z.ltb_spec 0 k); [|lia].
  - rewrite E1, E2, E3, E4. apply init_tree_inv; try done. intros j Hj. rewrite Hptr. lia.
Qed.

(** ** The theorem *)

Section Theorem_.
Context (start end_ lg al : Z).

Definition unit_size : Z := Z.max (2 ^ lg) (2 ^ al).
Definition first_addr : Z := cdiv start unit_size * unit_size.
Definition last_addr : Z := end_ / unit_size * unit_size.
Definition n_leaves : Z := (last_addr - first_addr) / 2 ^ lg.
Definition root_size : Z := Z.log2_up n_leaves.
Definition meta_len : Z := meta_end first_addr root_size (2 ^ lg) - first_addr.

(** The conditions on the region: it is a proper range, the tree above it
    stays in the address space, it is not exactly as large as the tree, and
    its metadata fits in the first quarter. *)
Definition region_ok : Prop :=
  0 ≤ lg ∧ 0 ≤ al ∧ 0 < start ∧ start + 2 ^ lg ≤ end_ ∧ end_ < 2 ^ 64 ∧
  first_addr ≤ last_addr ∧
  first_addr + 2 ^ root_size * 2 ^ lg < 2 ^ 64 ∧ n_leaves < 2 ^ root_size ∧
  4 * meta_len ≤ 2 ^ root_size * 2 ^ lg.

Lemma unit_mod : 0 ≤ lg → 0 ≤ al → unit_size mod 2 ^ lg = 0 ∧ 0 < unit_size.
Proof.
  intros Hlg Hal. unfold unit_size. pose proof (Z.pow_pos_nonneg 2 lg eq_refl Hlg).
  destruct (Z.le_ge_cases lg al).
  - rewrite Z.max_r by (apply Z.pow_le_mono_r; lia).
    replace al with (al - lg + lg) by lia. rewrite Z.pow_add_r by lia.
    rewrite Z.mod_mul by lia. split; [done|]. pose proof (Z.pow_pos_nonneg 2 (al - lg)). nia.
  - rewrite Z.max_l by (apply Z.pow_le_mono_r; lia). rewrite Z.mod_same by lia. lia.
Qed.

Lemma mul_unit_mod n : 0 ≤ lg → 0 ≤ al → (n * unit_size) mod 2 ^ lg = 0.
Proof.
  intros Hlg Hal. destruct (unit_mod Hlg Hal) as [Hu _].
  pose proof (Z.pow_pos_nonneg 2 lg eq_refl Hlg).
  rewrite Z.mul_mod, Hu, Z.mul_0_r by lia. apply Z.mod_0_l. lia.
Qed.

Lemma geometry_facts :
  region_ok →
  last_addr - first_addr = n_leaves * 2 ^ lg ∧ 0 < meta_len ∧ meta_len mod 2 ^ lg = 0 ∧
  2 ≤ root_size ∧ 2 ^ (root_size - 1) < n_leaves ∧ Z.log2 n_leaves = root_size - 1 ∧
  48 * (root_size + 1) ≤ meta_len.
Proof.
  intros (Hlg & Hal & Hst & Hse & Hend & Hfl & Htop & Hn & Hq).
  pose proof (Z.pow_pos_nonneg 2 lg eq_refl Hlg) as Hlf.
  pose proof (mul_unit_mod (cdiv start unit_size) Hlg Hal) as Hm1. fold first_addr in Hm1.
  pose proof (mul_unit_mod (end_ / unit_size) Hlg Hal) as Hm2. fold last_addr in Hm2.
  pose proof (Z.log2_up_nonneg n_leaves) as Hr0. fold root_size in Hr0.
  assert (48 * (root_size + 1) ≤ meta_len) as Hml.
  { unfold meta_len, meta_end.
    pose proof (sum_slices_nonneg root_size 0 (root_size + 1) ltac:(lia) ltac:(lia) ltac:(lia)).
    pose proof (sum_slices_nonneg root_size 1 root_size ltac:(lia) ltac:(lia) ltac:(lia)).
    match goal with |- context [cdiv ?x (2 ^ lg)] => pose proof (cdiv_bounds x (2 ^ lg) Hlf) end. lia. }
  assert (meta_len mod 2 ^ lg = 0) as Hmm.
  { unfold meta_len, meta_end. rewrite Zminus_mod, Hm1, Z.mod_mul, Z.sub_0_r by lia.
    apply Z.mod_0_l. lia. }
  assert (last_addr - first_addr = n_leaves * 2 ^ lg) as Hd.
  { unfold n_leaves. rewrite Z.mul_comm. apply Z.div_exact; [lia|].
    rewrite Zminus_mod, Hm1, Hm2. apply Z.mod_0_l. lia. }
  assert (2 ≤ root_size) as Hr2.
  { apply Z.mod_divide in Hmm as [x Hx]; [|lia]. rewrite Hx in *.
    assert (0 < x) by (apply (Z.mul_lt_mono_pos_r (2 ^ lg)); lia).
    assert (4 * x ≤ 2 ^ root_size) by (apply (Z.mul_le_mono_pos_r _ _ (2 ^ lg)); lia).
    assert (2 ^ 2 ≤ 2 ^ root_size) as Hp by (change (2 ^ 2) with 4; lia).
    apply Z.pow_le_mono_r_iff in Hp; lia. }
  assert (1 < n_leaves) as Hn1.
  { destruct (Z.lt_ge_cases 1 n_leaves) as [|Hle]; [done|]. unfold root_size in Hr2.
    rewrite Z.log2_up_eqn0 in Hr2 by lia. lia. }
  pose proof (Z.log2_up_spec n_leaves Hn1) as [Hlo _]. fold root_size in Hlo.
  rewrite <- Z.sub_1_r in Hlo. split_and!; [done|lia|done|done|done| |done].
  apply Z.log2_unique; [lia|]. replace (Z.succ (root_size - 1)) with root_size by lia. lia.
Qed.

Lemma max_size_eq b : 1 ≤ nsizes b < 2 ^ 64 → max_size b = Done (mx b).
Proof. intros H. apply usub_ok. lia. Qed.

Lemma blk_size_eq b k :
  0 ≤ k < 64 ∧ 0 ≤ 2 ^ k * leaf_size b < 2 ^ 64 → blk_size b k = Done (2 ^ k * leaf_size b).
Proof. intros [Hk Hb]. unfold blk_size. rewrite ushl_one_ok by lia. simpl. by apply umul_ok. Qed.

(** The state [buddy_init] reaches before placing its slices. *)
Definition raw_state : BuddySystem :=
  mkBuddy false first_addr last_addr (root_size + 1) (2 ^ lg) (2 ^ al) first_addr
    (replicate (Z.to_nat (root_size + 1)) (mkInfo [] [])) ∅.

Lemma init_spec :
  region_ok →
  ∃ b, buddy_init uninit start end_ (2 ^ lg) (2 ^ al) = Done (Ok tt, b) ∧
    initialized b = true ∧ geom b = geom raw_state ∧
    buddy_inv b (init_view root_size first_addr (2 ^ lg) meta_len (last_addr - first_addr)).
Proof.
  intros Hok. destruct (geometry_facts Hok) as (Hd & Hml & Hmm & Hr2 & Hlo & Hlog & H48).
  destruct Hok as (Hlg & Hal & Hst & Hse & Hend & Hfl & Htop & Hn & Hq).
  pose proof (Z.pow_pos_nonneg 2 lg eq_refl Hlg) as Hlf. destruct (unit_mod Hlg Hal) as [_ Hu].
  pose proof (cdiv_bounds start unit_size Hu) as Hfa. fold first_addr in Hfa.
  assert (root_size < 64) as Hr64.
  { apply (Z.pow_lt_mono_r_iff 2); [lia|lia|]. pose proof (Z.pow_pos_nonneg 2 root_size). nia. }
  assert (0 < 2 ^ root_size * 2 ^ lg) by nia.
  assert (last_addr - first_addr < 2 ^ root_size * 2 ^ lg) by nia.
  unfold buddy_init, uninit. simpl. rewrite usub_ok by lia. simpl.
  destruct (Z.ltb_spec (end_ - start) (2 ^ lg)); [lia|].
  rewrite !is_power_of_two_pow by done. simpl. fold unit_size.
  rewrite round_up_ok by (done || fold first_addr; lia). simpl.
  rewrite round_down_ok by lia. simpl. fold first_addr last_addr.
  rewrite usub_ok by lia. simpl. rewrite udiv_ok by lia. simpl. fold n_leaves.
  rewrite log2_ok by nia. simpl. rewrite Hlog. rewrite uadd_ok by lia. simpl.
  replace (root_size - 1 + 1) with root_size by lia.
  assert (2 ^ root_size = 2 * 2 ^ (root_size - 1)) as Hhalf.
  { rewrite <- Z.pow_succ_r by lia. f_equal. lia. }
  rewrite max_size_eq by (simpl; lia). unfold mx. simpl.
  rewrite blk_size_eq by (simpl; nia). simpl.
  destruct (Z.ltb_spec (2 ^ (root_size - 1) * 2 ^ lg) (last_addr - first_addr)); [|nia].
  rewrite uadd_ok by lia. simpl. unfold init_slice_empty at 1. unfold size_of_BuddyInfo at 1.
  assert (meta_len = meta_end first_addr root_size (2 ^ lg) - first_addr) as Hme by done.
  unfold meta_end in Hme.
  pose proof (sum_slices_nonneg root_size 0 (root_size + 1) ltac:(lia) ltac:(lia) ltac:(lia)).
  pose proof (sum_slices_nonneg root_size 1 root_size ltac:(lia) ltac:(lia) ltac:(lia)).
  match type of Hme with _ = cdiv ?x _ * _ - _ => pose proof (cdiv_bounds x (2 ^ lg) Hlf) as Hcd end.
  rewrite umul_ok by lia. simpl. rewrite uadd_ok by lia. simpl. fold raw_state.
  assert (mx raw_state = root_size) as Emx by (unfold mx; simpl; lia).
  destruct (slices_ok raw_state (first_addr + 48 * (root_size + 1))) as (b1 & b2 & Hs1 & Hns1 & Hs2 & Hp & Hg);
    rewrite ?Emx; simpl; [by rewrite length_replicate|lia..|].
  rewrite Emx in *. simpl in Hs1, Hs2, Hns1. rewrite Hs1. simpl. rewrite Hns1, Hs2. simpl.
  rewrite round_up_ok by (done || lia). simpl.
  destruct (geom_eq _ _ Hg) as (E1 & E2 & E3 & E4 & E5 & E6). rewrite Emx in E1. simpl in *.
  destruct (placed_rep b2 lg) as [Hwf Hrep];
    rewrite ?E1, ?E2, ?E3, ?E5; [done|lia|lia|done|done|unfold bsize; lia|].
  replace (cdiv _ (2 ^ lg) * 2 ^ lg) with (base b2 + meta_len) by (rewrite E2; lia).
  destruct (finish_ok b2 meta_len (last_addr - first_addr)) as (b3 & b4 & b5 & Hf1 & Hf2 & Hf3 & Hg5 & Hinv);
    rewrite ?E1, ?E2, ?E3, ?E4, ?E6; unfold bsize; [done|done|done|done|lia|nia|lia|..].
  - by apply mul_unit_mod.
  - done.
  - rewrite Hd. by rewrite Z.mod_mul by lia.
  - lia.
  - done.
  - lia.
  - rewrite E1, E2, E3 in *. rewrite Hf1. simpl. rewrite Hf2. simpl. rewrite Hf3. simpl.
    destruct (geom_eq _ _ Hg5) as (F1 & F2 & F3 & F4 & F5 & F6).
    rewrite max_size_eq by (rewrite F5, E5; lia). simpl.
    rewrite blk_size_eq by (rewrite F1, E1, F3, E3; lia). simpl. rewrite F1, E1, F3, E3.
    unfold bsize. rewrite usub_ok by lia. simpl. rewrite usub_ok by lia. simpl.
    destruct (Z.eqb_spec (last_addr - first_addr - meta_len)
      (2 ^ root_size * 2 ^ lg - meta_len - (2 ^ root_size * 2 ^ lg - (last_addr - first_addr))));
      [|lia]. simpl. eexists. split; [done|]. split; [done|]. split; [unfold geom in *; simpl; congruence|].
    destruct Hinv as [[W1 W2 W3 W4 W5] [R1 R2 R3] HT]. rewrite F3, E3 in *.
    split; [constructor|constructor|]; simpl; try done. all: try (rewrite F3, E3; done).
Qed.
End Theorem_.
End Boot.

(** * The kernel heap: what clients of the allocator rely on

    [heap] is the invariant of an initialised allocator together with the
    parts of the tree that are never handed out: the metadata at the start of
    the region and everything beyond its end.  The theorems of this file are
    the contract of [init], [alloc] and [dealloc], for single calls and for
    arbitrary sequences of calls, and concrete runs outside of the contract's
    conditions. *)

Section Heap.
Context {BF : BitField} {BFL : BitFieldLaws}.

(** [c] bytes of metadata at the start of the region. *)
Record heap (b : BuddySystem) (v : view) (c : Z) : Prop := {
  heap_inv : buddy_inv b v;
  heap_mx : 1 ≤ mx b;
  heap_meta : 0 < c ∧ c mod leaf_size b = 0;
  heap_end : base b + c ≤ actual_end b ∧ (actual_end b - base b) mod leaf_size b = 0;
  heap_heads j : 0 ≤ j ≤ mx b → base b ≤ infos_ptr b + 48 * j < base b + c;
  heap_reserved i : bblock b 0 i →
    (bbaddr b 0 i < base b + c ∨ actual_end b ≤ bbaddr b 0 i) → bused b v 0 i;
}.

(** The block lies between the metadata and the end of the region. *)
Definition inside (b : BuddySystem) (c k i : Z) : Prop :=
  base b + c ≤ bbaddr b k i ∧ bbaddr b k i + bbsize b k ≤ actual_end b.

Lemma leaf_of_addr b k i a :
  wf b → bblock b k i → bbaddr b k i ≤ a < bbaddr b k i + bbsize b k →
  let j := (a - base b) / leaf_size b in
  bblock b 0 j ∧ bbaddr b 0 j ≤ a < bbaddr b 0 j + bbsize b 0 ∧ bbsize b 0 = leaf_size b.
Proof.
  intros Hwf Hb Ha j. pose proof (wf_leaf_pos b Hwf) as Hlf. pose proof Hb as [Hk Hi].
  assert (bbsize b 0 = leaf_size b) as Hs0 by (unfold bsize; lia).
  assert (0 ≤ a - base b < nblk (mx b) 0 * bbsize b 0) as Hr.
  { destruct (span_bound b k (i + 1) Hwf Hk ltac:(lia)). destruct (span_bound b k i Hwf Hk ltac:(lia)).
    assert (nblk (mx b) 0 * bbsize b 0 = bbsize b (mx b)) as ->; [|unfold baddr in *; lia].
    unfold nblk, bsize. rewrite Z.sub_0_r. lia. }
  split; [|split; [|done]].
  - split; [lia|]. rewrite Hs0 in Hr. split; [apply Z.div_pos; lia|]. apply Z.div_lt_upper_bound; lia.
  - apply index_of_addr; [done|lia|]. by rewrite Hs0.
Qed.

(** A free block, or one in use that is not reserved, lies inside. *)
Lemma leaf_inside b v c k i :
  heap b v c → is_leaf (mx b) v k i →
  (k = 0 → ¬ (bbaddr b 0 i < base b + c ∨ actual_end b ≤ bbaddr b 0 i)) →
  inside b c k i ∧ k < mx b ∧ bno_head b k i.
Proof.
  intros [Hinv Hm [Hc Hcl] [Hce Hel] Hh Hrsv] Hl Hn. pose proof (inv_wf _ _ Hinv) as Hwf.
  pose proof (wf_leaf_pos b Hwf) as Hlf. pose proof Hl as [Hb _]. pose proof Hb as [Hk Hi].
  pose proof (bsize_bound b k Hwf Hk).
  assert (∀ a, bbaddr b k i ≤ a < bbaddr b k i + bbsize b k → base b + c ≤ a < actual_end b) as Hall.
  { intros a Ha. destruct (leaf_of_addr b k i a Hwf Hb Ha) as (Hbj & Haj & Hs0).
    set (j := (a - base b) / leaf_size b) in *.
    assert (¬ (bbaddr b 0 j < base b + c ∨ actual_end b ≤ bbaddr b 0 j)) as Hnr.
    { intros Hr. pose proof (used_leaf _ _ _ _ _ _ Hbj (Hrsv j Hbj Hr)) as Hlj.
      destruct (leaf_unique b v k i 0 j a Hinv Hl Hlj Ha Haj) as [-> ->]. by apply (Hn eq_refl). }
    rewrite Hs0 in Haj. split; [lia|].
    apply Z.mod_divide in Hel as [x Hx]; [|lia]. unfold baddr in *. rewrite Hs0 in *.
    assert (j < x) by nia. nia. }
  pose proof (Hall (bbaddr b k i) ltac:(lia)). pose proof (Hall (bbaddr b k i + bbsize b k - 1) ltac:(lia)).
  unfold inside. split_and!; [lia|lia| |].
  - destruct (decide (k = mx b)) as [->|]; [|lia]. exfalso.
    rewrite nblk_top in Hi. assert (i = 0) as -> by lia. unfold baddr in *. lia.
  - intros j Hj Ha. specialize (Hh j Hj). specialize (Hall _ Ha). unfold head in *. lia.
Qed.

(** The invariant only depends on the geometry and the blocks in use. *)
Lemma heap_update b v c b' v' :
  heap b v c → buddy_inv b' v' → geom b' = geom b →
  (∀ i, bblock b 0 i → (bbaddr b 0 i < base b + c ∨ actual_end b ≤ bbaddr b 0 i) → bused b v' 0 i) →
  heap b' v' c.
Proof.
  intros [_ Hm Hc He Hh _] Hinv' Hg Hr. destruct (geom_eq _ _ Hg) as (E1 & E2 & E3 & E4 & _ & E6).
  constructor; rewrite ?E1, ?E2, ?E3, ?E4, ?E6; done.
Qed.

Definition disjoint (a n a' n' : Z) : Prop := a + n ≤ a' ∨ a' + n' ≤ a.

Lemma leaves_apart b v k i k' i' :
  buddy_inv b v → is_leaf (mx b) v k i → is_leaf (mx b) v k' i' → ¬ (k = k' ∧ i = i') →
  disjoint (bbaddr b k i) (bbsize b k) (bbaddr b k' i') (bbsize b k').
Proof.
  intros Hinv Hl Hl' Hne. pose proof (inv_wf _ _ Hinv) as Hwf.
  pose proof Hl as [[Hk _] _]. pose proof Hl' as [[Hk' _] _].
  pose proof (bsize_bound b k Hwf Hk). pose proof (bsize_bound b k' Hwf Hk'). unfold disjoint.
  destruct (decide (bbaddr b k i + bbsize b k ≤ bbaddr b k' i')); [by left|].
  destruct (decide (bbaddr b k' i' + bbsize b k' ≤ bbaddr b k i)); [by right|]. destruct Hne.
  apply (leaf_unique b v k i k' i' (Z.max (bbaddr b k i) (bbaddr b k' i'))); [done..|lia|lia].
Qed.

(** A new block in use, next to the old ones. *)
Lemma heap_alloc b v c l :
  heap b v c → layout_ok l →
  ∃ p b' v', alloc b l = Done (p, b') ∧ heap b' v' c ∧ geom b' = geom b ∧
    ((p = 0 ∧ b' = b ∧
      (size l = 0 ∨ max_alignment b < align l ∨
       ∀ k, 0 ≤ k ≤ mx b → size l ≤ bbsize b k → vF v k = [])) ∨
     (∃ k i, bblock b k i ∧ p = bbaddr b k i ∧ best_fit b l k ∧ inside b c k i ∧
       (∀ k' i', bblock b k' i' → bused b v k' i' →
          disjoint p (bbsize b k) (bbaddr b k' i') (bbsize b k')) ∧
       ∀ k' i', bblock b k' i' → bused b v' k' i' ↔ bused b v k' i' ∨ (k' = k ∧ i' = i))).
Proof.
  intros Hh Hlo. destruct (alloc_spec b v l (heap_inv _ _ _ Hh) Hlo)
    as (p & b' & v' & Hal & Hinv & Hg & [(-> & -> & -> & Hf)|(k & i & Hb & -> & Hfit & _ & Hnu & Huse)]).
  { exists 0, b, v. split_and!; [done|done|done|]. left. done. }
  assert (heap b' v' c) as Hh'.
  { eapply heap_update; [done..|]. intros j Hbj Hr. apply Huse; [done|]. left. by apply (heap_reserved b v c). }
  destruct (geom_eq _ _ Hg) as (E1 & E2 & E3 & E4 & E5 & E6).
  assert (is_leaf (mx b') v' k i) as Hl'.
  { apply (used_leaf _ (base b') (leaf_size b')); rewrite ?E1, ?E2, ?E3; [done|]. apply Huse; [done|by right]. }
  eexists _, b', v'. split_and!; [done..|]. right. exists k, i. split_and!; try done; [apply Hfit..| |].
  - destruct (leaf_inside b' v' c k i Hh' Hl') as [Hin _].
    + intros -> Hr. apply Hnu. rewrite E2, E3, E6 in Hr. by apply (heap_reserved b v c).
    + unfold inside in *. by rewrite E2, E3, E6 in Hin.
  - intros k' i' Hb' Hu'. pose proof (leaves_apart b' v' k i k' i' Hinv Hl') as Hap.
    rewrite E1, E2, E3 in Hap. apply Hap; [|by intros [-> ->]].
    apply (used_leaf _ (base b) (leaf_size b)); [done|]. apply Huse; [done|by left].
Qed.

Lemma heap_dealloc b v c k i l :
  heap b v c → bblock b k i → bused b v k i → inside b c k i → size l ≤ bbsize b k →
  ∃ b' v', dealloc b (bbaddr b k i) l = Done b' ∧ heap b' v' c ∧ geom b' = geom b ∧
    ∀ k' i', bblock b k' i' → bused b v' k' i' ↔ bused b v k' i' ∧ ¬ (k' = k ∧ i' = i).
Proof.
  intros Hh Hb Hu [Hi1 Hi2] Hsz. pose proof (inv_wf _ _ (heap_inv _ _ _ Hh)) as Hwf.
  pose proof Hb as [Hk _]. pose proof (bsize_bound b k Hwf Hk).
  destruct (leaf_inside b v c k i Hh) as (_ & Hlt & Hnh);
    [by apply (used_leaf _ (base b) (leaf_size b))|intros ->; lia|].
  destruct (dealloc_spec b v k i l (heap_inv _ _ _ Hh)) as (b' & v' & Hd & Hinv & Hg & Huse);
    [done..|lia|done|].
  exists b', v'. split_and!; [done| |done|done]. eapply heap_update; [done..|].
  intros j Hbj Hr. apply Huse; [done|]. split; [by apply (heap_reserved b v c)|].
  intros [<- <-]. lia.
Qed.

Lemma init_heap start end_ lg al :
  region_ok start end_ lg al →
  let c := meta_len start end_ lg al in
  ∃ b v, buddy_init uninit start end_ (2 ^ lg) (2 ^ al) = Done (Ok tt, b) ∧
    v = init_view (mx b) (base b) (leaf_size b) c (actual_end b - base b) ∧
    initialized b = true ∧ geom b = geom (raw_state start end_ lg al) ∧ heap b v c ∧
    ∀ k i, bblock b k i →
      bused b v k i ↔ k = 0 ∧ (bbaddr b 0 i < base b + c ∨ actual_end b ≤ bbaddr b 0 i).
Proof.
  intros Hok c. destruct (init_spec start end_ lg al Hok) as (b & Hb & Hi & Hg & Hinv).
  destruct (geometry_facts _ _ _ _ Hok) as (Hd & Hml & Hmm & Hr2 & Hlo & Hlog & H48). fold c in Hml, Hmm, H48.
  destruct Hok as (Hlg & Hal & Hst & Hse & Hend & Hfl & Htop & Hn & Hq). fold c in Hq, Hinv.
  pose proof (Z.pow_pos_nonneg 2 lg eq_refl Hlg) as Hlf.
  destruct (geom_eq _ _ Hg) as (E1 & E2 & E3 & E4 & E5 & E6). simpl in *.
  assert (mx b = root_size start end_ lg al) as Emx by (unfold mx; lia).
  set (m := root_size start end_ lg al) in *. set (f := first_addr start lg al) in *.
  set (e := last_addr end_ lg al - f) in *.
  assert (2 ^ m = 2 * 2 ^ (m - 1)) as Hhalf by (rewrite <- Z.pow_succ_r by lia; f_equal; lia).
  assert (e mod 2 ^ lg = 0) as Hel by (rewrite Hd; by rewrite Z.mod_mul by lia).
  assert (2 ^ (m - 1) * 2 ^ lg < e) as He by (rewrite Hd; apply Z.mul_lt_mono_pos_r; lia).
  assert (e < 2 ^ m * 2 ^ lg) as Het by (rewrite Hd; apply Z.mul_lt_mono_pos_r; lia).
  assert (∀ j, 0 ≤ j ≤ m → f ≤ f + 48 * j < f + c) as Hheads by (intros; lia).
  assert (∀ k i, bblock b k i → bused b (init_view m f (2 ^ lg) c e) k i ↔
    k = 0 ∧ (bbaddr b 0 i < base b + c ∨ actual_end b ≤ bbaddr b 0 i)) as Huse.
  { intros k i Hbl. rewrite Emx, E2, E3 in *. rewrite (init_used m f (2 ^ lg) f c e) by (done || lia).
    rewrite marked_spec, E6. unfold lbi, rbi, baddr, bsize. rewrite Z.pow_0_r, Z.mul_1_l.
    apply Z.mod_divide in Hmm as [x Hx]; [|lia]. apply Z.mod_divide in Hel as [y Hy]; [|lia].
    rewrite Hx, Hy, cdiv_mul, Z.div_mul by lia.
    replace (last_addr end_ lg al) with (f + y * 2 ^ lg) by lia. nia. }
  exists b, (init_view m f (2 ^ lg) c e). split_and!; try done; [by rewrite Emx, E2, E3, E6|].
  constructor; rewrite ?Emx, ?E2, ?E3, ?E4, ?E6; try done; try lia; [fold e; split; [lia|done]|].
  intros i Hbl Hr. rewrite <- Emx, <- E2 at 1. pose proof (Huse 0 i) as Hu.
  rewrite Emx, E2, E3, E6 in *. by apply Hu.
Qed.
End Heap.
