(* ===== verification/BuddyTheorems.v ===== *)
(** * Contract of the buddy allocator

    The theorems a client of [BuddySystem] can rely on, with a concrete heap
    of 8000 bytes on which each of them is applied, and concrete runs that
    show where the code departs from what it promises. *)

From Stdlib Require Import ZArith Lia.
From stdpp Require Import base gmap strings numbers list.
From S2P Require Import Prelude BuddyList Buddy BuddyTree BuddyRep BuddySpec BuddyInit BuddyBoot.

Local Open Scope Z_scope.

(** ** A concrete heap *)

Definition demo_heap : BuddySystem :=
  match @buddy_init bit_field_std uninit 4096 12096 (2 ^ 4) (2 ^ 6) with
  | Done (_, b) => b
  | _ => uninit
  end.

Definition demo_meta : Z := meta_len 4096 12096 4 6.

Definition demo_view : view := init_view 9 4096 16 demo_meta 8000.

Lemma demo_region : region_ok 4096 12096 4 6.
Proof. repeat split; vm_compute; congruence. Qed.

Lemma demo_ok : @heap bit_field_std demo_heap demo_view demo_meta ∧
  mx demo_heap = 9.
Proof.
  destruct (@init_heap bit_field_std bit_field_std_laws _ _ _ _ demo_region)
    as (b & v & Hb & Hv & _ & Hg & Hh & _).
  assert (demo_heap = b) as -> by (unfold demo_heap; by rewrite Hb).
  assert (geom (raw_state 4096 12096 4 6) = (4096, 12096, 10, 16, 64, 4096)) as Hr by (vm_compute; done).
  rewrite Hr in Hg. unfold geom, mx in *. injection Hg as E1 E2 E3 E4 _ _.
  split; [|by rewrite E3]. assert (v = demo_view) as <-; [|exact Hh].
  unfold demo_view. rewrite Hv, E1, E2, E3, E4. done.
Qed.

Definition small : Layout := mkLayout 24 8.

Lemma small_ok : layout_ok small.
Proof. split; [simpl; lia|]. exists 3. done. Qed.

(** ** Initialisation *)

(** C27. On a region that is not exactly a power of two and whose metadata fits
    in the first quarter of the block tree, [init] succeeds: it returns [Ok]
    (no panic, no access out of bounds, and the accounting
    [tot == meta + free + unavail] works out), the allocator's invariant
    holds, and exactly the leaf blocks of the metadata and beyond the end of
    the region are in use. *)
Theorem init_correct {BF : BitField} {BFL : BitFieldLaws} start end_ lg al :
  region_ok start end_ lg al →
  ∃ b v, buddy_init uninit start end_ (2 ^ lg) (2 ^ al) = Done (Ok tt, b) ∧
    initialized b = true ∧ base b = first_addr start lg al ∧ actual_end b = last_addr end_ lg al ∧
    heap b v (meta_len start end_ lg al) ∧
    ∀ k i, bblock b k i →
      bused b v k i ↔ k = 0 ∧ (bbaddr b 0 i < base b + meta_len start end_ lg al ∨
                                actual_end b ≤ bbaddr b 0 i).
Proof.
  intros Hok. destruct (init_heap start end_ lg al Hok) as (b & v & Hb & _ & Hi & Hg & Hh & Hu).
  exists b, v. apply geom_eq in Hg as (_ & E2 & _ & _ & _ & E6). done.
Qed.

Lemma init_correct_witness :
  region_ok 4096 12096 4 6 ∧
  ∃ b v, @buddy_init bit_field_std uninit 4096 12096 16 64 = Done (Ok tt, b) ∧
         @heap bit_field_std b v (meta_len 4096 12096 4 6).
Proof.
  split; [exact demo_region|].
  destruct (@init_correct bit_field_std bit_field_std_laws 4096 12096 4 6 demo_region)
    as (b & v & Hb & _ & _ & _ & Hh & _).
  exists b, v. split; [exact Hb|exact Hh].
Defined.

(** ** Allocation *)

(** C12. [alloc] on an initialised heap always returns.  Either it returns null
    and leaves the allocator as it was, which happens only for an empty
    request, an alignment above the maximum, or when no free list of a
    sufficient size has a block; or it returns a block of the smallest size
    that holds the request, inside the region, disjoint from every block in
    use, and exactly this block is added to the blocks in use. *)
Theorem alloc_correct {BF : BitField} {BFL : BitFieldLaws} b v c l :
  heap b v c → layout_ok l →
  ∃ p b' v', alloc b l = Done (p, b') ∧ heap b' v' c ∧ geom b' = geom b ∧
    ((p = 0 ∧ b' = b ∧
      (size l = 0 ∨ max_alignment b < align l ∨
       ∀ k, 0 ≤ k ≤ mx b → size l ≤ bbsize b k → vF v k = [])) ∨
     (∃ k i, bblock b k i ∧ p = bbaddr b k i ∧ best_fit b l k ∧ inside b c k i ∧
       (∀ k' i', bblock b k' i' → bused b v k' i' →
          disjoint p (bbsize b k) (bbaddr b k' i') (bbsize b k')) ∧
       ∀ k' i', bblock b k' i' → bused b v' k' i' ↔ bused b v k' i' ∨ (k' = k ∧ i' = i))).
Proof. apply heap_alloc. Qed.

Lemma alloc_correct_witness :
  ∃ p b' v', @alloc bit_field_std demo_heap small = Done (p, b') ∧
             @heap bit_field_std b' v' demo_meta.
Proof.
  destruct (@alloc_correct bit_field_std bit_field_std_laws demo_heap demo_view demo_meta small
    (proj1 demo_ok) small_ok) as (p & b' & v' & Ha & Hh & _).
  exists p, b', v'. split; [exact Ha|exact Hh].
Defined.

(** ** Deallocation *)

(** C13. [dealloc] of a block in use between the metadata and the end of the
    region always returns (it finds the size of the block from the split
    bitmaps alone), keeps the invariant, and removes exactly this block from
    the blocks in use. *)
Theorem dealloc_correct {BF : BitField} {BFL : BitFieldLaws} b v c k i l :
  heap b v c → bblock b k i → bused b v k i → inside b c k i → size l ≤ bbsize b k →
  ∃ b' v', dealloc b (bbaddr b k i) l = Done b' ∧ heap b' v' c ∧ geom b' = geom b ∧
    ∀ k' i', bblock b k' i' → bused b v' k' i' ↔ bused b v k' i' ∧ ¬ (k' = k ∧ i' = i).
Proof. apply heap_dealloc. Qed.

(** The address an allocation returns, as a test. *)
Definition returns (o : outcome (Z * BuddySystem)) (a : Z) : bool :=
  match o with Done (p, _) => p =? a | _ => false end.

Lemma returns_Done o a : returns o a = true → ∃ b, o = Done (a, b).
Proof. destruct o as [[p b]|s|s|]; simpl; try done. intros ->%Z.eqb_eq. eauto. Qed.

Lemma demo_small_addr : ∃ b', @alloc bit_field_std demo_heap small = Done (12032, b').
Proof. apply returns_Done. vm_compute. reflexivity. Qed.

Lemma dealloc_correct_witness :
  ∃ b1 b2 v2, @alloc bit_field_std demo_heap small = Done (12032, b1) ∧
    @dealloc bit_field_std b1 12032 small = Done b2 ∧ @heap bit_field_std b2 v2 demo_meta.
Proof.
  destruct (@heap_alloc bit_field_std bit_field_std_laws demo_heap demo_view demo_meta small
    (proj1 demo_ok) small_ok) as (p & b1 & v1 & Ha & Hh & Hg & Hcase).
  destruct demo_small_addr as [b' Hb']. assert (p = 12032) as -> by congruence.
  destruct Hcase as [(Hz & _)|(k & i & Hb & Hp & [Hfit _] & Hin & _ & Hu)]; [discriminate Hz|].
  destruct (geom_eq _ _ Hg) as (E1 & E2 & E3 & _ & _ & E6).
  destruct (@dealloc_correct bit_field_std bit_field_std_laws b1 v1 demo_meta k i small Hh)
    as (b2 & v2 & Hd & Hh2 & _).
  - rewrite E1. exact Hb.
  - rewrite E1, E2, E3. apply Hu; [exact Hb|]. right. split; reflexivity.
  - unfold inside. rewrite E2, E3, E6. exact Hin.
  - rewrite E3. exact Hfit.
  - rewrite E2, E3, <- Hp in Hd. exists b1, b2, v2. split; [exact Ha|]. split; [exact Hd|exact Hh2].
Defined.

(** C28. Allocating a block and freeing it again restores the allocator: the
    blocks in use are the old ones and every free list holds the blocks it
    held before, in some order.  The merging of buddies on [dealloc] undoes
    all the splitting of [alloc]. *)
Theorem alloc_dealloc_roundtrip {BF : BitField} {BFL : BitFieldLaws} b v c l p b1 :
  heap b v c → layout_ok l → alloc b l = Done (p, b1) → p ≠ 0 →
  ∃ b2 v2, dealloc b1 p l = Done b2 ∧ heap b2 v2 c ∧
    (∀ k i, bblock b k i → bused b v2 k i ↔ bused b v k i) ∧
    ∀ k, 0 ≤ k ≤ mx b → vF v2 k ≡ₚ vF v k.
Proof.
  intros Hh Hl Ha Hp. destruct (heap_alloc b v c l Hh Hl) as (p' & b1' & v1 & Ha' & Hh1 & Hg1 & Hcase).
  rewrite Ha in Ha'. injection Ha' as <- <-.
  destruct Hcase as [(-> & _)|(k & i & Hb & -> & [Hfit _] & Hin & Hdis & Hu)]; [done|].
  pose proof (inv_wf _ _ (heap_inv _ _ _ Hh)) as Hwf.
  destruct (geom_eq _ _ Hg1) as (E1 & E2 & E3 & E4 & _ & E6).
  destruct (heap_dealloc b1 v1 c k i l Hh1) as (b2 & v2 & Hd & Hh2 & Hg2 & Hu2);
    rewrite ?E1, ?E2, ?E3; [done|by apply Hu; [|right]|unfold inside; by rewrite E2, E3, E6|done|].
  rewrite E1, E2, E3 in *. exists b2, v2.
  assert (∀ k' i', bblock b k' i' → bused b v2 k' i' ↔ bused b v k' i') as Huse.
  { intros k' i' Hb'. rewrite Hu2, Hu by done. split; [tauto|]. intros Hu'. split; [by left|].
    intros [-> ->]. specialize (Hdis k i Hb' Hu'). pose proof Hb as [Hk _].
    pose proof (bsize_bound b k Hwf Hk). unfold disjoint in Hdis. lia. }
  split_and!; [done|done|done|]. intros k' Hk'. destruct (geom_eq _ _ Hg2) as (F1 & F2 & F3 & F4 & _).
  apply (tree_canonical (mx b) (base b) (leaf_size b) (infos_ptr b)); [| |done|done].
  - pose proof (inv_tree _ _ (heap_inv _ _ _ Hh2)) as Ht.
    by rewrite F1, F2, F3, F4, E1, E2, E3, E4 in Ht.
  - apply (inv_tree _ _ (heap_inv _ _ _ Hh)).
Qed.

Lemma alloc_dealloc_roundtrip_witness :
  ∃ b1 b2 v2, @alloc bit_field_std demo_heap small = Done (12032, b1) ∧
    @dealloc bit_field_std b1 12032 small = Done b2 ∧ vF v2 0 ≡ₚ vF demo_view 0.
Proof.
  destruct demo_small_addr as [b1 Hb1].
  destruct (@alloc_dealloc_roundtrip bit_field_std bit_field_std_laws demo_heap demo_view demo_meta
    small 12032 b1 (proj1 demo_ok) small_ok Hb1 ltac:(discriminate)) as (b2 & v2 & Hd & _ & _ & Hf).
  exists b1, b2, v2. split; [exact Hb1|]. split; [exact Hd|]. apply Hf.
  rewrite (proj2 demo_ok). split; discriminate.
Defined.

(** ** Sequences of calls *)

(** A client allocates, and frees what it holds. *)
Inductive request :=
| RAlloc (l : Layout)
| RFree (n : nat).

Section Client.
Context {BF : BitField} {BFL : BitFieldLaws}.

(** The client's state: the allocator and the pointers it holds. *)
Definition serve (r : request) (s : BuddySystem * list (Z * Layout)) :
    outcome (BuddySystem * list (Z * Layout)) :=
  let '(b, held) := s in
  match r with
  | RAlloc l =>
      '(p, b') ← alloc b l;
      Done (b', if p =? 0 then held else (p, l) :: held)
  | RFree n =>
      match held !! n with
      | Some (p, l) => b' ← dealloc b p l; Done (b', delete n held)
      | None => Done s
      end
  end.

Definition request_ok (r : request) : Prop :=
  match r with RAlloc l => layout_ok l | RFree _ => True end.

(** Every pointer held is the address of a block in use of sufficient size,
    and no block is held twice. *)
Definition holds (b : BuddySystem) (v : view) (c : Z) (h : Z * Layout) (q : Z * Z) : Prop :=
  bblock b q.1 q.2 ∧ bused b v q.1 q.2 ∧ inside b c q.1 q.2 ∧ h.1 = bbaddr b q.1 q.2 ∧
  size h.2 ≤ bbsize b q.1.

Definition client_inv (c : Z) (b0 : BuddySystem) (s : BuddySystem * list (Z * Layout)) : Prop :=
  ∃ v qs, heap s.1 v c ∧ geom s.1 = geom b0 ∧ Forall2 (holds b0 v c) s.2 qs ∧ NoDup qs.

Lemma holds_mono b v v' c h q :
  (∀ k i, bblock b k i → (k, i) = q → bused b v k i → bused b v' k i) →
  holds b v c h q → holds b v' c h q.
Proof. intros Hu (Hb & Hq & H). split_and!; [done| |apply H..]. apply Hu; [done| |done]. by destruct q. Qed.

Lemma delete_middle_list {A} (l : list A) n x :
  l !! n = Some x → ∃ l1 l2, l = l1 ++ x :: l2 ∧ delete n l = l1 ++ l2 ∧ length l1 = n.
Proof.
  intros H. exists (take n l), (drop (S n) l). split_and!.
  - by rewrite take_drop_middle.
  - apply delete_take_drop.
  - apply length_take_le. apply lookup_lt_Some in H. lia.
Qed.

Lemma holds_others b v v' c hs qs k i :
  (∀ k' i', bblock b k' i' → bused b v' k' i' ↔ bused b v k' i' ∧ ¬ (k' = k ∧ i' = i)) →
  (k, i) ∉ qs → Forall2 (holds b v c) hs qs → Forall2 (holds b v' c) hs qs.
Proof.
  intros Hu Hn Hf. induction Hf as [|h q hs qs Hq Hf IH]; constructor.
  - apply (holds_mono b v v' c h q); [|done]. intros k' i' Hb <- Hu'. apply Hu; [done|].
    split; [done|]. intros [-> ->]. apply Hn. by left.
  - apply IH. intros ?. apply Hn. by right.
Qed.

Lemma serve_inv c b0 r s :
  request_ok r → client_inv c b0 s → ∃ s', serve r s = Done s' ∧ client_inv c b0 s'.
Proof.
  intros Hr (v & qs & Hh & Hg & Hf & Hnd). destruct s as [b held]. simpl in *.
  destruct (geom_eq _ _ Hg) as (E1 & E2 & E3 & E4 & _ & E6). destruct r as [l|n]; simpl.
  - destruct (heap_alloc b v c l Hh Hr) as (p & b' & v' & -> & Hh' & Hg' & Hcase). simpl.
    rewrite E1, E2, E3 in *. eexists. split; [done|].
    destruct Hcase as [(-> & -> & _)|(k & i & Hb & -> & [Hfit _] & Hin & Hdis & Hu)].
    { exists v, qs. done. }
    unfold inside in Hin. rewrite E2, E3, E6 in *.
    pose proof (inv_wf _ _ (heap_inv _ _ _ Hh)) as Hwf. pose proof (wf_base _ Hwf) as Hb0.
    destruct (bbaddr_range b k i Hwf) as [Ha _]; [by rewrite E1|]. rewrite E2, E3 in *.
    destruct (Z.eqb_spec (bbaddr b0 k i) 0); [lia|]. exists v', ((k, i) :: qs).
    split_and!; simpl; [done|congruence| |].
    + constructor; [split_and!; try done; simpl; [by apply Hu; [|right]|apply Hin..]|].
      eapply Forall2_impl; [done|]. intros h q Hq. apply (holds_mono b0 v v' c h q); [|done].
      intros k' i' Hb' _ Hu'. apply Hu; [done|by left].
    + constructor; [|done]. intros Hinq. apply list_elem_of_lookup in Hinq as [m Hm].
      destruct (Forall2_lookup_r _ _ _ _ _ Hf Hm) as (h & _ & Hq). destruct Hq as (Hbq & Huq & _).
      specialize (Hdis k i Hbq Huq). destruct Hb as [Hk _].
      pose proof (bsize_bound b k Hwf ltac:(lia)) as Hbs. rewrite E3 in Hbs. unfold disjoint in Hdis. lia.
  - destruct (held !! n) as [[p l]|] eqn:Hn; [|eexists; split; [done|]; by exists v, qs].
    destruct (delete_middle_list held n (p, l) Hn) as (h1 & h2 & -> & -> & _).
    apply Forall2_app_inv_l in Hf as (q1 & q2' & Hf1 & Hf2 & ->).
    apply Forall2_cons_inv_l in Hf2 as ([k i] & q2 & Hq & Hf2 & ->).
    destruct Hq as (Hbq & Huq & Hiq & Hp & Hsz). simpl in *. subst p.
    destruct (heap_dealloc b v c k i l Hh) as (b' & v' & Hd & Hh' & Hg' & Hu);
      rewrite ?E1, ?E2, ?E3; [done..|unfold inside; by rewrite E2, E3, E6|done|].
    rewrite E1, E2, E3 in *. rewrite Hd. simpl. eexists. split; [done|].
    apply NoDup_app in Hnd as (Hnd1 & Hsep & [Hn2 Hnd2]%NoDup_cons).
    exists v', (q1 ++ q2). split_and!; simpl; [done|congruence| |].
    + apply Forall2_app; eapply holds_others; try done. intros Hin. apply (Hsep _ Hin). by left.
    + apply NoDup_app. split_and!; [done| |done]. intros q Hin Hin2. apply (Hsep q Hin). by right.
Qed.

Fixpoint serve_all (rs : list request) (s : BuddySystem * list (Z * Layout)) :
    outcome (BuddySystem * list (Z * Layout)) :=
  match rs with
  | [] => Done s
  | r :: rs => s' ← serve r s; serve_all rs s'
  end.

Lemma serve_all_inv c b0 rs s :
  Forall request_ok rs → client_inv c b0 s → ∃ s', serve_all rs s = Done s' ∧ client_inv c b0 s'.
Proof.
  intros Hrs. revert s. induction Hrs as [|r rs Hr Hrs IH]; intros s Hs; simpl; [eauto|].
  destruct (serve_inv c b0 r s Hr Hs) as (s1 & -> & Hs1). simpl. by apply IH.
Qed.

(** C5. No sequence of requests makes the allocator fail: a client that
    allocates with valid layouts and frees only what it holds, each pointer
    once, runs to the end without a panic or undefined behaviour; the
    allocator's invariant holds at the end, and the memory regions the client
    holds are inside the heap and pairwise disjoint. *)
Theorem client_safe b v c rs :
  heap b v c → Forall request_ok rs →
  ∃ b' v' held, serve_all rs (b, []) = Done (b', held) ∧ heap b' v' c ∧
    (∀ n p l, held !! n = Some (p, l) → base b + c ≤ p ∧ p + size l ≤ actual_end b) ∧
    (∀ n n' p l p' l', n ≠ n' → held !! n = Some (p, l) → held !! n' = Some (p', l') →
       disjoint p (size l) p' (size l')).
Proof.
  intros Hh Hrs. destruct (serve_all_inv c b rs (b, []) Hrs) as ([b' held] & Hrun & v' & qs & Hh' & Hg & Hf & Hnd).
  { exists v, []. split_and!; [done|done|constructor|constructor]. }
  simpl in *. exists b', v', held. destruct (geom_eq _ _ Hg) as (E1 & E2 & E3 & _).
  split_and!; [done|done| |].
  - intros n p l Hn. destruct (Forall2_lookup_l _ _ _ _ _ Hf Hn) as (q & _ & _ & _ & [Hi1 Hi2] & Hp & Hsz).
    simpl in *. lia.
  - intros n n' p l p' l' Hne Hn Hn'.
    destruct (Forall2_lookup_l _ _ _ _ _ Hf Hn) as ([k i] & Hq & Hb & Hu & _ & Hp & Hsz).
    destruct (Forall2_lookup_l _ _ _ _ _ Hf Hn') as ([k' i'] & Hq' & Hb' & Hu' & _ & Hp' & Hsz').
    simpl in *. pose proof (leaves_apart b' v' k i k' i' (heap_inv _ _ _ Hh')) as Hap.
    rewrite E1, E2, E3 in Hap. destruct Hap as [?|?];
      [by apply (used_leaf _ (base b) (leaf_size b))..| |left; lia|right; lia].
    intros [-> ->]. apply Hne. by apply (NoDup_lookup qs n n' (k', i')).
Qed.
End Client.

Definition demo_requests : list request :=
  [RAlloc small; RAlloc (mkLayout 100 64); RFree 1; RAlloc small; RFree 0; RFree 0].

Lemma client_safe_witness :
  ∃ b' v' held, @serve_all bit_field_std demo_requests (demo_heap, []) = Done (b', held) ∧
    @heap bit_field_std b' v' demo_meta.
Proof.
  destruct (@client_safe bit_field_std bit_field_std_laws demo_heap demo_view demo_meta demo_requests
    (proj1 demo_ok)) as (b' & v' & held & Hr & Hh & _).
  - repeat constructor; simpl; try lia; first [exists 3; split; [lia|reflexivity]|exists 6; split; [lia|reflexivity]].
  - exists b', v', held. split; [exact Hr|exact Hh].
Defined.

(** ** Alignment *)

(** A request whose alignment does not exceed its size, as for every Rust
    type of non-zero size, gets a block at a multiple of the alignment,
    provided the region starts at a multiple of the maximal alignment (as
    [init] arranges). *)
Theorem alloc_aligned {BF : BitField} {BFL : BitFieldLaws} b v c l p b' :
  heap b v c → layout_ok l → (∃ a, 0 ≤ a ∧ max_alignment b = 2 ^ a) →
  base b mod max_alignment b = 0 → align l ≤ size l →
  alloc b l = Done (p, b') → p ≠ 0 → p mod align l = 0.
Proof.
  intros Hh Hl (a & Ha0 & Ha) Hbase Hsz Hal Hp.
  assert (align l ≤ max_alignment b) as Hmax.
  { destruct (Z.le_gt_cases (align l) (max_alignment b)) as [|Hgt]; [done|exfalso].
    unfold alloc in Hal. destruct (size l =? 0); [by injection Hal as <- _|].
    destruct (Z.ltb_spec (max_alignment b) (align l)); [by injection Hal as <- _|lia]. }
  destruct (heap_alloc b v c l Hh Hl) as (p' & b1 & v1 & Ha' & _ & _ & Hcase).
  rewrite Hal in Ha'. injection Ha' as <- <-.
  destruct Hcase as [(-> & _)|(k & i & [Hk _] & -> & [Hfit _] & _)]; [done|].
  destruct Hl as [_ (al & Hal0 & Hal2)]. pose proof (inv_wf _ _ (heap_inv _ _ _ Hh)) as Hwf.
  destruct (wf_leaf b Hwf) as (lg & Hlg & Hleaf).
  assert (bbsize b k = 2 ^ (k + lg)) as Hbs by (unfold bsize; rewrite Hleaf, Z.pow_add_r by lia; done).
  rewrite Hal2, Hbs in *. rewrite Ha in *.
  assert (al ≤ k + lg) by (apply (Z.pow_le_mono_r_iff 2); lia).
  assert (al ≤ a) by (apply (Z.pow_le_mono_r_iff 2); lia).
  apply Z.mod_divide in Hbase as [x Hx]; [|apply Z.pow_nonzero; lia].
  apply Z.mod_divide; [apply Z.pow_nonzero; lia|]. unfold baddr. rewrite Hx, Hbs.
  exists (x * 2 ^ (a - al) + i * 2 ^ (k + lg - al)).
  replace a with (a - al + al) at 1 by lia. replace (k + lg) with (k + lg - al + al) at 1 by lia.
  rewrite !Z.pow_add_r by lia. lia.
Qed.

Lemma demo_align : max_alignment demo_heap = 2 ^ 6 ∧ base demo_heap mod max_alignment demo_heap = 0.
Proof. split; vm_compute; reflexivity. Qed.

Lemma alloc_aligned_witness :
  ∃ b', @alloc bit_field_std demo_heap small = Done (12032, b') ∧ 12032 mod align small = 0.
Proof.
  destruct demo_small_addr as [b' Hb']. exists b'. split; [exact Hb'|].
  apply (@alloc_aligned bit_field_std bit_field_std_laws demo_heap demo_view demo_meta small 12032 b').
  - exact (proj1 demo_ok).
  - exact small_ok.
  - exists 6. split; [lia|exact (proj1 demo_align)].
  - exact (proj2 demo_align).
  - simpl. lia.
  - exact Hb'.
  - discriminate.
Defined.

(** A request with an alignment above its size, which [GlobalAlloc] allows
    and [alloc] does not reject, can get a block that is not aligned: only
    the size takes part in choosing the block. *)
Theorem alloc_ignores_alignment :
  ∃ b', align (mkLayout 8 64) ≤ max_alignment demo_heap ∧
    @alloc bit_field_std demo_heap (mkLayout 8 64) = Done (4784, b') ∧ 4784 mod 64 ≠ 0.
Proof.
  destruct (returns_Done (@alloc bit_field_std demo_heap (mkLayout 8 64)) 4784) as [b' Hb'];
    [vm_compute; reflexivity|].
  exists b'. split; [rewrite (proj1 demo_align); simpl; lia|]. split; [exact Hb'|discriminate].
Qed.

(** Outside of the conditions of [init_correct], [init] goes wrong.  On a region of
    exactly [2^9] leaves it reads past the end of the alloc bitmap (the index
    of the first block after the region is the number of blocks), and on a
    small region whose metadata ends in the left half of the pair of blocks
    the region ends in, it puts the same block on the free list twice and
    fails its own accounting check. *)
Theorem init_edge_regions :
  @buddy_init bit_field_std uninit 4096 (4096 + 2 ^ 9 * 16) 16 16 =
    UB "get_unchecked out of the alloc slice" ∧
  match @buddy_init bit_field_std uninit 4096 (4096 + 48 * 16) 16 16 with
  | Done (Err msg, _) => msg = "allocator bug: tot != meta + free + unavail"%string
  | _ => False
  end.
Proof. split; vm_compute; reflexivity. Qed.
