(* ===== verification/Address.v ===== *)
(** * Addresses and the memory layout

    Models [arch/riscv/qemu/layout.rs] and [param.rs] (the constants),
    [memory/address.rs] (the [Addr] trait and the two address types, which
    wrap a [usize] and are modelled by it) and [memory/mapping/mod.rs]. *)

From Stdlib Require Import ZArith Lia.
From stdpp Require Import base gmap strings numbers list.
From S2P Require Import Prelude.

Local Open Scope Z_scope.

(** ** Constants *)

Definition UART0 : Z := 0x10000000.
Definition UART0_IRQ : Z := 10.
Definition VIRTIO0 : Z := 0x10001000.
Definition VIRTIO0_IRQ : Z := 1.
Definition CLINT : Z := 0x2000000.
Definition CLINT_MTIME : Z := CLINT + 0xBFF8.
Definition CLINT_MTIMECMP : Z := CLINT + 0x4000.
Definition PLIC_BASE : Z := 0x0c000000.
Definition E1000_REGS : Z := 0x40000000.
Definition ECAM : Z := 0x30000000.
Definition VIRT_TEST : Z := 0x100000.

Definition MEM_SIZE : Z := 128 * 1024 * 1024.
Definition KERNEL_BASE : Z := 0x80000000.
Definition PHYSTOP : Z := KERNEL_BASE + MEM_SIZE.

Definition PGSIZE : Z := 4096.
Definition PGSHIFT : Z := 12.
Definition PGMASKLEN : Z := 9.
Definition PGMASK : Z := 0x1FF.

Definition MAXVA : Z := Z.shiftl 1 (9 + 9 + 9 + 12 - 1).
Definition TRAMPOLINE : Z := MAXVA - PGSIZE.
Definition TRAPFRAME : Z := TRAMPOLINE - PGSIZE.

Definition NPROC : Z := 64.
Definition NCPU : Z := 8.
Definition NDEV : Z := 10.
Definition MAXARG : Z := 32.
Definition MAXPATH : Z := 128.
Definition LEAF_SIZE : Z := 16.
Definition MAX_ALIGNMENT : Z := 4096.

(** ** The [Addr] trait *)

(** A [PhysicalAddress] or [VirtualAddress]: both wrap a [usize]. *)
Definition Addr : Type := Z.

Definition is_page_aligned (a : Addr) : bool := a mod PGSIZE =? 0.

Definition pg_round_up (a : Addr) : outcome Addr :=
  x ← uadd a PGSIZE;
  x ← usub x 1;
  Done (Z.land x (unot 64 (PGSIZE - 1))).

Definition pg_round_down (a : Addr) : Addr := Z.land a (unot 64 (PGSIZE - 1)).

Definition add_page (a : Addr) : outcome Addr := uadd a PGSIZE.

Definition add_addr (a : Addr) (n : Z) : outcome Addr := uadd a n.

(** [VirtualAddress::compare] and [equal]. *)
Definition compare (a b : Addr) : bool := b <? a.
Definition equal (a b : Addr) : bool := a =? b.

(** [VirtualAddress::page_num]: the index into the page table of a level. *)
Definition page_num (va : Addr) (level : Z) : Z :=
  Z.land (Z.shiftr va (PGSHIFT + level * PGMASKLEN)) PGMASK.

(** [Add] and [Sub] for [VirtualAddress]. *)
Definition va_add (a b : Addr) : outcome Addr := uadd a b.
Definition va_sub (a b : Addr) : outcome Addr := usub a b.

(** [page_round_up] and [page_round_down] of [mapping/mod.rs]. *)
Definition page_round_up (addr : Z) : outcome Z :=
  x ← uadd addr PGSIZE;
  x ← usub x 1;
  Done (Z.land x (unot 64 (PGSIZE - 1))).

Definition page_round_down (addr : Z) : Z := Z.land addr (unot 64 (PGSIZE - 1)).

(** ** Lemmas *)

(** The page an address lies in, and its offset there. *)
Definition page_of (a : Z) : Z := a / PGSIZE * PGSIZE.

Lemma page_mask x : 0 ≤ x < 2 ^ 64 → Z.land x (unot 64 (PGSIZE - 1)) = page_of x.
Proof. intros Hx. change (PGSIZE - 1) with (2 ^ 12 - 1). by apply land_unot_low. Qed.

Lemma pg_round_down_ok a : 0 ≤ a < 2 ^ 64 → pg_round_down a = page_of a.
Proof. apply page_mask. Qed.

Lemma page_round_up_ok a :
  0 ≤ a → a + PGSIZE < 2 ^ 64 → page_round_up a = Done (page_of (a + PGSIZE - 1)).
Proof.
  intros H0 H1. unfold page_round_up, PGSIZE in *. rewrite uadd_ok by lia. simpl.
  rewrite usub_ok by lia. simpl. f_equal. apply page_mask. lia.
Qed.

Lemma pg_round_up_ok a :
  0 ≤ a → a + PGSIZE < 2 ^ 64 → pg_round_up a = Done (page_of (a + PGSIZE - 1)).
Proof. apply page_round_up_ok. Qed.

Lemma page_of_bounds a : page_of a ≤ a < page_of a + PGSIZE ∧ page_of a mod PGSIZE = 0.
Proof. unfold page_of, PGSIZE. divlia. Qed.

Lemma page_of_aligned a : a mod PGSIZE = 0 → page_of a = a.
Proof. unfold page_of, PGSIZE. divlia. Qed.

Lemma page_of_up a : a mod PGSIZE = 0 → page_of (a + PGSIZE - 1) = a.
Proof. unfold page_of, PGSIZE. divlia. Qed.

Lemma page_num_ok va l : 0 ≤ l → page_num va l = va / 2 ^ (12 + 9 * l) mod 512.
Proof.
  intros Hl. unfold page_num, PGSHIFT, PGMASKLEN, PGMASK.
  rewrite Z.shiftr_div_pow2 by lia. change 0x1FF with (Z.ones 9).
  rewrite Z.land_ones by lia. f_equal. f_equal. f_equal. lia.
Qed.

Lemma page_num_range va l : 0 ≤ l → 0 ≤ page_num va l < 512.
Proof. intros Hl. rewrite page_num_ok by done. by apply Z.mod_pos_bound. Qed.

(** The three indices of a virtual address. *)
Lemma page_nums va :
  0 ≤ va < 2 ^ 39 →
  va = page_num va 2 * 2 ^ 30 + page_num va 1 * 2 ^ 21 + page_num va 0 * 2 ^ 12 + va mod PGSIZE.
Proof.
  intros Hva. rewrite !page_num_ok by lia. unfold PGSIZE. simpl Z.add. simpl Z.mul.
  change (2 ^ (12 + 0)) with 4096. change (2 ^ (12 + 9)) with 2097152. change (2 ^ (12 + 18)) with 1073741824.
  divlia.
Qed.

Lemma page_num_inj va va' :
  0 ≤ va < 2 ^ 39 → 0 ≤ va' < 2 ^ 39 →
  page_num va 2 = page_num va' 2 → page_num va 1 = page_num va' 1 → page_num va 0 = page_num va' 0 →
  page_of va = page_of va'.
Proof.
  intros H H' E2 E1 E0. pose proof (page_nums va H) as Hv. pose proof (page_nums va' H') as Hv'.
  rewrite E2, E1, E0 in Hv. unfold page_of, PGSIZE in *. divlia.
Qed.

(** Addresses of one page have the same indices. *)
Lemma page_num_cong va va' l : 0 ≤ l → page_of va = page_of va' → page_num va l = page_num va' l.
Proof.
  intros Hl Heq. rewrite !page_num_ok by done. f_equal.
  replace (12 + 9 * l) with (12 + (9 * l)) by lia. rewrite Z.pow_add_r by lia.
  rewrite <- !Z.div_div by lia. change (2 ^ 12) with 4096. f_equal. unfold page_of, PGSIZE in Heq. lia.
Qed.

(** The three page-table indices and the page offset determine a Sv39
    virtual address and are determined by it; each index is below 512. *)
Theorem va_decomposition va :
  0 ≤ va < 2 ^ 39 →
  va = page_num va 2 * 2 ^ 30 + page_num va 1 * 2 ^ 21 + page_num va 0 * 2 ^ 12 + va mod PGSIZE ∧
  (∀ l, 0 ≤ l → 0 ≤ page_num va l < 512) ∧
  (∀ i2 i1 i0 off, 0 ≤ i2 < 512 → 0 ≤ i1 < 512 → 0 ≤ i0 < 512 → 0 ≤ off < PGSIZE →
     va = i2 * 2 ^ 30 + i1 * 2 ^ 21 + i0 * 2 ^ 12 + off →
     page_num va 2 = i2 ∧ page_num va 1 = i1 ∧ page_num va 0 = i0).
Proof.
  intros Hva. split_and!; [by apply page_nums|intros; by apply page_num_range|].
  intros i2 i1 i0 off H2 H1 H0 Ho Heq. pose proof (page_nums va Hva) as Hd.
  pose proof (page_num_range va 2). pose proof (page_num_range va 1). pose proof (page_num_range va 0).
  unfold PGSIZE in *. divlia.
Qed.

Lemma va_decomposition_witness : page_num 0x3ffffff123 2 = 255 ∧ 0 ≤ page_num 0x3ffffff123 1 < 512.
Proof.
  destruct (va_decomposition 0x3ffffff123 ltac:(lia)) as (_ & Hr & Hi).
  split; [|apply Hr; lia].
  apply (Hi 255 511 511 0x123); unfold PGSIZE; lia.
Defined.
