(* ===== verification/Pte.v ===== *)
(** * Page-table entries

    Models [memory/mapping/page_table_entry.rs].  A [PageTableEntry] wraps a
    64-bit word; [PteFlags] is a [bitflags] type, modelled by its bits, whose
    union is the parameter [flags_or]. *)

From Stdlib Require Import ZArith Lia Btauto.
From stdpp Require Import base gmap strings numbers list.
From S2P Require Import Prelude Address.

Local Open Scope Z_scope.

Definition PTE_V : Z := 1.
Definition PTE_R : Z := 2.
Definition PTE_W : Z := 4.
Definition PTE_X : Z := 8.
Definition PTE_U : Z := 16.

(** [PageTableEntry::new] and [as_usize] are the identity on the word. *)
Definition PageTableEntry : Type := Z.

Section Pte.
Context {BFl : BitFlags}.

Definition is_valid (pte : PageTableEntry) : bool := 0 <? Z.land pte PTE_V.
Definition is_user (pte : PageTableEntry) : bool := 0 <? Z.land pte PTE_V.
Definition is_read (pte : PageTableEntry) : bool := 0 <? Z.land pte PTE_R.
Definition is_write (pte : PageTableEntry) : bool := 0 <? Z.land pte PTE_W.
Definition is_execute (pte : PageTableEntry) : bool := 0 <? Z.land pte PTE_X.

Definition is_leaf (pte : PageTableEntry) : bool :=
  let flag_bits := Z.land pte (flags_or (flags_or PTE_R PTE_W) PTE_X) in
  negb (flag_bits =? 0).

Definition add_valid_bit (pte : PageTableEntry) : PageTableEntry := Z.lor pte PTE_V.
Definition add_user_bit (pte : PageTableEntry) : PageTableEntry := Z.lor pte PTE_U.
Definition rm_user_bit (pte : PageTableEntry) : PageTableEntry := Z.land pte (unot 64 PTE_U).

(** [<<] on a [usize] drops the bits that leave the word. *)
Definition shl64 (x k : Z) : Z := Z.shiftl x k mod 2 ^ 64.

(** PTE2PA. *)
Definition as_pagetable (pte : PageTableEntry) : Z := shl64 (Z.shiftr pte 10) 12.
(** PA2PTE. *)
Definition as_pte (addr : Z) : PageTableEntry := shl64 (Z.shiftr addr 12) 10.
Definition as_flags (pte : PageTableEntry) : Z := Z.land pte 0x3FF.

Definition write_zero : PageTableEntry := 0.
Definition write_perm (pa perm : Z) : PageTableEntry :=
  Z.lor (shl64 (Z.shiftr pa 12) 10) (flags_or perm PTE_V).
Definition write (addr : Z) : PageTableEntry := addr.

(** [free]: dropping a [PageTable] in place does nothing, since the type has
    no destructor. *)
Definition pte_free (pte : PageTableEntry) : outcome unit :=
  if is_valid pte then
    if negb (is_leaf pte) then Done tt
    else Panic "freeing a pte leaf"
  else Done tt.

(** ** Lemmas *)

Lemma land_pow2_pos x k : 0 ≤ k → (0 <? Z.land x (2 ^ k)) = Z.testbit x k.
Proof.
  intros Hk. assert (Z.land x (2 ^ k) = if Z.testbit x k then 2 ^ k else 0) as ->.
  { apply Z.bits_inj'. intros i Hi. rewrite Z.land_spec, Z.pow2_bits_eqb by done.
    destruct (Z.eqb_spec k i) as [<-|].
    - destruct (Z.testbit x k) eqn:E; [by rewrite Z.pow2_bits_true|by rewrite Z.bits_0].
    - rewrite andb_false_r. destruct (Z.testbit x k); [by rewrite Z.pow2_bits_false|by rewrite Z.bits_0]. }
  pose proof (Z.pow_pos_nonneg 2 k). destruct (Z.testbit x k); [|done].
  apply Z.ltb_lt. lia.
Qed.

Lemma is_valid_bit pte : is_valid pte = Z.testbit pte 0.
Proof. apply (land_pow2_pos pte 0). lia. Qed.

(** The word of an entry: the page number above the ten flag bits. *)
Lemma lor_disjoint a f k : 0 ≤ k → 0 ≤ f < 2 ^ k → Z.lor (a * 2 ^ k) f = a * 2 ^ k + f.
Proof.
  intros Hk Hf. assert (Z.land (a * 2 ^ k) f = 0) as Hl.
  { apply Z.bits_inj'. intros i Hi. rewrite Z.land_spec, Z.bits_0.
    destruct (Z.lt_ge_cases i k).
    - by rewrite Z.mul_pow2_bits_low.
    - rewrite (testbit_high f k) by lia. apply andb_false_r. }
  rewrite Z.add_nocarry_lxor by done. symmetry. by apply Z.lxor_lor.
Qed.

Lemma as_pte_ok pa : 0 ≤ pa < 2 ^ 64 → as_pte pa = pa / 4096 * 2 ^ 10.
Proof.
  intros Hpa. unfold as_pte, shl64. rewrite Z.shiftl_mul_pow2, Z.shiftr_div_pow2 by lia.
  change (2 ^ 12) with 4096. apply Z.mod_small. divlia.
Qed.

Lemma as_pagetable_ok pte : 0 ≤ pte < 2 ^ 62 → as_pagetable pte = pte / 2 ^ 10 * 4096.
Proof.
  intros Hp. unfold as_pagetable, shl64. rewrite Z.shiftl_mul_pow2, Z.shiftr_div_pow2 by lia.
  change (2 ^ 12) with 4096. apply Z.mod_small. divlia.
Qed.

Lemma as_flags_ok pte : as_flags pte = pte mod 2 ^ 10.
Proof. unfold as_flags. change 0x3FF with (Z.ones 10). by apply Z.land_ones. Qed.

Context {BFlL : BitFlagsLaws}.

(** The word that maps a page with some flags. *)
Definition leaf_pte (pa perm : Z) : Z := pa / 4096 * 2 ^ 10 + Z.lor perm PTE_V.

Lemma perm_range perm : 0 ≤ perm < 2 ^ 10 → 0 ≤ Z.lor perm PTE_V < 2 ^ 10.
Proof. intros Hp. apply lor_lt_pow2; unfold PTE_V; lia. Qed.

Lemma write_perm_ok pa perm :
  0 ≤ pa < 2 ^ 64 → 0 ≤ perm < 2 ^ 10 → write_perm pa perm = leaf_pte pa perm.
Proof.
  intros Hpa Hp. unfold write_perm. fold (as_pte pa). rewrite as_pte_ok, flags_or_bits by done.
  apply lor_disjoint; [lia|]. by apply perm_range.
Qed.

Lemma leaf_pte_fields pa perm :
  0 ≤ pa < 2 ^ 64 → pa mod PGSIZE = 0 → 0 ≤ perm < 2 ^ 10 →
  0 ≤ leaf_pte pa perm < 2 ^ 62 ∧ as_pagetable (leaf_pte pa perm) = pa ∧
  as_flags (leaf_pte pa perm) = Z.lor perm PTE_V ∧ is_valid (leaf_pte pa perm) = true.
Proof.
  intros Hpa Hal Hp. pose proof (perm_range perm Hp) as Hr. unfold leaf_pte, PGSIZE in *.
  assert (0 ≤ pa / 4096 * 2 ^ 10 + Z.lor perm PTE_V < 2 ^ 62) as Hb by divlia.
  split; [done|]. rewrite as_pagetable_ok, as_flags_ok by done.
  rewrite is_valid_bit. set (f := Z.lor perm PTE_V) in *. split; [divlia|]. split; [divlia|].
  assert (Z.testbit f 0 = true) as Hf by (unfold f; rewrite Z.lor_spec; by rewrite orb_true_r).
  rewrite Z.bit0_odd in *. rewrite Z.odd_add, Hf, Z.odd_mul. simpl. by rewrite andb_false_r.
Qed.

(** Also for an address that is not page-aligned. *)
Lemma leaf_word pa perm :
  0 ≤ pa < 2 ^ 64 → 0 ≤ perm < 2 ^ 10 →
  0 ≤ leaf_pte pa perm < 2 ^ 64 ∧ is_valid (leaf_pte pa perm) = true.
Proof.
  intros Hpa Hp. destruct (leaf_pte_fields (page_of pa) perm) as (H1 & _ & _ & H4); [|apply page_of_bounds|done|].
  - pose proof (page_of_bounds pa). unfold page_of, PGSIZE in *. divlia.
  - assert (leaf_pte (page_of pa) perm = leaf_pte pa perm) as E; [|rewrite E in *; split; [lia|done]].
    unfold leaf_pte, page_of, PGSIZE. by rewrite Z.div_mul by lia.
Qed.

Lemma testbit_low a f k i : 0 ≤ i < k → 0 ≤ f < 2 ^ k → Z.testbit (a * 2 ^ k + f) i = Z.testbit f i.
Proof.
  intros Hi Hf. rewrite <- lor_disjoint by lia. rewrite Z.lor_spec.
  by rewrite Z.mul_pow2_bits_low by lia.
Qed.

Lemma flag_test pa perm k :
  0 ≤ perm < 2 ^ 10 → 0 < k < 10 →
  (0 <? Z.land (leaf_pte pa perm) (2 ^ k)) = Z.testbit perm k.
Proof.
  intros Hp Hk. rewrite land_pow2_pos by lia. unfold leaf_pte.
  rewrite testbit_low by (try apply perm_range; lia). rewrite Z.lor_spec.
  change PTE_V with (2 ^ 0). rewrite (Z.pow2_bits_false 0) by lia. by rewrite orb_false_r.
Qed.

(** Clearing the user bit leaves the page number and the other flags alone. *)
Lemma rm_user_bit_ok pte :
  0 ≤ pte < 2 ^ 64 →
  as_pagetable (rm_user_bit pte) = as_pagetable pte ∧ is_valid (rm_user_bit pte) = is_valid pte ∧
  Z.testbit (rm_user_bit pte) 4 = false ∧ 0 ≤ rm_user_bit pte < 2 ^ 64.
Proof.
  intros Hp. assert (∀ i, 0 ≤ i → Z.testbit (rm_user_bit pte) i = Z.testbit pte i && negb (i =? 4)) as Hb.
  { intros i Hi. unfold rm_user_bit, unot, PTE_U. rewrite Z.land_spec, Z.lxor_spec.
    change 16 with (2 ^ 4). rewrite Z.pow2_bits_eqb by lia. rewrite (Z.eqb_sym i 4).
    destruct (Z.lt_ge_cases i 64).
    - rewrite Z.ones_spec_low by lia. by destruct (Z.testbit pte i), (4 =? i).
    - rewrite (testbit_high pte 64) by lia. done. }
  split; [|split; [|split]].
  - unfold as_pagetable. f_equal. apply Z.bits_inj'. intros i Hi.
    rewrite !Z.shiftr_spec, Hb by lia. destruct (Z.eqb_spec (i + 10) 4); [lia|]. apply andb_true_r.
  - rewrite !is_valid_bit, Hb by lia. apply andb_true_r.
  - rewrite Hb by lia. apply andb_false_r.
  - unfold rm_user_bit. apply land_lt_pow2; [lia| |lia]. by vm_compute.
Qed.

Lemma is_leaf_bits pte :
  is_leaf pte = Z.testbit pte 1 || Z.testbit pte 2 || Z.testbit pte 3.
Proof.
  assert (∀ k, 0 ≤ k → Z.land pte (2 ^ k) = 0 ↔ Z.testbit pte k = false) as Hz.
  { intros k Hk. rewrite <- land_pow2_pos, Z.ltb_ge by done.
    assert (0 ≤ Z.land pte (2 ^ k)) by (apply Z.land_nonneg; right; by apply Z.pow_nonneg). lia. }
  unfold is_leaf. rewrite !flags_or_bits, !Z.land_lor_distr_r.
  change PTE_R with (2 ^ 1). change PTE_W with (2 ^ 2). change PTE_X with (2 ^ 3).
  apply Bool.eq_iff_eq_true.
  rewrite negb_true_iff, Z.eqb_neq, !Z.lor_eq_0_iff, !Hz, !orb_true_iff by lia.
  destruct (Z.testbit pte 1), (Z.testbit pte 2), (Z.testbit pte 3); intuition congruence.
Qed.

Lemma leaf_pte_bit pa perm k :
  0 ≤ perm < 2 ^ 10 → 0 < k < 10 → Z.testbit (leaf_pte pa perm) k = Z.testbit perm k.
Proof. intros Hp Hk. rewrite <- land_pow2_pos by lia. by apply flag_test. Qed.

(** Writing a page-table entry and reading it back: for a page-aligned
    physical address and ten flag bits, the entry is valid, points to the
    address, has the flags plus the valid bit, and is a leaf exactly when one
    of the read, write and execute flags is set. *)
Theorem pte_roundtrip pa perm :
  0 ≤ pa < 2 ^ 64 → pa mod PGSIZE = 0 → 0 ≤ perm < 2 ^ 10 →
  is_valid (write_perm pa perm) = true ∧
  as_pagetable (write_perm pa perm) = pa ∧
  as_flags (write_perm pa perm) = Z.lor perm PTE_V ∧
  is_leaf (write_perm pa perm) = Z.testbit perm 1 || Z.testbit perm 2 || Z.testbit perm 3 ∧
  is_read (write_perm pa perm) = Z.testbit perm 1 ∧
  is_write (write_perm pa perm) = Z.testbit perm 2 ∧
  is_execute (write_perm pa perm) = Z.testbit perm 3.
Proof.
  intros Hpa Hal Hp. rewrite write_perm_ok by done.
  destruct (leaf_pte_fields pa perm Hpa Hal Hp) as (_ & H1 & H2 & H3).
  split_and!; [done|done|done| | | |]; rewrite ?is_leaf_bits.
  - by rewrite !leaf_pte_bit by lia.
  - by apply (flag_test pa perm 1).
  - by apply (flag_test pa perm 2).
  - by apply (flag_test pa perm 3).
Qed.
End Pte.

Lemma pte_roundtrip_witness :
  @as_pagetable (@write_perm bit_flags_std 0x87654000 0x1e) = 0x87654000.
Proof.
  apply (@pte_roundtrip bit_flags_std bit_flags_std_laws 0x87654000 0x1e); [lia|reflexivity|lia].
Defined.
