(* ===== verification/PhysMem.v ===== *)
(** * Physical memory and the helpers of [misc.rs]

    Memory is a total map from addresses to bytes: the kernel maps physical
    memory one to one, so a pointer is the address it holds.  Words are eight
    bytes, least significant first. *)

From Stdlib Require Import ZArith Lia.
From stdpp Require Import base gmap strings numbers list.
From S2P Require Import Prelude Address.

Local Open Scope Z_scope.

Definition mem : Type := Z → Z.

(** Reading truncates to a byte, so that every memory holds bytes. *)
Definition read_byte (m : mem) (a : Z) : Z := m a mod 256.

Definition write_byte (m : mem) (a v : Z) : mem := λ x, if x =? a then v else m x.

Fixpoint read_le (n : nat) (m : mem) (a : Z) : Z :=
  match n with
  | O => 0
  | S n => read_byte m a + 256 * read_le n m (a + 1)
  end.

Definition read_word (m : mem) (a : Z) : Z := read_le 8 m a.

Definition write_word (m : mem) (a v : Z) : mem :=
  λ x, if (a <=? x) && (x <? a + 8) then v / 256 ^ (x - a) mod 256 else m x.

(** [ptr::copy] (memmove) and [ptr::write_bytes] (memset). *)
Definition copy_bytes (m : mem) (dst src n : Z) : mem :=
  λ x, if (dst <=? x) && (x <? dst + n) then m (src + (x - dst)) else m x.

Definition write_bytes (m : mem) (dst v n : Z) : mem :=
  λ x, if (dst <=? x) && (x <? dst + n) then v else m x.

(** Copying a Rust slice into memory. *)
Definition store_bytes (m : mem) (dst : Z) (bytes : list Z) : mem :=
  λ x, if (dst <=? x) && (x <? dst + Z.of_nat (length bytes))
       then nth (Z.to_nat (x - dst)) bytes 0 else m x.

(** ** Helpers of [misc.rs] *)

Module Misc.
Definition min (a b : Z) : Z := if a <? b then a else b.

(** The loop has no bound of its own; [fuel] bounds the length looked at. *)
Definition str_len (fuel : nat) (m : mem) (str : Z) : outcome Z :=
  while_fuel fuel (λ i,
    ptr ← uadd str i;
    let c := read_byte m ptr in
    if negb (c =? 0) then
      i ← uadd i 1;
      Done (inr i)
    else Done (inl i)) 0.

Definition mem_copy (m : mem) (dst src len : Z) : outcome mem :=
  for_range 0 len (λ i m,
    s ← uadd src i;
    let val := read_byte m s in
    d ← uadd dst i;
    Done (write_byte m d val)) m.

Definition mem_set (m : mem) (dst value len : Z) : mem * Z := (write_bytes m dst value len, dst).

Definition str_cmp (a b : list Z) (max_len : Z) : bool :=
  if negb (Nat.eqb (length a) (length b)) then false
  else if max_len <? Z.of_nat (length a) then false
  else forallb (λ '(x, y), x =? y) (zip a b).
End Misc.

(** ** Lemmas *)

Lemma read_byte_range m a : 0 ≤ read_byte m a < 256.
Proof. by apply Z.mod_pos_bound. Qed.

Lemma read_le_range n m a : 0 ≤ read_le n m a < 256 ^ Z.of_nat n.
Proof.
  revert a. induction n as [|n IH]; intros a; [simpl; lia|].
  rewrite Nat2Z.inj_succ, Z.pow_succ_r by lia. cbn [read_le].
  pose proof (IH (a + 1)). pose proof (read_byte_range m a). lia.
Qed.

Lemma read_word_range m a : 0 ≤ read_word m a < 2 ^ 64.
Proof. apply (read_le_range 8). Qed.

Lemma read_le_ext n m m' a :
  (∀ x, a ≤ x < a + Z.of_nat n → read_byte m x = read_byte m' x) → read_le n m a = read_le n m' a.
Proof.
  revert a. induction n as [|n IH]; intros a Hx; [done|]. cbn [read_le].
  rewrite (Hx a) by lia. rewrite (IH (a + 1)); [done|]. intros x Hr. apply Hx. lia.
Qed.

Lemma read_word_ext m m' a :
  (∀ x, a ≤ x < a + 8 → m x = m' x) → read_word m a = read_word m' a.
Proof. intros Hx. apply read_le_ext. intros x Hr. unfold read_byte. by rewrite Hx by lia. Qed.

Lemma write_word_other m a v x : ¬ (a ≤ x < a + 8) → write_word m a v x = m x.
Proof. intros Hx. unfold write_word. destruct (Z.leb_spec a x), (Z.ltb_spec x (a + 8)); simpl; try done; lia. Qed.

Lemma read_word_write_ne m a v b :
  a + 8 ≤ b ∨ b + 8 ≤ a → read_word (write_word m a v) b = read_word m b.
Proof. intros Hd. apply read_word_ext. intros x Hx. apply write_word_other. lia. Qed.

Lemma read_le_write n m a v d :
  0 ≤ v → 0 ≤ d → d + Z.of_nat n ≤ 8 →
  read_le n (write_word m a v) (a + d) = v / 256 ^ d mod 256 ^ Z.of_nat n.
Proof.
  intros Hv. revert d. induction n as [|n IH]; intros d Hd Hn.
  { cbn [read_le]. by rewrite Z.mod_1_r. }
  cbn [read_le]. replace (a + d + 1) with (a + (d + 1)) by lia. rewrite IH by lia.
  unfold read_byte, write_word. destruct (Z.leb_spec a (a + d)), (Z.ltb_spec (a + d) (a + 8)); simpl; try lia.
  replace (a + d - a) with d by lia. rewrite Z.mod_mod by lia.
  rewrite Nat2Z.inj_succ, Z.pow_succ_r by lia.
  pose proof (Z.pow_pos_nonneg 256 (Z.of_nat n) eq_refl ltac:(lia)).
  pose proof (Z.pow_pos_nonneg 256 d eq_refl Hd).
  rewrite (Z.rem_mul_r (v / 256 ^ d) 256) by lia.
  replace (v / 256 ^ (d + 1)) with (v / 256 ^ d / 256); [done|].
  rewrite Z.div_div by lia. f_equal. rewrite Z.pow_add_r by lia. lia.
Qed.

Lemma read_word_write m a v : 0 ≤ v < 2 ^ 64 → read_word (write_word m a v) a = v.
Proof.
  intros Hv. unfold read_word. replace a with (a + 0) at 2 by lia. rewrite read_le_write by lia.
  change (256 ^ 0) with 1. rewrite Z.div_1_r. apply Z.mod_small. done.
Qed.

(** [mem_copy] copies byte by byte from the front; where the two ranges do not
    overlap it agrees with memmove. *)
Lemma mem_copy_ok m dst src len :
  0 ≤ dst → 0 ≤ src → 0 ≤ len → dst + len < 2 ^ 64 → src + len < 2 ^ 64 →
  (dst + len ≤ src ∨ src + len ≤ dst) →
  ∃ m', Misc.mem_copy m dst src len = Done m' ∧
    ∀ x, read_byte m' x = read_byte (copy_bytes m dst src len) x.
Proof.
  intros Hd Hs Hl Hd2 Hs2 Hdis. unfold Misc.mem_copy.
  apply (for_range_inv (λ i m', ∀ x, read_byte m' x = read_byte (copy_bytes m dst src i) x)); [done| |].
  - intros x. unfold read_byte, copy_bytes. destruct (Z.leb_spec dst x), (Z.ltb_spec x (dst + 0)); simpl; try done; lia.
  - intros i m1 Hi Hm. rewrite uadd_ok by lia. simpl. rewrite uadd_ok by lia. simpl. eexists. split; [done|].
    intros x. unfold read_byte at 1, write_byte. destruct (Z.eqb_spec x (dst + i)) as [->|Hne].
    + rewrite Hm. unfold copy_bytes at 2, read_byte, copy_bytes.
      destruct (Z.leb_spec dst (src + i)), (Z.ltb_spec (src + i) (dst + i)),
        (Z.leb_spec dst (dst + i)), (Z.ltb_spec (dst + i) (dst + (i + 1))); simpl; try lia;
        rewrite Z.mod_mod by lia; do 2 f_equal; lia.
    + fold (read_byte m1 x). rewrite Hm. unfold read_byte, copy_bytes.
      destruct (Z.leb_spec dst x), (Z.ltb_spec x (dst + i)), (Z.ltb_spec x (dst + (i + 1))); simpl; try done; lia.
Qed.
