(* ===== verification/PageTable.v ===== *)
(** * Page tables

    Models [memory/mapping/page_table.rs] and the page allocation of
    [memory/mod.rs].  A page table is a page of physical memory holding 512
    entries of eight bytes; [self] is its address.  A [&mut PageTableEntry] is
    the address of the entry.  Allocating a page ([Box::new_zeroed],
    [RawPage::new_zeroed]) is the interface [PageSource], which the kernel
    heap implements; running out of memory ends in the kernel's
    [alloc_error_handler], a panic. *)

From Stdlib Require Import ZArith Lia.
From stdpp Require Import base gmap strings numbers list.
From S2P Require Import Prelude Address Pte PhysMem.

Local Open Scope Z_scope.

(** What page tables need of the heap: a page of memory. *)
Class PageSource (H : Type) := new_page : H → outcome (Z * H).

Record pstate (H : Type) := mkP { pmem : mem; pheap : H }.
Global Arguments mkP {H}.
Global Arguments pmem {H}.
Global Arguments pheap {H}.

Definition with_mem {H} (s : pstate H) (m : mem) : pstate H := mkP m (pheap s).

(** [satp::SATP_SV39]. *)
Definition SATP_SV39 : Z := Z.shiftl 8 60.

Section Tables.
Context {BFl : BitFlags} {H : Type} {PS : PageSource H}.

(** [PageAllocator::new_zeroed] and [Box::<PageTable>::new_zeroed]. *)
Definition new_zeroed (s : pstate H) : outcome (Z * pstate H) :=
  '(p, h) ← new_page (pheap s);
  Done (p, mkP (write_bytes (pmem s) p 0 PGSIZE) h).

(** The address of [entries[i]] of a page table, for an index below 512. *)
Definition entry (pt i : Z) : Z := pt + 8 * i.

Definition as_satp (self : Z) : Z := Z.lor SATP_SV39 (Z.shiftr self PGSHIFT).

Definition clear (self : Z) (m : mem) : outcome mem :=
  for_range 0 512 (λ i m, Done (write_word m (entry self i) write_zero)) m.

Definition pt_write (self page_table : Z) (m : mem) : outcome mem :=
  for_range 0 512 (λ i m,
    Done (write_word m (entry self i) (write (read_word m (entry page_table i))))) m.

(** [free]: [fuel] bounds the depth of the recursion; Sv39 tables have three
    levels. *)
Fixpoint pt_free (fuel : nat) (self : Z) (m : mem) : outcome mem :=
  match fuel with
  | O => NoFuel
  | S fuel =>
      for_range 0 512 (λ i m,
        let pte := read_word m (entry self i) in
        if is_valid pte && negb (is_leaf pte) then
          m ← pt_free fuel (as_pagetable pte) m;
          Done (write_word m (entry self i) 0)
        else if is_valid pte then Panic "pagetable free(): leaf not be removed"
        else Done m) m
  end.

(** The table reached from [pt] through the given levels. *)
Fixpoint walk (levels : list Z) (va pt : Z) (m : mem) : option Z :=
  match levels with
  | [] => Some pt
  | level :: rest =>
      let pte := read_word m (entry pt (page_num va level)) in
      if is_valid pte then walk rest va (as_pagetable pte) m
      else None
  end.

Definition translate (self va : Z) (m : mem) : option Z :=
  if MAXVA <? va then None
  else
    page_table ← walk [2; 1] va self m;
    Some (entry page_table (page_num va 0)).

(** One level of [translate_or_alloc]. *)
Definition step_or_alloc (va level : Z) (x : Z * pstate H) : outcome (Z * pstate H) :=
  let '(pagetable, s) := x in
  let pte := entry pagetable (page_num va level) in
  if is_valid (read_word (pmem s) pte) then
    Done (as_pagetable (read_word (pmem s) pte), s)
  else
    '(p, s) ← new_zeroed s;
    Done (p, with_mem s (write_word (pmem s) pte (Z.lor (shl64 (Z.shiftr p 12) 10) PTE_V))).

(** [translate_or_alloc] never returns [None]. *)
Definition translate_or_alloc (self va : Z) (s : pstate H) : outcome (Z * pstate H) :=
  if MAXVA <? va then Panic "walk"
  else
    '(pagetable, s) ← for_each [2; 1] (step_or_alloc va) (self, s);
    Done (entry pagetable (page_num va 0), s).

Definition pgt_translate (self va : Z) (m : mem) : option Z :=
  if MAXVA <? va then None
  else
    match translate self va m with
    | Some pte =>
        if negb (is_valid (read_word m pte)) then None
        else if negb (is_user (read_word m pte)) then None
        else Some (as_pagetable (read_word m pte))
    | None => None
    end.

(** One page of [map]. *)
Definition map_page (self va pa perm : Z) (s : pstate H) : outcome (pstate H) :=
  '(pte, s) ← translate_or_alloc self va s;
  if is_valid (read_word (pmem s) pte) then Panic "remap"
  else Done (with_mem s (write_word (pmem s) pte (write_perm pa perm))).

(** [map]; the loop runs once for each page of the range. *)
Definition map (self va pa size perm : Z) (s : pstate H) : outcome (bool * pstate H) :=
  last ← uadd va size;
  let va := pg_round_down va in
  last ← pg_round_up last;
  s ← while_fuel (S (Z.to_nat ((last - va) / PGSIZE))) (λ '(va, pa, s),
    if negb (va =? last) then
      s ← map_page self va pa perm s;
      va ← add_page va;
      pa ← add_page pa;
      Done (inr (va, pa, s))
    else Done (inl s)) (va, pa, s);
  Done (true, s).

Definition kernel_map (self va pa size perm : Z) (s : pstate H) : outcome (pstate H) :=
  '(ok, s) ← map self va pa size perm s;
  if negb ok then Panic "Core virtual address mapping failure" else Done s.

Definition uvmcreate (s : pstate H) : outcome (Z * pstate H) := new_zeroed s.

(** The flags of user memory: [W | R | X | U]. *)
Definition user_perm : Z := flags_or (flags_or (flags_or PTE_W PTE_R) PTE_X) PTE_U.

Definition uvm_init (self : Z) (src : list Z) (s : pstate H) : outcome (pstate H) :=
  if PGSIZE <=? Z.of_nat (length src) then Panic "inituvm: more than a page"
  else
    '(page, s) ← new_zeroed s;
    let s := with_mem s (write_bytes (pmem s) page 0 PGSIZE) in
    '(_, s) ← map self 0 page PGSIZE user_perm s;
    Done (with_mem s (store_bytes (pmem s) page src)).

(** [drop_in_place] of a page: [RawPage] and [PageTable] have no destructor, so
    nothing happens to the memory and nothing goes back to the heap. *)
Definition drop_in_place (pa : Z) (m : mem) : mem := m.

Definition uvm_unmap (self va npages : Z) (free : bool) (m : mem) : outcome mem :=
  if negb (is_page_aligned va) then Panic "uvm_unmap: not aligned"
  else
    '(_, m) ← for_range 0 npages (λ _ '(va, m),
      match translate self va m with
      | Some pte =>
          if negb (is_valid (read_word m pte)) then Panic "uvm_unmap: not mapped"
          else if as_flags (read_word m pte) =? PTE_V then Panic "uvm_unmap: not a leaf"
          else
            let m := if free then drop_in_place (as_pagetable (read_word m pte)) m else m in
            va ← add_page va;
            Done (va, m)
      | None => Panic "uvm_unmap"
      end) (va, m);
    Done m.

Definition uvm_dealloc (self old_size new_size : Z) (m : mem) : outcome (Z * mem) :=
  if old_size <=? new_size then Done (old_size, m)
  else
    n ← page_round_up new_size;
    o ← page_round_up old_size;
    m ← (if n <? o then
           d ← usub o n;
           pages_num ← udiv d PGSIZE;
           uvm_unmap self n pages_num true m
         else Done m);
    Done (new_size, m).

(** [(old_size..new_size).step_by(PGSIZE)]. *)
Definition uvm_alloc (self old_size new_size : Z) (s : pstate H) :
    outcome (option Z * pstate H) :=
  if new_size <? old_size then Done (Some old_size, s)
  else
    old_size ← page_round_up old_size;
    r ← for_range_until 0 ((new_size - old_size + PGSIZE - 1) / PGSIZE) (λ i s,
      let cur_size := old_size + i * PGSIZE in
      '(memory, s) ← new_zeroed s;
      let s := with_mem s (write_bytes (pmem s) memory 0 PGSIZE) in
      '(ok, s) ← map self cur_size memory PGSIZE user_perm s;
      if negb ok then
        '(_, m) ← uvm_dealloc self cur_size old_size (pmem s);
        Done (inl (with_mem s m))
      else Done (inr s)) s;
    match r with
    | inl s => Done (None, s)
    | inr s => Done (Some new_size, s)
    end.

Definition uvm_free (self size : Z) (m : mem) : outcome mem :=
  if 0 <? size then
    pa ← pg_round_up size;
    ppn ← udiv pa PGSIZE;
    uvm_unmap self 0 ppn true m
  else Done m.

(** One page of [uvm_copy]. *)
Definition uvm_copy_page (self child_pgt va : Z) (s : pstate H) :
    outcome (result unit * pstate H + pstate H) :=
  match translate self va (pmem s) with
  | Some pte =>
      if negb (is_valid (read_word (pmem s) pte)) then Panic "uvmcopy(): page not present"
      else
        let page_table := as_pagetable (read_word (pmem s) pte) in
        let flags := as_flags (read_word (pmem s) pte) in
        '(allocated_pgt, s) ← new_zeroed s;
        m ← pt_write allocated_pgt page_table (pmem s);
        '(ok, s) ← map child_pgt va allocated_pgt PGSIZE flags (with_mem s m);
        if negb ok then
          n ← udiv va PGSIZE;
          m ← uvm_unmap child_pgt 0 n true (pmem s);
          Done (inl (Err "uvmcopy: Fail.", with_mem s m))
        else Done (inr s)
  | None => Panic "uvmcopy: No exist pte(pte should exist)"
  end.

(** [uvm_copy] stops only when [va] hits [size] exactly; for a size that is not
    a multiple of the page size the loop ends in a panic at the first page that
    is not mapped, at the latest above [MAXVA]. *)
Definition uvm_copy (self child_pgt size : Z) (s : pstate H) :
    outcome (result unit * pstate H) :=
  while_fuel (S (S (Z.to_nat (if size mod PGSIZE =? 0 then size / PGSIZE else MAXVA / PGSIZE)))) (λ '(va, s),
    if negb (va =? size) then
      r ← uvm_copy_page self child_pgt va s;
      match r with
      | inl e => Done (inl e)
      | inr s =>
          va ← add_page va;
          Done (inr (va, s))
      end
    else Done (inl (Ok tt, s))) (0, s).

Definition uvm_clear (self va : Z) (m : mem) : outcome mem :=
  match translate self va m with
  | Some pte => Done (write_word m pte (rm_user_bit (read_word m pte)))
  | None => Panic "uvmclear(): Not found valid pte for virtualaddress"
  end.

(** ** Copying between user and kernel memory *)

Definition unwrap_none : string := "called `Option::unwrap()` on a `None` value".

Definition copy_out (self dst src len : Z) (m : mem) : outcome (result unit * mem) :=
  let va := pg_round_down dst in
  d ← usub dst va;
  count ← usub PGSIZE d;
  pa ← unwrap unwrap_none (pgt_translate self va m);
  d ← usub dst va;
  let dst_ptr := pa + d in
  while_fuel (S (S (Z.to_nat (len / PGSIZE)))) (λ '(len, count, offset, va, dst_ptr, m),
    if len <? count then
      let count := len in
      Done (inl (Ok tt, copy_bytes m dst_ptr (src + offset) count))
    else
      let m := copy_bytes m dst_ptr (src + offset) count in
      len ← usub len count;
      offset ← uadd offset count;
      va ← add_page va;
      pa ← unwrap unwrap_none (pgt_translate self va m);
      let count := PGSIZE in
      let dst_ptr := pa in
      Done (inr (len, count, offset, va, dst_ptr, m))) (len, count, 0, va, dst_ptr, m).

Definition copy_in (self dst src len : Z) (m : mem) : outcome (result unit * mem) :=
  let va := pg_round_down src in
  while_fuel (S (S (Z.to_nat (len / PGSIZE)))) (λ '(dst, len, va, m),
    pa ← unwrap unwrap_none (pgt_translate self va m);
    d ← usub src va;
    count ← usub PGSIZE d;
    if len <? count then
      d ← usub src va;
      s ← uadd pa d;
      m ← Misc.mem_copy m dst s len;
      Done (inl (Ok tt, m))
    else
      d ← usub src va;
      s ← uadd pa d;
      m ← Misc.mem_copy m dst s count;
      len ← usub len count;
      let dst := dst + count in
      va ← add_page va;
      Done (inr (dst, len, va, m))) (dst, len, va, m).

(** Copy up to [n] bytes, stopping at a zero byte: [inl] when one is found. *)
Definition copy_str_bytes (dst s n : Z) (m : mem) : outcome (mem + mem) :=
  for_range_until 0 n (λ i m,
    let val := read_byte m (s + i) in
    if val =? 0 then Done (inl m)
    else Done (inr (write_byte m (dst + i) val))) m.

Definition copy_in_str (self dst src max : Z) (m : mem) : outcome (result unit * mem) :=
  let va := pg_round_down src in
  while_fuel (S (S (Z.to_nat (max / PGSIZE)))) (λ '(max, va, m),
    pa ← unwrap unwrap_none (pgt_translate self va m);
    d ← usub src va;
    count ← usub PGSIZE d;
    d ← usub src va;
    s ← uadd pa d;
    if max <? count then
      r ← copy_str_bytes dst s max m;
      match r with inl m | inr m => Done (inl (Ok tt, m)) end
    else
      r ← copy_str_bytes dst s count m;
      match r with
      | inl m => Done (inl (Ok tt, m))
      | inr m =>
          max ← usub max count;
          va ← add_page va;
          Done (inr (max, va, m))
      end) (max, va, m).

Definition proc_free_pagetable (self size : Z) (m : mem) : outcome mem :=
  m ← uvm_unmap self TRAMPOLINE 1 false m;
  m ← uvm_unmap self TRAPFRAME 1 false m;
  uvm_free self size m.
End Tables.
