(* ===== verification/PageTableSpec.v ===== *)
(** * Correctness of the page-table operations

    The tables reachable from a root form a tree of distinct pages
    ([pt_inv]); [mapping] is the function from virtual pages to valid entries
    that the tree represents.  The lemmas show that walking and extending the
    tree keep it and do not change what is mapped, and that [map] changes the
    mapping of exactly the pages of its range. *)

From Stdlib Require Import ZArith Lia.
From stdpp Require Import base gmap strings numbers list.
From S2P Require Import Prelude Address Pte PhysMem PageTable.

Local Open Scope Z_scope.

(** ** The promise of the page allocator *)

Definition alloc_error : string := "alloc error".

(** A page-aligned address of a page of memory, away from address 0.  Physical
    addresses have 56 bits. *)
Definition page_ok (p : Z) : Prop := p mod PGSIZE = 0 ∧ 0 < p ∧ p + PGSIZE ≤ 2 ^ 56.

Class PageSourceLaws (H : Type) `{PageSource H} := {
  ps_inv : H → Prop;
  (** the page is in use *)
  ps_page : H → Z → Prop;
  new_page_ok h : ps_inv h →
    new_page h = Panic alloc_error ∨
    ∃ p h', new_page h = Done (p, h') ∧ ps_inv h' ∧ page_ok p ∧ ¬ ps_page h p ∧
      ∀ q, q mod PGSIZE = 0 → ps_page h' q ↔ ps_page h q ∨ q = p;
}.

Definition in_page (p x : Z) : Prop := p ≤ x < p + PGSIZE.

(** ** The tree of tables *)

(** The table reached through a path of indices. *)
Fixpoint tbl_at (m : mem) (pt : Z) (path : list Z) : option Z :=
  match path with
  | [] => Some pt
  | i :: rest =>
      let pte := read_word m (entry pt i) in
      if is_valid pte then tbl_at m (as_pagetable pte) rest else None
  end.

Definition index_ok (i : Z) : Prop := 0 ≤ i < 512.

(** An entry without permissions: it points to the next table. *)
Definition pointer (e : Z) : bool := negb (Z.testbit e 1 || Z.testbit e 2 || Z.testbit e 3).

(** A path to a table of the Sv39 scheme. *)
Definition path_ok (path : list Z) : Prop := (length path ≤ 2)%nat ∧ Forall index_ok path.

(** The valid entry of a virtual address. *)
Definition mapping (m : mem) (root va : Z) : option Z :=
  pt ← tbl_at m root [page_num va 2; page_num va 1];
  let pte := read_word m (entry pt (page_num va 0)) in
  if is_valid pte then Some pte else None.

Lemma with_mem_id {H} (s : pstate H) : with_mem s (pmem s) = s.
Proof. by destruct s. Qed.

Lemma entry_in_page p i : page_ok p → index_ok i → p ≤ entry p i ∧ entry p i + 8 ≤ p + PGSIZE.
Proof. unfold page_ok, index_ok, entry, PGSIZE. lia. Qed.

(** Entries of aligned tables do not overlap. *)
Lemma entry_disjoint p i p' i' :
  page_ok p → page_ok p' → index_ok i → index_ok i' → ¬ (p = p' ∧ i = i') →
  entry p i + 8 ≤ entry p' i' ∨ entry p' i' + 8 ≤ entry p i.
Proof. unfold page_ok, index_ok, entry, PGSIZE. intros. divlia. Qed.

Lemma in_page_unique p q x : page_ok p → page_ok q → in_page p x → in_page q x → p = q.
Proof. unfold page_ok, in_page, PGSIZE. intros. divlia. Qed.

Lemma tbl_at_app m pt path path' :
  tbl_at m pt (path ++ path') = (p ← tbl_at m pt path; tbl_at m p path').
Proof. revert pt. induction path as [|i path IH]; intros pt; simpl; [done|]. by destruct (is_valid _). Qed.

(** A path only depends on the entries it goes through. *)
Lemma tbl_at_ext m m' pt path :
  (∀ path1 i path2 p, path = path1 ++ i :: path2 → tbl_at m pt path1 = Some p →
     read_word m' (entry p i) = read_word m (entry p i)) →
  tbl_at m' pt path = tbl_at m pt path.
Proof.
  revert pt. induction path as [|i path IH]; intros pt Hext; simpl; [done|].
  rewrite (Hext [] i path pt) by done. destruct (is_valid _) eqn:Hv; [|done].
  apply IH. intros path1 j path2 p -> Hp. apply (Hext (i :: path1) j path2 p); [done|].
  simpl. by rewrite Hv.
Qed.

Section Spec.
Context {BFl : BitFlags} {BFlL : BitFlagsLaws} {H : Type} {PS : PageSource H} {PSL : PageSourceLaws H}.

Record pt_inv (m : mem) (root : Z) (h : H) : Prop := {
  pi_table path p : path_ok path → tbl_at m root path = Some p → page_ok p ∧ ps_page h p;
  pi_inj path path' p : path_ok path → path_ok path' →
    tbl_at m root path = Some p → tbl_at m root path' = Some p → path = path';
  pi_pointer path p i : path_ok (path ++ [i]) → tbl_at m root path = Some p →
    is_valid (read_word m (entry p i)) = true → pointer (read_word m (entry p i)) = true;
}.

(** The page is one of the tables. *)
Definition table_of (m : mem) (root p : Z) : Prop :=
  ∃ path, path_ok path ∧ tbl_at m root path = Some p.

Lemma path_ok_prefix path1 path2 : path_ok (path1 ++ path2) → path_ok path1.
Proof. intros [Hl Hf]. rewrite length_app in Hl. apply Forall_app in Hf as [? _]. split; [lia|done]. Qed.

Lemma path_ok_index path1 i path2 : path_ok (path1 ++ i :: path2) → index_ok i.
Proof. intros [_ Hf]. apply Forall_app in Hf as [_ Hf]. by inversion Hf. Qed.

(** ** Writing an entry of a last-level table *)

Lemma tbl_at_write_leaf m root h path p i w path' :
  pt_inv m root h → path_ok path → length path = 2%nat → tbl_at m root path = Some p → index_ok i →
  path_ok path' → tbl_at (write_word m (entry p i) w) root path' = tbl_at m root path'.
Proof.
  intros Hi Hp Hl Hp2 Hx Hp'. apply tbl_at_ext. intros path1 j path2 q -> Hq.
  pose proof (path_ok_prefix _ _ Hp') as Hp1. pose proof (path_ok_index _ _ _ Hp') as Hj.
  destruct (pi_table _ _ _ Hi _ _ Hp Hp2) as [Hpo _]. destruct (pi_table _ _ _ Hi _ _ Hp1 Hq) as [Hqo _].
  apply read_word_write_ne, entry_disjoint; [done..|]. intros [-> ->].
  pose proof (pi_inj _ _ _ Hi _ _ _ Hp Hp1 Hp2 Hq) as ->.
  destruct Hp' as [Hl' _]. rewrite length_app in Hl'. simpl in Hl'. lia.
Qed.

Lemma pt_inv_write_leaf m root h path p i w :
  pt_inv m root h → path_ok path → length path = 2%nat → tbl_at m root path = Some p → index_ok i →
  pt_inv (write_word m (entry p i) w) root h.
Proof.
  intros Hi Hp Hl Hp2 Hx. constructor.
  - intros path' q Hp'. rewrite (tbl_at_write_leaf m root h path) by done. by apply (pi_table _ _ _ Hi).
  - intros path1 path2 q H1 H2. rewrite !(tbl_at_write_leaf m root h path) by done. by apply (pi_inj _ _ _ Hi).
  - intros path' q j Hok. pose proof (path_ok_prefix _ _ Hok) as Hp'. pose proof (path_ok_index _ _ _ Hok) as Hj.
    rewrite (tbl_at_write_leaf m root h path) by done. intros Hq.
    destruct (pi_table _ _ _ Hi _ _ Hp Hp2) as [Hpo _]. destruct (pi_table _ _ _ Hi _ _ Hp' Hq) as [Hqo _].
    rewrite read_word_write_ne; [by apply (pi_pointer _ _ _ Hi path')|]. apply entry_disjoint; [done..|]. intros [-> ->].
    pose proof (pi_inj _ _ _ Hi _ _ _ Hp Hp' Hp2 Hq) as ->. destruct Hok as [Hl' _]. rewrite length_app in Hl'. simpl in Hl'. lia.
Qed.

Lemma va_path va : path_ok [page_num va 2; page_num va 1].
Proof. split; [simpl; lia|]. repeat constructor; by apply page_num_range. Qed.

Lemma mapping_page m root va va' : page_of va = page_of va' → mapping m root va = mapping m root va'.
Proof. intros Heq. unfold mapping. by rewrite !(page_num_cong va va') by (done || lia). Qed.

Lemma mapping_write_leaf m root h va p w va' :
  pt_inv m root h → 0 ≤ va < 2 ^ 39 → 0 ≤ va' < 2 ^ 39 →
  tbl_at m root [page_num va 2; page_num va 1] = Some p → 0 ≤ w < 2 ^ 64 → is_valid w = true →
  mapping (write_word m (entry p (page_num va 0)) w) root va' =
  if decide (page_of va' = page_of va) then Some w else mapping m root va'.
Proof.
  intros Hi Hva Hva' Hp Hw Hv. pose proof (page_num_range va 0 ltac:(lia)) as Hx.
  pose proof (page_num_range va' 0 ltac:(lia)) as Hx'. unfold mapping.
  rewrite (tbl_at_write_leaf m root h [page_num va 2; page_num va 1]) by (done || apply va_path).
  destruct (tbl_at m root [page_num va' 2; page_num va' 1]) as [q|] eqn:Hq; simpl.
  - destruct (pi_table _ _ _ Hi _ _ (va_path va) Hp) as [Hpo _].
    destruct (pi_table _ _ _ Hi _ _ (va_path va') Hq) as [Hqo _].
    destruct (decide (p = q ∧ page_num va 0 = page_num va' 0)) as [[<- E0]|Hne].
    + pose proof (pi_inj _ _ _ Hi _ _ _ (va_path va) (va_path va') Hp Hq) as Heq. injection Heq as E2 E1.
      rewrite decide_True by (symmetry; by apply page_num_inj).
      rewrite <- E0, read_word_write by done. by rewrite Hv.
    + rewrite read_word_write_ne by (by apply entry_disjoint). case_decide as Hd; [|done]. exfalso.
      apply Hne. assert (page_num va' 2 = page_num va 2 ∧ page_num va' 1 = page_num va 1 ∧
        page_num va' 0 = page_num va 0) as (E2 & E1 & E0).
      { split_and!; apply page_num_cong; (done || lia). }
      rewrite E2, E1, Hp in Hq. injection Hq as ->. done.
  - case_decide as Hd; [|done]. exfalso.
    assert (page_num va' 2 = page_num va 2 ∧ page_num va' 1 = page_num va 1) as (E2 & E1).
    { split; apply page_num_cong; (done || lia). }
    rewrite E2, E1, Hp in Hq. done.
Qed.

(** ** Adding a table *)

Lemma zero_page_other m q x : ¬ in_page q x → write_bytes m q 0 PGSIZE x = m x.
Proof.
  unfold in_page, write_bytes. intros Hx.
  destruct (Z.leb_spec q x), (Z.ltb_spec x (q + PGSIZE)); simpl; try done; lia.
Qed.

Lemma read_zero_page m q a : q ≤ a → a + 8 ≤ q + PGSIZE → read_word (write_bytes m q 0 PGSIZE) a = 0.
Proof.
  intros H1 H2. transitivity (read_word (λ _, 0) a); [|done]. apply read_word_ext.
  intros x Hx. unfold write_bytes. destruct (Z.leb_spec q x), (Z.ltb_spec x (q + PGSIZE)); simpl; try done; lia.
Qed.

Section NewTable.
Context (m : mem) (root : Z) (h h' : H) (path : list Z) (p i q w : Z).
Context (Hinv : pt_inv m root h) (Hpath : path_ok (path ++ [i])).
Context (Hp : tbl_at m root path = Some p) (Hfree : is_valid (read_word m (entry p i)) = false).
Context (Hq : page_ok q) (Hnew : ¬ ps_page h q).
Context (Hh' : ∀ x, x mod PGSIZE = 0 → ps_page h' x ↔ ps_page h x ∨ x = q).
Context (Hw : 0 ≤ w < 2 ^ 64) (Hwv : is_valid w = true) (Hwq : as_pagetable w = q) (Hwp : pointer w = true).

Definition linked : mem := write_word (write_bytes m q 0 PGSIZE) (entry p i) w.

Lemma old_table path' r : path_ok path' → tbl_at m root path' = Some r → page_ok r ∧ r ≠ q.
Proof.
  intros Hp' Hr. destruct (pi_table _ _ _ Hinv _ _ Hp' Hr) as [Hok Hps]. split; [done|]. by intros ->.
Qed.

Lemma p_ok : page_ok p ∧ p ≠ q ∧ index_ok i.
Proof.
  destruct (old_table path p) as [? ?]; [by apply path_ok_prefix in Hpath|done|].
  split_and!; [done|done|by apply path_ok_index in Hpath].
Qed.

(** Entries of the old tables, other than the one written, keep their value. *)
Lemma linked_old r j :
  page_ok r → r ≠ q → index_ok j → ¬ (r = p ∧ j = i) →
  read_word linked (entry r j) = read_word m (entry r j).
Proof.
  intros Hr Hrq Hj Hne. destruct p_ok as (Hpo & _ & Hi). unfold linked.
  rewrite read_word_write_ne by (apply entry_disjoint; [done..|]; naive_solver).
  apply read_word_ext. intros x Hx. apply zero_page_other. intros Hin.
  pose proof (entry_in_page r j Hr Hj). apply Hrq. apply (in_page_unique r q x); [done..| |done].
  unfold in_page. lia.
Qed.

Lemma linked_new j : index_ok j → read_word linked (entry q j) = 0.
Proof.
  intros Hj. destruct p_ok as (Hpo & Hpq & Hi). unfold linked.
  rewrite read_word_write_ne by (apply entry_disjoint; [done..|]; naive_solver).
  pose proof (entry_in_page q j Hq Hj). apply read_zero_page; lia.
Qed.

Lemma tbl_at_linked_old path' :
  path_ok path' → ¬ (path ++ [i]) `prefix_of` path' → tbl_at linked root path' = tbl_at m root path'.
Proof.
  intros Hp' Hnp. apply tbl_at_ext. intros path1 j path2 r -> Hr.
  pose proof (path_ok_prefix _ _ Hp') as Hp1. pose proof (path_ok_index _ _ _ Hp') as Hj.
  destruct (old_table path1 r Hp1 Hr) as [Hro Hrq]. apply linked_old; [done..|]. intros [-> ->].
  pose proof (path_ok_prefix _ _ Hpath) as Hpp.
  pose proof (pi_inj _ _ _ Hinv _ _ _ Hpp Hp1 Hp Hr) as ->. apply Hnp. exists path2. by rewrite <- app_assoc.
Qed.

Lemma tbl_at_linked_new rest :
  path_ok (path ++ i :: rest) →
  tbl_at linked root (path ++ i :: rest) = match rest with [] => Some q | _ => None end.
Proof.
  intros Hok. destruct p_ok as (Hpo & Hpq & Hi). rewrite tbl_at_app, tbl_at_linked_old; cycle 1.
  - by apply path_ok_prefix in Hpath.
  - intros [k Hk]. apply (f_equal length) in Hk. rewrite !length_app in Hk. simpl in Hk. lia.
  - rewrite Hp. simpl.
    assert (read_word linked (entry p i) = w) as -> by (by apply read_word_write). rewrite Hwv, Hwq.
    destruct rest as [|j rest]; [done|]. simpl. rewrite linked_new; [done|].
    destruct Hok as [_ Hf]. apply Forall_app in Hf as [_ Hf]. inversion Hf as [|? ? ? Hf2]. by inversion Hf2.
Qed.

Lemma linked_cases path' :
  path_ok path' →
  (path' = path ++ [i] ∧ tbl_at linked root path' = Some q) ∨
  ((∃ j rest, path' = path ++ i :: j :: rest) ∧ tbl_at linked root path' = None) ∨
  (¬ (path ++ [i]) `prefix_of` path' ∧ tbl_at linked root path' = tbl_at m root path').
Proof.
  intros Hp'. destruct (decide ((path ++ [i]) `prefix_of` path')) as [[rest ->]|Hn].
  - rewrite <- app_assoc in *. simpl in *. rewrite tbl_at_linked_new by done.
    destruct rest as [|j rest]; [by left|]. right. left. eauto.
  - right. right. split; [done|]. by apply tbl_at_linked_old.
Qed.

Lemma linked_inv : pt_inv linked root h'.
Proof.
  constructor.
  - intros path' r Hp' Hr. destruct (linked_cases path' Hp') as [[_ E]|[[_ E]|[_ E]]]; rewrite E in Hr.
    + injection Hr as <-. split; [done|]. apply Hh'; [apply Hq|by right].
    + done.
    + destruct (pi_table _ _ _ Hinv _ _ Hp' Hr) as [Hok Hps]. split; [done|]. apply Hh'; [apply Hok|by left].
  - intros path1 path2 r H1 H2 Hr1 Hr2.
    destruct (linked_cases path1 H1) as [[-> E1]|[[_ E1]|[_ E1]]]; rewrite E1 in Hr1; [|done|];
    destruct (linked_cases path2 H2) as [[-> E2]|[[_ E2]|[_ E2]]]; rewrite E2 in Hr2; try done.
    + injection Hr1 as <-. by destruct (old_table path2 q H2 Hr2).
    + injection Hr2 as <-. by destruct (old_table path1 q H1 Hr1).
    + by apply (pi_inj _ _ _ Hinv path1 path2 r).
  - intros path' r j Hok Hr. pose proof (path_ok_prefix _ _ Hok) as Hp'. pose proof (path_ok_index _ _ _ Hok) as Hj.
    destruct (linked_cases path' Hp') as [[_ E]|[[_ E]|[_ E]]]; rewrite E in Hr; [|done|].
    + injection Hr as <-. by rewrite linked_new.
    + destruct (decide (r = p ∧ j = i)) as [[-> ->]|Hne].
      { assert (read_word linked (entry p i) = w) as -> by (by apply read_word_write). done. }
      destruct (old_table path' r Hp' Hr) as [Hro Hrq]. rewrite linked_old by done. by apply (pi_pointer _ _ _ Hinv path').
Qed.

Lemma linked_mapping va : mapping linked root va = mapping m root va.
Proof.
  pose proof (va_path va) as Hv. unfold mapping.
  pose proof (page_num_range va 0 ltac:(lia)) as H0.
  assert (∀ rest, [page_num va 2; page_num va 1] = path ++ i :: rest →
    tbl_at m root [page_num va 2; page_num va 1] = None) as Hold.
  { intros rest ->. rewrite tbl_at_app, Hp. simpl. by rewrite Hfree. }
  destruct (linked_cases _ Hv) as [[Heq E]|[[(j & rest & Heq) E]|[Hn E]]]; rewrite E.
  - rewrite (Hold [] Heq). simpl. by rewrite linked_new by done.
  - by rewrite (Hold (j :: rest) Heq).
  - destruct (tbl_at m root [page_num va 2; page_num va 1]) as [r|] eqn:Hr; simpl; [|done].
    destruct (old_table _ r Hv Hr) as [Hro Hrq]. rewrite linked_old; [done..|]. intros [-> _].
    pose proof (path_ok_prefix _ _ Hpath) as Hpp.
    pose proof (pi_inj _ _ _ Hinv _ _ _ Hpp Hv Hp Hr) as ->. destruct Hpath as [Hl _]. simpl in Hl. lia.
Qed.

(** Only the new page and the tables are written. *)
Lemma linked_frame x : ¬ in_page q x → ¬ in_page p x → linked x = m x.
Proof.
  intros H1 H2. destruct p_ok as (Hpo & _ & Hi). pose proof (entry_in_page p i Hpo Hi). unfold linked.
  rewrite write_word_other by (unfold in_page in *; lia). by apply zero_page_other.
Qed.
End NewTable.

(** ** Walking and extending the tree *)

(** What every operation on a page table leaves behind: a tree with the old
    tables and possibly some that were fresh, and memory that is unchanged
    outside of the tables. *)
Record extends (root : Z) (s s' : pstate H) : Prop := {
  ex_inv : pt_inv (pmem s') root (pheap s');
  ex_heap : ps_inv (pheap s');
  ex_tables q : table_of (pmem s) root q → table_of (pmem s') root q;
  ex_fresh q : table_of (pmem s') root q → table_of (pmem s) root q ∨ ¬ ps_page (pheap s) q;
  ex_pages q : q mod PGSIZE = 0 → ps_page (pheap s) q → ps_page (pheap s') q;
  ex_frame x : (∀ q, table_of (pmem s') root q → ¬ in_page q x) → pmem s' x = pmem s x;
}.

Lemma extends_refl root s : pt_inv (pmem s) root (pheap s) → ps_inv (pheap s) → extends root s s.
Proof. intros. constructor; try done. by left. Qed.

Lemma extends_trans root s1 s2 s3 : extends root s1 s2 → extends root s2 s3 → extends root s1 s3.
Proof.
  intros H1 H2. constructor; [apply H2|apply H2|..].
  - intros q Hq. by apply (ex_tables _ _ _ H2), (ex_tables _ _ _ H1).
  - intros q Hq. destruct (ex_fresh _ _ _ H2 q Hq) as [Hq2|Hn]; [by apply (ex_fresh _ _ _ H1)|].
    right. intros Hp. apply Hn. apply (ex_pages _ _ _ H1); [|done].
    destruct Hq as (path & Hok & Hat). by apply (pi_table _ _ _ (ex_inv _ _ _ H2) path q Hok Hat).
  - intros q Hq Hp. apply (ex_pages _ _ _ H2); [done|]. by apply (ex_pages _ _ _ H1).
  - intros x Hx. rewrite (ex_frame _ _ _ H2) by done. apply (ex_frame _ _ _ H1).
    intros q Hq. by apply Hx, (ex_tables _ _ _ H2).
Qed.

Lemma table_word p : page_ok p →
  let w := Z.lor (shl64 (Z.shiftr p 12) 10) PTE_V in
  0 ≤ w < 2 ^ 64 ∧ is_valid w = true ∧ as_pagetable w = p ∧ pointer w = true.
Proof.
  intros (Hal & H0 & Hlt) w. unfold PGSIZE in *.
  assert (w = leaf_pte p 0) as ->.
  { unfold w. fold (as_pte p). rewrite as_pte_ok by lia. unfold leaf_pte, PTE_V.
    by rewrite lor_disjoint by lia. }
  destruct (leaf_pte_fields p 0) as (? & ? & _ & ?); unfold PGSIZE; [lia|done|lia|]. split; [lia|]. split; [done|]. split; [done|].
  unfold pointer. by rewrite !leaf_pte_bit by lia.
Qed.

Lemma step_or_alloc_ok root va l path p s :
  pt_inv (pmem s) root (pheap s) → ps_inv (pheap s) → 0 ≤ l →
  path_ok (path ++ [page_num va l]) → tbl_at (pmem s) root path = Some p →
  step_or_alloc va l (p, s) = Panic alloc_error ∨
  ∃ p' s', step_or_alloc va l (p, s) = Done (p', s') ∧ extends root s s' ∧
    (∀ va', mapping (pmem s') root va' = mapping (pmem s) root va') ∧
    tbl_at (pmem s') root (path ++ [page_num va l]) = Some p'.
Proof.
  intros Hinv Hps Hl Hpath Hp. unfold step_or_alloc. set (i := page_num va l) in *.
  destruct (is_valid (read_word (pmem s) (entry p i))) eqn:Hv.
  { right. eexists _, s. split; [done|]. split; [by apply extends_refl|]. split; [done|].
    rewrite tbl_at_app, Hp. simpl. by rewrite Hv. }
  unfold new_zeroed. destruct (new_page_ok (pheap s) Hps) as [->|(q & h' & -> & Hps' & Hq & Hnew & Hh')]; [by left|].
  right. simpl. destruct (table_word q Hq) as (Hw & Hwv & Hwq & Hwp).
  set (w := Z.lor (shl64 (Z.shiftr q 12) 10) PTE_V) in *.
  assert (with_mem (mkP (write_bytes (pmem s) q 0 PGSIZE) h')
    (write_word (write_bytes (pmem s) q 0 PGSIZE) (entry p i) w) =
    mkP (linked (pmem s) p i q w) h') as -> by done.
  assert (∀ path', path_ok path' → (path' = path ++ [i] ∧ tbl_at (linked (pmem s) p i q w) root path' = Some q) ∨
    ((∃ j rest, path' = path ++ i :: j :: rest) ∧ tbl_at (linked (pmem s) p i q w) root path' = None) ∨
    (¬ (path ++ [i]) `prefix_of` path' ∧
     tbl_at (linked (pmem s) p i q w) root path' = tbl_at (pmem s) root path')) as Hcases
    by (intros; by eapply linked_cases).
  assert (tbl_at (pmem s) root (path ++ [i]) = None) as Hnone.
  { rewrite tbl_at_app, Hp. simpl. by rewrite Hv. }
  assert (tbl_at (linked (pmem s) p i q w) root (path ++ [i]) = Some q) as Hat.
  { destruct (Hcases _ Hpath) as [[_ ?]|[[(j & rest & Heq) _]|[Hn _]]]; [done| |by destruct Hn].
    by apply app_inv_head in Heq. }
  assert (tbl_at (linked (pmem s) p i q w) root path = Some p) as Hat'.
  { destruct (Hcases path) as [[Heq _]|[[(j & rest & Heq) _]|[_ ->]]]; [by apply path_ok_prefix in Hpath| | |done];
      apply (f_equal length) in Heq; rewrite length_app in Heq; simpl in Heq; lia. }
  eexists _, _. split; [done|]. simpl. split; [constructor; simpl|split; [|done]].
  - by eapply linked_inv.
  - done.
  - intros r (path' & Hok & Hr). exists path'. split; [done|].
    destruct (Hcases path' Hok) as [[-> E]|[[(j & rest & ->) E]|[_ E]]]; [congruence| |by rewrite E].
    rewrite tbl_at_app, Hp in Hr. simpl in Hr. by rewrite Hv in Hr.
  - intros r (path' & Hok & Hr). destruct (Hcases path' Hok) as [[-> E]|[[_ E]|[_ E]]]; rewrite E in Hr.
    + right. by injection Hr as <-.
    + done.
    + left. by exists path'.
  - intros r Hal Hr. apply Hh'; [done|by left].
  - intros x Hx. eapply linked_frame; [done..| |]; apply Hx; [by exists (path ++ [i])|].
    exists path. by apply path_ok_prefix in Hpath.
  - intros va'. by eapply linked_mapping.
Qed.

Lemma translate_or_alloc_ok root va s :
  pt_inv (pmem s) root (pheap s) → ps_inv (pheap s) → va ≤ MAXVA →
  translate_or_alloc root va s = Panic alloc_error ∨
  ∃ pt s', translate_or_alloc root va s = Done (entry pt (page_num va 0), s') ∧ extends root s s' ∧
    (∀ va', mapping (pmem s') root va' = mapping (pmem s) root va') ∧
    tbl_at (pmem s') root [page_num va 2; page_num va 1] = Some pt.
Proof.
  intros Hinv Hps Hva. unfold translate_or_alloc. destruct (Z.ltb_spec MAXVA va); [lia|].
  cbn [for_each]. destruct (step_or_alloc_ok root va 2 [] root s) as [->|(p1 & s1 & -> & He1 & Hm1 & Hp1)];
    [done|done|lia| |done|by left|].
  { split; [simpl; lia|]. repeat constructor; by apply page_num_range. }
  cbn [mbind outcome_bind].
  destruct (step_or_alloc_ok root va 1 [page_num va 2] p1 s1) as [->|(p2 & s2 & -> & He2 & Hm2 & Hp2)];
    [apply He1|apply He1|lia|apply va_path|done|by left|].
  right. simpl. exists p2, s2. split; [done|]. split; [by eapply extends_trans|].
  split; [|done]. intros va'. by rewrite Hm2.
Qed.

(** Mapping one page. *)
Lemma map_page_ok root va pa perm s :
  pt_inv (pmem s) root (pheap s) → ps_inv (pheap s) → 0 ≤ va ≤ MAXVA → va < 2 ^ 39 →
  0 ≤ pa < 2 ^ 64 → 0 ≤ perm < 2 ^ 10 →
  map_page root va pa perm s = Panic alloc_error ∨
  (map_page root va pa perm s = Panic "remap" ∧ mapping (pmem s) root va ≠ None) ∨
  ∃ s', map_page root va pa perm s = Done s' ∧ extends root s s' ∧ mapping (pmem s) root va = None ∧
    ∀ va', 0 ≤ va' < 2 ^ 39 → mapping (pmem s') root va' =
      if decide (page_of va' = page_of va) then Some (leaf_pte pa perm) else mapping (pmem s) root va'.
Proof.
  intros Hinv Hps Hva Hva2 Hpa Hperm. unfold map_page.
  destruct (translate_or_alloc_ok root va s) as [->|(pt & s1 & -> & He & Hm & Hpt)]; [done|done|lia|by left|].
  right. cbn [mbind outcome_bind].
  assert (mapping (pmem s) root va = if is_valid (read_word (pmem s1) (entry pt (page_num va 0)))
    then Some (read_word (pmem s1) (entry pt (page_num va 0))) else None) as Hmva.
  { rewrite <- Hm. unfold mapping. by rewrite Hpt. }
  destruct (is_valid (read_word (pmem s1) (entry pt (page_num va 0)))) eqn:Hv.
  { left. split; [done|]. by rewrite Hmva. }
  right. eexists. split; [done|]. rewrite write_perm_ok by done.
  pose proof (page_num_range va 0 ltac:(lia)) as H0.
  destruct (leaf_word pa perm Hpa Hperm) as [Hw Hwv].
  destruct (pi_table _ _ _ (ex_inv _ _ _ He) _ _ (va_path va) Hpt) as [Hpto _].
  assert (extends root s1 (with_mem s1 (write_word (pmem s1) (entry pt (page_num va 0)) (leaf_pte pa perm)))) as He'.
  { assert (∀ q, table_of (write_word (pmem s1) (entry pt (page_num va 0)) (leaf_pte pa perm)) root q ↔
      table_of (pmem s1) root q) as Ht.
    { intros q. split; intros (path & Hok & Hq); exists path; (split; [done|]); revert Hq;
        rewrite (tbl_at_write_leaf _ _ (pheap s1) [page_num va 2; page_num va 1]) by (done || apply He || apply va_path); done. }
    constructor; simpl.
    - by eapply pt_inv_write_leaf; [apply He|apply va_path|..].
    - apply He.
    - intros q. by rewrite Ht.
    - intros q. rewrite Ht. by left.
    - done.
    - intros x Hx. apply write_word_other. intros Hin. apply (Hx pt);
        [apply Ht; exists [page_num va 2; page_num va 1]; split; [apply va_path|done]|].
      pose proof (entry_in_page pt _ Hpto H0). unfold in_page. lia. }
  split; [by eapply extends_trans|]. split; [done|]. intros va' Hva'. simpl.
  rewrite (mapping_write_leaf _ _ (pheap s1)) by (done || lia || apply He). by rewrite Hm.
Qed.

(** The virtual address lies in one of the pages [map] goes through. *)
Definition in_range (va size va' : Z) : Prop := page_of va ≤ va' < page_of (va + size + PGSIZE - 1).

Global Instance in_range_dec va size va' : Decision (in_range va size va').
Proof. unfold in_range. apply _. Defined.

(** [map] maps the pages of its range one after the other, or panics when it
    runs out of memory or one of them is mapped already. *)
Lemma map_ok root va pa size perm s :
  pt_inv (pmem s) root (pheap s) → ps_inv (pheap s) →
  0 ≤ va → 0 ≤ size → va + size ≤ MAXVA → 0 ≤ pa →
  pa + (page_of (va + size + PGSIZE - 1) - page_of va) < 2 ^ 64 → 0 ≤ perm < 2 ^ 10 →
  map root va pa size perm s = Panic alloc_error ∨
  (map root va pa size perm s = Panic "remap" ∧
     ∃ va', in_range va size va' ∧ mapping (pmem s) root va' ≠ None) ∨
  ∃ s', map root va pa size perm s = Done (true, s') ∧ extends root s s' ∧
    ∀ va', 0 ≤ va' < 2 ^ 39 → mapping (pmem s') root va' =
      if decide (in_range va size va') then Some (leaf_pte (pa + (page_of va' - page_of va)) perm)
      else mapping (pmem s) root va'.
Proof.
  intros Hinv Hps Hva Hsz Hmax Hpa Hpa2 Hperm.
  assert (MAXVA = 2 ^ 38) as Emax by done. rewrite Emax in *. unfold map.
  rewrite uadd_ok by lia. cbn [mbind outcome_bind].
  rewrite pg_round_down_ok by lia. rewrite pg_round_up_ok by (unfold PGSIZE in *; lia).
  cbn [mbind outcome_bind]. unfold in_range.
  set (a := page_of va) in *. set (last := page_of (va + size + PGSIZE - 1)) in *.
  assert (a ≤ last ∧ a mod PGSIZE = 0 ∧ last mod PGSIZE = 0 ∧ last ≤ 2 ^ 38 ∧ 0 ≤ a)
    as (Hal & Ham & Hlm & Hlmax & Ha0) by (unfold a, last, page_of, PGSIZE in *; divlia).
  set (Q := λ o : outcome (pstate H), o = Panic alloc_error ∨
    (o = Panic "remap" ∧ ∃ va', a ≤ va' < last ∧ mapping (pmem s) root va' ≠ None) ∨
    ∃ s', o = Done s' ∧ extends root s s' ∧ ∀ va', 0 ≤ va' < 2 ^ 39 → mapping (pmem s') root va' =
      if decide (a ≤ va' < last) then Some (leaf_pte (pa + (page_of va' - a)) perm)
      else mapping (pmem s) root va').
  match goal with |- context [while_fuel ?f ?b ?x] => assert (Q (while_fuel f b x)) as HQ end; cycle 1.
  { destruct HQ as [->|[(-> & Hex)|(s' & -> & Hs')]]; [by left|by right; left|]. right. right.
    exists s'. done. }
  apply (while_fuel_rule (λ '(v, p, s'), a ≤ v ≤ last ∧ v mod PGSIZE = 0 ∧ p = pa + (v - a) ∧
    extends root s s' ∧ ∀ va', 0 ≤ va' < 2 ^ 39 → mapping (pmem s') root va' =
      if decide (a ≤ va' < v) then Some (leaf_pte (pa + (page_of va' - a)) perm)
      else mapping (pmem s) root va') (λ '(v, _, _), (last - v) / PGSIZE)); cycle 1.
  { split_and!; [lia|lia|done|lia|by apply extends_refl|]. intros va' Hva'. by rewrite decide_False by lia. }
  { unfold PGSIZE in *. divlia. }
  { unfold PGSIZE in *. divlia. }
  intros [[v p] s1] (Hv & Hvm & -> & He & Hm). destruct (Z.eqb_spec v last) as [->|Hne]; simpl.
  { left. eexists. split; [done|]. right. right. by exists s1. }
  assert (v + PGSIZE ≤ last) as Hnext by (unfold PGSIZE in *; divlia).
  destruct (map_page_ok root v (pa + (v - a)) perm s1) as [->|[(-> & Hmap)|(s2 & -> & He2 & Hnone & Hm2)]];
    [apply He|apply He|unfold PGSIZE in *; lia..| | |].
  - right. left. eexists. split; [done|]. by left.
  - right. left. eexists. split; [done|]. right. left. split; [done|]. exists v. split; [lia|].
    rewrite Hm in Hmap by (unfold PGSIZE in *; lia). by rewrite decide_False in Hmap by lia.
  - right. right. right. simpl. unfold add_page, PGSIZE in *. rewrite uadd_ok by lia. simpl.
    rewrite uadd_ok by lia. simpl. eexists. split; [done|]. split; [|divlia].
    split_and!; [lia|lia|divlia|lia|by eapply extends_trans|].
    intros va' Hva'. rewrite Hm2, Hm by done. rewrite (page_of_aligned v) by done.
    pose proof (page_of_bounds va') as [Hb _]. pose proof (page_of_bounds va') as [_ Hbm]. unfold PGSIZE in *.
    case_decide as Hp.
    + rewrite decide_True by lia. do 2 f_equal. lia.
    + destruct (decide (a ≤ va' < v)); [by rewrite decide_True by lia|].
      rewrite decide_False; [done|]. intros ?. apply Hp. divlia.
Qed.
(** ** Trees that stay the same, and empty ones *)

Lemma table_page m root h q : pt_inv m root h → table_of m root q → page_ok q ∧ ps_page h q.
Proof. intros Hi (path & Hok & Hat). by apply (pi_table _ _ _ Hi path q). Qed.

(** Tables that keep their bytes keep their entries, and stay where they are. *)
Lemma tables_same m m' root h :
  pt_inv m root h → (∀ q x, table_of m root q → in_page q x → m' x = m x) →
  (∀ p i, table_of m root p → index_ok i → read_word m' (entry p i) = read_word m (entry p i)) ∧
  ∀ path, path_ok path → tbl_at m' root path = tbl_at m root path.
Proof.
  intros Hi Hsame.
  assert (∀ p i, table_of m root p → index_ok i → read_word m' (entry p i) = read_word m (entry p i)) as Hword.
  { intros p i Ht Hx. apply read_word_ext. intros x Hr. apply (Hsame p); [done|].
    destruct (table_page m root h p Hi Ht) as [Hpo _]. pose proof (entry_in_page p i Hpo Hx). unfold in_page. lia. }
  split; [done|]. intros path Hok. apply tbl_at_ext. intros path1 i path2 p -> Hp.
  apply Hword; [exists path1; split; [by eapply path_ok_prefix|done]|by eapply path_ok_index].
Qed.

(** A tree whose tables keep their bytes is the same tree. *)
Lemma tree_same m m' root h h' :
  pt_inv m root h → (∀ q x, table_of m root q → in_page q x → m' x = m x) →
  (∀ q, q mod PGSIZE = 0 → ps_page h q → ps_page h' q) →
  pt_inv m' root h' ∧ (∀ q, table_of m' root q ↔ table_of m root q) ∧ ∀ va, mapping m' root va = mapping m root va.
Proof.
  intros Hi Hsame Hpages. destruct (tables_same m m' root h Hi Hsame) as [Hword Hat].
  split; [constructor|split].
  - intros path p Hok. rewrite Hat by done. intros Hp. destruct (pi_table _ _ _ Hi path p Hok Hp) as [Hpo Hps].
    split; [done|]. apply Hpages; [apply Hpo|done].
  - intros path path' p H1 H2. rewrite !Hat by done. by apply (pi_inj _ _ _ Hi).
  - intros path p i Hok. pose proof (path_ok_prefix _ _ Hok) as Hp'. rewrite Hat by done. intros Hp.
    rewrite Hword; [by apply (pi_pointer _ _ _ Hi path)|by exists path|by eapply path_ok_index].
  - intros q. split; intros (path & Hok & Hp); exists path; (split; [done|]); [by rewrite <- Hat|by rewrite Hat].
  - intros va. unfold mapping. rewrite Hat by apply va_path.
    destruct (tbl_at m root [page_num va 2; page_num va 1]) as [p|] eqn:E; cbn [mbind option_bind]; [|done].
    rewrite Hword; [done| |by apply page_num_range]. eexists. split; [apply va_path|exact E].
Qed.

(** A table of zeros is a tree without mappings. *)
Lemma empty_tree m root h :
  page_ok root → ps_page h root → (∀ x, in_page root x → m x = 0) →
  pt_inv m root h ∧ (∀ q, table_of m root q → q = root) ∧ ∀ va, mapping m root va = None.
Proof.
  intros Hr Hu Hz.
  assert (∀ i, index_ok i → is_valid (read_word m (entry root i)) = false) as Hw.
  { intros i Hi. rewrite (read_word_ext m (λ _, 0)); [done|]. intros x Hx. apply Hz.
    pose proof (entry_in_page root i Hr Hi). unfold in_page. lia. }
  assert (∀ path p, path_ok path → tbl_at m root path = Some p → path = [] ∧ p = root) as Hat.
  { intros [|i path] p Hok; cbn [tbl_at]; [by intros [= <-]|]. rewrite Hw; [done|]. destruct Hok as [_ Hok]. by inversion Hok. }
  split; [constructor|split].
  - intros path p Hok Hp. by destruct (Hat path p Hok Hp) as [_ ->].
  - intros path path' p H1 H2 E1 E2. destruct (Hat _ _ H1 E1) as [-> _], (Hat _ _ H2 E2) as [-> _]. done.
  - intros path p i Hok Hp. destruct (Hat path p) as [-> ->]; [by eapply path_ok_prefix|done|].
    rewrite Hw; [done|by apply (path_ok_index [] i [])].
  - intros q (path & Hok & Hq). by apply (Hat path q).
  - intros va. unfold mapping. destruct (tbl_at m root _) as [p|] eqn:E; [|done]. by destruct (Hat _ _ (va_path va) E).
Qed.
End Spec.
