(* ===== verification/KernelHeap.v ===== *)
(** * The kernel heap

    Models [memory/kalloc.rs]: the global allocator is a [BuddySystem] behind a
    spinlock, which makes each call atomic; the state passed along is the one
    the lock protects.  [Box::new_zeroed] of a page asks for 4096 bytes with
    alignment 4096 and ends in [alloc_error_handler] when it gets null.  The
    instance at the end discharges the interface that page tables use. *)

From Stdlib Require Import ZArith Lia.
From stdpp Require Import base gmap strings numbers list.
From S2P Require Import Prelude BuddyList Buddy BuddyTree BuddyRep BuddySpec BuddyInit BuddyBoot Address PhysMem PageTable PageTableSpec.

Local Open Scope Z_scope.

Section Kalloc.
Context {BF : BitField}.

Definition alloc_error_handler {A} (layout : Layout) : outcome A := Panic alloc_error.

(** [GlobalAlloc::alloc] and [dealloc] of [KernelHeap]. *)
Definition heap_acquire_alloc (b : BuddySystem) (layout : Layout) : outcome (Z * BuddySystem) :=
  Buddy.alloc b layout.
Definition heap_acquire_dealloc (b : BuddySystem) (ptr : Z) (layout : Layout) : outcome BuddySystem :=
  Buddy.dealloc b ptr layout.

(** [KernelHeap::init] only prints the result of [BuddySystem::init]. *)
Definition kernel_heap_init (b : BuddySystem) (start end_ : Z) : outcome BuddySystem :=
  '(_, b) ← buddy_init b start end_ LEAF_SIZE MAX_ALIGNMENT;
  Done b.

(** [kinit]; [end_] is the linker symbol after the kernel image. *)
Definition kinit (b : BuddySystem) (end_ : Z) : outcome BuddySystem :=
  kernel_heap_init b end_ PHYSTOP.

(** [Box::<T>::new_zeroed] for a page-sized, page-aligned type. *)
Definition page_layout : Layout := mkLayout PGSIZE PGSIZE.

#[export] Instance buddy_pages : PageSource BuddySystem := λ b,
  '(p, b) ← heap_acquire_alloc b page_layout;
  if p =? 0 then alloc_error_handler page_layout else Done (p, b).
End Kalloc.

Section Discharge.
Context {BF : BitField} {BFL : BitFieldLaws}.

(** The heap as [kinit] sets it up, in physical memory. *)
Definition kheap_inv (b : BuddySystem) : Prop :=
  ∃ v c, heap b v c ∧ leaf_size b = LEAF_SIZE ∧ max_alignment b = MAX_ALIGNMENT ∧
         base b mod PGSIZE = 0 ∧ base b + bbsize b (mx b) ≤ 2 ^ 56.

(** The block is handed out, read off the bitmaps. *)
Definition live_block (b : BuddySystem) (k i : Z) : Prop :=
  sbit b (k + 1) (i / 2) = true ∧ (k = 0 ∨ sbit b k i = false) ∧ abit b k i = true.

Lemma used_live b v c k i :
  heap b v c → bblock b k i → bused b v k i ↔ k < mx b ∧ live_block b k i.
Proof.
  intros Hh Hb. destruct (heap_inv _ _ _ Hh) as [Hwf Hrep Hti]. pose proof Hb as [Hk Hi].
  assert (bused b v k i → k < mx b) as Hlt.
  { intros Hu. destruct (decide (k = 0)) as [->|]; [pose proof (heap_mx _ _ _ Hh); lia|].
    apply (leaf_inside b v c k i Hh); [by apply (used_leaf _ (base b) (leaf_size b))|done]. }
  destruct (decide (k < mx b)) as [Hkm|]; [|tauto].
  assert (vS v k i = false ↔ (k = 0 ∨ sbit b k i = false)) as Hs.
  { destruct (decide (k = 0)) as [->|].
    - split; [by left|]. intros _. destruct (vS v 0 i) eqn:E; [|done].
      destruct (ti_split _ _ _ _ v Hti 0 i Hb E). lia.
    - rewrite (rep_split b v Hrep k i) by (done || lia). naive_solver. }
  pose proof (block_parent _ k i Hb Hkm) as Hbp.
  pose proof (ti_alloc _ _ _ _ v Hti k i Hb Hkm) as Ha.
  unfold live_block, used. rewrite (rep_split b v Hrep (k + 1) (i / 2)) by (done || lia).
  rewrite (rep_alloc b v Hrep k i) by done. rewrite <- Hs. unfold exists_in in *.
  split.
  - intros (He & ? & ?). assert (vS v (k + 1) (i / 2) = true) by (destruct He; [lia|done]). tauto.
  - intros (_ & Hp & ? & ?). split_and!; [by right|done|tauto].
Qed.

Definition kheap_page (b : BuddySystem) (q : Z) : Prop :=
  ∃ k i, bblock b k i ∧ k < mx b ∧ live_block b k i ∧
         ¬ disjoint q PGSIZE (bbaddr b k i) (bbsize b k).

(** Requests for a power of two of pages get blocks of exactly that size. *)
Lemma page_block_size b k l e :
  leaf_size b = LEAF_SIZE → 0 ≤ k → 0 ≤ e → size l = PGSIZE * 2 ^ e → best_fit b l k → bbsize b k = PGSIZE * 2 ^ e.
Proof.
  intros Hl Hk He Hsz [Hle Hk2]. unfold bsize in *. rewrite Hl, Hsz in *. unfold LEAF_SIZE, PGSIZE in *.
  assert (4096 * 2 ^ e = 16 * 2 ^ (8 + e)) as Ee by (rewrite Z.pow_add_r by lia; lia). rewrite Ee in *.
  assert (2 ^ (8 + e) ≤ 2 ^ k) as H8 by lia. apply Z.pow_le_mono_r_iff in H8; [|lia..].
  destruct Hk2 as [->|Hlt]; [lia|].
  assert (2 ^ (k - 1) < 2 ^ (8 + e)) as H9 by lia.
  apply Z.pow_lt_mono_r_iff in H9; [|lia..]. assert (k = 8 + e) as -> by lia. lia.
Qed.

(** Allocating [2 ^ e] pages. *)
Lemma buddy_new_pages b l e :
  kheap_inv b → 0 ≤ e → PGSIZE * 2 ^ e < 2 ^ 63 → size l = PGSIZE * 2 ^ e → align l = PGSIZE →
  (∃ b', heap_acquire_alloc b l = Done (0, b')) ∨
  ∃ p b', heap_acquire_alloc b l = Done (p, b') ∧ kheap_inv b' ∧
    p mod PGSIZE = 0 ∧ 0 < p ∧ p + PGSIZE * 2 ^ e ≤ 2 ^ 56 ∧ base b' = base b ∧ base b ≤ p ∧
    (∀ q, p ≤ q < p + PGSIZE * 2 ^ e → ¬ kheap_page b (page_of q)) ∧
    ∀ q, q mod PGSIZE = 0 → kheap_page b' q ↔ kheap_page b q ∨ p ≤ q < p + PGSIZE * 2 ^ e.
Proof.
  intros (v & c & Hh & Hleaf & Hma & Hbase & Htop) He Hbig Hls Hla. unfold heap_acquire_alloc.
  pose proof (Z.pow_pos_nonneg 2 e eq_refl He) as Hpe.
  destruct (heap_alloc b v c l Hh) as (p & b' & v' & -> & Hh' & Hg & Hcase).
  { split; [rewrite Hls; unfold PGSIZE in *; lia|]. exists 12. rewrite Hla. done. }
  destruct Hcase as [(-> & _)|(k & i & Hb & -> & Hfit & Hin & Hdis & Hu)]; [left; eauto|].
  pose proof (inv_wf _ _ (heap_inv _ _ _ Hh)) as Hwf. pose proof (wf_base b Hwf).
  pose proof (bbaddr_range b k i Hwf Hb) as Hr. pose proof Hb as [Hk Hki].
  assert (bbaddr b k i + bbsize b k ≤ 2 ^ 56) as Hr56.
  { destruct (span_bound b k (i + 1) Hwf Hk ltac:(lia)). unfold baddr. lia. }
  pose proof (page_block_size b k l e Hleaf ltac:(lia) He Hls Hfit) as Hsz.
  assert (bbaddr b k i mod PGSIZE = 0) as Hal.
  { unfold baddr. rewrite Hsz. replace (i * (PGSIZE * 2 ^ e)) with (i * 2 ^ e * PGSIZE) by lia.
    by rewrite Z.mod_add by (unfold PGSIZE; lia). }
  rewrite Hsz in Hr, Hr56, Hdis. set (n := 2 ^ e) in *. right.
  destruct (geom_eq _ _ Hg) as (E1 & E2 & E3 & _).
  eexists _, b'. split; [done|]. split_and!; [|done|lia|lia|done|lia| |].
  - exists v', c. split_and!; [done|congruence| |congruence|congruence]. unfold geom in Hg. congruence.
  - intros q Hq (k' & i' & Hb' & Hk' & Hl' & Hov). apply Hov.
    destruct (Hdis k' i' Hb') as [Hd|Hd]; [by apply (used_live b v c)|left|right];
      unfold page_of, PGSIZE in *; clear -Hd Hal Hq Hpe; divlia.
  - intros q Hq. assert (∀ k' i', bblock b k' i' → k' < mx b →
      live_block b' k' i' ↔ live_block b k' i' ∨ (k' = k ∧ i' = i)) as Hlive.
    { intros k' i' Hb' Hk'. pose proof (used_live b' v' c k' i' Hh') as H1.
      rewrite E1, E2, E3 in H1. specialize (H1 Hb'). pose proof (used_live b v c k' i' Hh Hb') as H2.
      specialize (Hu k' i' Hb'). tauto. }
    assert (k < mx b) as Hkm.
    { pose proof (used_live b' v' c k i Hh') as H1. rewrite E1, E2, E3 in H1. apply H1; [done|].
      apply Hu; [done|by right]. }
    unfold kheap_page. rewrite E1, E2, E3. split.
    + intros (k' & i' & Hb' & Hk' & Hl' & Hov). apply Hlive in Hl' as [Hl'|[-> ->]]; [left; eauto 10| |done|done].
      right. rewrite Hsz in Hov. unfold disjoint, PGSIZE in *. clear -Hov Hal Hq Hpe. divlia.
    + intros [(k' & i' & Hb' & Hk' & Hl' & Hov)|Hqr].
      * exists k', i'. split_and!; [done|done|by apply Hlive; [..|left]|done].
      * exists k, i. split_and!; [done|done|by apply Hlive; [..|right]|].
        rewrite Hsz. unfold disjoint, PGSIZE in *. lia.
Qed.

(** A page is in use when the heap has handed it out, or when it lies below the
    heap: there are the kernel's image and its static data. *)
Definition kheap_used (b : BuddySystem) (q : Z) : Prop := kheap_page b q ∨ q + PGSIZE ≤ base b.

(** What [new_page] and [new_stack] promise their clients about used pages. *)
Lemma used_extend b b' p n :
  base b' = base b → base b ≤ p → base b mod PGSIZE = 0 → p mod PGSIZE = 0 →
  (∀ q, p ≤ q < p + n → ¬ kheap_page b (page_of q)) →
  (∀ q, q mod PGSIZE = 0 → kheap_page b' q ↔ kheap_page b q ∨ p ≤ q < p + n) →
  (∀ q, p ≤ q < p + n → ¬ kheap_used b (page_of q)) ∧
  ∀ q, q mod PGSIZE = 0 → kheap_used b' q ↔ kheap_used b q ∨ p ≤ q < p + n.
Proof.
  intros Eb Hp Hb Hal Hnew Hq. split.
  - intros q Hr [Hk|Hk]; [by apply (Hnew q)|]. unfold page_of, PGSIZE in *. divlia.
  - intros q Hqa. unfold kheap_used. rewrite Eb, (Hq q Hqa). tauto.
Qed.

Lemma buddy_new_page b :
  kheap_inv b →
  new_page b = Panic alloc_error ∨
  ∃ p b', new_page b = Done (p, b') ∧ kheap_inv b' ∧ page_ok p ∧ ¬ kheap_used b p ∧
    ∀ q, q mod PGSIZE = 0 → kheap_used b' q ↔ kheap_used b q ∨ q = p.
Proof.
  intros Hi. unfold new_page, buddy_pages.
  destruct (buddy_new_pages b page_layout 0 Hi) as [(b' & ->)|(p & b' & -> & Hi' & Hal & H0 & Hlt & Eb & Hge & Hnew & Hq)];
    [lia|done|done|done|by left|]. change (PGSIZE * 2 ^ 0) with PGSIZE in *. right.
  destruct Hi as (v & c & _ & _ & _ & Hbase & _). destruct (used_extend b b' p PGSIZE) as [Hnew' Hq']; [done..|].
  cbn [mbind outcome_bind]. destruct (Z.eqb_spec p 0); [lia|]. exists p, b'.
  split_and!; [done|done|unfold page_ok; lia| |].
  - rewrite <- (page_of_aligned p) by done. apply Hnew'. unfold PGSIZE. lia.
  - intros q Hqa. rewrite (Hq' q Hqa). split; (intros [?|?]; [by left|right]); unfold PGSIZE in *; divlia.
Qed.

#[export] Instance buddy_pages_laws : PageSourceLaws BuddySystem := {|
  ps_inv := kheap_inv;
  ps_page := kheap_used;
  new_page_ok := buddy_new_page;
|}.
End Discharge.
