(* ===== verification/UserCopy.v ===== *)
(** * Copying between kernel and user memory

    [copy_out], [copy_in] and [copy_in_str] against the mapping of the user's
    page table. *)

From Stdlib Require Import ZArith Lia.
From stdpp Require Import base gmap strings numbers list.
From S2P Require Import Prelude Address Pte PhysMem PageTable PageTableSpec.

Local Open Scope Z_scope.

(** [pgt_translate] is the page of the valid entry: its user check repeats the
    validity check. *)
Lemma pgt_translate_mapping root va m :
  va ≤ MAXVA → pgt_translate root va m = as_pagetable <$> mapping m root va.
Proof.
  intros Hva. unfold pgt_translate, translate. destruct (Z.ltb_spec MAXVA va); [lia|].
  unfold mapping. simpl. destruct (is_valid (read_word m (entry root (page_num va 2)))); [|done].
  destruct (is_valid (read_word m (entry (as_pagetable _) (page_num va 1)))); [|done]. simpl.
  change (is_user ?x) with (is_valid x).
  destruct (is_valid (read_word m (entry (as_pagetable _) (page_num va 0)))); done.
Qed.

Lemma pgt_translate_le root va m pa : pgt_translate root va m = Some pa → va ≤ MAXVA.
Proof. unfold pgt_translate. destruct (Z.ltb_spec MAXVA va); [done|lia]. Qed.

Section Copy.
Context {H : Type} {PS : PageSource H} {PSL : PageSourceLaws H}.

(** The mapping only depends on the pages of the tables. *)
Lemma mapping_ext m m' root h va :
  pt_inv m root h → (∀ q x, table_of m root q → in_page q x → m' x = m x) →
  mapping m' root va = mapping m root va.
Proof.
  intros Hi Hx. by apply (tree_same m m' root h h).
Qed.

Lemma pgt_translate_ext m m' root h va :
  pt_inv m root h → (∀ q x, table_of m root q → in_page q x → m' x = m x) →
  pgt_translate root va m' = pgt_translate root va m.
Proof.
  intros Hi Hx. destruct (Z.le_gt_cases va MAXVA).
  - rewrite !pgt_translate_mapping by done. by rewrite (mapping_ext m m' root h).
  - unfold pgt_translate. by destruct (Z.ltb_spec MAXVA va); [|lia].
Qed.

(** ** [copy_out] *)

Section CopyOut.
Context (root dst src len : Z) (m0 : mem) (h : H) (pa : Z → Z).
Context (Hinv : pt_inv m0 root h).
Context (Hdst : 0 ≤ dst) (Hlen : 0 ≤ len) (Hmax : dst + len ≤ MAXVA).
(** The pages of the destination, up to and including the one after the last
    byte, are mapped, *)
Context (Hmap : ∀ v, page_of dst ≤ v ≤ page_of (dst + len) → v mod PGSIZE = 0 →
  pgt_translate root v m0 = Some (pa v)).
(** to different pages *)
Context (Hpa : ∀ v, page_of dst ≤ v ≤ page_of (dst + len) → v mod PGSIZE = 0 → page_ok (pa v)).
Context (Hinj : ∀ v v', page_of dst ≤ v ≤ page_of (dst + len) → page_of dst ≤ v' ≤ page_of (dst + len) →
  v mod PGSIZE = 0 → v' mod PGSIZE = 0 → pa v = pa v' → v = v').
(** that are neither tables nor overlap the source. *)
Context (Htab : ∀ v, page_of dst ≤ v ≤ page_of (dst + len) → v mod PGSIZE = 0 → ¬ table_of m0 root (pa v)).
Context (Hsrc : ∀ v x, page_of dst ≤ v ≤ page_of (dst + len) → v mod PGSIZE = 0 → in_page (pa v) x →
  ¬ (src ≤ x < src + len)).

(** Where the [j]-th byte goes. *)
Definition target (j : Z) : Z := pa (page_of (dst + j)) + (dst + j - page_of (dst + j)).

Lemma target_page j : 0 ≤ j ≤ len →
  page_of dst ≤ page_of (dst + j) ≤ page_of (dst + len) ∧ page_of (dst + j) mod PGSIZE = 0 ∧
  in_page (pa (page_of (dst + j))) (target j).
Proof.
  intros Hj. unfold target, in_page. pose proof (page_of_bounds (dst + j)) as [Hb Hal].
  split; [|split; [done|lia]]. unfold page_of, PGSIZE in *. divlia.
Qed.

Lemma target_inj j j' : 0 ≤ j ≤ len → 0 ≤ j' ≤ len → target j = target j' → j = j'.
Proof.
  intros Hj Hj' Heq. destruct (target_page j Hj) as (Hr & Hal & Hin).
  destruct (target_page j' Hj') as (Hr' & Hal' & Hin'). rewrite <- Heq in Hin'.
  pose proof (in_page_unique _ _ _ (Hpa _ Hr Hal) (Hpa _ Hr' Hal') Hin Hin') as Hpp.
  pose proof (Hinj _ _ Hr Hr' Hal Hal' Hpp) as Hvv. unfold target in Heq. rewrite Hvv in Heq. lia.
Qed.

(** Within a page, consecutive bytes go to consecutive addresses. *)
Lemma target_step o j : page_of (dst + o) = page_of (dst + j) → target j = target o + (j - o).
Proof. intros Heq. unfold target. rewrite <- Heq. lia. Qed.

(** The first [o] bytes have been copied and nothing else has changed. *)
Definition copied (o : Z) (m : mem) : Prop :=
  (∀ j, 0 ≤ j < o → m (target j) = m0 (src + j)) ∧
  (∀ x, (∀ j, 0 ≤ j < o → x ≠ target j) → m x = m0 x).

Lemma copied_tables o m q x : o ≤ len → copied o m → table_of m0 root q → in_page q x → m x = m0 x.
Proof.
  intros Ho [_ Hrest] Hq Hx. apply Hrest. intros j Hj ->. destruct (target_page j ltac:(lia)) as (Hr & Hal & Hin).
  apply (Htab _ Hr Hal). assert (pa (page_of (dst + j)) = q) as ->; [|done].
  apply (in_page_unique _ _ (target j)); [by apply Hpa| |done|done].
  destruct Hq as (path & Hok & Hat). by apply (pi_table _ _ _ Hinv path q Hok Hat).
Qed.

Lemma copied_step o m n :
  0 ≤ o → 0 ≤ n → o + n ≤ len → (∀ j, o ≤ j < o + n → page_of (dst + o) = page_of (dst + j)) →
  copied o m → copied (o + n) (copy_bytes m (target o) (src + o) n).
Proof.
  intros Ho Hn Hon Hpage Hc. pose proof Hc as [Hdone Hrest].
  assert (∀ j, o ≤ j < o + n → target j = target o + (j - o)) as Hstep.
  { intros j Hj. apply target_step. by apply Hpage. }
  assert (∀ j, 0 ≤ j < len → m (src + j) = m0 (src + j)) as Hs.
  { intros j Hj. apply Hrest. intros j' Hj' Heq. destruct (target_page j' ltac:(lia)) as (Hr & Hal & Hin).
    apply (Hsrc _ _ Hr Hal Hin). lia. }
  unfold copy_bytes. split.
  - intros j Hj. destruct (Z.lt_ge_cases j o) as [Hlt|Hge].
    + destruct (Z.leb_spec (target o) (target j)), (Z.ltb_spec (target j) (target o + n)); simpl;
        [exfalso|by apply Hdone; lia..].
      assert (target j = target (o + (target j - target o))) as Heq
        by (rewrite (Hstep (o + (target j - target o))) by lia; lia).
      apply target_inj in Heq; lia.
    + rewrite (Hstep j) by lia.
      destruct (Z.leb_spec (target o) (target o + (j - o))), (Z.ltb_spec (target o + (j - o)) (target o + n));
        simpl; try lia. rewrite <- Hs by lia. f_equal. lia.
  - intros x Hx. destruct (Z.leb_spec (target o) x), (Z.ltb_spec x (target o + n)); simpl;
      [exfalso|apply Hrest; intros j Hj; apply Hx; lia..].
    apply (Hx (o + (x - target o))); [lia|]. rewrite (Hstep (o + (x - target o))) by lia. lia.
Qed.

(** All [len] bytes arrive, and nothing else changes. *)
Lemma copy_out_ok :
  ∃ m, copy_out root dst src len m0 = Done (Ok tt, m) ∧ copied len m.
Proof.
  assert (MAXVA = 2 ^ 38) as Emax by done. unfold copy_out. rewrite pg_round_down_ok by lia.
  pose proof (page_of_bounds dst) as [Hb Hal]. unfold PGSIZE in Hb.
  rewrite usub_ok by lia. cbn [mbind outcome_bind]. rewrite usub_ok by (unfold PGSIZE; lia).
  cbn [mbind outcome_bind]. rewrite Hmap by (done || (unfold page_of, PGSIZE in *; divlia)). cbn [unwrap mbind outcome_bind].
  set (I := λ '(l, count, o, va, p, m), 0 ≤ o ∧ o + l = len ∧ 0 ≤ l ∧ va = page_of (dst + o) ∧
    count = PGSIZE - (dst + o - va) ∧ p = target o ∧ copied o m).
  set (Q := λ r : result unit * mem, r.1 = Ok tt ∧ copied len r.2).
  match goal with |- context [while_fuel ?f ?b ?x] => assert (∃ r, while_fuel f b x = Done r ∧ Q r) as HQ end; cycle 1.
  { destruct HQ as ([r m] & -> & Hr & Hc). simpl in *. subst r. eauto. }
  apply (while_fuel_inv I (λ '(l, count, o, va, p, m), if l <? count then 0 else 1 + (l - count) / PGSIZE)); cycle 1.
  { unfold I. replace (dst + 0) with dst by lia. split_and!; try lia; [unfold target; by replace (dst + 0) with dst by lia|].
    split; [intros; lia|done]. }
  { unfold PGSIZE in *. destruct (len <? 4096 - (dst - page_of dst)); divlia. }
  { unfold PGSIZE in *. destruct (Z.ltb_spec len (4096 - (dst - page_of dst))); divlia. }
  intros [[[[[l count] o] va] p] m] (Ho & Hol & Hl & -> & -> & -> & Hc).
  pose proof (page_of_bounds (dst + o)) as [Hbo Halo].
  assert (∀ j, o ≤ j → dst + j < page_of (dst + o) + PGSIZE → page_of (dst + o) = page_of (dst + j)) as Hsame.
  { intros j Hj Hj2. unfold page_of, PGSIZE in *. divlia. }
  destruct (Z.ltb_spec l (PGSIZE - (dst + o - page_of (dst + o)))) as [Hlt|Hge].
  - left. eexists. split; [done|]. split; [done|]. simpl.
    replace (copied len) with (copied (o + l)) by (f_equal; lia).
    apply copied_step; [lia|lia|lia| |done]. intros j Hj. apply Hsame; lia.
  - right. set (n := PGSIZE - (dst + o - page_of (dst + o))) in *.
    assert (copied (o + n) (copy_bytes m (target o) (src + o) n)) as Hc'.
    { apply copied_step; [lia|unfold n; lia|lia| |done]. intros j Hj. apply Hsame; unfold n in *; lia. }
    assert (page_of (dst + o) + PGSIZE = page_of (dst + (o + n))) as Hnext.
    { unfold n, page_of, PGSIZE in *. divlia. }
    rewrite usub_ok by (unfold PGSIZE in *; lia). cbn [mbind outcome_bind].
    rewrite uadd_ok by (unfold PGSIZE in *; lia). cbn [mbind outcome_bind].
    unfold add_page. rewrite uadd_ok by (unfold PGSIZE in *; lia). cbn [mbind outcome_bind]. rewrite Hnext.
    destruct (target_page (o + n) ltac:(unfold n in *; lia)) as (Hr & Hal' & _).
    rewrite (pgt_translate_ext m0 _ root h); [|done|intros q x Hq Hx; apply (copied_tables (o + n) _ q x); (done || lia)].
    rewrite Hmap by done. cbn [unwrap mbind outcome_bind].
    eexists. split; [done|]. unfold I. split; [|].
    + pose proof (page_of_bounds (dst + (o + n))). split_and!; try done; try (unfold n, PGSIZE in *; lia).
      unfold target. subst n. lia.
    + destruct (Z.ltb_spec (l - n) PGSIZE); unfold n, PGSIZE in *; divlia.
Qed.
End CopyOut.

(** ** [copy_in] *)

(** Within one page, [copy_in] copies the bytes of the user's page. *)
Lemma copy_in_ok root dst src len m pa :
  0 ≤ src < MAXVA → 0 ≤ len → len < PGSIZE - (src - page_of src) →
  pgt_translate root (page_of src) m = Some pa → page_ok pa → 0 ≤ dst → dst + len < 2 ^ 64 →
  (∀ x, in_page pa x → ¬ (dst ≤ x < dst + len)) →
  ∃ m', copy_in root dst src len m = Done (Ok tt, m') ∧
    (∀ j, 0 ≤ j < len → read_byte m' (dst + j) = read_byte m (pa + (src - page_of src) + j)) ∧
    (∀ x, ¬ (dst ≤ x < dst + len) → read_byte m' x = read_byte m x).
Proof.
  intros Hsrc Hl Hlt Htr Hpa Hd Hd2 Hov. assert (MAXVA = 2 ^ 38) as Emax by done.
  pose proof (page_of_bounds src) as [Hb _]. destruct Hpa as (Hal & Hp0 & Hp1).
  unfold copy_in. rewrite pg_round_down_ok by lia. cbn [while_fuel]. rewrite Htr. cbn [unwrap mbind outcome_bind].
  unfold PGSIZE in *. rewrite usub_ok by lia. cbn [mbind outcome_bind]. rewrite usub_ok by lia. cbn [mbind outcome_bind].
  destruct (Z.ltb_spec len (4096 - (src - page_of src))); [|lia].
  rewrite uadd_ok by lia. cbn [mbind outcome_bind].
  set (s := pa + (src - page_of src)) in *.
  destruct (mem_copy_ok m dst s len) as (m' & -> & Hm); [lia..| |].
  { destruct (decide (dst + len ≤ s)); [by left|]. destruct (decide (s + len ≤ dst)); [by right|]. exfalso.
    apply (Hov (Z.max dst s)); unfold in_page, PGSIZE, s in *; lia. }
  cbn [mbind outcome_bind]. eexists. split; [done|]. split.
  - intros j Hj. rewrite Hm. unfold read_byte, copy_bytes.
    destruct (Z.leb_spec dst (dst + j)), (Z.ltb_spec (dst + j) (dst + len)); simpl; try lia. do 2 f_equal. lia.
  - intros x Hx. rewrite Hm. unfold read_byte, copy_bytes.
    destruct (Z.leb_spec dst x), (Z.ltb_spec x (dst + len)); simpl; try done; lia.
Qed.

Lemma uadd_cases a b : uadd a b = Done (a + b) ∨ ∃ msg, uadd a b = Panic msg.
Proof. unfold uadd, chk. case_match; eauto. Qed.

Lemma mem_copy_panics m dst src len :
  (∃ m', Misc.mem_copy m dst src len = Done m') ∨ ∃ msg, Misc.mem_copy m dst src len = Panic msg.
Proof.
  unfold Misc.mem_copy, for_range. generalize (seqZ 0 (len - 0)) as l. intros l. revert m.
  induction l as [|i l IH]; intros m; simpl; [eauto|].
  unfold uadd, chk. repeat case_match; simpl; eauto.
Qed.

(** When the source reaches the end of its page, the second iteration computes
    [src - va] for a [va] beyond [src] and the debug build panics. *)
Lemma copy_in_crossing root dst src len m :
  0 ≤ src < 2 ^ 64 → PGSIZE - (src - page_of src) ≤ len < 2 ^ 64 →
  ∃ msg, copy_in root dst src len m = Panic msg.
Proof.
  intros Hsrc Hlen. pose proof (page_of_bounds src) as [Hb _]. unfold copy_in.
  rewrite pg_round_down_ok by lia. cbn [while_fuel].
  destruct (pgt_translate root (page_of src) m) as [pa|]; cbn [unwrap mbind outcome_bind]; [|eauto].
  unfold PGSIZE in *. rewrite usub_ok by lia. cbn [mbind outcome_bind]. rewrite usub_ok by lia. cbn [mbind outcome_bind].
  destruct (Z.ltb_spec len (4096 - (src - page_of src))); [lia|].
  destruct (uadd_cases pa (src - page_of src)) as [->|[msg ->]]; cbn [mbind outcome_bind]; [|eauto].
  destruct (mem_copy_panics m dst (pa + (src - page_of src)) (4096 - (src - page_of src)))
    as [(m' & ->)|(msg & ->)]; cbn [mbind outcome_bind]; [|eauto].
  rewrite usub_ok by lia. cbn [mbind outcome_bind]. unfold add_page.
  destruct (uadd_cases (page_of src) PGSIZE) as [->|[msg ->]]; cbn [mbind outcome_bind]; [|eauto].
  destruct (pgt_translate root _ m') as [pa'|]; cbn [unwrap mbind outcome_bind]; [|eauto].
  assert (usub src (page_of src + PGSIZE) = Panic "arithmetic overflow") as ->; [|simpl; eauto].
  unfold usub, chk, in_width. destruct (Z.leb_spec 0 (src - (page_of src + PGSIZE))); [|done].
  unfold PGSIZE in *. lia.
Qed.
End Copy.
