(* ===== verification/PageTableTheorems.v ===== *)
(** * Properties of the page tables

    The statements about [map], [uvm_clear], [copy_out] and
    [copy_in], each with an instance on a concrete memory.  The instances use
    a page source that hands out consecutive pages. *)

From Stdlib Require Import ZArith Lia.
From stdpp Require Import base gmap strings numbers list.
From S2P Require Import Prelude Address Pte PhysMem PageTable PageTableSpec UserCopy.

Local Open Scope Z_scope.

(** ** A concrete page source and page table *)

Instance bump_pages : PageSource Z := λ n,
  if n + PGSIZE <=? 2 ^ 40 then Done (n, n + PGSIZE) else Panic alloc_error.

#[refine] Instance bump_pages_laws : PageSourceLaws Z := {
  ps_inv n := n mod PGSIZE = 0 ∧ 0 < n;
  ps_page n q := q < n;
}.
Proof.
  intros n [Hal Hn]. unfold new_page, bump_pages. destruct (Z.leb_spec (n + PGSIZE) (2 ^ 40)); [|by left].
  right. exists n, (n + PGSIZE). unfold page_ok, PGSIZE in *. split; [done|]. split; [divlia|].
  split; [lia|]. split; [lia|]. intros q Hq. divlia.
Defined.

Definition demo_root : Z := 0x1000.
Definition demo_state : pstate Z := mkP (λ _, 0) 0x2000.

Lemma demo_inv : pt_inv (pmem demo_state) demo_root (pheap demo_state).
Proof. by apply empty_tree. Qed.

Lemma demo_ps : ps_inv (pheap demo_state).
Proof. done. Qed.

(** ** [map] *)

Section Map.
Context {BFl : BitFlags} {BFlL : BitFlagsLaws} {H : Type} {PS : PageSource H} {PSL : PageSourceLaws H}.

(** C9. [map] on a page table whose tables form a tree: it runs out of memory,
    or panics because a page of the range is mapped already, or returns [true];
    then it has kept the tree and all memory outside of its tables, every page
    of the range translates to the corresponding physical page and has the
    requested flags, and all other pages translate as before. *)
Theorem map_correct root va pa size perm s :
  pt_inv (pmem s) root (pheap s) → ps_inv (pheap s) →
  0 ≤ va → 0 ≤ size → va + size ≤ MAXVA → 0 ≤ pa →
  pa + (page_of (va + size + PGSIZE - 1) - page_of va) < 2 ^ 64 → pa mod PGSIZE = 0 → 0 ≤ perm < 2 ^ 10 →
  map root va pa size perm s = Panic alloc_error ∨
  (map root va pa size perm s = Panic "remap" ∧
     ∃ va', in_range va size va' ∧ mapping (pmem s) root va' ≠ None) ∨
  ∃ s', map root va pa size perm s = Done (true, s') ∧ extends root s s' ∧
    ∀ va', 0 ≤ va' ≤ MAXVA →
      pgt_translate root va' (pmem s') =
        (if decide (in_range va size va') then Some (pa + (page_of va' - page_of va))
         else pgt_translate root va' (pmem s)) ∧
      (in_range va size va' → as_flags <$> mapping (pmem s') root va' = Some (Z.lor perm PTE_V)).
Proof.
  intros Hi Hps Hva Hsz Hmax Hpa Hpa2 Hal Hperm.
  destruct (map_ok root va pa size perm s) as [?|[?|(s' & Hs & He & Hm)]]; [done..|by left|by right; left|].
  right. right. exists s'. split; [done|]. split; [done|]. intros va' Hva'.
  assert (MAXVA = 2 ^ 38) as Emax by done. rewrite !pgt_translate_mapping, Hm by lia.
  case_decide as Hr; [|split; [done|by intros ?]]. simpl.
  pose proof (page_of_bounds va') as [Hb Hb2]. pose proof (page_of_bounds va) as [Hc Hc2]. unfold in_range in Hr.
  assert (page_of va ≤ page_of va') by (unfold page_of, PGSIZE in *; divlia).
  destruct (leaf_pte_fields (pa + (page_of va' - page_of va)) perm) as (_ & E1 & E2 & _);
    [unfold PGSIZE in *; lia|unfold PGSIZE in *; divlia|done|]. by rewrite E1, E2.
Qed.

(** A page that is mapped cannot be mapped again. *)
Lemma map_page_mapped root va pa perm s :
  va ≤ MAXVA → mapping (pmem s) root va ≠ None → map_page root va pa perm s = Panic "remap".
Proof.
  intros Hva Hm. unfold map_page, translate_or_alloc. destruct (Z.ltb_spec MAXVA va); [lia|].
  unfold mapping in Hm. simpl in Hm. unfold for_each, step_or_alloc.
  destruct (is_valid (read_word (pmem s) (entry root (page_num va 2)))); [|done]. cbn [mbind outcome_bind].
  destruct (is_valid (read_word (pmem s) (entry (as_pagetable _) (page_num va 1)))); [|done].
  cbn [mbind outcome_bind]. simpl in Hm. by destruct (is_valid _).
Qed.

Lemma map_mapped root va pa perm s :
  va mod PGSIZE = 0 → 0 ≤ va < MAXVA → mapping (pmem s) root va ≠ None → map root va pa PGSIZE perm s = Panic "remap".
Proof.
  intros Hal Hva Hm. assert (MAXVA = 2 ^ 38) as Emax by done. unfold map. unfold PGSIZE in *. rewrite uadd_ok by lia. cbn [mbind outcome_bind].
  rewrite pg_round_down_ok, pg_round_up_ok by (unfold PGSIZE; lia). cbn [mbind outcome_bind].
  rewrite (page_of_aligned va), (page_of_up (va + 4096)) by (unfold PGSIZE; divlia). cbn [while_fuel].
  destruct (Z.eqb_spec va (va + 4096)); [lia|]. cbn [negb]. rewrite map_page_mapped; [done|lia|done].
Qed.

(** Clearing the user bit of a page with [uvm_clear] does not take the page
    away from the user copies: the bit is cleared in the entry, but
    [pgt_translate] (and with it [copy_out] and [copy_in]) still accepts every
    address it accepted before. *)
Theorem uvm_clear_ineffective root h va m m' :
  pt_inv m root h → 0 ≤ va ≤ MAXVA →
  pgt_translate root va m ≠ None → uvm_clear root va m = Done m' →
  (∃ pte, mapping m' root va = Some pte ∧ Z.testbit pte 4 = false) ∧
  ∀ va', 0 ≤ va' ≤ MAXVA → pgt_translate root va' m' = pgt_translate root va' m.
Proof.
  intros Hi Hva Htr Hc. assert (MAXVA = 2 ^ 38) as Emax by done.
  rewrite pgt_translate_mapping in Htr by lia.
  unfold uvm_clear, translate in Hc. destruct (Z.ltb_spec MAXVA va); [lia|].
  destruct (tbl_at m root [page_num va 2; page_num va 1]) as [p|] eqn:Hp; cycle 1.
  { unfold mapping in Htr. by rewrite Hp in Htr. }
  assert (walk [2; 1] va root m = Some p) as Hwk.
  { rewrite <- Hp. simpl. by destruct (is_valid _). }
  rewrite Hwk in Hc. simpl in Hc. injection Hc as <-.
  set (w := read_word m (entry p (page_num va 0))) in *.
  assert (mapping m root va = if is_valid w then Some w else None) as Hmw by (unfold mapping; by rewrite Hp).
  rewrite Hmw in Htr. destruct (is_valid w) eqn:Hv; [|done].
  destruct (rm_user_bit_ok w (read_word_range _ _)) as (E1 & E2 & E3 & E4). rewrite Hv in E2. split.
  - exists (rm_user_bit w). split; [|done]. rewrite (mapping_write_leaf m root h) by (done || lia). by rewrite decide_True.
  - intros va' Hva'. rewrite !pgt_translate_mapping, (mapping_write_leaf m root h) by (done || lia).
    case_decide as Hd; [|done]. rewrite (mapping_page m root va' va), Hmw by done. simpl. by rewrite E1.
Qed.
End Map.

(** ** Copies *)

(** C24. [copy_out] to a mapped range of user memory: when the pages of the
    range, up to and including the page right after its last byte, are mapped
    to distinct pages that are neither page tables nor overlap the source,
    [copy_out] returns [Ok], byte [j] of the source arrives at the physical
    address of [dst + j], and no other byte of memory changes. *)
Theorem copy_out_correct {H} `{PageSourceLaws H} root dst src len m h pa :
  pt_inv m root h → 0 ≤ dst → 0 ≤ len → dst + len ≤ MAXVA →
  (∀ v, page_of dst ≤ v ≤ page_of (dst + len) → v mod PGSIZE = 0 →
     pgt_translate root v m = Some (pa v) ∧ page_ok (pa v) ∧ ¬ table_of m root (pa v) ∧
     (∀ x, in_page (pa v) x → ¬ (src ≤ x < src + len)) ∧
     (∀ v', page_of dst ≤ v' ≤ page_of (dst + len) → v' mod PGSIZE = 0 → pa v = pa v' → v = v')) →
  ∃ m', copy_out root dst src len m = Done (Ok tt, m') ∧
    (∀ j, 0 ≤ j < len → m' (target dst pa j) = m (src + j)) ∧
    (∀ x, (∀ j, 0 ≤ j < len → x ≠ target dst pa j) → m' x = m x).
Proof.
  intros Hi Hd Hl Hmax Hall.
  destruct (copy_out_ok root dst src len m h pa) as (m' & Hm & Hc); [done..| | | | | |by exists m'].
  - intros v Hv Hal. apply (Hall v Hv Hal).
  - intros v Hv Hal. apply (Hall v Hv Hal).
  - intros v v' Hv Hv' Hal Hal'. apply (Hall v Hv Hal); done.
  - intros v Hv Hal. apply (Hall v Hv Hal).
  - intros v x Hv Hal. apply (Hall v Hv Hal).
Qed.

(** [copy_out] of a range that ends exactly at the end of a page also
    needs the page behind it: when that page is not mapped the call panics,
    although every byte of the range is in mapped memory. *)
Theorem copy_out_page_end {H} `{PageSourceLaws H} root dst src m h pa :
  pt_inv m root h → 0 ≤ dst < MAXVA - PGSIZE → page_ok pa → ¬ table_of m root pa →
  pgt_translate root (page_of dst) m = Some pa → pgt_translate root (page_of dst + PGSIZE) m = None →
  copy_out root dst src (page_of dst + PGSIZE - dst) m = Panic unwrap_none.
Proof.
  intros Hi Hd Hpa Htab Htr Hno. assert (MAXVA = 2 ^ 38) as Emax by done.
  pose proof (page_of_bounds dst) as [Hb Hal]. unfold copy_out. unfold PGSIZE in *.
  rewrite pg_round_down_ok by lia. rewrite usub_ok by lia. cbn [mbind outcome_bind].
  rewrite usub_ok by lia. cbn [mbind outcome_bind]. rewrite Htr. cbn [unwrap mbind outcome_bind while_fuel].
  destruct (Z.ltb_spec (page_of dst + 4096 - dst) (4096 - (dst - page_of dst))); [lia|].
  rewrite usub_ok by lia. cbn [mbind outcome_bind]. rewrite uadd_ok by lia. cbn [mbind outcome_bind].
  unfold add_page, PGSIZE. rewrite uadd_ok by lia. cbn [mbind outcome_bind].
  rewrite (pgt_translate_ext m _ root h), Hno; [done|done|].
  intros q x Hq Hx. unfold copy_bytes.
  destruct (Z.leb_spec (pa + (dst - page_of dst)) x), (Z.ltb_spec x (pa + (dst - page_of dst) + (4096 - (dst - page_of dst))));
    simpl; try done. exfalso. apply Htab. replace pa with q; [done|].
  destruct Hq as (path & Hok & Hat). destruct (pi_table _ _ _ Hi path q Hok Hat) as [Hq _].
  apply (in_page_unique q pa x); [done..|]. unfold in_page, PGSIZE. lia.
Qed.

(** [copy_in] works within one page and panics beyond it: a range that
    ends before its page does is copied byte by byte, and a range that reaches
    the end of its page makes [copy_in] panic whatever is mapped. *)
Theorem copy_in_one_page root dst src len m :
  0 ≤ src < MAXVA → 0 ≤ len < 2 ^ 64 →
  (∀ pa, len < PGSIZE - (src - page_of src) →
     pgt_translate root (page_of src) m = Some pa → page_ok pa → 0 ≤ dst → dst + len < 2 ^ 64 →
     (∀ x, in_page pa x → ¬ (dst ≤ x < dst + len)) →
     ∃ m', copy_in root dst src len m = Done (Ok tt, m') ∧
       (∀ j, 0 ≤ j < len → read_byte m' (dst + j) = read_byte m (pa + (src - page_of src) + j)) ∧
       (∀ x, ¬ (dst ≤ x < dst + len) → read_byte m' x = read_byte m x)) ∧
  (PGSIZE - (src - page_of src) ≤ len → ∃ msg, copy_in root dst src len m = Panic msg).
Proof.
  intros Hs Hl. assert (MAXVA = 2 ^ 38) as Emax by done. split.
  - intros pa Hlt Htr Hpa Hd Hd2 Hov. apply copy_in_ok; (done || lia).
  - intros Hge. apply copy_in_crossing; lia.
Qed.

(** ** Instances *)

(** Two pages mapped at [0x3000], and a page of data behind them. *)
Definition demo_map : outcome (bool * pstate Z) :=
  @map bit_flags_std Z bump_pages demo_root 0x3000 0x80001000 0x2000 (Z.lor PTE_R (Z.lor PTE_W PTE_U)) demo_state.

Definition demo_mapped : pstate Z := match demo_map with Done (_, s) => s | _ => demo_state end.

Lemma demo_map_done : demo_map = Done (true, demo_mapped).
Proof.
  assert ((match demo_map with Done (true, _) => true | _ => false end) = true) as Hd by by vm_compute.
  unfold demo_mapped. destruct demo_map as [[[] s]| | |]; done.
Qed.

Lemma done_pair {A B} (a a' : A) (b b' : B) : Done (a, b) = Done (a', b') → b = b'.
Proof. by intros [= _ ->]. Qed.

Lemma map_correct_witness :
  pgt_translate demo_root 0x4008 (pmem demo_mapped) = Some 0x80002000 ∧
  pgt_translate demo_root 0x5000 (pmem demo_mapped) = None.
Proof.
  destruct (@map_correct bit_flags_std bit_flags_std_laws Z _ _ demo_root 0x3000 0x80001000 0x2000
    (Z.lor PTE_R (Z.lor PTE_W PTE_U)) demo_state demo_inv demo_ps) as [E|[[E _]|(s' & E & _ & Htr)]];
    [lia|lia|by vm_compute|lia|by vm_compute|reflexivity|by vm_compute|..];
    pose proof demo_map_done as Hd; unfold demo_map in Hd; rewrite Hd in E; [discriminate E|discriminate E|].
  apply done_pair in E as <-. clear Hd. split.
  - destruct (Htr 0x4008 ltac:(by vm_compute)) as [-> _]. reflexivity.
  - destruct (Htr 0x5000 ltac:(by vm_compute)) as [-> _]. reflexivity.
Defined.

Lemma demo_extends : @extends Z bump_pages bump_pages_laws demo_root demo_state demo_mapped ∧
  ∀ va', 0 ≤ va' < 2 ^ 39 → mapping (pmem demo_mapped) demo_root va' =
    if decide (in_range 0x3000 0x2000 va')
    then Some (leaf_pte (0x80001000 + (page_of va' - 0x3000)) (Z.lor PTE_R (Z.lor PTE_W PTE_U)))
    else mapping (pmem demo_state) demo_root va'.
Proof.
  destruct (@map_ok bit_flags_std bit_flags_std_laws Z _ _ demo_root 0x3000 0x80001000 0x2000
    (Z.lor PTE_R (Z.lor PTE_W PTE_U)) demo_state demo_inv demo_ps) as [E|[[E _]|(s' & E & He & Hm)]];
    [lia|lia|by vm_compute|lia|by vm_compute|by vm_compute|..];
    pose proof demo_map_done as Hd; unfold demo_map in Hd; rewrite Hd in E; [discriminate E|discriminate E|].
  apply done_pair in E as <-. clear Hd. exact (conj He Hm).
Qed.

Lemma demo_mapped_inv : pt_inv (pmem demo_mapped) demo_root (pheap demo_mapped).
Proof. apply demo_extends. Qed.

Lemma demo_heap_end : pheap demo_mapped = 0x4000.
Proof. by vm_compute. Qed.

Definition demo_pa (v : Z) : Z := v + 0x7fffe000.

Lemma demo_translate v :
  0x3000 ≤ v < 0x5000 → v mod PGSIZE = 0 →
  pgt_translate demo_root v (pmem demo_mapped) = Some (demo_pa v) ∧ page_ok (demo_pa v) ∧
  ¬ table_of (pmem demo_mapped) demo_root (demo_pa v).
Proof.
  intros Hv Hal. assert (MAXVA = 2 ^ 38) as Emax by reflexivity.
  rewrite pgt_translate_mapping by lia. rewrite (proj2 demo_extends) by lia.
  rewrite decide_True by (split; [exact (proj1 Hv)|exact (proj2 Hv)]). rewrite page_of_aligned by exact Hal.
  destruct (leaf_pte_fields (0x80001000 + (v - 0x3000)) (Z.lor PTE_R (Z.lor PTE_W PTE_U))) as (_ & E & _ & _);
    [lia|unfold PGSIZE in *; divlia|by vm_compute|].
  unfold demo_pa. split; [simpl; rewrite E; f_equal; lia|]. split; [unfold page_ok, PGSIZE in *; divlia|].
  intros (path & Hok & Hat). destruct (pi_table _ _ _ demo_mapped_inv _ _ Hok Hat) as [_ Hlt].
  change (v + 0x7fffe000 < pheap demo_mapped) in Hlt. rewrite demo_heap_end in Hlt. lia.
Qed.

Lemma copy_out_correct_witness :
  ∃ m', copy_out demo_root 0x3ff8 0x90000000 16 (pmem demo_mapped) = Done (Ok tt, m') ∧
    m' 0x80002003 = pmem demo_mapped 0x9000000b.
Proof.
  destruct (copy_out_correct demo_root 0x3ff8 0x90000000 16 (pmem demo_mapped) (pheap demo_mapped) demo_pa
    demo_mapped_inv) as (m' & Hm & Hj & _); [lia|lia|by vm_compute| |].
  - change (page_of 0x3ff8) with 0x3000. change (page_of (0x3ff8 + 16)) with 0x4000. intros v Hv Hal.
    destruct (demo_translate v) as (H1 & H2 & H3); [lia|exact Hal|]. split; [exact H1|]. split; [exact H2|].
    split; [exact H3|]. unfold demo_pa. split; [unfold in_page, PGSIZE; lia|lia].
  - exists m'. split; [exact Hm|]. apply (Hj 11). lia.
Defined.

Lemma copy_out_page_end_witness :
  copy_out demo_root 0x4ff0 0x90000000 16 (pmem demo_mapped) = Panic unwrap_none.
Proof.
  destruct (demo_translate 0x4000) as (H1 & H2 & H3); [lia|reflexivity|].
  change 16 with (page_of 0x4ff0 + PGSIZE - 0x4ff0).
  apply (copy_out_page_end demo_root 0x4ff0 0x90000000 (pmem demo_mapped) (pheap demo_mapped) (demo_pa 0x4000));
    [exact demo_mapped_inv|clear; by vm_compute|exact H2|exact H3|change (page_of 0x4ff0) with 0x4000; exact H1|clear; by vm_compute].
Defined.

Lemma copy_in_one_page_witness :
  (∃ m', copy_in demo_root 0x90000000 0x3010 8 (pmem demo_mapped) = Done (Ok tt, m')) ∧
  ∃ msg, copy_in demo_root 0x90000000 0x3ff8 16 (pmem demo_mapped) = Panic msg.
Proof.
  split.
  - destruct (demo_translate 0x3000) as (H1 & H2 & H3); [lia|reflexivity|].
    destruct (copy_in_one_page demo_root 0x90000000 0x3010 8 (pmem demo_mapped)) as [Hc _];
      [split; [lia|clear; by vm_compute]|lia|].
    destruct (Hc (demo_pa 0x3000)) as (m' & Hm & _); [clear; by vm_compute|change (page_of 0x3010) with 0x3000; exact H1|exact H2|lia|lia| |exists m'; exact Hm].
    unfold in_page, demo_pa, PGSIZE. lia.
  - apply (copy_in_one_page demo_root 0x90000000 0x3ff8 16 (pmem demo_mapped));
      [split; [lia|clear; by vm_compute]|lia|clear; by vm_compute].
Defined.

Definition demo_cleared : mem :=
  match uvm_clear demo_root 0x3000 (pmem demo_mapped) with Done m => m | _ => λ _, 0 end.

Lemma uvm_clear_ineffective_witness :
  pgt_translate demo_root 0x3000 demo_cleared = pgt_translate demo_root 0x3000 (pmem demo_mapped).
Proof.
  apply (uvm_clear_ineffective demo_root (pheap demo_mapped) 0x3000 (pmem demo_mapped) demo_cleared demo_mapped_inv).
  - clear; by vm_compute.
  - by rewrite (proj1 (demo_translate 0x3000 ltac:(lia) eq_refl)).
  - assert ((match uvm_clear demo_root 0x3000 (pmem demo_mapped) with Done _ => true | _ => false end) = true) as Hd
      by (clear; by vm_compute).
    unfold demo_cleared. destruct (uvm_clear demo_root 0x3000 (pmem demo_mapped)); [reflexivity|discriminate Hd..].
  - clear; by vm_compute.
Defined.
