(* ===== verification/UvmCopy.v ===== *)
(** * Copying the memory of a process

    [uvm_copy], by which [fork] gives the child a copy of its parent's memory:
    every page of the parent gets a fresh page with the same bytes and the same
    flags in the child's table, and nothing else changes. *)

From Stdlib Require Import ZArith Lia.
From stdpp Require Import base gmap strings numbers list.
From S2P Require Import Prelude Address Pte PhysMem PageTable PageTableSpec UserCopy PageTableTheorems.

Local Open Scope Z_scope.

(** ** A page copied word by word *)

Lemma read_le_byte n m a i :
  0 ≤ i < Z.of_nat n → read_le n m a / 256 ^ i mod 256 = read_byte m (a + i).
Proof.
  revert a i. induction n as [|n IH]; intros a i Hi; [lia|]. cbn [read_le].
  pose proof (read_byte_range m a) as Hb. destruct (decide (i = 0)) as [->|Hne].
  - rewrite Z.pow_0_r, Z.div_1_r, Z.add_0_r, (Z.mul_comm 256), Z.mod_add by lia. by apply Z.mod_small.
  - replace i with (1 + (i - 1)) at 1 by lia. rewrite Z.pow_add_r, Z.pow_1_r by lia.
    rewrite <- Z.div_div by (try apply Z.pow_pos_nonneg; lia).
    rewrite (Z.add_comm (read_byte m a)), (Z.mul_comm 256), Z.div_add_l by lia. rewrite (Z.div_small (read_byte m a)) by lia.
    rewrite Z.add_0_r, IH by lia. f_equal. lia.
Qed.

Lemma read_byte_write_word m m' a b i :
  0 ≤ i < 8 → read_byte (write_word m a (read_word m' b)) (a + i) = read_byte m' (b + i).
Proof.
  intros Hi. unfold read_byte at 1, write_word. destruct (Z.leb_spec a (a + i)), (Z.ltb_spec (a + i) (a + 8)); try lia.
  cbn [andb]. replace (a + i - a) with i by lia. unfold read_word. rewrite (read_le_byte 8 m' b i), Z.mod_small; [done|apply read_byte_range|done].
Qed.

(** The [n] bytes at [q] in [m'] are those at [p] in [m]. *)
Definition same_bytes (m' : mem) (q : Z) (m : mem) (p n : Z) : Prop :=
  ∀ o, 0 ≤ o < n → read_byte m' (q + o) = read_byte m (p + o).

Lemma pt_write_ok q p m :
  page_ok q → page_ok p → p ≠ q →
  ∃ m', pt_write q p m = Done m' ∧ same_bytes m' q m p PGSIZE ∧ ∀ x, ¬ in_page q x → m' x = m x.
Proof.
  intros Hq Hp Hne. unfold pt_write.
  destruct (for_range_inv (λ i m', same_bytes m' q m p (8 * i) ∧ ∀ x, ¬ (q ≤ x < q + 8 * i) → m' x = m x)
    0 512 (λ i m, Done (write_word m (entry q i) (write (read_word m (entry p i))))) m) as (m' & -> & Hs & Hf).
  - lia.
  - split; [|done]. intros o Ho. lia.
  - intros i m1 Hi [Hs Hf]. eexists. split; [done|]. unfold write, entry.
    assert (read_word m1 (p + 8 * i) = read_word m (p + 8 * i)) as ->.
    { apply read_word_ext. intros x Hx. apply Hf. unfold page_ok, PGSIZE in *. divlia. }
    split.
    + intros o Ho. destruct (decide (8 * i ≤ o)).
      * replace (q + o) with (q + 8 * i + (o - 8 * i)) by lia. rewrite read_byte_write_word by lia. f_equal. lia.
      * unfold read_byte at 1. rewrite write_word_other by lia. apply Hs. lia.
    + intros x Hx. rewrite write_word_other by lia. apply Hf. lia.
  - exists m'. split; [done|]. unfold in_page, PGSIZE in *. split; [exact Hs|]. intros x Hx. apply Hf. lia.
Qed.

#[local] Opaque pt_write map.

(** ** Steps that leave other pages alone *)

Lemma in_page_of q x : q mod PGSIZE = 0 → in_page q x ↔ page_of x = q.
Proof. unfold in_page, page_of, PGSIZE. intros Hq. divlia. Qed.

Section Copy.
Context {BFl : BitFlags} {BFlL : BitFlagsLaws} {H : Type} {PS : PageSource H} {PSL : PageSourceLaws H}.

(** What a step on the child's table promises to everybody else: pages in use
    stay in use, new tables are fresh pages, and pages in use that are not
    tables of the child keep their bytes. *)
Record apart_from (child : Z) (s s' : pstate H) : Prop := {
  af_pages q : q mod PGSIZE = 0 → ps_page (pheap s) q → ps_page (pheap s') q;
  af_tables q : table_of (pmem s) child q → table_of (pmem s') child q;
  af_fresh q : table_of (pmem s') child q → table_of (pmem s) child q ∨ ¬ ps_page (pheap s) q;
  af_frame x : ps_page (pheap s) (page_of x) → ¬ table_of (pmem s) child (page_of x) → pmem s' x = pmem s x;
}.

Lemma apart_refl child s : apart_from child s s.
Proof. constructor; try done. by left. Qed.

Lemma apart_trans child s1 s2 s3 :
  pt_inv (pmem s3) child (pheap s3) → apart_from child s1 s2 → apart_from child s2 s3 → apart_from child s1 s3.
Proof.
  intros Hi H1 H2. constructor.
  - intros q Hq Hp. by apply (af_pages _ _ _ H2), (af_pages _ _ _ H1).
  - intros q Hq. by apply (af_tables _ _ _ H2), (af_tables _ _ _ H1).
  - intros q Hq. destruct (af_fresh _ _ _ H2 q Hq) as [Hq2|Hn]; [by apply (af_fresh _ _ _ H1)|]. right. intros Hp.
    apply Hn, (af_pages _ _ _ H1); [|done]. by apply (table_page _ _ _ _ Hi Hq).
  - intros x Hp Ht. rewrite (af_frame _ _ _ H2), (af_frame _ _ _ H1); [done..| |].
    + by apply (af_pages _ _ _ H1); [apply page_of_bounds|].
    + intros Ht2. by destruct (af_fresh _ _ _ H1 _ Ht2).
Qed.

Lemma extends_apart child s s' : extends child s s' → apart_from child s s'.
Proof.
  intros He. constructor; [apply He..|]. intros x Hp Ht. apply (ex_frame _ _ _ He). intros q Hq Hx.
  destruct (table_page _ _ _ _ (ex_inv _ _ _ He) Hq) as [(Hal & _) _]. apply in_page_of in Hx as <-; [|done].
  by destruct (ex_fresh _ _ _ He _ Hq).
Qed.

Lemma translate_mapping root va m pte :
  va ≤ MAXVA → mapping m root va = Some pte →
  ∃ e, translate root va m = Some e ∧ read_word m e = pte ∧ is_valid pte = true.
Proof.
  intros Hva. unfold translate, mapping. destruct (Z.ltb_spec MAXVA va); [lia|]. simpl.
  destruct (is_valid (read_word m (entry root (page_num va 2)))); [|done].
  destruct (is_valid (read_word m (entry (as_pagetable _) (page_num va 1)))); [|done]. simpl.
  destruct (is_valid (read_word m (entry (as_pagetable _) (page_num va 0)))) eqn:E; [|done]. intros [= <-]. eauto.
Qed.

(** A valid entry has the valid flag among its flags. *)
Lemma flags_valid pte : is_valid pte = true → Z.lor (as_flags pte) PTE_V = as_flags pte.
Proof.
  unfold is_valid, as_flags. intros Hv. apply Z.bits_inj'. intros i Hi. rewrite Z.lor_spec, Z.land_spec.
  destruct (decide (i = 0)) as [->|Hne].
  - apply Z.ltb_lt in Hv. destruct (Z.testbit pte 0) eqn:E; [done|]. exfalso. enough (Z.land pte PTE_V = 0) by lia.
    apply Z.bits_inj'. intros j Hj. rewrite Z.land_spec, Z.bits_0. destruct (decide (j = 0)) as [->|Hj0]; [by rewrite E|].
    replace (Z.testbit PTE_V j) with false; [apply andb_false_r|]. symmetry. change PTE_V with (2 ^ 0). apply Z.pow2_bits_false. lia.
  - replace (Z.testbit PTE_V i) with false; [apply orb_false_r|]. symmetry. change PTE_V with (2 ^ 0). apply Z.pow2_bits_false. lia.
Qed.

Lemma flags_range pte : 0 ≤ as_flags pte < 2 ^ 10.
Proof. rewrite as_flags_ok. by apply Z.mod_pos_bound. Qed.

(** A fresh page of zeros. *)
Lemma new_zeroed_ok s :
  ps_inv (pheap s) →
  new_zeroed s = Panic alloc_error ∨
  ∃ q h', new_zeroed s = Done (q, mkP (write_bytes (pmem s) q 0 PGSIZE) h') ∧ ps_inv h' ∧ page_ok q ∧ ¬ ps_page (pheap s) q ∧
    ∀ r, r mod PGSIZE = 0 → ps_page h' r ↔ ps_page (pheap s) r ∨ r = q.
Proof.
  intros Hps. unfold new_zeroed. destruct (new_page_ok (pheap s) Hps) as [->|(q & h' & -> & Hrest)]; [by left|]. right. by exists q, h'.
Qed.

(** Mapping one page that was not mapped. *)
Lemma map_one root va pa perm s :
  pt_inv (pmem s) root (pheap s) → ps_inv (pheap s) → va mod PGSIZE = 0 → 0 ≤ va → va + PGSIZE ≤ MAXVA →
  0 ≤ pa → pa + PGSIZE < 2 ^ 64 → 0 ≤ perm < 2 ^ 10 → mapping (pmem s) root va = None →
  map root va pa PGSIZE perm s = Panic alloc_error ∨
  ∃ s', map root va pa PGSIZE perm s = Done (true, s') ∧ extends root s s' ∧
    ∀ v, 0 ≤ v < 2 ^ 39 → mapping (pmem s') root v = if decide (page_of v = va) then Some (leaf_pte pa perm) else mapping (pmem s) root v.
Proof.
  intros Hi Hps Hal H0 Hmax Hpa Hpa' Hperm Hnone.
  assert (page_of va = va ∧ page_of (va + PGSIZE + PGSIZE - 1) = va + PGSIZE) as [E1 E2] by (unfold page_of, PGSIZE in *; divlia).
  assert (∀ v, in_range va PGSIZE v ↔ page_of v = va) as Hr.
  { intros v. rewrite <- (in_page_of va v Hal). unfold in_range, in_page. by rewrite E1, E2. }
  destruct (map_ok root va pa PGSIZE perm s) as [?|[(_ & v & Hv & Hn)|(s' & E & He & Hm)]];
    [done|done|lia|by vm_compute|done|done|rewrite E1, E2; lia|done|by left| |].
  - exfalso. apply Hn. rewrite <- Hnone. apply mapping_page. rewrite E1. by apply Hr.
  - right. exists s'. split; [done|]. split; [done|]. intros v Hv. rewrite Hm by done.
    destruct (decide (in_range va PGSIZE v)) as [Hd|Hd]; rewrite Hr in Hd.
    + rewrite decide_True by done. rewrite Hd, E1. do 2 f_equal. lia.
    + by rewrite decide_False.
Qed.

(** ** One page *)

Section Page.
Context (parent child va pte : Z) (s : pstate H).
Abbreviation page := (as_pagetable pte).
Context (Hp : pt_inv (pmem s) parent (pheap s)) (Hc : pt_inv (pmem s) child (pheap s)) (Hps : ps_inv (pheap s)).
Context (Hva : va mod PGSIZE = 0 ∧ 0 ≤ va ∧ va + PGSIZE ≤ MAXVA).
Context (Hmap : mapping (pmem s) parent va = Some pte) (Hpage : page_ok page) (Hused : ps_page (pheap s) page).
Context (Hnone : mapping (pmem s) child va = None).

(** The fresh page with its copy, before it is mapped. *)
Lemma copy_fresh q h' m' :
  page_ok q → ¬ ps_page (pheap s) q → (∀ r, r mod PGSIZE = 0 → ps_page h' r ↔ ps_page (pheap s) r ∨ r = q) →
  (∀ x, ¬ in_page q x → m' x = pmem s x) → apart_from child s (mkP m' h') ∧ pt_inv m' child h' ∧
  (∀ r, table_of m' child r ↔ table_of (pmem s) child r) ∧ ∀ v, mapping m' child v = mapping (pmem s) child v.
Proof using Hc.
  intros Hq Hnew Hh' Hm'.
  destruct (tree_same (pmem s) m' child (pheap s) h') as (Hi & Ht & Hm); [done| |intros r Hr Hu; by apply Hh'; [|left]|].
  { intros r x Hr Hx. apply Hm'. intros Hx'. destruct (table_page _ _ _ _ Hc Hr) as [Hro Hru].
    by rewrite (in_page_unique r q x Hro Hq Hx Hx') in Hru. }
  split; [|done]. constructor; cbn [pmem pheap].
  - intros r Hr Hu. by apply Hh'; [|left].
  - intros r. by rewrite Ht.
  - intros r. rewrite Ht. by left.
  - intros x Hu _. apply Hm'. intros Hx. apply in_page_of in Hx; [|apply Hq]. by rewrite Hx in Hu.
Qed.

Lemma zero_page_byte q o :
  page_ok q → ¬ ps_page (pheap s) q → 0 ≤ o < PGSIZE →
  read_byte (write_bytes (pmem s) q 0 PGSIZE) (page + o) = read_byte (pmem s) (page + o).
Proof using Hpage Hused.
  intros Hq Hnew Ho. unfold read_byte. rewrite zero_page_other; [done|]. intros Hx.
  assert (in_page page (page + o)) as Hx' by (unfold in_page; lia). by rewrite (in_page_unique page q _ Hpage Hq Hx' Hx) in Hused.
Qed.

(** The parts of [uvm_copy_page] put together. *)
Lemma uvm_copy_page_eq e q s1 m1 o :
  translate parent va (pmem s) = Some e → read_word (pmem s) e = pte → is_valid pte = true →
  new_zeroed s = Done (q, s1) → pt_write q page (pmem s1) = Done m1 → map child va q PGSIZE (as_flags pte) (with_mem s1 m1) = o →
  (∀ msg, o = Panic msg → uvm_copy_page parent child va s = Panic msg) ∧
  (∀ s', o = Done (true, s') → uvm_copy_page parent child va s = Done (inr s')).
Proof using.
  intros H1 H2 H3 H4 H5 H6. unfold uvm_copy_page. rewrite H1, H2, H3, H4, bind_Done_l, H5, bind_Done_l, H6.
  split; by intros ? ->.
Qed.

Lemma uvm_copy_page_ok :
  uvm_copy_page parent child va s = Panic alloc_error ∨
  ∃ q s', uvm_copy_page parent child va s = Done (inr s') ∧ apart_from child s s' ∧
    pt_inv (pmem s') child (pheap s') ∧ ps_inv (pheap s') ∧
    page_ok q ∧ ¬ ps_page (pheap s) q ∧ ps_page (pheap s') q ∧ ¬ table_of (pmem s') child q ∧
    same_bytes (pmem s') q (pmem s) page PGSIZE ∧
    ∀ v, 0 ≤ v < 2 ^ 39 → mapping (pmem s') child v =
      if decide (page_of v = va) then Some (leaf_pte q (as_flags pte)) else mapping (pmem s) child v.
Proof.
  destruct Hva as (Hal & H0 & Hmax). assert (MAXVA = 2 ^ 38) as Emax by done.
  destruct (translate_mapping parent va (pmem s) pte) as (e & He & Hpte & Hv); [unfold PGSIZE in *; lia|done|].
  destruct (new_zeroed_ok s Hps) as [Hn|(q & h' & Hn & Hps' & Hq & Hnew & Hh')].
  { left. unfold uvm_copy_page. by rewrite He, Hpte, Hv, Hn. }
  set (m0 := write_bytes (pmem s) q 0 PGSIZE) in *. assert (page ≠ q) as Hne by (intros E; by rewrite E in Hused).
  destruct (pt_write_ok q page m0 Hq Hpage Hne) as (m1 & Hw & Hsame & Hframe).
  destruct (uvm_copy_page_eq e q _ m1 _ He Hpte Hv Hn Hw eq_refl) as [Hpanic Hdone]. clear He Hn Hw.
  assert (∀ x, ¬ in_page q x → m1 x = pmem s x) as Hm1.
  { intros x Hx. rewrite Hframe by done. by apply zero_page_other. }
  destruct (copy_fresh q h' m1 Hq Hnew Hh' Hm1) as (Ha1 & Hi1 & Ht1 & Hmp1).
  change (with_mem (mkP m0 h') m1) with (mkP m1 h') in *. pose proof (flags_range pte) as Hfl.
  destruct (map_one child va q (as_flags pte) (mkP m1 h')) as [E|(s' & E & He & Hm)];
    [done|done|done|done|done|unfold page_ok in *; lia|unfold page_ok in *; lia|done|cbn [pmem]; by rewrite Hmp1|left; by apply Hpanic|].
  - right. exists q, s'. split; [by apply Hdone|]. assert (pt_inv (pmem s') child (pheap s')) as Hi by apply He.
    split; [by apply (apart_trans _ _ _ _ Hi Ha1), extends_apart|]. split; [done|]. split; [apply He|]. split; [done|].
    assert (ps_page h' q) as Hqu by (apply Hh'; [apply Hq|by right]).
    assert (¬ table_of m1 child q) as Hqt by (rewrite Ht1; intros Ht; by apply (table_page _ _ _ _ Hc) in Ht as [_ ?]).
    split; [done|]. split; [by apply (ex_pages _ _ _ He); [apply Hq|]|].
    split. { intros Ht. by destruct (ex_fresh _ _ _ He q Ht). }
    split.
    + intros o Ho. rewrite <- (zero_page_byte q o Hq Hnew Ho). fold m0. rewrite <- (Hsame o Ho). unfold read_byte.
      rewrite (af_frame _ _ _ (extends_apart _ _ _ He)); [done|..]; rewrite (proj1 (in_page_of q (q + o) (proj1 Hq))); try done;
      unfold in_page; lia.
    + intros v Hv'. rewrite Hm by done. cbn [pmem]. by rewrite Hmp1.
Qed.
End Page.

(** ** All pages *)

(** A parent of [size] bytes and a child that has nothing yet: two trees of
    their own, and the pages of the parent are in use and no tables of the
    child. *)
Record forkable (parent child size : Z) (s : pstate H) : Prop := {
  fk_parent : pt_inv (pmem s) parent (pheap s);
  fk_child : pt_inv (pmem s) child (pheap s);
  fk_heap : ps_inv (pheap s);
  fk_apart q : table_of (pmem s) parent q → ¬ table_of (pmem s) child q;
  fk_user v : 0 ≤ v < size → v mod PGSIZE = 0 → ∃ pte, mapping (pmem s) parent v = Some pte ∧
    page_ok (as_pagetable pte) ∧ ps_page (pheap s) (as_pagetable pte) ∧ ¬ table_of (pmem s) child (as_pagetable pte);
  fk_free v : 0 ≤ v < size → mapping (pmem s) child v = None;
  fk_size : size mod PGSIZE = 0 ∧ 0 ≤ size ≤ MAXVA;
}.

(** The page [v] of the child, when it has been copied. *)
Definition copied (parent child : Z) (s0 s : pstate H) (v q : Z) : Prop :=
  ∃ pte, mapping (pmem s0) parent v = Some pte ∧ mapping (pmem s) child v = Some (leaf_pte q (as_flags pte)) ∧
    page_ok q ∧ ¬ ps_page (pheap s0) q ∧ ps_page (pheap s) q ∧ ¬ table_of (pmem s) child q ∧
    same_bytes (pmem s) q (pmem s0) (as_pagetable pte) PGSIZE.

(** The pages below [va] have been copied. *)
Record copying (parent child : Z) (s0 : pstate H) (va : Z) (s : pstate H) : Prop := {
  cp_child : pt_inv (pmem s) child (pheap s);
  cp_heap : ps_inv (pheap s);
  cp_apart : apart_from child s0 s;
  cp_copy v : 0 ≤ v < va → v mod PGSIZE = 0 → ∃ q, copied parent child s0 s v q;
  cp_inj v v' q : 0 ≤ v < va → 0 ≤ v' < va → v mod PGSIZE = 0 → v' mod PGSIZE = 0 →
    copied parent child s0 s v q → copied parent child s0 s v' q → v = v';
  cp_rest v : 0 ≤ v < 2 ^ 39 → va ≤ v → mapping (pmem s) child v = mapping (pmem s0) child v;
}.

Lemma copying_init parent child size s : forkable parent child size s → copying parent child s 0 s.
Proof. intros Hf. constructor; [apply Hf|apply Hf|apply apart_refl|lia|lia|done]. Qed.

(** The parent's tree stays what it was. *)
Lemma copying_parent parent child size s0 va s :
  forkable parent child size s0 → copying parent child s0 va s →
  pt_inv (pmem s) parent (pheap s) ∧ (∀ q, table_of (pmem s) parent q ↔ table_of (pmem s0) parent q) ∧
  ∀ v, mapping (pmem s) parent v = mapping (pmem s0) parent v.
Proof.
  intros Hf Hc. apply (tree_same _ _ _ (pheap s0)); [apply Hf| |apply Hc]. intros q x Hq Hx.
  destruct (table_page _ _ _ _ (fk_parent _ _ _ _ Hf) Hq) as [[Hal Hqo] Hqu]. apply in_page_of in Hx as <-; [|done].
  apply (af_frame _ _ _ (cp_apart _ _ _ _ _ Hc)); [done|]. by apply (fk_apart _ _ _ _ Hf).
Qed.

(** A page in use that is no table of the child keeps its bytes. *)
Lemma same_bytes_apart child s s' q m p :
  apart_from child s s' → page_ok q → ps_page (pheap s) q → ¬ table_of (pmem s) child q →
  same_bytes (pmem s) q m p PGSIZE → same_bytes (pmem s') q m p PGSIZE.
Proof.
  intros Ha [Hal _] Hu Ht Hs o Ho. rewrite <- (Hs o Ho). unfold read_byte.
  assert (page_of (q + o) = q) as E by (apply in_page_of; [done|unfold in_page; lia]).
  rewrite (af_frame _ _ _ Ha); [done|by rewrite E..].
Qed.

Lemma copied_unique parent child s0 s v r r' :
  copied parent child s0 s v r → copied parent child s0 s v r' → r = r'.
Proof.
  intros (p & E1 & E2 & (Hal1 & Hp1 & Hlt1) & _) (p' & E1' & E2' & (Hal2 & Hp2 & Hlt2) & _).
  rewrite E2 in E2'. injection E2' as E2'. apply (f_equal as_pagetable) in E2'. unfold PGSIZE in Hlt1, Hlt2.
  destruct (leaf_pte_fields r (as_flags p)) as (_ & F1 & _); [lia|done|apply flags_range|].
  destruct (leaf_pte_fields r' (as_flags p')) as (_ & F2 & _); [lia|done|apply flags_range|]. congruence.
Qed.

Section Step.
Context (parent child size : Z) (s0 : pstate H) (Hf : forkable parent child size s0).
Context (va : Z) (s : pstate H) (Hva : va mod PGSIZE = 0 ∧ 0 ≤ va ∧ va + PGSIZE ≤ size) (Hc : copying parent child s0 va s).
Context (q pte : Z) (s' : pstate H) (Ha : apart_from child s s').
Context (Hi : pt_inv (pmem s') child (pheap s')) (Hq : page_ok q) (Hnew : ¬ ps_page (pheap s) q) (Hqu : ps_page (pheap s') q).
Context (Hqt : ¬ table_of (pmem s') child q) (Hpte : mapping (pmem s0) parent va = Some pte).
Context (Hsame : same_bytes (pmem s') q (pmem s) (as_pagetable pte) PGSIZE).
Context (Hmap : ∀ v, 0 ≤ v < 2 ^ 39 → mapping (pmem s') child v =
  if decide (page_of v = va) then Some (leaf_pte q (as_flags pte)) else mapping (pmem s) child v).

Lemma below_size v : 0 ≤ v < va + PGSIZE → 0 ≤ v < 2 ^ 39.
Proof using Hf Hva. destruct (fk_size _ _ _ _ Hf) as (_ & _ & Hm). change MAXVA with (2 ^ 38) in Hm. lia. Qed.

(** An earlier copy is not disturbed. *)
Lemma copied_old v r : 0 ≤ v < va → v mod PGSIZE = 0 → copied parent child s0 s v r ↔ copied parent child s0 s' v r.
Proof using Hf Hva Hc Ha Hmap Hq Hnew.
  intros Hv Hal. destruct (cp_copy _ _ _ _ _ Hc v Hv Hal) as (r0 & Hr0).
  assert (mapping (pmem s') child v = mapping (pmem s) child v) as Em.
  { rewrite Hmap by (apply below_size; unfold PGSIZE; lia). rewrite decide_False; [done|]. rewrite page_of_aligned by done. lia. }
  assert (∀ r, copied parent child s0 s v r → copied parent child s0 s' v r) as Hto.
  { intros r' (p & H1 & H2 & H3 & H4 & H5 & H6 & H7). exists p. rewrite Em. split_and!; try done.
    - apply (af_pages _ _ _ Ha); [apply H3|done].
    - intros Ht. by destruct (af_fresh _ _ _ Ha r' Ht).
    - by apply (same_bytes_apart child s). }
  split; [apply Hto|]. intros Hr. pose proof (Hto r0 Hr0) as Hr0'.
  by rewrite (copied_unique _ _ _ _ _ _ _ Hr Hr0').
Qed.

(** The new one. *)
Lemma copied_new : copied parent child s0 s' va q.
Proof using All.
  exists pte. pose proof (proj2 Hva) as Hv. rewrite Hmap by (apply below_size; unfold PGSIZE; lia).
  rewrite decide_True by (exact (page_of_aligned va (proj1 Hva))). split_and!; try done.
  - intros Hp. apply Hnew, (af_pages _ _ _ (cp_apart _ _ _ _ _ Hc)); [apply Hq|done].
  - intros o Ho. rewrite (Hsame o Ho). destruct (fk_user _ _ _ _ Hf va) as (p & E & Hpo & Hpu & Hpt); [unfold PGSIZE in *; lia|apply Hva|].
    rewrite Hpte in E. injection E as <-.
    by apply (same_bytes_apart child s0 s _ _ _ (cp_apart _ _ _ _ _ Hc) Hpo Hpu Hpt (λ _ _, eq_refl)).
Qed.
End Step.

Lemma copying_step parent child size s0 va s :
  forkable parent child size s0 → va mod PGSIZE = 0 ∧ 0 ≤ va ∧ va + PGSIZE ≤ size → copying parent child s0 va s →
  uvm_copy_page parent child va s = Panic alloc_error ∨
  ∃ s', uvm_copy_page parent child va s = Done (inr s') ∧ copying parent child s0 (va + PGSIZE) s'.
Proof.
  intros Hf Hva Hc. destruct (copying_parent _ _ _ _ _ _ Hf Hc) as (Hp & _ & Hpm).
  destruct (fk_user _ _ _ _ Hf va) as (pte & Hpte & Hpo & Hpu & Hpt); [unfold PGSIZE in *; lia|apply Hva|].
  destruct (fk_size _ _ _ _ Hf) as (_ & _ & Hmax). change MAXVA with (2 ^ 38) in Hmax.
  destruct (uvm_copy_page_ok parent child va pte s) as [?|(q & s' & Hrun & Ha & Hi & Hps & Hq & Hnew & Hqu & Hqt & Hsame & Hmap)];
    [apply Hc|apply Hc|change MAXVA with (2 ^ 38); lia|by rewrite Hpm|done| | |by left|].
  { by apply (af_pages _ _ _ (cp_apart _ _ _ _ _ Hc)); [apply Hpo|]. }
  { rewrite (cp_rest _ _ _ _ _ Hc) by (unfold PGSIZE in *; lia). apply (fk_free _ _ _ _ Hf). unfold PGSIZE in *. lia. }
  right. exists s'. split; [done|].
  assert (∀ v r, 0 ≤ v < va → v mod PGSIZE = 0 → copied parent child s0 s v r ↔ copied parent child s0 s' v r) as Hold
    by (intros v r Hv Hal; by apply (copied_old parent child size s0 Hf va s Hva Hc q pte s')).
  pose proof (copied_new parent child size s0 Hf va s Hva Hc q pte s' Ha Hi Hq Hnew Hqu Hqt Hpte Hsame Hmap) as Hnewc.
  assert (∀ v, 0 ≤ v < va + PGSIZE → v mod PGSIZE = 0 → v = va ∨ 0 ≤ v < va) as Hcase
    by (intros v Hv Hal; unfold PGSIZE in *; divlia).
  constructor; [done|done|by apply (apart_trans _ _ s _ Hi (cp_apart _ _ _ _ _ Hc))| | |].
  - intros v Hv Hal. destruct (Hcase v Hv Hal) as [->|Hlt]; [by exists q|].
    destruct (cp_copy _ _ _ _ _ Hc v Hlt Hal) as (r & Hr). exists r. by apply Hold.
  - assert (∀ v r, 0 ≤ v < va → v mod PGSIZE = 0 → copied parent child s0 s' v r → ¬ copied parent child s0 s' va r) as Hne.
    { intros v r Hv Hal H1 H2. apply Hold in H1 as (? & _ & _ & _ & _ & Hu & _); [|done..].
      by rewrite (copied_unique _ _ _ _ _ _ _ H2 Hnewc) in Hu. }
    intros v v' r Hv Hv' Hal Hal' H1 H2. destruct (Hcase v Hv Hal) as [->|Hlt], (Hcase v' Hv' Hal') as [->|Hlt']; [done| | |].
    + by destruct (Hne v' r Hlt' Hal' H2).
    + by destruct (Hne v r Hlt Hal H1).
    + apply Hold in H1, H2; [|done..]. by apply (cp_inj _ _ _ _ _ Hc v v' r).
  - intros v Hv Hle. rewrite Hmap, decide_False; [|unfold page_of, PGSIZE in *; divlia|done].
    apply (cp_rest _ _ _ _ _ Hc); [done|]. unfold PGSIZE in *. lia.
Qed.

Lemma uvm_copy_ok parent child size s :
  forkable parent child size s →
  uvm_copy parent child size s = Panic alloc_error ∨
  ∃ s', uvm_copy parent child size s = Done (Ok tt, s') ∧ copying parent child s size s'.
Proof.
  intros Hf. destruct (fk_size _ _ _ _ Hf) as (Hal & H0 & Hmax). change MAXVA with (2 ^ 38) in Hmax.
  set (Q := λ o : outcome (result unit * pstate H), o = Panic alloc_error ∨ ∃ s', o = Done (Ok tt, s') ∧ copying parent child s size s').
  enough (Q (uvm_copy parent child size s)) by done. unfold uvm_copy.
  apply (while_fuel_rule (λ '(va, s'), va mod PGSIZE = 0 ∧ 0 ≤ va ≤ size ∧ copying parent child s va s') (λ '(va, _), (size - va) / PGSIZE)).
  - intros [va s1] (Hva & Hle & Hc). destruct (Z.eqb_spec va size) as [->|Hne]; cbn [negb].
    { left. eexists. split; [done|]. right. by exists s1. }
    assert (va + PGSIZE ≤ size) as Hnext by (unfold PGSIZE in *; divlia).
    destruct (copying_step parent child size s va s1) as [->|(s2 & -> & Hc2)]; [done|lia|done| |].
    + right. left. eexists. split; [done|]. by left.
    + right. right. right. rewrite bind_Done_l. unfold add_page. rewrite uadd_ok by (unfold PGSIZE in *; lia). eexists. split; [done|].
      split; [split; [unfold PGSIZE in *; divlia|split; [unfold PGSIZE in *; lia|done]]|unfold PGSIZE in *; divlia].
  - split; [done|]. split; [lia|]. by apply (copying_init _ _ size).
  - rewrite Hal, Z.eqb_refl, Z.sub_0_r. lia.
  - rewrite Z.sub_0_r. apply Z.div_pos; [lia|by vm_compute].
Qed.

(** The byte a process finds at a virtual address. *)
Definition user_byte (m : mem) (root a : Z) : option Z :=
  pte ← mapping m root a;
  Some (read_byte m (as_pagetable pte + a mod PGSIZE)).

Lemma user_byte_page m root a pte :
  mapping m root (page_of a) = Some pte → user_byte m root a = Some (read_byte m (as_pagetable pte + a mod PGSIZE)).
Proof.
  intros E. unfold user_byte. rewrite (mapping_page m root a (page_of a)), E; [done|].
  symmetry. apply page_of_aligned, page_of_bounds.
Qed.

(** What the processes see. *)
Lemma copying_view parent child size s s' a :
  forkable parent child size s → copying parent child s size s' → 0 ≤ a < size →
  user_byte (pmem s') child a = user_byte (pmem s) parent a ∧ user_byte (pmem s') parent a = user_byte (pmem s) parent a ∧
  as_flags <$> mapping (pmem s') child a = as_flags <$> mapping (pmem s) parent a.
Proof.
  intros Hf Hc Ha. pose proof (page_of_bounds a) as [Hb Hal].
  assert (0 ≤ page_of a < size) as Hp by (unfold page_of, PGSIZE in *; divlia).
  assert (0 ≤ a mod PGSIZE < PGSIZE) as Ho by (unfold PGSIZE; divlia).
  destruct (cp_copy _ _ _ _ _ Hc _ Hp Hal) as (q & pte & E1 & E2 & Hq & _ & _ & _ & Hsame).
  destruct (fk_user _ _ _ _ Hf _ Hp Hal) as (pte' & E & Hpo & Hpu & Hpt). rewrite E1 in E. injection E as <-.
  destruct (copying_parent _ _ _ _ _ _ Hf Hc) as (_ & _ & Hpm).
  destruct (leaf_pte_fields q (as_flags pte)) as (_ & F1 & F2 & _); [unfold page_ok, PGSIZE in *; lia|apply Hq|apply flags_range|].
  rewrite !(user_byte_page _ parent a pte) by (rewrite ?Hpm; done). rewrite (user_byte_page _ child a _ E2), F1.
  split; [by rewrite Hsame|]. split.
  - f_equal. by apply (same_bytes_apart child s s' _ _ _ (cp_apart _ _ _ _ _ Hc) Hpo Hpu Hpt (λ _ _, eq_refl)).
  - rewrite (mapping_page (pmem s') child a (page_of a)), (mapping_page (pmem s) parent a (page_of a))
      by (symmetry; apply page_of_aligned, page_of_bounds).
    rewrite E1, E2. cbn [fmap option_fmap option_map]. rewrite F2, flags_valid; [done|].
    change MAXVA with (2 ^ 38) in *. destruct (fk_size _ _ _ _ Hf) as (_ & _ & Hmax).
    destruct (translate_mapping parent (page_of a) (pmem s) pte) as (? & _ & _ & Hv); [lia|done|done].
Qed.

(** C29 Forking a process copies its memory.  [uvm_copy] ends for every size that
    is a multiple of the page size: it runs out of memory, or the child finds at
    each address of its parent the same byte with the same permissions, in a page
    of its own that was not in use before; the parent's memory and page table, and
    all other pages in use but the child's tables, are as they were. *)
Theorem uvm_copy_correct parent child size s (Hf : forkable parent child size s) :
  uvm_copy parent child size s = Panic alloc_error ∨
  ∃ s', uvm_copy parent child size s = Done (Ok tt, s') ∧
    (∀ a, 0 ≤ a < size →
       user_byte (pmem s') child a = user_byte (pmem s) parent a ∧ user_byte (pmem s') parent a = user_byte (pmem s) parent a ∧
       as_flags <$> mapping (pmem s') child a = as_flags <$> mapping (pmem s) parent a) ∧
    (∀ v v' q, 0 ≤ v < size → 0 ≤ v' < size → v mod PGSIZE = 0 → v' mod PGSIZE = 0 →
       copied parent child s s' v q → copied parent child s s' v' q → v = v') ∧
    (∀ v, 0 ≤ v < size → v mod PGSIZE = 0 → ∃ q, copied parent child s s' v q) ∧
    (∀ v, 0 ≤ v < 2 ^ 39 → size ≤ v → mapping (pmem s') child v = mapping (pmem s) child v) ∧
    (∀ v, mapping (pmem s') parent v = mapping (pmem s) parent v) ∧
    (∀ x, ps_page (pheap s) (page_of x) → ¬ table_of (pmem s) child (page_of x) → pmem s' x = pmem s x) ∧
    pt_inv (pmem s') parent (pheap s') ∧ pt_inv (pmem s') child (pheap s') ∧ ps_inv (pheap s').
Proof.
  destruct (uvm_copy_ok parent child size s Hf) as [?|(s' & Hrun & Hc)]; [by left|]. right. exists s'. split; [done|].
  split; [by intros a Ha; apply (copying_view _ _ size)|]. destruct (copying_parent _ _ _ _ _ _ Hf Hc) as (Hp & _ & Hm).
  split; [apply Hc|]. split; [apply Hc|]. split; [apply Hc|]. split; [done|]. split; [apply Hc|]. by split_and!; [|apply Hc..].
Qed.

End Copy.

(** ** A process of one page *)

Definition demo_fork_mem : mem := λ x, if x =? 0x6008 then 42 else 0.

Definition demo_fork_map : outcome (bool * pstate Z) :=
  map (BFl := bit_flags_std) 0x1000 0 0x6000 PGSIZE (Z.lor PTE_R PTE_U) (mkP demo_fork_mem 0x7000).
Definition demo_fork_state : pstate Z := match demo_fork_map with Done (_, s) => s | _ => mkP demo_fork_mem 0x7000 end.

Lemma demo_forkable :
  forkable (PS := bump_pages) 0x1000 0x5000 PGSIZE demo_fork_state ∧ user_byte (pmem demo_fork_state) 0x1000 8 = Some 42.
Proof.
  assert (∀ h root, page_ok root → root < 0x6000 → h = 0x7000 →
    pt_inv demo_fork_mem root h ∧ (∀ q, table_of demo_fork_mem root q → q = root) ∧ ∀ va, mapping demo_fork_mem root va = None) as Hempty.
  { intros h root Hr Hlt ->. apply empty_tree; [done|cbn; lia|]. intros x Hx. unfold demo_fork_mem, in_page in *.
    destruct (Z.eqb_spec x 0x6008); [|done]. unfold page_ok, PGSIZE in *. divlia. }
  destruct (Hempty 0x7000 0x1000) as (Hp & Ht & Hm); [by vm_compute|done|done|].
  destruct (Hempty 0x7000 0x5000) as (Hp' & Ht' & Hm'); [by vm_compute|done|done|].
  set (s0 := mkP demo_fork_mem 0x7000).
  destruct (map_ok (BFl := bit_flags_std) (BFlL := bit_flags_std_laws) 0x1000 0 0x6000 PGSIZE (Z.lor PTE_R PTE_U) s0)
    as [E|[(E & va & _ & Hn)|(s1 & E & He & Hmap)]]; [exact Hp|by vm_compute..| |by rewrite Hm in Hn|].
  { assert (match demo_fork_map with Panic _ => false | _ => true end = true) as Hd by by vm_compute.
    unfold demo_fork_map in Hd. fold s0 in Hd. by rewrite E in Hd. }
  assert (∀ x, 0x2000 ≤ x < 0x7000 → pmem s1 x = demo_fork_mem x) as Hframe.
  { intros x Hx. apply (ex_frame _ _ _ He). intros q Hq Hin.
    destruct (ex_fresh _ _ _ He q Hq) as [Hq0|Hq0]; [apply Ht in Hq0 as ->|]; unfold in_page, PGSIZE in *; [lia|]. apply Hq0. cbn. lia. }
  assert (0x7000 ≤ pheap s1) as Hh. { pose proof (ex_pages _ _ _ He 0x6000 ltac:(done) ltac:(done)) as H6. cbn in H6.
    pose proof (ex_heap _ _ _ He) as [Hal _]. unfold PGSIZE in Hal. divlia. }
  destruct (empty_tree (PS := bump_pages) (pmem s1) 0x5000 (pheap s1)) as (Hc & Hct & Hcm); [by vm_compute|cbn; lia| |].
  { intros x Hx. unfold in_page, PGSIZE in Hx. rewrite Hframe by lia. unfold demo_fork_mem. destruct (Z.eqb_spec x 0x6008); [lia|done]. }
  assert (∀ v, 0 ≤ v < PGSIZE → mapping (pmem s1) 0x1000 v = Some (leaf_pte 0x6000 (Z.lor PTE_R PTE_U))) as Hv.
  { intros v Hv. rewrite Hmap by (unfold PGSIZE in Hv; lia). rewrite decide_True; [|exact Hv]. do 2 f_equal.
    assert (page_of v = 0) as -> by (apply (in_page_of 0 v); [done|exact Hv]). done. }
  assert (as_pagetable (leaf_pte 0x6000 (Z.lor PTE_R PTE_U)) = 0x6000) as Ep by by vm_compute.
  assert (demo_fork_state = s1) as -> by (unfold demo_fork_state, demo_fork_map; fold s0; by rewrite E).
  split.
  - constructor; [apply He|done|apply He| | | |by vm_compute].
    + intros q Hq Hq'. apply Hct in Hq' as ->. destruct (ex_fresh _ _ _ He _ Hq) as [Hq0|Hq0]; [by apply Ht in Hq0|]. apply Hq0. by cbn.
    + intros v Hr Hal. rewrite Hv by done. eexists. split; [done|]. rewrite Ep. split; [by vm_compute|]. split; [cbn; lia|].
      intros Hq. by apply Hct in Hq.
    + done.
  - unfold user_byte. rewrite Hv by (by vm_compute). cbn [mbind option_bind]. f_equal. unfold read_byte.
    rewrite Ep. change (0x6000 + 8 mod PGSIZE) with 0x6008. by rewrite Hframe by lia.
Qed.

Lemma uvm_copy_correct_witness :
  ∃ s', uvm_copy (BFl := bit_flags_std) 0x1000 0x5000 PGSIZE demo_fork_state = Done (Ok tt, s') ∧
    user_byte (pmem s') 0x5000 8 = Some 42.
Proof.
  destruct demo_forkable as (Hf & Hb).
  destruct (uvm_copy_correct (BFl := bit_flags_std) (BFlL := bit_flags_std_laws) 0x1000 0x5000 PGSIZE demo_fork_state Hf)
    as [E|(s' & E & Hv & _)].
  - assert (match uvm_copy (BFl := bit_flags_std) 0x1000 0x5000 PGSIZE demo_fork_state with Panic _ => false | _ => true end = true)
      as Hd by by vm_compute. by rewrite E in Hd.
  - exists s'. split; [exact E|]. transitivity (user_byte (pmem demo_fork_state) 0x1000 8); [|exact Hb].
    apply (Hv 8). unfold PGSIZE. lia.
Defined.

(** ** The first page of the first process *)

Section Init.
Context {BFl : BitFlags} {BFlL : BitFlagsLaws} {H : Type} {PS : PageSource H} {PSL : PageSourceLaws H}.

(** Writes to a page that is no table of the child and was free. *)
Lemma apart_write child s s' q m' :
  pt_inv (pmem s') child (pheap s') → apart_from child s s' → page_ok q → ¬ ps_page (pheap s) q → ¬ table_of (pmem s') child q →
  (∀ x, ¬ in_page q x → m' x = pmem s' x) →
  apart_from child s (with_mem s' m') ∧ pt_inv m' child (pheap s') ∧ (∀ r, table_of m' child r ↔ table_of (pmem s') child r) ∧
  ∀ v, mapping m' child v = mapping (pmem s') child v.
Proof.
  intros Hi Ha Hq Hnew Hnt Hm'. destruct (tree_same (pmem s') m' child (pheap s') (pheap s')) as (Hi' & Ht & Hm); [done| |done|].
  { intros r x Hr Hx. apply Hm'. intros Hx'. destruct (table_page _ _ _ _ Hi Hr) as [Hro _]. by rewrite (in_page_unique r q x Hro Hq Hx Hx') in Hr. }
  split; [|done]. constructor; cbn [pmem pheap with_mem].
  - apply Ha.
  - intros r. rewrite Ht. apply Ha.
  - intros r. rewrite Ht. apply Ha.
  - intros x Hu Hn. rewrite Hm'; [by apply Ha|]. intros Hx. apply in_page_of in Hx; [|apply Hq]. by rewrite Hx in Hu.
Qed.

Definition USER_FLAGS : Z := Z.lor (Z.lor (Z.lor PTE_W PTE_R) PTE_X) PTE_U.

(** A fresh page of zeros, mapped where nothing is. *)
Lemma fresh_page_ok pt va s :
  pt_inv (pmem s) pt (pheap s) → ps_inv (pheap s) → va mod PGSIZE = 0 → 0 ≤ va → va + PGSIZE ≤ MAXVA → mapping (pmem s) pt va = None →
  new_zeroed s = Panic alloc_error ∨
  ∃ q s1, new_zeroed s = Done (q, s1) ∧
   (map pt va q PGSIZE user_perm (with_mem s1 (write_bytes (pmem s1) q 0 PGSIZE)) = Panic alloc_error ∨
    ∃ s', map pt va q PGSIZE user_perm (with_mem s1 (write_bytes (pmem s1) q 0 PGSIZE)) = Done (true, s') ∧
      apart_from pt s s' ∧ pt_inv (pmem s') pt (pheap s') ∧ ps_inv (pheap s') ∧
      page_ok q ∧ ¬ ps_page (pheap s) q ∧ ps_page (pheap s') q ∧ ¬ table_of (pmem s') pt q ∧ (∀ x, in_page q x → pmem s' x = 0) ∧
      ∀ v, 0 ≤ v < 2 ^ 39 → mapping (pmem s') pt v = if decide (page_of v = va) then Some (leaf_pte q USER_FLAGS) else mapping (pmem s) pt v).
Proof.
  intros Hi Hps Hal H0 Hmax Hnone. destruct (new_zeroed_ok s Hps) as [Hn|(q & h' & Hn & Hps' & Hq & Hnew & Hh')]; [by left|].
  right. eexists q, _. split; [exact Hn|]. cbn [pmem with_mem pheap]. unfold with_mem. cbn [pmem pheap].
  set (m0 := write_bytes (write_bytes (pmem s) q 0 PGSIZE) q 0 PGSIZE).
  assert (user_perm = USER_FLAGS) as -> by (unfold user_perm, USER_FLAGS; by rewrite !flags_or_bits).
  destruct (copy_fresh pt s Hi q h' m0 Hq Hnew Hh') as (Ha1 & Hi1 & Ht1 & Hm1).
  { intros x Hx. unfold m0. by rewrite !zero_page_other. }
  destruct (map_one pt va q USER_FLAGS (mkP m0 h')) as [E|(s2 & E & He & Hm2)];
    [done|done|done|done|done|unfold page_ok in *; lia|unfold page_ok in *; lia|by vm_compute|cbn [pmem]; by rewrite Hm1|by left|].
  pose proof (ex_inv _ _ _ He) as Hi2. pose proof (apart_trans _ _ _ _ Hi2 Ha1 (extends_apart _ _ _ He)) as Ha2.
  assert (¬ table_of m0 pt q) as Hqt by (rewrite Ht1; intros Ht; by apply (table_page _ _ _ _ Hi) in Ht as [_ ?]).
  assert (ps_page h' q) as Hqu by (apply Hh'; [apply Hq|by right]).
  assert (¬ table_of (pmem s2) pt q) as Hqt2 by (intros Ht; by destruct (ex_fresh _ _ _ He q Ht)).
  right. exists s2. split; [done|]. split; [done|]. split; [done|]. split; [apply He|]. split; [done|]. split; [done|].
  split; [by apply (ex_pages _ _ _ He); [apply Hq|]|]. split; [done|]. split.
  - intros x Hx. rewrite (af_frame _ _ _ (extends_apart _ _ _ He)).
    + cbn [pmem]. unfold m0, write_bytes, in_page in *. destruct (Z.leb_spec q x), (Z.ltb_spec x (q + PGSIZE)); (done || lia).
    + by rewrite (proj1 (in_page_of q x (proj1 Hq)) Hx).
    + by rewrite (proj1 (in_page_of q x (proj1 Hq)) Hx).
  - intros v Hv. rewrite Hm2 by done. cbn [pmem]. by rewrite Hm1.
Qed.

Lemma uvm_init_ok pt src s :
  pt_inv (pmem s) pt (pheap s) → ps_inv (pheap s) → mapping (pmem s) pt 0 = None → Z.of_nat (length src) < PGSIZE →
  uvm_init pt src s = Panic alloc_error ∨
  ∃ q s', uvm_init pt src s = Done s' ∧ apart_from pt s s' ∧ pt_inv (pmem s') pt (pheap s') ∧ ps_inv (pheap s') ∧
    page_ok q ∧ ¬ ps_page (pheap s) q ∧ ps_page (pheap s') q ∧ ¬ table_of (pmem s') pt q ∧
    (∀ o, 0 ≤ o < PGSIZE → pmem s' (q + o) = nth (Z.to_nat o) src 0) ∧
    ∀ v, 0 ≤ v < 2 ^ 39 → mapping (pmem s') pt v = if decide (page_of v = 0) then Some (leaf_pte q USER_FLAGS) else mapping (pmem s) pt v.
Proof.
  intros Hi Hps Hnone Hl. unfold uvm_init. destruct (Z.leb_spec PGSIZE (Z.of_nat (length src))); [lia|].
  destruct (fresh_page_ok pt 0 s Hi Hps) as [->|(q & s1 & -> & [E|(s2 & E & Ha & Ht & Hh & Hq & Hnew & Hu & Hqt & Hz & Hm)])];
    [done|done|by vm_compute|done|by left|..]; rewrite bind_Done_l; cbv zeta; rewrite E; [by left|]. rewrite bind_Done_l.
  destruct (apart_write pt s s2 q (store_bytes (pmem s2) q src)) as (Ha3 & Hi3 & Ht3 & Hm3); [done..| |].
  { intros x Hx. unfold store_bytes, in_page in *. destruct (Z.leb_spec q x), (Z.ltb_spec x (q + Z.of_nat (length src))); (done || lia). }
  right. exists q, (with_mem s2 (store_bytes (pmem s2) q src)). cbn [pmem pheap with_mem].
  split; [done|]. split; [done|]. split; [done|]. split; [done|]. split; [done|]. split; [done|]. split; [done|]. split; [by rewrite Ht3|]. split.
  - intros o Ho. unfold store_bytes. replace (q + o - q) with o by lia.
    destruct (Z.leb_spec q (q + o)), (Z.ltb_spec (q + o) (q + Z.of_nat (length src))); try lia; [done|]. cbn [andb].
    rewrite nth_overflow by lia. apply Hz. unfold in_page. lia.
  - intros v Hv. by rewrite Hm3, Hm.
Qed.
End Init.
