(* ===== verification/KernelMap.v ===== *)
(** * The kernel's page table

    Models [memory/mapping/kernel_map.rs] and [ProcManager::proc_mapstacks] of
    [process/manager.rs]: the direct map of devices and memory, the trampoline
    and the kernel stacks.  [etext] and [trampoline] are linker symbols. *)

From Stdlib Require Import ZArith Lia.
From stdpp Require Import base gmap strings numbers list.
From S2P Require Import Prelude Buddy BuddyBoot Address Pte PhysMem PageTable PageTableSpec KernelHeap UserCopy PageTableTheorems.

Local Open Scope Z_scope.

(** What the stacks need of the heap: four pages of memory in a row. *)
Class StackSource (H : Type) := new_stack : H → outcome (Z * H).

Definition STACK_SIZE : Z := PGSIZE * 4.

Section Boot.
Context {BFl : BitFlags} {H : Type} {PS : PageSource H} {SS : StackSource H}.

(** [Stack::new_zeroed]. *)
Definition new_zeroed_stack (s : pstate H) : outcome (Z * pstate H) :=
  '(p, h) ← new_stack (pheap s);
  Done (p, mkP (write_bytes (pmem s) p 0 STACK_SIZE) h).

Definition kernel_stack (pos : Z) : outcome Z :=
  a ← uadd pos 1;
  a ← umul a 5;
  a ← umul a PGSIZE;
  usub TRAMPOLINE a.

Definition proc_mapstacks (root : Z) (s : pstate H) : outcome (pstate H) :=
  for_range 0 NPROC (λ pos s,
    '(pa, s) ← new_zeroed_stack s;
    va ← kernel_stack pos;
    kernel_map root va pa (PGSIZE * 4) (flags_or PTE_R PTE_W) s) s.

(** [kernel_map()] of [kernel_map.rs]; [root] is [KERNEL_PAGETABLE]. *)
Definition kernel_map_all (root etext trampoline : Z) (s : pstate H) : outcome (pstate H) :=
  s ← kernel_map root VIRT_TEST VIRT_TEST PGSIZE (flags_or PTE_R PTE_W) s;
  s ← kernel_map root UART0 UART0 PGSIZE (flags_or PTE_R PTE_W) s;
  s ← kernel_map root VIRTIO0 VIRTIO0 PGSIZE (flags_or PTE_R PTE_W) s;
  s ← kernel_map root ECAM ECAM 0x10000000 (flags_or PTE_R PTE_W) s;
  s ← kernel_map root E1000_REGS E1000_REGS 0x20000 (flags_or PTE_R PTE_W) s;
  s ← kernel_map root CLINT CLINT 0x10000 (flags_or PTE_R PTE_W) s;
  s ← kernel_map root PLIC_BASE PLIC_BASE 0x400000 (flags_or PTE_R PTE_W) s;
  text ← usub etext KERNEL_BASE;
  s ← kernel_map root KERNEL_BASE KERNEL_BASE text (flags_or PTE_R PTE_X) s;
  data ← usub PHYSTOP etext;
  s ← kernel_map root etext etext data (flags_or PTE_R PTE_W) s;
  s ← kernel_map root TRAMPOLINE trampoline PGSIZE (flags_or PTE_R PTE_X) s;
  proc_mapstacks root s.

(** [kvm_init]: the assertions compare the layouts of [RawPage] and
    [PageTable], both 4096 bytes with alignment 4096. *)
Definition kvm_init (root etext trampoline : Z) (s : pstate H) : outcome (pstate H) :=
  kernel_map_all root etext trampoline s.

(** [kvm_init_hart]: the value written to [satp]. *)
Definition kvm_init_hart (root : Z) : Z := as_satp root.
End Boot.

(** ** Correctness *)

Class StackSourceLaws (H : Type) `{PageSourceLaws H} `{StackSource H} := {
  new_stack_ok h : ps_inv h →
    new_stack h = Panic alloc_error ∨
    ∃ p h', new_stack h = Done (p, h') ∧ ps_inv h' ∧
      p mod PGSIZE = 0 ∧ 0 < p ∧ p + STACK_SIZE < 2 ^ 64 ∧
      (∀ q, p ≤ q < p + STACK_SIZE → ¬ ps_page h (page_of q)) ∧
      ∀ q, q mod PGSIZE = 0 → ps_page h' q ↔ ps_page h q ∨ p ≤ q < p + STACK_SIZE;
}.

(** A mapped range: virtual and physical start, size, flags. *)
Record region := mkRegion { r_va : Z; r_pa : Z; r_size : Z; r_perm : Z }.

Definition in_region (r : region) (va : Z) : Prop := r_va r ≤ va < r_va r + r_size r.

Global Instance in_region_dec r va : Decision (in_region r va).
Proof. unfold in_region. apply _. Defined.

(** The entry that a list of regions gives an address. *)
Fixpoint lookup_region (rs : list region) (va : Z) : option Z :=
  match rs with
  | [] => None
  | r :: rs =>
      if decide (in_region r va) then Some (leaf_pte (r_pa r + (page_of va - r_va r)) (r_perm r))
      else lookup_region rs va
  end.

Definition RW : Z := Z.lor PTE_R PTE_W.
Definition RX : Z := Z.lor PTE_R PTE_X.

(** The ranges [kernel_map] maps before the stacks, last one first. *)
Definition kernel_regions (etext trampoline : Z) : list region :=
  [ mkRegion TRAMPOLINE trampoline PGSIZE RX;
    mkRegion etext etext (PHYSTOP - etext) RW;
    mkRegion KERNEL_BASE KERNEL_BASE (etext - KERNEL_BASE) RX;
    mkRegion PLIC_BASE PLIC_BASE 0x400000 RW;
    mkRegion CLINT CLINT 0x10000 RW;
    mkRegion E1000_REGS E1000_REGS 0x20000 RW;
    mkRegion ECAM ECAM 0x10000000 RW;
    mkRegion VIRTIO0 VIRTIO0 PGSIZE RW;
    mkRegion UART0 UART0 PGSIZE RW;
    mkRegion VIRT_TEST VIRT_TEST PGSIZE RW ].

(** Where the stack of a process slot goes. *)
Definition stack_va (pos : Z) : Z := TRAMPOLINE - (pos + 1) * 5 * PGSIZE.

Definition stack_region (pos pa : Z) : region := mkRegion (stack_va pos) pa STACK_SIZE RW.

(** The stacks mapped so far, last one first. *)
Fixpoint stack_regions (stacks : list Z) : list region :=
  match stacks with
  | [] => []
  | pa :: rest => stack_region (Z.of_nat (length rest)) pa :: stack_regions rest
  end.

Definition region_ok (r : region) : Prop :=
  0 ≤ r_va r ∧ 0 ≤ r_size r ∧ r_va r + r_size r ≤ MAXVA ∧ 0 ≤ r_pa r ∧ r_pa r + r_size r < 2 ^ 64 ∧
  r_va r mod PGSIZE = 0 ∧ r_size r mod PGSIZE = 0 ∧ 0 ≤ r_perm r < 2 ^ 10.

(** ** Proofs about the layout *)

Ltac layout_lia :=
  unfold VIRT_TEST, UART0, VIRTIO0, ECAM, E1000_REGS, CLINT, PLIC_BASE, stack_va, STACK_SIZE, NPROC in *;
  change TRAMPOLINE with (2 ^ 38 - 4096) in *; change MAXVA with (2 ^ 38) in *;
  change PHYSTOP with 0x88000000 in *; change KERNEL_BASE with 0x80000000 in *; unfold PGSIZE in *;
  first [lia | divlia].

(** No earlier region overlaps the next one. *)
Ltac solve_disjoint :=
  let x := fresh "x" in let Hx := fresh "Hx" in
  intros x Hx; unfold kernel_regions, lookup_region;
  repeat (rewrite decide_False by (unfold in_region; cbn [r_va r_size]; layout_lia)); reflexivity.

Ltac solve_region :=
  unfold region_ok; cbn [r_va r_pa r_size r_perm]; split_and!; first [layout_lia | by vm_compute].

Section Correct.
Context {BFl : BitFlags} {BFlL : BitFlagsLaws} {H : Type} {PS : PageSource H} {PSL : PageSourceLaws H}.
Context {SS : StackSource H} {SSL : StackSourceLaws H}.

(** The page table maps exactly the given regions. *)
Record maps (root : Z) (rs : list region) (s : pstate H) : Prop := {
  mp_inv : pt_inv (pmem s) root (pheap s);
  mp_heap : ps_inv (pheap s);
  mp_map va : 0 ≤ va < 2 ^ 39 → mapping (pmem s) root va = lookup_region rs va;
}.

(** Mapping a region that overlaps none of the mapped ones. *)
Lemma kernel_map_step root rs va pa size perm s :
  maps root rs s → region_ok (mkRegion va pa size perm) →
  (∀ x, va ≤ x < va + size → lookup_region rs x = None) →
  kernel_map root va pa size perm s = Panic alloc_error ∨
  ∃ s', kernel_map root va pa size perm s = Done s' ∧ maps root (mkRegion va pa size perm :: rs) s' ∧
    ∀ q, q mod PGSIZE = 0 → ps_page (pheap s) q → ps_page (pheap s') q.
Proof.
  intros Hm (Hva & Hsz & Hmax & Hpa & Hpa2 & Hal & Hals & Hperm) Hdis. simpl in *.
  assert (MAXVA = 2 ^ 38) as Emax by done.
  assert (page_of va = va ∧ page_of (va + size + PGSIZE - 1) = va + size) as [E1 E2]
    by (unfold page_of, PGSIZE in *; divlia).
  unfold kernel_map. destruct (map_ok root va pa size perm s) as [->|[(-> & va' & Hr & Hne)|(s' & -> & He & Hmap)]];
    [apply Hm|apply Hm|lia..| | |]; [by left| |].
  - exfalso. unfold in_range in Hr. rewrite E1, E2 in Hr. rewrite (mp_map _ _ _ Hm), Hdis in Hne by lia. done.
  - right. exists s'. split; [done|]. split; [constructor; [apply He|apply He|]|apply He].
    intros x Hx. rewrite Hmap by done. simpl.
    destruct (decide (in_range va size x)) as [Hd|Hd], (decide (in_region _ x)) as [Hd'|Hd'];
      unfold in_range in Hd; unfold in_region in Hd'; simpl in Hd'; rewrite E1, E2 in Hd; try done;
      [by rewrite E1|by apply (mp_map _ _ _ Hm)].
Qed.

(** Memory that was free is not part of the page table. *)
Lemma stack_frame root s p q x :
  pt_inv (pmem s) root (pheap s) → (∀ y, p ≤ y < p + STACK_SIZE → ¬ ps_page (pheap s) (page_of y)) →
  table_of (pmem s) root q → in_page q x → write_bytes (pmem s) p 0 STACK_SIZE x = pmem s x.
Proof.
  intros Hi Hnew Hq Hx. destruct (table_page _ _ _ _ Hi Hq) as [Hpo Hps].
  unfold write_bytes. destruct (Z.leb_spec p x), (Z.ltb_spec x (p + STACK_SIZE)); simpl; try done.
  exfalso. apply (Hnew x); [lia|]. replace (page_of x) with q; [done|].
  destruct Hpo as [Hqa _]. unfold in_page, page_of, PGSIZE in *. divlia.
Qed.

(** Allocating a stack does not touch the page table. *)
Lemma new_stack_step root rs s :
  maps root rs s →
  new_zeroed_stack s = Panic alloc_error ∨
  ∃ p s', new_zeroed_stack s = Done (p, s') ∧ maps root rs s' ∧
    p mod PGSIZE = 0 ∧ 0 < p ∧ p + STACK_SIZE < 2 ^ 64 ∧
    (∀ q, p ≤ q < p + STACK_SIZE → ¬ ps_page (pheap s) (page_of q)) ∧
    ∀ q, q mod PGSIZE = 0 → ps_page (pheap s') q ↔ ps_page (pheap s) q ∨ p ≤ q < p + STACK_SIZE.
Proof.
  intros Hm. unfold new_zeroed_stack.
  destruct (new_stack_ok (pheap s) (mp_heap _ _ _ Hm)) as [->|(p & h' & -> & Hi & Hal & H0 & Hlt & Hnew & Hq)]; [by left|].
  right. eexists _, _. split; [done|]. split; [|done].
  destruct (tree_same (pmem s) (write_bytes (pmem s) p 0 STACK_SIZE) root (pheap s) h') as (Hinv & _ & Hmap);
    [apply Hm|intros q x; by apply stack_frame; [apply Hm|]|intros q Hqa Hu; by apply Hq; [|left]|].
  constructor; simpl; [done|done|]. intros va Hva. rewrite Hmap. by apply (mp_map _ _ _ Hm).
Qed.

Lemma kernel_stack_ok pos : 0 ≤ pos < NPROC → kernel_stack pos = Done (stack_va pos).
Proof.
  intros Hp. unfold kernel_stack, stack_va. assert (TRAMPOLINE = 2 ^ 38 - 4096) as -> by done.
  unfold NPROC, PGSIZE in *. rewrite uadd_ok by lia. simpl. rewrite umul_ok by lia. simpl.
  rewrite umul_ok by lia. simpl. rewrite usub_ok by lia. done.
Qed.

(** ** The stacks *)

(** The memory of a stack, whose pages are in use. *)
Definition stack_ok (h : H) (p : Z) : Prop :=
  p mod PGSIZE = 0 ∧ 0 < p ∧ p + STACK_SIZE < 2 ^ 64 ∧
  ∀ q, q mod PGSIZE = 0 → p ≤ q < p + STACK_SIZE → ps_page h q.

Definition apart (p q : Z) : Prop := p + STACK_SIZE ≤ q ∨ q + STACK_SIZE ≤ p.

(** Below the stacks mapped so far there is only what was mapped before them. *)
Lemma lookup_below stacks rs x :
  x < stack_va (Z.of_nat (length stacks)) + STACK_SIZE →
  lookup_region (stack_regions stacks ++ rs) x = lookup_region rs x.
Proof.
  induction stacks as [|p stacks IH]; simpl; intros Hx; [done|].
  unfold stack_va, STACK_SIZE, PGSIZE in *. rewrite decide_False; [apply IH; lia|].
  unfold in_region, stack_region, stack_va, PGSIZE. simpl. lia.
Qed.

Lemma stack_step root rs stacks s :
  let pos := Z.of_nat (length stacks) in
  pos < NPROC → maps root (stack_regions stacks ++ rs) s → Forall (stack_ok (pheap s)) stacks →
  ForallOrdPairs apart stacks →
  (∀ x, stack_va pos ≤ x < stack_va pos + STACK_SIZE → lookup_region rs x = None) →
  let body := ('(pa, s) ← new_zeroed_stack s;
    va ← kernel_stack pos;
    kernel_map root va pa (PGSIZE * 4) (flags_or PTE_R PTE_W) s) in
  body = Panic alloc_error ∨
  ∃ p s', body = Done s' ∧ maps root (stack_regions (p :: stacks) ++ rs) s' ∧
    Forall (stack_ok (pheap s')) (p :: stacks) ∧ ForallOrdPairs apart (p :: stacks).
Proof.
  intros pos Hpos Hm Hok Hap Hrs body.
  assert (0 ≤ pos) as H0 by (unfold pos; lia). unfold body.
  destruct (new_stack_step _ _ _ Hm) as [->|(p & s1 & -> & Hm1 & Hal & Hp0 & Hlt & Hnew & Hq)]; [by left|].
  cbn [mbind outcome_bind]. rewrite kernel_stack_ok by done. cbn [mbind outcome_bind]. rewrite flags_or_bits.
  change (Z.lor PTE_R PTE_W) with RW. change (PGSIZE * 4) with STACK_SIZE.
  assert (region_ok (stack_region pos p)) as Hr.
  { assert (TRAMPOLINE = 2 ^ 38 - 4096) as Et by done. assert (MAXVA = 2 ^ 38) as Em by done.
    unfold region_ok, stack_region, stack_va, STACK_SIZE, NPROC, PGSIZE in *. simpl. rewrite Et, Em.
    split_and!; try lia; try divlia; by vm_compute. }
  destruct (kernel_map_step root (stack_regions stacks ++ rs) (stack_va pos) p STACK_SIZE RW s1)
    as [->|(s2 & -> & Hm2 & Hpg)]; [done|done| |by left|].
  { intros x Hx. rewrite lookup_below by (unfold pos in *; lia). by apply Hrs. }
  right. exists p, s2. split; [done|]. split; [done|]. split; [constructor|constructor].
  - split_and!; [done|done|done|]. intros q Hqa Hqr. apply Hpg; [done|]. apply Hq; [done|by right].
  - eapply Forall_impl; [exact Hok|]. intros p' (? & ? & ? & Hp'). split_and!; [done..|].
    intros q Hqa Hqr. apply Hpg; [done|]. apply Hq; [done|]. left. by apply Hp'.
  - eapply Forall_impl; [exact Hok|]. intros p' (Hal' & _ & _ & Hp'). unfold apart.
    destruct (Z.le_gt_cases (p + STACK_SIZE) p'); [by left|]. right.
    destruct (Z.le_gt_cases (p' + STACK_SIZE) p); [done|]. exfalso.
    apply (Hnew (Z.max p p')); [lia|].
    rewrite page_of_aligned by (destruct (Z.max_spec p p') as [[_ ->]|[_ ->]]; done).
    apply Hp'; [destruct (Z.max_spec p p') as [[_ ->]|[_ ->]]; done|lia].
  - done.
Qed.

Lemma proc_mapstacks_ok root rs s :
  maps root rs s → (∀ x, stack_va (NPROC - 1) ≤ x < TRAMPOLINE → lookup_region rs x = None) →
  proc_mapstacks root s = Panic alloc_error ∨
  ∃ stacks s', proc_mapstacks root s = Done s' ∧ maps root (stack_regions stacks ++ rs) s' ∧
    Z.of_nat (length stacks) = NPROC ∧ Forall (stack_ok (pheap s')) stacks ∧ ForallOrdPairs apart stacks.
Proof.
  intros Hm Hrs. unfold proc_mapstacks.
  destruct (for_range_panic (λ pos s', ∃ stacks, Z.of_nat (length stacks) = pos ∧
    maps root (stack_regions stacks ++ rs) s' ∧ Forall (stack_ok (pheap s')) stacks ∧ ForallOrdPairs apart stacks)
    alloc_error 0 NPROC (λ pos s,
      '(pa, s) ← new_zeroed_stack s;
      va ← kernel_stack pos;
      kernel_map root va pa (PGSIZE * 4) (flags_or PTE_R PTE_W) s) s) as [->|(s' & -> & stacks & ? & ? & ? & ?)];
    [done| | |by left|right; by exists stacks, s'].
  - exists []. split_and!; [done|done|constructor|constructor].
  - intros pos s1 Hpos (stacks & <- & Hm1 & Hok & Hap).
    destruct (stack_step root rs stacks s1) as [?|(p & s2 & ? & ? & ? & ?)]; [lia|done|done|done| |by left|].
    { intros x Hx. apply Hrs. unfold stack_va, STACK_SIZE, NPROC, PGSIZE in *. lia. }
    right. exists s2. split; [done|]. exists (p :: stacks). split; [simpl; lia|done].
Qed.

(** ** The whole map *)

Ltac map_next Hm :=
  match type of Hm with maps ?root ?rs ?s =>
    match goal with |- context [kernel_map root ?va ?pa ?size ?perm s] =>
      let s' := fresh "s" in let Hm' := fresh "Hm" in
      destruct (kernel_map_step root rs va pa size perm s) as [->|(s' & -> & Hm' & _)];
      [exact Hm|solve_region|solve_disjoint|by left|]; cbn [mbind outcome_bind]; clear Hm; rename Hm' into Hm
    end
  end.

Lemma kernel_map_ok root etext trampoline s :
  maps root [] s → etext mod PGSIZE = 0 → KERNEL_BASE ≤ etext ≤ PHYSTOP →
  trampoline mod PGSIZE = 0 → 0 ≤ trampoline < PHYSTOP →
  kernel_map_all root etext trampoline s = Panic alloc_error ∨
  ∃ stacks s', kernel_map_all root etext trampoline s = Done s' ∧
    maps root (stack_regions stacks ++ kernel_regions etext trampoline) s' ∧
    Z.of_nat (length stacks) = NPROC ∧ Forall (stack_ok (pheap s')) stacks ∧ ForallOrdPairs apart stacks.
Proof.
  intros Hm Hea He Hta Ht. unfold kernel_map_all. rewrite !flags_or_bits.
  change (Z.lor PTE_R PTE_W) with RW. change (Z.lor PTE_R PTE_X) with RX.
  do 7 map_next Hm. rewrite (usub_ok etext), (usub_ok PHYSTOP) by layout_lia. cbn [mbind outcome_bind].
  do 3 map_next Hm.
  apply proc_mapstacks_ok; [exact Hm|]. solve_disjoint.
Qed.

Lemma lookup_perm rs va pte :
  Forall (λ r, r_perm r = RW ∨ r_perm r = RX) rs → lookup_region rs va = Some pte →
  is_write pte = true → is_execute pte = false.
Proof.
  induction 1 as [|r rs Hr _ IH]; simpl; [done|]. case_decide; [|done]. intros [= <-].
  unfold is_write, is_execute. change PTE_W with (2 ^ 2). change PTE_X with (2 ^ 3).
  destruct Hr as [-> | ->]; rewrite !flag_test by (split; by vm_compute); done.
Qed.

Lemma stack_perms stacks : Forall (λ r, r_perm r = RW ∨ r_perm r = RX) (stack_regions stacks).
Proof. induction stacks as [|p stacks IH]; simpl; constructor; [by left|done]. Qed.

(** The stacks do not reach below the last one, nor above the first. *)
Lemma lookup_outside stacks rs x :
  Z.of_nat (length stacks) ≤ NPROC →
  x < stack_va (NPROC - 1) ∨ TRAMPOLINE - PGSIZE ≤ x →
  lookup_region (stack_regions stacks ++ rs) x = lookup_region rs x.
Proof.
  induction stacks as [|p stacks IH]; intros Hl Hx; [done|]. cbn [stack_regions app lookup_region length] in *.
  rewrite decide_False; [apply IH; [lia|done]|]. unfold in_region, stack_region. cbn [r_va r_size].
  unfold stack_va, STACK_SIZE, NPROC, PGSIZE in *. lia.
Qed.

(** The page above a stack belongs to none. *)
Lemma lookup_guard stacks rs pos x :
  stack_va pos + STACK_SIZE ≤ x < stack_va pos + STACK_SIZE + PGSIZE →
  lookup_region (stack_regions stacks ++ rs) x = lookup_region rs x.
Proof.
  intros Hx. induction stacks as [|p stacks IH]; [done|]. cbn [stack_regions app lookup_region].
  rewrite decide_False; [done|]. unfold in_region, stack_region. cbn [r_va r_size].
  unfold stack_va, STACK_SIZE, PGSIZE in *. lia.
Qed.

(** Memory is mapped one to one. *)
Lemma lookup_ram etext trampoline va :
  KERNEL_BASE ≤ etext ≤ PHYSTOP → KERNEL_BASE ≤ va < PHYSTOP →
  lookup_region (kernel_regions etext trampoline) va =
  Some (leaf_pte (page_of va) (if decide (etext ≤ va) then RW else RX)).
Proof.
  intros He Hva. unfold kernel_regions, lookup_region.
  rewrite decide_False by (unfold in_region; cbn [r_va r_size]; layout_lia).
  destruct (decide (etext ≤ va)).
  - rewrite decide_True by (unfold in_region; cbn [r_va r_size]; layout_lia). cbn [r_pa r_va r_perm].
    do 2 f_equal. lia.
  - rewrite decide_False by (unfold in_region; cbn [r_va r_size]; layout_lia).
    rewrite decide_True by (unfold in_region; cbn [r_va r_size]; layout_lia). cbn [r_pa r_va r_perm].
    do 2 f_equal. lia.
Qed.

Lemma maps_ram root etext trampoline stacks s va :
  maps root (stack_regions stacks ++ kernel_regions etext trampoline) s → Z.of_nat (length stacks) = NPROC →
  KERNEL_BASE ≤ etext ≤ PHYSTOP → KERNEL_BASE ≤ va < PHYSTOP → pgt_translate root va (pmem s) = Some (page_of va).
Proof.
  intros Hm Hl He Hva. rewrite pgt_translate_mapping by layout_lia. rewrite (mp_map _ _ _ Hm) by layout_lia.
  rewrite lookup_outside by layout_lia. rewrite lookup_ram by done. simpl. f_equal.
  pose proof (page_of_bounds va) as [Hb Hb2].
  apply leaf_pte_fields; [layout_lia|done|case_decide; by vm_compute].
Qed.

(** C18. [kvm_init] on an empty kernel page table, with page-aligned linker
    symbols: it runs out of memory or returns a page table that maps exactly
    the devices, the memory, the trampoline and one stack for each process
    slot.  Memory is mapped one to one, no page is both writable and
    executable, the stacks lie in disjoint memory, and the page above each
    stack is not mapped. *)
Theorem kvm_init_correct root etext trampoline s :
  maps root [] s → etext mod PGSIZE = 0 → KERNEL_BASE ≤ etext ≤ PHYSTOP →
  trampoline mod PGSIZE = 0 → 0 ≤ trampoline < PHYSTOP →
  kvm_init root etext trampoline s = Panic alloc_error ∨
  ∃ stacks s', kvm_init root etext trampoline s = Done s' ∧
    maps root (stack_regions stacks ++ kernel_regions etext trampoline) s' ∧
    Z.of_nat (length stacks) = NPROC ∧ ForallOrdPairs apart stacks ∧
    (∀ va, KERNEL_BASE ≤ va < PHYSTOP → pgt_translate root va (pmem s') = Some (page_of va)) ∧
    (∀ va pte, 0 ≤ va < 2 ^ 39 → mapping (pmem s') root va = Some pte →
       is_write pte = true → is_execute pte = false) ∧
    (∀ pos va, 0 ≤ pos < NPROC → stack_va pos + STACK_SIZE ≤ va < stack_va pos + STACK_SIZE + PGSIZE →
       mapping (pmem s') root va = None).
Proof.
  intros Hm Hea He Hta Ht. unfold kvm_init.
  destruct (kernel_map_ok root etext trampoline s) as [->|(stacks & s' & -> & Hm' & Hl & Hok & Hap)]; [done..|by left|].
  right. exists stacks, s'. split_and!; [done|done|done|done|..].
  - intros va Hva. by apply (maps_ram root etext trampoline stacks).
  - intros va pte Hva. rewrite (mp_map _ _ _ Hm') by done. apply lookup_perm.
    apply Forall_app. split; [apply stack_perms|]. unfold kernel_regions. repeat apply Forall_cons_2; try apply Forall_nil_2; cbn [r_perm]; auto.
  - intros pos va Hpos Hva. rewrite (mp_map _ _ _ Hm') by layout_lia. rewrite (lookup_guard _ _ pos) by done.
    revert va Hva. solve_disjoint.
Qed.
End Correct.

(** ** The kernel heap provides stacks *)

Definition stack_layout : Layout := mkLayout STACK_SIZE PGSIZE.

#[export] Instance buddy_stacks `{BitField} : StackSource BuddySystem := λ b,
  '(p, b) ← heap_acquire_alloc b stack_layout;
  if p =? 0 then alloc_error_handler stack_layout else Done (p, b).

#[export] Instance buddy_stacks_laws `{BitFieldLaws} : StackSourceLaws BuddySystem.
Proof.
  constructor. intros h Hi. unfold new_stack, buddy_stacks.
  destruct (buddy_new_pages h stack_layout 2 Hi) as [(b' & ->)|(p & b' & -> & Hi' & Hal & H0' & Hlt & Eb & Hge & Hnew & Hq)];
    [lia|done|done|done|by left|]. right.
  destruct Hi as (v & c & _ & _ & _ & Hbase & _). destruct (used_extend h b' p STACK_SIZE) as [Hnew' Hq']; [done..|].
  cbn [mbind outcome_bind]. destruct (Z.eqb_spec p 0); [lia|].
  assert (p + STACK_SIZE < 2 ^ 64) by (change (PGSIZE * 2 ^ 2) with STACK_SIZE in Hlt; lia). by exists p, b'.
Qed.

(** ** An instance *)

Instance bump_stacks : StackSource Z := λ n,
  if n + STACK_SIZE <=? 2 ^ 40 then Done (n, n + STACK_SIZE) else Panic alloc_error.

Instance bump_stacks_laws : StackSourceLaws Z.
Proof.
  constructor. intros n [Hal Hn]. unfold new_stack, bump_stacks, STACK_SIZE, PGSIZE in *.
  destruct (Z.leb_spec (n + 4096 * 4) (2 ^ 40)); [|by left].
  right. exists n, (n + 4096 * 4). split_and!; [done|unfold ps_inv; simpl; unfold PGSIZE; divlia|done|done|lia|..];
    unfold ps_page, page_of, PGSIZE; simpl; intros; divlia.
Qed.

Lemma demo_maps : maps demo_root [] demo_state.
Proof. constructor; [exact demo_inv|exact demo_ps|]. intros va _. reflexivity. Qed.

Lemma kvm_init_correct_witness :
  @kvm_init bit_flags_std Z _ _ demo_root 0x80010000 0x80008000 demo_state = Panic alloc_error ∨
  ∃ s', @kvm_init bit_flags_std Z _ _ demo_root 0x80010000 0x80008000 demo_state = Done s' ∧
    pgt_translate demo_root 0x80123456 (pmem s') = Some 0x80123000.
Proof.
  destruct (@kvm_init_correct bit_flags_std bit_flags_std_laws Z _ _ _ _ demo_root 0x80010000 0x80008000 demo_state demo_maps)
    as [E|(stacks & s' & E & _ & _ & _ & Hram & _)];
    [reflexivity|by vm_compute|reflexivity|by vm_compute|left; exact E|right].
  exists s'. split; [exact E|]. clear E. rewrite Hram by (by vm_compute). reflexivity.
Defined.
