(* ===== verification/MemoryRoom.v ===== *)
(** * Enough memory

    When the heap cannot fail, and how many pages the page tables need. *)

From Stdlib Require Import ZArith Lia.
From stdpp Require Import base gmap strings numbers list.
From S2P Require Import Prelude Address Pte PhysMem PageTable PageTableSpec.
From S2P Require Import BuddyList Buddy BuddyTree BuddyRep BuddySpec BuddyInit BuddyBoot KernelHeap KernelMap.

Local Open Scope Z_scope.

(** * Room in the heap

    When an allocation cannot fail.  The heap's blocks of 16 kilobytes that have
    nothing in use in them are counted: a request for one page or one stack takes
    away one of them at most, and as long as there is one it succeeds. *)

(** ** What clients may count on *)

(** [ps_room h n]: the next [n] requests succeed. *)
Class PageRoom (H : Type) `{PageSourceLaws H} := {
  ps_room : H → nat → Prop;
  ps_room_less h n n' : (n' ≤ n)%nat → ps_room h n → ps_room h n';
  new_page_room h n : ps_inv h → ps_room h (S n) → ∃ p h', new_page h = Done (p, h') ∧ ps_room h' n;
}.

Class StackRoom (H : Type) `{PageRoom H} `{StackSource H} :=
  new_stack_room h n : ps_inv h → ps_room h (S n) → ∃ p h', new_stack h = Done (p, h') ∧ ps_room h' n.

(** ** Blocks with nothing in use *)

(** One of the two blocks contains the other. *)
Definition related (k i k' i' : Z) : Prop :=
  (k' ≤ k ∧ i' / 2 ^ (k - k') = i) ∨ (k < k' ∧ i / 2 ^ (k' - k) = i').

(** Every block is a node, or lies in an unsplit one. *)
Lemma node_or_inside mx v (d : nat) k i :
  k + Z.of_nat d = mx → block mx k i →
  exists_in mx v k i ∨ ∃ k' i', is_leaf mx v k' i' ∧ k < k' ∧ i / 2 ^ (k' - k) = i'.
Proof.
  revert k i. induction d as [|d IH]; intros k i Hd Hb; [left; left; lia|].
  destruct (vS v (k + 1) (i / 2)) eqn:Hs; [left; by right|]. right.
  pose proof (block_parent mx k i Hb ltac:(lia)) as Hbp.
  destruct (IH (k + 1) (i / 2) ltac:(lia) Hbp) as [He|(k' & i' & Hl & Hlt & Hi)].
  - exists (k + 1), (i / 2). split; [done|]. split; [lia|]. by replace (k + 1 - k) with 1 by lia.
  - exists k', i'. split; [done|]. split; [lia|]. replace (k' - k) with (1 + (k' - (k + 1))) by lia.
    destruct Hb as [Hk _]. rewrite Z.pow_add_r, Z.pow_1_r, <- Z.div_div by (try apply Z.pow_pos_nonneg; lia). done.
Qed.

(** A block with nothing in use lies in a free one. *)
Lemma untouched_free {BF : BitField} b v k i :
  buddy_inv b v → bblock b k i →
  (∀ k' i', bblock b k' i' → bused b v k' i' → ¬ related k i k' i') →
  ∃ k', k ≤ k' ≤ mx b ∧ vF v k' ≠ [].
Proof.
  intros [Hwf Hrep Hti] Hb Hno. pose proof Hb as [Hk _].
  assert (∀ k' i', is_leaf (mx b) v k' i' → related k i k' i' → bbaddr b k' i' ∈ vF v k') as Hfree.
  { intros k' i' (Hb' & He & Hs) Hr. destruct (decide (bbaddr b k' i' ∈ vF v k')) as [|Hn]; [done|].
    exfalso. by apply (Hno k' i' Hb'). }
  assert (∀ k', is_leaf (mx b) v k' (i / 2 ^ (k' - k)) → k ≤ k' → ∃ k', k ≤ k' ≤ mx b ∧ vF v k' ≠ []) as Hdone.
  { intros k' Hl Hle. pose proof Hl as [[Hk' _] _]. exists k'. split; [lia|].
    enough (bbaddr b k' (i / 2 ^ (k' - k)) ∈ vF v k') as Hin by (intros E; rewrite E in Hin; by apply elem_of_nil in Hin).
    apply Hfree; [done|]. destruct (decide (k = k')) as [<-|]; [left|right; by split; [lia|]].
    split; [lia|]. by rewrite Z.sub_diag, Z.pow_0_r, !Z.div_1_r. }
  destruct (node_or_inside (mx b) v (Z.to_nat (mx b - k)) k i) as [He|(k' & i' & Hl & Hlt & <-)]; [lia|done| |by apply (Hdone k'); [|lia]].
  destruct (vS v k i) eqn:Hs.
  - exfalso. destruct (split_used_below (mx b) (base b) (leaf_size b) (infos_ptr b) v (Z.to_nat k) i) as (k' & i' & Hb' & Hk' & Hi' & Hu).
    + done.
    + by rewrite Z2Nat.id by lia.
    + by rewrite Z2Nat.id by lia.
    + rewrite Z2Nat.id in Hk', Hi' by lia. apply (Hno k' i' Hb' Hu). left. by split; [lia|].
  - apply (Hdone k); [|lia]. rewrite Z.sub_diag, Z.pow_0_r, Z.div_1_r. by split_and!.
Qed.

Lemma length_filter_ne (l : list Z) c : NoDup l → (length l ≤ S (length (filter (λ x, x ≠ c) l)))%nat.
Proof.
  induction 1 as [|x l Hx Hl IH]; [cbn; lia|]. rewrite filter_cons. destruct (decide (x ≠ c)) as [Hne|He]; cbn [length]; [lia|].
  assert (x = c) as -> by (by destruct (decide (x = c))).
  enough (filter (λ x, x ≠ c) l = l) as -> by lia. clear -Hx.
  induction l as [|y l IH]; [done|]. rewrite filter_cons. apply not_elem_of_cons in Hx as [? ?].
  rewrite decide_True by congruence. by rewrite IH.
Qed.

(** ** The kernel heap *)

Section Discharge.
Context {BF : BitField} {BFL : BitFieldLaws}.

(** The size of a stack's block: 16 kilobytes. *)
Definition CHUNK : Z := 10.

(** Nothing is in use in the chunk. *)
Definition chunk_free (b : BuddySystem) (i : Z) : Prop :=
  bblock b CHUNK i ∧ ∀ k' i', bblock b k' i' → k' < mx b → live_block b k' i' → ¬ related CHUNK i k' i'.

Definition kheap_room (b : BuddySystem) (n : nat) : Prop :=
  ∃ l, NoDup l ∧ (n ≤ length l)%nat ∧ ∀ i, i ∈ l → chunk_free b i.

Lemma chunk_free_used b v c i :
  heap b v c → chunk_free b i ↔ bblock b CHUNK i ∧ ∀ k' i', bblock b k' i' → bused b v k' i' → ¬ related CHUNK i k' i'.
Proof.
  intros Hh. unfold chunk_free. split; intros [Hb Hn]; (split; [done|]); intros k' i' Hb'.
  - intros Hu. apply (used_live b v c k' i' Hh Hb') in Hu as [? ?]. by apply Hn.
  - intros Hk Hl. apply Hn; [done|]. by apply (used_live b v c k' i' Hh Hb').
Qed.

Lemma buddy_room b l e n :
  kheap_inv b → 0 ≤ e ≤ 2 → size l = PGSIZE * 2 ^ e → align l = PGSIZE → kheap_room b (S n) →
  ∃ p b', heap_acquire_alloc b l = Done (p, b') ∧ p ≠ 0 ∧ kheap_room b' n.
Proof.
  intros (v & c & Hh & Hleaf & Hma & Hbase & Htop) He Hls Hla (L & Hnd & Hlen & HL). unfold heap_acquire_alloc.
  pose proof (Z.pow_pos_nonneg 2 e eq_refl ltac:(lia)) as Hpe.
  assert (2 ^ e ≤ 4) as Hpe4 by (change 4 with (2 ^ 2); apply Z.pow_le_mono_r; lia).
  assert (bbsize b CHUNK = PGSIZE * 4) as Hcs by (unfold bsize; by rewrite Hleaf).
  pose proof (inv_wf _ _ (heap_inv _ _ _ Hh)) as Hwf. pose proof (wf_base b Hwf).
  destruct (heap_alloc b v c l Hh) as (p & b' & v' & -> & Hh' & Hg & Hcase).
  { split; [rewrite Hls; unfold PGSIZE in *; lia|]. exists 12. rewrite Hla. done. }
  destruct Hcase as [(_ & _ & Hnull)|(k & i & Hb & -> & Hfit & Hin & _ & Hu)].
  - exfalso. destruct L as [|i0 L]; [cbn in Hlen; lia|]. destruct (proj1 (chunk_free_used b v c i0 Hh) (HL i0 ltac:(by left))) as [Hb0 Hno].
    destruct (untouched_free b v CHUNK i0 (heap_inv _ _ _ Hh) Hb0 Hno) as (k' & Hk' & Hne).
    destruct Hnull as [Hn|[Hn|Hn]].
    + rewrite Hls in Hn. unfold PGSIZE in Hn. lia.
    + rewrite Hma, Hla in Hn. by vm_compute in Hn.
    + apply Hne, Hn; [unfold CHUNK in *; lia|]. rewrite Hls. pose proof (bsize_mono b CHUNK k' Hwf ltac:(unfold CHUNK in *; lia)). unfold PGSIZE in *. lia.
  - destruct (geom_eq _ _ Hg) as (E1 & E2 & E3 & _). pose proof Hb as [Hk _].
    pose proof (page_block_size b k l e Hleaf ltac:(lia) ltac:(lia) Hls Hfit) as Hsz.
    assert (k ≤ CHUNK) as Hkc.
    { apply Z.nlt_ge. intros Hlt. pose proof (bsize_mono b (CHUNK + 1) k Hwf ltac:(unfold CHUNK in *; lia)) as Hm.
      rewrite (bsize_succ (leaf_size b) CHUNK) in Hm by (unfold CHUNK; lia). unfold PGSIZE in *. lia. }
    eexists _, b'. split; [done|]. split.
    { pose proof (bbaddr_range b k i Hwf Hb). lia. }
    exists (filter (λ x, x ≠ i / 2 ^ (CHUNK - k)) L). split; [by apply NoDup_filter|]. split.
    { pose proof (length_filter_ne L (i / 2 ^ (CHUNK - k)) Hnd). lia. }
    intros j [Hj Hjl]%list_elem_of_filter. apply (chunk_free_used b' v' c j Hh'). rewrite E1, E2, E3.
    destruct (proj1 (chunk_free_used b v c j Hh) (HL j Hjl)) as [Hbj Hno]. split; [done|].
    intros k' i' Hb' [Hold|[-> ->]]%Hu; [by apply Hno| |done].
    intros [[_ Hr]|[Hlt _]]; [congruence|lia].
Qed.

Lemma kheap_room_less b n n' : (n' ≤ n)%nat → kheap_room b n → kheap_room b n'.
Proof. intros Hle (l & Hnd & Hl & HL). exists l. split; [done|]. split; [lia|done]. Qed.

Lemma buddy_page_room b n : kheap_inv b → kheap_room b (S n) → ∃ p b', new_page b = Done (p, b') ∧ kheap_room b' n.
Proof.
  intros Hi Hr. destruct (buddy_room b page_layout 0 n) as (p & b' & E & Hp & Hr'); [done|lia|done|done|done|].
  exists p, b'. unfold new_page, buddy_pages. rewrite E, bind_Done_l. by rewrite (proj2 (Z.eqb_neq p 0)).
Qed.

#[export] Instance buddy_page_roomy : PageRoom BuddySystem := {|
  ps_room := kheap_room;
  ps_room_less := kheap_room_less;
  new_page_room := buddy_page_room;
|}.

#[export] Instance buddy_stack_roomy : StackRoom BuddySystem.
Proof.
  intros b n Hi Hr. destruct (buddy_room b stack_layout 2 n) as (p & b' & E & Hp & Hr'); [done|lia|done|done|done|].
  exists p, b'. unfold new_stack, buddy_stacks. rewrite E, bind_Done_l. by rewrite (proj2 (Z.eqb_neq p 0)).
Qed.
End Discharge.

(** * Page tables that do not run out of memory

    Mapping takes a page for every table that is missing.  For a list of paths
    that covers the addresses to be mapped, the number of missing tables bounds
    the pages that will be needed, so that [map] succeeds when the heap has room
    for them; so does the whole kernel map. *)

From S2P Require Import Pte PhysMem PageTable PageTableSpec.

Lemma length_filter_lt {A} (P P' : A → Prop) `{∀ x, Decision (P x)} `{∀ x, Decision (P' x)} (l : list A) x :
  (∀ y, y ∈ l → P' y → P y) → x ∈ l → P x → ¬ P' x → (length (filter P' l) < length (filter P l))%nat.
Proof.
  assert (∀ l, (∀ y, y ∈ l → P' y → P y) → (length (filter P' l) ≤ length (filter P l))%nat) as Hle.
  { clear l. induction l as [|y l IH]; intros Hi; [done|]. rewrite !filter_cons.
    assert (length (filter P' l) ≤ length (filter P l))%nat by (apply IH; intros z Hz; apply Hi; by right).
    destruct (decide (P' y)) as [Hp|]; [rewrite decide_True by (apply Hi; [by left|done]); cbn; lia|].
    case_decide; cbn; lia. }
  intros Hi Hx HP HP'. induction l as [|y l IH]; [by apply elem_of_nil in Hx|]. rewrite !filter_cons.
  assert (∀ y, y ∈ l → P' y → P y) as Hi' by (intros z Hz; apply Hi; by right).
  apply elem_of_cons in Hx as [<-|Hx].
  - rewrite decide_False, decide_True by done. pose proof (Hle l Hi'). cbn. lia.
  - specialize (IH Hi' Hx). destruct (decide (P' y)) as [Hp|]; [rewrite decide_True by (apply Hi; [by left|done]); cbn; lia|].
    case_decide; cbn; lia.
Qed.

Section Room.
Context {BFl : BitFlags} {BFlL : BitFlagsLaws} {H : Type} {PS : PageSource H} {PSL : PageSourceLaws H} {PR : PageRoom H}.
Context (root : Z) (L : list (list Z)) (HL : Forall path_ok L).

(** The paths of the list at which there is no table. *)
Definition missing (m : mem) : nat := length (filter (λ path, tbl_at m root path = None) L).

(** The heap has room for the missing tables and [c] requests more. *)
Definition roomy (c : nat) (s : pstate H) : Prop := ps_room (pheap s) (missing (pmem s) + c).

Lemma missing_ext m m' : (∀ path, path ∈ L → tbl_at m root path = tbl_at m' root path) → missing m = missing m'.
Proof using.
  clear HL. intros Hext. unfold missing. f_equal. revert Hext. induction L as [|path l IH]; intros Hext; [done|]. rewrite !filter_cons.
  rewrite (Hext path) by (by left). rewrite IH by (intros; apply Hext; by right). done.
Qed.

Definition covered (va : Z) : Prop := [page_num va 2] ∈ L ∧ [page_num va 2; page_num va 1] ∈ L.

Lemma new_zeroed_room s n :
  ps_inv (pheap s) → ps_room (pheap s) (S n) →
  ∃ q h', new_zeroed s = Done (q, mkP (write_bytes (pmem s) q 0 PGSIZE) h') ∧ ps_room h' n.
Proof using.
  intros Hi Hr. destruct (new_page_room (pheap s) n Hi Hr) as (q & h' & E & Hr'). exists q, h'. unfold new_zeroed. by rewrite E, bind_Done_l.
Qed.

Lemma step_or_alloc_room c va l path p s :
  pt_inv (pmem s) root (pheap s) → ps_inv (pheap s) →
  path ++ [page_num va l] ∈ L → tbl_at (pmem s) root path = Some p → roomy c s →
  ∃ p' s', step_or_alloc va l (p, s) = Done (p', s') ∧ roomy c s'.
Proof using HL.
  intros Hinv Hps Hin Hp Hr. unfold step_or_alloc. set (i := page_num va l) in *.
  destruct (is_valid (read_word (pmem s) (entry p i))) eqn:Hv; [by eexists _, s|].
  assert (path_ok (path ++ [i])) as Hpath by (by apply (proj1 (Forall_forall _ _) HL)).
  assert (tbl_at (pmem s) root (path ++ [i]) = None) as Hnone by (rewrite tbl_at_app, Hp; simpl; by rewrite Hv).
  destruct (missing (pmem s) + c)%nat as [|n] eqn:En.
  { exfalso. unfold missing in En. apply (elem_of_nil (path ++ [i])). rewrite <- (nil_length_inv (filter (λ path, tbl_at (pmem s) root path = None) L)) by lia.
    by apply list_elem_of_filter. }
  unfold roomy in Hr. rewrite En in Hr. unfold new_zeroed.
  destruct (new_page_room (pheap s) n Hps Hr) as (q & h' & E & Hr'). destruct (new_page_ok (pheap s) Hps) as [E'|(q' & h2 & E' & Hps' & Hq & Hnew & Hh')];
    rewrite E in E'; [done|]. injection E' as <- <-. rewrite E, !bind_Done_l. cbn [pmem pheap with_mem].
  destruct (table_word q Hq) as (Hw & Hwv & Hwq & Hwp). set (w := Z.lor (shl64 (Z.shiftr q 12) 10) PTE_V) in *.
  eexists q, _. split; [done|]. unfold roomy. cbn [pmem pheap with_mem].
  change (write_word (write_bytes (pmem s) q 0 PGSIZE) (entry p i) w) with (linked (pmem s) p i q w).
  apply (ps_room_less h' n); [|done]. enough (missing (linked (pmem s) p i q w) < missing (pmem s))%nat by lia.
  assert (∀ path', path_ok path' → (path' = path ++ [i] ∧ tbl_at (linked (pmem s) p i q w) root path' = Some q) ∨
    ((∃ j rest, path' = path ++ i :: j :: rest) ∧ tbl_at (linked (pmem s) p i q w) root path' = None) ∨
    (¬ (path ++ [i]) `prefix_of` path' ∧ tbl_at (linked (pmem s) p i q w) root path' = tbl_at (pmem s) root path')) as Hcases
    by (intros; by eapply linked_cases).
  apply (length_filter_lt _ _ L (path ++ [i])); [|done|done|].
  - intros path' Hin'. pose proof (proj1 (Forall_forall _ _) HL path' Hin') as Hok'.
    destruct (Hcases path' Hok') as [[_ ->]|[[(j & rest & ->) _]|[_ ->]]]; [done| |done].
    intros _. rewrite tbl_at_app, Hp. simpl. by rewrite Hv.
  - destruct (Hcases _ Hpath) as [[_ ->]|[[(j & rest & Heq) _]|[Hn _]]]; [done| |by destruct Hn].
    by apply app_inv_head in Heq.
Qed.

Lemma translate_or_alloc_room c va s :
  pt_inv (pmem s) root (pheap s) → ps_inv (pheap s) → va ≤ MAXVA → covered va → roomy c s →
  ∃ e s', translate_or_alloc root va s = Done (e, s') ∧ roomy c s'.
Proof using HL.
  intros Hinv Hps Hva [H2 H1] Hr. unfold translate_or_alloc. destruct (Z.ltb_spec MAXVA va); [lia|]. cbn [for_each].
  destruct (step_or_alloc_room c va 2 [] root s) as (p1 & s1 & E1 & Hr1); [done..|].
  destruct (step_or_alloc_ok root va 2 [] root s) as [E|(p1' & s1' & E & He1 & _ & Hp1)];
    [done|done|lia|by apply (proj1 (Forall_forall _ _) HL)|done|by rewrite E1 in E|]. rewrite E1 in E. injection E as <- <-.
  destruct (step_or_alloc_room c va 1 [page_num va 2] p1 s1) as (p2 & s2 & E2 & Hr2); [apply He1|apply He1|done|done|done|].
  rewrite E1, bind_Done_l, E2, !bind_Done_l. by eexists _, _.
Qed.

Lemma map_page_room c va pa perm s :
  pt_inv (pmem s) root (pheap s) → ps_inv (pheap s) → va ≤ MAXVA → covered va → roomy c s →
  map_page root va pa perm s = Panic "remap" ∨ ∃ s', map_page root va pa perm s = Done s' ∧ roomy c s'.
Proof using HL BFlL.
  intros Hinv Hps Hva Hc Hr. unfold map_page.
  destruct (translate_or_alloc_room c va s) as (e & s1 & E1 & Hr1); [done..|].
  destruct (translate_or_alloc_ok root va s) as [E|(pt & s1' & E & He & _ & Hpt)]; [done|done|done|by rewrite E1 in E|].
  rewrite E1 in E. injection E as -> <-. rewrite E1, bind_Done_l. destruct (is_valid _); [by left|]. right. eexists. split; [done|].
  unfold roomy in *. cbn [pheap pmem with_mem]. rewrite (missing_ext _ (pmem s1)); [done|]. intros path Hin.
  apply (tbl_at_write_leaf _ _ (pheap s1) [page_num va 2; page_num va 1]); [apply He|apply va_path|done|done|apply page_num_range; lia|].
  by apply (proj1 (Forall_forall _ _) HL).
Qed.

(** Mapping a range does not run out of memory. *)
Lemma map_room c va pa size perm s :
  pt_inv (pmem s) root (pheap s) → ps_inv (pheap s) →
  0 ≤ va → 0 ≤ size → va + size ≤ MAXVA → 0 ≤ pa →
  pa + (page_of (va + size + PGSIZE - 1) - page_of va) < 2 ^ 64 → 0 ≤ perm < 2 ^ 10 →
  (∀ v, in_range va size v → covered v) → roomy c s →
  map root va pa size perm s ≠ Panic alloc_error ∧ ∀ b s', map root va pa size perm s = Done (b, s') → roomy c s'.
Proof using HL BFlL.
  intros Hinv Hps Hva Hsz Hmax Hpa Hpa2 Hperm Hc Hr.
  assert (MAXVA = 2 ^ 38) as Emax by done. rewrite Emax in *. unfold map.
  rewrite uadd_ok by lia. rewrite bind_Done_l. rewrite pg_round_down_ok by lia. rewrite pg_round_up_ok by (unfold PGSIZE in *; lia).
  rewrite bind_Done_l. unfold in_range in Hc.
  set (a := page_of va) in *. set (last := page_of (va + size + PGSIZE - 1)) in *.
  assert (a ≤ last ∧ a mod PGSIZE = 0 ∧ last mod PGSIZE = 0 ∧ last ≤ 2 ^ 38 ∧ 0 ≤ a)
    as (Hal & Ham & Hlm & Hlmax & Ha0) by (unfold a, last, page_of, PGSIZE in *; divlia).
  set (Q := λ o : outcome (pstate H), o ≠ Panic alloc_error ∧ ∀ s', o = Done s' → roomy c s').
  match goal with |- context [while_fuel ?f ?b ?x] => assert (Q (while_fuel f b x)) as HQ end; cycle 1.
  { destruct HQ as [HQ1 HQ2]. match goal with |- context [while_fuel ?f ?b ?x] => destruct (while_fuel f b x) as [s'| | |] end;
      cbn [mbind outcome_bind]; (split; [congruence|]); try done. intros b s2 [= _ <-]. by apply HQ2. }
  apply (while_fuel_rule (λ '(v, p, s'), a ≤ v ≤ last ∧ v mod PGSIZE = 0 ∧ p = pa + (v - a) ∧
    pt_inv (pmem s') root (pheap s') ∧ ps_inv (pheap s') ∧ roomy c s') (λ '(v, _, _), (last - v) / PGSIZE)); cycle 1.
  { split_and!; [lia|lia|done|lia|done..]. }
  { unfold PGSIZE in *. divlia. }
  { unfold PGSIZE in *. divlia. }
  intros [[v p] s1] (Hv & Hvm & -> & Hi1 & Hps1 & Hr1). destruct (Z.eqb_spec v last) as [->|Hne]; cbn [negb].
  { left. eexists. split; [done|]. split; [done|]. by intros s' [= <-]. }
  assert (v + PGSIZE ≤ last) as Hnext by (unfold PGSIZE in *; divlia).
  destruct (map_page_room c v (pa + (v - a)) perm s1) as [E|(s2 & E & Hr2)]; [done|done|rewrite Emax; unfold PGSIZE in *; lia|apply Hc; unfold PGSIZE in *; lia|done| |].
  { right. left. eexists. rewrite E. split; [done|]. split; [|done]. by intros ?. }
  destruct (map_page_ok root v (pa + (v - a)) perm s1) as [E'|[(E' & _)|(s2' & E' & He2 & _ & _)]];
    [done|done|rewrite ?Emax; unfold PGSIZE in *; lia..|by rewrite E in E'|by rewrite E in E'|].
  rewrite E in E'. injection E' as <-. right. right. right. rewrite E. cbn [mbind outcome_bind]. unfold add_page, PGSIZE in *.
  rewrite uadd_ok by lia. cbn [mbind outcome_bind]. rewrite uadd_ok by lia. cbn [mbind outcome_bind]. eexists. split; [done|]. split; [|divlia].
  split_and!; [lia|lia|divlia|lia|apply He2|apply He2|done].
Qed.
End Room.

(** ** The kernel map *)

(** The gigabytes in which the kernel maps something. *)
Definition kernel_tops : list Z := [0; 1; 2; 255].
Definition kernel_paths : list (list Z) := kernel_tops ≫= (λ i, [i] :: ((λ j, [i; j]) <$> seqZ 0 512)).

Lemma kernel_paths_ok : Forall path_ok kernel_paths.
Proof.
  apply Forall_forall. intros path Hp. apply list_elem_of_bind in Hp as (i & Hp & Hi).
  assert (index_ok i) as Hio by (unfold kernel_tops, index_ok in *; set_unfold; lia).
  apply elem_of_cons in Hp as [->|Hp]; [|apply list_elem_of_fmap in Hp as (j & -> & Hj%elem_of_seqZ)];
    (split; [cbn; lia|]); repeat constructor; (done || unfold index_ok in *; lia).
Qed.

Lemma kernel_covered va : 0 ≤ va < 3 * 2 ^ 30 ∨ 2 ^ 38 - 2 ^ 30 ≤ va < 2 ^ 38 → covered kernel_paths va.
Proof.
  intros Hva. assert (page_num va 2 ∈ kernel_tops) as Ht.
  { rewrite page_num_ok by lia. change (12 + 9 * 2) with 30. unfold kernel_tops. set_unfold. divlia. }
  pose proof (page_num_range va 1 ltac:(lia)). split; apply list_elem_of_bind; exists (page_num va 2); (split; [|done]); [by left|].
  right. apply list_elem_of_fmap. exists (page_num va 1). split; [done|]. apply elem_of_seqZ. lia.
Qed.

Section Kernel.
Context {BFl : BitFlags} {BFlL : BitFlagsLaws} {H : Type} {PS : PageSource H} {PSL : PageSourceLaws H} {PR : PageRoom H}.
Context {SS : StackSource H} {SSL : StackSourceLaws H} {SR : StackRoom H}.
Context (root : Z).

Lemma kernel_map_total c rs va pa size perm s :
  maps root rs s → roomy root kernel_paths c s → region_ok (mkRegion va pa size perm) →
  (∀ x, va ≤ x < va + size → lookup_region rs x = None) → va + size ≤ 3 * 2 ^ 30 ∨ 2 ^ 38 - 2 ^ 30 ≤ va →
  ∃ s', kernel_map root va pa size perm s = Done s' ∧ maps root (mkRegion va pa size perm :: rs) s' ∧ roomy root kernel_paths c s'.
Proof.
  intros Hm Hr Hok Hdis Hlow. pose proof Hok as (Hva & Hsz & Hmax & Hpa & Hpa2 & Hal & Hals & Hperm). simpl in *.
  assert (MAXVA = 2 ^ 38) as Emax by done.
  assert (page_of va = va ∧ page_of (va + size + PGSIZE - 1) = va + size) as [E1 E2] by (unfold page_of, PGSIZE in *; divlia).
  destruct (map_room root kernel_paths kernel_paths_ok c va pa size perm s) as [Hnp Hrm]; [apply Hm|apply Hm|done|done|done|done|lia|done| |done|].
  { intros v Hv. unfold in_range in Hv. rewrite E1, E2 in Hv. apply kernel_covered. lia. }
  destruct (kernel_map_step root rs va pa size perm s) as [E|(s' & E & Hm' & _)]; [done..| |]; unfold kernel_map in *;
    destruct (map root va pa size perm s) as [[b s1]|msg| |]; cbn [mbind outcome_bind] in E; try done.
  - by destruct b.
  - injection E as ->. by destruct Hnp.
  - destruct b; [|done]. injection E as ->. exists s'. split; [done|]. split; [done|]. by apply (Hrm true).
Qed.

Lemma new_stack_total c rs s :
  maps root rs s → roomy root kernel_paths (S c) s →
  ∃ p s', new_zeroed_stack s = Done (p, s') ∧ roomy root kernel_paths c s'.
Proof.
  intros Hm Hr. unfold roomy in Hr. rewrite <- plus_n_Sm in Hr. destruct (new_stack_room (pheap s) _ (mp_heap _ _ _ Hm) Hr) as (p & h' & E & Hr').
  destruct (new_stack_ok (pheap s) (mp_heap _ _ _ Hm)) as [E'|(p' & h2 & E' & _ & _ & _ & _ & Hnew & _)]; rewrite E in E'; [done|].
  injection E' as <- <-. unfold new_zeroed_stack. rewrite E, bind_Done_l. eexists _, _. split; [done|]. unfold roomy. cbn [pmem pheap].
  rewrite (missing_ext _ _ _ (pmem s)); [done|]. intros path Hp. pose proof (proj1 (Forall_forall _ _) kernel_paths_ok path Hp) as Hok.
  apply (tables_same (pmem s) _ root (pheap s)); [apply Hm| |done]. intros q x. by apply stack_frame; [apply Hm|].
Qed.

(** One stack. *)
Lemma stack_total c rs stacks s :
  let pos := Z.of_nat (length stacks) in
  pos < NPROC → maps root (stack_regions stacks ++ rs) s → Forall (stack_ok (pheap s)) stacks →
  ForallOrdPairs apart stacks → (∀ x, stack_va pos ≤ x < stack_va pos + STACK_SIZE → lookup_region rs x = None) →
  roomy root kernel_paths (S c) s →
  let body := ('(pa, s) ← new_zeroed_stack s;
    va ← kernel_stack pos;
    kernel_map root va pa (PGSIZE * 4) (flags_or PTE_R PTE_W) s) in
  ∃ p s', body = Done s' ∧ maps root (stack_regions (p :: stacks) ++ rs) s' ∧
    Forall (stack_ok (pheap s')) (p :: stacks) ∧ ForallOrdPairs apart (p :: stacks) ∧ roomy root kernel_paths c s'.
Proof.
  intros pos Hpos Hm Hok Hap Hrs Hr body. assert (0 ≤ pos) as H0 by (unfold pos; lia).
  destruct (new_stack_total c _ s Hm Hr) as (p & s1 & E1 & Hr1).
  destruct (new_stack_step _ _ _ Hm) as [E|(p' & s1' & E & Hm1 & Hal & Hp0 & Hlt & _ & _)]; rewrite E1 in E; [done|]. injection E as <- <-.
  destruct (kernel_map_total c (stack_regions stacks ++ rs) (stack_va pos) p STACK_SIZE RW s1) as (s2 & E2 & _ & Hr2); [done|done| | | |].
  - unfold region_ok. cbn [r_va r_pa r_size r_perm]. split_and!; first [layout_lia | by vm_compute].
  - intros x Hx. rewrite lookup_below by (unfold pos in *; lia). by apply Hrs.
  - right. layout_lia.
  - assert (body = Done s2) as Eb.
    { unfold body. rewrite E1, bind_Done_l, kernel_stack_ok, bind_Done_l, flags_or_bits by done. exact E2. }
    destruct (stack_step root rs stacks s) as [E|(p' & s' & E & Hm' & Hok' & Hap')]; [done..| |]; fold pos in E; fold body in E; rewrite Eb in E; [done|].
    injection E as <-. by exists p', s2.
Qed.

Lemma proc_mapstacks_total c rs s :
  maps root rs s → (∀ x, stack_va (NPROC - 1) ≤ x < TRAMPOLINE → lookup_region rs x = None) → roomy root kernel_paths (64 + c) s →
  ∃ stacks s', proc_mapstacks root s = Done s' ∧ maps root (stack_regions stacks ++ rs) s' ∧
    Z.of_nat (length stacks) = NPROC ∧ Forall (stack_ok (pheap s')) stacks ∧ ForallOrdPairs apart stacks ∧ roomy root kernel_paths c s'.
Proof.
  intros Hm Hrs Hr. unfold proc_mapstacks.
  destruct (for_range_inv (λ pos s', ∃ stacks, Z.of_nat (length stacks) = pos ∧
    maps root (stack_regions stacks ++ rs) s' ∧ Forall (stack_ok (pheap s')) stacks ∧ ForallOrdPairs apart stacks ∧
    roomy root kernel_paths (Z.to_nat (NPROC - pos) + c) s')
    0 NPROC (λ pos s,
      '(pa, s) ← new_zeroed_stack s;
      va ← kernel_stack pos;
      kernel_map root va pa (PGSIZE * 4) (flags_or PTE_R PTE_W) s) s) as (s' & -> & stacks & ? & ? & ? & ? & ?);
    [done| | |by exists stacks, s'].
  - exists []. split_and!; [done|done|constructor|constructor|done].
  - intros pos s1 Hpos (stacks & <- & Hm1 & Hok & Hap & Hr1).
    replace (Z.to_nat (NPROC - Z.of_nat (length stacks)) + c)%nat with (S (Z.to_nat (NPROC - (Z.of_nat (length stacks) + 1)) + c)) in Hr1 by lia.
    destruct (stack_total (Z.to_nat (NPROC - (Z.of_nat (length stacks) + 1)) + c) rs stacks s1) as (p & s2 & ? & ? & ? & ? & ?); [lia|done|done|done| |done|].
    { intros x Hx. apply Hrs. unfold stack_va, STACK_SIZE, NPROC, PGSIZE in *. lia. }
    exists s2. split; [done|]. exists (p :: stacks). split; [cbn; lia|done].
Qed.

Ltac total_next Hm Hr :=
  match type of Hm with maps _ ?rs ?s =>
    match type of Hr with roomy _ _ ?c _ =>
      match goal with |- context [kernel_map _ ?va ?pa ?size ?perm s] =>
        let s' := fresh "s" in let Hm' := fresh "Hm" in let Hr' := fresh "Hr" in
        destruct (kernel_map_total c rs va pa size perm s) as (s' & -> & Hm' & Hr');
        [exact Hm|exact Hr|solve_region|solve_disjoint|first [left; layout_lia | right; layout_lia]|];
        rewrite bind_Done_l; clear Hm Hr; rename Hm' into Hm; rename Hr' into Hr
      end
    end
  end.

(** With enough room in the heap [kvm_init] returns. *)
Lemma kernel_map_all_total c etext trampoline s :
  maps root [] s → etext mod PGSIZE = 0 → KERNEL_BASE ≤ etext ≤ PHYSTOP →
  trampoline mod PGSIZE = 0 → 0 ≤ trampoline < PHYSTOP → roomy root kernel_paths (64 + c) s →
  ∃ stacks s', kernel_map_all root etext trampoline s = Done s' ∧
    maps root (stack_regions stacks ++ kernel_regions etext trampoline) s' ∧
    Z.of_nat (length stacks) = NPROC ∧ ForallOrdPairs apart stacks ∧ roomy root kernel_paths c s'.
Proof.
  intros Hm Hea He Hta Ht Hr. unfold kernel_map_all. rewrite !flags_or_bits.
  change (Z.lor PTE_R PTE_W) with RW. change (Z.lor PTE_R PTE_X) with RX.
  do 7 total_next Hm Hr. rewrite (usub_ok etext), (usub_ok PHYSTOP), !bind_Done_l by layout_lia.
  total_next Hm Hr. rewrite bind_Done_l. do 2 total_next Hm Hr.
  destruct (proc_mapstacks_total c _ _ Hm) as (stacks & s' & ? & ? & ? & _ & ? & ?); [solve_disjoint|done|]. by exists stacks, s'.
Qed.
End Kernel.
