(* ===== verification/Bytes.v ===== *)
(** * Byte blocks

    A disk block or an on-disk structure is the list of its bytes.  [get_bytes]
    and [put_bytes] are the accesses through a pointer at an offset; integers
    are stored least significant byte first. *)

From Stdlib Require Import ZArith Lia.
From stdpp Require Import base gmap strings numbers list.
From S2P Require Import Prelude.

Local Open Scope Z_scope.

Abbreviation block := (list Z).

Definition get_bytes (b : block) (off n : Z) : list Z := take (Z.to_nat n) (drop (Z.to_nat off) b).

Definition put_bytes (b : block) (off : Z) (bs : list Z) : block :=
  take (Z.to_nat off) b ++ bs ++ drop (Z.to_nat off + length bs) b.

Fixpoint le_encode (n : nat) (v : Z) : list Z :=
  match n with
  | O => []
  | S n => v mod 256 :: le_encode n (v / 256)
  end.

Fixpoint le_decode (bs : list Z) : Z :=
  match bs with
  | [] => 0
  | x :: r => x + 256 * le_decode r
  end.

Definition get_u16 (b : block) (off : Z) : Z := le_decode (get_bytes b off 2).
Definition put_u16 (b : block) (off v : Z) : block := put_bytes b off (le_encode 2 v).
Definition get_u32 (b : block) (off : Z) : Z := le_decode (get_bytes b off 4).
Definition put_u32 (b : block) (off v : Z) : block := put_bytes b off (le_encode 4 v).

(** The bytes of an array of [u32]. *)
Definition encode_u32s (vs : list Z) : list Z := mjoin (le_encode 4 <$> vs).

(** An array of [n] [u32] at an offset. *)
Definition get_u32s (b : block) (off n : Z) : list Z := (λ i, get_u32 b (off + 4 * i)) <$> seqZ 0 n.

(** ** Lemmas *)

Lemma length_le_encode n v : length (le_encode n v) = n.
Proof. revert v. induction n; intros v; simpl; auto. Qed.

Lemma le_decode_encode n v : 0 ≤ v < 256 ^ Z.of_nat n → le_decode (le_encode n v) = v.
Proof.
  revert v. induction n as [|n IH]; intros v Hv; [simpl in *; lia|]. simpl.
  rewrite Nat2Z.inj_succ, Z.pow_succ_r in Hv by lia. rewrite IH by divlia. divlia.
Qed.

Lemma length_put_bytes b off bs :
  0 ≤ off → off + Z.of_nat (length bs) ≤ Z.of_nat (length b) → length (put_bytes b off bs) = length b.
Proof. intros H1 H2. unfold put_bytes. rewrite !length_app, length_take, length_drop. lia. Qed.

Lemma length_get_bytes b off n :
  0 ≤ off → 0 ≤ n → off + n ≤ Z.of_nat (length b) → length (get_bytes b off n) = Z.to_nat n.
Proof. intros. unfold get_bytes. rewrite length_take, length_drop. lia. Qed.

Lemma get_put_bytes b off bs :
  0 ≤ off → off ≤ Z.of_nat (length b) → get_bytes (put_bytes b off bs) off (Z.of_nat (length bs)) = bs.
Proof.
  intros H1 H2. unfold get_bytes, put_bytes. rewrite Nat2Z.id.
  rewrite drop_app_length' by (rewrite length_take; lia). by rewrite take_app_length.
Qed.

Lemma lookup_put_bytes b off bs j :
  0 ≤ off → off + Z.of_nat (length bs) ≤ Z.of_nat (length b) →
  put_bytes b off bs !! j =
    if decide (off ≤ Z.of_nat j < off + Z.of_nat (length bs)) then bs !! (j - Z.to_nat off)%nat else b !! j.
Proof.
  intros H1 H2. unfold put_bytes. case_decide as Hd.
  - rewrite lookup_app_r by (rewrite length_take; lia). rewrite length_take.
    rewrite lookup_app_l by lia. f_equal. lia.
  - destruct (decide (Z.of_nat j < off)).
    + rewrite lookup_app_l by (rewrite length_take; lia). by rewrite lookup_take_lt by lia.
    + rewrite lookup_app_r by (rewrite length_take; lia). rewrite length_take.
      rewrite lookup_app_r by lia. rewrite lookup_drop. f_equal. lia.
Qed.

Lemma lookup_get_bytes b off n j :
  0 ≤ off → get_bytes b off n !! j = if decide (Z.of_nat j < n) then b !! (Z.to_nat off + j)%nat else None.
Proof.
  intros H1. unfold get_bytes. case_decide.
  - rewrite lookup_take_lt, lookup_drop by lia. done.
  - rewrite lookup_take_ge by lia. done.
Qed.

Lemma get_put_bytes_ne b off bs off' n :
  0 ≤ off → 0 ≤ off' → off + Z.of_nat (length bs) ≤ Z.of_nat (length b) →
  off' + n ≤ off ∨ off + Z.of_nat (length bs) ≤ off' →
  get_bytes (put_bytes b off bs) off' n = get_bytes b off' n.
Proof.
  intros H1 H2 H3 H4. apply list_eq. intros j. rewrite !lookup_get_bytes by done.
  case_decide; [|done]. rewrite lookup_put_bytes by done. rewrite decide_False by lia. done.
Qed.

(** A part of what has been written. *)
Lemma get_put_bytes_sub b off bs d n :
  0 ≤ off → off + Z.of_nat (length bs) ≤ Z.of_nat (length b) → 0 ≤ d → d + n ≤ Z.of_nat (length bs) →
  get_bytes (put_bytes b off bs) (off + d) n = get_bytes bs d n.
Proof.
  intros H1 H2 H3 H4. apply list_eq. intros j. rewrite !lookup_get_bytes by lia.
  case_decide; [|done]. rewrite lookup_put_bytes by done. rewrite decide_True by lia. f_equal. lia.
Qed.

Lemma get_put_u32 b off v :
  0 ≤ off → off ≤ Z.of_nat (length b) → 0 ≤ v < 2 ^ 32 → get_u32 (put_u32 b off v) off = v.
Proof.
  intros H1 H2 Hv. unfold get_u32, put_u32. replace 4 with (Z.of_nat (length (le_encode 4 v))) at 1 by done.
  rewrite get_put_bytes by done. by apply le_decode_encode.
Qed.

Lemma get_put_u32_ne b off v off' :
  0 ≤ off → 0 ≤ off' → off + 4 ≤ Z.of_nat (length b) → off' + 4 ≤ off ∨ off + 4 ≤ off' →
  get_u32 (put_u32 b off v) off' = get_u32 b off'.
Proof. intros. unfold get_u32, put_u32. rewrite get_put_bytes_ne; rewrite ?length_le_encode; (done || lia). Qed.

Lemma length_encode_u32s vs : length (encode_u32s vs) = (4 * length vs)%nat.
Proof.
  induction vs as [|v vs IH]; [done|].
  assert (encode_u32s (v :: vs) = le_encode 4 v ++ encode_u32s vs) as -> by done.
  rewrite length_app, IH, length_le_encode. simpl. lia.
Qed.

Lemma get_bytes_app_r l1 l2 off n :
  Z.of_nat (length l1) ≤ off → get_bytes (l1 ++ l2) off n = get_bytes l2 (off - Z.of_nat (length l1)) n.
Proof.
  intros Hl. unfold get_bytes. rewrite drop_app_ge by lia. do 2 f_equal. lia.
Qed.

Lemma get_bytes_app_l l1 l2 off n :
  0 ≤ off → off + n ≤ Z.of_nat (length l1) → get_bytes (l1 ++ l2) off n = get_bytes l1 off n.
Proof.
  intros H0 Hl. apply list_eq. intros j. rewrite !lookup_get_bytes by done. case_decide; [|done].
  by rewrite lookup_app_l by lia.
Qed.

(** Element [i] of an array of [u32]. *)
Lemma get_encode_u32s vs i v :
  vs !! i = Some v → get_bytes (encode_u32s vs) (4 * Z.of_nat i) 4 = le_encode 4 v.
Proof.
  revert i. induction vs as [|w vs IH]; intros i Hi; [done|].
  assert (encode_u32s (w :: vs) = le_encode 4 w ++ encode_u32s vs) as -> by done.
  destruct i as [|i].
  - injection Hi as ->. rewrite get_bytes_app_l by (rewrite ?length_le_encode; lia).
    unfold get_bytes. simpl. done.
  - rewrite get_bytes_app_r; rewrite length_le_encode; [|lia].
    rewrite <- (IH i) by done. f_equal. lia.
Qed.

Lemma get_u32s_encode b off vs :
  0 ≤ off → off + 4 * Z.of_nat (length vs) ≤ Z.of_nat (length b) → Forall (λ v, 0 ≤ v < 2 ^ 32) vs →
  get_u32s (put_bytes b off (encode_u32s vs)) off (Z.of_nat (length vs)) = vs.
Proof.
  intros H0 Hl Hv. apply list_eq. intros i. unfold get_u32s. rewrite list_lookup_fmap.
  destruct (decide (i < length vs)%nat) as [Hi|Hi].
  - rewrite lookup_seqZ_lt by lia. simpl. destruct (lookup_lt_is_Some_2 vs i Hi) as [v Hvi]. rewrite Hvi. f_equal.
    rewrite Z.add_0_l. unfold get_u32. rewrite get_put_bytes_sub; rewrite ?length_encode_u32s; [|lia..].
    rewrite (get_encode_u32s vs i v Hvi). apply le_decode_encode.
    by apply (Forall_lookup_1 _ _ _ _ Hv Hvi).
  - rewrite lookup_seqZ_ge by lia. simpl. symmetry. apply lookup_ge_None_2. lia.
Qed.
