(* ===== verification/Bio.v ===== *)
(** * The buffer cache

    Models [fs/bio.rs].  The control blocks live in an array and point to each
    other; a pointer to a control block is its index, null is [None].  The
    cache's spinlock makes the operations on the list atomic.  The sleeplock of
    a buffer is a flag: locking a buffer that is locked waits for its holder,
    which in a run of a single process never ends ([wait_forever]).  The disk
    driver is the interface [BlockDevice]: [DISK.rw] transfers the block of a
    buffer and returns when the device is done. *)

From Stdlib Require Import ZArith Lia.
From stdpp Require Import base gmap strings numbers list.
From S2P Require Import Prelude Bytes.

Local Open Scope Z_scope.

Definition BSIZE : Z := 1024.
Definition MAXOPBLOCKS : Z := 10.
Definition NBUF : nat := Z.to_nat (MAXOPBLOCKS * 3).
Definition LOGSIZE : Z := MAXOPBLOCKS * 3.

(** What the cache needs of the disk. *)
Class BlockDevice (D : Type) := {
  dev_read : D → Z → block;
  dev_write : D → Z → block → D;
}.

(** Reading gives the block written last. *)
Class BlockDeviceLaws (D : Type) `{BlockDevice D} : Prop := {
  dev_read_length d n : Z.of_nat (length (dev_read d n)) = BSIZE;
  dev_read_write d n b n' : Z.of_nat (length b) = BSIZE →
    dev_read (dev_write d n b) n' = if decide (n' = n) then b else dev_read d n';
}.

(** A process that waits for something only another process can provide. *)
Definition wait_forever {A} : outcome A := NoFuel.

(** ** Data *)

Record BufCtrl := mkCtrl {
  c_dev : Z;
  c_blockno : Z;
  c_prev : option nat;
  c_next : option nat;
  c_refcnt : Z;
  c_index : nat;
}.

Definition new_ctrl : BufCtrl := mkCtrl 0 0 None None 0 0.

Record BufLru := mkLru {
  inner : list BufCtrl;
  head : option nat;
  tail : option nat;
}.

Record BufInner := mkInner {
  valid : bool;
  data : block;
  locked : bool;
}.

Record Bcache := mkBcache {
  ctrl : BufLru;
  bufs : list BufInner;
}.

(** A handle on a buffer, which holds its sleeplock.  [rc_ptr] points to the
    reference count of a control block. *)
Record Buf := mkBuf {
  b_index : nat;
  b_dev : Z;
  b_blockno : Z;
  b_rc_ptr : nat;
}.

Definition new_bcache : Bcache :=
  mkBcache (mkLru (replicate NBUF new_ctrl) None None)
           (replicate NBUF (mkInner false (replicate (Z.to_nat BSIZE) 0) false)).

(** ** Field updates *)

Definition set_prev (i : nat) (v : option nat) (l : list BufCtrl) : list BufCtrl :=
  alter (λ c, mkCtrl (c_dev c) (c_blockno c) v (c_next c) (c_refcnt c) (c_index c)) i l.
Definition set_next (i : nat) (v : option nat) (l : list BufCtrl) : list BufCtrl :=
  alter (λ c, mkCtrl (c_dev c) (c_blockno c) (c_prev c) v (c_refcnt c) (c_index c)) i l.
Definition set_refcnt (i : nat) (v : Z) (l : list BufCtrl) : list BufCtrl :=
  alter (λ c, mkCtrl (c_dev c) (c_blockno c) (c_prev c) (c_next c) v (c_index c)) i l.
Definition set_index (i : nat) (v : nat) (l : list BufCtrl) : list BufCtrl :=
  alter (λ c, mkCtrl (c_dev c) (c_blockno c) (c_prev c) (c_next c) (c_refcnt c) v) i l.
Definition set_block (i : nat) (dev blockno : Z) (l : list BufCtrl) : list BufCtrl :=
  alter (λ c, mkCtrl dev blockno (c_prev c) (c_next c) (c_refcnt c) (c_index c)) i l.

Definition set_valid (i : nat) (v : bool) (l : list BufInner) : list BufInner :=
  alter (λ b, mkInner v (data b) (locked b)) i l.
Definition set_data (i : nat) (v : block) (l : list BufInner) : list BufInner :=
  alter (λ b, mkInner (valid b) v (locked b)) i l.
Definition set_locked (i : nat) (v : bool) (l : list BufInner) : list BufInner :=
  alter (λ b, mkInner (valid b) (data b) v) i l.

Definition with_inner (l : BufLru) (x : list BufCtrl) : BufLru := mkLru x (head l) (tail l).

(** ** The list of buffers *)

(** [Bcache::binit]. *)
Definition lru_init (l : BufLru) : BufLru :=
  let len := length (inner l) in
  let x := inner l in
  let x := set_prev 0 None x in
  let x := set_next 0 (Some 1%nat) x in
  let x := set_prev (len - 1) (Some (len - 2)%nat) x in
  let x := set_next (len - 1) None x in
  let x := foldl (λ x i, set_next i (Some (i + 1)%nat) (set_prev i (Some (i - 1)%nat) x)) x (seq 1 (len - 2)) in
  let x := foldl (λ x i, set_index i i x) x (seq 0 len) in
  mkLru x (Some 0%nat) (Some (len - 1)%nat).

Definition binit (c : Bcache) : Bcache := mkBcache (lru_init (ctrl c)) (bufs c).

(** The index and the pointer to the reference count of the buffer found. *)
Definition find_cached (l : BufLru) (dev blockno : Z) : outcome (option (nat * nat) * BufLru) :=
  while_fuel (S NBUF) (λ b : option nat,
    match b with
    | None => Done (inl (None, l))
    | Some i =>
        match inner l !! i with
        | None => UB "dangling control block"
        | Some bref =>
            if (c_dev bref =? dev) && (c_blockno bref =? blockno) then
              rc ← uadd (c_refcnt bref) 1;
              Done (inl (Some (c_index bref, i), with_inner l (set_refcnt i rc (inner l))))
            else Done (inr (c_next bref))
        end
    end) (head l).

Definition recycle (l : BufLru) (dev blockno : Z) : outcome (option (nat * nat) * BufLru) :=
  while_fuel (S NBUF) (λ b : option nat,
    match b with
    | None => Done (inl (None, l))
    | Some i =>
        match inner l !! i with
        | None => UB "dangling control block"
        | Some bref =>
            if c_refcnt bref =? 0 then
              rc ← uadd (c_refcnt bref) 1;
              Done (inl (Some (c_index bref, i),
                         with_inner l (set_refcnt i rc (set_block i dev blockno (inner l)))))
            else Done (inr (c_prev bref))
        end
    end) (tail l).

(** [Option::map] on a raw pointer: nothing happens for null. *)
Definition via (p : option nat) (f : nat → list BufCtrl → list BufCtrl) (x : list BufCtrl) : list BufCtrl :=
  match p with Some i => f i x | None => x end.

Definition move_if_no_ref (l : BufLru) (index : nat) : outcome BufLru :=
  b ← unwrap "index out of bounds" (inner l !! index);
  rc ← usub (c_refcnt b) 1;
  let x := set_refcnt index rc (inner l) in
  if (rc =? 0) && negb (bool_decide (head l = Some index)) then
    let tail' := if bool_decide (tail l = Some index) && bool_decide (c_prev b ≠ None) then c_prev b else tail l in
    (* detach b *)
    let x := via (c_next b) (λ n x, set_prev n (c_prev b) x) x in
    let x := via (c_prev b) (λ p x, set_next p (c_next b) x) x in
    (* attach b *)
    let x := set_prev index None x in
    let x := set_next index (head l) x in
    let x := via (head l) (λ h x, set_prev h (Some index) x) x in
    Done (mkLru x (Some index) tail')
  else Done (mkLru x (head l) (tail l)).

(** ** The cache *)

Record bstate (D : Type) := mkB { cache : Bcache; disk : D }.
Global Arguments mkB {D}.
Global Arguments cache {D}.
Global Arguments disk {D}.

Section Cache.
Context {D : Type} {BD : BlockDevice D}.

Definition with_ctrl (s : bstate D) (l : BufLru) : bstate D := mkB (mkBcache l (bufs (cache s))) (disk s).
Definition with_bufs (s : bstate D) (x : list BufInner) : bstate D := mkB (mkBcache (ctrl (cache s)) x) (disk s).

(** [SleepLock::lock] on the data of a buffer. *)
Definition lock_data (i : nat) (s : bstate D) : outcome (bstate D) :=
  b ← unwrap "index out of bounds" (bufs (cache s) !! i);
  if locked b then wait_forever else Done (with_bufs s (set_locked i true (bufs (cache s)))).

Definition bget (dev blockno : Z) (s : bstate D) : outcome (Buf * bstate D) :=
  '(r, l) ← find_cached (ctrl (cache s)) dev blockno;
  match r with
  | Some (index, rc_ptr) =>
      s ← lock_data index (with_ctrl s l);
      Done (mkBuf index dev blockno rc_ptr, s)
  | None =>
      '(r, l) ← recycle (ctrl (cache s)) dev blockno;
      match r with
      | Some (index, rc_ptr) =>
          let s := with_ctrl s l in
          let s := with_bufs s (set_valid index false (bufs (cache s))) in
          s ← lock_data index s;
          Done (mkBuf index dev blockno rc_ptr, s)
      | None => Panic "no usable buffer"
      end
  end.

(** The data behind the guard of a handle: [raw_data] and [raw_data_mut]. *)
Definition raw_data (b : Buf) (s : bstate D) : outcome block :=
  x ← unwrap "index out of bounds" (bufs (cache s) !! b_index b);
  Done (data x).
Definition store_data (b : Buf) (v : block) (s : bstate D) : bstate D :=
  with_bufs s (set_data (b_index b) v (bufs (cache s))).

(** [DISK.rw]. *)
Definition disk_rw (b : Buf) (writing : bool) (s : bstate D) : outcome (bstate D) :=
  if writing then
    v ← raw_data b s;
    Done (mkB (cache s) (dev_write (disk s) (b_blockno b) v))
  else Done (store_data b (dev_read (disk s) (b_blockno b)) s).

Definition bread (dev blockno : Z) (s : bstate D) : outcome (Buf * bstate D) :=
  '(b, s) ← bget dev blockno s;
  x ← unwrap "index out of bounds" (bufs (cache s) !! b_index b);
  if negb (valid x) then
    s ← disk_rw b false s;
    Done (b, with_bufs s (set_valid (b_index b) true (bufs (cache s))))
  else Done (b, s).

Definition brelse (index : nat) (s : bstate D) : outcome (bstate D) :=
  l ← move_if_no_ref (ctrl (cache s)) index;
  Done (with_ctrl s l).

Definition bwrite (b : Buf) (s : bstate D) : outcome (bstate D) := disk_rw b true s.

Definition read_blockno (b : Buf) : Z := b_blockno b.

Definition pin (b : Buf) (s : bstate D) : outcome (bstate D) :=
  c ← unwrap "dangling control block" (inner (ctrl (cache s)) !! b_rc_ptr b);
  rc ← uadd (c_refcnt c) 1;
  Done (with_ctrl s (with_inner (ctrl (cache s)) (set_refcnt (b_rc_ptr b) rc (inner (ctrl (cache s)))))).

Definition unpin (b : Buf) (s : bstate D) : outcome (bstate D) :=
  c ← unwrap "dangling control block" (inner (ctrl (cache s)) !! b_rc_ptr b);
  if c_refcnt c <=? 1 then Panic "buf unpin not match"
  else
    rc ← usub (c_refcnt c) 1;
    Done (with_ctrl s (with_inner (ctrl (cache s)) (set_refcnt (b_rc_ptr b) rc (inner (ctrl (cache s)))))).

(** [Drop for Buf]: the guard is released before the reference. *)
Definition drop_buf (b : Buf) (s : bstate D) : outcome (bstate D) :=
  brelse (b_index b) (with_bufs s (set_locked (b_index b) false (bufs (cache s)))).
End Cache.
