(* ===== verification/BioSpec.v ===== *)
(** * Correctness of the buffer cache

    First the doubly linked list: it represents an order of the buffers
    ([lru_ok]), and the operations search and permute it.  Then the cache: with
    the disk it represents one store of blocks ([cur]), which [bread] reads and
    leaves alone whatever it has to evict. *)

From Stdlib Require Import ZArith Lia.
From stdpp Require Import base gmap strings numbers list.
From S2P Require Import Prelude Bytes Bio.

Local Open Scope Z_scope.

(** ** The list *)

(** The control block at position [k] of the order points to its neighbours. *)
Record linked (x : list BufCtrl) (order : list nat) : Prop := {
  lk_nodup : NoDup order;
  lk_all i : i ∈ order ↔ (i < length x)%nat;
  lk_node k i : order !! k = Some i → ∃ c, x !! i = Some c ∧
    c_prev c = (match k with O => None | S k' => order !! k' end) ∧ c_next c = order !! S k ∧ c_index c = i;
}.

Record lru_ok (l : BufLru) (order : list nat) : Prop := {
  lo_len : length (inner l) = NBUF;
  lo_linked : linked (inner l) order;
  lo_head : head l = order !! 0%nat;
  lo_tail : tail l = last order;
}.

(** What a control block says about its buffer. *)
Definition ent (c : BufCtrl) : Z * Z * Z := (c_dev c, c_blockno c, c_refcnt c).
Definition ents (l : BufLru) : list (Z * Z * Z) := ent <$> inner l.

Lemma linked_length x order : linked x order → length order = length x.
Proof.
  intros [Hn Ha _]. assert (order ≡ₚ seq 0 (length x)) as Hp.
  { apply NoDup_Permutation; [done|apply NoDup_seq|]. intros i. rewrite Ha, elem_of_seq. lia. }
  rewrite Hp. by rewrite length_seq.
Qed.

Lemma linked_pos x order i c : linked x order → x !! i = Some c → ∃ k, order !! k = Some i ∧ (k < length x)%nat.
Proof.
  intros Hl Hi. apply lookup_lt_Some in Hi as Hlt. apply (lk_all _ _ Hl) in Hlt as [k Hk]%list_elem_of_lookup.
  exists k. split; [done|]. apply lookup_lt_Some in Hk. by rewrite (linked_length x order) in Hk.
Qed.

(** Updates that keep pointers and indices keep the list. *)
Lemma linked_alter x order f i :
  linked x order → (∀ c, c_prev (f c) = c_prev c ∧ c_next (f c) = c_next c ∧ c_index (f c) = c_index c) →
  linked (alter f i x) order.
Proof.
  intros [Hn Ha Hk] Hf. constructor; [done|intros j; by rewrite length_alter|].
  intros k j Hj. destruct (Hk k j Hj) as (c & Hc & H1 & H2 & H3).
  rewrite list_lookup_alter. case_decide as Hd; [rewrite Hd, Hc|by exists c]. simpl. exists (f c).
  destruct (Hf c) as (-> & -> & ->). done.
Qed.

Lemma lru_ok_alter l order f i :
  lru_ok l order → (∀ c, c_prev (f c) = c_prev c ∧ c_next (f c) = c_next c ∧ c_index (f c) = c_index c) →
  lru_ok (with_inner l (alter f i (inner l))) order.
Proof. intros [H1 H2 H3 H4] Hf. constructor; simpl; [by rewrite length_alter|by apply linked_alter|done..]. Qed.

Section Lru.
Context (l : BufLru) (order : list nat) (Hl : lru_ok l order).
Context (Hrc : ∀ i c, inner l !! i = Some c → 0 ≤ c_refcnt c < 2 ^ 64 - 1).

Lemma order_length : length order = NBUF.
Proof using Hl. rewrite (linked_length (inner l)); [apply Hl|apply Hl]. Qed.

(** [find_cached] finds the buffer of the block, if there is one. *)
Lemma find_cached_ok dev blockno :
  (∃ i c, inner l !! i = Some c ∧ c_dev c = dev ∧ c_blockno c = blockno ∧
     find_cached l dev blockno =
       Done (Some (i, i), with_inner l (set_refcnt i (c_refcnt c + 1) (inner l)))) ∨
  ((∀ i c, inner l !! i = Some c → ¬ (c_dev c = dev ∧ c_blockno c = blockno)) ∧
     find_cached l dev blockno = Done (None, l)).
Proof using Hl Hrc.
  unfold find_cached. rewrite (lo_head _ _ Hl).
  assert (∀ k' i c, (k' < 0)%nat → order !! k' = Some i → inner l !! i = Some c →
    ¬ (c_dev c = dev ∧ c_blockno c = blockno)) as Hseen by (intros; lia).
  assert (0 ≤ NBUF < S NBUF + 0)%nat as Hfuel by lia. revert Hseen Hfuel.
  generalize 0%nat as k. generalize (S NBUF) as n. induction n as [|n IH]; intros k Hseen Hfuel; simpl; [lia|].
  destruct (order !! k) as [i|] eqn:Hk; simpl; cycle 1.
  - right. split; [|done]. intros i c Hi. destruct (linked_pos _ _ _ _ (lo_linked _ _ Hl) Hi) as (k' & Hk' & _).
    apply (Hseen k' i c); [|done|done]. apply lookup_ge_None_1 in Hk. apply lookup_lt_Some in Hk'. lia.
  - destruct (lk_node _ _ (lo_linked _ _ Hl) _ _ Hk) as (c & Hc & _ & Hnext & Hix). rewrite Hc.
    apply lookup_lt_Some in Hk as Hlt. rewrite order_length in Hlt.
    destruct ((c_dev c =? dev) && (c_blockno c =? blockno)) eqn:Hmatch.
    + zify_bool. left. exists i, c. rewrite Hix. pose proof (Hrc _ _ Hc). rewrite uadd_ok by lia. done.
    + simpl. rewrite Hnext. apply IH; [|lia]. intros k' j c' Hk' Hj Hc'.
      destruct (decide (k' = k)) as [->|]; [|apply (Hseen k' j c'); (done || lia)].
      rewrite Hk in Hj. injection Hj as <-. rewrite Hc in Hc'. injection Hc' as <-. intros [E1 E2].
      by rewrite E1, E2, !Z.eqb_refl in Hmatch.
Qed.

(** [recycle] takes the least recently used buffer that is not in use. *)
Lemma recycle_ok dev blockno :
  (∃ i c, inner l !! i = Some c ∧ c_refcnt c = 0 ∧
     recycle l dev blockno = Done (Some (i, i), with_inner l (set_refcnt i 1 (set_block i dev blockno (inner l))))) ∨
  ((∀ i c, inner l !! i = Some c → c_refcnt c ≠ 0) ∧ recycle l dev blockno = Done (None, l)).
Proof using Hl Hrc.
  unfold recycle. rewrite (lo_tail _ _ Hl), last_lookup, order_length.
  set (at_ := λ k : nat, match k with O => None | S k' => order !! k' end).
  change (order !! pred NBUF) with (at_ NBUF).
  match goal with |- context [while_fuel _ ?b _] => set (body := b) end.
  enough (∀ n k, (k < n)%nat → (k ≤ NBUF)%nat →
    (∀ k' i c, (k ≤ k')%nat → order !! k' = Some i → inner l !! i = Some c → c_refcnt c ≠ 0) →
    (∃ i c, inner l !! i = Some c ∧ c_refcnt c = 0 ∧ while_fuel n body (at_ k) =
       Done (Some (i, i), with_inner l (set_refcnt i 1 (set_block i dev blockno (inner l))))) ∨
    ((∀ i c, inner l !! i = Some c → c_refcnt c ≠ 0) ∧ while_fuel n body (at_ k) = Done (None, l))) as Hg.
  { apply Hg; [lia|lia|]. intros k' i c Hk' Hi. apply lookup_lt_Some in Hi. rewrite order_length in Hi. lia. }
  induction n as [|n IH]; intros k Hkn HkN Hseen; simpl; [lia|]. unfold body at 1 3.
  destruct (at_ k) as [i|] eqn:Hk; simpl; cycle 1.
  - right. split; [|done]. intros i c Hi. destruct (linked_pos _ _ _ _ (lo_linked _ _ Hl) Hi) as (k' & Hk' & _).
    apply (Hseen k' i c); [|done|done]. destruct k as [|k]; [lia|]. simpl in Hk.
    apply lookup_ge_None_1 in Hk. rewrite order_length in Hk. lia.
  - destruct k as [|k]; [done|]. simpl in Hk.
    destruct (lk_node _ _ (lo_linked _ _ Hl) _ _ Hk) as (c & Hc & Hprev & _ & Hix). rewrite Hc.
    destruct (Z.eqb_spec (c_refcnt c) 0) as [H0|H0].
    + left. exists i, c. rewrite Hix, H0. done.
    + simpl. rewrite Hprev. apply (IH k); [lia|lia|]. intros k' j c' Hk' Hj Hc'.
      destruct (decide (k' = k)) as [->|]; [|apply (Hseen k' j c'); (done || lia)].
      rewrite Hk in Hj. injection Hj as <-. rewrite Hc in Hc'. by injection Hc' as <-.
Qed.

(** ** Moving a buffer to the front *)

(** The pointer updates of [move_if_no_ref], at the control block [j]. *)
Lemma lookup_set_prev x n v j :
  set_prev n v x !! j = (λ c, mkCtrl (c_dev c) (c_blockno c) (if decide (n = j) then v else c_prev c)
                              (c_next c) (c_refcnt c) (c_index c)) <$> x !! j.
Proof.
  unfold set_prev. rewrite list_lookup_alter. case_decide as Hd; [by subst|]. destruct (x !! j) as [[]|]; done.
Qed.

Lemma lookup_set_next x n v j :
  set_next n v x !! j = (λ c, mkCtrl (c_dev c) (c_blockno c) (c_prev c)
                              (if decide (n = j) then v else c_next c) (c_refcnt c) (c_index c)) <$> x !! j.
Proof.
  unfold set_next. rewrite list_lookup_alter. case_decide as Hd; [by subst|]. destruct (x !! j) as [[]|]; done.
Qed.

Lemma lookup_via_prev x p v j :
  via p (λ n x, set_prev n v x) x !! j =
  (λ c, mkCtrl (c_dev c) (c_blockno c) (if decide (p = Some j) then v else c_prev c)
               (c_next c) (c_refcnt c) (c_index c)) <$> x !! j.
Proof.
  destruct p as [n|]; simpl.
  - rewrite lookup_set_prev. destruct (x !! j); simpl; [|done]. do 2 f_equal.
    destruct (decide (n = j)), (decide (Some n = Some j)); congruence.
  - destruct (x !! j) as [[]|]; done.
Qed.

Lemma lookup_via_next x p v j :
  via p (λ n x, set_next n v x) x !! j =
  (λ c, mkCtrl (c_dev c) (c_blockno c) (c_prev c)
               (if decide (p = Some j) then v else c_next c) (c_refcnt c) (c_index c)) <$> x !! j.
Proof.
  destruct p as [n|]; simpl.
  - rewrite lookup_set_next. destruct (x !! j); simpl; [|done]. do 2 f_equal.
    destruct (decide (n = j)), (decide (Some n = Some j)); congruence.
  - destruct (x !! j) as [[]|]; done.
Qed.

(** The list after detaching [index] and attaching it at the front. *)
Definition relink (x : list BufCtrl) (index : nat) (prev next hd : option nat) : list BufCtrl :=
  via hd (λ h x, set_prev h (Some index) x)
    (set_next index hd (set_prev index None
      (via prev (λ p x, set_next p next x) (via next (λ n x, set_prev n prev x) x)))).

Lemma lookup_relink x index prev next hd j :
  relink x index prev next hd !! j = (λ c, mkCtrl (c_dev c) (c_blockno c)
    (if decide (hd = Some j) then Some index else if decide (index = j) then None
     else if decide (next = Some j) then prev else c_prev c)
    (if decide (index = j) then hd else if decide (prev = Some j) then next else c_next c)
    (c_refcnt c) (c_index c)) <$> x !! j.
Proof.
  unfold relink. rewrite lookup_via_prev, lookup_set_next, lookup_set_prev, lookup_via_next, lookup_via_prev.
  by destruct (x !! j).
Qed.

(** Positions in the new order. *)
Lemma lookup_to_front m i k :
  (i :: delete m order) !! k =
  match k with O => Some i | S k' => if decide (k' < m)%nat then order !! k' else order !! S k' end.
Proof.
  destruct k as [|k]; simpl; [done|]. case_decide.
  - by rewrite list_lookup_delete_lt by lia.
  - by rewrite list_lookup_delete_ge by lia.
Qed.

Lemma linked_to_front x m i b :
  linked x order → order !! S m = Some i → x !! i = Some b →
  linked (relink x i (c_prev b) (c_next b) (order !! 0%nat)) (i :: delete (S m) order).
Proof using.
  intros Hlk Hi Hb. destruct (lk_node _ _ Hlk _ _ Hi) as (b' & Hb' & Hbp & Hbn & _).
  rewrite Hb in Hb'. injection Hb' as <-. rewrite Hbp, Hbn.
  pose proof (delete_Permutation _ _ _ Hi) as Hperm.
  assert (∀ a a' j, order !! a = Some j → order !! a' = Some j → a = a') as Hinj.
  { intros a a' j. apply NoDup_lookup. apply Hlk. }
  constructor.
  - rewrite <- Hperm. apply Hlk.
  - intros j. rewrite <- Hperm. rewrite (lk_all _ _ Hlk).
    unfold relink, set_next, set_prev. destruct (order !! 0%nat), (order !! S (S m)), (order !! m); simpl; by rewrite ?length_alter.
  - intros k j Hkj. rewrite lookup_relink. rewrite lookup_to_front in Hkj.
    assert (∀ k', (match k' with O => None | S k'' => (i :: delete (S m) order) !! k'' end) =
      match k' with O => None | 1%nat => Some i
      | S (S k'') => if decide (k'' < S m)%nat then order !! k'' else order !! S k'' end) as Hprev.
    { intros [|[|k']]; try done. by rewrite lookup_to_front. }
    rewrite Hprev, lookup_to_front. destruct k as [|k].
    + injection Hkj as <-. rewrite Hb. simpl. eexists. split; [done|]. simpl.
      destruct (lk_node _ _ Hlk _ _ Hi) as (b' & Hb' & _ & _ & Hix). rewrite Hb in Hb'. injection Hb' as <-.
      rewrite decide_False by (intros H0; by pose proof (Hinj _ _ _ H0 Hi)).
      rewrite !decide_True by (done || lia). done.
    + case_decide as Hkm.
      * destruct (lk_node _ _ Hlk _ _ Hkj) as (c & Hc & Hp & Hn & Hix). rewrite Hc. simpl.
        eexists. split; [done|]. simpl.
        rewrite (decide_False (P := i = j)) by (intros ->; pose proof (Hinj _ _ _ Hkj Hi); lia).
        rewrite (decide_False (P := i = j)) by (intros ->; pose proof (Hinj _ _ _ Hkj Hi); lia).
        rewrite (decide_False (P := order !! S (S m) = Some j)) by (intros H2; pose proof (Hinj _ _ _ Hkj H2); lia).
        split_and!; [|..|done].
        -- destruct k as [|k]; [by rewrite decide_True|].
           rewrite decide_False by (intros H0; by pose proof (Hinj _ _ _ Hkj H0)).
           by rewrite decide_True by lia.
        -- destruct (decide (k = m)) as [->|].
           ++ rewrite decide_True by done. rewrite decide_False by lia. done.
           ++ rewrite decide_False by (intros H0; pose proof (Hinj _ _ _ Hkj H0); lia).
              by rewrite decide_True by lia.
      * destruct (lk_node _ _ Hlk _ _ Hkj) as (c & Hc & Hp & Hn & Hix). rewrite Hc. simpl.
        eexists. split; [done|]. simpl.
        rewrite (decide_False (P := i = j)) by (intros ->; pose proof (Hinj _ _ _ Hkj Hi); lia).
        rewrite (decide_False (P := i = j)) by (intros ->; pose proof (Hinj _ _ _ Hkj Hi); lia).
        rewrite (decide_False (P := order !! 0%nat = Some j)) by (intros H2; pose proof (Hinj _ _ _ Hkj H2); lia).
        rewrite (decide_False (P := order !! m = Some j)) by (intros H2; pose proof (Hinj _ _ _ Hkj H2); lia).
        split_and!; [|by rewrite decide_False by lia|done].
        destruct k as [|k]; [lia|]. destruct (decide (S k = S m)) as [Hkm'|].
        -- rewrite decide_True by congruence. rewrite decide_True by lia. by injection Hkm' as ->.
        -- rewrite decide_False by (intros H0; pose proof (Hinj _ _ _ Hkj H0); lia).
           by rewrite decide_False by lia.
Qed.

Lemma ents_relink x i p n h : ent <$> relink x i p n h = ent <$> x.
Proof.
  apply list_eq. intros j. rewrite !list_lookup_fmap, lookup_relink. by destruct (x !! j).
Qed.

(** [move_if_no_ref] drops a reference; the last one makes the buffer the
    most recently used. *)
Lemma move_ok i b :
  inner l !! i = Some b → 1 ≤ c_refcnt b →
  ∃ l' order', move_if_no_ref l i = Done l' ∧ lru_ok l' order' ∧
    ents l' = ent <$> set_refcnt i (c_refcnt b - 1) (inner l) ∧ (c_refcnt b = 1 → head l' = Some i).
Proof using Hl Hrc.
  intros Hb Hr. unfold move_if_no_ref. rewrite Hb. cbn [unwrap mbind outcome_bind].
  pose proof (Hrc _ _ Hb). rewrite usub_ok by lia. cbn [mbind outcome_bind].
  set (x := set_refcnt i (c_refcnt b - 1) (inner l)).
  assert (lru_ok (with_inner l x) order) as Hx by (apply lru_ok_alter; done).
  destruct (Z.eqb_spec (c_refcnt b - 1) 0) as [Hz|Hz]; cycle 1.
  { eexists _, order. split; [done|]. split_and!; [exact Hx|done|lia]. }
  case_bool_decide as Hh; cbn [negb andb].
  { eexists _, order. split; [done|]. split_and!; [exact Hx|done|]. by simpl. }
  destruct (linked_pos _ _ _ _ (lo_linked _ _ Hl) Hb) as ([|m] & Hm & Hmlt).
  { exfalso. apply Hh. by rewrite (lo_head _ _ Hl). }
  destruct (lk_node _ _ (lo_linked _ _ Hl) _ _ Hm) as (b' & Hb' & Hbp & Hbn & Hix).
  rewrite Hb in Hb'. injection Hb' as <-.
  assert (x !! i = Some (mkCtrl (c_dev b) (c_blockno b) (c_prev b) (c_next b) (c_refcnt b - 1) (c_index b))) as Hxi.
  { unfold x, set_refcnt. by rewrite list_lookup_alter_eq, Hb. }
  pose proof (linked_to_front x m i _ (lo_linked _ _ Hx) Hm Hxi) as Hlk. cbn [c_prev c_next] in Hlk.
  eexists _, (i :: delete (S m) order). split; [done|]. split_and!; [constructor| |done]; cbn [inner head tail].
  - change (length (relink x i (c_prev b) (c_next b) (head l)) = NBUF). rewrite (lo_head _ _ Hl).
    rewrite <- (linked_length _ _ Hlk), <- order_length. simpl.
    rewrite length_delete by (by rewrite Hm). apply lookup_lt_Some in Hm. lia.
  - fold (relink x i (c_prev b) (c_next b) (head l)). by rewrite (lo_head _ _ Hl).
  - done.
  - apply lookup_lt_Some in Hm as Hmo. rewrite (lo_tail _ _ Hl), !last_lookup. cbn [length]. cbn [pred].
    rewrite length_delete by (by rewrite Hm). rewrite lookup_to_front.
    destruct (decide (S m = pred (length order))) as [Hlast|Hnl].
    + rewrite <- Hlast, Hm. rewrite bool_decide_eq_true_2 by done. rewrite Hbp.
      destruct (lookup_lt_is_Some_2 order m) as [p Hp]; [lia|].
      rewrite bool_decide_eq_true_2 by (by rewrite Hp). simpl. replace (length order - 1)%nat with (S m) by lia.
      by rewrite decide_True by lia.
    + assert (bool_decide (order !! pred (length order) = Some i) = false) as ->.
      { apply bool_decide_eq_false_2. intros Hp.
        pose proof (NoDup_lookup _ _ _ _ (lk_nodup _ _ (lo_linked _ _ Hl)) Hp Hm). lia. }
      cbn [andb]. destruct (length order - 1)%nat as [|n] eqn:Hn; [lia|].
      rewrite decide_False by lia. f_equal. lia.
  - unfold ents. cbn [inner]. fold (relink x i (c_prev b) (c_next b) (head l)). apply ents_relink.
Qed.
End Lru.

(** [binit] links the buffers in the order of their indices. *)
Lemma lru_init_ok :
  let l := lru_init (mkLru (replicate NBUF new_ctrl) None None) in
  lru_ok l (seq 0 NBUF) ∧ ents l = replicate NBUF (0, 0, 0).
Proof.
  split; [|by vm_compute]. constructor; [by vm_compute| |by vm_compute|by vm_compute].
  constructor; [apply NoDup_seq| |].
  - intros i. rewrite elem_of_seq. change (length _) with NBUF. lia.
  - intros k i Hk. apply lookup_seq in Hk as [-> Hk]. change NBUF with 30%nat in Hk.
    do 30 (destruct k as [|k]; [eexists; split; [reflexivity|by vm_compute]|]). lia.
Qed.
