(* ===== verification/BioCache.v ===== *)
(** * The buffer cache as a block store

    The cache and the disk together represent a store of blocks ([cur]) with a
    reference count and a lock for each block ([refs], [held]) and a place for
    the cached ones ([place]).  Every operation of the cache is an update of
    these functions; the clients of the cache are verified against them. *)

From Stdlib Require Import ZArith Lia.
From stdpp Require Import base gmap strings numbers list.
From S2P Require Import Prelude Bytes Bio BioSpec.

Local Open Scope Z_scope.

Definition upd {A} (f : Z → A) (n : Z) (v : A) : Z → A := λ m, if decide (m = n) then v else f m.

Lemma upd_eq {A} (f : Z → A) n v : upd f n v n = v.
Proof. unfold upd. by rewrite decide_True. Qed.
Lemma upd_ne {A} (f : Z → A) n v m : m ≠ n → upd f n v m = f m.
Proof. intros. unfold upd. by rewrite decide_False. Qed.

Record cst := mkCst {
  cur : Z → block;
  refs : Z → Z;
  held : Z → bool;
  place : Z → option nat;
}.

(** Two descriptions that agree everywhere. *)
Definition cst_eq (a a' : cst) : Prop :=
  ∀ n, cur a n = cur a' n ∧ refs a n = refs a' n ∧ held a n = held a' n ∧ place a n = place a' n.

Global Instance cst_eq_equiv : Equivalence cst_eq.
Proof.
  split.
  - intros a n. done.
  - intros a b Hab n. destruct (Hab n) as (? & ? & ? & ?). done.
  - intros a b c Hab Hbc n. destruct (Hab n) as (-> & -> & -> & ->). apply Hbc.
Qed.

Section Rep.
Context {D : Type} {BD : BlockDevice D} {BDL : BlockDeviceLaws D}.
Context (dev : Z).

Definition entry_at (s : bstate D) (i : nat) : option (Z * Z * Z) := ents (ctrl (cache s)) !! i.

Record cache_rep (s : bstate D) (a : cst) : Prop := {
  cr_dev : dev ≠ 0;
  cr_lru : ∃ order, lru_ok (ctrl (cache s)) order;
  cr_bufs : length (bufs (cache s)) = NBUF;
  (** the blocks in the cache *)
  cr_place n i : place a n = Some i ↔ ∃ r, entry_at s i = Some (dev, n, r);
  cr_refs n i r : entry_at s i = Some (dev, n, r) → r = refs a n;
  cr_data n i b : place a n = Some i → bufs (cache s) !! i = Some b →
    valid b = true ∧ data b = cur a n ∧ locked b = held a n;
  (** buffers that have not been used *)
  cr_unused i dv n r b : entry_at s i = Some (dv, n, r) → bufs (cache s) !! i = Some b → dv ≠ dev →
    r = 0 ∧ locked b = false;
  (** blocks that nobody references are on disk *)
  cr_clean n : refs a n = 0 → cur a n = dev_read (disk s) n;
  cr_absent n : place a n = None → refs a n = 0;
  cr_range n : 0 ≤ refs a n < 2 ^ 63 ∧ (held a n = true → 1 ≤ refs a n);
  cr_len n : Z.of_nat (length (cur a n)) = BSIZE;
}.

Lemma cache_rep_ext s a a' : cst_eq a a' → cache_rep s a → cache_rep s a'.
Proof.
  intros Heq [H1 H2 H3 H4 H5 H6 H7 H8 H9 H10 H11]. constructor; try done.
  - intros n i. destruct (Heq n) as (_ & _ & _ & <-). done.
  - intros n i r Hi. destruct (Heq n) as (_ & <- & _). by apply (H5 n i).
  - intros n i b. destruct (Heq n) as (<- & _ & <- & <-). by apply H6.
  - intros n. destruct (Heq n) as (<- & <- & _). apply H8.
  - intros n. destruct (Heq n) as (_ & <- & _ & <-). apply H9.
  - intros n. destruct (Heq n) as (_ & <- & <- & _). apply H10.
  - intros n. destruct (Heq n) as (<- & _). apply H11.
Qed.

Global Instance cache_rep_proper s : Proper (cst_eq ==> iff) (cache_rep s).
Proof. intros a a' Heq. split; apply cache_rep_ext; [done|by symmetry]. Qed.

(** A handle on block [n]. *)
Definition handle (a : cst) (b : Buf) (n : Z) : Prop :=
  place a n = Some (b_index b) ∧ b_rc_ptr b = b_index b ∧ b_blockno b = n ∧ b_dev b = dev ∧ held a n = true.

Lemma entry_ctrl s i dv n r :
  entry_at s i = Some (dv, n, r) ↔
  ∃ c, inner (ctrl (cache s)) !! i = Some c ∧ c_dev c = dv ∧ c_blockno c = n ∧ c_refcnt c = r.
Proof.
  unfold entry_at, ents. rewrite list_lookup_fmap. destruct (inner (ctrl (cache s)) !! i) as [c|]; simpl.
  - unfold ent. split; [intros [= <- <- <-]; eauto|]. intros (c' & [= <-] & <- & <- & <-). done.
  - split; [done|]. intros (c & ? & _). done.
Qed.

Lemma ents_refcnt i r x : ent <$> set_refcnt i r x = alter (λ '(dv, n, _), (dv, n, r)) i (ent <$> x).
Proof. unfold set_refcnt. apply list_fmap_alter, Forall_true. by intros []. Qed.

Lemma ents_block i dv n x : ent <$> set_block i dv n x = alter (λ '(_, _, r), (dv, n, r)) i (ent <$> x).
Proof. unfold set_block. apply list_fmap_alter, Forall_true. by intros []. Qed.

Lemma entry_lt s a i e : cache_rep s a → entry_at s i = Some e → (i < NBUF)%nat.
Proof.
  intros Hr Hi. destruct (cr_lru _ _ Hr) as [order Hl]. rewrite <- (lo_len _ _ Hl).
  apply lookup_lt_Some in Hi. unfold ents in Hi. by rewrite length_fmap in Hi.
Qed.

Lemma place_inj s a n n' i : cache_rep s a → place a n = Some i → place a n' = Some i → n = n'.
Proof.
  intros Hr [r H1]%(cr_place _ _ Hr) [r' H2]%(cr_place _ _ Hr). rewrite H1 in H2. congruence.
Qed.

Lemma place_buf s a n i : cache_rep s a → place a n = Some i →
  entry_at s i = Some (dev, n, refs a n) ∧ bufs (cache s) !! i = Some (mkInner true (cur a n) (held a n)).
Proof.
  intros Hr Hp. pose proof Hp as [r He]%(cr_place _ _ Hr). rewrite (cr_refs _ _ Hr n i r He) in He.
  split; [done|]. destruct (lookup_lt_is_Some_2 (bufs (cache s)) i) as [b Hb].
  { rewrite (cr_bufs _ _ Hr). by apply (entry_lt s a i _ Hr He). }
  destruct (cr_data _ _ Hr n i b Hp Hb) as (Hv & Hd & Hlk). rewrite Hb. destruct b as [bv bd bl]. simpl in *. by subst.
Qed.

(** *** Elementary changes *)

(** The reference count of a cached block. *)
Lemma rep_refs s a n i r l' order :
  cache_rep s a → place a n = Some i → lru_ok l' order →
  ents l' = alter (λ '(dv, m, _), (dv, m, r)) i (ents (ctrl (cache s))) →
  0 ≤ r < 2 ^ 63 → (held a n = true → 1 ≤ r) → (r = 0 → cur a n = dev_read (disk s) n) →
  cache_rep (with_ctrl s l') (mkCst (cur a) (upd (refs a) n r) (held a) (place a)).
Proof.
  intros Hr Hp Hl He Hrange Hheld Hclean. destruct (place_buf s a n i Hr Hp) as [Hei Hbi].
  assert (∀ j, entry_at (with_ctrl s l') j = if decide (i = j) then Some (dev, n, r) else entry_at s j) as Hent.
  { intros j. unfold entry_at in *. simpl. rewrite He, list_lookup_alter. case_decide as Hd; [|done].
    by rewrite Hei. }
  constructor; cbn [cur refs held place].
  - apply Hr.
  - by exists order.
  - apply Hr.
  - intros m j. rewrite (cr_place _ _ Hr), Hent. case_decide as Hd; [subst j|done]. rewrite Hei.
    split; intros [r' Hr']; eexists; by injection Hr' as <-.
  - intros m j r'. rewrite Hent. case_decide as Hd.
    + intros [= <- <-]. by rewrite upd_eq.
    + intros Hj. rewrite upd_ne; [by apply (cr_refs _ _ Hr m j)|]. intros ->.
      assert (place a n = Some j) as Hp' by (apply (cr_place _ _ Hr); eauto). congruence.
  - intros m j b. apply (cr_data _ _ Hr).
  - intros j dv m r' b. rewrite Hent. case_decide as Hd; [by intros [= <- <- <-]|]. apply (cr_unused _ _ Hr).
  - intros m. unfold upd. case_decide as Hd; [subst m; done|]. apply (cr_clean _ _ Hr).
  - intros m Hm. rewrite upd_ne; [by apply (cr_absent _ _ Hr)|congruence].
  - intros m. unfold upd. case_decide as Hd; [subst m; done|]. apply (cr_range _ _ Hr).
  - apply (cr_len _ _ Hr).
Qed.

(** Data and lock of a cached block. *)
Lemma rep_buf s a n i v lk :
  cache_rep s a → place a n = Some i → Z.of_nat (length v) = BSIZE →
  (lk = true → 1 ≤ refs a n) → (refs a n = 0 → v = dev_read (disk s) n) →
  cache_rep (with_bufs s (alter (λ _, mkInner true v lk) i (bufs (cache s))))
    (mkCst (upd (cur a) n v) (refs a) (upd (held a) n lk) (place a)).
Proof.
  intros Hr Hp Hv Hlk Hclean. destruct (place_buf s a n i Hr Hp) as [Hei Hbi].
  assert (∀ j, bufs (cache (with_bufs s (alter (λ _, mkInner true v lk) i (bufs (cache s))))) !! j =
    if decide (i = j) then Some (mkInner true v lk) else bufs (cache s) !! j) as Hbuf.
  { intros j. simpl. rewrite list_lookup_alter. case_decide; [|done]. by rewrite Hbi. }
  constructor; cbn [cur refs held place].
  - apply Hr.
  - apply Hr.
  - simpl. rewrite length_alter. apply Hr.
  - apply (cr_place _ _ Hr).
  - apply (cr_refs _ _ Hr).
  - intros m j b Hm. rewrite Hbuf. case_decide as Hd.
    + subst j. pose proof (place_inj _ _ _ _ _ Hr Hp Hm) as <-. intros [= <-]. by rewrite !upd_eq.
    + intros Hb. rewrite !upd_ne by congruence. by apply (cr_data _ _ Hr m j).
  - intros j dv m r b Hj. rewrite Hbuf. case_decide as Hd; [|by apply (cr_unused _ _ Hr j dv m r b)].
    subst j. change (entry_at s i = Some (dv, m, r)) in Hj. rewrite Hei in Hj. by injection Hj as <- <- <-.
  - intros m. unfold upd. case_decide as Hd; [subst m; apply Hclean|]. apply (cr_clean _ _ Hr).
  - apply (cr_absent _ _ Hr).
  - intros m. split; [apply (cr_range _ _ Hr)|]. unfold upd. case_decide as Hd; [subst m; done|]. apply (cr_range _ _ Hr).
  - intros m. unfold upd. case_decide; [done|]. apply (cr_len _ _ Hr).
Qed.

(** A buffer that is not in use taken for a block that is not cached. *)
Lemma rep_evict s a n i dv m l' order :
  cache_rep s a → place a n = None → entry_at s i = Some (dv, m, 0) → lru_ok l' order →
  ents l' = alter (λ _, (dev, n, 1)) i (ents (ctrl (cache s))) →
  cache_rep (mkB (mkBcache l' (alter (λ _, mkInner true (dev_read (disk s) n) true) i (bufs (cache s)))) (disk s))
    (mkCst (cur a) (upd (refs a) n 1) (upd (held a) n true)
       (upd (if decide (dv = dev) then upd (place a) m None else place a) n (Some i))).
Proof.
  intros Hr Hn Hei Hl He. set (s' := mkB _ _).
  assert (∀ j, entry_at s' j = if decide (i = j) then Some (dev, n, 1) else entry_at s j) as Hent.
  { intros j. unfold entry_at in *. simpl. rewrite He, list_lookup_alter. case_decide as Hd; [|done]. by rewrite Hei. }
  destruct (lookup_lt_is_Some_2 (bufs (cache s)) i) as [bi Hbi].
  { rewrite (cr_bufs _ _ Hr). by apply (entry_lt s a i _ Hr Hei). }
  assert (∀ j, bufs (cache s') !! j =
    if decide (i = j) then Some (mkInner true (dev_read (disk s) n) true) else bufs (cache s) !! j) as Hbuf.
  { intros j. simpl. rewrite list_lookup_alter. case_decide; [|done]. by rewrite Hbi. }
  set (pl := if decide (dv = dev) then upd (place a) m None else place a).
  assert (∀ k j, pl k = Some j ↔ place a k = Some j ∧ j ≠ i) as Hpl.
  { intros k j. unfold pl. case_decide as Hd.
    - subst dv. assert (place a m = Some i) as Hm by (apply (cr_place _ _ Hr); eauto).
      unfold upd. case_decide as Hk; [subst k; split; [done|]; intros [Hk Hne]; congruence|].
      split; [|by intros [? _]]. intros Hj. split; [done|]. intros ->. by apply Hk, (place_inj s a _ _ i).
    - split; [|by intros [? _]]. intros Hj. split; [done|]. intros ->.
      apply (cr_place _ _ Hr) in Hj as [r Hj]. rewrite Hei in Hj. congruence. }
  assert (cur a n = dev_read (disk s) n) as Hcn by (by apply (cr_clean _ _ Hr), (cr_absent _ _ Hr)).
  constructor; cbn [cur refs held place].
  - apply Hr.
  - by exists order.
  - simpl. rewrite length_alter. apply Hr.
  - intros k j. rewrite Hent. unfold upd. case_decide as Hk.
    + subst k. split; [intros [= <-]; rewrite decide_True by done; eauto|].
      case_decide as Hj; [intros _; by subst|]. intros [r Hj']. exfalso.
      assert (place a n = Some j) by (apply (cr_place _ _ Hr); eauto). congruence.
    + rewrite Hpl, (cr_place _ _ Hr). case_decide as Hj.
      * subst j. split; [by intros [_ ?]|]. intros [r [= <-]]. done.
      * naive_solver.
  - intros k j r. rewrite Hent. case_decide as Hj; [intros [= <- <-]; by rewrite upd_eq|].
    intros Hk. rewrite upd_ne; [by apply (cr_refs _ _ Hr k j)|]. intros ->.
    assert (place a n = Some j) by (apply (cr_place _ _ Hr); eauto). congruence.
  - intros k j b. rewrite Hbuf. unfold upd. case_decide as Hk.
    + subst k. intros [= <-]. rewrite decide_True by done. intros [= <-]. by rewrite Hcn.
    + intros [Hj Hne]%Hpl. rewrite decide_False by done. by apply (cr_data _ _ Hr).
  - intros j dv' k r b. rewrite Hent, Hbuf. case_decide; [by intros [= <- <- <-]|]. apply (cr_unused _ _ Hr).
  - intros k. unfold upd. case_decide; [done|]. apply (cr_clean _ _ Hr).
  - intros k. unfold upd. case_decide as Hk; [done|]. intros Hp. destruct (place a k) as [j|] eqn:Hj.
    + assert (j = i) as ->.
      { destruct (decide (j = i)); [done|]. assert (pl k = Some j) by (by apply Hpl). congruence. }
      apply (cr_place _ _ Hr) in Hj as Hj'. destruct Hj' as [r Hj'].
      rewrite <- (cr_refs _ _ Hr k i r Hj'). rewrite Hei in Hj'. by injection Hj' as _ _ <-.
    + by apply (cr_absent _ _ Hr).
  - intros k. unfold upd. case_decide; [lia|]. apply (cr_range _ _ Hr).
  - apply (cr_len _ _ Hr).
Qed.

(** There is a buffer that is not in use when few blocks are. *)
Lemma free_buffer s a used :
  cache_rep s a → (∀ n, refs a n ≠ 0 → n ∈ used) → (length used < NBUF)%nat →
  ∃ i c, inner (ctrl (cache s)) !! i = Some c ∧ c_refcnt c = 0.
Proof.
  intros Hr Hused Hlt. destruct (cr_lru _ _ Hr) as [order Hl].
  destruct (decide (Exists (λ c, c_refcnt c = 0) (inner (ctrl (cache s))))) as [Hex|Hno].
  { apply Exists_exists in Hex as (c & [i Hi]%list_elem_of_lookup & Hc). eauto. }
  exfalso. rewrite <- Forall_Exists_neg in Hno.
  assert (∀ i c, inner (ctrl (cache s)) !! i = Some c →
    entry_at s i = Some (dev, c_blockno c, refs a (c_blockno c)) ∧ c_blockno c ∈ used) as Hall.
  { intros i c Hc. pose proof (Forall_lookup_1 _ _ _ _ Hno Hc) as Hne. simpl in Hne.
    assert (entry_at s i = Some (c_dev c, c_blockno c, c_refcnt c)) as He by (apply entry_ctrl; eauto).
    destruct (lookup_lt_is_Some_2 (bufs (cache s)) i) as [b Hb].
    { rewrite (cr_bufs _ _ Hr). by apply (entry_lt s a i _ Hr He). }
    destruct (decide (c_dev c = dev)) as [Hd|Hd]; [|by destruct (cr_unused _ _ Hr i _ _ _ b He Hb Hd)].
    rewrite Hd in He. pose proof (cr_refs _ _ Hr _ _ _ He) as Hrc. rewrite Hrc in He, Hne. split; [done|]. by apply Hused. }
  assert (NoDup (c_blockno <$> inner (ctrl (cache s)))) as Hnd.
  { apply NoDup_alt. intros i j n Hi Hj. rewrite list_lookup_fmap in Hi, Hj.
    destruct (inner (ctrl (cache s)) !! i) as [ci|] eqn:Hci; [|done].
    destruct (inner (ctrl (cache s)) !! j) as [cj|] eqn:Hcj; [|done]. simpl in *.
    injection Hi as Hi. injection Hj as Hj. destruct (Hall _ _ Hci) as [H1 _]. destruct (Hall _ _ Hcj) as [H2 _].
    assert (place a n = Some i) by (apply (cr_place _ _ Hr); rewrite H1, Hi; eauto).
    assert (place a n = Some j) by (apply (cr_place _ _ Hr); rewrite H2, Hj; eauto). congruence. }
  assert (c_blockno <$> inner (ctrl (cache s)) ⊆+ used) as Hsub.
  { apply NoDup_submseteq; [done|]. intros n Hn. apply list_elem_of_fmap in Hn as (c & -> & [i Hi]%list_elem_of_lookup).
    by apply (Hall i c). }
  apply submseteq_length in Hsub. rewrite length_fmap, (lo_len _ _ Hl) in Hsub. lia.
Qed.

(** *** The operations *)

Lemma alter_const i (b : BufInner) (f : BufInner → BufInner) (x : list BufInner) :
  x !! i = Some b → alter f i x = alter (λ _, f b) i x.
Proof.
  intros Hi. apply list_eq. intros j. rewrite !list_lookup_alter. case_decide; [|done]. by rewrite Hi.
Qed.

(** Places of blocks in use do not change. *)
Definition stable (a : cst) (pl : Z → option nat) : Prop :=
  ∀ m i, refs a m ≠ 0 → place a m = Some i → pl m = Some i.

Lemma rc_bound s a i c : cache_rep s a → inner (ctrl (cache s)) !! i = Some c → 0 ≤ c_refcnt c < 2 ^ 64 - 1.
Proof.
  intros Hr Hc. assert (entry_at s i = Some (c_dev c, c_blockno c, c_refcnt c)) as He by (apply entry_ctrl; eauto).
  destruct (lookup_lt_is_Some_2 (bufs (cache s)) i) as [b Hb].
  { rewrite (cr_bufs _ _ Hr). by apply (entry_lt s a i _ Hr He). }
  destruct (decide (c_dev c = dev)) as [Hd|Hd].
  - rewrite Hd in He. rewrite (cr_refs _ _ Hr _ _ _ He). pose proof (cr_range _ _ Hr (c_blockno c)). lia.
  - destruct (cr_unused _ _ Hr i _ _ _ b He Hb Hd) as [-> _]. lia.
Qed.

Definition take_handle (a : cst) (n : Z) (pl : Z → option nat) : cst :=
  mkCst (cur a) (upd (refs a) n (refs a n + 1)) (upd (held a) n true) pl.

Lemma bread_ok s a n used :
  cache_rep s a → held a n = false → (∀ m, refs a m ≠ 0 → m ∈ used) → (length used < NBUF)%nat →
  refs a n + 1 < 2 ^ 63 →
  ∃ b s' pl, bread dev n s = Done (b, s') ∧ disk s' = disk s ∧ stable a pl ∧
    cache_rep s' (take_handle a n pl) ∧ handle (take_handle a n pl) b n.
Proof.
  intros Hr Hheld Hused Hlen Hbound. destruct (cr_lru _ _ Hr) as [order Hl].
  pose proof (rc_bound s a) as Hrc. pose proof (cr_range _ _ Hr n) as [Hrn _]. unfold bread, bget.
  destruct (find_cached_ok _ order Hl (λ i c, Hrc i c Hr) dev n) as [(i & c & Hc & Hcd & Hcn & ->)|[Hmiss ->]].
  - assert (entry_at s i = Some (dev, n, c_refcnt c)) as He by (apply entry_ctrl; eauto).
    pose proof (cr_refs _ _ Hr _ _ _ He) as Hrefs.
    assert (place a n = Some i) as Hp by (apply (cr_place _ _ Hr); eauto).
    destruct (place_buf s a n i Hr Hp) as [_ Hbi]. rewrite Hheld in Hbi. rewrite Hrefs.
    cbn [mbind outcome_bind]. unfold lock_data. cbn [with_ctrl cache bufs]. rewrite Hbi. cbn [unwrap mbind outcome_bind locked].
    simpl. unfold set_locked. rewrite (alter_const i _ _ _ Hbi). rewrite list_lookup_alter_eq, Hbi. simpl.
    eexists _, _, (place a). split; [done|]. split; [done|]. split; [by intros m j|].
    split; [|unfold handle; cbn; rewrite upd_eq; by split_and!].
    assert (cache_rep (with_ctrl s (with_inner (ctrl (cache s)) (set_refcnt i (refs a n + 1) (inner (ctrl (cache s))))))
      (mkCst (cur a) (upd (refs a) n (refs a n + 1)) (held a) (place a))) as Hr1.
    { eapply rep_refs; [done|done|by eapply lru_ok_alter|apply ents_refcnt|lia|congruence|lia]. }
    eapply cache_rep_ext; [|eapply (rep_buf _ _ n i (cur a n) true Hr1 Hp)].
    + intros m. cbn. split_and!; try done. unfold upd. case_decide as Hd; [by rewrite Hd|done].
    + apply (cr_len _ _ Hr).
    + cbn. rewrite upd_eq. lia.
    + cbn. rewrite upd_eq. lia.
  - cbn [mbind outcome_bind].
    assert (place a n = None) as Hp.
    { destruct (place a n) as [i|] eqn:Hp; [|done]. apply (cr_place _ _ Hr) in Hp as [r He].
      apply entry_ctrl in He as (c & Hc & Hcd & Hcn & _). destruct (Hmiss i c); done. }
    destruct (recycle_ok _ order Hl (λ i c, Hrc i c Hr) dev n) as [(i & c & Hc & Hc0 & ->)|[Hfull _]]; cycle 1.
    { destruct (free_buffer s a used Hr Hused Hlen) as (i & c & Hc & H0). by destruct (Hfull i c). }
    assert (entry_at s i = Some (c_dev c, c_blockno c, 0)) as He by (apply entry_ctrl; eauto 6).
    destruct (lookup_lt_is_Some_2 (bufs (cache s)) i) as [bi Hbi].
    { rewrite (cr_bufs _ _ Hr). by apply (entry_lt s a i _ Hr He). }
    assert (locked bi = false) as Hlk.
    { destruct (decide (c_dev c = dev)) as [Hd|Hd]; [|by apply (cr_unused _ _ Hr i _ _ _ bi He Hbi Hd)].
      rewrite Hd in He. assert (place a (c_blockno c) = Some i) as Hpc by (apply (cr_place _ _ Hr); eauto).
      destruct (cr_data _ _ Hr _ _ _ Hpc Hbi) as (_ & _ & ->). pose proof (cr_refs _ _ Hr _ _ _ He) as H0.
      destruct (held a (c_blockno c)) eqn:Hh; [|done]. pose proof (proj2 (cr_range _ _ Hr (c_blockno c)) Hh). lia. }
    cbn [mbind outcome_bind]. unfold lock_data. cbn [with_ctrl with_bufs cache bufs].
    unfold set_valid. rewrite list_lookup_alter_eq, Hbi. simpl. rewrite Hlk. simpl.
    unfold set_locked. rewrite list_lookup_alter_eq, list_lookup_alter_eq, Hbi. simpl.
    pose proof (cr_absent _ _ Hr n Hp) as Hn0.
    eexists _, _, (upd (if decide (c_dev c = dev) then upd (place a) (c_blockno c) None else place a) n (Some i)).
    split; [done|]. split; [done|]. split; [|split].
    + intros m j Hm Hj. unfold upd. case_decide as Hd; [congruence|]. case_decide as Hd'; [|done].
      case_decide as Hd2; [|done]. subst m. rewrite Hd' in He.
      by rewrite <- (cr_refs _ _ Hr _ _ _ He) in Hm.
    + unfold take_handle. rewrite Hn0. match goal with |- cache_rep ?st _ => replace st with
        (mkB (mkBcache (with_inner (ctrl (cache s)) (set_refcnt i 1 (set_block i dev n (inner (ctrl (cache s))))))
          (alter (λ _, mkInner true (dev_read (disk s) n) true) i (bufs (cache s)))) (disk s)) end; cycle 1.
      { unfold store_data, with_bufs, set_data. cbn [cache ctrl bufs disk b_index with_ctrl]. do 2 f_equal.
        apply list_eq. intros j. rewrite !list_lookup_alter.
        case_decide; [|done]. rewrite !decide_True by done. by rewrite Hbi. }
      eapply rep_evict; [done|done|exact He| |].
      { apply (lru_ok_alter (with_inner (ctrl (cache s)) (set_block i dev n (inner (ctrl (cache s))))) order _ i); [|done].
        by apply lru_ok_alter. }
      unfold ents, with_inner. cbn [inner]. rewrite ents_refcnt, ents_block, list_alter_alter_eq.
      apply list_eq. intros j. rewrite !list_lookup_alter. case_decide; [|done].
      by rewrite list_lookup_fmap, Hc.
    + unfold handle, take_handle. cbn. rewrite !upd_eq. done.
Qed.

Lemma raw_data_ok s a b n : cache_rep s a → handle a b n → raw_data b s = Done (cur a n).
Proof.
  intros Hr (Hp & _). destruct (place_buf s a n _ Hr Hp) as [_ Hb]. unfold raw_data. by rewrite Hb.
Qed.

Lemma store_data_ok s a b n v :
  cache_rep s a → handle a b n → Z.of_nat (length v) = BSIZE →
  cache_rep (store_data b v s) (mkCst (upd (cur a) n v) (refs a) (held a) (place a)).
Proof.
  intros Hr (Hp & _ & _ & _ & Hh) Hv. destruct (place_buf s a n _ Hr Hp) as [_ Hb].
  pose proof (proj2 (cr_range _ _ Hr n) Hh). unfold store_data, set_data. rewrite (alter_const _ _ _ _ Hb). simpl.
  eapply cache_rep_ext; [|apply (rep_buf s a n _ v (held a n) Hr Hp Hv); lia].
  intros m. cbn. split_and!; try done. unfold upd. case_decide as Hd; [by rewrite Hd|done].
Qed.

Lemma bwrite_ok s a b n :
  cache_rep s a → handle a b n →
  bwrite b s = Done (mkB (cache s) (dev_write (disk s) n (cur a n))) ∧
  cache_rep (mkB (cache s) (dev_write (disk s) n (cur a n))) a.
Proof.
  intros Hr Hb. split.
  - unfold bwrite, disk_rw. rewrite (raw_data_ok s a b n Hr Hb). simpl. by destruct Hb as (_ & _ & -> & _).
  - destruct Hr as [H1 H2 H3 H4 H5 H6 H7 H8 H9 H10 H11]. constructor; try done.
    intros m Hm. cbn [disk]. rewrite dev_read_write by done. case_decide as Hd; [by rewrite Hd|by apply H8].
Qed.

Lemma pin_ok s a b n :
  cache_rep s a → handle a b n → refs a n + 1 < 2 ^ 63 →
  ∃ s', pin b s = Done s' ∧ disk s' = disk s ∧
    cache_rep s' (mkCst (cur a) (upd (refs a) n (refs a n + 1)) (held a) (place a)).
Proof.
  intros Hr (Hp & Hrc & _ & _ & _) Hlt. destruct (place_buf s a n _ Hr Hp) as [He _].
  apply entry_ctrl in He as (c & Hc & Hcd & Hcn & Hcr). destruct (cr_lru _ _ Hr) as [order Hl].
  pose proof (cr_range _ _ Hr n) as [Hrg _]. unfold pin. rewrite Hrc, Hc. cbn [unwrap mbind outcome_bind].
  rewrite uadd_ok by lia. cbn [mbind outcome_bind]. eexists. split; [done|]. split; [done|]. rewrite Hcr.
  eapply rep_refs; [done|done|by eapply lru_ok_alter|apply ents_refcnt|lia|lia|lia].
Qed.

Lemma unpin_ok s a b n :
  cache_rep s a → handle a b n → 2 ≤ refs a n →
  ∃ s', unpin b s = Done s' ∧ disk s' = disk s ∧
    cache_rep s' (mkCst (cur a) (upd (refs a) n (refs a n - 1)) (held a) (place a)).
Proof.
  intros Hr (Hp & Hrc & _ & _ & _) Hlt. destruct (place_buf s a n _ Hr Hp) as [He _].
  apply entry_ctrl in He as (c & Hc & Hcd & Hcn & Hcr). destruct (cr_lru _ _ Hr) as [order Hl].
  pose proof (cr_range _ _ Hr n) as [Hrg _]. unfold unpin. rewrite Hrc, Hc. cbn [unwrap mbind outcome_bind].
  rewrite Hcr. destruct (Z.leb_spec (refs a n) 1); [lia|].
  rewrite usub_ok by lia. cbn [mbind outcome_bind]. eexists. split; [done|]. split; [done|].
  eapply rep_refs; [done|done|by eapply lru_ok_alter|apply ents_refcnt|lia|lia|lia].
Qed.

Definition drop_handle (a : cst) (n : Z) : cst :=
  mkCst (cur a) (upd (refs a) n (refs a n - 1)) (upd (held a) n false) (place a).

Lemma drop_buf_ok s a b n :
  cache_rep s a → handle a b n → (refs a n = 1 → cur a n = dev_read (disk s) n) →
  ∃ s', drop_buf b s = Done s' ∧ disk s' = disk s ∧ cache_rep s' (drop_handle a n).
Proof.
  intros Hr (Hp & _ & _ & _ & Hh) Hclean. destruct (place_buf s a n _ Hr Hp) as [He Hb].
  pose proof (proj2 (cr_range _ _ Hr n) Hh) as Hge. pose proof (cr_range _ _ Hr n) as [Hrg _].
  unfold drop_buf, set_locked. rewrite (alter_const _ _ _ _ Hb). cbn [valid data].
  assert (cache_rep (with_bufs s (alter (λ _, mkInner true (cur a n) false) (b_index b) (bufs (cache s))))
    (mkCst (cur a) (refs a) (upd (held a) n false) (place a))) as Hr1.
  { eapply cache_rep_ext; [|apply (rep_buf s a n _ (cur a n) false Hr Hp); [apply (cr_len _ _ Hr)|done|lia]].
    intros m. cbn. split_and!; try done. unfold upd. case_decide as Hd; [by rewrite Hd|done]. }
  apply entry_ctrl in He as (c & Hc & Hcd & Hcn & Hcr). destruct (cr_lru _ _ Hr) as [order Hl].
  unfold brelse. cbn [with_bufs cache ctrl].
  destruct (move_ok (ctrl (cache s)) order Hl (λ i c, rc_bound s a i c Hr) (b_index b) c Hc) as (l' & order' & -> & Hl' & He' & _);
    [lia|]. cbn [mbind outcome_bind]. eexists. split; [done|]. split; [done|].
  apply (rep_refs _ _ n (b_index b) (refs a n - 1) l' order' Hr1); [done|exact Hl'| |cbn; lia| |].
  - rewrite He', Hcr. apply ents_refcnt.
  - cbn. by rewrite upd_eq.
  - cbn. intros Hz. apply Hclean. lia.
Qed.
End Rep.

(** The cache after [binit]: nothing is cached. *)
Lemma binit_rep {D} `{BlockDeviceLaws D} dev (d : D) :
  dev ≠ 0 →
  cache_rep dev (mkB (binit new_bcache) d) (mkCst (dev_read d) (λ _, 0) (λ _, false) (λ _, None)).
Proof.
  intros Hdev. destruct lru_init_ok as [Hl He].
  assert (∀ i dv n r, entry_at (mkB (binit new_bcache) d) i = Some (dv, n, r) → dv = 0 ∧ r = 0) as Hent.
  { intros i dv n r. unfold entry_at. change (ctrl (cache _)) with (lru_init (mkLru (replicate NBUF new_ctrl) None None)).
    rewrite He. intros [[= -> -> ->] _]%lookup_replicate. done. }
  constructor; cbn [cur refs held place]; try done.
  - by exists (seq 0 NBUF).
  - intros n i. split; [done|]. intros [r Hi]. by apply Hent in Hi as [? _].
  - intros n i r Hi. by apply Hent in Hi as [? ->].
  - intros i dv n r b Hi Hb _. apply Hent in Hi as [_ ->]. split; [done|].
    change (bufs (cache _)) with (replicate NBUF (mkInner false (replicate (Z.to_nat BSIZE) 0) false)) in Hb.
    by apply lookup_replicate in Hb as [-> _].
  - intros n. apply dev_read_length.
Qed.
