(* ===== verification/BioClient.v ===== *)
(** * Clients of the buffer cache

    How the clients of the cache see it: nothing open ([quiet]), one buffer
    open, two buffers open, and the steps between these states. *)

From Stdlib Require Import ZArith Lia.
From stdpp Require Import base gmap strings numbers list.
From S2P Require Import Prelude Bytes Bio BioSpec BioCache.

Local Open Scope Z_scope.

Section Quiet.
Context {D : Type} {BD : BlockDevice D} {BDL : BlockDeviceLaws D} (dev : Z).

(** The blocks of a list are pinned once. *)
Definition pins (L : list Z) (n : Z) : Z := if decide (n ∈ L) then 1 else 0.

Lemma pins_range L n : 0 ≤ pins L n ≤ 1.
Proof. unfold pins. case_decide; lia. Qed.

Lemma pins_used L n : pins L n ≠ 0 → n ∈ L.
Proof. unfold pins. by case_decide. Qed.

(** No buffer is open; [c] is the content of the blocks and the blocks of [L]
    are pinned. *)
Definition quiet (s : bstate D) (c : Z → block) (L : list Z) : Prop :=
  ∃ pl, cache_rep dev s (mkCst c (pins L) (λ _, false) pl).

Lemma quiet_ext s c c' L L' :
  quiet s c L → (∀ n, c n = c' n) → (∀ n, n ∈ L ↔ n ∈ L') → quiet s c' L'.
Proof.
  intros [pl Hr] Hc HL. exists pl. eapply cache_rep_ext; [|exact Hr]. intros n. cbn.
  split_and!; [done| |done|done]. unfold pins. by rewrite (decide_ext _ _ _ _ (HL n)).
Qed.

Lemma quiet_len s c L n : quiet s c L → Z.of_nat (length (c n)) = BSIZE.
Proof. intros [pl Hr]. apply (cr_len _ _ _ Hr n). Qed.

Lemma quiet_clean s c L n : quiet s c L → n ∉ L → c n = dev_read (disk s) n.
Proof. intros [pl Hr] Hn. apply (cr_clean _ _ _ Hr n). cbn. unfold pins. by rewrite decide_False. Qed.

(** One buffer open. *)
Definition one_open (c : Z → block) (L : list Z) (n : Z) (pl : Z → option nat) : cst :=
  mkCst c (upd (pins L) n (pins L n + 1)) (upd (λ _, false) n true) pl.

Lemma open1 s c L n :
  quiet s c L → (length L < NBUF)%nat →
  ∃ b s' pl, bread dev n s = Done (b, s') ∧ disk s' = disk s ∧
    cache_rep dev s' (one_open c L n pl) ∧ handle dev (one_open c L n pl) b n.
Proof.
  intros [pl Hr] HL.
  destruct (bread_ok dev s _ n L Hr) as (b & s' & pl' & Hb & Hd & _ & Hr' & Hh); [done| |done| |].
  - intros m Hm. by apply pins_used.
  - cbn. pose proof (pins_range L n). lia.
  - by exists b, s', pl'.
Qed.

Lemma close1 s c L n pl b :
  cache_rep dev s (one_open c L n pl) → handle dev (one_open c L n pl) b n →
  (n ∉ L → c n = dev_read (disk s) n) →
  ∃ s', drop_buf b s = Done s' ∧ disk s' = disk s ∧ quiet s' c L.
Proof.
  intros Hr Hh Hc. destruct (drop_buf_ok dev s _ b n Hr Hh) as (s' & Hs & Hd & Hr').
  { cbn. rewrite upd_eq. intros H1. apply Hc. intros Hn. unfold pins in H1. rewrite decide_True in H1 by done. lia. }
  exists s'. split; [done|]. split; [done|]. exists pl. eapply cache_rep_ext; [|exact Hr'].
  intros m. cbn. unfold upd. split_and!; try done; case_decide as Hd'; try done. subst m.
  rewrite decide_True by done. lia.
Qed.

Lemma store1 s c L n pl b v :
  cache_rep dev s (one_open c L n pl) → handle dev (one_open c L n pl) b n → Z.of_nat (length v) = BSIZE →
  cache_rep dev (store_data b v s) (one_open (upd c n v) L n pl).
Proof. intros Hr Hh Hv. apply (store_data_ok dev s _ b n v Hr Hh Hv). Qed.

(** Two buffers open. *)
Definition two_open (c : Z → block) (L : list Z) (m n : Z) (pl : Z → option nat) : cst :=
  mkCst c (upd (upd (pins L) m (pins L m + 1)) n (pins L n + 1)) (upd (upd (λ _, false) m true) n true) pl.

Lemma open2 s c L m n pl b :
  cache_rep dev s (one_open c L m pl) → handle dev (one_open c L m pl) b m → m ≠ n → (S (length L) < NBUF)%nat →
  ∃ b' s' pl', bread dev n s = Done (b', s') ∧ disk s' = disk s ∧
    cache_rep dev s' (two_open c L m n pl') ∧ handle dev (two_open c L m n pl') b m ∧
    handle dev (two_open c L m n pl') b' n.
Proof.
  intros Hr Hh Hmn HL. pose proof (pins_range L n). pose proof (pins_range L m).
  destruct (bread_ok dev s _ n (m :: L) Hr) as (b' & s' & pl' & Hb & Hd & Hst & Hr' & Hh').
  - cbn. by rewrite upd_ne.
  - cbn. intros x Hx. apply elem_of_cons. unfold upd in Hx. case_decide; [by left|right; by apply pins_used].
  - done.
  - cbn. rewrite upd_ne by done. lia.
  - unfold take_handle, one_open in Hr', Hh'. cbn [cur refs held place] in Hr', Hh'.
    rewrite (upd_ne _ m _ n) in Hr', Hh' by done.
    exists b', s', pl'. split; [done|]. split; [done|]. split; [done|]. split; [|done].
    destruct Hh as (Hp & H1 & H2 & H3 & _). unfold handle, two_open. cbn [place held]. split_and!; try done.
    + apply (Hst m); [cbn; rewrite upd_eq; lia|done].
    + rewrite upd_ne by done. by rewrite upd_eq.
Qed.

(** Closing the first of the two. *)
Lemma close2 s c L m n pl b :
  cache_rep dev s (two_open c L m n pl) → handle dev (two_open c L m n pl) b m → m ≠ n →
  (m ∉ L → c m = dev_read (disk s) m) →
  ∃ s', drop_buf b s = Done s' ∧ disk s' = disk s ∧ cache_rep dev s' (one_open c L n pl).
Proof.
  intros Hr Hh Hmn Hc. destruct (drop_buf_ok dev s _ b m Hr Hh) as (s' & Hs & Hd & Hr').
  { cbn. rewrite upd_ne, upd_eq by done. intros H1. apply Hc. intros Hn. unfold pins in H1.
    rewrite decide_True in H1 by done. lia. }
  exists s'. split; [done|]. split; [done|]. eapply cache_rep_ext; [|exact Hr'].
  intros x. cbn. unfold upd. split_and!; try done; repeat case_decide; try done; subst; try done. lia.
Qed.

Lemma two_open_swap s c L m n pl :
  m ≠ n → cache_rep dev s (two_open c L m n pl) → cache_rep dev s (two_open c L n m pl).
Proof.
  intros Hmn. apply cache_rep_ext. intros x. cbn. unfold upd.
  split_and!; try done; repeat case_decide; try done; by subst.
Qed.

Lemma two_open_handle c L m n pl b x :
  m ≠ n → handle dev (two_open c L m n pl) b x → handle dev (two_open c L n m pl) b x.
Proof.
  intros Hmn (H1 & H2 & H3 & H4 & H5). unfold handle, two_open in *. cbn in *. split_and!; try done.
  unfold upd in *. repeat case_decide; done.
Qed.

(** Opening two buffers in a row. *)
Lemma open_pair s c L m n :
  quiet s c L → m ≠ n → (S (length L) < NBUF)%nat →
  ∃ b1 s1 b2 s2 pl, bread dev m s = Done (b1, s1) ∧ bread dev n s1 = Done (b2, s2) ∧ disk s2 = disk s ∧
    cache_rep dev s2 (two_open c L m n pl) ∧ handle dev (two_open c L m n pl) b1 m ∧
    handle dev (two_open c L m n pl) b2 n.
Proof.
  intros Hq Hmn HL. destruct (open1 s c L m Hq) as (b1 & s1 & pl1 & H1 & Hd1 & Hr1 & Hh1); [lia|].
  destruct (open2 s1 c L m n pl1 b1 Hr1 Hh1 Hmn HL) as (b2 & s2 & pl2 & H2 & Hd2 & Hr2 & Hh2 & Hh2').
  exists b1, s1, b2, s2, pl2. split_and!; try done. congruence.
Qed.

(** Changing one of two open buffers and writing it to disk. *)
Lemma write_one s c L m n pl b x v :
  cache_rep dev s (two_open c L m n pl) → handle dev (two_open c L m n pl) b x → Z.of_nat (length v) = BSIZE →
  ∃ s', bwrite b (store_data b v s) = Done s' ∧ disk s' = dev_write (disk s) x v ∧
    cache_rep dev s' (two_open (upd c x v) L m n pl).
Proof.
  intros Hr Hh Hv. pose proof (store_data_ok dev s _ b x v Hr Hh Hv) as Hr1.
  destruct (bwrite_ok dev _ _ b x Hr1 Hh) as [H1 H2]. cbn [cur two_open] in H1, H2. rewrite upd_eq in H1, H2.
  eexists. split; [exact H1|]. by split.
Qed.

(** Closing both, the first one first. *)
Lemma close_pair s c L m n pl b1 b2 :
  cache_rep dev s (two_open c L m n pl) → handle dev (two_open c L m n pl) b1 m →
  handle dev (two_open c L m n pl) b2 n → m ≠ n →
  (m ∉ L → c m = dev_read (disk s) m) → (n ∉ L → c n = dev_read (disk s) n) →
  ∃ s1 s2, drop_buf b1 s = Done s1 ∧ drop_buf b2 s1 = Done s2 ∧ disk s2 = disk s ∧ quiet s2 c L.
Proof.
  intros Hr H1 H2 Hmn Hcm Hcn. destruct (close2 s c L m n pl b1 Hr H1 Hmn Hcm) as (s1 & E1 & Hd1 & Hr1).
  destruct (close1 s1 c L n pl b2 Hr1) as (s2 & E2 & Hd2 & Hq2).
  - destruct H2 as (? & ? & ? & ? & _). unfold handle, one_open. cbn. rewrite upd_eq. done.
  - intros Hn. rewrite Hd1. by apply Hcn.
  - exists s1, s2. split_and!; try done. congruence.
Qed.
End Quiet.

(** The machine starts: an empty cache on the disk as it is. *)
Definition boot {D} (d : D) : bstate D := mkB (binit new_bcache) d.

Lemma boot_quiet {D} `{BlockDeviceLaws D} dev (d : D) : dev ≠ 0 → quiet dev (boot d) (dev_read d) [].
Proof.
  intros Hdev. exists (λ _, None). eapply cache_rep_ext; [|by apply binit_rep]. done.
Qed.

(** ** A disk to run on *)

(** A block of the size of the disk's blocks. *)
Definition fit (b : block) : block := resize (Z.to_nat BSIZE) 0 b.

Lemma fit_id (b : block) : Z.of_nat (length b) = BSIZE → fit b = b.
Proof. intros Hb. apply resize_all_alt. unfold BSIZE in *. lia. Qed.

(** The blocks as a function. *)
Record fdisk := mkFd { fd_blocks : Z → block }.

Global Instance fdisk_dev : BlockDevice fdisk := {|
  dev_read d n := fit (fd_blocks d n);
  dev_write d n b := mkFd (upd (fd_blocks d) n b);
|}.

Global Instance fdisk_laws : BlockDeviceLaws fdisk.
Proof.
  split.
  - intros d n. cbn. unfold fit. rewrite length_resize. done.
  - intros d n b n' Hb. cbn. unfold upd. case_decide; [by apply fit_id|done].
Qed.
