(* ===== verification/BioTheorems.v ===== *)
(** * The buffer cache implements a block store

    Clients that read and write blocks through the cache see a map from block
    numbers to blocks, whatever the cache evicts in between. *)

From Stdlib Require Import ZArith Lia.
From stdpp Require Import base gmap strings numbers list.
From S2P Require Import Prelude Bytes Bio BioSpec BioCache BioClient.

Local Open Scope Z_scope.

(** ** Specification *)

Inductive bop :=
| BRead (n : Z)
| BWrite (n : Z) (v : block).

(** The store: the blocks that are read, and the blocks at the end. *)
Fixpoint store_run (ops : list bop) (c : Z → block) : list block * (Z → block) :=
  match ops with
  | [] => ([], c)
  | BRead n :: ops => let '(rs, c') := store_run ops c in (c n :: rs, c')
  | BWrite n v :: ops => store_run ops (upd c n v)
  end.

Definition bop_ok (o : bop) : Prop :=
  match o with BRead _ => True | BWrite _ v => Z.of_nat (length v) = BSIZE end.

(** ** Implementation *)

Section Run.
Context {D : Type} {BD : BlockDevice D} {BDL : BlockDeviceLaws D} (dev : Z).

Definition cache_read (n : Z) (s : bstate D) : outcome (block * bstate D) :=
  '(buf, s) ← bread dev n s;
  raw ← raw_data buf s;
  s ← drop_buf buf s;
  Done (raw, s).

Definition cache_write (n : Z) (v : block) (s : bstate D) : outcome (bstate D) :=
  '(buf, s) ← bread dev n s;
  let s := store_data buf v s in
  s ← bwrite buf s;
  drop_buf buf s.

Fixpoint cache_run (ops : list bop) (s : bstate D) : outcome (list block * bstate D) :=
  match ops with
  | [] => Done ([], s)
  | BRead n :: ops =>
      '(raw, s) ← cache_read n s;
      '(rs, s) ← cache_run ops s;
      Done (raw :: rs, s)
  | BWrite n v :: ops =>
      s ← cache_write n v s;
      cache_run ops s
  end.

Lemma cache_read_ok n s c :
  quiet dev s c [] → ∃ s', cache_read n s = Done (c n, s') ∧ quiet dev s' c [].
Proof using BDL.
  intros Hq. unfold cache_read. destruct (open1 dev s c [] n Hq) as (b & s1 & pl & -> & Hd & Hr & Hh); [by apply Nat.ltb_lt|].
  cbn [mbind outcome_bind]. rewrite (raw_data_ok dev s1 _ b n Hr Hh). cbn [mbind outcome_bind cur one_open].
  destruct (close1 dev s1 c [] n pl b Hr Hh) as (s2 & -> & _ & Hq2); [|by exists s2].
  intros Hn. rewrite Hd. by apply (quiet_clean dev s c []).
Qed.

Lemma cache_write_ok n v s c :
  quiet dev s c [] → Z.of_nat (length v) = BSIZE → ∃ s', cache_write n v s = Done s' ∧ quiet dev s' (upd c n v) [].
Proof using BDL.
  intros Hq Hv. unfold cache_write. destruct (open1 dev s c [] n Hq) as (b & s1 & pl & -> & Hd & Hr & Hh); [by apply Nat.ltb_lt|].
  cbn [mbind outcome_bind]. pose proof (store1 dev s1 c [] n pl b v Hr Hh Hv) as Hr2.
  destruct (bwrite_ok dev _ _ b n Hr2 Hh) as [-> Hr3]. cbn [mbind outcome_bind cur one_open] in *. rewrite upd_eq in *.
  destruct (close1 dev _ (upd c n v) [] n pl b Hr3 Hh) as (s2 & -> & _ & Hq2); [|by exists s2].
  intros _. cbn [disk]. rewrite upd_eq, dev_read_write by done. by rewrite decide_True.
Qed.

Lemma cache_run_ok ops : ∀ s c,
  quiet dev s c [] → Forall bop_ok ops →
  ∃ s', cache_run ops s = Done ((store_run ops c).1, s') ∧ quiet dev s' (store_run ops c).2 [].
Proof using BDL.
  induction ops as [|[n|n v] ops IH]; intros s c Hq Hf; cbn [cache_run store_run]; [by exists s|..];
    apply Forall_cons in Hf as [Hv Hf].
  - destruct (cache_read_ok n s c Hq) as (s1 & -> & Hq1). cbn [mbind outcome_bind].
    destruct (IH s1 c Hq1 Hf) as (s2 & -> & Hq2). cbn [mbind outcome_bind].
    exists s2. by destruct (store_run ops c).
  - destruct (cache_write_ok n v s c Hq Hv) as (s1 & -> & Hq1). cbn [mbind outcome_bind]. by apply IH.
Qed.
End Run.

(** C14: from an empty cache, any sequence of block reads and writes runs
    without a panic, reads what a store of blocks would read, and leaves the
    disk with the store's blocks. *)
Theorem cache_refines_store {D} `{BlockDeviceLaws D} dev (d : D) ops :
  dev ≠ 0 → Forall bop_ok ops →
  let '(rs, c) := store_run ops (dev_read d) in
  ∃ s', cache_run dev ops (boot d) = Done (rs, s') ∧ (∀ n, dev_read (disk s') n = c n).
Proof.
  intros Hdev Hf. destruct (cache_run_ok dev ops (boot d) (dev_read d)) as (s' & -> & Hq); [by apply boot_quiet|done|].
  destruct (store_run ops (dev_read d)) as [rs c]. exists s'. split; [done|]. intros n. symmetry.
  by apply (quiet_clean dev s' c []), not_elem_of_nil.
Qed.

(** Forty blocks, more than the cache has buffers. *)
Definition demo_bops : list bop :=
  ((λ n, BWrite n (replicate (Z.to_nat BSIZE) n)) <$> seqZ 0 40) ++ (BRead <$> seqZ 0 40).

Lemma cache_refines_store_witness :
  ∃ s', cache_run 1 demo_bops (boot (mkFd (λ _, []))) = Done ((λ n, replicate (Z.to_nat BSIZE) n) <$> seqZ 0 40, s').
Proof.
  destruct (cache_refines_store 1 (mkFd (λ _, [])) demo_bops) as (s' & E & _); [done| |].
  - apply Forall_app. split; apply Forall_fmap, Forall_true; intros n; by vm_compute.
  - exists s'. etrans; [exact E|]. clear. by vm_compute.
Defined.
