(* ===== verification/DiskLayout.v ===== *)
(** * The structures on disk

    The super block, inodes and directory entries, as values and as bytes. *)

From Stdlib Require Import ZArith Lia.
From stdpp Require Import base gmap strings numbers list.
From S2P Require Import Prelude Bytes Bio.

Local Open Scope Z_scope.

(** * The super block

    Models [fs/superblock.rs] and the constants of [arch/riscv/qemu/fs.rs]. *)

Definition FSMAGIC : Z := 0x10203040.
Definition NOFILE : Z := 16.
Definition NFILE : Z := 100.
Definition NINODE : Z := 50.
Definition ROOTDEV : Z := 1.
Definition FSSIZE : Z := 1000.
Definition ROOTINUM : Z := 1.
Definition NDIRECT : Z := 12.
Definition NINDIRECT : Z := BSIZE / 8.
Definition MAXFILE : Z := NDIRECT + NINDIRECT.
Definition DIRSIZ : Z := 14.
(** [size_of::<DiskInode>()]: four 16-bit fields, the size and 13 addresses. *)
Definition DISK_INODE_SIZE : Z := 64.
Definition IPB : Z := BSIZE / DISK_INODE_SIZE.
Definition BPB : Z := BSIZE * 8.

Definition major (dev : Z) : Z := Z.land (Z.shiftr dev 16) 0xFFFF.
Definition minor (dev : Z) : Z := Z.land dev 0xFFFF.
Definition mkdev (m n : Z) : Z := Z.lor (Z.shiftl m 16 mod 2 ^ 64) n.

Record RawSuperBlock := mkSb {
  sb_magic : Z;
  sb_size : Z;
  sb_nblocks : Z;
  sb_ninodes : Z;
  sb_nlog : Z;
  sb_logstart : Z;
  sb_inodestart : Z;
  sb_bmapstart : Z;
}.

(** The structure at the start of a block. *)
Definition decode_sb (b : block) : RawSuperBlock :=
  mkSb (get_u32 b 0) (get_u32 b 4) (get_u32 b 8) (get_u32 b 12)
       (get_u32 b 16) (get_u32 b 20) (get_u32 b 24) (get_u32 b 28).

(** [SuperBlock]: the data is uninitialised until [init] has run. *)
Definition SuperBlock : Type := option RawSuperBlock.

Definition sb_uninit : SuperBlock := None.

Section Super.
Context {D : Type} {BD : BlockDevice D}.

Definition sb_init (self : SuperBlock) (dev : Z) (s : bstate D) : outcome (SuperBlock * bstate D) :=
  match self with
  | Some sb => Done (Some sb, s)
  | None =>
      '(buf, s) ← bread dev 1 s;
      raw ← raw_data buf s;
      let sb := decode_sb raw in
      if negb (sb_magic sb =? FSMAGIC) then Panic "invalid file system magic num"
      else
        s ← drop_buf buf s;
        Done (Some sb, s)
  end.
End Super.

(** [read]: the debug assertion fails before [init]. *)
Definition sb_read (self : SuperBlock) : outcome RawSuperBlock :=
  unwrap "assertion failed: self.initialized.load(Ordering::Relaxed)" self.

Definition read_log (self : SuperBlock) : outcome (Z * Z) :=
  sb ← sb_read self; Done (sb_logstart sb, sb_nlog sb).
Definition size (self : SuperBlock) : outcome Z := sb ← sb_read self; Done (sb_size sb).
Definition inodestart (self : SuperBlock) : outcome Z := sb ← sb_read self; Done (sb_inodestart sb).
Definition bmapstart (self : SuperBlock) : outcome Z := sb ← sb_read self; Done (sb_bmapstart sb).
Definition ninodes (self : SuperBlock) : outcome Z := sb ← sb_read self; Done (sb_ninodes sb).

Definition locate_inode (self : SuperBlock) (inum : Z) : outcome Z :=
  sb ← sb_read self;
  if sb_ninodes sb <=? inum then Panic "query inum larger than maximum inode nums"
  else u32add (inum / IPB) (sb_inodestart sb).

Definition bitmap_blockno (self : SuperBlock) (blockno : Z) : outcome Z :=
  sb ← sb_read self;
  u32add (blockno / BPB) (sb_bmapstart sb).

(** * Inodes and directory entries on disk

    Models [fs/dinode.rs] and [fs/stat.rs]: the structures, their layout in a
    block ([repr(C)]) and [try_alloc]. *)

Inductive InodeType := Empty | Directory | File | Device.

Global Instance InodeType_eq_dec : EqDecision InodeType.
Proof. solve_decision. Defined.

Record DiskInode := mkDinode {
  itype : InodeType;
  di_major : Z;
  di_minor : Z;
  nlink : Z;
  di_size : Z;
  addrs : list Z;
}.

Record DirEntry := mkDe {
  de_inum : Z;
  de_name : list Z;
}.

Definition new_dinode : DiskInode := mkDinode Empty 0 0 0 0 (replicate (Z.to_nat (NDIRECT + 1)) 0).
Definition new_direntry : DirEntry := mkDe 0 (replicate (Z.to_nat DIRSIZ) 0).

(** [Ok] with the inode zeroed and given its type, [Err] when it is in use. *)
Definition try_alloc (self : DiskInode) (t : InodeType) : option DiskInode :=
  if decide (itype self = Empty) then
    Some (mkDinode t 0 0 0 0 (replicate (Z.to_nat (NDIRECT + 1)) 0))
  else None.

Record Stat := mkStat {
  st_dev : Z;
  st_inum : Z;
  st_itype : InodeType;
  st_nlink : Z;
  st_size : Z;
}.

Definition new_stat : Stat := mkStat 0 0 Empty 0 0.

(** ** Layout *)

Definition itype_code (t : InodeType) : Z :=
  match t with Empty => 0 | Directory => 1 | File => 2 | Device => 3 end.

(** A discriminant that names no variant is no value of the type. *)
Definition itype_of (c : Z) : outcome InodeType :=
  if c =? 0 then Done Empty
  else if c =? 1 then Done Directory
  else if c =? 2 then Done File
  else if c =? 3 then Done Device
  else UB "invalid discriminant".

(** [i16] as 16 bits. *)
Definition i16_of (c : Z) : Z := if c <? 2 ^ 15 then c else c - 2 ^ 16.
Definition i16_code (v : Z) : Z := v mod 2 ^ 16.
Definition i16add (a b : Z) : outcome Z :=
  if (- 2 ^ 15 <=? a + b) && (a + b <? 2 ^ 15) then Done (a + b) else Panic "arithmetic overflow".
Definition i16sub (a b : Z) : outcome Z := i16add a (- b).

Definition encode_dinode (d : DiskInode) : list Z :=
  le_encode 2 (itype_code (itype d)) ++ le_encode 2 (i16_code (di_major d)) ++
  le_encode 2 (i16_code (di_minor d)) ++ le_encode 2 (i16_code (nlink d)) ++
  le_encode 4 (di_size d) ++ encode_u32s (addrs d).

Definition decode_dinode (b : list Z) : outcome DiskInode :=
  t ← itype_of (get_u16 b 0);
  Done (mkDinode t (i16_of (get_u16 b 2)) (i16_of (get_u16 b 4)) (i16_of (get_u16 b 6))
          (get_u32 b 8) (get_u32s b 12 (NDIRECT + 1))).

(** [size_of::<DirEntry>()]. *)
Definition DIRENTRY_SIZE : Z := 16.

Definition encode_direntry (e : DirEntry) : list Z := le_encode 2 (de_inum e) ++ de_name e.
Definition decode_direntry (b : list Z) : DirEntry := mkDe (get_u16 b 0) (get_bytes b 2 DIRSIZ).

(** ** Round trips *)

Record dinode_ok (d : DiskInode) : Prop := {
  do_major : - 2 ^ 15 ≤ di_major d < 2 ^ 15;
  do_minor : - 2 ^ 15 ≤ di_minor d < 2 ^ 15;
  do_nlink : - 2 ^ 15 ≤ nlink d < 2 ^ 15;
  do_size : 0 ≤ di_size d < 2 ^ 32;
  do_len : Z.of_nat (length (addrs d)) = NDIRECT + 1;
  do_addrs : Forall (λ a, 0 ≤ a < 2 ^ 32) (addrs d);
}.

Lemma i16_roundtrip v : - 2 ^ 15 ≤ v < 2 ^ 15 → i16_of (i16_code v) = v.
Proof. intros Hv. unfold i16_of, i16_code. destruct (Z.ltb_spec (v mod 2 ^ 16) (2 ^ 15)); divlia. Qed.

Lemma i16_code_range v : 0 ≤ i16_code v < 2 ^ 16.
Proof. unfold i16_code. divlia. Qed.

Lemma itype_roundtrip t : itype_of (itype_code t) = Done t.
Proof. by destruct t. Qed.

Lemma itype_code_range t : 0 ≤ itype_code t < 2 ^ 16.
Proof. destruct t; simpl; lia. Qed.

Lemma length_encode_dinode d : dinode_ok d → Z.of_nat (length (encode_dinode d)) = DISK_INODE_SIZE.
Proof.
  intros [_ _ _ _ Hl _]. unfold encode_dinode. rewrite !length_app, !length_le_encode, length_encode_u32s.
  unfold DISK_INODE_SIZE, NDIRECT in *. lia.
Qed.

Lemma get_bytes_here (x y : list Z) n : Z.of_nat (length x) = n → get_bytes (x ++ y) 0 n = x.
Proof. intros <-. unfold get_bytes. rewrite Nat2Z.id. by rewrite drop_0, take_app_length. Qed.

Lemma get_bytes_next (x y : list Z) off n :
  Z.of_nat (length x) ≤ off → get_bytes (x ++ y) off n = get_bytes y (off - Z.of_nat (length x)) n.
Proof. apply get_bytes_app_r. Qed.

(** Skip the fields before the one that is read. *)
Ltac next_field :=
  repeat (rewrite get_bytes_next by (rewrite length_le_encode; lia); rewrite length_le_encode;
          match goal with |- context [get_bytes _ ?o _] => let o' := eval compute in o in progress change o with o' end).

Lemma get_u16_field v y : 0 ≤ v < 2 ^ 16 → le_decode (get_bytes (le_encode 2 v ++ y) 0 2) = v.
Proof. intros Hv. rewrite get_bytes_here by (by rewrite length_le_encode). by apply le_decode_encode. Qed.

Lemma get_u32_field v y : 0 ≤ v < 2 ^ 32 → le_decode (get_bytes (le_encode 4 v ++ y) 0 4) = v.
Proof. intros Hv. rewrite get_bytes_here by (by rewrite length_le_encode). by apply le_decode_encode. Qed.

Lemma get_u32s_array vs : Forall (λ v, 0 ≤ v < 2 ^ 32) vs → get_u32s (encode_u32s vs) 0 (Z.of_nat (length vs)) = vs.
Proof.
  intros Hv. pose proof (get_u32s_encode (encode_u32s vs) 0 vs) as H.
  assert (put_bytes (encode_u32s vs) 0 (encode_u32s vs) = encode_u32s vs) as E.
  { unfold put_bytes. cbn. rewrite drop_ge by lia. apply app_nil_r. }
  rewrite E in H. apply H; [lia| |done]. rewrite length_encode_u32s. lia.
Qed.

Lemma dinode_decode_encode d : dinode_ok d → decode_dinode (encode_dinode d) = Done d.
Proof.
  intros [Hma Hmi Hn Hs Hl Ha]. unfold decode_dinode, encode_dinode, get_u16, get_u32.
  pose proof (itype_code_range (itype d)). pose proof (i16_code_range (di_major d)).
  pose proof (i16_code_range (di_minor d)). pose proof (i16_code_range (nlink d)).
  rewrite get_u16_field, itype_roundtrip by done. cbn [mbind outcome_bind]. f_equal.
  destruct d as [t ma mi nl sz ad]. cbn [itype di_major di_minor nlink di_size addrs] in *. f_equal.
  - next_field. rewrite get_u16_field by done. by apply i16_roundtrip.
  - next_field. rewrite get_u16_field by done. by apply i16_roundtrip.
  - next_field. rewrite get_u16_field by done. by apply i16_roundtrip.
  - next_field. by rewrite get_u32_field.
  - etrans; [|apply (get_u32s_array ad Ha)]. rewrite Hl. apply list_fmap_ext. intros i k Hk. apply lookup_seqZ in Hk as [-> _].
    unfold get_u32. do 5 (rewrite get_bytes_next by (rewrite length_le_encode; lia); rewrite length_le_encode).
    f_equal. f_equal. lia.
Qed.
