(* ===== verification/Log.v ===== *)
(** * The log

    Models [fs/log.rs].  The log's spinlock makes each operation on the header
    atomic; while a commit runs, the [committing] flag keeps others out.
    Sleeping on the log is the result [None] of [begin_op]; waking the
    processes that sleep on it is the interface [WakeUp]. *)

From Stdlib Require Import ZArith Lia.
From stdpp Require Import base gmap strings numbers list.
From S2P Require Import Prelude Bytes Bio DiskLayout.

Local Open Scope Z_scope.

Record LogHeader := mkLh {
  lh_len : Z;
  lh_blocknos : list Z;
}.

Record Log := mkLog {
  log_start : Z;
  log_size : Z;
  log_dev : Z;
  outstanding : Z;
  committing : bool;
  lh : LogHeader;
}.

Definition log_uninit : Log :=
  mkLog 0 0 0 0 false (mkLh 0 (replicate (Z.to_nat (LOGSIZE - 1)) 0)).

Definition with_lh (l : Log) (h : LogHeader) : Log :=
  mkLog (log_start l) (log_size l) (log_dev l) (outstanding l) (committing l) h.

(** The header as it lies in a block: [len], then the block numbers. *)
Definition encode_lh (h : LogHeader) : list Z := le_encode 4 (lh_len h) ++ encode_u32s (lh_blocknos h).
Definition decode_lh (b : block) : LogHeader := mkLh (get_u32 b 0) (get_u32s b 4 (LOGSIZE - 1)).

(** [self.lh.blocknos[i]]. *)
Definition blockno_at (h : LogHeader) (i : Z) : outcome Z :=
  unwrap "index out of bounds" (lh_blocknos h !! Z.to_nat i).

(** Waking the processes that sleep on a channel. *)
Class WakeUp (P : Type) := wake_up : Z → P → P.

Section Ops.
Context {D : Type} {BD : BlockDevice D}.

Definition read_head (self : Log) (s : bstate D) : outcome (Log * bstate D) :=
  '(buf, s) ← bread (log_dev self) (log_start self) s;
  raw ← raw_data buf s;
  let self := with_lh self (decode_lh raw) in
  s ← drop_buf buf s;
  Done (self, s).

Definition write_head (self : Log) (s : bstate D) : outcome (bstate D) :=
  '(buf, s) ← bread (log_dev self) (log_start self) s;
  raw ← raw_data buf s;
  let s := store_data buf (put_bytes raw 0 (encode_lh (lh self))) s in
  s ← bwrite buf s;
  drop_buf buf s.

Definition empty_head (self : Log) (s : bstate D) : outcome (Log * bstate D) :=
  let self := with_lh self (mkLh 0 (lh_blocknos (lh self))) in
  '(buf, s) ← bread (log_dev self) (log_start self) s;
  raw ← raw_data buf s;
  let s := store_data buf (put_u32 raw 0 0) s in
  s ← bwrite buf s;
  s ← drop_buf buf s;
  Done (self, s).

(** The block of the log that holds entry [i]. *)
Definition log_block (self : Log) (i : Z) : outcome Z :=
  a ← u32add (log_start self) 1;
  u32add a i.

(** One block of [install_trans]. *)
Definition install_block (self : Log) (recovering : bool) (i : Z) (s : bstate D) : outcome (bstate D) :=
  lb ← log_block self i;
  '(log_buf, s) ← bread (log_dev self) lb s;
  n ← blockno_at (lh self) i;
  '(disk_buf, s) ← bread (log_dev self) n s;
  raw ← raw_data log_buf s;
  let s := store_data disk_buf raw s in
  s ← bwrite disk_buf s;
  s ← (if negb recovering then unpin disk_buf s else Done s);
  s ← drop_buf log_buf s;
  drop_buf disk_buf s.

Definition install_trans (self : Log) (recovering : bool) (s : bstate D) : outcome (bstate D) :=
  for_range 0 (lh_len (lh self)) (install_block self recovering) s.

(** One block of [write_log]. *)
Definition write_log_block (self : Log) (i : Z) (s : bstate D) : outcome (bstate D) :=
  lb ← log_block self i;
  '(log_buf, s) ← bread (log_dev self) lb s;
  n ← blockno_at (lh self) i;
  '(cache_buf, s) ← bread (log_dev self) n s;
  raw ← raw_data cache_buf s;
  let s := store_data log_buf raw s in
  s ← bwrite log_buf s;
  s ← drop_buf cache_buf s;
  drop_buf log_buf s.

Definition write_log (self : Log) (s : bstate D) : outcome (bstate D) :=
  for_range 0 (lh_len (lh self)) (write_log_block self) s.

Definition commit (self : Log) (s : bstate D) : outcome (Log * bstate D) :=
  if negb (committing self) then Panic "log: committing while the committing flag is not set"
  else if 0 <? lh_len (lh self) then
    s ← write_log self s;
    s ← write_head self s;
    s ← install_trans self false s;
    empty_head self s
  else Done (self, s).

Definition recover (self : Log) (s : bstate D) : outcome (Log * bstate D) :=
  '(self, s) ← read_head self s;
  if 0 <? lh_len (lh self) then
    s ← install_trans self true s;
    empty_head self s
  else Done (self, s).

(** [init]: the debug assertions compare sizes and alignments that are fixed. *)
Definition log_init (self : Log) (sb : SuperBlock) (dev : Z) (s : bstate D) : outcome (Log * bstate D) :=
  '(start, size) ← read_log sb;
  recover (mkLog start size dev (outstanding self) (committing self) (lh self)) s.

(** [fs::init]. *)
Definition fs_init (sb : SuperBlock) (self : Log) (dev : Z) (s : bstate D) :
    outcome (SuperBlock * Log * bstate D) :=
  '(sb, s) ← sb_init sb dev s;
  '(self, s) ← log_init self sb dev s;
  Done (sb, self, s).

(** One round of the loop of [begin_op]: [None] when the process goes to sleep
    on the log and tries again after it is woken. *)
Definition begin_op (self : Log) : outcome (option Log) :=
  if committing self then Done None
  else
    o ← u32add (outstanding self) 1;
    m ← umul o MAXOPBLOCKS;
    n ← uadd 1 (lh_len (lh self));
    n ← uadd n m;
    if LOGSIZE <? n then Done None
    else
      o ← u32add (outstanding self) 1;
      Done (Some (mkLog (log_start self) (log_size self) (log_dev self) o (committing self) (lh self))).

(** The search for the block in the header: [inl] when it is there. *)
Definition find_logged (h : LogHeader) (n : Z) : outcome (unit + unit) :=
  for_range_until 0 (lh_len h) (λ i _,
    m ← blockno_at h i;
    if m =? n then Done (inl tt) else Done (inr tt)) tt.

(** [write]. *)
Definition log_write (self : Log) (buf : Buf) (s : bstate D) : outcome (Log * bstate D) :=
  n1 ← u32add (lh_len (lh self)) 1;
  if (LOGSIZE <=? n1) || (log_size self <=? n1) then Panic "log: not enough space for ongoing transactions"
  else if outstanding self <? 1 then Panic "log: this log write is out of recording"
  else
    r ← find_logged (lh self) (read_blockno buf);
    match r with
    | inl _ =>
        s ← drop_buf buf s;
        Done (self, s)
    | inr _ =>
        n2 ← u32add (lh_len (lh self)) 2;
        if (LOGSIZE <=? n2) || (log_size self <=? n2) then Panic "log: not enough space for this transaction"
        else
          s ← pin buf s;
          let len := Z.to_nat (lh_len (lh self)) in
          _ ← unwrap "index out of bounds" (lh_blocknos (lh self) !! len);
          n1 ← u32add (lh_len (lh self)) 1;
          let self := with_lh self (mkLh n1 (<[len := read_blockno buf]> (lh_blocknos (lh self)))) in
          s ← drop_buf buf s;
          Done (self, s)
    end.

Section EndOp.
Context {P : Type} {WU : WakeUp P} (log_chan : Z).

Definition end_op (self : Log) (s : bstate D) (procs : P) : outcome (Log * bstate D * P) :=
  o ← u32sub (outstanding self) 1;
  let self := mkLog (log_start self) (log_size self) (log_dev self) o (committing self) (lh self) in
  if committing self then Panic "log: end fs op while the log is committing"
  else if o =? 0 then
    let self := mkLog (log_start self) (log_size self) (log_dev self) o true (lh self) in
    '(self, s) ← commit self s;
    let self := mkLog (log_start self) (log_size self) (log_dev self) (outstanding self) false (lh self) in
    Done (self, s, wake_up log_chan procs)
  else Done (self, s, wake_up log_chan procs).
End EndOp.
End Ops.
