(* ===== verification/LogSpec.v ===== *)
(** * The log: steps and transactions

    What each step of commit and recovery does, and what the calls that make up
    a transaction do. *)

From Stdlib Require Import ZArith Lia.
From stdpp Require Import base gmap strings numbers list.
From S2P Require Import Prelude Bytes Bio BioSpec BioCache BioClient DiskLayout Log.

Local Open Scope Z_scope.

(** * Correctness of the log

    The log against the block store of [BioCache.v]: what each step of commit
    and recovery does to the blocks and to the disk. *)

(** ** The header in a block *)

(** The header has room for [LOGSIZE - 1] block numbers. *)
Definition lh_ok (h : LogHeader) : Prop :=
  0 ≤ lh_len h < 2 ^ 32 ∧ Z.of_nat (length (lh_blocknos h)) = LOGSIZE - 1 ∧
  Forall (λ n, 0 ≤ n < 2 ^ 32) (lh_blocknos h).

Lemma length_encode_lh h : lh_ok h → Z.of_nat (length (encode_lh h)) = 4 * LOGSIZE.
Proof.
  intros (_ & Hl & _). unfold encode_lh. rewrite length_app, length_le_encode, length_encode_u32s.
  unfold LOGSIZE, MAXOPBLOCKS in *. lia.
Qed.

Lemma encode_lh_split b h :
  lh_ok h → Z.of_nat (length b) = BSIZE →
  get_bytes (put_bytes b 0 (encode_lh h)) 0 4 = le_encode 4 (lh_len h) ∧
  get_u32s (put_bytes b 0 (encode_lh h)) 4 (LOGSIZE - 1) = lh_blocknos h.
Proof.
  intros Hok Hb. pose proof (length_encode_lh h Hok) as Hl. destruct Hok as (Hlen & Hn & Hf).
  unfold LOGSIZE, MAXOPBLOCKS, BSIZE in *. split.
  - replace 0 with (0 + 0) at 2 by done. rewrite get_put_bytes_sub by lia. unfold encode_lh.
    rewrite get_bytes_app_l by (rewrite ?length_le_encode; lia). by unfold get_bytes.
  - rewrite <- Hn. apply list_eq. intros i. unfold get_u32s. rewrite list_lookup_fmap.
    destruct (decide (i < length (lh_blocknos h))%nat) as [Hi|Hi].
    + rewrite lookup_seqZ_lt by lia. simpl. destruct (lookup_lt_is_Some_2 _ i Hi) as [v Hvi]. rewrite Hvi. f_equal.
      unfold get_u32. replace (4 + 4 * (0 + Z.of_nat i)) with (0 + (4 + 4 * Z.of_nat i)) by lia.
      rewrite get_put_bytes_sub by lia. unfold encode_lh.
      rewrite get_bytes_app_r by (rewrite length_le_encode; lia). rewrite length_le_encode.
      replace (4 + 4 * Z.of_nat i - Z.of_nat 4) with (4 * Z.of_nat i) by lia.
      rewrite (get_encode_u32s _ i v Hvi). apply le_decode_encode. by apply (Forall_lookup_1 _ _ _ _ Hf Hvi).
    + rewrite lookup_seqZ_ge by lia. simpl. symmetry. apply lookup_ge_None_2. lia.
Qed.

(** Reading back a header that has been written. *)
Lemma decode_encode_lh b h :
  lh_ok h → Z.of_nat (length b) = BSIZE → decode_lh (put_bytes b 0 (encode_lh h)) = h.
Proof.
  intros Hok Hb. destruct (encode_lh_split b h Hok Hb) as [H1 H2]. unfold decode_lh, get_u32. rewrite H1, H2.
  rewrite le_decode_encode by apply Hok. by destruct h.
Qed.

(** Clearing the length keeps the block numbers. *)
Lemma decode_emptied b :
  Z.of_nat (length b) = BSIZE → decode_lh (put_u32 b 0 0) = mkLh 0 (lh_blocknos (decode_lh b)).
Proof.
  intros Hb. unfold BSIZE in *. unfold decode_lh. cbn [lh_blocknos]. rewrite get_put_u32 by lia. f_equal.
  apply list_fmap_ext. intros i k Hk. apply lookup_seqZ in Hk. apply get_put_u32_ne; lia.
Qed.

Section Steps.
Context {D : Type} {BD : BlockDevice D} {BDL : BlockDeviceLaws D} (dev : Z).

(** ** The steps of commit and recovery *)

Context (l : Log) (Hdev : log_dev l = dev).
Context (Hstart : 0 ≤ log_start l) (Hend : log_start l + LOGSIZE ≤ 2 ^ 32).

(** The block is part of the log. *)
Definition is_log (n : Z) : Prop := log_start l ≤ n < log_start l + LOGSIZE.

Lemma log_block_ok i : 0 ≤ i < LOGSIZE - 1 → log_block l i = Done (log_start l + 1 + i).
Proof using Hend Hstart.
  intros Hi. unfold log_block, LOGSIZE, MAXOPBLOCKS in *. rewrite u32add_ok by lia. simpl. apply u32add_ok. lia.
Qed.

Lemma write_log_block_ok s c L i n :
  quiet dev s c L → (S (length L) < NBUF)%nat → 0 ≤ i < LOGSIZE - 1 → lh_blocknos (lh l) !! Z.to_nat i = Some n →
  n ∈ L → let lb := log_start l + 1 + i in lb ∉ L →
  ∃ s', write_log_block l i s = Done s' ∧ disk s' = dev_write (disk s) lb (c n) ∧ quiet dev s' (upd c lb (c n)) L.
Proof using BDL Hdev Hend Hstart.
  intros Hq HL Hi Hbn Hn lb Hlb. assert (lb ≠ n) as Hne by congruence.
  unfold write_log_block. rewrite log_block_ok by done. cbn [mbind outcome_bind]. rewrite Hdev. fold lb.
  destruct (open_pair dev s c L lb n Hq Hne HL) as (b1 & s1 & b2 & s2 & pl & -> & E2 & Hd & Hr & Hh1 & Hh2).
  cbn [mbind outcome_bind]. unfold blockno_at. rewrite Hbn. cbn [unwrap mbind outcome_bind]. rewrite E2.
  cbn [mbind outcome_bind]. rewrite (raw_data_ok dev s2 _ b2 n Hr Hh2). cbn [mbind outcome_bind cur two_open].
  pose proof (quiet_len dev s c L n Hq) as Hlen.
  destruct (write_one dev s2 c L lb n pl b1 lb (c n) Hr Hh1 Hlen) as (s3 & -> & Hd3 & Hr3). cbn [mbind outcome_bind].
  destruct (close_pair dev s3 (upd c lb (c n)) L n lb pl b2 b1) as (s4 & s5 & -> & E5 & Hd5 & Hq5).
  - by apply two_open_swap.
  - by apply two_open_handle.
  - by apply two_open_handle.
  - done.
  - done.
  - intros _. rewrite upd_eq, Hd3, dev_read_write by done. by rewrite decide_True.
  - cbn [mbind outcome_bind]. exists s5. split_and!; [done|congruence|done].
Qed.

(** Installing one block after a commit: the home block gets the content of
    the log block and loses its pin. *)
Lemma install_block_commit s c L i n :
  quiet dev s c (n :: L) → n ∉ L → (S (S (length L)) < NBUF)%nat → 0 ≤ i < LOGSIZE - 1 →
  lh_blocknos (lh l) !! Z.to_nat i = Some n → let lb := log_start l + 1 + i in lb ∉ n :: L →
  ∃ s', install_block l false i s = Done s' ∧ disk s' = dev_write (disk s) n (c lb) ∧ quiet dev s' (upd c n (c lb)) L.
Proof using BDL Hdev Hend Hstart.
  intros Hq HnL HL Hi Hbn lb Hlb. apply not_elem_of_cons in Hlb as Hlb'. destruct Hlb' as [Hne HlbL].
  unfold install_block. rewrite log_block_ok by done. cbn [mbind outcome_bind]. rewrite Hdev. fold lb.
  destruct (open_pair dev s c (n :: L) lb n Hq Hne HL) as (b1 & s1 & b2 & s2 & pl & -> & E2 & Hd & Hr & Hh1 & Hh2).
  cbn [mbind outcome_bind]. unfold blockno_at. rewrite Hbn. cbn [unwrap mbind outcome_bind]. rewrite E2.
  cbn [mbind outcome_bind]. rewrite (raw_data_ok dev s2 _ b1 lb Hr Hh1). cbn [mbind outcome_bind cur two_open].
  pose proof (quiet_len dev s c _ lb Hq) as Hlen.
  destruct (write_one dev s2 c (n :: L) lb n pl b2 n (c lb) Hr Hh2 Hlen) as (s3 & -> & Hd3 & Hr3). cbn [mbind outcome_bind negb].
  assert (pins (n :: L) n = 1) as Hpn by (unfold pins; rewrite decide_True; [done|by left]).
  destruct (unpin_ok dev _ _ b2 n Hr3 Hh2) as (s4 & -> & Hd4 & Hr4); [cbn; rewrite upd_eq; lia|]. cbn [mbind outcome_bind].
  assert (cache_rep dev s4 (two_open (upd c n (c lb)) L lb n pl)) as Hr4'.
  { eapply cache_rep_ext; [|exact Hr4]. intros x. cbn. split_and!; try done. unfold upd, pins.
    repeat case_decide; try done; subst; try done; set_solver. }
  destruct (close_pair dev s4 (upd c n (c lb)) L lb n pl b1 b2 Hr4' Hh1 Hh2 Hne) as (s5 & s6 & -> & E6 & Hd6 & Hq6).
  - intros _. rewrite upd_ne, Hd4, Hd3, dev_read_write by done. rewrite decide_False, Hd by done. by apply (quiet_clean dev s c (n :: L)).
  - intros _. rewrite upd_eq, Hd4, Hd3, dev_read_write by done. by rewrite decide_True.
  - cbn [mbind outcome_bind]. exists s6. split_and!; [done|congruence|done].
Qed.

(** Installing one block during recovery, when nothing is pinned. *)
Lemma install_block_recover s c i n :
  quiet dev s c [] → 0 ≤ i < LOGSIZE - 1 →
  lh_blocknos (lh l) !! Z.to_nat i = Some n → let lb := log_start l + 1 + i in lb ≠ n →
  ∃ s', install_block l true i s = Done s' ∧ disk s' = dev_write (disk s) n (c lb) ∧ quiet dev s' (upd c n (c lb)) [].
Proof using BDL Hdev Hend Hstart.
  intros Hq Hi Hbn lb Hne.
  unfold install_block. rewrite log_block_ok by done. cbn [mbind outcome_bind]. rewrite Hdev. fold lb.
  destruct (open_pair dev s c [] lb n Hq Hne) as (b1 & s1 & b2 & s2 & pl & -> & E2 & Hd & Hr & Hh1 & Hh2);
    [change NBUF with 30%nat; simpl; lia|].
  cbn [mbind outcome_bind]. unfold blockno_at. rewrite Hbn. cbn [unwrap mbind outcome_bind]. rewrite E2.
  cbn [mbind outcome_bind]. rewrite (raw_data_ok dev s2 _ b1 lb Hr Hh1). cbn [mbind outcome_bind cur two_open].
  pose proof (quiet_len dev s c _ lb Hq) as Hlen.
  destruct (write_one dev s2 c [] lb n pl b2 n (c lb) Hr Hh2 Hlen) as (s3 & -> & Hd3 & Hr3). cbn [mbind outcome_bind negb].
  destruct (close_pair dev s3 (upd c n (c lb)) [] lb n pl b1 b2 Hr3 Hh1 Hh2 Hne) as (s5 & s6 & -> & E6 & Hd6 & Hq6).
  - intros Hx. rewrite upd_ne, Hd3, dev_read_write by done. rewrite decide_False, Hd by done. by apply (quiet_clean dev s c []).
  - intros _. rewrite upd_eq, Hd3, dev_read_write by done. by rewrite decide_True.
  - cbn [mbind outcome_bind]. exists s6. split_and!; [done|congruence|done].
Qed.

(** Changing the header block on disk. *)
Lemma head_update s c L f :
  quiet dev s c L → (length L < NBUF)%nat → log_start l ∉ L →
  (∀ b : block, Z.of_nat (length b) = BSIZE → Z.of_nat (length (f b)) = BSIZE) →
  let v := f (c (log_start l)) in
  ∃ s', ('(buf, s) ← bread (log_dev l) (log_start l) s;
         raw ← raw_data buf s;
         let s := store_data buf (f raw) s in
         s ← bwrite buf s;
         drop_buf buf s) = Done s' ∧
    disk s' = dev_write (disk s) (log_start l) v ∧ quiet dev s' (upd c (log_start l) v) L.
Proof using BDL Hdev.
  intros Hq HL Hn Hf v. rewrite Hdev. pose proof (Hf _ (quiet_len dev s c L (log_start l) Hq)) as Hv. fold v in Hv.
  destruct (open1 dev s c L (log_start l) Hq HL) as (b & s1 & pl & -> & Hd1 & Hr1 & Hh). cbn [mbind outcome_bind].
  rewrite (raw_data_ok dev s1 _ b _ Hr1 Hh). cbn [mbind outcome_bind cur one_open]. fold v.
  pose proof (store1 dev s1 c L (log_start l) pl b v Hr1 Hh Hv) as Hr2.
  destruct (bwrite_ok dev _ _ b (log_start l) Hr2 Hh) as [-> Hr3]. cbn [mbind outcome_bind].
  cbn [cur one_open] in Hr3 |- *. rewrite upd_eq in Hr3 |- *.
  destruct (close1 dev _ (upd c (log_start l) v) L (log_start l) pl b Hr3 Hh) as (s4 & -> & Hd4 & Hq4).
  - intros _. rewrite upd_eq. cbn [disk]. rewrite dev_read_write by done. by rewrite decide_True.
  - exists s4. split_and!; [done| |done]. rewrite Hd4. cbn [disk store_data with_bufs]. by rewrite Hd1.
Qed.

(** ** Sequences of writes *)

(** The disk after a list of block writes, and the blocks after them. *)
Definition writes (d : D) (ws : list (Z * block)) : D := foldl (λ d '(n, v), dev_write d n v) d ws.
Definition upds (c : Z → block) (ws : list (Z * block)) : Z → block := foldl (λ c '(n, v), upd c n v) c ws.

Lemma writes_app d ws ws' : writes d (ws ++ ws') = writes (writes d ws) ws'.
Proof using. apply foldl_app. Qed.
Lemma upds_app c ws ws' : upds c (ws ++ ws') = upds (upds c ws) ws'.
Proof using. apply foldl_app. Qed.

Lemma upds_ne c ws n : n ∉ ws.*1 → upds c ws n = c n.
Proof using.
  revert c. induction ws as [|[m v] ws IH]; intros c Hn; simpl; [done|].
  simpl in Hn. apply not_elem_of_cons in Hn as [? ?]. rewrite IH by done. by rewrite upd_ne.
Qed.

(** The last write to a block counts; here there is only one. *)
Lemma upds_eq c ws n v : NoDup ws.*1 → (n, v) ∈ ws → upds c ws n = v.
Proof using.
  revert c. induction ws as [|[m w] ws IH]; intros c Hnd Hin; simpl; [by apply elem_of_nil in Hin|].
  simpl in Hnd. apply NoDup_cons in Hnd as [Hm Hnd]. apply elem_of_cons in Hin as [[= <- <-]|Hin]; [|by apply IH].
  rewrite upds_ne by done. by rewrite upd_eq.
Qed.

Lemma read_writes d ws n :
  Forall (λ w, Z.of_nat (length w.2) = BSIZE) ws → dev_read (writes d ws) n = upds (dev_read d) ws n.
Proof using BDL.
  assert (∀ c d, (∀ m, dev_read d m = c m) → Forall (λ w, Z.of_nat (length w.2) = BSIZE) ws →
    dev_read (writes d ws) n = upds c ws n) as Hg; [|by apply Hg].
  induction ws as [|[m v] ws IH]; intros c d' Hc Hf; simpl; [done|]. apply Forall_cons in Hf as [Hv Hf].
  apply IH; [|done]. intros x. simpl in Hv. rewrite dev_read_write by done. unfold upd. case_decide; [done|apply Hc].
Qed.

(** ** The loops *)

(** The header lists the blocks. *)
Definition logged (bns : list Z) : Prop :=
  lh_ok (lh l) ∧ lh_len (lh l) = Z.of_nat (length bns) ∧ take (length bns) (lh_blocknos (lh l)) = bns.

Lemma logged_at bns i n : logged bns → bns !! i = Some n → lh_blocknos (lh l) !! i = Some n.
Proof using.
  intros (_ & _ & Ht) Hi. rewrite <- Ht in Hi. by apply lookup_take_Some in Hi as [? _].
Qed.

(** The blocks are distinct, lie outside of the log and fit in it. *)
Definition blocks_ok (bns : list Z) : Prop :=
  NoDup bns ∧ (∀ n, n ∈ bns → ¬ is_log n) ∧ Z.of_nat (length bns) ≤ LOGSIZE - 2.

(** Block [i] of the log. *)
Definition lblock (i : nat) : Z := log_start l + 1 + Z.of_nat i.

Lemma lblock_log bns i : blocks_ok bns → (i < length bns)%nat → is_log (lblock i) ∧ (lblock i ∉ bns) ∧ (lblock i ≠ log_start l).
Proof using.
  intros (_ & Hno & Hl) Hi. unfold is_log, lblock, LOGSIZE, MAXOPBLOCKS in *. split; [lia|]. split; [|lia].
  intros Hin. apply (Hno _ Hin). unfold is_log, LOGSIZE, MAXOPBLOCKS. lia.
Qed.

(** What [write_log] writes: the content of the blocks into the log. *)
Definition log_writes (c : Z → block) (bns : list Z) : list (Z * block) := imap (λ i n, (lblock i, c n)) bns.
(** What [install_trans] writes: the blocks at home. *)
Definition home_writes (c : Z → block) (bns : list Z) : list (Z * block) := imap (λ i n, (n, c (lblock i))) bns.

Lemma log_writes_fst c bns : (log_writes c bns).*1 = imap (λ i _, lblock i) bns.
Proof using. unfold log_writes. rewrite fmap_imap. by apply imap_ext. Qed.

Lemma home_writes_fst c bns : (home_writes c bns).*1 = bns.
Proof using.
  unfold home_writes. rewrite fmap_imap. apply list_eq. intros i. rewrite list_lookup_imap. by destruct (bns !! i).
Qed.

Lemma elem_of_lblocks c bns n : n ∈ (log_writes c bns).*1 ↔ (∃ i, (i < length bns)%nat ∧ n = lblock i).
Proof using.
  rewrite log_writes_fst. rewrite elem_of_lookup_imap. split.
  - intros (i & m & -> & Hi). exists i. split; [by apply lookup_lt_Some in Hi|done].
  - intros (i & Hi & ->). destruct (lookup_lt_is_Some_2 bns i Hi) as [m Hm]. eauto.
Qed.

Lemma log_writes_S c bns i n :
  bns !! i = Some n → take (S i) (log_writes c bns) = take i (log_writes c bns) ++ [(lblock i, c n)].
Proof using. intros Hi. apply take_S_r. unfold log_writes. rewrite list_lookup_imap. by rewrite Hi. Qed.

Lemma home_writes_S c bns i n :
  bns !! i = Some n → take (S i) (home_writes c bns) = take i (home_writes c bns) ++ [(n, c (lblock i))].
Proof using. intros Hi. apply take_S_r. unfold home_writes. rewrite list_lookup_imap. by rewrite Hi. Qed.

Lemma take_all_writes {A} (ws : list A) i : i = length ws → take i ws = ws.
Proof using. intros ->. by rewrite firstn_all. Qed.

Lemma elem_take {A} (x : A) i ws : x ∈ take i ws → x ∈ ws.
Proof using. intros Hx. rewrite <- (take_drop i ws). apply elem_of_app. by left. Qed.

Lemma log_contents_home c bns i n :
  blocks_ok bns → n ∈ bns → upds c (take i (log_writes c bns)) n = c n.
Proof using.
  intros (Hnd & Hno & Hl) Hn. apply upds_ne. rewrite fmap_take. intros Hx%elem_take.
  apply elem_of_lblocks in Hx as (j & Hj & ->). by destruct (lblock_log bns j (conj Hnd (conj Hno Hl)) Hj) as (_ & ? & _).
Qed.

(** [write_log] copies the logged blocks into the log. *)
Lemma write_log_ok s c bns :
  quiet dev s c bns → logged bns → blocks_ok bns →
  ∃ s', write_log l s = Done s' ∧ disk s' = writes (disk s) (log_writes c bns) ∧
    quiet dev s' (upds c (log_writes c bns)) bns.
Proof using BDL Hdev Hend Hstart.
  intros Hq Hlg Hok. pose proof Hlg as (_ & Hlen & _). pose proof Hok as (_ & _ & Hl). unfold write_log. rewrite Hlen.
  destruct (for_range_inv (λ i s', disk s' = writes (disk s) (take (Z.to_nat i) (log_writes c bns)) ∧
    quiet dev s' (upds c (take (Z.to_nat i) (log_writes c bns))) bns) 0 (Z.of_nat (length bns)) (write_log_block l) s)
    as (s' & -> & Hd & Hq').
  - lia.
  - done.
  - intros i s1 Hi [Hd1 Hq1]. destruct (lookup_lt_is_Some_2 bns (Z.to_nat i)) as [n Hn]; [lia|].
    destruct (lblock_log bns (Z.to_nat i) Hok) as (_ & Hnb & _); [lia|].
    unfold lblock in Hnb. rewrite Z2Nat.id in Hnb by lia.
    destruct (write_log_block_ok s1 _ bns i n Hq1) as (s2 & -> & Hd2 & Hq2).
    + change NBUF with 30%nat. unfold LOGSIZE, MAXOPBLOCKS in *. lia.
    + lia.
    + by apply (logged_at bns).
    + by eapply list_elem_of_lookup_2.
    + done.
    + exists s2. split; [done|]. replace (Z.to_nat (i + 1)) with (S (Z.to_nat i)) by lia.
      rewrite (log_writes_S c bns _ n Hn), writes_app, upds_app. simpl.
      rewrite log_contents_home in Hd2, Hq2 by (done || by eapply list_elem_of_lookup_2).
      unfold lblock. rewrite Z2Nat.id by lia. rewrite <- Hd1. done.
  - exists s'. split; [done|]. rewrite take_all_writes in Hd, Hq' by (unfold log_writes; rewrite length_imap; lia). done.
Qed.

(** The blocks of the log are not written by the installation. *)
Lemma home_contents_log c bns i j :
  blocks_ok bns → (j < length bns)%nat → upds c (take i (home_writes c bns)) (lblock j) = c (lblock j).
Proof using.
  intros Hok Hj. apply upds_ne. rewrite fmap_take, home_writes_fst. intros Hx%elem_take.
  by destruct (lblock_log bns j Hok Hj) as (_ & ? & _).
Qed.

(** [install_trans] copies the blocks of the log home; after a commit it takes
    the pins away. *)
Lemma install_commit_ok s c bns :
  quiet dev s c bns → logged bns → blocks_ok bns →
  ∃ s', install_trans l false s = Done s' ∧ disk s' = writes (disk s) (home_writes c bns) ∧
    quiet dev s' (upds c (home_writes c bns)) [].
Proof using BDL Hdev Hend Hstart.
  intros Hq Hlg Hok. pose proof Hlg as (_ & Hlen & _). pose proof Hok as (Hnd & _ & Hl). unfold install_trans. rewrite Hlen.
  destruct (for_range_inv (λ i s', disk s' = writes (disk s) (take (Z.to_nat i) (home_writes c bns)) ∧
    quiet dev s' (upds c (take (Z.to_nat i) (home_writes c bns))) (drop (Z.to_nat i) bns))
    0 (Z.of_nat (length bns)) (install_block l false) s) as (s' & -> & Hd & Hq').
  - lia.
  - done.
  - intros i s1 Hi [Hd1 Hq1]. destruct (lookup_lt_is_Some_2 bns (Z.to_nat i)) as [n Hn]; [lia|].
    destruct (lblock_log bns (Z.to_nat i) Hok) as (_ & Hnb & _); [lia|].
    rewrite (drop_S _ _ _ Hn) in Hq1.
    assert (NoDup (n :: drop (S (Z.to_nat i)) bns)) as Hnd'.
    { rewrite <- (drop_S _ _ _ Hn). eapply sublist_NoDup; [exact Hnd|apply sublist_drop]. }
    apply NoDup_cons in Hnd' as [Hnn _].
    destruct (install_block_commit s1 _ (drop (S (Z.to_nat i)) bns) i n Hq1 Hnn) as (s2 & -> & Hd2 & Hq2).
    + rewrite length_drop. change NBUF with 30%nat. unfold LOGSIZE, MAXOPBLOCKS in *. lia.
    + lia.
    + by apply (logged_at bns).
    + unfold lblock in Hnb. rewrite Z2Nat.id in Hnb by lia. rewrite <- (drop_S _ _ _ Hn).
      intros Hx. apply Hnb. rewrite <- (take_drop (Z.to_nat i) bns). set_solver.
    + exists s2. split; [done|]. replace (Z.to_nat (i + 1)) with (S (Z.to_nat i)) by lia.
      rewrite (home_writes_S c bns _ n Hn), writes_app, upds_app. simpl.
      replace (log_start l + 1 + i) with (lblock (Z.to_nat i)) in Hd2, Hq2 by (unfold lblock; lia).
      rewrite home_contents_log in Hd2, Hq2 by (done || lia). rewrite <- Hd1. done.
  - exists s'. split; [done|]. rewrite take_all_writes in Hd, Hq' by (unfold home_writes; rewrite length_imap; lia).
    rewrite drop_ge in Hq' by lia. done.
Qed.

Lemma install_recover_ok s c bns :
  quiet dev s c [] → logged bns → blocks_ok bns →
  ∃ s', install_trans l true s = Done s' ∧ disk s' = writes (disk s) (home_writes c bns) ∧
    quiet dev s' (upds c (home_writes c bns)) [].
Proof using BDL Hdev Hend Hstart.
  intros Hq Hlg Hok. pose proof Hlg as (_ & Hlen & _). pose proof Hok as (_ & _ & Hl). unfold install_trans. rewrite Hlen.
  destruct (for_range_inv (λ i s', disk s' = writes (disk s) (take (Z.to_nat i) (home_writes c bns)) ∧
    quiet dev s' (upds c (take (Z.to_nat i) (home_writes c bns))) [])
    0 (Z.of_nat (length bns)) (install_block l true) s) as (s' & -> & Hd & Hq').
  - lia.
  - done.
  - intros i s1 Hi [Hd1 Hq1]. destruct (lookup_lt_is_Some_2 bns (Z.to_nat i)) as [n Hn]; [lia|].
    destruct (lblock_log bns (Z.to_nat i) Hok) as (_ & Hnb & _); [lia|].
    destruct (install_block_recover s1 _ i n Hq1) as (s2 & -> & Hd2 & Hq2).
    + lia.
    + by apply (logged_at bns).
    + unfold lblock in Hnb. rewrite Z2Nat.id in Hnb by lia. intros <-. apply Hnb. by eapply list_elem_of_lookup_2.
    + exists s2. split; [done|]. replace (Z.to_nat (i + 1)) with (S (Z.to_nat i)) by lia.
      rewrite (home_writes_S c bns _ n Hn), writes_app, upds_app. simpl.
      replace (log_start l + 1 + i) with (lblock (Z.to_nat i)) in Hd2, Hq2 by (unfold lblock; lia).
      rewrite home_contents_log in Hd2, Hq2 by (done || lia). rewrite <- Hd1. done.
  - exists s'. split; [done|]. rewrite take_all_writes in Hd, Hq' by (unfold home_writes; rewrite length_imap; lia). done.
Qed.

(** ** Commit *)

(** The header block that commits the transaction. *)
Definition header (c : Z → block) : block := put_bytes (c (log_start l)) 0 (encode_lh (lh l)).

(** All the writes of a commit: the log, the header, the blocks at home, and
    the header with the length cleared. *)
Definition commit_writes (c : Z → block) (bns : list Z) : list (Z * block) :=
  log_writes c bns ++ (log_start l, header c) :: ((λ n, (n, c n)) <$> bns) ++ [(log_start l, put_u32 (header c) 0 0)].

Lemma empty_head_eq s :
  empty_head l s =
  (s' ← ('(buf, s) ← bread (log_dev l) (log_start l) s;
         raw ← raw_data buf s;
         let s := store_data buf (put_u32 raw 0 0) s in
         s ← bwrite buf s;
         drop_buf buf s);
   Done (with_lh l (mkLh 0 (lh_blocknos (lh l))), s')).
Proof using.
  unfold empty_head. cbn [log_dev log_start with_lh].
  destruct (bread (log_dev l) (log_start l) s) as [[b s1]| | |]; [|done..]. cbn [mbind outcome_bind].
  destruct (raw_data b s1); [|done..]. cbn [mbind outcome_bind]. by destruct (bwrite b _).
Qed.

Lemma start_not_in bns : blocks_ok bns → log_start l ∉ bns.
Proof using.
  intros (_ & Hno & _) Hin. apply (Hno _ Hin). unfold is_log, LOGSIZE, MAXOPBLOCKS. lia.
Qed.

Lemma log_start_kept c bns : blocks_ok bns → upds c (log_writes c bns) (log_start l) = c (log_start l).
Proof using.
  intros Hok. apply upds_ne. rewrite elem_of_lblocks. intros (i & Hi & Heq).
  by destruct (lblock_log bns i Hok Hi) as (_ & _ & []).
Qed.

Lemma lblock_nodup c bns : NoDup (log_writes c bns).*1.
Proof using.
  rewrite log_writes_fst. apply NoDup_alt. intros i j n Hi Hj. rewrite list_lookup_imap in Hi, Hj.
  destruct (bns !! i); [|done]. destruct (bns !! j); [|done]. simpl in *. injection Hi as Hi. injection Hj as Hj.
  unfold lblock in *. lia.
Qed.

(** The log holds the blocks. *)
Lemma logged_contents c bns i n : bns !! i = Some n → upds c (log_writes c bns) (lblock i) = c n.
Proof using.
  intros Hi. apply upds_eq; [apply lblock_nodup|]. apply list_elem_of_lookup. exists i.
  unfold log_writes. rewrite list_lookup_imap. by rewrite Hi.
Qed.

Lemma length_header c : Z.of_nat (length (c (log_start l))) = BSIZE → lh_ok (lh l) → Z.of_nat (length (header c)) = BSIZE.
Proof using.
  intros Hc Hlh. unfold header. pose proof (length_encode_lh _ Hlh).
  rewrite length_put_bytes; [done|lia|]. unfold BSIZE, LOGSIZE, MAXOPBLOCKS in *. lia.
Qed.

Lemma commit_ok s c bns :
  committing l = true → quiet dev s c bns → logged bns → blocks_ok bns → bns ≠ [] →
  ∃ s', commit l s = Done (with_lh l (mkLh 0 (lh_blocknos (lh l))), s') ∧
    disk s' = writes (disk s) (commit_writes c bns) ∧ quiet dev s' (upds c (commit_writes c bns)) [].
Proof using BDL Hdev Hend Hstart.
  intros Hcm Hq Hlg Hok Hne. unfold commit. rewrite Hcm. cbn [negb]. pose proof Hlg as (Hlh & Hlen & _).
  destruct (Z.ltb_spec 0 (lh_len (lh l))); [|destruct bns; [done|simpl in *; lia]].
  pose proof (quiet_len dev s c bns (log_start l) Hq) as Hc0. pose proof Hok as (Hnd & _ & Hl).
  destruct (write_log_ok s c bns Hq Hlg Hok) as (s1 & -> & Hd1 & Hq1). cbn [mbind outcome_bind].
  set (c1 := upds c (log_writes c bns)) in *.
  assert (c1 (log_start l) = c (log_start l)) as E1 by (by apply log_start_kept).
  destruct (head_update s1 c1 bns (λ b, put_bytes b 0 (encode_lh (lh l))) Hq1) as (s2 & E2 & Hd2 & Hq2).
  { change NBUF with 30%nat. unfold LOGSIZE, MAXOPBLOCKS in *. lia. }
  { by apply start_not_in. }
  { intros b Hb. pose proof (length_encode_lh _ Hlh). rewrite length_put_bytes; [done|lia|].
    unfold BSIZE, LOGSIZE, MAXOPBLOCKS in *. lia. }
  assert (write_head l s1 = Done s2) as -> by exact E2. cbn [mbind outcome_bind]. rewrite E1 in Hd2, Hq2. fold (header c) in Hd2, Hq2.
  set (c2 := upd c1 (log_start l) (header c)) in *.
  destruct (install_commit_ok s2 c2 bns Hq2 Hlg Hok) as (s3 & -> & Hd3 & Hq3). cbn [mbind outcome_bind].
  assert (home_writes c2 bns = (λ n, (n, c n)) <$> bns) as E3.
  { apply list_eq. intros i. unfold home_writes. rewrite list_lookup_imap, list_lookup_fmap.
    destruct (bns !! i) as [n|] eqn:Hn; simpl; [|done]. do 2 f_equal. unfold c2.
    destruct (lblock_log bns i Hok) as (_ & _ & ?); [by apply lookup_lt_Some in Hn|]. rewrite upd_ne by done.
    by apply logged_contents. }
  rewrite E3 in Hd3, Hq3.
  assert (upds c2 ((λ n, (n, c n)) <$> bns) (log_start l) = header c) as E4.
  { rewrite upds_ne; [unfold c2; by rewrite upd_eq|]. rewrite <- E3, home_writes_fst. by apply start_not_in. }
  destruct (head_update s3 _ [] (λ b, put_u32 b 0 0) Hq3) as (s4 & E5 & Hd4 & Hq4).
  { change NBUF with 30%nat. simpl. lia. }
  { by apply not_elem_of_nil. }
  { intros b Hb. unfold put_u32. rewrite length_put_bytes; rewrite ?length_le_encode; [done|lia|unfold BSIZE in *; lia]. }
  rewrite empty_head_eq. cbv zeta in E5 |- *. rewrite E5. cbn [mbind outcome_bind]. rewrite E4 in Hd4, Hq4.
  exists s4. split; [done|]. unfold commit_writes. rewrite cons_middle, !writes_app, !upds_app. fold c1. simpl.
  fold c2. by rewrite <- Hd1, <- Hd2, <- Hd3.
Qed.

(** ** Recovery *)

(** The writes of recovery for a header that lists [bns]. *)
Definition recover_writes (c : Z → block) (bns : list Z) : list (Z * block) :=
  home_writes c bns ++ [(log_start l, put_u32 (c (log_start l)) 0 0)].
End Steps.

Section Recover.
Context {D : Type} {BD : BlockDevice D} {BDL : BlockDeviceLaws D} (dev : Z).
Context (l : Log) (Hdev : log_dev l = dev).
Context (Hstart : 0 ≤ log_start l) (Hend : log_start l + LOGSIZE ≤ 2 ^ 32).

Lemma read_head_ok (s : bstate D) c :
  quiet dev s c [] →
  ∃ s', read_head l s = Done (with_lh l (decode_lh (c (log_start l))), s') ∧ disk s' = disk s ∧ quiet dev s' c [].
Proof using BDL Hdev.
  intros Hq. unfold read_head. rewrite Hdev.
  destruct (open1 dev s c [] (log_start l) Hq) as (b & s1 & pl & -> & Hd1 & Hr1 & Hh).
  { change NBUF with 30%nat. simpl. lia. }
  cbn [mbind outcome_bind]. rewrite (raw_data_ok dev s1 _ b _ Hr1 Hh). cbn [mbind outcome_bind cur one_open].
  destruct (close1 dev s1 c [] (log_start l) pl b Hr1 Hh) as (s2 & -> & Hd2 & Hq2).
  - intros Hx. rewrite Hd1. by apply (quiet_clean dev s c []).
  - cbn [mbind outcome_bind]. exists s2. split_and!; [done|congruence|done].
Qed.

Lemma recover_empty (s : bstate D) c :
  quiet dev s c [] → lh_len (decode_lh (c (log_start l))) = 0 →
  ∃ s', recover l s = Done (with_lh l (decode_lh (c (log_start l))), s') ∧ disk s' = disk s ∧ quiet dev s' c [].
Proof using BDL Hdev.
  intros Hq H0. unfold recover. destruct (read_head_ok s c Hq) as (s1 & -> & Hd1 & Hq1). cbn [mbind outcome_bind lh with_lh].
  rewrite H0. by exists s1.
Qed.

Lemma recover_ok (s : bstate D) c bns :
  let l' := with_lh l (decode_lh (c (log_start l))) in
  quiet dev s c [] → logged l' bns → blocks_ok l' bns → bns ≠ [] →
  ∃ s', recover l s = Done (with_lh l (mkLh 0 (lh_blocknos (lh l'))), s') ∧
    disk s' = writes (disk s) (recover_writes l' c bns) ∧ quiet dev s' (upds c (recover_writes l' c bns)) [].
Proof using BDL Hdev Hstart Hend.
  intros l' Hq Hlg Hok Hne. unfold recover.
  destruct (read_head_ok s c Hq) as (s1 & -> & Hd1 & Hq1). cbn [mbind outcome_bind]. fold l'.
  pose proof Hlg as (Hlh & Hlen & _). unfold recover_writes. rewrite Hlen.
  destruct (Z.ltb_spec 0 (Z.of_nat (length bns))); [|destruct bns; [done|simpl in *; lia]].
  destruct (install_recover_ok dev l' Hdev Hstart Hend s1 c bns Hq1 Hlg Hok) as (s2 & -> & Hd2 & Hq2).
  cbn [mbind outcome_bind].
  assert (upds c (home_writes l' c bns) (log_start l) = c (log_start l)) as E.
  { apply upds_ne. rewrite home_writes_fst. by apply (start_not_in l'). }
  destruct (head_update dev l' Hdev s2 _ [] (λ b, put_u32 b 0 0) Hq2) as (s3 & E5 & Hd3 & Hq3).
  { change NBUF with 30%nat. simpl. lia. }
  { by apply not_elem_of_nil. }
  { intros b Hb. unfold put_u32. rewrite length_put_bytes; rewrite ?length_le_encode; [done|lia|unfold BSIZE in *; lia]. }
  cbv zeta in E5. rewrite empty_head_eq. cbv zeta. rewrite E5. cbn [mbind outcome_bind].
  change (log_start l') with (log_start l) in *. rewrite E in Hd3, Hq3.
  exists s3. split; [done|]. rewrite writes_app, upds_app. simpl. by rewrite <- Hd1, <- Hd2.
Qed.
End Recover.

(** * Transactions

    What [begin_op], [log_write] and [end_op] do to the block store: a write
    joins the running transaction, and the last [end_op] commits it. *)

(** The logged blocks after one more write. *)
Definition log_add (bns : list Z) (n : Z) : list Z := if decide (n ∈ bns) then bns else bns ++ [n].

Lemma elem_of_log_add bns n m : m ∈ log_add bns n ↔ m ∈ bns ∨ m = n.
Proof.
  unfold log_add. case_decide as Hd; [|by rewrite elem_of_app, list_elem_of_singleton].
  split; [by left|]. by intros [?| ->].
Qed.

Lemma NoDup_log_add bns n : NoDup bns → NoDup (log_add bns n).
Proof.
  intros Hnd. unfold log_add. case_decide as Hd; [done|]. apply NoDup_app. split; [done|]. split.
  - intros m Hm ->%list_elem_of_singleton. done.
  - apply NoDup_singleton.
Qed.

Lemma length_log_add bns n : (length bns ≤ length (log_add bns n) ≤ S (length bns))%nat.
Proof. unfold log_add. case_decide; [lia|]. rewrite length_app. simpl. lia. Qed.

(** ** Searching the header *)

Lemma find_logged_ok l bns n :
  logged l bns → Z.of_nat (length bns) ≤ LOGSIZE - 1 →
  find_logged (lh l) n = Done (if decide (n ∈ bns) then inl tt else inr tt).
Proof.
  intros Hlg Hle. pose proof Hlg as (_ & Hlen & _). unfold find_logged. rewrite Hlen.
  destruct (for_range_until_inv (λ i (_ : unit), n ∉ take (Z.to_nat i) bns) (λ _ : unit, n ∈ bns) 0
    (Z.of_nat (length bns)) (λ i _, m ← blockno_at (lh l) i; if m =? n then Done (inl tt) else Done (inr tt)) tt)
    as [([] & -> & Hin)|([] & -> & Hout)].
  - lia.
  - by apply not_elem_of_nil.
  - intros i [] Hi Hout. destruct (lookup_lt_is_Some_2 bns (Z.to_nat i)) as [m Hm]; [lia|].
    unfold blockno_at. rewrite (logged_at l bns _ m Hlg Hm). cbn [unwrap mbind outcome_bind].
    destruct (Z.eqb_spec m n) as [->|Hne]; [left|right].
    + exists tt. split; [done|]. by apply list_elem_of_lookup_2 in Hm.
    + exists tt. split; [done|]. rewrite Z2Nat.inj_add, Nat.add_1_r by lia. rewrite (take_S_r _ _ _ Hm), elem_of_app.
      intros [?|?%list_elem_of_singleton]; [done|congruence].
  - by rewrite decide_True.
  - rewrite Nat2Z.id, firstn_all in Hout. by rewrite decide_False.
Qed.

Section Tx.
Context {D : Type} {BD : BlockDevice D} {BDL : BlockDeviceLaws D} (dev : Z).

Lemma logged_add l bns n :
  logged l bns → n ∉ bns → 0 ≤ n < 2 ^ 32 → Z.of_nat (length bns) < LOGSIZE - 1 →
  logged (with_lh l (mkLh (Z.of_nat (length bns) + 1) (<[length bns := n]> (lh_blocknos (lh l))))) (bns ++ [n]).
Proof.
  intros ((Hr & Hl & Hf) & Hlen & Ht) Hn Hrange Hlt. unfold logged, lh_ok. cbn [lh with_lh lh_len lh_blocknos].
  unfold LOGSIZE, MAXOPBLOCKS in *. split_and!.
  - lia.
  - lia.
  - by rewrite length_insert.
  - by apply Forall_insert.
  - rewrite length_app. simpl. lia.
  - rewrite length_app. simpl. rewrite Nat.add_1_r. rewrite (take_S_r _ _ n) by (apply list_lookup_insert_eq; lia).
    f_equal. rewrite take_insert_ge by lia. done.
Qed.

(** A block that is written joins the log and stays in the cache. *)
Lemma log_write_ok l s c bns n pl b :
  logged l bns → cache_rep dev s (one_open c bns n pl) → handle dev (one_open c bns n pl) b n →
  0 ≤ n < 2 ^ 32 → 1 ≤ outstanding l → Z.of_nat (length bns) + 2 < LOGSIZE → LOGSIZE ≤ log_size l →
  ∃ h s', log_write l b s = Done (with_lh l h, s') ∧ disk s' = disk s ∧
    quiet dev s' c (log_add bns n) ∧ logged (with_lh l h) (log_add bns n).
Proof using BDL.
  intros Hlg Hr Hh Hn Hout Hlt Hsz. pose proof Hlg as ((Hr32 & Hll & _) & Hlen & _). pose proof Hh as (_ & _ & Hbn & _ & _).
  unfold log_write, read_blockno. rewrite Hlen. rewrite !u32add_ok by (unfold LOGSIZE, MAXOPBLOCKS in *; lia).
  cbn [mbind outcome_bind]. destruct (Z.leb_spec LOGSIZE (Z.of_nat (length bns) + 1)); [lia|].
  destruct (Z.leb_spec (log_size l) (Z.of_nat (length bns) + 1)); [lia|]. cbn [orb].
  destruct (Z.ltb_spec (outstanding l) 1); [lia|]. rewrite Hbn, (find_logged_ok l bns) by (done || lia).
  cbn [mbind outcome_bind]. unfold log_add. case_decide as Hin.
  - destruct (close1 dev s c bns n pl b Hr Hh) as (s' & -> & Hd & Hq); [done|]. cbn [mbind outcome_bind].
    exists (lh l), s'. replace (with_lh l (lh l)) with l by (by destruct l). done.
  - destruct (Z.leb_spec LOGSIZE (Z.of_nat (length bns) + 2)); [lia|].
    destruct (Z.leb_spec (log_size l) (Z.of_nat (length bns) + 2)); [lia|]. cbn [orb].
    destruct (pin_ok dev s _ b n Hr Hh) as (s1 & -> & Hd1 & Hr1).
    { cbn. rewrite upd_eq. pose proof (pins_range bns n). lia. }
    cbn [mbind outcome_bind]. rewrite Nat2Z.id.
    destruct (lookup_lt_is_Some_2 (lh_blocknos (lh l)) (length bns)) as [x ->]; [unfold LOGSIZE in *; lia|].
    cbn [unwrap mbind outcome_bind].
    assert (pins bns n = 0) as Hp0 by (unfold pins; by rewrite decide_False).
    destruct (drop_buf_ok dev s1 _ b n Hr1) as (s2 & -> & Hd2 & Hr2).
    { by destruct Hh as (? & ? & ? & ? & ?). }
    { cbn. rewrite !upd_eq. lia. }
    cbn [mbind outcome_bind]. eexists _, s2. split; [done|]. split; [congruence|]. split.
    + exists pl. eapply cache_rep_ext; [|exact Hr2]. intros m. cbn. unfold upd, pins in *. split_and!; try done.
      * destruct (decide (m = n)) as [Hm|Hm]; [subst m|].
        { rewrite !(decide_True (P := n = n)), (decide_False (P := n ∈ bns)) by done.
          rewrite decide_True; [lia|]. apply elem_of_app. right. by left. }
        destruct (decide (m ∈ bns)) as [Hm'|Hm'].
        { rewrite decide_True; [done|]. apply elem_of_app. by left. }
        { rewrite decide_False; [done|]. rewrite elem_of_app, list_elem_of_singleton. by intros [?|?]. }
      * by repeat case_decide.
    + apply logged_add; [done|done|done|lia].
Qed.

(** Changing a block inside of a transaction: read it, store new data, and
    hand the buffer to the log. *)
Definition tx_write (l : Log) (n : Z) (v : block) (s : bstate D) : outcome (Log * bstate D) :=
  '(buf, s) ← bread dev n s;
  log_write l buf (store_data buf v s).

Lemma tx_write_ok l s c bns n v :
  logged l bns → quiet dev s c bns → Z.of_nat (length v) = BSIZE →
  0 ≤ n < 2 ^ 32 → 1 ≤ outstanding l → Z.of_nat (length bns) + 2 < LOGSIZE → LOGSIZE ≤ log_size l →
  ∃ h s', tx_write l n v s = Done (with_lh l h, s') ∧ disk s' = disk s ∧
    quiet dev s' (upd c n v) (log_add bns n) ∧ logged (with_lh l h) (log_add bns n).
Proof using BDL.
  intros Hlg Hq Hv Hn Hout Hlt Hsz. unfold tx_write.
  destruct (open1 dev s c bns n Hq) as (b & s1 & pl & -> & Hd1 & Hr1 & Hh).
  { change NBUF with 30%nat. unfold LOGSIZE, MAXOPBLOCKS in *. lia. }
  cbn [mbind outcome_bind]. pose proof (store1 dev s1 c bns n pl b v Hr1 Hh Hv) as Hr2.
  destruct (log_write_ok l _ (upd c n v) bns n pl b Hlg Hr2 Hh) as (h & s2 & -> & Hd2 & Hq2 & Hlg2); [done..|].
  exists h, s2. split; [done|]. split; [|done]. rewrite Hd2. by rewrite <- Hd1.
Qed.

(** A sequence of changes. *)
Fixpoint tx_body (l : Log) (ws : list (Z * block)) (s : bstate D) : outcome (Log * bstate D) :=
  match ws with
  | [] => Done (l, s)
  | (n, v) :: ws => '(l, s) ← tx_write l n v s; tx_body l ws s
  end.

Lemma tx_body_ok ws : ∀ l s c bns,
  logged l bns → quiet dev s c bns → Forall (λ w, 0 ≤ w.1 < 2 ^ 32 ∧ Z.of_nat (length w.2) = BSIZE) ws →
  1 ≤ outstanding l → Z.of_nat (length bns + length ws) + 1 < LOGSIZE → LOGSIZE ≤ log_size l →
  let bns' := foldl log_add bns ws.*1 in
  ∃ h s', tx_body l ws s = Done (with_lh l h, s') ∧ disk s' = disk s ∧
    quiet dev s' (upds c ws) bns' ∧ logged (with_lh l h) bns'.
Proof using BDL.
  induction ws as [|[n v] ws IH]; intros l s c bns Hlg Hq Hf Hout Hlt Hsz.
  - exists (lh l), s. cbn. replace (with_lh l (lh l)) with l by (by destruct l). done.
  - apply Forall_cons in Hf as [[Hn Hv] Hf]. simpl in Hn, Hv, Hlt. cbn [tx_body].
    destruct (tx_write_ok l s c bns n v Hlg Hq Hv Hn Hout) as (h & s1 & -> & Hd1 & Hq1 & Hlg1); [lia|done|].
    cbn [mbind outcome_bind]. pose proof (length_log_add bns n).
    destruct (IH (with_lh l h) s1 _ _ Hlg1 Hq1 Hf Hout) as (h' & s2 & -> & Hd2 & Hq2 & Hlg2); [lia|done|].
    exists h', s2. split; [done|]. split; [congruence|]. by split.
Qed.

Lemma elem_of_adds ws : ∀ bns m, m ∈ foldl log_add bns ws ↔ m ∈ bns ∨ m ∈ ws.
Proof using.
  induction ws as [|n ws IH]; intros bns m; cbn [foldl]; [by rewrite elem_of_nil; intuition|].
  rewrite IH, elem_of_log_add, elem_of_cons. tauto.
Qed.

Lemma NoDup_adds ws : ∀ bns, NoDup bns → NoDup (foldl log_add bns ws).
Proof using. induction ws as [|n ws IH]; intros bns Hnd; cbn [foldl]; [done|]. by apply IH, NoDup_log_add. Qed.

Lemma length_adds ws : ∀ bns, (length (foldl log_add bns ws) ≤ length bns + length ws)%nat.
Proof using.
  induction ws as [|n ws IH]; intros bns; cbn [foldl length]; [lia|].
  pose proof (IH (log_add bns n)). pose proof (length_log_add bns n). lia.
Qed.
End Tx.
