(* ===== verification/LogCrash.v ===== *)
(** * Crashes and recovery

    What a disk means to the log ([recovered]): the blocks after the committed
    transaction in the log, if there is one, has been installed.  Commit changes
    this meaning at one write, the one of the header; recovery does not change
    it at all, wherever it is interrupted. *)

From Stdlib Require Import ZArith Lia.
From stdpp Require Import base gmap strings numbers list.
From S2P Require Import Prelude Bytes Bio BioSpec BioCache BioClient DiskLayout Log LogSpec.

Local Open Scope Z_scope.

(** ** A disk that records its writes *)

Record tdisk := mkTd {
  t_base : Z → block;
  t_trace : list (Z * block);
}.

Global Instance tdisk_dev : BlockDevice tdisk := {|
  dev_read d n := fit (upds (t_base d) (t_trace d) n);
  dev_write d n b := mkTd (t_base d) (t_trace d ++ [(n, b)]);
|}.

Global Instance tdisk_laws : BlockDeviceLaws tdisk.
Proof.
  split.
  - intros d n. cbn. unfold fit. rewrite length_resize. done.
  - intros d n b n' Hb. cbn. rewrite upds_app. cbn. unfold upd. case_decide; [by apply fit_id|done].
Qed.

(** Power is lost after the first [k] writes. *)
Definition crash (k : nat) (d : tdisk) : tdisk := mkTd (t_base d) (take k (t_trace d)).

Lemma trace_writes ws : ∀ d : tdisk, writes d ws = mkTd (t_base d) (t_trace d ++ ws).
Proof.
  induction ws as [|[n v] ws IH]; intros d; [cbn; rewrite app_nil_r; by destruct d|].
  change (writes d ((n, v) :: ws)) with (writes (dev_write d n v) ws). rewrite IH. cbn. by rewrite <- app_assoc.
Qed.

Lemma crash_writes d ws k :
  (length (t_trace d) ≤ k)%nat → crash k (writes d ws) = writes d (take (k - length (t_trace d)) ws).
Proof. intros Hk. rewrite !trace_writes. unfold crash. cbn. by rewrite take_app_ge. Qed.

(** ** The meaning of a disk *)

Section Crash.
Context (l : Log).
Context (Hstart : 0 ≤ log_start l) (Hend : log_start l + LOGSIZE ≤ 2 ^ 32).

(** The header on disk and the blocks it lists. *)
Definition disk_head (c : Z → block) : LogHeader := decode_lh (c (log_start l)).
Definition pending (c : Z → block) : list Z := take (Z.to_nat (lh_len (disk_head c))) (lh_blocknos (disk_head c)).

(** The blocks after the log has been installed. *)
Definition recovered (c : Z → block) : Z → block := upds c (home_writes l c (pending c)).

(** The log on disk is empty or holds a transaction. *)
Definition head_ok (c : Z → block) : Prop :=
  lh_ok (disk_head c) ∧ lh_len (disk_head c) = Z.of_nat (length (pending c)) ∧ blocks_ok l (pending c).
Definition head_empty (c : Z → block) : Prop := lh_ok (disk_head c) ∧ lh_len (disk_head c) = 0.

Lemma head_empty_ok c : head_empty c → head_ok c.
Proof using.
  intros [Hlh H0]. unfold head_ok, pending. rewrite H0. cbn. split_and!; try done. unfold blocks_ok. split_and!.
  - apply NoDup_nil_2.
  - by intros n ?%elem_of_nil.
  - done.
Qed.

(** The blocks outside of the log agree. *)
Definition same_data (c c' : Z → block) : Prop := ∀ n, ¬ is_log l n → c n = c' n.

Global Instance same_data_equiv : Equivalence same_data.
Proof using.
  split.
  - by intros c n.
  - intros c c' H n Hn. by rewrite H.
  - intros c c' c'' H H' n Hn. rewrite H by done. by apply H'.
Qed.

Lemma recovered_empty c : head_empty c → recovered c = c.
Proof using. intros [_ H0]. unfold recovered, pending. by rewrite H0. Qed.

Lemma start_is_log : is_log l (log_start l).
Proof using. unfold is_log, LOGSIZE, MAXOPBLOCKS. lia. Qed.

Lemma recovered_eq c bns :
  pending c = bns → blocks_ok l bns →
  (∀ i n, bns !! i = Some n → recovered c n = c (lblock l i)) ∧ (∀ n, n ∉ bns → recovered c n = c n).
Proof using.
  intros Hp (Hnd & _). unfold recovered. rewrite Hp. split.
  - intros i n Hi. apply upds_eq; [by rewrite home_writes_fst|]. apply list_elem_of_lookup. exists i.
    unfold home_writes. rewrite list_lookup_imap. by rewrite Hi.
  - intros n Hn. apply upds_ne. by rewrite home_writes_fst.
Qed.

Lemma head_ext c c' :
  c (log_start l) = c' (log_start l) → disk_head c = disk_head c' ∧ pending c = pending c'.
Proof using. intros Heq. unfold pending, disk_head. by rewrite Heq. Qed.

Lemma head_ok_ext c c' : (∀ n, c n = c' n) → head_ok c → head_ok c'.
Proof using. intros Hc. destruct (head_ext c c' (Hc _)) as [Hh Hp]. unfold head_ok. by rewrite Hh, Hp. Qed.

Lemma recovered_ext c c' : (∀ n, c n = c' n) → head_ok c → ∀ n, recovered c n = recovered c' n.
Proof using.
  intros Hc (_ & _ & Hb) n. destruct (head_ext c c' (Hc _)) as [_ Hp].
  destruct (recovered_eq c _ eq_refl Hb) as [Hin Hno]. destruct (recovered_eq c' _ (eq_sym Hp) Hb) as [Hin' Hno'].
  destruct (decide (n ∈ pending c)) as [[i Hi]%list_elem_of_lookup|Hn].
  - by rewrite (Hin i n Hi), (Hin' i n Hi).
  - by rewrite Hno, Hno'.
Qed.

(** ** Commit *)

Section Commit.
Context (c0 c : Z → block) (bns : list Z).
Context (Hlg : logged l bns) (Hok : blocks_ok l bns).
Context (Hclean : ∀ n, n ∉ bns → c n = c0 n) (Hlen : ∀ n, Z.of_nat (length (c n)) = BSIZE).
Context (Hempty : head_empty c0).

Lemma log_writes_data j : same_data (upds c0 (take j (log_writes l c bns))) c0.
Proof using Hok.
  intros n Hn. apply upds_ne. rewrite fmap_take. intros Hx%elem_take. apply elem_of_lblocks in Hx as (i & Hi & ->).
  apply Hn. by destruct (lblock_log l bns i Hok Hi).
Qed.

Lemma log_writes_head j : upds c0 (take j (log_writes l c bns)) (log_start l) = c0 (log_start l).
Proof using Hok.
  apply upds_ne. rewrite fmap_take. intros Hx%elem_take. apply elem_of_lblocks in Hx as (i & Hi & Heq).
  by destruct (lblock_log l bns i Hok Hi) as (_ & _ & []).
Qed.

(** Until the header is written, the disk means what it meant before. *)
Lemma commit_before j :
  let e := upds c0 (take j (log_writes l c bns)) in head_ok e ∧ same_data (recovered e) c0.
Proof using Hok Hempty.
  intros e. assert (head_empty e) as He.
  { unfold head_empty. by destruct (head_ext e c0) as [-> _]; [apply log_writes_head|]. }
  split; [by apply head_empty_ok|]. rewrite recovered_empty by done. apply log_writes_data.
Qed.

Lemma homes_fst (f : Z → block) : ((λ n, (n, f n)) <$> bns).*1 = bns.
Proof using. rewrite <- list_fmap_compose. apply list_fmap_id. Qed.

Lemma lookup_home (f : Z → block) n : n ∈ bns → (n, f n) ∈ (λ n, (n, f n)) <$> bns.
Proof using. intros Hn. by apply (list_elem_of_fmap_2 (λ n, (n, f n))). Qed.

(** From the header on, it means the new blocks, whatever has been installed. *)
Lemma commit_after j :
  let e := upds c0 (log_writes l c bns ++ (log_start l, header l c) :: take j ((λ n, (n, c n)) <$> bns)) in
  head_ok e ∧ same_data (recovered e) c.
Proof using Hlg Hok Hclean Hlen.
  intros e. pose proof Hlg as (Hlh & Hll & Ht). pose proof (start_not_in l bns Hok) as Hsn.
  assert (∀ n, n ∉ bns → e n = upd (upds c0 (log_writes l c bns)) (log_start l) (header l c) n) as Hout.
  { intros n Hn. unfold e. rewrite upds_app. cbn. apply upds_ne. rewrite fmap_take, homes_fst. by intros ?%elem_take. }
  assert (disk_head e = lh l) as Hh.
  { unfold disk_head. rewrite Hout, upd_eq by done. unfold header. by apply decode_encode_lh. }
  assert (pending e = bns) as Hp by (unfold pending; rewrite Hh, Hll, Nat2Z.id; done).
  split; [unfold head_ok; rewrite Hp, Hh; done|]. destruct (recovered_eq e bns Hp Hok) as [Hin Hno]. intros n Hn.
  destruct (decide (n ∈ bns)) as [[i Hi]%list_elem_of_lookup|Hn'].
  - rewrite (Hin i n Hi). destruct (lblock_log l bns i Hok) as (_ & ? & ?); [by apply lookup_lt_Some in Hi|].
    rewrite Hout, upd_ne by done. apply upds_eq; [apply lblock_nodup|]. apply list_elem_of_lookup. exists i.
    unfold log_writes. rewrite list_lookup_imap. by rewrite Hi.
  - rewrite Hno, Hout, upd_ne by (done || (intros ->; by apply Hn, start_is_log)).
    rewrite <- (take_all_writes (log_writes l c bns) _ eq_refl), log_writes_data by done. symmetry. by apply Hclean.
Qed.

(** After the last write the log is empty again. *)
Lemma commit_done : let e := upds c0 (commit_writes l c bns) in head_empty e ∧ same_data e c.
Proof using Hlg Hok Hclean Hlen.
  intros e. pose proof Hlg as (Hlh & _ & _). unfold e, commit_writes. rewrite upds_app. cbn [upds foldl]. rewrite foldl_app. cbn [foldl]. split.
  - unfold head_empty, disk_head. rewrite upd_eq, decode_emptied by (by apply length_header). unfold header.
    rewrite decode_encode_lh by done. destruct Hlh as (? & ? & ?). done.
  - intros n Hn. rewrite upd_ne by (intros ->; by apply Hn, start_is_log).
    destruct (decide (n ∈ bns)) as [Hin|Hno].
    + apply upds_eq; [rewrite homes_fst; by destruct Hok|]. by apply lookup_home.
    + rewrite upds_ne by (by rewrite homes_fst). rewrite upd_ne by (intros ->; by apply Hn, start_is_log).
      rewrite <- (take_all_writes (log_writes l c bns) _ eq_refl), log_writes_data by done. symmetry. by apply Hclean.
Qed.

(** A crash at any point of a commit leaves the old blocks or the new ones. *)
Lemma commit_crash j :
  let e := upds c0 (take j (commit_writes l c bns)) in
  head_ok e ∧ (same_data (recovered e) c0 ∨ same_data (recovered e) c).
Proof using Hlg Hok Hclean Hlen Hempty.
  intros e. unfold e, commit_writes. destruct (decide (j ≤ length (log_writes l c bns))%nat) as [Hj|Hj].
  - rewrite take_app_le by done. destruct (commit_before j) as [? ?]. split; [done|by left].
  - rewrite take_app_ge by lia. destruct (j - length (log_writes l c bns))%nat as [|j1] eqn:Hj1; [lia|]. cbn [take].
    destruct (decide (j1 ≤ length bns)%nat) as [Hj'|Hj'].
    + rewrite take_app_le by (by rewrite length_fmap). destruct (commit_after j1) as [? ?]. split; [done|by right].
    + rewrite (take_ge (_ ++ [_])) by (rewrite length_app, length_fmap; simpl; lia).
      destruct commit_done as [He Hd]. split; [by apply head_empty_ok|]. right. by rewrite recovered_empty.
Qed.

Lemma commit_writes_len : Forall (λ w : Z * block, Z.of_nat (length w.2) = BSIZE) (commit_writes l c bns).
Proof using Hlg Hlen.
  assert (Z.of_nat (length (header l c)) = BSIZE) as Hh by (apply length_header; [done|apply Hlg]).
  unfold commit_writes. apply Forall_app. split.
  - apply Forall_lookup. intros i w Hi. unfold log_writes in Hi. rewrite list_lookup_imap in Hi.
    destruct (bns !! i); [|done]. injection Hi as <-. apply Hlen.
  - apply Forall_cons. split; [done|]. apply Forall_app. split.
    + apply Forall_fmap, Forall_true. intros n. apply Hlen.
    + apply Forall_singleton. cbn. unfold put_u32. rewrite length_put_bytes; rewrite ?length_le_encode; [done|lia|unfold BSIZE in *; lia].
Qed.
End Commit.

(** ** Recovery *)

Section Recovery.
Context (c : Z → block) (Hok : head_ok c) (Hlen : ∀ n, Z.of_nat (length (c n)) = BSIZE).

Lemma recover_writes_len :
  Forall (λ w : Z * block, Z.of_nat (length w.2) = BSIZE) (recover_writes l c (pending c)).
Proof using Hlen.
  unfold recover_writes. apply Forall_app. split.
  - apply Forall_lookup. intros i w Hi. unfold home_writes in Hi. rewrite list_lookup_imap in Hi.
    destruct (pending c !! i); [|done]. injection Hi as <-. apply Hlen.
  - apply Forall_singleton. cbn. pose proof (Hlen (log_start l)). unfold put_u32.
    rewrite length_put_bytes; rewrite ?length_le_encode; [done|lia|unfold BSIZE in *; lia].
Qed.

Lemma home_prefix_out j n : n ∉ pending c → upds c (take j (home_writes l c (pending c))) n = c n.
Proof using. intros Hn. apply upds_ne. rewrite fmap_take, home_writes_fst. by intros ?%elem_take. Qed.

(** Until the header is cleared, what has been installed is installed again. *)
Lemma recover_before j :
  let e := upds c (take j (home_writes l c (pending c))) in head_ok e ∧ same_data (recovered e) (recovered c).
Proof using Hok.
  intros e. pose proof Hok as (Hlh & Hl & Hb). pose proof (start_not_in l _ Hb) as Hsn.
  destruct (head_ext e c) as [Hh Hp]; [by apply home_prefix_out|].
  split; [unfold head_ok; by rewrite Hh, Hp|].
  destruct (recovered_eq e _ Hp Hb) as [Hin Hno]. destruct (recovered_eq c _ eq_refl Hb) as [Hin' Hno']. intros n Hn.
  destruct (decide (n ∈ pending c)) as [[i Hi]%list_elem_of_lookup|Hn'].
  - rewrite (Hin i n Hi), (Hin' i n Hi). apply home_prefix_out.
    by destruct (lblock_log l _ i Hb) as (_ & ? & _); [by apply lookup_lt_Some in Hi|].
  - rewrite Hno, Hno' by done. by apply home_prefix_out.
Qed.

Lemma recover_done :
  let e := upds c (recover_writes l c (pending c)) in head_empty e ∧ same_data e (recovered c).
Proof using Hok Hlen.
  intros e. unfold e, recover_writes. rewrite upds_app. cbn [upds foldl]. split.
  - unfold head_empty, disk_head. rewrite upd_eq, decode_emptied by done. destruct Hok as ((? & ? & ?) & _). done.
  - intros n Hn. by rewrite upd_ne by (intros ->; by apply Hn, start_is_log).
Qed.

(** A crash during recovery does not change what the disk means. *)
Lemma recover_crash j :
  let e := upds c (take j (recover_writes l c (pending c))) in
  head_ok e ∧ same_data (recovered e) (recovered c).
Proof using Hok Hlen.
  intros e. unfold e, recover_writes. destruct (decide (j ≤ length (home_writes l c (pending c)))%nat) as [Hj|Hj].
  - rewrite take_app_le by done. apply recover_before.
  - rewrite take_ge by (rewrite length_app; simpl; lia). destruct recover_done as [He Hd].
    split; [by apply head_empty_ok|]. by rewrite recovered_empty.
Qed.
End Recovery.
End Crash.
