(* ===== verification/LogTheorems.v ===== *)
(** * Theorems about the log

    A transaction is atomic: whatever write the disk stops after, recovery
    finds all of its blocks or none.  Recovery can itself be interrupted any
    number of times. *)

From Stdlib Require Import ZArith Lia.
From stdpp Require Import base gmap strings numbers list.
From S2P Require Import Prelude Bytes Bio BioSpec BioCache BioClient DiskLayout Log LogSpec LogCrash.

Local Open Scope Z_scope.

(** The log after [fs::init] has filled in the fields from the super block. *)
Definition rebooted (l : Log) : Log := mkLog (log_start l) (log_size l) (log_dev l) 0 false (lh log_uninit).

(** Where the log lies on the device. *)
Record log_placed (l : Log) : Prop := {
  lp_dev : log_dev l ≠ 0;
  lp_start : 0 ≤ log_start l;
  lp_end : log_start l + LOGSIZE ≤ 2 ^ 32;
  lp_size : LOGSIZE ≤ log_size l;
}.

(** No transaction is running: the log in memory and on disk is empty and the
    cache agrees with the disk. *)
Record log_idle {D} `{BlockDevice D} (l : Log) (s : bstate D) : Prop := {
  li_placed : log_placed l;
  li_outstanding : outstanding l = 0;
  li_committing : committing l = false;
  li_lh : lh_ok (lh l);
  li_len : lh_len (lh l) = 0;
  li_quiet : quiet (log_dev l) s (dev_read (disk s)) [];
  li_head : head_empty l (dev_read (disk s));
}.

(** The blocks a transaction writes: at most [MAXOPBLOCKS], outside of the log. *)
Definition tx_ok (l : Log) (ws : list (Z * block)) : Prop :=
  Forall (λ w, (0 ≤ w.1 < 2 ^ 32 ∧ Z.of_nat (length w.2) = BSIZE) ∧ ¬ is_log l w.1) ws ∧
  Z.of_nat (length ws) ≤ MAXOPBLOCKS.

Section Run.
Context {D : Type} {BD : BlockDevice D} {BDL : BlockDeviceLaws D}.
Context {P : Type} {WU : WakeUp P} (log_chan : Z).

(** One file system operation that changes the blocks [ws]. *)
Definition run_tx (l : Log) (ws : list (Z * block)) (s : bstate D) (procs : P) : outcome (Log * bstate D * P) :=
  r ← begin_op l;
  match r with
  | None => wait_forever
  | Some l =>
      '(l, s) ← tx_body (log_dev l) l ws s;
      end_op log_chan l s procs
  end.

Definition one_op (l : Log) (h : LogHeader) : Log := mkLog (log_start l) (log_size l) (log_dev l) 1 false h.
Definition no_op (l : Log) (h : LogHeader) : Log := mkLog (log_start l) (log_size l) (log_dev l) 0 false h.

Lemma begin_op_idle l : outstanding l = 0 → committing l = false → lh_len (lh l) = 0 → begin_op l = Done (Some (one_op l (lh l))).
Proof using. intros Ho Hc Hl. unfold begin_op. rewrite Hc, Ho, Hl. done. Qed.

Lemma same_start_logged l l' bns : lh l = lh l' → logged l bns → logged l' bns.
Proof using. unfold logged. by intros ->. Qed.

(** The last operation commits. *)
Lemma end_op_ok l h s (procs : P) c bns :
  log_placed l → quiet (log_dev l) s c bns → logged (one_op l h) bns → blocks_ok l bns →
  ∃ h' s', end_op log_chan (one_op l h) s procs = Done (no_op l h', s', wake_up log_chan procs) ∧
    lh_ok h' ∧ lh_len h' = 0 ∧
    ((bns = [] ∧ disk s' = disk s ∧ quiet (log_dev l) s' c []) ∨
     (disk s' = writes (disk s) (commit_writes (one_op l h) c bns) ∧
      quiet (log_dev l) s' (upds c (commit_writes (one_op l h) c bns)) [])).
Proof using BDL.
  intros [Hd Hs He Hz] Hq Hlg Hok. unfold end_op. change (u32sub (outstanding (one_op l h)) 1) with (Done 0).
  cbn [mbind outcome_bind one_op committing log_start log_size log_dev lh]. cbn [Z.eqb].
  pose proof Hlg as (Hlh & Hlen & _). cbn [lh one_op] in Hlh, Hlen.
  destruct (decide (bns = [])) as [->|Hne].
  - unfold commit. cbn [committing negb lh]. rewrite Hlen. cbn [length Z.of_nat Z.ltb Z.compare mbind outcome_bind].
    exists h, s. split; [done|]. split; [done|]. split; [done|]. by left.
  - destruct (commit_ok (log_dev l) (mkLog (log_start l) (log_size l) (log_dev l) 0 true h) eq_refl Hs He s c bns) as (s' & -> & Hd' & Hq'); [done..|].
    cbn [mbind outcome_bind]. exists (mkLh 0 (lh_blocknos h)), s'. split; [done|].
    split; [destruct Hlh as (? & ? & ?); by split_and!|]. split; [done|]. by right.
Qed.

Lemma tx_logs l ws s :
  log_idle l s → tx_ok l ws → let bns := foldl log_add [] ws.*1 in
  ∃ h s', tx_body (log_dev l) (one_op l (lh l)) ws s = Done (one_op l h, s') ∧ disk s' = disk s ∧
    quiet (log_dev l) s' (upds (dev_read (disk s)) ws) bns ∧ logged (one_op l h) bns ∧ blocks_ok l bns.
Proof using BDL.
  intros [Hp Ho Hc Hlh Hl Hq Hh] [Hws Hn] bns. apply Forall_and in Hws as [Hws1 Hws2].
  destruct (tx_body_ok (log_dev l) ws (one_op l (lh l)) s (dev_read (disk s)) []) as (h & s1 & E & Hd & Hq1 & Hlg).
  - split; [done|]. by split.
  - done.
  - done.
  - done.
  - unfold LOGSIZE, MAXOPBLOCKS in *. simpl. lia.
  - apply Hp.
  - exists h, s1. split; [exact E|]. split; [done|]. split; [done|]. split; [done|]. unfold blocks_ok. split_and!.
    + apply NoDup_adds, NoDup_nil_2.
    + intros n [?%elem_of_nil|Hin]%elem_of_adds; [done|]. apply list_elem_of_fmap in Hin as (w & -> & Hw).
      by apply (proj1 (Forall_forall (λ w, ¬ is_log l w.1) ws) Hws2).
    + pose proof (length_adds ws.*1 []) as Hle. rewrite length_fmap in Hle. fold bns in Hle. unfold LOGSIZE, MAXOPBLOCKS in *. simpl in Hle. lia.
Qed.

(** What a transaction does: it ends, its writes are [none] or those of a
    commit, and the log is idle again. *)
Lemma run_tx_spec l ws s (procs : P) :
  log_idle l s → tx_ok l ws → let bns := foldl log_add [] ws.*1 in
  ∃ h h' s', run_tx l ws s procs = Done (no_op l h', s', wake_up log_chan procs) ∧
    lh_ok h' ∧ lh_len h' = 0 ∧ logged (one_op l h) bns ∧ blocks_ok l bns ∧
    quiet (log_dev l) s' (dev_read (disk s')) [] ∧
    (∀ n, n ∉ bns → upds (dev_read (disk s)) ws n = dev_read (disk s) n) ∧
    (∀ n, Z.of_nat (length (upds (dev_read (disk s)) ws n)) = BSIZE) ∧
    ((bns = [] ∧ disk s' = disk s) ∨
     disk s' = writes (disk s) (commit_writes (one_op l h) (upds (dev_read (disk s)) ws) bns)).
Proof using BDL.
  intros Hi Ht bns. unfold run_tx. pose proof Hi as [Hp Ho Hc Hlh Hl Hq Hh]. rewrite begin_op_idle by done.
  cbn [mbind outcome_bind]. destruct (tx_logs l ws s Hi Ht) as (h & s1 & E & Hd1 & Hq1 & Hlg & Hok).
  change (log_dev (one_op l (lh l))) with (log_dev l). rewrite E. cbn [mbind outcome_bind].
  destruct (end_op_ok l h s1 procs _ _ Hp Hq1 Hlg Hok) as (h' & s2 & -> & Hlh' & Hl' & Hcase).
  exists h, h', s2. rewrite Hd1 in Hcase.
  assert (∀ n, Z.of_nat (length (upds (dev_read (disk s)) ws n)) = BSIZE) as Hlen by (intros n; by apply (quiet_len _ _ _ _ n) in Hq1).
  split; [done|]. split; [done|]. split; [done|]. split; [done|]. split; [done|]. split; [|split; [|split]].
  - destruct Hcase as [(Hb & Hd2 & Hq2)|(Hd2 & Hq2)].
    + eapply quiet_ext; [exact Hq2| |done]. intros n. rewrite Hd2. apply upds_ne. intros Hin.
      assert (n ∈ foldl log_add [] ws.*1) as Hx by (apply elem_of_adds; by right). rewrite Hb in Hx. by apply elem_of_nil in Hx.
    + eapply quiet_ext; [exact Hq2| |done]. intros n. by apply (quiet_clean _ _ _ _ n) in Hq2; [|apply not_elem_of_nil].
  - intros n Hn. apply upds_ne. intros Hin. apply Hn, elem_of_adds. by right.
  - done.
  - destruct Hcase as [(Hb & Hd2 & _)|(Hd2 & _)]; [by left|by right].
Qed.
End Run.

(** ** Recovery *)

Section RecoverBoot.
Context {D : Type} {BD : BlockDevice D} {BDL : BlockDeviceLaws D}.

Lemma take_length_take {A} k (x : list A) : take (length (take k x)) x = take k x.
Proof using.
  rewrite length_take. destruct (decide (k ≤ length x)%nat); [by rewrite Nat.min_l|].
  rewrite Nat.min_r by lia. rewrite firstn_all. by rewrite take_ge by lia.
Qed.

Lemma head_placed l l' c : log_start l = log_start l' → head_empty l c → head_empty l' c.
Proof using. unfold head_empty, disk_head. by intros ->. Qed.

(** Recovery ends with an empty log, and installs what the log holds. *)
Lemma recover_boot l (d : D) :
  log_placed l → head_ok l (dev_read d) →
  ∃ l' s', recover (rebooted l) (boot d) = Done (l', s') ∧ log_start l' = log_start l ∧ log_idle l' s' ∧
    same_data l (dev_read (disk s')) (recovered l (dev_read d)) ∧
    (disk s' = d ∨ disk s' = writes d (recover_writes l (dev_read d) (pending l (dev_read d)))).
Proof using BDL.
  intros Hp Hok. pose proof Hp as [Hd Hs He Hz]. pose proof Hok as (Hlh & Hlen & Hb).
  pose proof (boot_quiet (log_dev l) d Hd) as Hq.
  destruct (decide (lh_len (disk_head l (dev_read d)) = 0)) as [H0|H0].
  - destruct (recover_empty (log_dev l) (rebooted l) eq_refl (boot d) _ Hq H0) as (s' & -> & Hd' & Hq'). cbn [disk boot] in Hd'.
    eexists _, s'. split; [done|]. split; [done|]. rewrite Hd', recovered_empty by done. split; [|split; [done|by left]].
    constructor; try done; by rewrite Hd'.
  - assert (pending l (dev_read d) ≠ []) as Hne by (intros Hn; rewrite Hn in Hlen; done).
    destruct (recover_ok (log_dev l) (rebooted l) eq_refl Hs He (boot d) (dev_read d) (pending l (dev_read d)) Hq) as (s' & -> & Hd' & Hq').
    + split; [done|]. split; [done|]. apply take_length_take.
    + done.
    + done.
    + set (ws := recover_writes l (dev_read d) (pending l (dev_read d))).
      assert (∀ n, dev_read (disk s') n = upds (dev_read d) ws n) as Hrd.
      { intros n. rewrite Hd'. apply read_writes, recover_writes_len. intros m. apply dev_read_length. }
      destruct (recover_done l (dev_read d) Hok) as [Hem Hsd]; [intros m; apply dev_read_length|].
      eexists _, s'. split; [done|]. split; [done|]. split; [|split; [|by right]].
      * constructor; try done.
        { destruct Hlh as (? & ? & ?). by split_and!. }
        { eapply quiet_ext; [exact Hq'| |done]. intros n. symmetry. apply Hrd. }
        { unfold head_empty, disk_head in *. cbn [log_start]. by rewrite Hrd. }
      * intros n Hn. rewrite Hrd. by apply Hsd.
Qed.
End RecoverBoot.

(** ** The theorems *)

Lemma idle_no_op {D} `{BlockDevice D} l h (s : bstate D) :
  log_placed l → lh_ok h → lh_len h = 0 → quiet (log_dev l) s (dev_read (disk s)) [] →
  head_empty l (dev_read (disk s)) → log_idle (no_op l h) s.
Proof. intros [? ? ? ?] Hh Hl Hq He. by repeat (constructor; try done). Qed.

Lemma head_empty_ext l c c' : (∀ n, c n = c' n) → head_empty l c → head_empty l c'.
Proof. intros Hc. unfold head_empty, disk_head. by rewrite Hc. Qed.

(** Recovery from a disk whose blocks are known. *)
Lemma recover_boot_from {D} `{BlockDeviceLaws D} l (d : D) e :
  log_placed l → (∀ n, dev_read d n = e n) → head_ok l e →
  ∃ l' s', recover (rebooted l) (boot d) = Done (l', s') ∧ log_idle l' s' ∧
    same_data l (dev_read (disk s')) (recovered l e).
Proof.
  intros Hp Hrd Hok. pose proof (head_ok_ext l e _ (λ n, eq_sym (Hrd n)) Hok) as Hok'.
  destruct (recover_boot l d Hp Hok') as (lr & sr & Er & _ & Hir & Hsr & _). exists lr, sr. split; [done|]. split; [done|].
  intros n Hn. rewrite Hsr by done. by apply recovered_ext.
Qed.

(** C2: a transaction of at most [MAXOPBLOCKS] blocks runs to its end, leaves
    its blocks on disk and the log idle; and wherever the power fails after it
    has started, the next boot's recovery finds all of its blocks or none of
    them, and leaves an idle log. *)
Theorem tx_crash_atomic {P} `{WakeUp P} log_chan l ws (s : bstate tdisk) (procs : P) :
  log_idle l s → tx_ok l ws →
  let old := dev_read (disk s) in let new := upds old ws in
  ∃ l' s', run_tx log_chan l ws s procs = Done (l', s', wake_up log_chan procs) ∧
    log_idle l' s' ∧ same_data l (dev_read (disk s')) new ∧
    (∀ k, (length (t_trace (disk s)) ≤ k)%nat →
      ∃ lr sr, recover (rebooted l) (boot (crash k (disk s'))) = Done (lr, sr) ∧ log_idle lr sr ∧
        (same_data l (dev_read (disk sr)) old ∨ same_data l (dev_read (disk sr)) new)).
Proof.
  intros Hi Ht old new. pose proof Hi as [Hp _ _ _ _ _ Hh].
  destruct (run_tx_spec log_chan l ws s procs Hi Ht) as (h & h' & s' & E & Hlh' & Hl' & Hlg & Hok & Hq' & Hcl & Hlen & Hcase).
  set (bns := foldl log_add [] ws.*1) in *. fold old in Hcl, Hlen, Hcase, Hh. fold new in Hcl, Hlen, Hcase.
  exists (no_op l h'), s'. split; [exact E|]. destruct Hcase as [[Hb Hd]|Hd].
  - assert (∀ n, new n = old n) as Hsame by (intros n; apply Hcl; rewrite Hb; apply not_elem_of_nil).
    split; [apply idle_no_op; try done; by rewrite Hd|]. split; [intros n _; by rewrite Hd, Hsame|]. intros k Hk.
    destruct (recover_boot_from l (crash k (disk s')) old Hp) as (lr & sr & Er & Hir & Hsr).
    { intros n. unfold crash. rewrite Hd, take_ge by done. by destruct (disk s). }
    { by apply head_empty_ok. }
    exists lr, sr. rewrite recovered_empty in Hsr by done. auto.
  - pose proof (commit_writes_len (one_op l h) new bns Hlg Hlen) as Hwl.
    destruct (commit_done (one_op l h) old new bns Hlg Hok Hcl Hlen) as [Hem Hsd].
    assert (∀ n, dev_read (disk s') n = upds old (commit_writes (one_op l h) new bns) n) as Hrd
      by (intros n; rewrite Hd; by apply read_writes).
    split; [apply idle_no_op; try done; eapply head_empty_ext; [intros n; symmetry; apply Hrd|exact Hem]|].
    split; [intros n Hn; rewrite Hrd; by apply Hsd|]. intros k Hk. rewrite Hd, crash_writes by done. set (j := (k - _)%nat).
    destruct (commit_crash (one_op l h) old new bns Hlg Hok Hcl Hlen Hh j) as [Hok' Hor].
    destruct (recover_boot_from l (writes (disk s) (take j (commit_writes (one_op l h) new bns)))
      (upds old (take j (commit_writes (one_op l h) new bns))) Hp) as (lr & sr & Er & Hir & Hsr);
      [intros n; by apply read_writes, Forall_take|exact Hok'|].
    exists lr, sr. split; [done|]. split; [done|]. destruct Hor as [Hor|Hor]; [left|right]; by etrans.
Qed.

(** C26: recovery may be interrupted any number of times: wherever the power
    fails during recovery, recovering again gives the blocks the first recovery
    was going to leave. *)
Theorem recover_restartable l (d : tdisk) :
  log_placed l → head_ok l (dev_read d) →
  ∃ lr sr, recover (rebooted l) (boot d) = Done (lr, sr) ∧ log_idle lr sr ∧
    (∀ k, (length (t_trace d) ≤ k)%nat →
      head_ok l (dev_read (crash k (disk sr))) ∧
      (∃ lr' sr', recover (rebooted l) (boot (crash k (disk sr))) = Done (lr', sr') ∧ log_idle lr' sr' ∧
        same_data l (dev_read (disk sr')) (dev_read (disk sr)))).
Proof.
  intros Hp Hok. destruct (recover_boot l d Hp Hok) as (lr & sr & Er & _ & Hir & Hsr & Hd).
  exists lr, sr. split; [done|]. split; [done|]. intros k Hk.
  set (ws := recover_writes l (dev_read d) (pending l (dev_read d))) in *.
  assert (∃ j, ∀ n, dev_read (crash k (disk sr)) n = upds (dev_read d) (take j ws) n) as [j Hj].
  { destruct Hd as [-> | ->].
    - exists 0%nat. intros n. unfold crash. rewrite take_ge by done. by destruct d.
    - exists (k - length (t_trace d))%nat. intros n. rewrite crash_writes by done.
      apply read_writes, Forall_take, recover_writes_len. intros m. apply dev_read_length. }
  destruct (recover_crash l (dev_read d) Hok (dev_read_length d) j) as [Hok' Hsd].
  split; [eapply head_ok_ext; [intros n; symmetry; apply Hj|done]|].
  destruct (recover_boot_from l (crash k (disk sr)) _ Hp Hj Hok') as (lr' & sr' & Er' & Hir' & Hsr').
  exists lr', sr'. split; [done|]. split; [done|]. etrans; [exact Hsr'|]. etrans; [exact Hsd|]. by symmetry.
Qed.

(** ** Admission *)

(** What [begin_op] checks before it admits an operation. *)
Lemma begin_op_admits l l' : 0 ≤ outstanding l → 0 ≤ lh_len (lh l) → begin_op l = Done (Some l') →
  l' = mkLog (log_start l) (log_size l) (log_dev l) (outstanding l + 1) (committing l) (lh l) ∧
  1 + lh_len (lh l) + (outstanding l + 1) * MAXOPBLOCKS ≤ LOGSIZE.
Proof.
  intros Ho Hl. unfold begin_op. destruct (committing l); [done|]. unfold u32add, umul, uadd, chk.
  destruct (in_width 32 (outstanding l + 1)); [|done]. cbn [mbind outcome_bind]. destruct (in_width 64 ((outstanding l + 1) * MAXOPBLOCKS)); [|done]. cbn [mbind outcome_bind].
  destruct (in_width 64 (1 + lh_len (lh l))); [|done]. cbn [mbind outcome_bind]. destruct (in_width 64 _); [|done]. cbn [mbind outcome_bind].
  destruct (Z.ltb_spec LOGSIZE (1 + lh_len (lh l) + (outstanding l + 1) * MAXOPBLOCKS)); [done|]. by intros [= <-].
Qed.

Lemma adds_fresh ns : ∀ bns, NoDup (bns ++ ns) → foldl log_add bns ns = bns ++ ns.
Proof.
  induction ns as [|n ns IH]; intros bns Hnd; cbn [foldl]; [by rewrite app_nil_r|]. unfold log_add at 2. rewrite decide_False.
  - rewrite IH; rewrite <- app_assoc; done.
  - apply NoDup_app in Hnd as (_ & Hnd & _). intros Hin. by apply (Hnd n Hin), list_elem_of_here.
Qed.

Section Admission.
Context {D : Type} {BD : BlockDevice D} {BDL : BlockDeviceLaws D}.

Lemma tx_body_app dev l ws ws' (s : bstate D) : tx_body dev l (ws ++ ws') s = ('(l, s) ← tx_body dev l ws s; tx_body dev l ws' s).
Proof using.
  revert l s. induction ws as [|[n v] ws IH]; intros l s; [done|]. cbn [app tx_body]. destruct (tx_write dev l n v s) as [[l1 s1]| | |]; [|done..]. apply IH.
Qed.

(** The write that finds the log full. *)
Lemma tx_write_full dev l (s : bstate D) c bns n v :
  logged l bns → quiet dev s c bns → n ∉ bns → 1 ≤ outstanding l → Z.of_nat (length bns) = LOGSIZE - 2 → LOGSIZE ≤ log_size l →
  tx_write dev l n v s = Panic "log: not enough space for this transaction".
Proof using BDL.
  intros Hlg Hq Hn Hout Hlen Hsz. unfold tx_write. destruct (open1 dev s c bns n Hq) as (b & s1 & pl & -> & _ & _ & Hh).
  { change NBUF with 30%nat. unfold LOGSIZE, MAXOPBLOCKS in *. lia. }
  cbn [mbind outcome_bind]. pose proof Hlg as (_ & Hll & _). pose proof Hh as (_ & _ & Hbn & _ & _). unfold log_write, read_blockno. rewrite Hll, Hlen.
  rewrite !u32add_ok by (by vm_compute). cbn [mbind outcome_bind]. change (LOGSIZE <=? LOGSIZE - 2 + 1) with false. cbn [orb].
  rewrite (proj2 (Z.leb_gt _ _)) by lia. rewrite (proj2 (Z.ltb_ge _ _)) by lia.
  rewrite Hbn, (find_logged_ok l bns), decide_False by (done || lia). done.
Qed.
End Admission.

(** C39 The admission check of [begin_op] is one block too generous.  An operation
    is admitted when the log can take [MAXOPBLOCKS] new blocks for each running
    operation.  Whatever the log already holds, as long as the operations that run
    after an admission keep to that budget all their writes are logged, unless the
    blocks of the log and theirs are together exactly [LOGSIZE - 1]: then the last
    write panics. *)
Theorem log_admission_gap {D} {BD : BlockDevice D} {BDL : BlockDeviceLaws D} l l' (s : bstate D) c bns ws
    (Hlog : logged l bns) (Hcache : quiet (log_dev l) s c bns) (Hsize : LOGSIZE ≤ log_size l) (Hout : 0 ≤ outstanding l)
    (Hbegin : begin_op l = Done (Some l')) (Hfresh : NoDup (bns ++ ws.*1))
    (Hws : Forall (λ w, 0 ≤ w.1 < 2 ^ 32 ∧ Z.of_nat (length w.2) = BSIZE) ws)
    (Hbudget : Z.of_nat (length ws) ≤ outstanding l' * MAXOPBLOCKS) :
  let r := tx_body (log_dev l) l' ws s in
  if Z.of_nat (length bns + length ws) =? LOGSIZE - 1 then r = Panic "log: not enough space for this transaction"
  else ∃ h s', r = Done (with_lh l' h, s') ∧ logged (with_lh l' h) (bns ++ ws.*1) ∧ quiet (log_dev l) s' (upds c ws) (bns ++ ws.*1).
Proof.
  pose proof Hlog as ((Hr & _) & Hlen & _). destruct (begin_op_admits l l' Hout ltac:(lia) Hbegin) as [-> Hadm]. cbn [outstanding] in Hbudget.
  set (l' := mkLog _ _ _ _ _ _). assert (logged l' bns) as Hlog' by done. intros r. destruct (Z.eqb_spec (Z.of_nat (length bns + length ws)) (LOGSIZE - 1)) as [E|E].
  - destruct ws as [|[n v] ws1 _] using rev_ind; [unfold LOGSIZE, MAXOPBLOCKS in *; cbn in E; lia|]. rewrite length_app in E. cbn [length] in E.
    unfold r. rewrite tx_body_app. apply Forall_app in Hws as [Hws1 _]. rewrite fmap_app, app_assoc in Hfresh.
    destruct (tx_body_ok (log_dev l) ws1 l' s c bns Hlog' Hcache Hws1) as (h & s1 & -> & _ & Hq1 & Hlg1); [cbn; lia|lia|done|].
    apply NoDup_app in Hfresh as (Hnd & Hn & _). rewrite (adds_fresh _ _ Hnd) in Hq1, Hlg1. rewrite bind_Done_l. cbn [tx_body].
    rewrite (tx_write_full (log_dev l) _ s1 (upds c ws1) (bns ++ ws1.*1)); [done|done|done| |cbn; lia|rewrite length_app, length_fmap; lia|done].
    intros Hin. by apply (Hn n Hin), list_elem_of_singleton.
  - destruct (tx_body_ok (log_dev l) ws l' s c bns Hlog' Hcache Hws) as (h & s1 & Hrun & _ & Hq1 & Hlg1); [cbn; lia| |done|].
    { unfold LOGSIZE, MAXOPBLOCKS in *. lia. }
    rewrite (adds_fresh _ _ Hfresh) in Hq1, Hlg1. by exists h, s1.
Qed.

(** ** Witnesses *)

Definition demo_block (x : Z) : block := replicate (Z.to_nat BSIZE) x.
Definition demo_disk : tdisk := mkTd (λ _, demo_block 0) [].
Definition demo_log : Log := mkLog 2 LOGSIZE 1 0 false (lh log_uninit).
Definition demo_writes (from count : Z) : list (Z * block) := (λ n, (n, demo_block n)) <$> seqZ from count.

#[local] Instance demo_wake : WakeUp unit := λ _ p, p.

Lemma demo_placed : log_placed demo_log.
Proof. by split; vm_compute. Defined.

Lemma demo_idle : log_idle demo_log (boot demo_disk).
Proof.
  assert (lh_ok (lh demo_log)) as Hlh.
  { split; [by vm_compute|]. split; [by vm_compute|]. cbn. apply Forall_replicate. lia. }
  constructor; [apply demo_placed|done|done|done|done| |].
  - by apply boot_quiet.
  - assert (disk_head demo_log (dev_read demo_disk) = lh demo_log) as E by (by vm_compute).
    unfold head_empty. change (disk (boot demo_disk)) with demo_disk. by rewrite E.
Defined.

Lemma tx_crash_atomic_witness :
  ∃ l' s', run_tx 0 demo_log [(100, demo_block 7); (101, demo_block 8)] (boot demo_disk) tt = Done (l', s', tt) ∧
    (∀ k, ∃ lr sr, recover (rebooted demo_log) (boot (crash k (disk s'))) = Done (lr, sr)).
Proof.
  destruct (tx_crash_atomic 0 demo_log [(100, demo_block 7); (101, demo_block 8)] (boot demo_disk) tt demo_idle)
    as (l' & s' & E & _ & _ & Hk).
  - split; [|by vm_compute]. repeat (apply Forall_cons; split); [..|by apply Forall_nil];
      (split; [split; by vm_compute|]); unfold is_log; change (log_start demo_log) with 2; unfold LOGSIZE, MAXOPBLOCKS; cbn [fst]; lia.
  - exists l', s'. split; [exact E|]. intros k. destruct (Hk k) as (lr & sr & Er & _); [|by exists lr, sr].
    change (t_trace _) with (@nil (Z * block)). simpl. lia.
Defined.

(** A disk on which the power failed after the header of a transaction was written:
    block 100 is in the log and not yet at home. *)
Definition demo_failed : tdisk :=
  mkTd (λ n, if n =? 2 then put_bytes (demo_block 0) 0 (encode_lh (mkLh 1 (100 :: replicate 28 0)))
             else if n =? 3 then demo_block 7 else demo_block 0) [].

Lemma demo_failed_head : head_ok demo_log (dev_read demo_failed).
Proof.
  assert (disk_head demo_log (dev_read demo_failed) = mkLh 1 (100 :: replicate 28 0)) as E by by vm_compute. unfold head_ok, pending. rewrite E. cbn [lh_len lh_blocknos].
  split; [|split].
  - split; [by vm_compute|]. split; [by vm_compute|]. constructor; [lia|]. apply Forall_replicate. lia.
  - done.
  - split; [apply NoDup_singleton|]. split; [|by vm_compute]. intros n ->%list_elem_of_singleton. unfold is_log. by vm_compute; intros [_ ?].
Qed.

Lemma recover_restartable_witness :
  ∃ lr sr, recover (rebooted demo_log) (boot demo_failed) = Done (lr, sr) ∧ dev_read (disk sr) 100 = demo_block 7 ∧
    ∃ lr' sr', recover (rebooted demo_log) (boot (crash 1 (disk sr))) = Done (lr', sr') ∧ dev_read (disk sr') 100 = demo_block 7.
Proof.
  destruct (recover_restartable demo_log demo_failed demo_placed demo_failed_head) as (lr & sr & Er & _ & Hk).
  destruct (Hk 1%nat ltac:(cbn; lia)) as (_ & lr' & sr' & Er' & _ & Hsame).
  assert (dev_read (disk sr) 100 = demo_block 7) as H100.
  { assert (match recover (rebooted demo_log) (boot demo_failed) with Done (_, s) => bool_decide (dev_read (disk s) 100 = demo_block 7) | _ => false end = true) as Hc
      by by vm_compute. rewrite Er in Hc. by apply bool_decide_eq_true in Hc. }
  exists lr, sr. split; [exact Er|]. split; [exact H100|]. exists lr', sr'. split; [exact Er'|]. rewrite Hsame; [exact H100|].
  unfold is_log. by vm_compute; intros [_ ?].
Defined.

Lemma demo_writes_ok from count : 0 ≤ from → from + count < 256 →
  Forall (λ w : Z * block, 0 ≤ w.1 < 2 ^ 32 ∧ Z.of_nat (length w.2) = BSIZE) (demo_writes from count).
Proof.
  intros Hf Hc. apply Forall_fmap, Forall_forall. intros n Hn%elem_of_seqZ. cbn. split; [lia|]. unfold demo_block. by rewrite length_replicate.
Qed.

(** Nine blocks are logged by an operation that still runs; a second one is
    admitted, and both write ten blocks. *)
Lemma log_admission_gap_witness :
  ∃ l s l', tx_body 1 (one_op demo_log (lh demo_log)) (demo_writes 100 9) (boot demo_disk) = Done (l, s) ∧ begin_op l = Done (Some l') ∧
    tx_body 1 l' (demo_writes 200 20) s = Panic "log: not enough space for this transaction".
Proof.
  destruct (tx_body_ok 1 (demo_writes 100 9) (one_op demo_log (lh demo_log)) (boot demo_disk) (dev_read demo_disk) []) as (h & s & E & _ & Hq & Hlg).
  - split; [apply (li_lh _ _ demo_idle)|]. by split.
  - apply (li_quiet _ _ demo_idle).
  - by apply demo_writes_ok.
  - done.
  - by vm_compute.
  - done.
  - pose proof Hlg as (_ & Hlen & _). assert (foldl log_add [] (demo_writes 100 9).*1 = seqZ 100 9) as Hb by (by vm_compute). rewrite Hb in Hq, Hlg, Hlen.
    eexists _, s, _. split; [exact E|]. split.
    + unfold begin_op. cbn [committing with_lh one_op outstanding]. rewrite Hlen. reflexivity.
    + apply (log_admission_gap (with_lh (one_op demo_log (lh demo_log)) h) _ s _ (seqZ 100 9) (demo_writes 200 20) Hlg Hq).
      * by vm_compute.
      * done.
      * unfold begin_op. cbn [committing with_lh one_op outstanding]. rewrite Hlen. reflexivity.
      * by apply (bool_decide_unpack _); vm_compute.
      * by apply demo_writes_ok.
      * by vm_compute.
Defined.
