(* ===== verification/Bitmap.v ===== *)
(** * Allocation of blocks and inodes on disk

    Models [fs/bitmap.rs].  The state is the super block, the log and the
    buffer cache with its disk. *)

From Stdlib Require Import ZArith Lia.
From stdpp Require Import base gmap strings numbers list.
From S2P Require Import Prelude Bytes Bio DiskLayout Log.

Local Open Scope Z_scope.

Record dstate (D : Type) := mkD {
  d_sb : SuperBlock;
  d_log : Log;
  d_b : bstate D;
}.
Global Arguments mkD {D}.
Global Arguments d_sb {D}.
Global Arguments d_log {D}.
Global Arguments d_b {D}.

Definition locate_inode_offset (inum : Z) : Z := inum mod IPB.

(** A byte or structure inside of a block; beyond the block there is none. *)
Definition byte_at (raw : block) (i : Z) : outcome Z :=
  match raw !! Z.to_nat i with Some v => Done v | None => UB "access outside of the block" end.

Section Ops.
Context {D : Type} {BD : BlockDevice D} {BF : BitField}.

Definition with_b (d : dstate D) (s : bstate D) : dstate D := mkD (d_sb d) (d_log d) s.

(** [BCACHE.bread], [LOG.write] and the end of a buffer's life. *)
Definition dread (dev blockno : Z) (d : dstate D) : outcome (Buf * dstate D) :=
  '(buf, s) ← bread dev blockno (d_b d);
  Done (buf, with_b d s).
Definition draw (buf : Buf) (d : dstate D) : outcome block := raw_data buf (d_b d).
Definition dstore (buf : Buf) (v : block) (d : dstate D) : dstate D := with_b d (store_data buf v (d_b d)).
Definition dlog (buf : Buf) (d : dstate D) : outcome (dstate D) :=
  '(l, s) ← log_write (d_log d) buf (d_b d);
  Done (mkD (d_sb d) l s).
Definition ddrop (buf : Buf) (d : dstate D) : outcome (dstate D) :=
  s ← drop_buf buf (d_b d);
  Done (with_b d s).

Definition bfree (dev blockno : Z) (d : dstate D) : outcome (dstate D) :=
  bm_blockno ← bitmap_blockno (d_sb d) blockno;
  let bm_offset := blockno mod BPB in
  let index := bm_offset / 8 in
  let bit := bm_offset mod 8 in
  '(buf, d) ← dread dev bm_blockno d;
  raw ← draw buf d;
  byte ← byte_at raw index;
  if negb (get_bit byte bit) then Panic "bitmap: double freeing a block"
  else
    let d := dstore buf (put_bytes raw index [set_bit byte bit false]) d in
    dlog buf d.

(** The inner loop of [balloc]: the bit found, or [None] at the end. *)
Definition balloc_scan (b sb_size : Z) (raw : block) : outcome (option Z) :=
  while_fuel (S (Z.to_nat BPB)) (λ bi,
    if bi <? BPB then
      n ← u32add b bi;
      if n <? sb_size then
        bi ← u32add bi 1;
        buf_val ← byte_at raw (bi / 8);
        if buf_val =? 0 then Done (inl (Some bi)) else Done (inr bi)
      else Done (inl None)
    else Done (inl None)) 0.

Definition balloc (dev : Z) (d : dstate D) : outcome (Z * dstate D) :=
  sb_size ← size (d_sb d);
  while_fuel (S (S (Z.to_nat (sb_size / BPB)))) (λ '(b, d),
    if b <? sb_size then
      bm_blockno ← bitmap_blockno (d_sb d) b;
      '(buf, d) ← dread dev bm_blockno d;
      raw ← draw buf d;
      r ← balloc_scan b sb_size raw;
      match r with
      | Some bi =>
          let m := Z.shiftl 1 (bi mod 8) in
          let d := dstore buf (put_bytes raw (bi / 8) [m]) d in
          d ← dlog buf d;
          n ← u32add b bi;
          Done (inl (n, d))
      | None =>
          d ← ddrop buf d;
          b ← u32add b BPB;
          Done (inr (b, d))
      end
    else Panic "balloc: out of the block ranges.") (0, d).

(** The inode at an index of a block. *)
Definition get_dinode (raw : block) (offset : Z) : outcome DiskInode :=
  decode_dinode (get_bytes raw (DISK_INODE_SIZE * offset) DISK_INODE_SIZE).
Definition put_dinode (raw : block) (offset : Z) (di : DiskInode) : block :=
  put_bytes raw (DISK_INODE_SIZE * offset) (encode_dinode di).

(** One inode of [inode_alloc] and [InodeCache::alloc]: allocate it if it is free. *)
Definition try_inode (dev inum : Z) (t : InodeType) (d : dstate D) : outcome (bool * dstate D) :=
  blockno ← locate_inode (d_sb d) inum;
  let offset := locate_inode_offset inum in
  '(buf, d) ← dread dev blockno d;
  raw ← draw buf d;
  dinode ← get_dinode raw offset;
  match try_alloc dinode t with
  | Some dinode =>
      d ← dlog buf (dstore buf (put_dinode raw offset dinode) d);
      Done (true, d)
  | None =>
      d ← ddrop buf d;
      Done (false, d)
  end.

Definition inode_alloc (dev : Z) (t : InodeType) (d : dstate D) : outcome (Z * dstate D) :=
  size ← ninodes (d_sb d);
  r ← for_range_until 1 size (λ inum d,
    '(ok, d) ← try_inode dev inum t d;
    if (ok : bool) then Done (inl (inum, d)) else Done (inr d)) d;
  match r with
  | inl x => Done x
  | inr _ => Panic "not enough inode to alloc"
  end.
End Ops.
