(* ===== verification/Inode.v ===== *)
(** * Inodes

    Models [fs/inode.rs]: the cache of inodes, the block map, reading and
    writing of file contents, directories and path names.  A handle [Inode] is
    a value; the places where Rust drops one are calls of [put].  [lock] hands
    out the data of an inode and [unlock] puts it back when the guard is
    dropped.  The copies between the kernel and the caller's memory are the
    interface [Copier]; a copy into a block that fails leaves the block as it
    is. *)

From Stdlib Require Import ZArith Lia.
From stdpp Require Import base gmap strings numbers list.
From S2P Require Import Prelude Bytes Bio DiskLayout Log Bitmap PhysMem.

Local Open Scope Z_scope.

(** [copy_from_kernel] and [copy_to_kernel]: the bytes on the kernel's side are
    a list. *)
Class Copier (M : Type) := {
  copy_from_kernel : bool → Z → list Z → M → outcome (result unit * M);
  copy_to_kernel : bool → Z → Z → M → outcome (result (list Z) * M);
}.

(** A structure of the kernel as the other side of a copy, by its offset. *)
Global Instance local_copier : Copier (list Z) := {|
  copy_from_kernel _ dst bytes m := Done (Ok tt, put_bytes m dst bytes);
  copy_to_kernel _ src len m := Done (Ok (get_bytes m src len), m);
|}.

(** ** Data *)

Record InodeMeta := mkMeta {
  im_dev : Z;
  im_blockno : Z;
  im_inum : Z;
  im_refs : Z;
}.

Definition new_meta : InodeMeta := mkMeta 0 0 0 0.

Record InodeData := mkData {
  id_valid : bool;
  id_dev : Z;
  id_inum : Z;
  id_dinode : DiskInode;
}.

Definition new_data : InodeData := mkData false 0 0 new_dinode.

(** The data with the state of its sleeplock. *)
Record InodeCache := mkIc {
  ic_meta : list InodeMeta;
  ic_data : list (bool * InodeData);
}.

Definition new_icache : InodeCache :=
  mkIc (replicate (Z.to_nat NINODE) new_meta) (replicate (Z.to_nat NINODE) (false, new_data)).

Record Inode := mkInode {
  i_dev : Z;
  i_inum : Z;
  i_index : Z;
}.

Definition with_dinode (self : InodeData) (di : DiskInode) : InodeData :=
  mkData (id_valid self) (id_dev self) (id_inum self) di.
Definition with_itype (di : DiskInode) (t : InodeType) : DiskInode :=
  mkDinode t (di_major di) (di_minor di) (nlink di) (di_size di) (addrs di).
Definition with_nlink (di : DiskInode) (n : Z) : DiskInode :=
  mkDinode (itype di) (di_major di) (di_minor di) n (di_size di) (addrs di).
Definition with_size (di : DiskInode) (n : Z) : DiskInode :=
  mkDinode (itype di) (di_major di) (di_minor di) (nlink di) n (addrs di).
Definition with_addr (di : DiskInode) (i a : Z) : DiskInode :=
  mkDinode (itype di) (di_major di) (di_minor di) (nlink di) (di_size di) (<[Z.to_nat i := a]> (addrs di)).

(** [InodeData::stat]. *)
Definition inode_stat (self : InodeData) : Stat :=
  mkStat (id_dev self) (id_inum self) (itype (id_dinode self)) (nlink (id_dinode self)) (di_size (id_dinode self)).

(** [self.dinode.addrs[i]]. *)
Definition addr_at (self : InodeData) (i : Z) : outcome Z :=
  unwrap "index out of bounds" (addrs (id_dinode self) !! Z.to_nat i).

Section Ops.
Context {D : Type} {BD : BlockDevice D} {BF : BitField}.

(** ** Contents of an inode *)

Definition update (self : InodeData) (d : dstate D) : outcome (dstate D) :=
  n ← locate_inode (d_sb d) (id_inum self);
  '(buf, d) ← dread (id_dev self) n d;
  let offset := locate_inode_offset (id_inum self) in
  raw ← draw buf d;
  dlog buf (dstore buf (put_dinode raw offset (id_dinode self)) d).

Definition truncate (self : InodeData) (inode : Inode) (d : dstate D) : outcome (InodeData * dstate D) :=
  '(self, d) ← for_range 0 NDIRECT (λ i '(self, d),
    a ← addr_at self i;
    if 0 <? a then
      d ← bfree (i_dev inode) a d;
      Done (with_dinode self (with_addr (id_dinode self) i 0), d)
    else Done (self, d)) (self, d);
  a ← addr_at self NDIRECT;
  '(self, d) ← (if 0 <? a then
      '(buf, d) ← dread (i_dev inode) a d;
      raw ← draw buf d;
      d ← for_range 0 NINDIRECT (λ i d,
        let bn := get_u32 raw (4 * i) in
        if 0 <? bn then bfree (i_dev inode) bn d else Done d) d;
      d ← ddrop buf d;
      d ← bfree (i_dev inode) a d;
      Done (with_dinode self (with_addr (id_dinode self) NDIRECT 0), d)
    else Done (self, d));
  let self := with_dinode self (with_size (id_dinode self) 0) in
  d ← update self d;
  Done (self, d).

(** The indirect block of [bmap], allocated if there is none. *)
Definition indirect_block (self : InodeData) (d : dstate D) : outcome (Z * InodeData * dstate D) :=
  a ← addr_at self NDIRECT;
  if a =? 0 then
    '(addr, d) ← balloc (id_dev self) d;
    Done (addr, with_dinode self (with_addr (id_dinode self) NDIRECT addr), d)
  else Done (a, self, d).

Definition bmap (self : InodeData) (offset_bn : Z) (d : dstate D) : outcome (result Z * InodeData * dstate D) :=
  if offset_bn <? NDIRECT then
    a ← addr_at self offset_bn;
    if a =? 0 then
      '(addr, d) ← balloc (id_dev self) d;
      Done (Ok addr, with_dinode self (with_addr (id_dinode self) offset_bn addr), d)
    else Done (Ok a, self, d)
  else if offset_bn <? NINDIRECT + NDIRECT then
    count ← usub offset_bn NDIRECT;
    '(addr, self, d) ← indirect_block self d;
    '(buf, d) ← dread (id_dev self) addr d;
    raw ← draw buf d;
    let addr := get_u32 raw (4 * count) in
    if addr =? 0 then
      '(addr, d) ← balloc (id_dev self) d;
      d ← dlog buf (dstore buf (put_u32 raw (4 * count) addr) d);
      Done (Ok addr, self, d)
    else
      d ← ddrop buf d;
      Done (Ok addr, self, d)
  else Panic "inode bmap: out of range.".

Section Copies.
Context {M : Type} {CP : Copier M}.

(** The state of the loops of [read] and [write]. *)
Record rw_state := mkRw {
  rw_total : Z;
  rw_offset : Z;
  rw_addr : Z;
  rw_basic : Z;
  rw_boff : Z;
  rw_self : InodeData;
  rw_d : dstate D;
  rw_m : M;
}.

(** One block of [read]. *)
Definition read_block (is_user : bool) (count : Z) (st : rw_state) :
    outcome ((result Z * InodeData * dstate D * M) + rw_state) :=
  if rw_total st <? count then
    surplus_len ← usub count (rw_total st);
    '(r, self, d) ← bmap (rw_self st) (rw_basic st mod 2 ^ 32) (rw_d st);
    match r with
    | Err e => Done (inl (Err e, self, d, rw_m st))
    | Ok block_no =>
        '(buf, d) ← dread (id_dev self) block_no d;
        room ← usub BSIZE (rw_boff st);
        let write_len := Misc.min surplus_len room in
        raw ← draw buf d;
        '(c, m) ← copy_from_kernel is_user (rw_addr st) (get_bytes raw (rw_offset st mod BSIZE) write_len) (rw_m st);
        match c with
        | Err _ =>
            d ← ddrop buf d;
            Done (inl (Err "inode read: Fail to either copy out.", self, d, m))
        | Ok _ =>
            d ← ddrop buf d;
            total ← uadd (rw_total st) write_len;
            offset ← uadd (rw_offset st) write_len;
            dst ← uadd (rw_addr st) write_len;
            Done (inr (mkRw total offset dst (offset / BSIZE) (offset mod BSIZE) self d m))
        end
    end
  else Done (inl (Ok (rw_total st), rw_self st, rw_d st, rw_m st)).

Definition inode_read (self : InodeData) (is_user : bool) (dst offset count : Z) (d : dstate D) (m : M) :
    outcome (result Z * InodeData * dstate D * M) :=
  if 2 ^ 32 <=? offset + count then Done (Err "Fail to add count.", self, d, m)
  else if di_size (id_dinode self) <? offset + count then
    Done (Err "inode read: end is more than diskinode's size.", self, d, m)
  else
    while_fuel (S (S (S (Z.to_nat (count / BSIZE))))) (read_block is_user count)
      (mkRw 0 offset dst (offset / BSIZE) (offset mod BSIZE) self d m).

(** One block of [write]. *)
Definition write_block (is_user : bool) (count : Z) (st : rw_state) :
    outcome ((result Z * InodeData * dstate D * M + rw_state) + rw_state) :=
  if rw_total st <? count then
    surplus_len ← usub count (rw_total st);
    '(r, self, d) ← bmap (rw_self st) (rw_basic st mod 2 ^ 32) (rw_d st);
    match r with
    | Err e => Done (inl (inl (Err e, self, d, rw_m st)))
    | Ok block_no =>
        '(buf, d) ← dread (id_dev self) block_no d;
        room ← usub BSIZE (rw_boff st);
        let write_len := Misc.min surplus_len room in
        raw ← draw buf d;
        '(c, m) ← copy_to_kernel is_user (rw_addr st) write_len (rw_m st);
        match c with
        | Err _ =>
            d ← ddrop buf d;
            Done (inl (inl (Err "inode write: Fail to either copy in", self, d, m)))
        | Ok bytes =>
            let d := dstore buf (put_bytes raw (rw_offset st mod BSIZE) bytes) d in
            offset ← uadd (rw_offset st) write_len;
            src ← uadd (rw_addr st) write_len;
            total ← uadd (rw_total st) write_len;
            d ← dlog buf d;
            Done (inr (mkRw total offset src (offset / BSIZE) (offset mod BSIZE) self d m))
        end
    end
  else Done (inl (inr st)).

Definition inode_write (self : InodeData) (is_user : bool) (src offset count : Z) (d : dstate D) (m : M) :
    outcome (result Z * InodeData * dstate D * M) :=
  r ← while_fuel (S (S (S (Z.to_nat (count / BSIZE))))) (write_block is_user count)
    (mkRw 0 offset src (offset / BSIZE) (offset mod BSIZE) self d m);
  match r with
  | inl e => Done e
  | inr st =>
      let self := rw_self st in
      let offset := rw_offset st mod 2 ^ 32 in
      let self := if di_size (id_dinode self) <? offset then with_dinode self (with_size (id_dinode self) offset) else self in
      d ← update self (rw_d st);
      Done (Ok (rw_total st), self, d, rw_m st)
  end.
End Copies.

(** ** The cache *)

Definition meta_at (ic : InodeCache) (i : Z) : outcome InodeMeta :=
  unwrap "index out of bounds" (ic_meta ic !! Z.to_nat i).
Definition set_meta (i : Z) (x : InodeMeta) (ic : InodeCache) : InodeCache :=
  mkIc (<[Z.to_nat i := x]> (ic_meta ic)) (ic_data ic).
Definition set_refs (i n : Z) (x : InodeMeta) (ic : InodeCache) : InodeCache :=
  set_meta i (mkMeta (im_dev x) (im_blockno x) (im_inum x) n) ic.

(** [SleepLock::lock] on the data of an inode, and the end of the guard. *)
Definition lock_idata (i : Z) (ic : InodeCache) : outcome (InodeData * InodeCache) :=
  x ← unwrap "index out of bounds" (ic_data ic !! Z.to_nat i);
  let '(is_locked, idata) := x in
  if (is_locked : bool) then wait_forever
  else Done (idata, mkIc (ic_meta ic) (<[Z.to_nat i := (true, idata)]> (ic_data ic))).
Definition unlock (i : Z) (idata : InodeData) (ic : InodeCache) : InodeCache :=
  mkIc (ic_meta ic) (<[Z.to_nat i := (false, idata)]> (ic_data ic)).

Definition dup (inode : Inode) (ic : InodeCache) : outcome (Inode * InodeCache) :=
  x ← meta_at ic (i_index inode);
  n ← uadd (im_refs x) 1;
  Done (mkInode (i_dev inode) (i_inum inode) (i_index inode), set_refs (i_index inode) n x ic).

(** [put], which is [Drop for Inode]. *)
Definition put (inode : Inode) (ic : InodeCache) (d : dstate D) : outcome (InodeCache * dstate D) :=
  let i := i_index inode in
  imeta ← meta_at ic i;
  if im_refs imeta =? 1 then
    '(idata, ic) ← lock_idata i ic;
    if negb (id_valid idata) || (0 <? nlink (id_dinode idata)) then
      let idata := mkData false (id_dev idata) (id_inum idata) (id_dinode idata) in
      let ic := unlock i idata ic in
      n ← usub (im_refs imeta) 1;
      Done (set_refs i n imeta ic, d)
    else
      let idata := with_dinode idata (with_itype (id_dinode idata) Empty) in
      '(idata, d) ← truncate idata inode d;
      let idata := mkData false (id_dev idata) (id_inum idata) (id_dinode idata) in
      let ic := unlock i idata ic in
      x ← meta_at ic i;
      n ← usub (im_refs x) 1;
      let ic := set_refs i n x ic in
      _ ← ensure (n =? 0) "assertion failed: refs == 0";
      Done (ic, d)
  else
    n ← usub (im_refs imeta) 1;
    Done (set_refs i n imeta ic, d).

(** The search of [get]: a handle, or the first slot without references. *)
Definition get_scan (dev inum : Z) (ic : InodeCache) : outcome ((Inode * InodeCache) + option Z) :=
  for_range_until 0 NINODE (λ i empty_i,
    x ← meta_at ic i;
    if (im_inum x =? inum) && (0 <? im_refs x) && (im_dev x =? dev) then
      n ← uadd (im_refs x) 1;
      Done (inl (mkInode dev inum i, set_refs i n x ic))
    else if bool_decide (empty_i = None) && (im_refs x =? 0) then Done (inr (Some i))
    else Done (inr empty_i)) None.

Definition get (dev inum : Z) (ic : InodeCache) : outcome (Inode * InodeCache) :=
  r ← get_scan dev inum ic;
  match r with
  | inl x => Done x
  | inr None => Panic "inode: not enough"
  | inr (Some empty_i) =>
      x ← meta_at ic empty_i;
      let ic := set_meta empty_i (mkMeta dev (im_blockno x) inum 1) ic in
      '(idata, ic) ← lock_idata empty_i ic;
      _ ← ensure (negb (id_valid idata)) "idata should be invalid here";
      Done (mkInode dev inum empty_i, unlock empty_i idata ic)
  end.

(** [Inode::lock]. *)
Definition lock (self : Inode) (ic : InodeCache) (d : dstate D) : outcome (InodeData * InodeCache * dstate D) :=
  _ ← ensure (i_index self <? NINODE) "index must less than NINODE";
  '(guard, ic) ← lock_idata (i_index self) ic;
  if negb (id_valid guard) then
    blockno ← locate_inode (d_sb d) (i_inum self);
    '(buf, d) ← dread (i_dev self) blockno d;
    let offset := locate_inode_offset (i_inum self) in
    raw ← draw buf d;
    dinode ← get_dinode raw offset;
    d ← ddrop buf d;
    let guard := mkData true (i_dev self) (i_inum self) dinode in
    if decide (itype dinode = Empty) then Panic "inode lock: trying to lock an inode whose type is empty."
    else Done (guard, ic, d)
  else Done (guard, ic, d).

(** [InodeCache::alloc]. *)
Definition alloc (dev : Z) (t : InodeType) (ic : InodeCache) (d : dstate D) :
    outcome (option Inode * InodeCache * dstate D) :=
  n ← ninodes (d_sb d);
  r ← for_range_until 1 (n + 1) (λ inum d,
    '(ok, d) ← try_inode dev inum t d;
    if (ok : bool) then
      '(inode, ic) ← get dev inum ic;
      Done (inl (inode, ic, d))
    else Done (inr d)) d;
  match r with
  | inl (inode, ic, d) => Done (Some inode, ic, d)
  | inr d => Done (None, ic, d)
  end.

(** ** Directories *)

(** The number of steps of [(lo..hi).step_by(size_of::<DirEntry>())]. *)
Definition dir_steps (lo hi : Z) : Z := (hi - lo + DIRENTRY_SIZE - 1) / DIRENTRY_SIZE.

(** Reading an entry of a directory into a local [DirEntry]. *)
Definition read_entry (self : InodeData) (e : DirEntry) (offset : Z) (d : dstate D) :
    outcome (result unit * InodeData * DirEntry * dstate D) :=
  '(r, self, d, m) ← inode_read self false 0 offset DIRENTRY_SIZE d (encode_direntry e);
  match r with
  | Ok _ => Done (Ok tt, self, decode_direntry m, d)
  | Err msg => Done (Err msg, self, decode_direntry m, d)
  end.

(** The comparison of names: equal up to a zero byte in both. *)
Definition same_name (entry name : list Z) : outcome bool :=
  r ← for_range_until 0 DIRSIZ (λ i _,
    a ← unwrap "index out of bounds" (entry !! Z.to_nat i);
    b ← unwrap "index out of bounds" (name !! Z.to_nat i);
    if negb (a =? b) then Done (inl false)
    else if a =? 0 then Done (inl true)
    else Done (inr tt)) tt;
  match r with
  | inl b => Done b
  | inr _ => Done false
  end.

Definition dir_lookup (self : InodeData) (name : list Z) (ic : InodeCache) (d : dstate D) :
    outcome (option Inode * InodeData * InodeCache * dstate D) :=
  if negb (bool_decide (itype (id_dinode self) = Directory)) then Panic "inode type is not directory"
  else
    r ← for_range_until 0 (dir_steps 0 (di_size (id_dinode self))) (λ k '(self, e, d),
      '(r, self, e, d) ← read_entry self e (DIRENTRY_SIZE * k) d;
      match r with
      | Err _ => Panic "Cannot read entry in this dir"
      | Ok _ =>
          if de_inum e =? 0 then Done (inr (self, e, d))
          else
            eq ← same_name (de_name e) name;
            if (eq : bool) then
              '(inode, ic) ← get (id_dev self) (de_inum e) ic;
              Done (inl (inode, self, ic, d))
            else Done (inr (self, e, d))
      end) (self, new_direntry, d);
    match r with
    | inl (inode, self, ic, d) => Done (Some inode, self, ic, d)
    | inr (self, _, d) => Done (None, self, ic, d)
    end.

(** The search of [dir_link] for a free entry, with the offset as it is counted. *)
Definition link_scan (self : InodeData) (d : dstate D) :
    outcome ((result unit * InodeData * Z * DirEntry * dstate D) + (InodeData * Z * DirEntry * dstate D)) :=
  for_range_until 0 (dir_steps 0 (di_size (id_dinode self))) (λ k '(self, entry_offset, e, d),
    '(r, self, e, d) ← read_entry self e (DIRENTRY_SIZE * k) d;
    match r with
    | Err msg => Done (inl (Err msg, self, entry_offset, e, d))
    | Ok _ =>
        entry_offset ← u32add entry_offset DIRENTRY_SIZE;
        if de_inum e =? 0 then Done (inl (Ok tt, self, entry_offset, e, d))
        else Done (inr (self, entry_offset, e, d))
    end) (self, 0, new_direntry, d).

Definition dir_link (self : InodeData) (name : list Z) (inum : Z) (ic : InodeCache) (d : dstate D) :
    outcome (result unit * InodeData * InodeCache * dstate D) :=
  '(found, self, ic, d) ← dir_lookup self name ic d;
  match found with
  | Some inode =>
      '(ic, d) ← put inode ic d;
      Done (Err "It's incorrect to find entry in disk", self, ic, d)
  | None =>
      r ← link_scan self d;
      match r with
      | inl (Err msg, self, _, _, d) => Done (Err msg, self, ic, d)
      | inl (Ok _, self, entry_offset, e, d) | inr (self, entry_offset, e, d) =>
          if DIRSIZ <? Z.of_nat (length name) then UB "copy beyond the name of the entry"
          else
            let e := mkDe (inum mod 2 ^ 16) (put_bytes (de_name e) 0 name) in
            '(r, self, d, _) ← inode_write self false 0 entry_offset DIRENTRY_SIZE d (encode_direntry e);
            match r with
            | Err msg => Done (Err msg, self, ic, d)
            | Ok _ => Done (Ok tt, self, ic, d)
            end
      end
  end.

Definition is_dir_empty (self : InodeData) (d : dstate D) : outcome (bool * InodeData * dstate D) :=
  let init_size := 2 * DIRENTRY_SIZE in
  r ← for_range_until 0 (dir_steps init_size (di_size (id_dinode self))) (λ k '(self, e, d),
    '(r, self, e, d) ← read_entry self e (init_size + DIRENTRY_SIZE * k) d;
    match r with
    | Err _ => Panic "is_dir_empty(): Fail to read dir content"
    | Ok _ => if negb (de_inum e =? 0) then Done (inl (self, d)) else Done (inr (self, e, d))
    end) (self, new_direntry, d);
  match r with
  | inl (self, d) => Done (true, self, d)
  | inr (self, _, d) => Done (false, self, d)
  end.
End Ops.
