(* ===== verification/InodeSpec.v ===== *)
(** * Contents of files

    What [bmap], [read] and [write] do for a file whose blocks are allocated:
    the file is the sequence of the bytes of its blocks. *)

From Stdlib Require Import ZArith Lia.
From stdpp Require Import base gmap strings numbers list.
From S2P Require Import Prelude Bytes Bio BioSpec BioCache BioClient DiskLayout Log LogSpec PhysMem Bitmap Inode.

Local Open Scope Z_scope.

(** ** Sequences of bytes *)

(** Byte [o] of the file whose block [k] is block [f k] of the disk. *)
Definition file_byte (c : Z → block) (f : Z → Z) (o : Z) : Z :=
  default 0 (c (f (o / BSIZE)) !! Z.to_nat (o mod BSIZE)).
Definition file_bytes (c : Z → block) (f : Z → Z) (off n : Z) : list Z := file_byte c f <$> seqZ off n.

Lemma file_bytes_app c f off a b : 0 ≤ a → 0 ≤ b → file_bytes c f off (a + b) = file_bytes c f off a ++ file_bytes c f (off + a) b.
Proof. intros Ha Hb. unfold file_bytes. by rewrite seqZ_app, fmap_app by done. Qed.

Lemma length_file_bytes c f off n : length (file_bytes c f off n) = Z.to_nat n.
Proof. unfold file_bytes. by rewrite length_fmap, length_seqZ. Qed.

(** The part of a file inside of one block. *)
Lemma file_bytes_block c f off n :
  0 ≤ off → 0 ≤ n → off mod BSIZE + n ≤ BSIZE → Z.of_nat (length (c (f (off / BSIZE)))) = BSIZE →
  file_bytes c f off n = get_bytes (c (f (off / BSIZE))) (off mod BSIZE) n.
Proof.
  intros Ho Hn Hle Hl. assert (0 ≤ off mod BSIZE < BSIZE) as Hm by (by apply Z.mod_pos_bound).
  apply list_eq. intros i. destruct (decide (Z.of_nat i < n)) as [Hi|Hi].
  - unfold file_bytes, get_bytes. rewrite list_lookup_fmap, lookup_seqZ_lt by lia. cbn. unfold file_byte.
    assert ((off + Z.of_nat i) / BSIZE = off / BSIZE ∧ (off + Z.of_nat i) mod BSIZE = off mod BSIZE + Z.of_nat i) as [-> ->].
    { unfold BSIZE in *. divlia. }
    rewrite lookup_take_lt, lookup_drop by lia. replace (Z.to_nat (off mod BSIZE + Z.of_nat i)) with (Z.to_nat (off mod BSIZE) + i)%nat by lia.
    destruct (lookup_lt_is_Some_2 (c (f (off / BSIZE))) (Z.to_nat (off mod BSIZE) + i)) as [x ->]; [lia|]. done.
  - rewrite !lookup_ge_None_2; [done| |]; [rewrite length_get_bytes by lia; lia|rewrite length_file_bytes; lia].
Qed.

Section Blocks.
Context {D : Type} {BD : BlockDevice D} {BDL : BlockDeviceLaws D} (dev : Z).

(** ** Reading a block *)

Lemma dopen d c L n :
  quiet dev (d_b d) c L → (length L < NBUF)%nat →
  ∃ b s pl, dread dev n d = Done (b, with_b d s) ∧ draw b (with_b d s) = Done (c n) ∧ disk s = disk (d_b d) ∧
    cache_rep dev s (one_open c L n pl) ∧ handle dev (one_open c L n pl) b n.
Proof using BDL.
  intros Hq HL. destruct (open1 dev (d_b d) c L n Hq HL) as (b & s & pl & Hb & Hd & Hr & Hh).
  exists b, s, pl. unfold dread, draw, with_b. rewrite Hb. cbn. split; [done|].
  split; [by rewrite (raw_data_ok dev s _ b n Hr Hh)|done].
Qed.

Lemma dclose d c L n pl b s :
  quiet dev (d_b d) c L → disk s = disk (d_b d) →
  cache_rep dev s (one_open c L n pl) → handle dev (one_open c L n pl) b n →
  ∃ s', ddrop b (with_b d s) = Done (with_b d s') ∧ disk s' = disk (d_b d) ∧ quiet dev s' c L.
Proof using BDL.
  intros Hq Hd Hr Hh. destruct (close1 dev s c L n pl b Hr Hh) as (s' & Hs & Hd' & Hq').
  { intros Hn. rewrite Hd. by eapply quiet_clean. }
  exists s'. unfold ddrop, with_b. cbn. rewrite Hs. cbn. split; [done|]. split; [congruence|done].
Qed.

(** ** The block map *)

(** Block [k] of the file is block [bn] of the disk. *)
Definition mapped (c : Z → block) (di : DiskInode) (k bn : Z) : Prop :=
  bn ≠ 0 ∧
  (0 ≤ k < NDIRECT ∧ addrs di !! Z.to_nat k = Some bn ∨
   NDIRECT ≤ k < NINDIRECT + NDIRECT ∧ ∃ ia, ia ≠ 0 ∧ addrs di !! Z.to_nat NDIRECT = Some ia ∧ bn = get_u32 (c ia) (4 * (k - NDIRECT))).

Lemma bmap_ok g k bn d c L :
  id_dev g = dev → mapped c (id_dinode g) k bn → quiet dev (d_b d) c L → (length L < NBUF)%nat →
  ∃ s', bmap g k d = Done (Ok bn, g, with_b d s') ∧ disk s' = disk (d_b d) ∧ quiet dev s' c L.
Proof using BDL.
  intros Hdev (Hbn & Hk) Hq HL. unfold bmap, addr_at. destruct Hk as [[Hk Ha]|(Hk & ia & Hia & Ha & Hget)].
  - rewrite (proj2 (Z.ltb_lt _ _)) by lia. rewrite Ha. cbn. rewrite (proj2 (Z.eqb_neq _ _)) by done.
    exists (d_b d). split; [|done]. by destruct d.
  - rewrite (proj2 (Z.ltb_ge _ _)), (proj2 (Z.ltb_lt _ _)) by lia. rewrite usub_ok by (change (NINDIRECT + NDIRECT) with 140 in *; unfold NDIRECT in *; lia).
    cbn [mbind outcome_bind]. unfold indirect_block, addr_at. rewrite Ha. cbn [unwrap mbind outcome_bind].
    rewrite (proj2 (Z.eqb_neq ia 0)) by done. cbn [mbind outcome_bind]. rewrite Hdev.
    destruct (dopen d c L ia Hq HL) as (b & s & pl & -> & Hraw & Hd & Hr & Hh). cbn [mbind outcome_bind]. rewrite Hraw. cbn [mbind outcome_bind].
    rewrite <- Hget, (proj2 (Z.eqb_neq bn 0)) by done.
    destruct (dclose d c L ia pl b s Hq Hd Hr Hh) as (s' & -> & Hd' & Hq'). cbn. by exists s'.
Qed.
End Blocks.

(** ** Where the bytes go to and come from *)

(** A destination of copies from the kernel that is valid for a range. *)
Class Destination (M : Type) {CP : Copier M} (is_user : bool) := {
  dst_ok : Z → Z → M → Prop;
  dst_put : Z → list Z → M → M;
}.
Class DestinationLaws (M : Type) {CP : Copier M} (is_user : bool) `{!Destination M is_user} : Prop := {
  dst_copy dst bs m : dst_ok dst (Z.of_nat (length bs)) m → copy_from_kernel is_user dst bs m = Done (Ok tt, dst_put dst bs m);
  dst_split dst bs n m : 0 ≤ n → dst_ok dst (Z.of_nat (length bs) + n) m →
    dst_ok dst (Z.of_nat (length bs)) m ∧ dst_ok (dst + Z.of_nat (length bs)) n (dst_put dst bs m);
  dst_app dst bs bs' m : dst_ok dst (Z.of_nat (length bs) + Z.of_nat (length bs')) m →
    dst_put (dst + Z.of_nat (length bs)) bs' (dst_put dst bs m) = dst_put dst (bs ++ bs') m;
  dst_nil dst m : dst_ok dst 0 m → dst_put dst [] m = m;
}.

(** A source of copies to the kernel. *)
Class Source (M : Type) {CP : Copier M} (is_user : bool) := {
  src_ok : Z → Z → M → Prop;
  src_get : Z → Z → M → list Z;
}.
Class SourceLaws (M : Type) {CP : Copier M} (is_user : bool) `{!Source M is_user} : Prop := {
  src_copy src n m : 0 ≤ n → src_ok src n m → copy_to_kernel is_user src n m = Done (Ok (src_get src n m), m);
  src_len src n m : 0 ≤ n → src_ok src n m → Z.of_nat (length (src_get src n m)) = n;
  src_split src n n' m : 0 ≤ n → 0 ≤ n' → src_ok src (n + n') m →
    src_ok src n m ∧ src_ok (src + n) n' m ∧ src_get src (n + n') m = src_get src n m ++ src_get (src + n) n' m;
}.

(** A buffer of the kernel. *)
Global Instance local_destination is_user : Destination (list Z) is_user := {|
  dst_ok dst n m := 0 ≤ dst ∧ dst + n ≤ Z.of_nat (length m);
  dst_put dst bs m := put_bytes m dst bs;
|}.
Global Instance local_source is_user : Source (list Z) is_user := {|
  src_ok src n m := 0 ≤ src ∧ src + n ≤ Z.of_nat (length m);
  src_get src n m := get_bytes m src n;
|}.

Global Instance local_destination_laws is_user : DestinationLaws (list Z) is_user.
Proof.
  split; cbn.
  - done.
  - intros dst bs n m Hn [H1 H2]. rewrite length_put_bytes by lia. lia.
  - intros dst bs bs' m [H1 H2]. unfold put_bytes.
    assert (length (take (Z.to_nat dst) m ++ bs) = Z.to_nat (dst + Z.of_nat (length bs))) as Hl by (rewrite length_app, length_take; lia).
    rewrite (app_assoc (take _ m) bs), take_app_length' by done. rewrite <- !app_assoc. do 3 f_equal.
    rewrite app_assoc, drop_app_ge by lia. rewrite Hl, drop_drop, length_app. f_equal. lia.
  - intros dst m [H1 H2]. unfold put_bytes. rewrite Nat.add_0_r. apply take_drop.
Qed.

Global Instance local_source_laws is_user : SourceLaws (list Z) is_user.
Proof.
  split; cbn.
  - done.
  - intros src n m Hn [H1 H2]. rewrite length_get_bytes; lia.
  - intros src n n' m Hn Hn' [H1 H2]. split; [lia|]. split; [lia|]. unfold get_bytes.
    rewrite !Z2Nat.inj_add by lia. rewrite <- drop_drop. by rewrite take_take_drop.
Qed.

Lemma dst_ok_le `{DestinationLaws M} dst n k m : 0 ≤ k ≤ n → dst_ok dst n m → dst_ok dst k m.
Proof.
  intros Hk Hok. destruct (dst_split dst (replicate (Z.to_nat k) 0) (n - k) m) as [H1 _]; rewrite ?length_replicate in *; [lia| |].
  - by replace (Z.of_nat (Z.to_nat k) + (n - k)) with n by lia.
  - by replace (Z.of_nat (Z.to_nat k)) with k in H1 by lia.
Qed.

(** Two copies in a row are one copy. *)
Lemma dst_next `{DestinationLaws M} dst n t xs ys m :
  0 ≤ dst → Z.of_nat (length xs) = t → t + Z.of_nat (length ys) ≤ n → dst_ok dst n m →
  copy_from_kernel is_user (dst + t) ys (dst_put dst xs m) = Done (Ok tt, dst_put dst (xs ++ ys) m).
Proof.
  intros H0 <- Hle Hok. assert (dst_ok dst (Z.of_nat (length xs) + Z.of_nat (length ys)) m) as Hok' by (eapply dst_ok_le; [|exact Hok]; lia).
  rewrite dst_copy by (eapply dst_split; [lia|exact Hok']). by rewrite dst_app.
Qed.

(** ** The loops *)

(** The blocks the rest of a transfer touches. *)
Definition blocks_left (off count t : Z) : Z := if t <? count then (off + count - 1) / BSIZE - (off + t) / BSIZE + 1 else 0.

Lemma blocks_left_fuel off count : 0 ≤ off → 0 ≤ count → blocks_left off count 0 < Z.of_nat (S (S (S (Z.to_nat (count / BSIZE))))).
Proof.
  intros Ho Hc. unfold blocks_left, BSIZE. assert (0 ≤ count / 1024) by divlia. destruct (Z.ltb_spec 0 count); [|lia].
  rewrite !Nat2Z.inj_succ, Z2Nat.id by done. divlia.
Qed.

(** The bytes of one round, and how they bring the transfer forward. *)
Definition chunk (off count t : Z) : Z := Z.min (count - t) (BSIZE - (off + t) mod BSIZE).

Lemma chunk_progress off count t : 0 ≤ off → 0 ≤ t < count →
  0 < chunk off count t ∧ t + chunk off count t ≤ count ∧ (off + t) mod BSIZE + chunk off count t ≤ BSIZE ∧
  0 ≤ blocks_left off count (t + chunk off count t) < blocks_left off count t.
Proof.
  intros Ho Ht. unfold chunk, blocks_left, BSIZE. assert (0 ≤ (off + t) mod 1024 < 1024) by divlia.
  rewrite (proj2 (Z.ltb_lt t count)) by lia.
  destruct (Z.min_spec (count - t) (1024 - (off + t) mod 1024)) as [[Hm ->]|[Hm ->]].
  - split; [lia|]. split; [lia|]. split; [lia|]. rewrite (proj2 (Z.ltb_ge _ _)) by lia. divlia.
  - split; [lia|]. split; [lia|]. split; [lia|]. destruct (Z.ltb_spec (t + (1024 - (off + t) mod 1024)) count).
    + assert ((off + (t + (1024 - (off + t) mod 1024))) / 1024 = (off + t) / 1024 + 1) as -> by divlia.
      assert ((off + t) / 1024 + 1 ≤ (off + count - 1) / 1024) by divlia. lia.
    + divlia.
Qed.

Lemma min_chunk off count t : Misc.min (count - t) (BSIZE - (off + t) mod BSIZE) = chunk off count t.
Proof. unfold Misc.min, chunk. destruct (Z.ltb_spec (count - t) (BSIZE - (off + t) mod BSIZE)); lia. Qed.

Section Transfer.
Context {D : Type} {BD : BlockDevice D} {BDL : BlockDeviceLaws D} (dev : Z).
Context {M : Type} {CP : Copier M} (is_user : bool).

(** All blocks of a range are mapped. *)
Definition mapped_range (c : Z → block) (di : DiskInode) (f : Z → Z) (off n : Z) : Prop :=
  ∀ k, off / BSIZE ≤ k ≤ (off + n - 1) / BSIZE → mapped c di k (f k).

Lemma mapped_at c di f off n t : 0 ≤ off → 0 ≤ t < n → mapped_range c di f off n → mapped c di ((off + t) / BSIZE) (f ((off + t) / BSIZE)).
Proof using. intros Ho Ht Hm. apply Hm. split; apply Z.div_le_mono; unfold BSIZE; lia. Qed.

(** Reading delivers the bytes of the file and leaves everything else alone. *)
Lemma inode_read_ok `{!Destination M is_user} `{!DestinationLaws M is_user} g dst off count d m c L f :
  id_dev g = dev → quiet dev (d_b d) c L → (length L < NBUF)%nat →
  0 ≤ off → 0 ≤ count → off + count < 2 ^ 32 → off + count ≤ di_size (id_dinode g) →
  0 ≤ dst → dst + count < 2 ^ 64 → dst_ok dst count m → mapped_range c (id_dinode g) f off count →
  ∃ s', inode_read g is_user dst off count d m = Done (Ok count, g, with_b d s', dst_put dst (file_bytes c f off count) m) ∧
    disk s' = disk (d_b d) ∧ quiet dev s' c L.
Proof using BDL.
  intros Hdev Hq HL Ho Hc H32 Hsz Hd0 Hd1 Hok Hm. unfold inode_read.
  rewrite (proj2 (Z.leb_gt _ _)) by lia. rewrite (proj2 (Z.ltb_ge _ _)) by lia.
  pose (I := λ st : rw_state, ∃ t s, 0 ≤ t ≤ count ∧ disk s = disk (d_b d) ∧ quiet dev s c L ∧
    st = mkRw t (off + t) (dst + t) ((off + t) / BSIZE) ((off + t) mod BSIZE) g (with_b d s) (dst_put dst (file_bytes c f off t) m)).
  pose (Q := λ r : result Z * InodeData * dstate D * M, ∃ s', r = (Ok count, g, with_b d s', dst_put dst (file_bytes c f off count) m) ∧
    disk s' = disk (d_b d) ∧ quiet dev s' c L).
  destruct (while_fuel_inv I (λ st, blocks_left off count (rw_total st)) Q (read_block is_user count))
    with (fuel := S (S (S (Z.to_nat (count / BSIZE))))) (s := mkRw 0 off dst (off / BSIZE) (off mod BSIZE) g d m) as (r & Hr & s' & -> & Hds & Hqs).
  - intros st (t & s & Ht & Hds & Hqs & ->). unfold read_block. cbn [rw_total rw_offset rw_addr rw_basic rw_boff rw_self rw_d rw_m].
    destruct (Z.ltb_spec t count) as [Hlt|Hge].
    2: { left. assert (t = count) as -> by lia. eexists. split; [done|]. by exists s. }
    right. destruct (chunk_progress off count t Ho) as (Hc0 & Hc1 & Hc2 & Hc3); [lia|].
    assert (0 ≤ (off + t) mod BSIZE < BSIZE) as Hmod by (by apply Z.mod_pos_bound).
    rewrite (usub_ok count t) by lia. cbn [mbind outcome_bind]. rewrite (Z.mod_small ((off + t) / BSIZE) (2 ^ 32)) by (unfold BSIZE; divlia).
    destruct (bmap_ok dev g _ _ (with_b d s) c L Hdev (mapped_at c (id_dinode g) f off count t Ho ltac:(lia) Hm) Hqs HL) as (s1 & -> & Hd1' & Hq1). cbn [mbind outcome_bind].
    rewrite Hdev. destruct (dopen dev (with_b (with_b d s) s1) c L (f ((off + t) / BSIZE)) Hq1 HL) as (b & s2 & pl & -> & Hraw & Hd2 & Hr2 & Hh2).
    cbn [mbind outcome_bind]. rewrite usub_ok by (unfold BSIZE in *; lia). cbn [mbind outcome_bind]. rewrite Hraw. cbn [mbind outcome_bind].
    rewrite min_chunk. rewrite <- (file_bytes_block c f (off + t)) by (lia || by eapply quiet_len).
    rewrite (dst_next dst count) by (rewrite ?length_file_bytes; (lia || done)). rewrite <- file_bytes_app by lia. cbn [mbind outcome_bind].
    destruct (dclose dev (with_b (with_b d s) s1) c L _ pl b s2 Hq1 Hd2 Hr2 Hh2) as (s3 & -> & Hd3 & Hq3). cbn [mbind outcome_bind].
    rewrite !uadd_ok by lia. cbn [mbind outcome_bind]. eexists. split; [done|]. split; [|exact Hc3].
    exists (t + chunk off count t), s3. split; [lia|]. split; [cbn in Hd3, Hd1'; congruence|]. split; [done|]. by rewrite !Z.add_assoc.
  - exists 0, (d_b d). split; [lia|]. split; [done|]. split; [done|]. rewrite !Z.add_0_r. f_equal; [by destruct d|].
    symmetry. apply dst_nil. eapply dst_ok_le; [|exact Hok]. lia.
  - by apply blocks_left_fuel.
  - cbn. unfold blocks_left. destruct (Z.ltb_spec 0 count); [|lia]. unfold BSIZE. divlia.
  - exists s'. split; [exact Hr|done].
Qed.
End Transfer.
