(* ===== verification/InodeWrite.v ===== *)
(** * Writing files

    What [write] and [update] do for a file whose blocks are allocated, inside
    of a transaction. *)

From Stdlib Require Import ZArith Lia.
From stdpp Require Import base gmap strings numbers list.
From S2P Require Import Prelude Bytes Bio BioSpec BioCache BioClient DiskLayout Log LogSpec PhysMem Bitmap Inode InodeSpec.

Local Open Scope Z_scope.

(** ** Changing the bytes of a file *)

(** The blocks after the bytes [data] have been written at [off]. *)
Fixpoint file_put (c : Z → block) (f : Z → Z) (off : Z) (data : list Z) : Z → block :=
  match data with
  | [] => c
  | x :: r =>
      let n := f (off / BSIZE) in
      file_put (upd c n (<[Z.to_nat (off mod BSIZE) := x]> (c n))) f (off + 1) r
  end.

Definition block_sized (c : Z → block) : Prop := ∀ n, Z.of_nat (length (c n)) = BSIZE.

Lemma upd_sized c n v : block_sized c → Z.of_nat (length v) = BSIZE → block_sized (upd c n v).
Proof. intros Hc Hv m. unfold upd. by case_decide. Qed.

Lemma file_put_app a : ∀ c f off b, file_put c f off (a ++ b) = file_put (file_put c f off a) f (off + Z.of_nat (length a)) b.
Proof.
  induction a as [|x a IH]; intros c f off b; cbn [app file_put length]; [by rewrite Z.add_0_r|].
  rewrite IH. f_equal. lia.
Qed.

Lemma file_put_sized data : ∀ c f off, block_sized c → block_sized (file_put c f off data).
Proof.
  induction data as [|x r IH]; intros c f off Hc; cbn [file_put]; [done|]. apply IH. apply upd_sized; [done|]. by rewrite length_insert.
Qed.

(** Only blocks of the range change. *)
Lemma file_put_other data : ∀ c f off n, (∀ k, off / BSIZE ≤ k ≤ (off + Z.of_nat (length data) - 1) / BSIZE → f k ≠ n) →
  file_put c f off data n = c n.
Proof.
  induction data as [|x r IH]; intros c f off n Hn; cbn [file_put]; [done|]. cbn [length] in Hn. rewrite IH.
  - apply upd_ne. intros ->. eapply Hn; [|done]. split; [lia|]. apply Z.div_le_mono; unfold BSIZE; lia.
  - intros k Hk. apply Hn. split; [|replace (off + Z.of_nat (S (length r)) - 1) with (off + 1 + Z.of_nat (length r) - 1) by lia; lia].
    etrans; [|apply Hk]. apply Z.div_le_mono; unfold BSIZE; lia.
Qed.

(** Inside of one block the bytes are stored at once. *)
Lemma file_put_block data : ∀ c f off n, 0 ≤ off → off mod BSIZE + Z.of_nat (length data) ≤ BSIZE → block_sized c →
  file_put c f off data n = upd c (f (off / BSIZE)) (put_bytes (c (f (off / BSIZE))) (off mod BSIZE) data) n.
Proof.
  assert (∀ x, 0 ≤ x mod BSIZE < BSIZE) as Hmod by (intros x; by apply Z.mod_pos_bound).
  induction data as [|x r IH]; intros c f off n Ho Hle Hc; cbn [file_put].
  - unfold put_bytes. rewrite Nat.add_0_r. cbn [app]. rewrite take_drop. unfold upd. case_decide; congruence.
  - cbn [length] in Hle. pose proof (Hmod off) as Hm. pose proof (Hc (f (off / BSIZE))) as Hl.
    assert (∀ b i, Z.of_nat (length b) = BSIZE → 0 ≤ i < BSIZE → <[Z.to_nat i := x]> b = put_bytes b i [x]) as Hins.
    { intros b i Hb Hi. unfold put_bytes. rewrite insert_take_drop by lia. cbn. do 3 f_equal. lia. }
    destruct (decide (r = [])) as [->|Hr]. { cbn [file_put]. by rewrite Hins. }
    assert ((off + 1) / BSIZE = off / BSIZE ∧ (off + 1) mod BSIZE = off mod BSIZE + 1) as [Hd Hm1].
    { destruct r; [done|]. cbn [length] in Hle. unfold BSIZE in *. divlia. }
    rewrite IH; [|lia|lia|apply upd_sized; [done|by rewrite length_insert]].
    rewrite Hd, Hm1, upd_eq, Hins by done. unfold upd. case_decide; [|done].
    pose proof (dst_app (M := list Z) (is_user := false) (off mod BSIZE) [x] r (c (f (off / BSIZE)))) as Happ. cbn in Happ. apply Happ. lia.
Qed.

(** Reading back what was written; the rest of the file is as before. *)
Lemma file_byte_put data N f : (∀ k k', 0 ≤ k < N → 0 ≤ k' < N → f k = f k' → k = k') →
  ∀ c off o, block_sized c → 0 ≤ off → off + Z.of_nat (length data) ≤ N * BSIZE → 0 ≤ o < N * BSIZE →
  file_byte (file_put c f off data) f o =
    if decide (off ≤ o < off + Z.of_nat (length data)) then default 0 (data !! Z.to_nat (o - off)) else file_byte c f o.
Proof.
  intros Hinj. assert (∀ x, 0 ≤ x mod BSIZE < BSIZE) as Hmod by (intros x; by apply Z.mod_pos_bound).
  assert (∀ x, 0 ≤ x < N * BSIZE → 0 ≤ x / BSIZE < N) as Hblk by (intros x Hx; unfold BSIZE in *; divlia).
  induction data as [|x r IH]; intros c off o Hc Hoff Hend Ho; cbn [file_put length] in *.
  - rewrite decide_False by lia. done.
  - rewrite IH; [|apply upd_sized; [done|by rewrite length_insert]|lia..].
    destruct (decide (off + 1 ≤ o < off + 1 + Z.of_nat (length r))) as [Hin|Hout].
    + rewrite decide_True by lia. replace (Z.to_nat (o - off)) with (S (Z.to_nat (o - (off + 1)))) by lia. done.
    + unfold file_byte. destruct (decide (o = off)) as [->|Hne].
      * rewrite upd_eq, list_lookup_insert_eq by (specialize (Hc (f (off / BSIZE))); specialize (Hmod off); lia).
        rewrite decide_True by lia. by rewrite Z.sub_diag.
      * rewrite decide_False by lia. unfold upd. case_decide as Hf; [|done].
        apply Hinj in Hf; [|apply Hblk; lia|apply Hblk; lia]. rewrite <- Hf. rewrite list_lookup_insert_ne; [done|].
        intros Heq. apply Hne. pose proof (Hmod o). pose proof (Hmod off). apply Z2Nat.inj in Heq; [|lia|lia]. unfold BSIZE in *. divlia.
Qed.

Lemma file_bytes_put data N f c off : (∀ k k', 0 ≤ k < N → 0 ≤ k' < N → f k = f k' → k = k') →
  block_sized c → 0 ≤ off → off + Z.of_nat (length data) ≤ N * BSIZE →
  file_bytes (file_put c f off data) f off (Z.of_nat (length data)) = data.
Proof.
  intros Hinj Hc Ho Hend. apply list_eq. intros i. unfold file_bytes. rewrite list_lookup_fmap.
  destruct (decide (i < length data)%nat) as [Hi|Hi].
  - rewrite lookup_seqZ_lt by lia. cbn. rewrite (file_byte_put data N f Hinj) by lia || done. rewrite decide_True by lia.
    destruct (lookup_lt_is_Some_2 data i Hi) as [x Hx]. replace (Z.to_nat (off + Z.of_nat i - off)) with i by lia. by rewrite Hx.
  - rewrite lookup_seqZ_ge by lia. cbn. symmetry. apply lookup_ge_None_2. lia.
Qed.

Section Tx.
Context {D : Type} {BD : BlockDevice D} {BDL : BlockDeviceLaws D} (dev : Z).

(** Inside of a transaction that has written the blocks [bns]; [c] is the
    content of the blocks as the file system sees it. *)
Record in_tx (d : dstate D) (c : Z → block) (bns : list Z) : Prop := {
  tx_quiet : quiet dev (d_b d) c bns;
  tx_logged : logged (d_log d) bns;
  tx_out : 1 ≤ outstanding (d_log d);
  tx_size : LOGSIZE ≤ log_size (d_log d);
}.

Lemma in_tx_sized d c bns : in_tx d c bns → block_sized c.
Proof using. intros H n. by eapply quiet_len, tx_quiet. Qed.

Lemma in_tx_room d c bns : in_tx d c bns → Z.of_nat (length bns) + 2 < LOGSIZE → (length bns < NBUF)%nat.
Proof using. intros _ H. change NBUF with 30%nat. unfold LOGSIZE, MAXOPBLOCKS in *. lia. Qed.

Lemma in_tx_ext d c c' bns : (∀ n, c n = c' n) → in_tx d c bns → in_tx d c' bns.
Proof using. intros He [Hq Hl Ho Hs]. split; try done. by eapply quiet_ext. Qed.

(** The cache has changed, but neither contents nor log. *)
Lemma in_tx_b d c bns s : in_tx d c bns → quiet dev s c bns → in_tx (with_b d s) c bns.
Proof using. intros [_ Hl Ho Hs] Hq. by split. Qed.

(** A block that was read, changed and handed to the log. *)
Lemma dlog_ok d c bns n pl b s v :
  in_tx d c bns → disk s = disk (d_b d) → cache_rep dev s (one_open c bns n pl) → handle dev (one_open c bns n pl) b n →
  Z.of_nat (length v) = BSIZE → 0 ≤ n < 2 ^ 32 → Z.of_nat (length bns) + 2 < LOGSIZE →
  ∃ d', dlog b (dstore b v (with_b d s)) = Done d' ∧ in_tx d' (upd c n v) (log_add bns n) ∧
    d_sb d' = d_sb d ∧ disk (d_b d') = disk (d_b d).
Proof using BDL.
  intros [Hq Hl Ho Hs] Hd Hr Hh Hv Hn Hlt. unfold dlog, dstore, with_b. cbn [d_log d_b d_sb].
  destruct (log_write_ok dev (d_log d) (store_data b v s) (upd c n v) bns n pl b) as (h & s' & -> & Hd' & Hq' & Hl'); try done.
  - by apply store1.
  - cbn [mbind outcome_bind]. eexists. split; [done|]. split; [|split; [done|]].
    + split; [exact Hq'|exact Hl'|done|done].
    + cbn. rewrite Hd'. exact Hd.
Qed.

(** [update] stores the inode. *)
Lemma get_put_dinode raw offset di :
  Z.of_nat (length raw) = BSIZE → 0 ≤ offset < IPB → dinode_ok di → get_dinode (put_dinode raw offset di) offset = Done di.
Proof using.
  intros Hl Ho Hdi. unfold get_dinode, put_dinode. pose proof (length_encode_dinode di Hdi) as He.
  rewrite <- He. rewrite get_put_bytes; [by apply dinode_decode_encode| |]; rewrite ?He; change IPB with 16 in Ho; unfold BSIZE, DISK_INODE_SIZE in *; lia.
Qed.

Lemma get_put_dinode_ne raw offset o di :
  Z.of_nat (length raw) = BSIZE → 0 ≤ offset < IPB → 0 ≤ o < IPB → o ≠ offset → dinode_ok di →
  get_dinode (put_dinode raw offset di) o = get_dinode raw o.
Proof using.
  intros Hl Ho Ho' Hne Hdi. unfold get_dinode, put_dinode. pose proof (length_encode_dinode di Hdi) as He. change IPB with 16 in *.
  rewrite get_put_bytes_ne; [done|..]; rewrite ?He; unfold BSIZE, DISK_INODE_SIZE in *; lia.
Qed.

Lemma length_put_dinode raw offset di :
  Z.of_nat (length raw) = BSIZE → 0 ≤ offset < IPB → dinode_ok di → Z.of_nat (length (put_dinode raw offset di)) = BSIZE.
Proof using.
  intros Hl Ho Hdi. unfold put_dinode. pose proof (length_encode_dinode di Hdi) as He. change IPB with 16 in Ho.
  rewrite length_put_bytes; [done| |]; rewrite ?He; unfold BSIZE, DISK_INODE_SIZE in *; lia.
Qed.

Lemma inode_offset_range inum : 0 ≤ locate_inode_offset inum < IPB.
Proof using. by apply Z.mod_pos_bound. Qed.

Lemma update_ok g d c bns ib :
  id_dev g = dev → dinode_ok (id_dinode g) → locate_inode (d_sb d) (id_inum g) = Done ib → 0 ≤ ib < 2 ^ 32 →
  in_tx d c bns → Z.of_nat (length bns) + 2 < LOGSIZE →
  ∃ d', update g d = Done d' ∧ d_sb d' = d_sb d ∧ disk (d_b d') = disk (d_b d) ∧
    in_tx d' (upd c ib (put_dinode (c ib) (locate_inode_offset (id_inum g)) (id_dinode g))) (log_add bns ib).
Proof using BDL.
  intros Hdev Hdi Hib Hr Htx Hlt. unfold update. rewrite Hib. cbn [mbind outcome_bind]. rewrite Hdev.
  destruct (dopen dev d c bns ib (tx_quiet _ _ _ Htx) (in_tx_room _ _ _ Htx Hlt)) as (b & s & pl & -> & Hraw & Hd & Hrep & Hh).
  cbn [mbind outcome_bind]. rewrite Hraw. cbn [mbind outcome_bind].
  destruct (dlog_ok d c bns ib pl b s (put_dinode (c ib) (locate_inode_offset (id_inum g)) (id_dinode g))) as (d' & -> & Htx' & Hsb & Hd'); try done.
  - apply length_put_dinode; [by eapply in_tx_sized|apply inode_offset_range|done].
  - exists d'. done.
Qed.
End Tx.

Global Arguments in_tx {D BD} dev d c bns.

(** ** The loop of [write] *)

(** The first [N] blocks of a file are allocated: they are distinct from each
    other and from the indirect block. *)
Record layout (c : Z → block) (di : DiskInode) (f : Z → Z) (N : Z) : Prop := {
  ly_map k : 0 ≤ k < N → mapped c di k (f k);
  ly_range k : 0 ≤ k < N → 0 ≤ f k < 2 ^ 32;
  ly_inj k k' : 0 ≤ k < N → 0 ≤ k' < N → f k = f k' → k = k';
  ly_ind k : 0 ≤ k < N → addrs di !! Z.to_nat NDIRECT ≠ Some (f k);
}.

Lemma mapped_ext c c' di k bn :
  (∀ ia, addrs di !! Z.to_nat NDIRECT = Some ia → c' ia = c ia) → mapped c di k bn → mapped c' di k bn.
Proof.
  intros He (Hb & [Hk|(Hk & ia & Hi & Ha & Hg)]); (split; [done|]); [by left|]. right. split; [done|]. exists ia. by rewrite (He ia Ha).
Qed.

Lemma layout_blocks N off n k : 0 ≤ off → off + n ≤ N * BSIZE → off / BSIZE ≤ k ≤ (off + n - 1) / BSIZE → 0 ≤ k < N.
Proof. unfold BSIZE. intros. divlia. Qed.

Lemma layout_put c di f N off data :
  layout c di f N → 0 ≤ off → off + Z.of_nat (length data) ≤ N * BSIZE → layout (file_put c f off data) di f N.
Proof.
  intros [H1 H2 H3 H4] Ho Hend. split; [|done..]. intros k Hk. eapply mapped_ext; [|by apply H1].
  intros ia Ha. apply file_put_other. intros k' Hk'. apply layout_blocks with (N := N) in Hk'; [|done..].
  intros <-. by apply (H4 k').
Qed.

Lemma layout_upd c di f N ib v :
  layout c di f N → addrs di !! Z.to_nat NDIRECT ≠ Some ib → layout (upd c ib v) di f N.
Proof.
  intros [H1 H2 H3 H4] Hib. split; [|done..]. intros k Hk. eapply mapped_ext; [|by apply H1].
  intros ia Ha. apply upd_ne. congruence.
Qed.

Section Write.
Context {D : Type} {BD : BlockDevice D} {BDL : BlockDeviceLaws D} (dev : Z).
Context {M : Type} {CP : Copier M} (is_user : bool) `{!Source M is_user} `{!SourceLaws M is_user}.

(** The blocks of the transaction after a write. *)
Definition joined (bns bns' : list Z) (f : Z → Z) (off count : Z) : Prop :=
  (NoDup bns → NoDup bns') ∧ (∀ n, n ∈ bns → n ∈ bns') ∧
  ∀ n, n ∈ bns' → n ∈ bns ∨ ∃ k, off / BSIZE ≤ k ≤ (off + count - 1) / BSIZE ∧ n = f k.

Lemma joined_add bns bns' f off count k :
  joined bns bns' f off count → off / BSIZE ≤ k ≤ (off + count - 1) / BSIZE → joined bns (log_add bns' (f k)) f off count.
Proof using.
  intros (H1 & H2 & H3) Hk. split; [|split].
  - intros Hn. by apply NoDup_log_add, H1.
  - intros n Hn. apply elem_of_log_add. left. by apply H2.
  - intros n Hn. apply elem_of_log_add in Hn as [Hn| ->]; [by apply H3|]. right. by exists k.
Qed.

Record write_inv (g : InodeData) (src off count : Z) (d : dstate D) (m : M) (c : Z → block) (bns : list Z) (f : Z → Z)
    (t : Z) (dt : dstate D) (bt : list Z) : Prop := {
  wi_t : 0 ≤ t ≤ count;
  wi_tx : in_tx dev dt (file_put c f off (src_get src t m)) bt;
  wi_sb : d_sb dt = d_sb d;
  wi_disk : disk (d_b dt) = disk (d_b d);
  wi_joined : joined bns bt f off count;
  wi_len : Z.of_nat (length bt) + blocks_left off count t ≤ Z.of_nat (length bns) + blocks_left off count 0;
}.

Definition write_state (g : InodeData) (src off t : Z) (dt : dstate D) (m : M) : rw_state :=
  mkRw t (off + t) (src + t) ((off + t) / BSIZE) ((off + t) mod BSIZE) g dt m.

(** One block. *)
Lemma write_block_ok g src off count d m c bns f N t dt bt :
  id_dev g = dev → layout c (id_dinode g) f N → 0 ≤ off → off + count ≤ N * BSIZE → off + count < 2 ^ 32 →
  0 ≤ src → src + count < 2 ^ 64 → src_ok src count m → Z.of_nat (length bns) + blocks_left off count 0 + 2 < LOGSIZE →
  write_inv g src off count d m c bns f t dt bt → t < count →
  ∃ dt' bt', write_block is_user count (write_state g src off t dt m) = Done (inr (write_state g src off (t + chunk off count t) dt' m)) ∧
    write_inv g src off count d m c bns f (t + chunk off count t) dt' bt'.
Proof using BDL SourceLaws0.
  intros Hdev Hly Ho HN H32 Hs0 Hs1 Hsrc Hroom [Ht Htx Hsb Hdk Hj Hlen] Hlt.
  destruct (chunk_progress off count t Ho) as (Hc0 & Hc1 & Hc2 & Hc3); [lia|].
  assert (0 ≤ (off + t) mod BSIZE < BSIZE) as Hmod by (by apply Z.mod_pos_bound).
  destruct (src_split src t (count - t) m) as (Hok1 & Hok2 & _); [lia|lia|by replace (t + (count - t)) with count by lia|].
  destruct (src_split (src + t) (chunk off count t) (count - t - chunk off count t) m) as (Hok3 & _ & _);
    [lia|lia|by replace (chunk off count t + (count - t - chunk off count t)) with (count - t) by lia|].
  destruct (src_split src t (chunk off count t) m) as (_ & _ & Hcat); [lia|lia| |].
  { destruct (src_split src (t + chunk off count t) (count - t - chunk off count t) m) as (H & _ & _); [lia|lia| |exact H].
    by replace (t + chunk off count t + (count - t - chunk off count t)) with count by lia. }
  pose proof (src_len src t m (proj1 Ht) Hok1) as Hl1. pose proof (src_len (src + t) (chunk off count t) m ltac:(lia) Hok3) as Hl2.
  set (ct := file_put c f off (src_get src t m)) in *. set (k := (off + t) / BSIZE).
  assert (off / BSIZE ≤ k ≤ (off + count - 1) / BSIZE) as Hk by (split; apply Z.div_le_mono; unfold BSIZE; lia).
  assert (0 ≤ k < N) as HkN by (eapply layout_blocks; [|exact HN|exact Hk]; done).
  assert (layout ct (id_dinode g) f N) as Hly' by (apply layout_put; [done|done|lia]).
  unfold write_block, write_state. cbn [rw_total rw_offset rw_addr rw_basic rw_boff rw_self rw_d rw_m].
  rewrite (proj2 (Z.ltb_lt _ _)) by done. rewrite (usub_ok count t) by lia. cbn [mbind outcome_bind].
  rewrite (Z.mod_small ((off + t) / BSIZE) (2 ^ 32)) by (unfold BSIZE; divlia). fold k.
  assert (Z.of_nat (length bt) + 2 < LOGSIZE) as Hroom' by lia.
  pose proof (in_tx_room dev _ _ _ Htx Hroom') as HL.
  destruct (bmap_ok dev g k (f k) dt ct bt Hdev (ly_map _ _ _ _ Hly' k HkN) (tx_quiet _ _ _ _ Htx) HL) as (s1 & -> & Hd1 & Hq1). cbn [mbind outcome_bind].
  pose proof (in_tx_b dev _ _ _ s1 Htx Hq1) as Htx1.
  rewrite Hdev. destruct (dopen dev (with_b dt s1) ct bt (f k) Hq1 HL) as (b & s2 & pl & -> & Hraw & Hd2 & Hr2 & Hh2). cbn [mbind outcome_bind].
  rewrite usub_ok by (unfold BSIZE in *; lia). cbn [mbind outcome_bind]. rewrite Hraw. cbn [mbind outcome_bind]. rewrite min_chunk.
  rewrite src_copy by (lia || done). cbn [mbind outcome_bind]. rewrite !uadd_ok by lia. cbn [mbind outcome_bind].
  destruct (dlog_ok dev (with_b dt s1) ct bt (f k) pl b s2 (put_bytes (ct (f k)) ((off + t) mod BSIZE) (src_get (src + t) (chunk off count t) m)))
    as (d' & -> & Htx' & Hsb' & Hd'); [done..| |by apply (ly_range _ _ _ _ Hly')|done|].
  { rewrite length_put_bytes; [by eapply in_tx_sized|lia|]. rewrite Hl2. pose proof (in_tx_sized dev _ _ _ Htx (f k)). lia. }
  cbn [mbind outcome_bind]. exists d', (log_add bt (f k)). split; [by rewrite !Z.add_assoc|]. split.
  - lia.
  - eapply in_tx_ext; [|exact Htx']. intros n. rewrite Hcat, file_put_app, Hl1. symmetry. apply file_put_block; [lia| |by eapply in_tx_sized]. lia.
  - by rewrite Hsb'.
  - rewrite Hd'. cbn. by rewrite Hd1.
  - by apply joined_add.
  - pose proof (length_log_add bt (f k)). lia.
Qed.
End Write.
