(* ===== verification/InodeTheorems.v ===== *)
(** * Correctness of file contents *)

From Stdlib Require Import ZArith Lia.
From stdpp Require Import base gmap strings numbers list.
From S2P Require Import Prelude Bytes Bio BioSpec BioCache BioClient DiskLayout Log LogSpec PhysMem Bitmap Inode InodeSpec InodeWrite.

Local Open Scope Z_scope.

(** The inode after a write that ends at [e]. *)
Definition grown (g : InodeData) (e : Z) : InodeData :=
  with_dinode g (with_size (id_dinode g) (Z.max (di_size (id_dinode g)) e)).

Lemma grown_spec g e : (if di_size (id_dinode g) <? e then with_dinode g (with_size (id_dinode g) e) else g) = grown g e.
Proof.
  unfold grown. destruct (Z.ltb_spec (di_size (id_dinode g)) e).
  - by rewrite Z.max_r by lia.
  - rewrite Z.max_l by lia. by destruct g as [? ? ? []].
Qed.

Lemma grown_ok g e : 0 ≤ e < 2 ^ 32 → dinode_ok (id_dinode g) → dinode_ok (id_dinode (grown g e)).
Proof. intros He [H1 H2 H3 H4 H5 H6]. split; cbn; try done. lia. Qed.

Section Write.
Context {D : Type} {BD : BlockDevice D} {BDL : BlockDeviceLaws D} (dev : Z).
Context {M : Type} {CP : Copier M} (is_user : bool) `{!Source M is_user} `{!SourceLaws M is_user}.

Lemma inode_write_ok g src off count d m c bns f N ib :
  id_dev g = dev → dinode_ok (id_dinode g) → layout c (id_dinode g) f N → 0 ≤ off → 0 ≤ count → off + count ≤ N * BSIZE → off + count < 2 ^ 32 →
  0 ≤ src → src + count < 2 ^ 64 → src_ok src count m → in_tx dev d c bns → Z.of_nat (length bns) + blocks_left off count 0 + 2 < LOGSIZE →
  locate_inode (d_sb d) (id_inum g) = Done ib → 0 ≤ ib < 2 ^ 32 →
  ∃ d' bns', inode_write g is_user src off count d m = Done (Ok count, grown g (off + count), d', m) ∧
    d_sb d' = d_sb d ∧ disk (d_b d') = disk (d_b d) ∧ joined bns bns' f off count ∧
    Z.of_nat (length bns') ≤ Z.of_nat (length bns) + blocks_left off count 0 ∧
    in_tx dev d' (let c1 := file_put c f off (src_get src count m) in
      upd c1 ib (put_dinode (c1 ib) (locate_inode_offset (id_inum g)) (id_dinode (grown g (off + count))))) (log_add bns' ib).
Proof using BDL SourceLaws0.
  intros Hdev Hdi Hly Ho Hc HN H32 Hs0 Hs1 Hsrc Htx Hroom Hib Hibr. unfold inode_write.
  pose (I := λ st : rw_state, ∃ t dt bt, st = write_state g src off t dt m ∧ write_inv dev is_user g src off count d m c bns f t dt bt).
  pose (Q := λ r : result Z * InodeData * dstate D * M + rw_state, ∃ dt bt, r = inr (write_state g src off count dt m) ∧
    write_inv dev is_user g src off count d m c bns f count dt bt).
  destruct (while_fuel_inv I (λ st, blocks_left off count (rw_total st)) Q (write_block is_user count))
    with (fuel := S (S (S (Z.to_nat (count / BSIZE))))) (s := mkRw 0 off src (off / BSIZE) (off mod BSIZE) g d m) as (r & -> & dt & bt & -> & Hinv).
  - intros st (t & dt & bt & -> & Hinv). destruct (decide (t < count)) as [Hlt|Hge].
    + right. destruct (write_block_ok dev is_user g src off count d m c bns f N t dt bt) as (dt' & bt' & Hrun & Hinv'); try done.
      eexists. split; [exact Hrun|]. split; [by exists (t + chunk off count t), dt', bt'|].
      apply (chunk_progress off count t Ho). split; [apply Hinv|done].
    + left. assert (t = count) as -> by (pose proof (wi_t _ _ _ _ _ _ _ _ _ _ _ _ _ _ Hinv); lia).
      unfold write_block, write_state. cbn [rw_total]. rewrite Z.ltb_irrefl. eexists. split; [done|]. by exists dt, bt.
  - exists 0, d, bns. unfold write_state. rewrite !Z.add_0_r. split; [done|].
    destruct (src_split src 0 count m) as (Hok0 & _ & _); [done|done|done|].
    split; [lia| |done|done|split; [done|split; [done|by left]]|lia].
    pose proof (src_len src 0 m ltac:(lia) Hok0) as Hl. assert (src_get src 0 m = []) as -> by (apply length_zero_iff_nil; lia). done.
  - by apply blocks_left_fuel.
  - cbn. unfold blocks_left. destruct (Z.ltb_spec 0 count); [|lia]. unfold BSIZE. divlia.
  - destruct Hinv as [_ Htx' Hsb' Hd' Hj Hlen]. cbn [mbind outcome_bind rw_self rw_offset rw_d rw_total rw_m write_state].
    rewrite Z.mod_small by lia. rewrite grown_spec.
    assert (blocks_left off count count = 0) as Hb0 by (unfold blocks_left; by rewrite Z.ltb_irrefl).
    destruct (update_ok dev (grown g (off + count)) dt _ bt ib Hdev (grown_ok g (off + count) ltac:(lia) Hdi) ltac:(by rewrite Hsb') Hibr Htx') as (d2 & -> & Hsb2 & Hd2 & Htx2).
    { lia. }
    cbn [mbind outcome_bind]. exists d2, bt. split; [done|]. split; [congruence|]. split; [congruence|]. split; [done|]. split; [lia|exact Htx2].
Qed.
End Write.

(** C10 Writing a file and reading it back.  Inside of a transaction with room
    for the blocks touched, [write] on a file whose blocks are allocated stores
    all bytes: the file then has exactly the new bytes in the range and its old
    bytes elsewhere, no block but those of the range and the inode's own changes,
    the inode on disk is the one in memory with the size grown to the end of the
    write, and [read] delivers the bytes written, to whatever destination. *)
Theorem file_write_read {D} {BD : BlockDevice D} {BDL : BlockDeviceLaws D} dev
    {M} {CP : Copier M} is_user {SR : Source M is_user} {SL : SourceLaws M is_user}
    g src off count d m c bns f N ib
    (Hdev : id_dev g = dev) (Hdi : dinode_ok (id_dinode g)) (Hly : layout c (id_dinode g) f N)
    (Hoff : 0 ≤ off) (Hcount : 0 ≤ count) (HN : off + count ≤ N * BSIZE) (H32 : off + count < 2 ^ 32)
    (Hs0 : 0 ≤ src) (Hs1 : src + count < 2 ^ 64) (Hsrc : src_ok src count m)
    (Htx : in_tx dev d c bns) (Hroom : Z.of_nat (length bns) + blocks_left off count 0 + 3 < LOGSIZE)
    (Hib : locate_inode (d_sb d) (id_inum g) = Done ib) (Hibr : 0 ≤ ib < 2 ^ 32)
    (Hibf : ∀ k, 0 ≤ k < N → f k ≠ ib) (Hibi : addrs (id_dinode g) !! Z.to_nat NDIRECT ≠ Some ib) :
  ∃ d' c' bns', inode_write g is_user src off count d m = Done (Ok count, grown g (off + count), d', m) ∧
    in_tx dev d' c' bns' ∧ disk (d_b d') = disk (d_b d) ∧
    get_dinode (c' ib) (locate_inode_offset (id_inum g)) = Done (id_dinode (grown g (off + count))) ∧
    (∀ o, 0 ≤ o < N * BSIZE → file_byte c' f o =
       if decide (off ≤ o < off + count) then default 0 (src_get src count m !! Z.to_nat (o - off)) else file_byte c f o) ∧
    (∀ n, n ≠ ib → (∀ k, off / BSIZE ≤ k ≤ (off + count - 1) / BSIZE → f k ≠ n) → c' n = c n) ∧
    (∀ M2 (CP2 : Copier M2) is_user2 (DS : Destination M2 is_user2) (DL : DestinationLaws M2 is_user2) dst m2,
       0 ≤ dst → dst + count < 2 ^ 64 → dst_ok dst count m2 →
       ∃ s', inode_read (CP := CP2) (grown g (off + count)) is_user2 dst off count d' m2 =
         Done (Ok count, grown g (off + count), with_b d' s', dst_put dst (src_get src count m) m2)).
Proof.
  destruct (inode_write_ok dev is_user g src off count d m c bns f N ib) as (d' & bns' & Hrun & Hsb & Hd & _ & Hlb & Htx'); try done; [lia|].
  set (data := src_get src count m) in *. pose proof (src_len src count m Hcount Hsrc) as Hlen. fold data in Hlen.
  pose proof (in_tx_sized dev _ _ _ Htx) as Hsz. set (c1 := file_put c f off data) in *. cbn zeta in Htx'.
  set (c' := upd c1 ib _) in *. assert (∀ o, 0 ≤ o < N * BSIZE → file_byte c' f o = file_byte c1 f o) as Hfb.
  { intros o Ho. unfold file_byte, c'. rewrite upd_ne; [done|]. apply Hibf. unfold BSIZE in *. divlia. }
  exists d', c', (log_add bns' ib). split; [exact Hrun|]. split; [done|]. split; [done|]. split.
  { unfold c'. rewrite upd_eq. apply get_put_dinode; [apply file_put_sized; done|apply inode_offset_range|apply grown_ok; [lia|done]]. }
  split. { intros o Ho. rewrite (Hfb o Ho). unfold c1. rewrite (file_byte_put data N f (ly_inj _ _ _ _ Hly)) by (done || lia). by rewrite Hlen. }
  split. { intros n Hn Hk. unfold c'. rewrite upd_ne by done. apply file_put_other. by rewrite Hlen. }
  intros M2 CP2 is_user2 DS DL dst m2 Hd0 Hd1 Hok.
  assert (layout c' (id_dinode (grown g (off + count))) f N) as Hly'.
  { apply layout_upd; [|done]. apply (layout_put c (id_dinode (grown g (off + count)))); [|done|by rewrite Hlen]. by destruct Hly. }
  destruct (inode_read_ok dev is_user2 (grown g (off + count)) dst off count d' m2 c' (log_add bns' ib) f) as (s' & Hr & _); try done.
  - apply Htx'.
  - pose proof (length_log_add bns' ib). change NBUF with 30%nat. unfold LOGSIZE, MAXOPBLOCKS in *. lia.
  - cbn. lia.
  - intros k Hk. apply (ly_map _ _ _ _ Hly'). apply (layout_blocks N off count); done.
  - exists s'. rewrite Hr. do 3 f_equal. transitivity (file_bytes c1 f off count).
    + apply list_fmap_ext. intros i o Hi. apply lookup_seqZ in Hi as [-> Hi]. apply Hfb. lia.
    + rewrite <- Hlen. by apply (file_bytes_put data N f c off (ly_inj _ _ _ _ Hly)); [|lia|rewrite Hlen].
Qed.

(** ** Locking an inode *)

(** [lock] on a cache entry without data reads the inode from its block. *)
Lemma lock_reads {D} {BD : BlockDevice D} {BDL : BlockDeviceLaws D} i ic d c L x di ib :
  0 ≤ i_index i < NINODE → ic_data ic !! Z.to_nat (i_index i) = Some (false, x) → id_valid x = false →
  quiet (i_dev i) (d_b d) c L → (length L < NBUF)%nat → locate_inode (d_sb d) (i_inum i) = Done ib →
  get_dinode (c ib) (locate_inode_offset (i_inum i)) = Done di → itype di ≠ Empty →
  ∃ s, lock i ic d = Done (mkData true (i_dev i) (i_inum i) di,
      mkIc (ic_meta ic) (<[Z.to_nat (i_index i) := (true, x)]> (ic_data ic)), with_b d s) ∧
    disk s = disk (d_b d) ∧ quiet (i_dev i) s c L.
Proof.
  intros Hi Hx Hv Hq HL Hib Hdi Ht. unfold lock, lock_idata. destruct (Z.ltb_spec (i_index i) NINODE); [|lia].
  rewrite Hx. cbn [mbind outcome_bind unwrap ensure]. rewrite Hv. cbn [negb]. rewrite Hib. cbn [mbind outcome_bind].
  destruct (dopen (i_dev i) d c L ib Hq HL) as (b & s & pl & -> & Hraw & Hd & Hrep & Hh). cbn [mbind outcome_bind].
  rewrite Hraw. cbn [mbind outcome_bind]. rewrite Hdi. cbn [mbind outcome_bind].
  destruct (dclose (i_dev i) d c L ib pl b s Hq Hd Hrep Hh) as (s' & -> & Hd' & Hq'). cbn [mbind outcome_bind].
  rewrite decide_False by done. by exists s'.
Qed.

(** C35 An inode survives [update].  Inside of a transaction, [update] stores an
    inode so that [lock] on any cache entry that has to read it delivers the
    same inode, locked and valid, and the other inodes of its block stay as they
    were. *)
Theorem inode_update_lock {D} {BD : BlockDevice D} {BDL : BlockDeviceLaws D} g i ic d c bns x ib
    (Hdev : i_dev i = id_dev g) (Hnum : i_inum i = id_inum g) (Hdi : dinode_ok (id_dinode g))
    (Ht : itype (id_dinode g) ≠ Empty) (Hi : 0 ≤ i_index i < NINODE)
    (Hx : ic_data ic !! Z.to_nat (i_index i) = Some (false, x)) (Hv : id_valid x = false)
    (Htx : in_tx (id_dev g) d c bns) (Hroom : Z.of_nat (length bns) + 2 < LOGSIZE)
    (Hib : locate_inode (d_sb d) (id_inum g) = Done ib) (Hibr : 0 ≤ ib < 2 ^ 32) :
  ∃ d' c' s', update g d = Done d' ∧ in_tx (id_dev g) d' c' (log_add bns ib) ∧ disk (d_b d') = disk (d_b d) ∧
    lock i ic d' = Done (mkData true (id_dev g) (id_inum g) (id_dinode g),
      mkIc (ic_meta ic) (<[Z.to_nat (i_index i) := (true, x)]> (ic_data ic)), with_b d' s') ∧
    (∀ n, n ≠ ib → c' n = c n) ∧
    (∀ o, 0 ≤ o < IPB → o ≠ locate_inode_offset (id_inum g) → get_dinode (c' ib) o = get_dinode (c ib) o).
Proof.
  pose proof (in_tx_sized _ _ _ _ Htx ib) as Hsz. pose proof (inode_offset_range (id_inum g)) as Ho.
  destruct (update_ok (id_dev g) g d c bns ib) as (d' & Hu & Hsb & Hd & Htx'); try done.
  set (c' := upd c ib _) in *.
  destruct (lock_reads i ic d' c' (log_add bns ib) x (id_dinode g) ib Hi Hx Hv) as (s' & Hl & _).
  - rewrite Hdev. apply Htx'.
  - pose proof (length_log_add bns ib). change NBUF with 30%nat. unfold LOGSIZE, MAXOPBLOCKS in *. lia.
  - by rewrite Hsb, Hnum.
  - rewrite Hnum. unfold c'. rewrite upd_eq. by apply get_put_dinode.
  - done.
  - rewrite Hdev, Hnum in Hl. exists d', c', s'. unfold c'.
    do 4 (split; [done|]). split; [intros n Hn; by apply upd_ne|]. intros o Hor Hne. rewrite upd_eq. by apply get_put_dinode_ne.
Qed.

(** ** A file system to run on *)

(** The layout [mkfs] makes: log from block 2, inodes from block 32, bitmap at
    block 45; a file of 2000 bytes in blocks 50 and 51. *)
Definition demo_sb : SuperBlock := Some (mkSb FSMAGIC 1000 954 200 30 2 32 45).
Definition demo_tx_log : Log := mkLog 2 LOGSIZE ROOTDEV 1 false (lh log_uninit).
Definition demo_file : InodeData :=
  mkData true ROOTDEV 5 (mkDinode File 0 0 1 2000 ([50; 51] ++ replicate 11 0)).
Definition demo_fs : dstate fdisk := mkD demo_sb demo_tx_log (boot (mkFd (λ _, []))).
Definition demo_blocks (k : Z) : Z := 50 + k.

Lemma demo_in_tx : in_tx ROOTDEV demo_fs (dev_read (mkFd (λ _, []))) [].
Proof.
  split; [by apply boot_quiet| |by vm_compute|by vm_compute].
  split; [|done]. split; [by vm_compute|]. split; [by vm_compute|]. cbn. apply Forall_replicate. lia.
Qed.

Lemma demo_layout : layout (dev_read (mkFd (λ _, []))) (id_dinode demo_file) demo_blocks 2.
Proof.
  split.
  - intros k Hk. assert (k = 0 ∨ k = 1) as [-> | ->] by lia; (split; [done|]); left; (split; [unfold NDIRECT; lia|done]).
  - unfold demo_blocks. lia.
  - unfold demo_blocks. lia.
  - intros k Hk. change (Some 0 ≠ Some (demo_blocks k)). unfold demo_blocks. intros [=]. lia.
Qed.

(** Five bytes across the border of two blocks. *)
Lemma file_write_read_witness :
  ∃ d', inode_write demo_file false 0 1022 5 demo_fs [1; 2; 3; 4; 5] =
      Done (Ok 5, grown demo_file 1027, d', [1; 2; 3; 4; 5]) ∧
    ∃ s', inode_read (grown demo_file 1027) false 0 1022 5 d' [0; 0; 0; 0; 0; 9] =
      Done (Ok 5, grown demo_file 1027, with_b d' s', [1; 2; 3; 4; 5; 9]).
Proof.
  destruct (file_write_read ROOTDEV (M := list Z) false demo_file 0 1022 5 demo_fs [1; 2; 3; 4; 5]
    (dev_read (mkFd (λ _, []))) [] demo_blocks 2 32) as (d' & c' & bns' & Hrun & _ & _ & _ & _ & _ & Hread).
  - done.
  - split; cbn; try lia; [done|]. repeat (apply Forall_cons; split); [lia..|by apply Forall_nil].
  - apply demo_layout.
  - lia.
  - lia.
  - by vm_compute.
  - lia.
  - lia.
  - lia.
  - cbn. lia.
  - apply demo_in_tx.
  - by vm_compute.
  - by vm_compute.
  - lia.
  - unfold demo_blocks. lia.
  - done.
  - exists d'. split; [exact Hrun|]. destruct (Hread (list Z) _ false _ _ 0 [0; 0; 0; 0; 0; 9]) as (s' & Hs).
    + lia.
    + lia.
    + cbn. lia.
    + exists s'. exact Hs.
Defined.

Lemma inode_update_lock_witness :
  ∃ d' s', update demo_file demo_fs = Done d' ∧
    lock (mkInode ROOTDEV 5 7) new_icache d' =
      Done (demo_file, mkIc (ic_meta new_icache) (<[7%nat := (true, new_data)]> (ic_data new_icache)), with_b d' s').
Proof.
  destruct (inode_update_lock demo_file (mkInode ROOTDEV 5 7) new_icache demo_fs (dev_read (mkFd (λ _, []))) [] new_data 32)
    as (d' & c' & s' & Hu & _ & _ & Hl & _).
  - done.
  - done.
  - split; cbn; try lia; [done|]. repeat (apply Forall_cons; split); [lia..|by apply Forall_nil].
  - done.
  - done.
  - done.
  - done.
  - apply demo_in_tx.
  - done.
  - by vm_compute.
  - lia.
  - exists d', s'. split; [exact Hu|exact Hl].
Defined.
