(* ===== verification/BitmapTheorems.v ===== *)
(** * Correctness of block allocation *)

From Stdlib Require Import ZArith Lia.
From stdpp Require Import base gmap strings numbers list.
From S2P Require Import Prelude Bytes Bio BioSpec BioCache BioClient DiskLayout Log LogSpec PhysMem Bitmap Inode InodeSpec InodeWrite.

Local Open Scope Z_scope.

(** Block [n] is in a byte of the bitmap that is zero. *)
Definition zero_byte (raw : block) (n : Z) : Prop := raw !! Z.to_nat (n / 8) = Some 0.

Global Instance zero_byte_dec raw n : Decision (zero_byte raw n).
Proof. unfold zero_byte. apply _. Defined.

(** What the search finds: the first block whose byte is zero. *)
Definition scan_result (s : Z) (raw : block) (r : option Z) : Prop :=
  match r with
  | Some n => 1 ≤ n ≤ s ∧ zero_byte raw n ∧ ∀ j, 1 ≤ j < n → ¬ zero_byte raw j
  | None => ∀ j, 1 ≤ j ≤ s → ¬ zero_byte raw j
  end.

Lemma balloc_scan_ok s raw : Z.of_nat (length raw) = BSIZE → 0 ≤ s < BPB →
  ∃ r, balloc_scan 0 s raw = Done r ∧ scan_result s raw r.
Proof.
  intros Hl Hs. unfold balloc_scan. change BPB with 8192 in *. unfold BSIZE in Hl.
  apply (while_fuel_inv (λ bi, 0 ≤ bi ≤ s ∧ ∀ j, 1 ≤ j ≤ bi → ¬ zero_byte raw j) (λ bi, s - bi)); [|split; [lia|intros; lia]|lia|lia].
  intros bi [Hbi Hnone]. rewrite (proj2 (Z.ltb_lt bi 8192)) by lia. rewrite (u32add_ok 0 bi) by lia. cbn [mbind outcome_bind].
  destruct (Z.ltb_spec (0 + bi) s) as [Hlt|Hge].
  2: { left. exists None. split; [done|]. intros j Hj. apply Hnone. lia. }
  rewrite (u32add_ok bi 1) by lia. cbn [mbind outcome_bind].
  destruct (lookup_lt_is_Some_2 raw (Z.to_nat ((bi + 1) / 8))) as [x Hx]; [divlia|]. unfold byte_at. rewrite Hx. cbn [mbind outcome_bind].
  destruct (Z.eqb_spec x 0) as [->|Hne].
  - left. exists (Some (bi + 1)). split; [done|]. split; [lia|]. split; [exact Hx|]. intros j Hj. apply Hnone. lia.
  - right. exists (bi + 1). split; [done|]. split; [|lia]. split; [lia|]. intros j Hj. destruct (decide (j = bi + 1)) as [->|]; [|apply Hnone; lia].
    unfold zero_byte. rewrite Hx. congruence.
Qed.

Section Bitmap.
Context {D : Type} {BD : BlockDevice D} {BDL : BlockDeviceLaws D} {BF : BitField} {BFB : BitFieldBits} (dev : Z).

(** A file system whose bitmap is one block. *)
Record bitmap_at (sb : SuperBlock) (s bm : Z) : Prop := {
  ba_size : size sb = Done s;
  ba_small : 0 ≤ s < BPB;
  ba_block n : 0 ≤ n < BPB → bitmap_blockno sb n = Done bm;
  ba_range : 0 ≤ bm < 2 ^ 32;
}.

Definition marked (c : Z → block) (bm n v : Z) : Z → block := upd c bm (put_bytes (c bm) (n / 8) [v]).

Lemma length_marked c bm n v : block_sized c → 0 ≤ n < BPB → Z.of_nat (length (put_bytes (c bm) (n / 8) [v])) = BSIZE.
Proof using.
  intros Hc Hn. rewrite length_put_bytes; [apply Hc|divlia|]. rewrite (Hc bm). change BPB with 8192 in Hn. unfold BSIZE. cbn. divlia.
Qed.

Lemma balloc_ok d c bns s bm :
  in_tx dev d c bns → bitmap_at (d_sb d) s bm → Z.of_nat (length bns) + 2 < LOGSIZE →
  (∃ n d', scan_result s (c bm) (Some n) ∧ balloc dev d = Done (n, d') ∧ d_sb d' = d_sb d ∧
     in_tx dev d' (marked c bm n (2 ^ (n mod 8))) (log_add bns bm)) ∨
  (scan_result s (c bm) None ∧ balloc dev d = Panic "balloc: out of the block ranges.").
Proof using BDL.
  intros Htx [Hs Hsm Hb Hr] Hroom. unfold balloc. rewrite Hs. cbn [mbind outcome_bind]. rewrite Z.div_small by done. change (S (S (Z.to_nat 0))) with 2%nat.
  cbn [while_fuel]. pose proof (in_tx_room dev _ _ _ Htx Hroom) as HL. pose proof (in_tx_sized dev _ _ _ Htx) as Hsz.
  destruct (Z.ltb_spec 0 s) as [H0|H0].
  2: { right. split; [intros j Hj; lia|done]. }
  rewrite Hb by (split; [done|by vm_compute]). cbn [mbind outcome_bind].
  destruct (dopen dev d c bns bm (tx_quiet _ _ _ _ Htx) HL) as (b & s1 & pl & -> & Hraw & Hd & Hrep & Hh). cbn [mbind outcome_bind]. rewrite Hraw. cbn [mbind outcome_bind].
  destruct (balloc_scan_ok s (c bm) (Hsz bm) Hsm) as ([n|] & -> & Hscan); cbn [mbind outcome_bind].
  - left. pose proof Hscan as (Hn & Hz & _). rewrite Z.shiftl_1_l.
    destruct (dlog_ok dev d c bns bm pl b s1 (put_bytes (c bm) (n / 8) [2 ^ (n mod 8)])) as (d' & -> & Htx' & Hsb & _); try done.
    { apply length_marked; [done|lia]. }
    cbn [mbind outcome_bind]. rewrite u32add_ok by (change BPB with 8192 in *; lia). cbn [mbind outcome_bind]. exists n, d'. done.
  - right. split; [done|]. destruct (dclose dev d c bns bm pl b s1 (tx_quiet _ _ _ _ Htx) Hd Hrep Hh) as (s2 & -> & _). cbn [mbind outcome_bind].
    rewrite u32add_ok by (change BPB with 8192; lia). cbn [mbind outcome_bind]. by rewrite (proj2 (Z.ltb_ge _ _)) by lia.
Qed.

Lemma bfree_ok d c bns s bm n byte :
  in_tx dev d c bns → bitmap_at (d_sb d) s bm → Z.of_nat (length bns) + 2 < LOGSIZE → 0 ≤ n < BPB →
  c bm !! Z.to_nat (n / 8) = Some byte → 0 ≤ byte < 2 ^ 8 →
  if Z.testbit byte (n mod 8) then ∃ d', bfree dev n d = Done d' ∧ d_sb d' = d_sb d ∧
    in_tx dev d' (marked c bm n (Z.clearbit byte (n mod 8))) (log_add bns bm)
  else bfree dev n d = Panic "bitmap: double freeing a block".
Proof using BDL BFB.
  intros Htx [Hs Hsm Hb Hr] Hroom Hn Hbyte Hrange. unfold bfree. rewrite Hb by done. cbn [mbind outcome_bind].
  pose proof (in_tx_room dev _ _ _ Htx Hroom) as HL. pose proof (in_tx_sized dev _ _ _ Htx) as Hsz.
  destruct (dopen dev d c bns bm (tx_quiet _ _ _ _ Htx) HL) as (b & s1 & pl & -> & Hraw & Hd & Hrep & Hh). cbn [mbind outcome_bind]. rewrite Hraw. cbn [mbind outcome_bind].
  rewrite (Z.mod_small n BPB) by done. unfold byte_at. rewrite Hbyte. cbn [mbind outcome_bind].
  assert (0 ≤ n mod 8 < 8) as Hm by (apply Z.mod_pos_bound; lia). rewrite (get_bit_bits 8 byte (n mod 8)) by done.
  destruct (Z.testbit byte (n mod 8)) eqn:Ebit; cbn [negb]; [|done].
  rewrite (set_bit_bits 8 byte (n mod 8)) by done.
  destruct (dlog_ok dev d c bns bm pl b s1 (put_bytes (c bm) (n / 8) [Z.clearbit byte (n mod 8)])) as (d' & -> & Htx' & Hsb & _); try done.
  { by apply length_marked. }
  by exists d'.
Qed.
End Bitmap.

Lemma put_zero_back raw i v : raw !! Z.to_nat i = Some 0 → 0 ≤ i → put_bytes (put_bytes raw i [v]) i [0] = raw.
Proof.
  intros H0 Hi. pose proof (lookup_lt_Some _ _ _ H0) as Hlt. apply list_eq. intros j.
  assert (length (put_bytes raw i [v]) = length raw) as Hl by (apply length_put_bytes; cbn; lia).
  rewrite lookup_put_bytes by (rewrite ?Hl; cbn; lia). case_decide as Hd.
  - cbn in Hd. replace j with (Z.to_nat i) by lia. by rewrite Nat.sub_diag, H0.
  - rewrite lookup_put_bytes by (cbn; lia). by rewrite decide_False by (cbn in *; lia).
Qed.

Lemma log_add_twice bns n : log_add (log_add bns n) n = log_add bns n.
Proof. unfold log_add at 1. rewrite decide_True; [done|]. apply elem_of_log_add. by right. Qed.

Lemma lookup_marked c bm n v i : block_sized c → 0 ≤ n < BPB →
  marked c bm n v bm !! i = if decide (i = Z.to_nat (n / 8)) then Some v else c bm !! i.
Proof.
  intros Hc Hn. unfold marked. rewrite upd_eq. rewrite lookup_put_bytes by (rewrite ?(Hc bm); change BPB with 8192 in Hn; unfold BSIZE; cbn; divlia).
  cbn [length]. assert (0 ≤ n / 8) by divlia. destruct (decide (i = Z.to_nat (n / 8))) as [->|Hne].
  - rewrite decide_True by lia. by rewrite Nat.sub_diag.
  - by rewrite decide_False by lia.
Qed.

Lemma pow_byte n : 0 ≤ n → 0 ≤ 2 ^ (n mod 8) < 2 ^ 8 ∧ Z.testbit (2 ^ (n mod 8)) (n mod 8) = true ∧ Z.clearbit (2 ^ (n mod 8)) (n mod 8) = 0.
Proof.
  intros Hn. assert (0 ≤ n mod 8 < 8) as Hm by (apply Z.mod_pos_bound; lia). split; [|split].
  - split; [lia|]. apply Z.pow_lt_mono_r; lia.
  - apply Z.pow2_bits_true. lia.
  - unfold Z.clearbit. rewrite Z.shiftl_1_l. apply Z.ldiff_diag.
Qed.

(** C36 Allocating and freeing a block.  [balloc] takes a block whose byte of the
    bitmap is zero, so it never hands out a block twice, marks it, and changes
    nothing else; freeing the block gives the bitmap back as it was, and freeing
    it again panics.  Without a zero byte [balloc] panics. *)
Theorem balloc_bfree_roundtrip {D} {BD : BlockDevice D} {BDL : BlockDeviceLaws D} {BF : BitField} {BFB : BitFieldBits} dev d c bns s bm
    (Htx : in_tx dev d c bns) (Hbm : bitmap_at (d_sb d) s bm) (Hroom : Z.of_nat (length bns) + 3 < LOGSIZE) :
  (∃ n d1 c1, balloc dev d = Done (n, d1) ∧ 1 ≤ n ≤ s ∧ zero_byte (c bm) n ∧ in_tx dev d1 c1 (log_add bns bm) ∧
     c1 bm !! Z.to_nat (n / 8) = Some (2 ^ (n mod 8)) ∧ (∀ i, i ≠ Z.to_nat (n / 8) → c1 bm !! i = c bm !! i) ∧
     (∀ m, m ≠ bm → c1 m = c m) ∧
     ∃ d2, bfree dev n d1 = Done d2 ∧ in_tx dev d2 c (log_add bns bm) ∧
       bfree dev n d2 = Panic "bitmap: double freeing a block") ∨
  ((∀ j, 1 ≤ j ≤ s → ¬ zero_byte (c bm) j) ∧ balloc dev d = Panic "balloc: out of the block ranges.").
Proof.
  destruct (balloc_ok dev d c bns s bm Htx Hbm) as [(n & d1 & (Hn & Hz & _) & Hrun & Hsb & Htx1)|[Hnone Hrun]]; [lia| |by right].
  left. pose proof (in_tx_sized dev _ _ _ Htx) as Hsz. pose proof (in_tx_sized dev _ _ _ Htx1) as Hsz1.
  pose proof (ba_small _ _ _ Hbm) as Hsm. pose proof (length_log_add bns bm) as Hla.
  destruct (pow_byte n) as (Hp1 & Hp2 & Hp3); [lia|].
  exists n, d1, (marked c bm n (2 ^ (n mod 8))). split; [done|]. split; [done|]. split; [done|]. split; [done|].
  split; [rewrite lookup_marked by (done || lia); by rewrite decide_True|].
  split; [intros i Hi; rewrite lookup_marked by (done || lia); by rewrite decide_False|]. split; [intros m Hm; unfold marked; by apply upd_ne|].
  pose proof (bfree_ok dev d1 _ _ s bm n (2 ^ (n mod 8)) Htx1) as Hf. rewrite Hp2, Hp3, log_add_twice in Hf.
  destruct Hf as (d2 & Hrun2 & Hsb2 & Htx2); [by rewrite Hsb|lia|lia|rewrite lookup_marked by (done || lia); by rewrite decide_True|done|].
  assert (in_tx dev d2 c (log_add bns bm)) as Htx2'.
  { eapply in_tx_ext; [|exact Htx2]. intros m. unfold marked. destruct (decide (m = bm)) as [->|Hm]; [|by rewrite !upd_ne].
    rewrite !upd_eq. apply put_zero_back; [done|divlia]. }
  exists d2. split; [exact Hrun2|]. split; [done|].
  pose proof (bfree_ok dev d2 _ _ s bm n 0 Htx2') as Hf2. rewrite Z.testbit_0_l in Hf2. apply Hf2; [by rewrite Hsb2, Hsb|lia|lia|exact Hz|lia].
Qed.

(** What [balloc] makes of the bitmap.  One block in use in each byte is
    enough for the disk to count as full, although seven of eight blocks are
    free; and when only the byte after the last block is zero, [balloc] returns
    the number [s] of the first block that does not exist. *)
Theorem balloc_wastes_blocks {D} {BD : BlockDevice D} {BDL : BlockDeviceLaws D} {BF : BitField} {BFB : BitFieldBits} dev d c bns s bm
    (Htx : in_tx dev d c bns) (Hbm : bitmap_at (d_sb d) s bm) (Hroom : Z.of_nat (length bns) + 2 < LOGSIZE) :
  ((∀ i, (i < Z.to_nat BSIZE)%nat → c bm !! i = Some 1) → balloc dev d = Panic "balloc: out of the block ranges.") ∧
  (0 < s → zero_byte (c bm) s → (∀ j, 0 ≤ j < s → ¬ zero_byte (c bm) j) → ∃ d', balloc dev d = Done (s, d')).
Proof.
  destruct (balloc_ok dev d c bns s bm Htx Hbm Hroom) as [(n & d1 & (Hn & Hz & Hfirst) & Hrun & _)|[Hnone Hrun]].
  - split.
    + intros Hall. unfold zero_byte in Hz. pose proof (lookup_lt_Some _ _ _ Hz) as Hlt. pose proof (in_tx_sized dev _ _ _ Htx bm).
      rewrite Hall in Hz by lia. discriminate Hz.
    + intros Hs Hzs Hbelow. exists d1. destruct (decide (n = s)) as [->|]; [done|]. exfalso. apply (Hbelow n); [lia|done].
  - split; [done|]. intros Hs Hzs _. exfalso. apply (Hnone s); [lia|done].
Qed.

(** A file system of 1000 blocks with the bitmap in block 45. *)
Definition bitmap_sb (s : Z) : SuperBlock := Some (mkSb FSMAGIC s 954 200 30 2 32 45).
Definition bitmap_disk (b : block) : fdisk := mkFd (λ n, if n =? 45 then b else []).
Definition bitmap_fs (s : Z) (b : block) : dstate fdisk :=
  mkD (bitmap_sb s) (mkLog 2 LOGSIZE ROOTDEV 1 false (lh log_uninit)) (boot (bitmap_disk b)).

Lemma bitmap_fs_tx s b : in_tx ROOTDEV (bitmap_fs s b) (dev_read (bitmap_disk b)) [].
Proof.
  split; [by apply boot_quiet| |by vm_compute|by vm_compute].
  split; [|done]. split; [by vm_compute|]. split; [by vm_compute|]. cbn. apply Forall_replicate. lia.
Qed.

Lemma bitmap_fs_at s b : 0 ≤ s < BPB → bitmap_at (d_sb (bitmap_fs s b)) s 45.
Proof. intros Hs. split; [done|done| |lia]. intros n Hn. unfold bitmap_blockno. cbn. by rewrite Z.div_small. Qed.

Lemma balloc_bfree_roundtrip_witness :
  ∃ n d1 d2, balloc ROOTDEV (bitmap_fs 1000 [255; 255]) = Done (n, d1) ∧ bfree (BF := bit_field_std) ROOTDEV n d1 = Done d2 ∧
    bfree (BF := bit_field_std) ROOTDEV n d2 = Panic "bitmap: double freeing a block".
Proof.
  destruct (balloc_bfree_roundtrip (BFB := bit_field_std_bits) ROOTDEV _ _ [] 1000 45 (bitmap_fs_tx 1000 [255; 255]) (bitmap_fs_at 1000 [255; 255] ltac:(split; by vm_compute)))
    as [(n & d1 & c1 & Hrun & _ & _ & _ & _ & _ & _ & d2 & Hrun2 & _ & Hrun3)|[Hnone _]]; [by vm_compute| |].
  - exists n, d1, d2. split; [exact Hrun|]. split; [exact Hrun2|exact Hrun3].
  - exfalso. apply (Hnone 16); [lia|by vm_compute].
Defined.

Lemma balloc_wastes_blocks_witness :
  balloc ROOTDEV (bitmap_fs 1000 (replicate 1024 1)) = Panic "balloc: out of the block ranges." ∧
  ∃ d', balloc ROOTDEV (bitmap_fs 8 [1]) = Done (8, d').
Proof.
  split.
  - apply (balloc_wastes_blocks (BFB := bit_field_std_bits) ROOTDEV _ _ [] 1000 45 (bitmap_fs_tx 1000 (replicate 1024 1)) (bitmap_fs_at 1000 (replicate 1024 1) ltac:(split; by vm_compute))); [by vm_compute|].
    intros i Hi. change (dev_read (bitmap_disk (replicate 1024 1)) 45) with (fit (replicate 1024 1)). rewrite fit_id by done. apply lookup_replicate. done.
  - apply (balloc_wastes_blocks (BFB := bit_field_std_bits) ROOTDEV _ _ [] 8 45 (bitmap_fs_tx 8 [1]) (bitmap_fs_at 8 [1] ltac:(split; by vm_compute))); [by vm_compute|lia|by vm_compute|].
    intros j Hj. unfold zero_byte. replace (j / 8) with 0 by divlia. by vm_compute.
Defined.
