(* ===== verification/Path.v ===== *)
(** * Path names

    Models the rest of [fs/inode.rs]: [skip_path], [namex], [namei],
    [namei_parent] and [create].  The current directory of the calling process
    is an argument. *)

From Stdlib Require Import ZArith Lia.
From stdpp Require Import base gmap strings numbers list.
From S2P Require Import Prelude Bytes Bio DiskLayout Log Bitmap PhysMem Inode.

Local Open Scope Z_scope.

Definition SLASH : Z := 47.

(** [path[cur]]. *)
Definition path_at (path : list Z) (cur : Z) : outcome Z :=
  unwrap "index out of bounds" (path !! Z.to_nat cur).

(** [while path[cur] == b'/' { cur += 1 }]. *)
Definition skip_slashes (path : list Z) (cur : Z) : outcome Z :=
  while_fuel (S (length path)) (λ cur,
    c ← path_at path cur;
    if c =? SLASH then cur ← uadd cur 1; Done (inr cur) else Done (inl cur)) cur.

(** [while path[cur] != b'/' && path[cur] != 0 { cur += 1 }]. *)
Definition skip_element (path : list Z) (cur : Z) : outcome Z :=
  while_fuel (S (length path)) (λ cur,
    c ← path_at path cur;
    if negb (c =? SLASH) && negb (c =? 0) then cur ← uadd cur 1; Done (inr cur) else Done (inl cur)) cur.

Definition skip_path (path : list Z) (cur : Z) (name : list Z) : outcome (Z * list Z) :=
  cur ← skip_slashes path cur;
  c ← path_at path cur;
  if c =? 0 then Done (0, name)
  else
    let start := cur in
    cur ← skip_element path cur;
    count ← usub cur start;
    if DIRSIZ <=? count then Panic "assertion failed: false"
    else
      let name := put_bytes name 0 (get_bytes path start count) in
      let name := put_bytes name count [0] in
      cur ← skip_slashes path cur;
      Done (cur, name).

Section Names.
Context {D : Type} {BD : BlockDevice D} {BF : BitField}.

(** One round of the loop of [namex]. *)
Definition namex_step (path : list Z) (is_parent : bool)
    (st : Inode * Z * list Z * InodeCache * dstate D) :
    outcome ((option Inode * list Z * InodeCache * dstate D) + (Inode * Z * list Z * InodeCache * dstate D)) :=
  let '(inode, cur, name, ic, d) := st in
  '(cur, name) ← skip_path path cur name;
  if cur =? 0 then
    if is_parent then
      '(ic, d) ← put inode ic d;
      Done (inl (None, name, ic, d))
    else Done (inl (Some inode, name, ic, d))
  else
    '(guard, ic, d) ← lock inode ic d;
    if negb (bool_decide (itype (id_dinode guard) = Directory)) then
      '(ic, d) ← put inode (unlock (i_index inode) guard ic) d;
      Done (inl (None, name, ic, d))
    else
      c ← (if is_parent then path_at path cur else Done 1);
      if is_parent && (c =? 0) then Done (inl (Some inode, name, unlock (i_index inode) guard ic, d))
      else
        '(found, guard, ic, d) ← dir_lookup guard name ic d;
        let ic := unlock (i_index inode) guard ic in
        '(ic, d) ← put inode ic d;
        match found with
        | None => Done (inl (None, name, ic, d))
        | Some last_inode => Done (inr (last_inode, cur, name, ic, d))
        end.

Definition namex (path : list Z) (name : list Z) (is_parent : bool) (cwd : option Inode)
    (ic : InodeCache) (d : dstate D) : outcome (option Inode * list Z * InodeCache * dstate D) :=
  c ← path_at path 0;
  '(inode, ic) ← (if c =? SLASH then get ROOTDEV ROOTINUM ic
                   else p ← unwrap "called `Option::unwrap()` on a `None` value" cwd; dup p ic);
  while_fuel (S (length path)) (namex_step path is_parent) (inode, 0, name, ic, d).

Definition namei (path : list Z) (cwd : option Inode) (ic : InodeCache) (d : dstate D) :
    outcome (option Inode * InodeCache * dstate D) :=
  let name := replicate (Z.to_nat DIRSIZ) 0 in
  '(r, _, ic, d) ← namex path name false cwd ic d;
  Done (r, ic, d).

Definition namei_parent (path : list Z) (name : list Z) (cwd : option Inode) (ic : InodeCache) (d : dstate D) :
    outcome (option Inode * list Z * InodeCache * dstate D) :=
  namex path name true cwd ic d.

(** The tail of [create] after the new inode has been allocated and locked:
    the links of the directory.  [Err] when an entry exists. *)
Definition create_links (t : InodeType) (name : list Z) (inode : Inode)
    (inode_guard dir_guard : InodeData) (ic : InodeCache) (d : dstate D) :
    outcome (result unit * InodeData * InodeData * InodeCache * dstate D) :=
  if negb (bool_decide (t = Directory)) then Done (Ok tt, inode_guard, dir_guard, ic, d)
  else
    n ← i16add (nlink (id_dinode inode_guard)) 1;
    let inode_guard := with_dinode inode_guard (with_nlink (id_dinode inode_guard) n) in
    d ← update inode_guard d;
    '(r, inode_guard, ic, d) ← dir_link inode_guard [46] (i_inum inode) ic d;
    match r with
    | Err e => Done (Err e, inode_guard, dir_guard, ic, d)
    | Ok _ =>
        '(r, inode_guard, ic, d) ← dir_link inode_guard [46; 46] (id_inum dir_guard) ic d;
        Done (r, inode_guard, dir_guard, ic, d)
    end.

(** The part of [create] for a name that does not exist yet. *)
Definition create_new (name : list Z) (t : InodeType) (maj min : Z) (dirinode : Inode) (dir_guard : InodeData)
    (ic : InodeCache) (d : dstate D) : outcome (result Inode * InodeCache * dstate D) :=
  let dev := id_dev dir_guard in
  '(inum, d) ← inode_alloc dev t d;
  '(inode, ic) ← get dev inum ic;
  '(inode_guard, ic, d) ← lock inode ic d;
  let di := id_dinode inode_guard in
  let inode_guard := with_dinode inode_guard (mkDinode (itype di) maj min 1 (di_size di) (addrs di)) in
  d ← update inode_guard d;
  _ ← ensure (bool_decide (itype (id_dinode inode_guard) = t)) "assertion failed: itype";
  '(r, inode_guard, dir_guard, ic, d) ← create_links t name inode inode_guard dir_guard ic d;
  match r with
  | Err e =>
      '(ic, d) ← put inode (unlock (i_index inode) inode_guard ic) d;
      '(ic, d) ← put dirinode (unlock (i_index dirinode) dir_guard ic) d;
      Done (Err e, ic, d)
  | Ok _ =>
      '(r, dir_guard, ic, d) ← dir_link dir_guard name (id_inum inode_guard) ic d;
      match r with
      | Err _ => Panic "Parent inode fail to link"
      | Ok _ =>
          let ic := unlock (i_index inode) inode_guard ic in
          let ic := unlock (i_index dirinode) dir_guard ic in
          '(ic, d) ← put dirinode ic d;
          Done (Ok inode, ic, d)
      end
  end.

Definition create (path : list Z) (t : InodeType) (maj min : Z) (cwd : option Inode) (ic : InodeCache) (d : dstate D) :
    outcome (result Inode * InodeCache * dstate D) :=
  '(r, name, ic, d) ← namei_parent path (replicate (Z.to_nat DIRSIZ) 0) cwd ic d;
  dirinode ← unwrap "called `Option::unwrap()` on a `None` value" r;
  '(dir_guard, ic, d) ← lock dirinode ic d;
  '(found, dir_guard, ic, d) ← dir_lookup dir_guard name ic d;
  match found with
  | Some inode =>
      let ic := unlock (i_index dirinode) dir_guard ic in
      '(inode_guard, ic, d) ← lock inode ic d;
      let ic := unlock (i_index inode) inode_guard ic in
      let is_file := match itype (id_dinode inode_guard) with Device | File => true | _ => false end in
      if is_file && bool_decide (t = File) then
        '(ic, d) ← put dirinode ic d;
        Done (Ok inode, ic, d)
      else
        '(ic, d) ← put inode ic d;
        '(ic, d) ← put dirinode ic d;
        Done (Err "create: unmatched type.", ic, d)
  | None => create_new name t maj min dirinode dir_guard ic d
  end.
End Names.
