(* ===== verification/PathTheorems.v ===== *)
(** * Path names are split at slashes *)

From Stdlib Require Import ZArith Lia.
From stdpp Require Import base gmap strings numbers list.
From S2P Require Import Prelude Bytes Bio DiskLayout Log Bitmap PhysMem Inode Path.

Local Open Scope Z_scope.

(** The elements of a path: the non-empty words between slashes. *)
Fixpoint words (acc s : list Z) : list (list Z) :=
  match s with
  | [] => match acc with [] => [] | _ => [acc] end
  | c :: s => if c =? SLASH then match acc with [] => words [] s | _ => acc :: words [] s end
              else words (acc ++ [c]) s
  end.
Definition elements_of (s : list Z) : list (list Z) := words [] s.

(** A string up to its NUL. *)
Fixpoint c_string (s : list Z) : list Z :=
  match s with
  | [] => []
  | c :: s => if c =? 0 then [] else c :: c_string s
  end.

Lemma split_while (p : Z → bool) s :
  ∃ a b, s = a ++ b ∧ Forall (λ c, p c = true) a ∧ (b = [] ∨ ∃ c b', b = c :: b' ∧ p c = false).
Proof.
  induction s as [|c s (a & b & -> & Ha & Hb)]; [by exists [], []; eauto|].
  destruct (p c) eqn:E; [exists (c :: a), b|exists [], (c :: a ++ b)]; eauto 10.
Qed.

Lemma words_slashes a s : Forall (λ c, (c =? SLASH) = true) a → words [] (a ++ s) = words [] s.
Proof. induction 1 as [|c a Hc Ha IH]; [done|]. cbn. by rewrite Hc. Qed.

Lemma words_element e : ∀ acc s, Forall (λ c, (c =? SLASH) = false) e → acc ++ e ≠ [] →
  (s = [] ∨ ∃ c s', s = c :: s' ∧ (c =? SLASH) = true) → words acc (e ++ s) = (acc ++ e) :: words [] s.
Proof.
  induction e as [|c e IH]; intros acc s He Hne Hs; cbn [app words].
  - rewrite app_nil_r in *. destruct Hs as [->|(c & s' & -> & Hc)]; cbn [words]; destruct acc as [|x acc]; [done|done|done|]. by rewrite Hc.
  - inversion_clear He as [|? ? Hc He']. rewrite Hc. rewrite IH; [by rewrite <- app_assoc|done|by destruct acc|done].
Qed.

(** Both loops run over the bytes that satisfy their condition. *)
Lemma scan_while (p : Z → bool) (body : Z → outcome (Z + Z)) path pre a c post :
  (∀ cur, body cur = (x ← path_at path cur; if p x then cur ← uadd cur 1; Done (inr cur) else Done (inl cur))) →
  path = pre ++ a ++ c :: post → Forall (λ c, p c = true) a → p c = false → Z.of_nat (length path) < 2 ^ 64 →
  while_fuel (S (length path)) body (Z.of_nat (length pre)) = Done (Z.of_nat (length pre + length a)).
Proof.
  intros Hbody -> Ha Hc Hlen.
  assert (∀ fuel a pre, Forall (λ c, p c = true) a → (length a < fuel)%nat →
    (∀ cur, body cur = (x ← path_at (pre ++ a ++ c :: post) cur; if p x then cur ← uadd cur 1; Done (inr cur) else Done (inl cur))) →
    Z.of_nat (length (pre ++ a ++ c :: post)) < 2 ^ 64 →
    while_fuel fuel body (Z.of_nat (length pre)) = Done (Z.of_nat (length pre + length a))) as Hgen.
  { clear - Hc. induction fuel as [|fuel IH]; intros a pre Ha Hf Hb Hl; [lia|]. cbn [while_fuel]. rewrite Hb.
    unfold path_at at 1. rewrite Nat2Z.id, lookup_app_r, Nat.sub_diag by lia. destruct a as [|x a]; cbn [app lookup list_lookup unwrap mbind outcome_bind].
    - rewrite Hc. cbn. by rewrite Nat.add_0_r.
    - inversion_clear Ha as [|? ? Hx Ha']. rewrite Hx. rewrite !length_app in Hl. cbn in Hl. rewrite uadd_ok by lia. cbn [mbind outcome_bind].
      replace (Z.of_nat (length pre) + 1) with (Z.of_nat (length (pre ++ [x]))) by (rewrite length_app; cbn; lia).
      rewrite (IH a (pre ++ [x])); [|done|cbn in Hf; lia| |].
      + rewrite length_app. cbn. f_equal. lia.
      + intros cur. rewrite Hb. by rewrite <- app_assoc.
      + rewrite <- app_assoc, !length_app. cbn. lia. }
  apply Hgen; try done. rewrite !length_app. cbn. lia.
Qed.

Lemma skip_slashes_ok path pre a c post :
  path = pre ++ a ++ c :: post → Forall (λ c, (c =? SLASH) = true) a → (c =? SLASH) = false → Z.of_nat (length path) < 2 ^ 64 →
  skip_slashes path (Z.of_nat (length pre)) = Done (Z.of_nat (length pre + length a)).
Proof. intros. by apply (scan_while (λ c, c =? SLASH) _ path pre a c post). Qed.

Lemma skip_element_ok path pre a c post :
  path = pre ++ a ++ c :: post → Forall (λ c, (negb (c =? SLASH) && negb (c =? 0)) = true) a →
  (negb (c =? SLASH) && negb (c =? 0)) = false → Z.of_nat (length path) < 2 ^ 64 →
  skip_element path (Z.of_nat (length pre)) = Done (Z.of_nat (length pre + length a)).
Proof. intros. by apply (scan_while (λ c, negb (c =? SLASH) && negb (c =? 0)) _ path pre a c post). Qed.

Lemma path_at_ok path pre c post : path = pre ++ c :: post → path_at path (Z.of_nat (length pre)) = Done c.
Proof. intros ->. unfold path_at. rewrite Nat2Z.id, lookup_app_r, Nat.sub_diag by lia. done. Qed.

Lemma get_bytes_mid pre e post : get_bytes (pre ++ e ++ post) (Z.of_nat (length pre)) (Z.of_nat (length e)) = e.
Proof. unfold get_bytes. rewrite !Nat2Z.id, drop_app_length. by rewrite take_app_length. Qed.

Lemma c_string_prefix e post : Forall (λ c, (c =? 0) = false) e → c_string (e ++ 0 :: post) = e.
Proof. induction 1 as [|c e Hc He IH]; [done|]. cbn. by rewrite Hc, IH. Qed.

Lemma c_string_name name e : Z.of_nat (length e) < Z.of_nat (length name) → Forall (λ c, (c =? 0) = false) e →
  c_string (put_bytes (put_bytes name 0 e) (Z.of_nat (length e)) [0]) = e.
Proof.
  intros Hl He. unfold put_bytes at 1. rewrite Nat2Z.id. unfold put_bytes at 1. change (Z.to_nat 0) with 0%nat. cbn [take app].
  rewrite take_0, app_nil_l, take_app_length. by apply c_string_prefix.
Qed.

(** The bytes that end an element are a slash and the NUL. *)
Lemma element_stop c : (c =? 0) = false → (negb (c =? SLASH) && negb (c =? 0)) = negb (c =? SLASH).
Proof. intros ->. by rewrite andb_true_r. Qed.

Definition no_nul : list Z → Prop := Forall (λ c, (c =? 0) = false).

Definition slashes : list Z → Prop := Forall (λ c, (c =? SLASH) = true).
Definition starts (p : Z → bool) (s : list Z) : Prop := s = [] ∨ ∃ c s', s = c :: s' ∧ p c = true.

(** A path that has a first element: slashes, the element, slashes, the rest. *)
Lemma path_shape s : slashes s ∨ ∃ a e sl s',
  s = a ++ e ++ sl ++ s' ∧ slashes a ∧ slashes sl ∧ Forall (λ c, negb (c =? SLASH) = true) e ∧ e ≠ [] ∧
  starts (λ c, c =? SLASH) (sl ++ s') ∧ starts (λ c, negb (c =? SLASH)) s' ∧ elements_of s = e :: elements_of s'.
Proof.
  destruct (split_while (λ c, c =? SLASH) s) as (a & b & -> & Ha & [->|(c & b' & -> & Hc)]); [left; by rewrite app_nil_r|].
  destruct (split_while (λ c, negb (c =? SLASH)) (c :: b')) as (e & r & Hb & He & Hr).
  assert (e ≠ []) as Hne. { intros ->. destruct Hr as [->|(c2 & r' & -> & Hc2)]; [done|]. injection Hb as -> ->. by rewrite Hc in Hc2. }
  rewrite Hb. destruct (split_while (λ c, c =? SLASH) r) as (sl & s' & -> & Hsl & Hs').
  assert (starts (λ c, c =? SLASH) (sl ++ s')) as Hr2.
  { destruct Hr as [->|(c2 & r' & -> & Hc2)]; [by left|]. right. exists c2, r'. split; [done|]. by apply negb_false_iff. }
  right. exists a, e, sl, s'. split_and!; try done.
  - destruct Hs' as [->|(c2 & s2 & -> & Hc2)]; [by left|]. right. exists c2, s2. by rewrite Hc2.
  - unfold elements_of. rewrite words_slashes by done. rewrite (words_element e []); [|by eapply Forall_impl; [exact He|]; intros x; apply negb_true_iff|done|done].
    by rewrite words_slashes.
Qed.

(** Skipping the first element. *)
Lemma skip_path_element path pre a e sl s' post name :
  path = pre ++ a ++ e ++ sl ++ s' ++ 0 :: post → slashes a → slashes sl → Forall (λ c, negb (c =? SLASH) = true) e → e ≠ [] →
  no_nul e → starts (λ c, c =? SLASH) (sl ++ s') → starts (λ c, negb (c =? SLASH)) s' → Z.of_nat (length path) < 2 ^ 64 →
  skip_path path (Z.of_nat (length pre)) name =
    if DIRSIZ <=? Z.of_nat (length e) then Panic "assertion failed: false"
    else Done (Z.of_nat (length (((pre ++ a) ++ e) ++ sl)), put_bytes (put_bytes name 0 e) (Z.of_nat (length e)) [0]).
Proof.
  intros Hp Ha Hsl He Hne Hn Hr Hs Hlen.
  assert (path = (pre ++ a) ++ e ++ sl ++ s' ++ 0 :: post) as Hp1 by (by rewrite Hp, <- !app_assoc).
  assert (path = ((pre ++ a) ++ e) ++ sl ++ s' ++ 0 :: post) as Hp2 by (by rewrite Hp1, <- !app_assoc).
  destruct e as [|c e1] eqn:Ee; [done|]. rewrite <- Ee in *.
  assert ((c =? SLASH) = false ∧ (c =? 0) = false) as [Hc1 Hc0] by (rewrite Ee in *; inversion He; inversion Hn; split; [by apply negb_true_iff|done]).
  assert (∃ c2 post2, s' ++ 0 :: post = c2 :: post2 ∧ (c2 =? SLASH) = false) as (c2 & post2 & Hc2 & Hn2).
  { destruct Hs as [->|(c2 & s2 & -> & Hc2)]; cbn; [by eauto|]. eexists _, _. split; [done|]. by apply negb_true_iff. }
  assert (∃ c3 post3, sl ++ s' ++ 0 :: post = c3 :: post3 ∧ (negb (c3 =? SLASH) && negb (c3 =? 0)) = false) as (c3 & post3 & Hc3 & Hn3).
  { rewrite app_assoc. destruct Hr as [->|(x & r' & -> & Hx)]; cbn; [by eauto|]. eexists _, _. split; [done|]. by rewrite Hx. }
  unfold skip_path. rewrite (skip_slashes_ok path pre a c (e1 ++ sl ++ s' ++ 0 :: post)); [|by rewrite Hp, Ee|done..].
  cbn [mbind outcome_bind]. rewrite <- length_app.
  rewrite (path_at_ok path (pre ++ a) c (e1 ++ sl ++ s' ++ 0 :: post)) by (by rewrite Hp1, Ee). cbn [mbind outcome_bind]. rewrite Hc0.
  rewrite (skip_element_ok path (pre ++ a) e c3 post3); [|by rewrite Hp1, Hc3| |done|done].
  2: { eapply Forall_impl; [apply Forall_and; split; [exact Hn|exact He]|]. intros x [H1 H2]. by rewrite element_stop. }
  cbn [mbind outcome_bind]. rewrite usub_ok; [|apply (f_equal length) in Hp1; rewrite !length_app in Hp1; lia]. cbn [mbind outcome_bind].
  replace (Z.of_nat (length (pre ++ a) + length e) - Z.of_nat (length (pre ++ a))) with (Z.of_nat (length e)) by lia.
  destruct (DIRSIZ <=? Z.of_nat (length e)); [done|].
  rewrite <- length_app. rewrite (skip_slashes_ok path ((pre ++ a) ++ e) sl c2 post2) by (done || by rewrite Hp2, Hc2). cbn [mbind outcome_bind].
  rewrite <- length_app. rewrite Hp1 at 1. by rewrite get_bytes_mid.
Qed.

(** One call of [skip_path] on a NUL-terminated path. *)
Lemma skip_path_step path pre s post name :
  path = pre ++ s ++ 0 :: post → no_nul s → Z.of_nat (length path) < 2 ^ 64 → Z.of_nat (length name) = DIRSIZ →
  match elements_of s with
  | [] => skip_path path (Z.of_nat (length pre)) name = Done (0, name)
  | e :: es =>
      if DIRSIZ <=? Z.of_nat (length e) then ∃ msg, skip_path path (Z.of_nat (length pre)) name = Panic msg
      else ∃ pre' s' name', path = pre' ++ s' ++ 0 :: post ∧ no_nul s' ∧ elements_of s' = es ∧
        (length pre < length pre')%nat ∧ c_string name' = e ∧ Z.of_nat (length name') = DIRSIZ ∧
        skip_path path (Z.of_nat (length pre)) name = Done (Z.of_nat (length pre'), name')
  end.
Proof.
  intros Hp Hs Hlen Hname. destruct (path_shape s) as [Ha|(a & e & sl & s' & -> & Ha & Hsl & He & Hne & Hr & Hs' & ->)].
  - assert (elements_of s = []) as -> by (unfold elements_of; rewrite <- (app_nil_r s); by rewrite words_slashes). unfold skip_path.
    rewrite (skip_slashes_ok path pre s 0 post) by done. cbn [mbind outcome_bind].
    rewrite <- length_app, (path_at_ok path (pre ++ s) 0 post) by (by rewrite Hp, <- app_assoc). done.
  - apply Forall_app in Hs as [_ Hs]. apply Forall_app in Hs as [Hne0 Hs]. apply Forall_app in Hs as [_ Hs].
    rewrite (skip_path_element path pre a e sl s' post name); [|by rewrite Hp, <- !app_assoc|done..].
    destruct (Z.leb_spec DIRSIZ (Z.of_nat (length e))) as [Hbig|Hsmall]; [by eauto|].
    eexists (((pre ++ a) ++ e) ++ sl), s', _. split_and!; [by rewrite Hp, <- !app_assoc|done..| | | |done].
    + rewrite !length_app. destruct e; [done|]. cbn. lia.
    + apply c_string_name; [lia|done].
    + rewrite !length_put_bytes; rewrite ?length_put_bytes; cbn; lia.
Qed.

(** The calls [namex] makes: the names it looks up, one after the other. *)
Definition names_round (path : list Z) (st : Z * list Z * list (list Z)) : outcome (list (list Z) + Z * list Z * list (list Z)) :=
  let '(cur, name, acc) := st in
  '(cur, name) ← skip_path path cur name;
  if cur =? 0 then Done (inl acc) else Done (inr (cur, name, acc ++ [c_string name])).

Definition lookup_names (path : list Z) : outcome (list (list Z)) :=
  while_fuel (S (length path)) (names_round path) (0, replicate (Z.to_nat DIRSIZ) 0, []).

Definition short (e : list Z) : bool := Z.of_nat (length e) <? DIRSIZ.

Lemma names_rounds path post : ∀ es fuel pre s name acc,
  elements_of s = es → path = pre ++ s ++ 0 :: post → no_nul s → Z.of_nat (length path) < 2 ^ 64 → Z.of_nat (length name) = DIRSIZ →
  (length es < fuel)%nat →
  if forallb short es then while_fuel fuel (names_round path) (Z.of_nat (length pre), name, acc) = Done (acc ++ es)
  else ∃ msg, while_fuel fuel (names_round path) (Z.of_nat (length pre), name, acc) = Panic msg.
Proof.
  induction es as [|e es IH]; intros fuel pre s name acc He Hp Hs Hlen Hn Hf; (destruct fuel as [|fuel]; [lia|]);
    pose proof (skip_path_step path pre s post name Hp Hs Hlen Hn) as Hstep; rewrite He in Hstep; cbn [while_fuel forallb];
    unfold names_round at 2; try unfold names_round at 3; cbv beta iota.
  - rewrite Hstep. cbn. by rewrite app_nil_r.
  - unfold short at 1. rewrite Z.leb_antisym in Hstep. destruct (Z.of_nat (length e) <? DIRSIZ); cbn [negb andb] in *.
    + destruct Hstep as (pre' & s' & name' & Hp' & Hs' & He' & Hlt & Hc & Hn' & ->). cbn [mbind outcome_bind].
      rewrite (proj2 (Z.eqb_neq _ _)) by lia. cbn [mbind outcome_bind]. rewrite Hc.
      specialize (IH fuel pre' s' name' (acc ++ [e]) He' Hp' Hs' Hlen Hn' ltac:(cbn in Hf; lia)).
      rewrite <- app_assoc in IH. exact IH.
    + destruct Hstep as [msg ->]. cbn. by eauto.
Qed.

Lemma words_length s : ∀ acc, (length (words acc s) ≤ length acc + length s)%nat.
Proof.
  induction s as [|c s IH]; intros acc; cbn [words].
  - destruct acc; cbn; lia.
  - destruct (c =? SLASH).
    + specialize (IH []). destruct acc; cbn in *; lia.
    + specialize (IH (acc ++ [c])). rewrite length_app in IH. cbn in *. lia.
Qed.

(** C34 Parsing a path with a cursor is splitting it at slashes: on a
    NUL-terminated path the names [namex] looks up are the non-empty words between
    the slashes, in order, however many slashes there are; a word that does not
    fit into a directory entry makes the kernel panic. *)
Theorem path_elements s post (Hs : no_nul s) (Hlen : Z.of_nat (length (s ++ 0 :: post)) < 2 ^ 64) :
  if forallb short (elements_of s) then lookup_names (s ++ 0 :: post) = Done (elements_of s)
  else ∃ msg, lookup_names (s ++ 0 :: post) = Panic msg.
Proof.
  apply (names_rounds (s ++ 0 :: post) post (elements_of s) _ [] s _ []); try done.
  pose proof (words_length s []) as Hw. unfold elements_of. rewrite length_app. cbn in *. lia.
Qed.

(** "//usr///bin/". *)
Lemma path_elements_witness :
  lookup_names [47; 47; 117; 115; 114; 47; 47; 47; 98; 105; 110; 47; 0; 0] = Done [[117; 115; 114]; [98; 105; 110]].
Proof.
  apply (path_elements [47; 47; 117; 115; 114; 47; 47; 47; 98; 105; 110; 47] [0]); [by repeat constructor|by vm_compute].
Defined.
