(* ===== verification/Directory.v ===== *)
(** * Looking up names

    What [dir_lookup] finds in a directory whose blocks are allocated, and the
    walk of [namei] over a path of one element. *)

From Stdlib Require Import ZArith Lia.
From stdpp Require Import base gmap strings numbers list.
From S2P Require Import Prelude Bytes Bio BioSpec BioCache BioClient DiskLayout Log LogSpec PhysMem Bitmap Inode InodeSpec InodeTheorems Path.
From S2P Require Import PathTheorems.

Local Open Scope Z_scope.

(** ** Comparing names *)

(** One position of the comparison. *)
Definition name_body (entry name : list Z) (i : Z) (_ : unit) : outcome (bool + unit) :=
  a ← unwrap "index out of bounds" (entry !! Z.to_nat i);
  b ← unwrap "index out of bounds" (name !! Z.to_nat i);
  if negb (a =? b) then Done (inl false)
  else if a =? 0 then Done (inl true)
  else Done (inr tt).

Lemma name_loop a : ∀ b p q n, length a = n → length b = n → length p = length q → 0 ∈ b →
  for_each_until (seqZ (Z.of_nat (length p)) (Z.of_nat n)) (name_body (p ++ a) (q ++ b)) tt =
    Done (inl (bool_decide (c_string a = c_string b))).
Proof.
  induction a as [|x a IH]; intros b p q n Ha Hb Hpq H0.
  - assert (b = []) as -> by (apply length_zero_iff_nil; cbn in *; lia). by apply elem_of_nil in H0.
  - destruct b as [|y b]; [cbn in *; lia|]. destruct n as [|n]; [done|]. rewrite seqZ_cons by lia. cbn [for_each_until]. unfold name_body at 2.
    rewrite Nat2Z.id, list_lookup_middle, Hpq, list_lookup_middle by done. cbn [unwrap mbind outcome_bind c_string].
    destruct (Z.eqb_spec x y) as [->|Hxy]; cbn [negb].
    + destruct (Z.eqb_spec y 0) as [->|Hy]; cbn [mbind outcome_bind].
      * by rewrite bool_decide_eq_true_2.
      * specialize (IH b (p ++ [y]) (q ++ [y]) n ltac:(cbn in *; lia) ltac:(cbn in *; lia)).
        rewrite <- !app_assoc, !length_app in IH. cbn [length app] in IH.
        replace (Z.succ (Z.of_nat (length q))) with (Z.of_nat (length p + 1)) by lia.
        replace (Z.pred (Z.of_nat (S n))) with (Z.of_nat n) by lia. rewrite IH; [|lia|].
        -- do 2 f_equal. apply bool_decide_ext. split; [by intros ->|by intros [= ->]].
        -- apply elem_of_cons in H0 as [?|?]; [congruence|done].
    + cbn [mbind outcome_bind]. rewrite bool_decide_eq_false_2; [done|].
      destruct (Z.eqb_spec x 0), (Z.eqb_spec y 0); subst; try done; congruence.
Qed.

(** The comparison decides whether the names are equal as strings. *)
Lemma same_name_ok entry name : Z.of_nat (length entry) = DIRSIZ → Z.of_nat (length name) = DIRSIZ → 0 ∈ name →
  same_name entry name = Done (bool_decide (c_string entry = c_string name)).
Proof.
  intros He Hn H0. unfold DIRSIZ in *.
  change (same_name entry name) with
    (r ← for_each_until (seqZ (Z.of_nat 0) (Z.of_nat 14)) (name_body entry name) tt; match r with inl b => Done b | inr _ => Done false end).
  pose proof (name_loop entry name [] [] 14 ltac:(lia) ltac:(lia) eq_refl H0) as H. cbn [app length] in H. by rewrite H.
Qed.

(** ** Searching a directory *)

Section Lookup.
Context {D : Type} {BD : BlockDevice D} {BDL : BlockDeviceLaws D} {BF : BitField} (dev : Z).

(** Entry [k] of the directory. *)
Definition entry_at (c : Z → block) (f : Z → Z) (k : Z) : DirEntry := decode_direntry (file_bytes c f (DIRENTRY_SIZE * k) DIRENTRY_SIZE).

Lemma length_entry_name c f k : Z.of_nat (length (de_name (entry_at c f k))) = DIRSIZ.
Proof using.
  unfold entry_at, decode_direntry. cbn [de_name]. rewrite length_get_bytes; rewrite ?length_file_bytes; unfold DIRSIZ, DIRENTRY_SIZE; lia.
Qed.

Lemma put_bytes_all (m bs : list Z) : length bs = length m → put_bytes m 0 bs = bs.
Proof using. intros Hl. unfold put_bytes. cbn. rewrite drop_ge by lia. apply app_nil_r. Qed.

Lemma read_entry_ok g e k d c L f :
  id_dev g = dev → quiet dev (d_b d) c L → (length L < NBUF)%nat → Z.of_nat (length (de_name e)) = DIRSIZ →
  0 ≤ k → DIRENTRY_SIZE * k + DIRENTRY_SIZE ≤ di_size (id_dinode g) → di_size (id_dinode g) < 2 ^ 32 →
  mapped_range c (id_dinode g) f (DIRENTRY_SIZE * k) DIRENTRY_SIZE →
  ∃ s', read_entry g e (DIRENTRY_SIZE * k) d = Done (Ok tt, g, entry_at c f k, with_b d s') ∧ disk s' = disk (d_b d) ∧ quiet dev s' c L.
Proof using BDL.
  intros Hdev Hq HL He Hk Hsz H32 Hm. unfold read_entry. assert (Z.of_nat (length (encode_direntry e)) = DIRENTRY_SIZE) as Hle.
  { unfold encode_direntry. rewrite length_app, length_le_encode. unfold DIRSIZ, DIRENTRY_SIZE in *. lia. }
  destruct (inode_read_ok dev (M := list Z) false g 0 (DIRENTRY_SIZE * k) DIRENTRY_SIZE d (encode_direntry e) c L f)
    as (s' & -> & Hd & Hq'); try done; try (unfold DIRENTRY_SIZE in *; lia).
  - change (0 ≤ 0 ∧ 0 + DIRENTRY_SIZE ≤ Z.of_nat (length (encode_direntry e))). lia.
  - cbn [mbind outcome_bind]. exists s'. cbn [dst_put local_destination]. rewrite put_bytes_all; [done|].
    rewrite length_file_bytes. lia.
Qed.

(** An entry that is in use and has the name. *)
Definition matches (e : DirEntry) (name : list Z) : Prop := de_inum e ≠ 0 ∧ c_string (de_name e) = name.

Global Instance matches_dec e name : Decision (matches e name).
Proof using. unfold matches. apply _. Defined.

(** One entry. *)
Definition lookup_body (name : list Z) (ic : InodeCache) (k : Z) (st : InodeData * DirEntry * dstate D) :
    outcome ((Inode * InodeData * InodeCache * dstate D) + (InodeData * DirEntry * dstate D)) :=
  let '(self, e, d) := st in
  '(r, self, e, d) ← read_entry self e (DIRENTRY_SIZE * k) d;
  match r with
  | Err _ => Panic "Cannot read entry in this dir"
  | Ok _ =>
      if de_inum e =? 0 then Done (inr (self, e, d))
      else
        eq ← same_name (de_name e) name;
        if (eq : bool) then
          '(inode, ic) ← get (id_dev self) (de_inum e) ic;
          Done (inl (inode, self, ic, d))
        else Done (inr (self, e, d))
  end.

(** A directory of [N] entries, of which those before [n] are allocated. *)
Record dir_ok (g : InodeData) (c : Z → block) (f : Z → Z) (N n : Z) : Prop := {
  dk_dev : id_dev g = dev;
  dk_type : itype (id_dinode g) = Directory;
  dk_size : di_size (id_dinode g) = DIRENTRY_SIZE * N;
  dk_size32 : di_size (id_dinode g) < 2 ^ 32;
  dk_le : 0 ≤ n ≤ N;
  dk_map : ∀ k, 0 ≤ k < n → mapped_range c (id_dinode g) f (DIRENTRY_SIZE * k) DIRENTRY_SIZE;
}.

(** A name of a path: terminated inside of the entry. *)
Definition path_name (name : list Z) : Prop := Z.of_nat (length name) = DIRSIZ ∧ 0 ∈ name.

Lemma lookup_round g c f N n name ic k e d L :
  dir_ok g c f N n → 0 ≤ k < n → path_name name → Z.of_nat (length (de_name e)) = DIRSIZ → quiet dev (d_b d) c L → (length L < NBUF)%nat →
  ∃ s, disk s = disk (d_b d) ∧ quiet dev s c L ∧
    lookup_body name ic k (g, e, d) =
      if decide (matches (entry_at c f k) (c_string name)) then
        '(inode, ic) ← get dev (de_inum (entry_at c f k)) ic; Done (inl (inode, g, ic, with_b d s))
      else Done (inr (g, entry_at c f k, with_b d s)).
Proof using BDL.
  intros [H1 H2 H3 H4 H5 H6] Hk [Hn1 Hn2] He Hq HL.
  destruct (read_entry_ok g e k d c L f H1 Hq HL He) as (s & Hrun & Hd & Hq'); [lia|unfold DIRENTRY_SIZE in *; lia|done|by apply H6|].
  exists s. split; [done|]. split; [done|]. unfold lookup_body. rewrite Hrun. cbn [mbind outcome_bind]. pose proof (length_entry_name c f k) as Hl.
  destruct (Z.eqb_spec (de_inum (entry_at c f k)) 0) as [E|E].
  - by rewrite decide_False by (intros [? _]; done).
  - rewrite same_name_ok by done. cbn [mbind outcome_bind]. destruct (decide (c_string (de_name (entry_at c f k)) = c_string name)) as [Hs|Hs].
    + rewrite bool_decide_eq_true_2, decide_True by done. by rewrite H1.
    + rewrite bool_decide_eq_false_2 by done. by rewrite decide_False by (intros [_ ?]; done).
Qed.

Lemma dir_lookup_eq g name ic d N :
  itype (id_dinode g) = Directory → di_size (id_dinode g) = DIRENTRY_SIZE * N →
  dir_lookup g name ic d =
    (r ← for_range_until 0 N (lookup_body name ic) (g, new_direntry, d);
     match r with inl (inode, self, ic, d) => Done (Some inode, self, ic, d) | inr (self, _, d) => Done (None, self, ic, d) end).
Proof using.
  intros Ht Hs. unfold dir_lookup. rewrite bool_decide_eq_true_2 by done. cbn [negb]. unfold dir_steps. rewrite Hs.
  by replace ((DIRENTRY_SIZE * N - 0 + DIRENTRY_SIZE - 1) / DIRENTRY_SIZE) with N by (unfold DIRENTRY_SIZE; divlia).
Qed.

(** The state of the search before entry [k]. *)
Definition searching (g : InodeData) (c : Z → block) (L : list Z) (d : dstate D) (st : InodeData * DirEntry * dstate D) : Prop :=
  ∃ e s, st = (g, e, with_b d s) ∧ Z.of_nat (length (de_name e)) = DIRSIZ ∧ disk s = disk (d_b d) ∧ quiet dev s c L.

(** The first entry that matches is the one found. *)
Lemma dir_lookup_found g c f N n name ic d L k inode ic' :
  dir_ok g c f N n → path_name name → quiet dev (d_b d) c L → (length L < NBUF)%nat → 0 ≤ k < n →
  (∀ j, 0 ≤ j < k → ¬ matches (entry_at c f j) (c_string name)) → matches (entry_at c f k) (c_string name) →
  get dev (de_inum (entry_at c f k)) ic = Done (inode, ic') →
  ∃ s, dir_lookup g name ic d = Done (Some inode, g, ic', with_b d s) ∧ disk s = disk (d_b d) ∧ quiet dev s c L.
Proof using BDL.
  intros Hok Hn Hq HL Hk Hbefore Hm Hget. pose proof (dk_le _ _ _ _ _ Hok). rewrite (dir_lookup_eq g name ic d N) by apply Hok.
  destruct (for_range_until_inv (λ i st, i ≤ k ∧ searching g c L d st)
    (λ r, ∃ s, r = (inode, g, ic', with_b d s) ∧ disk s = disk (d_b d) ∧ quiet dev s c L) 0 N (lookup_body name ic) (g, new_direntry, d))
    as [(r & -> & s & -> & Hd & Hq')|(st & _ & Hle & _)].
  - lia.
  - split; [lia|]. exists new_direntry, (d_b d). by destruct d.
  - intros i st Hi (Hik & e & s & -> & He & Hds & Hqs).
    destruct (lookup_round g c f N n name ic i e (with_b d s) L Hok) as (s' & Hd' & Hq' & ->); [lia|done|done|done|done|].
    destruct (decide (i = k)) as [->|Hne].
    + left. rewrite decide_True, Hget by done. cbn. eexists. split; [done|]. exists s'. split_and!; [done|cbn in *; congruence|done].
    + right. rewrite decide_False by (apply Hbefore; lia). eexists. split; [done|]. split; [lia|]. exists (entry_at c f i), s'.
      split_and!; [done|apply length_entry_name|cbn in *; congruence|done].
  - cbn [mbind outcome_bind]. by exists s.
  - lia.
Qed.

Lemma dir_lookup_none g c f N name ic d L :
  dir_ok g c f N N → path_name name → quiet dev (d_b d) c L → (length L < NBUF)%nat → (∀ j, 0 ≤ j < N → ¬ matches (entry_at c f j) (c_string name)) →
  ∃ s, dir_lookup g name ic d = Done (None, g, ic, with_b d s) ∧ disk s = disk (d_b d) ∧ quiet dev s c L.
Proof using BDL.
  intros Hok Hn Hq HL Hno. pose proof (dk_le _ _ _ _ _ Hok). rewrite (dir_lookup_eq g name ic d N) by apply Hok.
  destruct (for_range_until_inv (λ _ st, searching g c L d st) (λ _, False) 0 N (lookup_body name ic) (g, new_direntry, d))
    as [(r & _ & [])|(st & -> & e & s & -> & _ & Hd & Hq')].
  - lia.
  - exists new_direntry, (d_b d). by destruct d.
  - intros i st Hi (e & s & -> & He & Hds & Hqs).
    destruct (lookup_round g c f N N name ic i e (with_b d s) L Hok) as (s' & Hd' & Hq' & ->); [lia|done|done|done|done|].
    right. rewrite decide_False by (apply Hno; lia). eexists. split; [done|]. exists (entry_at c f i), s'.
    split_and!; [done|apply length_entry_name|cbn in *; congruence|done].
  - cbn [mbind outcome_bind]. by exists s.
Qed.
End Lookup.

(** ** The cache of inodes *)

(** No slot with references holds the inode; slot [i] is the first without
    references. *)
Lemma get_fresh dev inum ic (i : nat) x idata :
  length (ic_meta ic) = Z.to_nat NINODE →
  (∀ j y, ic_meta ic !! j = Some y → 0 < im_refs y → im_inum y ≠ inum ∨ im_dev y ≠ dev) →
  ic_meta ic !! i = Some x → im_refs x = 0 → (∀ j y, (j < i)%nat → ic_meta ic !! j = Some y → im_refs y ≠ 0) →
  ic_data ic !! i = Some (false, idata) → id_valid idata = false →
  get dev inum ic = Done (mkInode dev inum (Z.of_nat i), mkIc (<[i := mkMeta dev (im_blockno x) inum 1]> (ic_meta ic)) (ic_data ic)).
Proof.
  intros Hlen Hno Hx Hr Hfirst Hdata Hv. unfold get, get_scan.
  destruct (for_range_until_inv (λ k e, e = if decide (Z.of_nat i < k) then Some (Z.of_nat i) else None) (λ _ : Inode * InodeCache, False) 0 NINODE
    (λ i empty_i,
      x ← meta_at ic i;
      if (im_inum x =? inum) && (0 <? im_refs x) && (im_dev x =? dev) then
        n ← uadd (im_refs x) 1;
        Done (inl (mkInode dev inum i, set_refs i n x ic))
      else if bool_decide (empty_i = None) && (im_refs x =? 0) then Done (inr (Some i))
      else Done (inr empty_i)) None) as [(r & _ & [])|(e & -> & ->)].
  - done.
  - by rewrite decide_False by lia.
  - intros k e Hk ->. right. destruct (lookup_lt_is_Some_2 (ic_meta ic) (Z.to_nat k)) as [y Hy]; [rewrite Hlen; lia|].
    unfold meta_at. rewrite Hy. cbn [unwrap mbind outcome_bind].
    assert ((im_inum y =? inum) && (0 <? im_refs y) && (im_dev y =? dev) = false) as ->.
    { destruct (Z.ltb_spec 0 (im_refs y)) as [Hp|]; [|by rewrite andb_false_r]. destruct (Hno _ y Hy Hp) as [H|H].
      - by rewrite (proj2 (Z.eqb_neq _ _)).
      - by rewrite (proj2 (Z.eqb_neq (im_dev y) _)), andb_false_r. }
    destruct (decide (Z.of_nat i < k)) as [Hlt|Hge].
    + rewrite bool_decide_eq_false_2 by done. cbn. eexists. split; [done|]. by rewrite decide_True by lia.
    + rewrite bool_decide_eq_true_2 by done. cbn [andb]. destruct (decide (k = Z.of_nat i)) as [->|Hne].
      * rewrite Nat2Z.id in Hy. assert (y = x) as -> by congruence. rewrite Hr. cbn. eexists. split; [done|]. by rewrite decide_True by lia.
      * rewrite (proj2 (Z.eqb_neq _ _)) by (apply (Hfirst (Z.to_nat k)); [lia|done]). eexists. split; [done|]. by rewrite decide_False by lia.
  - assert (i < Z.to_nat NINODE)%nat by (rewrite <- Hlen; by eapply lookup_lt_Some). cbn [mbind outcome_bind]. rewrite decide_True by lia.
    unfold meta_at. rewrite Nat2Z.id, Hx. cbn [unwrap mbind outcome_bind]. unfold lock_idata, set_meta. cbn [ic_data ic_meta]. rewrite Nat2Z.id, Hdata.
    cbn [unwrap mbind outcome_bind]. rewrite Hv. cbn. unfold unlock. cbn. by rewrite Nat2Z.id, list_insert_insert_eq, (list_insert_id (ic_data ic)).
Qed.

Section Put.
Context {D : Type} {BD : BlockDevice D} {BF : BitField}.

(** The last reference of an inode that has links. *)
Lemma put_last dev inum (i : nat) ic (d : dstate D) m x :
  ic_meta ic !! i = Some m → im_refs m = 1 → ic_data ic !! i = Some (false, x) → 0 < nlink (id_dinode x) →
  put (mkInode dev inum (Z.of_nat i)) ic d =
    Done (mkIc (<[i := mkMeta (im_dev m) (im_blockno m) (im_inum m) 0]> (ic_meta ic))
               (<[i := (false, mkData false (id_dev x) (id_inum x) (id_dinode x))]> (ic_data ic)), d).
Proof.
  intros Hm Hr Hx Hn. unfold put, meta_at, lock_idata. cbn [i_index]. rewrite Nat2Z.id, Hm. cbn [unwrap mbind outcome_bind]. rewrite Hr. cbn [Z.eqb Pos.eqb].
  rewrite Hx. cbn [unwrap mbind outcome_bind]. rewrite (proj2 (Z.ltb_lt 0 _)), orb_true_r by done. rewrite usub_ok by lia. cbn [mbind outcome_bind].
  unfold set_refs, set_meta, unlock. cbn [ic_meta ic_data]. by rewrite !Nat2Z.id, list_insert_insert_eq.
Qed.
End Put.

(** ** A path of one element *)

(** No inode is in use, and exactly one reference is. *)
Record idle (ic : InodeCache) : Prop := {
  il_meta : length (ic_meta ic) = Z.to_nat NINODE;
  il_data : length (ic_data ic) = Z.to_nat NINODE;
  il_refs : ∀ j y, ic_meta ic !! j = Some y → im_refs y = 0;
  il_free : ∀ j x, ic_data ic !! j = Some x → x.1 = false ∧ id_valid x.2 = false;
}.

Record held (ic : InodeCache) (i : nat) (inum : Z) : Prop := {
  hd_meta : length (ic_meta ic) = Z.to_nat NINODE;
  hd_data : length (ic_data ic) = Z.to_nat NINODE;
  hd_ref : ∃ b, ic_meta ic !! i = Some (mkMeta ROOTDEV b inum 1);
  hd_refs : ∀ j y, j ≠ i → ic_meta ic !! j = Some y → im_refs y = 0;
  hd_free : ∀ j x, ic_data ic !! j = Some x → x.1 = false ∧ id_valid x.2 = false;
}.

Lemma slot_lt (i : nat) : (i <? 50)%nat = true → (i < Z.to_nat NINODE)%nat.
Proof. intros Hi. apply Nat.ltb_lt in Hi. change (Z.to_nat NINODE) with 50%nat. done. Qed.

Lemma new_icache_idle : idle new_icache.
Proof.
  split; [done|done|..].
  - intros j y Hj. by apply lookup_replicate in Hj as [-> _].
  - intros j x Hj. by apply lookup_replicate in Hj as [-> _].
Qed.

Lemma idle_get inum ic : idle ic → ∃ ic', get ROOTDEV inum ic = Done (mkInode ROOTDEV inum 0, ic') ∧ held ic' 0 inum.
Proof.
  intros [H1 H2 H3 H4]. destruct (lookup_lt_is_Some_2 (ic_meta ic) 0) as [m Hm]; [rewrite H1; by apply slot_lt|].
  destruct (lookup_lt_is_Some_2 (ic_data ic) 0) as [[l x] Hx]; [rewrite H2; by apply slot_lt|]. destruct (H4 _ _ Hx) as [E1 E2]. cbn in E1, E2. subst l.
  rewrite (get_fresh ROOTDEV inum ic 0 m x); try done; try lia; [|intros j y Hj Hp; rewrite (H3 j y Hj) in Hp; lia|by apply (H3 0%nat)].
  eexists. split; [done|]. split; cbn [ic_meta ic_data]; rewrite ?length_insert; try done.
  - exists (im_blockno m). apply list_lookup_insert_eq. by eapply lookup_lt_Some.
  - intros j y Hj Hy. rewrite list_lookup_insert_ne in Hy by done. by apply (H3 j).
Qed.

(** The element of a path as the kernel has it. *)
Definition element (e : list Z) : Prop := e ≠ [] ∧ Z.of_nat (length e) < DIRSIZ ∧ no_nul e ∧ Forall (λ c, negb (c =? SLASH) = true) e.

Lemma skip_first e post : element e → Z.of_nat (length (SLASH :: e ++ 0 :: post)) < 2 ^ 64 →
  ∃ name, path_name name ∧ c_string name = e ∧
    skip_path (SLASH :: e ++ 0 :: post) 0 (replicate (Z.to_nat DIRSIZ) 0) = Done (Z.of_nat (length (SLASH :: e)), name).
Proof.
  intros (Hne & Hl & Hn & Hs) Hlen.
  pose proof (skip_path_element (SLASH :: e ++ 0 :: post) [] [SLASH] e [] [] post (replicate (Z.to_nat DIRSIZ) 0)) as H.
  cbn [app length] in H. rewrite app_nil_r in H. rewrite (proj2 (Z.leb_gt _ _)) in H by done. eexists. split; [|split; [|apply H]]; try done.
  - split.
    + rewrite !length_put_bytes; rewrite ?length_put_bytes; rewrite ?length_replicate; cbn [length]; unfold DIRSIZ in *; try lia.
    + unfold put_bytes at 1. apply elem_of_app. right. apply elem_of_app. left. by apply list_elem_of_singleton.
  - apply c_string_name; [rewrite length_replicate; unfold DIRSIZ in *; lia|done].
  - by apply Forall_singleton.
  - by apply Forall_nil.
  - by left.
  - by left.
Qed.

Lemma skip_last e post name : element e → Z.of_nat (length (SLASH :: e ++ 0 :: post)) < 2 ^ 64 → path_name name →
  skip_path (SLASH :: e ++ 0 :: post) (Z.of_nat (length (SLASH :: e))) name = Done (0, name).
Proof.
  intros He Hlen Hn. exact (skip_path_step (SLASH :: e ++ 0 :: post) (SLASH :: e) [] post name eq_refl (Forall_nil_2 _) Hlen (proj1 Hn)).
Qed.

Section Held.
Context {D : Type} {BD : BlockDevice D} {BDL : BlockDeviceLaws D} {BF : BitField}.

(** Locking an inode that is held reads it from the disk ... *)
Lemma lock_held (i : nat) inum ic (d : dstate D) c L ib di :
  held ic i inum → (i < Z.to_nat NINODE)%nat → quiet ROOTDEV (d_b d) c L → (length L < NBUF)%nat → locate_inode (d_sb d) inum = Done ib →
  get_dinode (c ib) (locate_inode_offset inum) = Done di → itype di ≠ Empty →
  ∃ x s, lock (mkInode ROOTDEV inum (Z.of_nat i)) ic d =
      Done (mkData true ROOTDEV inum di, mkIc (ic_meta ic) (<[i := (true, x)]> (ic_data ic)), with_b d s) ∧
    disk s = disk (d_b d) ∧ quiet ROOTDEV s c L.
Proof using BDL.
  intros [H1 H2 H3 H4 H5] Hi Hq HL Hib Hdi Ht. destruct (lookup_lt_is_Some_2 (ic_data ic) i) as [[l x] Hx]; [by rewrite H2|].
  destruct (H5 _ _ Hx) as [E1 E2]. cbn in E1, E2. subst l. exists x.
  destruct (lock_reads (mkInode ROOTDEV inum (Z.of_nat i)) ic d c L x di ib) as (s & Hrun & Hrest); cbn [i_index i_dev i_inum]; rewrite ?Nat2Z.id; try done; [lia|].
  exists s. cbn [i_index i_dev i_inum] in Hrun. rewrite Nat2Z.id in Hrun. done.
Qed.

(** ... and giving it back leaves nothing in use. *)
Lemma put_held (i : nat) inum ic x di :
  held ic i inum → (i < Z.to_nat NINODE)%nat → 0 < nlink di →
  ∃ ic', idle ic' ∧ ∀ d : dstate D,
    put (mkInode ROOTDEV inum (Z.of_nat i)) (unlock (Z.of_nat i) (mkData true ROOTDEV inum di) (mkIc (ic_meta ic) (<[i := (true, x)]> (ic_data ic)))) d = Done (ic', d).
Proof using.
  intros [H1 H2 [b H3] H4 H5] Hi Hn. unfold unlock. cbn [ic_meta ic_data]. rewrite Nat2Z.id, list_insert_insert_eq. eexists. split; cycle 1.
  { intros d. rewrite (put_last ROOTDEV inum i _ d (mkMeta ROOTDEV b inum 1) (mkData true ROOTDEV inum di)); cbn [ic_meta ic_data]; try done.
    apply list_lookup_insert_eq. by rewrite H2. }
  rewrite list_insert_insert_eq. split; cbn [ic_meta ic_data]; rewrite ?length_insert; try done.
  - intros j y Hj. destruct (decide (j = i)) as [->|Hne].
    + rewrite list_lookup_insert_eq in Hj by (by rewrite H1). by injection Hj as <-.
    + rewrite list_lookup_insert_ne in Hj by done. by apply (H4 j).
  - intros j y Hj. destruct (decide (j = i)) as [->|Hne].
    + rewrite list_lookup_insert_eq in Hj by (by rewrite H2). by injection Hj as <-.
    + rewrite list_lookup_insert_ne in Hj by done. by apply (H5 j).
Qed.
End Held.

Section Walk.
Context {D : Type} {BD : BlockDevice D} {BDL : BlockDeviceLaws D} {BF : BitField}.
Context (c : Z → block) (L : list Z) (HL : (length L < NBUF)%nat).
Context (ib : Z) (rd : DiskInode) (f : Z → Z) (N n : Z).
Context (Hrd : get_dinode (c ib) (locate_inode_offset ROOTINUM) = Done rd) (Hlink : 0 < nlink rd).

Definition root_guard : InodeData := mkData true ROOTDEV ROOTINUM rd.
Context (Hdir : dir_ok ROOTDEV root_guard c f N n).

(** The root directory, locked for the first round. *)
Lemma lock_root ic (d : dstate D) : held ic 0 ROOTINUM → quiet ROOTDEV (d_b d) c L → locate_inode (d_sb d) ROOTINUM = Done ib →
  ∃ x s, lock (mkInode ROOTDEV ROOTINUM 0) ic d = Done (root_guard, mkIc (ic_meta ic) (<[0%nat := (true, x)]> (ic_data ic)), with_b d s) ∧
    disk s = disk (d_b d) ∧ quiet ROOTDEV s c L.
Proof using BDL HL Hrd Hdir.
  intros Hh Hq Hib. apply (lock_held 0 ROOTINUM ic d c L ib rd Hh); try done; [by apply slot_lt|].
  intros E. pose proof (dk_type _ _ _ _ _ _ Hdir) as Ht. cbn in Ht. congruence.
Qed.

(** Giving the root directory back. *)
Definition after_root (ic : InodeCache) (meta : list InodeMeta) : InodeCache :=
  match meta !! 0%nat with
  | Some m => mkIc (<[0%nat := mkMeta (im_dev m) (im_blockno m) (im_inum m) 0]> meta)
                   (<[0%nat := (false, mkData false ROOTDEV ROOTINUM rd)]> (ic_data ic))
  | None => ic
  end.

Lemma put_root ic x meta b (d : dstate D) : meta !! 0%nat = Some (mkMeta ROOTDEV b ROOTINUM 1) → length (ic_data ic) = Z.to_nat NINODE →
  put (mkInode ROOTDEV ROOTINUM 0) (unlock 0 root_guard (mkIc meta (<[0%nat := (true, x)]> (ic_data ic)))) d = Done (after_root ic meta, d).
Proof using Hlink.
  intros Hm Hl. unfold unlock. cbn [ic_meta ic_data]. change (Z.to_nat 0) with 0%nat. rewrite list_insert_insert_eq.
  pose proof (put_last ROOTDEV ROOTINUM 0 (mkIc meta (<[0%nat := (false, root_guard)]> (ic_data ic))) d _ root_guard Hm eq_refl) as H.
  change (Z.of_nat 0) with 0 in H. rewrite H; cbn [ic_meta ic_data].
  - rewrite list_insert_insert_eq. unfold after_root. by rewrite Hm.
  - apply list_lookup_insert_eq. rewrite Hl. by apply slot_lt.
  - done.
Qed.

(** One round of the walk, put together from its parts. *)
Lemma walk_round path cur cur' name name' ic ic2 ic3 ic4 (d d1 d2 d3 : dstate D) found :
  skip_path path cur name = Done (cur', name') → cur' ≠ 0 → lock (mkInode ROOTDEV ROOTINUM 0) ic d = Done (root_guard, ic2, d1) →
  dir_lookup root_guard name' ic2 d1 = Done (found, root_guard, ic3, d2) →
  put (mkInode ROOTDEV ROOTINUM 0) (unlock 0 root_guard ic3) d2 = Done (ic4, d3) →
  namex_step path false (mkInode ROOTDEV ROOTINUM 0, cur, name, ic, d) =
    Done (match found with Some i => inr (i, cur', name', ic4, d3) | None => inl (None, name', ic4, d3) end).
Proof using Hdir.
  intros H1 H2 H3 H4 H5. unfold namex_step. rewrite H1, bind_Done_l. rewrite (proj2 (Z.eqb_neq _ _)) by done.
  rewrite H3, bind_Done_l, bool_decide_eq_true_2 by apply Hdir. cbn [negb andb]. rewrite bind_Done_l, H4, bind_Done_l. cbn [i_index].
  rewrite H5, bind_Done_l. by destruct found.
Qed.

Lemma walk_end path cur name name' i ic (d : dstate D) :
  skip_path path cur name = Done (0, name') → namex_step path false (i, cur, name, ic, d) = Done (inl (Some i, name', ic, d)).
Proof using. intros H. unfold namex_step. by rewrite H, bind_Done_l. Qed.

(** The walk of [namei] when the lookup in the root directory is known. *)
Lemma namei_one e post cwd name ic ic1 ic2 ic3 ic4 (d d1 d2 d3 : dstate D) found :
  element e → Z.of_nat (length (SLASH :: e ++ 0 :: post)) < 2 ^ 64 → path_name name →
  get ROOTDEV ROOTINUM ic = Done (mkInode ROOTDEV ROOTINUM 0, ic1) →
  skip_path (SLASH :: e ++ 0 :: post) 0 (replicate (Z.to_nat DIRSIZ) 0) = Done (Z.of_nat (length (SLASH :: e)), name) →
  lock (mkInode ROOTDEV ROOTINUM 0) ic1 d = Done (root_guard, ic2, d1) → dir_lookup root_guard name ic2 d1 = Done (found, root_guard, ic3, d2) →
  put (mkInode ROOTDEV ROOTINUM 0) (unlock 0 root_guard ic3) d2 = Done (ic4, d3) →
  namei (SLASH :: e ++ 0 :: post) cwd ic d = Done (found, ic4, d3).
Proof using HL Hdir.
  intros He Hlen Hname Hget Hskip Hlock Hlook Hput. unfold namei, namex. change (path_at (SLASH :: e ++ 0 :: post) 0) with (Done SLASH).
  rewrite bind_Done_l, Z.eqb_refl, Hget, bind_Done_l. cbn [length]. cbn [while_fuel].
  rewrite (walk_round _ _ _ _ _ _ _ _ _ _ _ _ _ _ Hskip ltac:(cbn; lia) Hlock Hlook Hput), bind_Done_l. destruct found as [i|]; [|done].
  destruct (length (e ++ 0 :: post)) as [|m] eqn:El; [rewrite length_app in El; cbn in El; lia|]. cbn [while_fuel].
  by rewrite (walk_end _ _ _ _ i ic4 d3 (skip_last e post name He Hlen Hname)).
Qed.

(** The inode of the first entry with the name. *)
Lemma namei_found e post cwd k ic (d : dstate D) :
  element e → Z.of_nat (length (SLASH :: e ++ 0 :: post)) < 2 ^ 64 → idle ic → quiet ROOTDEV (d_b d) c L → locate_inode (d_sb d) ROOTINUM = Done ib →
  0 ≤ k < n → (∀ j, 0 ≤ j < k → ¬ matches (entry_at c f j) e) → matches (entry_at c f k) e → de_inum (entry_at c f k) ≠ ROOTINUM →
  ∃ ic' s, namei (SLASH :: e ++ 0 :: post) cwd ic d = Done (Some (mkInode ROOTDEV (de_inum (entry_at c f k)) 1), ic', with_b d s) ∧
    disk s = disk (d_b d) ∧ quiet ROOTDEV s c L ∧ held ic' 1 (de_inum (entry_at c f k)).
Proof using BDL HL Hrd Hdir Hlink.
  intros He Hlen Hidle Hq Hib Hk Hbefore Hm Hne. destruct (idle_get ROOTINUM ic Hidle) as (ic1 & Hget1 & Hh1).
  destruct (skip_first e post He Hlen) as (name & Hname & Hcs & Hskip). pose proof (skip_last e post name He Hlen Hname) as Hskip2.
  destruct (lock_root ic1 d Hh1 Hq Hib) as (x & s1 & Hlock & Hd1 & Hq1). destruct Hh1 as [H1 H2 [b H3] H4 H5].
  set (inum := de_inum (entry_at c f k)) in *. set (ic2 := mkIc (ic_meta ic1) (<[0%nat := (true, x)]> (ic_data ic1))) in *.
  destruct (lookup_lt_is_Some_2 (ic_meta ic1) 1) as [m1 Hm1]; [rewrite H1; by apply slot_lt|].
  destruct (lookup_lt_is_Some_2 (ic_data ic1) 1) as [[l1 x1] Hx1]; [rewrite H2; by apply slot_lt|]. destruct (H5 _ _ Hx1) as [E1 E2]. cbn in E1, E2. subst l1.
  assert (get ROOTDEV inum ic2 = Done (mkInode ROOTDEV inum 1, mkIc (<[1%nat := mkMeta ROOTDEV (im_blockno m1) inum 1]> (ic_meta ic1)) (ic_data ic2))) as Hget2.
  { apply (get_fresh ROOTDEV inum ic2 1 m1 x1); try done.
    - intros j y Hj Hp. destruct (decide (j = 0%nat)) as [->|Hj0]; [|by rewrite (H4 j y Hj0 Hj) in Hp; lia].
      left. cbn [ic2 ic_meta] in Hj. rewrite H3 in Hj. injection Hj as <-. by apply not_eq_sym.
    - by apply (H4 1%nat).
    - intros j y Hj Hy. assert (j = 0%nat) as -> by lia. cbn [ic2 ic_meta] in Hy. rewrite H3 in Hy. by injection Hy as <-.
    - cbn [ic2 ic_data]. by rewrite list_lookup_insert_ne. }
  destruct (dir_lookup_found ROOTDEV root_guard c f N n name ic2 (with_b d s1) L k _ _ Hdir Hname Hq1 HL Hk ltac:(by rewrite Hcs) ltac:(by rewrite Hcs) Hget2)
    as (s2 & Hlook & Hd2 & Hq2).
  set (meta2 := <[1%nat := mkMeta ROOTDEV (im_blockno m1) inum 1]> (ic_meta ic1)) in *.
  assert (meta2 !! 0%nat = Some (mkMeta ROOTDEV b ROOTINUM 1)) as Hmeta2 by (unfold meta2; by rewrite list_lookup_insert_ne).
  exists (after_root ic1 meta2), s2. split_and!; [|cbn in *; congruence|done|].
  - eapply (namei_one e post cwd name ic ic1 ic2 (mkIc meta2 (ic_data ic2))); try done. by apply put_root with b.
  - unfold after_root. rewrite Hmeta2. split; cbn [ic_meta ic_data]; unfold meta2; rewrite ?length_insert; try done.
    + exists (im_blockno m1). rewrite list_lookup_insert_ne, list_lookup_insert_eq; [done|rewrite H1; by apply slot_lt|done].
    + intros j y Hj Hy. destruct (decide (j = 0%nat)) as [->|Hj0].
      * rewrite list_lookup_insert_eq in Hy by (rewrite length_insert, H1; by apply slot_lt). by injection Hy as <-.
      * rewrite !list_lookup_insert_ne in Hy by done. by apply (H4 j).
    + intros j y Hy. destruct (decide (j = 0%nat)) as [->|Hj0].
      * rewrite list_lookup_insert_eq in Hy by (rewrite H2; by apply slot_lt). by injection Hy as <-.
      * rewrite list_lookup_insert_ne in Hy by done. by apply (H5 j).
Qed.

(** Nothing is found when no entry has the name. *)
Lemma namei_missing e post cwd ic (d : dstate D) :
  element e → Z.of_nat (length (SLASH :: e ++ 0 :: post)) < 2 ^ 64 → idle ic → quiet ROOTDEV (d_b d) c L → locate_inode (d_sb d) ROOTINUM = Done ib →
  n = N → (∀ j, 0 ≤ j < N → ¬ matches (entry_at c f j) e) →
  ∃ ic' s, namei (SLASH :: e ++ 0 :: post) cwd ic d = Done (None, ic', with_b d s) ∧ disk s = disk (d_b d) ∧ quiet ROOTDEV s c L ∧ idle ic'.
Proof using BDL HL Hrd Hdir Hlink.
  intros He Hlen Hidle Hq Hib HnN Hno. destruct (idle_get ROOTINUM ic Hidle) as (ic1 & Hget1 & Hh1).
  destruct (skip_first e post He Hlen) as (name & Hname & Hcs & Hskip).
  destruct (lock_root ic1 d Hh1 Hq Hib) as (x & s1 & Hlock & Hd1 & Hq1).
  pose proof Hdir as Hdir'. rewrite HnN in Hdir'.
  destruct (dir_lookup_none ROOTDEV root_guard c f N name (mkIc (ic_meta ic1) (<[0%nat := (true, x)]> (ic_data ic1))) (with_b d s1) L Hdir' Hname Hq1 HL ltac:(by rewrite Hcs))
    as (s2 & Hlook & Hd2 & Hq2).
  destruct (put_held (D := D) 0 ROOTINUM ic1 x rd Hh1 ltac:(by apply slot_lt) Hlink) as (ic' & Hidle' & Hput). specialize (Hput (with_b (with_b d s1) s2)).
  exists ic', s2. split_and!; [|cbn in *; congruence|done|done].
  by eapply (namei_one e post cwd name ic ic1); try done.
Qed.
End Walk.
