(* ===== verification/Mkfs.v ===== *)
(** * The program that makes the disk image

    Models [xv6-mkfs/mkfs.c] with the structures of [xv6-user/include/fs.h]:
    the image file as its sectors, the global variables, and every function of
    the program.  The build host stores integers least significant byte first.
    A failed assertion and [die] end the program: they are panics here.  The
    files the program reads and the room for the image are the host's; an input
    file is not the image itself. *)

From Stdlib Require Import ZArith Lia.
From stdpp Require Import base gmap strings numbers list.
From S2P Require Import Prelude Bytes Bio BioCache DiskLayout Log.

Local Open Scope Z_scope.

(** ** Constants and structures

    [BSIZE], [FSSIZE], [LOGSIZE], [NDIRECT], [IPB], [DIRSIZ] and [FSMAGIC] are
    those of the kernel; an indirect block has twice the entries here. *)

Definition NINODES : Z := 200.
Definition ROOTINO : Z := 1.
Definition T_DIR : Z := 1.
Definition T_FILE : Z := 2.
Definition NINDIRECT : Z := BSIZE / 4.
Definition MAXFILE : Z := NDIRECT + NINDIRECT.

Definition nbitmap : Z := FSSIZE / (BSIZE * 8) + 1.
Definition ninodeblocks : Z := NINODES / IPB + 1.
Definition nlog : Z := LOGSIZE.
Definition nmeta : Z := 2 + nlog + ninodeblocks + nbitmap.
Definition nblocks : Z := FSSIZE - nmeta.

(** [struct dinode], its 16-bit fields as their bits. *)
Record dinode := mkCd {
  cd_type : Z;
  cd_major : Z;
  cd_minor : Z;
  cd_nlink : Z;
  cd_size : Z;
  cd_addrs : list Z;
}.

Definition dinode_bytes (d : dinode) : list Z :=
  le_encode 2 (cd_type d) ++ le_encode 2 (cd_major d) ++ le_encode 2 (cd_minor d) ++
  le_encode 2 (cd_nlink d) ++ le_encode 4 (cd_size d) ++ encode_u32s (cd_addrs d).

Definition dinode_at (b : block) (off : Z) : dinode :=
  mkCd (get_u16 b off) (get_u16 b (off + 2)) (get_u16 b (off + 4)) (get_u16 b (off + 6))
       (get_u32 b (off + 8)) (get_u32s b (off + 12) (NDIRECT + 1)).

(** [struct superblock] as its bytes. *)
Definition superblock_bytes (sb : RawSuperBlock) : list Z :=
  encode_u32s [sb_magic sb; sb_size sb; sb_nblocks sb; sb_ninodes sb;
               sb_nlog sb; sb_logstart sb; sb_inodestart sb; sb_bmapstart sb].

(** [struct dirent] as its bytes, the name copied by [strncpy] into zeroes. *)
Definition strncpy (name : list Z) : list Z := resize (Z.to_nat DIRSIZ) 0 name.
Definition dirent_bytes (inum : Z) (name : list Z) : list Z := le_encode 2 inum ++ strncpy name.

Definition zeroes : block := replicate (Z.to_nat BSIZE) 0.

(** ** The host *)

(** The contents of the files that can be opened, whether the image can be
    created, and how many sectors of it the host's disk holds. *)
Record Host := mkHost {
  h_open : list Z → option (list Z);
  h_create : list Z → bool;
  h_room : Z;
}.

(** The global variables, and the image behind [fsfd] with its length. *)
Record mkfs := mkMkfs {
  img_len : Z;
  img : Z → block;
  m_sb : RawSuperBlock;
  freeinode : Z;
  freeblock : Z;
}.

Definition with_img (st : mkfs) (len : Z) (f : Z → block) : mkfs :=
  mkMkfs len f (m_sb st) (freeinode st) (freeblock st).

(** [a[0] = x; a[1] = x >> 8; ...] *)
Definition xshort (x : Z) : Z := le_decode [x mod 256; Z.shiftr x 8 mod 256].
Definition xint (x : Z) : Z :=
  le_decode [x mod 256; Z.shiftr x 8 mod 256; Z.shiftr x 16 mod 256; Z.shiftr x 24 mod 256].

Section Program.
Context (h : Host).

(** ** Sectors *)

(** The sector [lseek] goes to: the offset is computed in 32 bits. *)
Definition seek (sec : Z) : Z := (sec * BSIZE) mod 2 ^ 32 / BSIZE.

Definition wsect (sec : Z) (buf : block) (st : mkfs) : outcome mkfs :=
  let n := seek sec in
  if h_room h <=? n then Panic "write"
  else Done (with_img st (Z.max (img_len st) (n + 1)) (upd (img st) n buf)).

(** A read at the end of the file delivers nothing. *)
Definition rsect (sec : Z) (st : mkfs) : outcome block :=
  let n := seek sec in
  if img_len st <=? n then Panic "read" else Done (img st n).

(** ** Inodes *)

Definition IBLOCK (i : Z) (st : mkfs) : Z := i / IPB + sb_inodestart (m_sb st).

Definition winode (inum : Z) (ip : dinode) (st : mkfs) : outcome mkfs :=
  let bn := IBLOCK inum st in
  buf ← rsect bn st;
  wsect bn (put_bytes buf (DISK_INODE_SIZE * (inum mod IPB)) (dinode_bytes ip)) st.

Definition rinode (inum : Z) (st : mkfs) : outcome dinode :=
  let bn := IBLOCK inum st in
  buf ← rsect bn st;
  Done (dinode_at buf (DISK_INODE_SIZE * (inum mod IPB))).

Definition ialloc (type : Z) (st : mkfs) : outcome (Z * mkfs) :=
  let inum := freeinode st in
  let st := mkMkfs (img_len st) (img st) (m_sb st) ((freeinode st + 1) mod 2 ^ 32) (freeblock st) in
  st ← winode inum (mkCd (xshort type) 0 0 (xshort 1) (xint 0) (replicate (Z.to_nat (NDIRECT + 1)) 0)) st;
  Done (inum, st).

(** ** Blocks *)

(** [freeblock++]. *)
Definition next_block (st : mkfs) : Z * mkfs :=
  (freeblock st, mkMkfs (img_len st) (img st) (m_sb st) (freeinode st) ((freeblock st + 1) mod 2 ^ 32)).

Definition with_caddr (d : dinode) (i a : Z) : dinode :=
  mkCd (cd_type d) (cd_major d) (cd_minor d) (cd_nlink d) (cd_size d) (<[Z.to_nat i := a]> (cd_addrs d)).

(** [din.addrs[i]], given a block if it is 0. *)
Definition addr_or_next (din : dinode) (i : Z) (st : mkfs) : outcome (Z * dinode * mkfs) :=
  a ← unwrap "index out of bounds" (cd_addrs din !! Z.to_nat i);
  if xint a =? 0 then
    let '(x, st) := next_block st in
    Done (xint (xint x), with_caddr din i (xint x), st)
  else Done (xint a, din, st).

(** Entry [k] of the indirect block, given a block if it is 0. *)
Definition entry_or_next (ind k : Z) (st : mkfs) : outcome (Z * mkfs) :=
  indirect ← rsect ind st;
  let a := get_u32 indirect (4 * k) in
  if a =? 0 then
    let '(x, st) := next_block st in
    st ← wsect ind (put_u32 indirect (4 * k) (xint x)) st;
    Done (xint (xint x), st)
  else Done (xint a, st).

(** The sector of block [fbn] of a file, allocated if there is none. *)
Definition append_block (din : dinode) (fbn : Z) (st : mkfs) : outcome (Z * dinode * mkfs) :=
  if fbn <? NDIRECT then addr_or_next din fbn st
  else
    '(ind, din, st) ← addr_or_next din NDIRECT st;
    '(x, st) ← entry_or_next ind (fbn - NDIRECT) st;
    Done (x, din, st).

(** One round of the loop of [iappend]; [p] is what is left to append. *)
Definition append_step (r : dinode * Z * list Z * mkfs) :
    outcome ((dinode * Z * mkfs) + (dinode * Z * list Z * mkfs)) :=
  let '(din, off, p, st) := r in
  let n := Z.of_nat (length p) in
  if 0 <? n then
    let fbn := off / BSIZE in
    _ ← ensure (fbn <? MAXFILE) "Assertion `fbn < MAXFILE' failed.";
    '(x, din, st) ← append_block din fbn st;
    let n1 := Z.min n ((fbn + 1) * BSIZE - off) in
    buf ← rsect x st;
    st ← wsect x (put_bytes buf (off - fbn * BSIZE) (take (Z.to_nat n1) p)) st;
    Done (inr (din, (off + n1) mod 2 ^ 32, drop (Z.to_nat n1) p, st))
  else Done (inl (din, off, st)).

Definition iappend (inum : Z) (xp : list Z) (st : mkfs) : outcome mkfs :=
  din ← rinode inum st;
  '(din, off, st) ← while_fuel (S (length xp)) append_step (din, xint (cd_size din), xp, st);
  winode inum (mkCd (cd_type din) (cd_major din) (cd_minor din) (cd_nlink din) (xint off) (cd_addrs din)) st.

(** The bitmap with the first [used] blocks taken. *)
Definition balloc (used : Z) (st : mkfs) : outcome mkfs :=
  _ ← ensure (used <? BSIZE * 8) "Assertion `used < BSIZE*8' failed.";
  buf ← for_range 0 used (λ i buf,
    b ← unwrap "index out of bounds" (buf !! Z.to_nat (i / 8));
    Done (<[Z.to_nat (i / 8) := Z.lor b (Z.shiftl 1 (i mod 8)) mod 256]> buf)) zeroes;
  wsect (sb_bmapstart (m_sb st)) buf st.

(** ** The program *)

Definition SLASH_CH : Z := 47.
Definition UNDERSCORE : Z := 95.
(** "xv6-user/" *)
Definition user_dir : list Z := [120; 118; 54; 45; 117; 115; 101; 114; 47].

(** The name without the directory it is taken from. *)
Definition base_name (arg : list Z) : list Z :=
  if decide (take 9 arg = user_dir) then drop 9 arg else arg.

(** ... and without the leading underscore. *)
Definition short_name (base : list Z) : list Z :=
  match base with
  | c :: r => if c =? UNDERSCORE then r else base
  | [] => []
  end.

(** [while((cc = read(fd, buf, sizeof(buf))) > 0) iappend(inum, buf, cc);] *)
Definition copy_file (inum : Z) (contents : list Z) (st : mkfs) : outcome mkfs :=
  while_fuel (S (length contents)) (λ '(rest, st),
    let buf := take (Z.to_nat BSIZE) rest in
    if 0 <? Z.of_nat (length buf) then
      st ← iappend inum buf st;
      Done (inr (drop (Z.to_nat BSIZE) rest, st))
    else Done (inl st)) (contents, st).

(** One argument of the program. *)
Definition add_file (rootino : Z) (arg : list Z) (st : mkfs) : outcome mkfs :=
  let shortname := base_name arg in
  _ ← ensure (negb (bool_decide (SLASH_CH ∈ shortname))) "Assertion `index(shortname, '/') == 0' failed.";
  contents ← unwrap "cannot open" (h_open h arg);
  let shortname := short_name shortname in
  '(inum, st) ← ialloc T_FILE st;
  st ← iappend rootino (dirent_bytes (xshort inum) shortname) st;
  copy_file inum contents st.

(** The super block, and an empty image. *)
Definition make_sb : RawSuperBlock :=
  mkSb FSMAGIC (xint FSSIZE) (xint nblocks) (xint NINODES) (xint nlog) (xint 2)
       (xint (2 + nlog)) (xint (2 + nlog + ninodeblocks)).

Definition fresh : mkfs := mkMkfs 0 (λ _, zeroes) make_sb 1 nmeta.

(** "." and ".." *)
Definition dot : list Z := [46].
Definition dotdot : list Z := [46; 46].

(** The size of the root directory rounded up. *)
Definition fix_root (rootino : Z) (st : mkfs) : outcome mkfs :=
  din ← rinode rootino st;
  let off := xint (cd_size din) in
  let off := ((off / BSIZE + 1) * BSIZE) mod 2 ^ 32 in
  winode rootino (mkCd (cd_type din) (cd_major din) (cd_minor din) (cd_nlink din) (xint off) (cd_addrs din)) st.

Definition main (argv : list (list Z)) : outcome mkfs :=
  match argv with
  | _ :: image :: files =>
      _ ← ensure (BSIZE mod DISK_INODE_SIZE =? 0) "Assertion `(BSIZE % sizeof(struct dinode)) == 0' failed.";
      _ ← ensure (BSIZE mod Z.of_nat (length (dirent_bytes 0 [])) =? 0) "Assertion `(BSIZE % sizeof(struct dirent)) == 0' failed.";
      if negb (h_create h image) then Panic "cannot create the image"
      else
        st ← for_range 0 FSSIZE (λ i st, wsect i zeroes st) fresh;
        st ← wsect 1 (put_bytes zeroes 0 (superblock_bytes (m_sb st))) st;
        '(rootino, st) ← ialloc T_DIR st;
        _ ← ensure (rootino =? ROOTINO) "Assertion `rootino == ROOTINO' failed.";
        st ← iappend rootino (dirent_bytes (xshort rootino) dot) st;
        st ← iappend rootino (dirent_bytes (xshort rootino) dotdot) st;
        st ← for_each files (λ arg st, add_file rootino arg st) st;
        st ← fix_root rootino st;
        balloc (freeblock st) st
  | _ => Panic "Usage: mkfs fs.img files..."
  end.
End Program.
