(* ===== verification/MkfsSpec.v ===== *)
(** * What the disk image holds

    The image while [mkfs] builds it, as a list of files: the bytes of each
    file, the blocks they are in and the indirect block.  [iappend] appends to
    one of the files and leaves the others alone. *)

From Stdlib Require Import ZArith Lia.
From stdpp Require Import base gmap strings numbers list.
From S2P Require Import Prelude Bytes Bio BioCache Mkfs DiskLayout Log.

Local Open Scope Z_scope.

(** ** Integers and sectors *)

Lemma xint_id x : 0 ≤ x < 2 ^ 32 → xint x = x.
Proof.
  intros Hx. unfold xint. rewrite !Z.shiftr_div_pow2 by lia. cbn [le_decode].
  change (2 ^ 8) with 256. change (2 ^ 16) with 65536. change (2 ^ 24) with 16777216. divlia.
Qed.

Lemma xshort_id x : 0 ≤ x < 2 ^ 16 → xshort x = x.
Proof.
  intros Hx. unfold xshort. rewrite !Z.shiftr_div_pow2 by lia. cbn [le_decode]. change (2 ^ 8) with 256. divlia.
Qed.

Lemma seek_id n : 0 ≤ n < FSSIZE → seek n = n.
Proof. intros Hn. unfold seek, FSSIZE, BSIZE in *. divlia. Qed.

Lemma length_zeroes : Z.of_nat (length zeroes) = BSIZE.
Proof. done. Qed.

(** ** Files *)

Record mfile := mkMf {
  mf_type : Z;
  mf_data : list Z;
  mf_blocks : list Z;
  mf_ind : Z;
}.

Definition mf_size (f : mfile) : Z := Z.of_nat (length (mf_data f)).

Definition mf_dinode (f : mfile) : dinode :=
  mkCd (mf_type f) 0 0 1 (mf_size f) (resize 12 0 (mf_blocks f) ++ [mf_ind f]).

(** The blocks of the disk a file takes. *)
Definition used (f : mfile) : list Z := mf_blocks f ++ (if mf_ind f =? 0 then [] else [mf_ind f]).

(** Block [k] of a file: its bytes, and zeroes behind the end. *)
Definition block_of (data : list Z) (k : nat) : block := resize 1024 0 (drop (1024 * k) data).

Record file_rep (c : Z → block) (f : mfile) : Prop := {
  fr_len : (length (mf_data f) ≤ 1024 * length (mf_blocks f))%nat;
  fr_max : (length (mf_blocks f) ≤ 268)%nat;
  fr_data : ∀ k x, mf_blocks f !! k = Some x → c x = block_of (mf_data f) k;
  fr_direct : (length (mf_blocks f) ≤ 12)%nat → mf_ind f = 0;
  fr_ind : (12 < length (mf_blocks f))%nat → mf_ind f ≠ 0 ∧ c (mf_ind f) = encode_u32s (resize 256 0 (drop 12 (mf_blocks f)));
}.

Lemma file_rep_frame c c' f : (∀ n, n ∈ used f → c' n = c n) → file_rep c f → file_rep c' f.
Proof.
  intros Hc [H1 H2 H3 H4 H5]. split; try done.
  - intros k x Hx. rewrite Hc; [by apply H3|]. apply elem_of_app. left. by eapply list_elem_of_lookup_2.
  - intros Hl. destruct (H5 Hl) as [H6 H7]. split; [done|]. rewrite Hc; [done|]. apply elem_of_app. right.
    rewrite (proj2 (Z.eqb_neq _ _)) by done. by apply list_elem_of_singleton.
Qed.

(** ** The data of the image *)

Definition used_all (fs : list mfile) : list Z := mjoin (used <$> fs).

Record data_rep (st : mkfs) (fs : list mfile) : Prop := {
  dr_len : img_len st = FSSIZE;
  dr_sb : m_sb st = make_sb;
  dr_free : nmeta ≤ freeblock st ≤ FSSIZE;
  dr_used : used_all fs ≡ₚ seqZ nmeta (freeblock st - nmeta);
  dr_files : ∀ i f, fs !! i = Some f → file_rep (img st) f;
  dr_zero : ∀ n, freeblock st ≤ n < FSSIZE → img st n = zeroes;
  dr_sized : ∀ n, Z.of_nat (length (img st n)) = BSIZE;
}.

Lemma used_all_split fs i f : fs !! i = Some f → used_all fs ≡ₚ used f ++ used_all (delete i fs).
Proof.
  intros Hi. unfold used_all. rewrite (delete_Permutation fs i f Hi) at 1. done.
Qed.

Lemma delete_insert {A} (l : list A) i x : delete i (<[i := x]> l) = delete i l.
Proof. revert i. induction l as [|y l IH]; intros [|i]; try done. cbn. by f_equal. Qed.

Lemma used_all_insert fs i f f' : fs !! i = Some f → used_all (<[i := f']> fs) ≡ₚ used f' ++ used_all (delete i fs).
Proof.
  intros Hi. rewrite (used_all_split (<[i := f']> fs) i f') by (by apply list_lookup_insert_eq; eapply lookup_lt_Some).
  f_equiv. unfold used_all. by rewrite delete_insert.
Qed.

Lemma used_range st fs i f n : data_rep st fs → fs !! i = Some f → n ∈ used f → nmeta ≤ n < freeblock st.
Proof.
  intros Hr Hi Hn. assert (n ∈ used_all fs) as Hn' by (rewrite (used_all_split fs i f Hi); apply elem_of_app; by left).
  rewrite (dr_used _ _ Hr) in Hn'. apply elem_of_seqZ in Hn'. lia.
Qed.

Lemma used_other st fs i f j g n : data_rep st fs → fs !! i = Some f → fs !! j = Some g → i ≠ j → n ∈ used g → n ∉ used f.
Proof.
  intros Hr Hi Hj Hij Hg Hf. assert (NoDup (used_all fs)) as Hnd by (rewrite (dr_used _ _ Hr); apply NoDup_seqZ).
  rewrite (used_all_split fs i f Hi) in Hnd. apply NoDup_app in Hnd as (_ & Hnd & _). apply (Hnd n Hf).
  unfold used_all. apply list_elem_of_join. exists (used g). split; [done|]. apply list_elem_of_fmap. exists g. split; [done|].
  destruct (decide (j < i)%nat).
  - apply (list_elem_of_lookup_2 _ j). by rewrite list_lookup_delete_lt.
  - apply (list_elem_of_lookup_2 _ (j - 1)). rewrite list_lookup_delete_ge by lia. by replace (S (j - 1)) with j by lia.
Qed.

Lemma used_nodup st fs i f : data_rep st fs → fs !! i = Some f → NoDup (used f).
Proof.
  intros Hr Hi. assert (NoDup (used_all fs)) as Hnd by (rewrite (dr_used _ _ Hr); apply NoDup_seqZ).
  rewrite (used_all_split fs i f Hi) in Hnd. by apply NoDup_app in Hnd as (Hnd & _).
Qed.

Lemma used_blocks_nodup st fs i f : data_rep st fs → fs !! i = Some f → NoDup (mf_blocks f).
Proof. intros Hr Hi. by apply (used_nodup st fs i f Hr), NoDup_app in Hi as (Hnd & _). Qed.

Lemma used_ind_fresh st fs i f : data_rep st fs → fs !! i = Some f → mf_ind f ≠ 0 → mf_ind f ∉ mf_blocks f.
Proof.
  intros Hr Hi Hne Hin. pose proof (used_nodup st fs i f Hr Hi) as Hnd. unfold used in Hnd.
  rewrite (proj2 (Z.eqb_neq _ _)) in Hnd by done. apply NoDup_app in Hnd as (_ & Hnd & _). apply (Hnd _ Hin). by apply list_elem_of_singleton.
Qed.

(** One file changes, with [a] more blocks. *)
Lemma data_rep_change st st' fs i f f' a :
  data_rep st fs → fs !! i = Some f → img_len st' = img_len st → m_sb st' = m_sb st →
  0 ≤ a → freeblock st' = freeblock st + a → freeblock st' ≤ FSSIZE → used f' ≡ₚ used f ++ seqZ (freeblock st) a →
  (∀ n, n ∉ used f' → img st' n = img st n) → (∀ n, Z.of_nat (length (img st' n)) = BSIZE) → file_rep (img st') f' →
  data_rep st' (<[i := f']> fs).
Proof.
  intros Hr Hi Hlen Hsb Ha Hfree Hmax Hused Hc Hsz Hf'. pose proof (dr_free _ _ Hr) as Hfr.
  assert (∀ n, n ∈ used f' → n ∈ used f ∨ freeblock st ≤ n < freeblock st') as Hin.
  { intros n Hn. rewrite Hused in Hn. apply elem_of_app in Hn as [Hn|Hn]; [by left|right]. apply elem_of_seqZ in Hn. lia. }
  split; rewrite ?Hlen, ?Hsb; try apply Hr; try done; [lia| | |].
  - rewrite (used_all_insert fs i f f' Hi), Hused. rewrite <- app_assoc, (Permutation_app_comm (seqZ _ _)), app_assoc.
    rewrite <- (used_all_split fs i f Hi), (dr_used _ _ Hr). replace (freeblock st' - nmeta) with ((freeblock st - nmeta) + a) by lia.
    rewrite seqZ_app by lia. by replace (nmeta + (freeblock st - nmeta)) with (freeblock st) by lia.
  - intros j g Hj. destruct (decide (i = j)) as [<-|Hij].
    + rewrite list_lookup_insert_eq in Hj by (by eapply lookup_lt_Some). by injection Hj as <-.
    + rewrite list_lookup_insert_ne in Hj by done. apply (file_rep_frame (img st)); [|by apply (dr_files _ _ Hr j)].
      intros n Hn. apply Hc. intros Hn'. destruct (Hin n Hn') as [Hn''|Hn''].
      * by apply (used_other st fs i f j g n).
      * pose proof (used_range st fs j g n Hr Hj Hn). lia.
  - intros n Hn. rewrite Hc; [apply (dr_zero _ _ Hr); lia|]. intros Hn'. destruct (Hin n Hn') as [Hn''|Hn'']; [|lia].
    pose proof (used_range st fs i f n Hr Hi Hn''). lia.
Qed.

(** ** Arrays of block numbers *)

Lemma encode_u32s_app vs ws : encode_u32s (vs ++ ws) = encode_u32s vs ++ encode_u32s ws.
Proof. unfold encode_u32s. by rewrite fmap_app, join_app. Qed.

Lemma put_encode_u32s vs i v : (i < length vs)%nat → put_u32 (encode_u32s vs) (4 * Z.of_nat i) v = encode_u32s (<[i := v]> vs).
Proof.
  intros Hi. destruct (lookup_lt_is_Some_2 vs i Hi) as [w Hw]. rewrite insert_take_drop by done.
  rewrite <- (take_drop_middle vs i w Hw) at 1. change (v :: drop (S i) vs) with ([v] ++ drop (S i) vs).
  change (w :: drop (S i) vs) with ([w] ++ drop (S i) vs). rewrite !encode_u32s_app.
  change (encode_u32s [w]) with (le_encode 4 w ++ []). change (encode_u32s [v]) with (le_encode 4 v ++ []). rewrite !app_nil_r.
  assert (length (encode_u32s (take i vs)) = Z.to_nat (4 * Z.of_nat i)) as Hl by (rewrite length_encode_u32s, length_take; lia).
  unfold put_u32, put_bytes. rewrite take_app_length' by done. rewrite <- Hl. f_equal. f_equal.
  rewrite drop_app_add, length_le_encode. apply drop_app_length'. by rewrite length_le_encode.
Qed.

Lemma get_u32_encode vs i v : vs !! i = Some v → 0 ≤ v < 2 ^ 32 → get_u32 (encode_u32s vs) (4 * Z.of_nat i) = v.
Proof. intros Hi Hv. unfold get_u32. rewrite (get_encode_u32s vs i v Hi). by apply le_decode_encode. Qed.

(** A list grows inside of an array that is larger. *)
Lemma resize_snoc (n : nat) (l : list Z) x : (length l < n)%nat → resize n 0 (l ++ [x]) = <[length l := x]> (resize n 0 l).
Proof.
  intros Hl. rewrite !resize_ge by (rewrite ?length_app; cbn; lia). rewrite length_app. cbn [length].
  replace (n - length l)%nat with (S (n - (length l + 1))) by lia. cbn [replicate].
  rewrite insert_app_r_alt, Nat.sub_diag by lia. by rewrite <- app_assoc.
Qed.

Lemma lookup_resize_lt (n k : nat) (l : list Z) : (k < n)%nat → (k < length l)%nat → resize n 0 l !! k = l !! k.
Proof. intros. by apply lookup_resize. Qed.

Section Append.
Context (h : Host) (Hroom : FSSIZE ≤ h_room h).

Lemma rsect_ok n st : img_len st = FSSIZE → 0 ≤ n < FSSIZE → rsect n st = Done (img st n).
Proof using. intros Hl Hn. unfold rsect. rewrite seek_id, Hl by done. by rewrite (proj2 (Z.leb_gt _ _)) by lia. Qed.

Lemma wsect_ok n b st : img_len st = FSSIZE → 0 ≤ n < FSSIZE → wsect h n b st = Done (with_img st FSSIZE (upd (img st) n b)).
Proof using Hroom.
  intros Hl Hn. unfold wsect. rewrite seek_id, Hl by done. rewrite (proj2 (Z.leb_gt _ _)) by lia. by rewrite Z.max_l by lia.
Qed.

(** The addresses in the inode. *)
Definition addrs_of (f : mfile) : list Z := resize 12 0 (mf_blocks f) ++ [mf_ind f].

Lemma addrs_of_direct f k x : (k < 12)%nat → mf_blocks f !! k = Some x → addrs_of f !! k = Some x.
Proof using.
  intros Hk Hx. unfold addrs_of. rewrite lookup_app_l by (by rewrite length_resize).
  rewrite lookup_resize_lt; [done|done|by eapply lookup_lt_Some].
Qed.

Lemma addrs_of_free f k : (k < 12)%nat → (length (mf_blocks f) ≤ k)%nat → addrs_of f !! k = Some 0.
Proof using.
  intros Hk Hl. unfold addrs_of. rewrite lookup_app_l by (by rewrite length_resize). by apply lookup_resize_new.
Qed.

Lemma addrs_of_ind f : addrs_of f !! 12%nat = Some (mf_ind f).
Proof using. unfold addrs_of. by rewrite lookup_app_r; rewrite length_resize. Qed.

Lemma used_block f k x : mf_blocks f !! k = Some x → x ∈ used f.
Proof using. intros Hx. apply elem_of_app. left. by eapply list_elem_of_lookup_2. Qed.

Lemma used_ind f : mf_ind f ≠ 0 → mf_ind f ∈ used f.
Proof using. intros Hi. apply elem_of_app. right. rewrite (proj2 (Z.eqb_neq _ _)) by done. by apply list_elem_of_singleton. Qed.

(** A slot of the inode that has a block, and one that has none. *)
Lemma addr_old din i a st : cd_addrs din !! Z.to_nat i = Some a → 0 < a < 2 ^ 32 → addr_or_next din i st = Done (a, din, st).
Proof using.
  intros Ha Hr. unfold addr_or_next. rewrite Ha. cbn [unwrap mbind outcome_bind]. rewrite xint_id by lia.
  by rewrite (proj2 (Z.eqb_neq _ _)) by lia.
Qed.

Definition took (st : mkfs) (n : Z) : mkfs := mkMkfs (img_len st) (img st) (m_sb st) (freeinode st) (freeblock st + n).

Lemma next_block_ok st : 0 ≤ freeblock st < FSSIZE → next_block st = (freeblock st, took st 1).
Proof using. intros Hf. unfold next_block, took. rewrite Z.mod_small; [done|]. unfold FSSIZE in *. lia. Qed.

Lemma addr_new din i st : cd_addrs din !! Z.to_nat i = Some 0 → 0 ≤ freeblock st < FSSIZE →
  addr_or_next din i st = Done (freeblock st, with_caddr din i (freeblock st), took st 1).
Proof using.
  intros Ha Hf. unfold addr_or_next. rewrite Ha. cbn [unwrap mbind outcome_bind]. change (xint 0 =? 0) with true. cbv iota.
  rewrite next_block_ok by done. by rewrite !(xint_id (freeblock st)) by (unfold FSSIZE in *; lia).
Qed.

(** The sector of a block the file has. *)
Lemma append_block_old st fs i f din k x :
  data_rep st fs → fs !! i = Some f → cd_addrs din = addrs_of f → mf_blocks f !! k = Some x →
  append_block h din (Z.of_nat k) st = Done (x, din, st).
Proof using.
  intros Hr Hi Ha Hx. pose proof (dr_files _ _ Hr i f Hi) as Hf. pose proof (dr_free _ _ Hr) as Hfr.
  assert (∀ y, y ∈ used f → 0 < y < FSSIZE) as Hy.
  { intros y Hy. pose proof (used_range st fs i f y Hr Hi Hy). change nmeta with 46 in *. lia. }
  pose proof (Hy x (used_block f k x Hx)) as Hxr. unfold append_block, NDIRECT. destruct (Z.ltb_spec (Z.of_nat k) 12).
  - apply addr_old; [|unfold FSSIZE in *; lia]. rewrite Ha, Nat2Z.id. apply addrs_of_direct; [lia|done].
  - assert (12 < length (mf_blocks f))%nat as Hl by (apply lookup_lt_Some in Hx; lia).
    destruct (fr_ind _ _ Hf Hl) as [Hne Hind]. pose proof (Hy _ (used_ind f Hne)) as Hir.
    rewrite (addr_old din 12 (mf_ind f)); [|by rewrite Ha; apply addrs_of_ind|unfold FSSIZE in *; lia]. cbn [mbind outcome_bind].
    unfold entry_or_next. rewrite (rsect_ok _ st (dr_len _ _ Hr)) by lia. cbn [mbind outcome_bind]. rewrite Hind.
    replace (Z.of_nat k - 12) with (Z.of_nat (k - 12)) by lia. rewrite (get_u32_encode _ _ x).
    + rewrite (proj2 (Z.eqb_neq _ _)) by lia. rewrite xint_id by (unfold FSSIZE in *; lia). done.
    + assert (k < 268)%nat by (pose proof (fr_max _ _ Hf); apply lookup_lt_Some in Hx; lia).
      rewrite lookup_resize_lt; [rewrite lookup_drop; by replace (12 + (k - 12))%nat with k by lia|lia|].
      rewrite length_drop. apply lookup_lt_Some in Hx. lia.
    + unfold FSSIZE in *. lia.
Qed.

(** ** A file gets a block *)

Definition with_block (f : mfile) (x ind : Z) : mfile := mkMf (mf_type f) (mf_data f) (mf_blocks f ++ [x]) ind.

Lemma file_rep_grow c c' f x ind :
  file_rep c f → (length (mf_blocks f) < 268)%nat → c' x = zeroes → (∀ y, y ∈ mf_blocks f → c' y = c y) →
  ((length (mf_blocks f) < 12)%nat → ind = 0) →
  ((12 ≤ length (mf_blocks f))%nat → ind ≠ 0 ∧ c' ind = encode_u32s (resize 256 0 (drop 12 (mf_blocks f ++ [x])))) →
  file_rep c' (with_block f x ind).
Proof using.
  intros [H1 H2 H3 H4 H5] Hl Hx Hy Hd Hi. split; cbn [with_block mf_blocks mf_data mf_ind]; rewrite ?length_app; cbn [length]; try lia.
  - intros k y Hk. apply lookup_app_Some in Hk as [Hk|[Hge Hk]].
    + rewrite Hy; [by apply H3|by eapply list_elem_of_lookup_2].
    + apply list_lookup_singleton_Some in Hk as [Hk <-]. rewrite Hx. unfold block_of. by rewrite drop_ge by lia.
  - intros. apply Hi. lia.
Qed.

Lemma used_with_block f x ind : mf_ind f = 0 ∨ ind = mf_ind f → ind ≠ 0 → used (with_block f x ind) ≡ₚ used f ++ (if mf_ind f =? 0 then [ind; x] else [x]).
Proof using.
  intros Hind Hi. unfold used. cbn [with_block mf_blocks mf_ind]. rewrite (proj2 (Z.eqb_neq ind 0)) by done.
  destruct Hind as [->| ->]; [change (0 =? 0) with true|rewrite (proj2 (Z.eqb_neq _ _)) by done]; cbv iota;
    rewrite ?app_nil_r, <- !app_assoc; f_equiv; apply perm_swap.
Qed.

Lemma seqZ_one n : seqZ n 1 = [n].
Proof using. by rewrite seqZ_cons by lia. Qed.
Lemma seqZ_two n : seqZ n 2 = [n; n + 1].
Proof using. rewrite seqZ_cons by lia. f_equal. Qed.

(** The inode with other addresses. *)
Definition with_caddrs (d : dinode) (l : list Z) : dinode :=
  mkCd (cd_type d) (cd_major d) (cd_minor d) (cd_nlink d) (cd_size d) l.

(** What allocating block [k] of a file comes to. *)
Definition gets_block (st : mkfs) (fs : list mfile) (i : nat) (f : mfile) (din : dinode) (need : Z) (r : outcome (Z * dinode * mkfs)) : Prop :=
  ∃ x ind st', r = Done (x, with_caddrs din (addrs_of (with_block f x ind)), st') ∧
    data_rep st' (<[i := with_block f x ind]> fs) ∧ freeblock st' = freeblock st + need ∧ freeinode st' = freeinode st ∧
    (∀ n, n < nmeta → img st' n = img st n).

Lemma append_block_direct st fs i f din :
  data_rep st fs → fs !! i = Some f → cd_addrs din = addrs_of f → (length (mf_blocks f) < 12)%nat → freeblock st < FSSIZE →
  gets_block st fs i f din 1 (append_block h din (Z.of_nat (length (mf_blocks f))) st).
Proof using.
  intros Hr Hi Ha Hl Hfree. pose proof (dr_files _ _ Hr i f Hi) as Hf. pose proof (dr_free _ _ Hr) as Hfr.
  pose proof (fr_direct _ _ Hf ltac:(lia)) as H0. change nmeta with 46 in Hfr.
  unfold append_block, NDIRECT. rewrite (proj2 (Z.ltb_lt _ _)) by lia.
  rewrite addr_new; [|rewrite Ha, Nat2Z.id; by apply addrs_of_free|lia].
  exists (freeblock st), 0, (took st 1). split_and!; [|..|done|done|done].
  - unfold with_caddr, with_caddrs. rewrite Ha, Nat2Z.id. do 4 f_equal. unfold addrs_of. cbn [with_block mf_blocks mf_ind].
    rewrite insert_app_l by (by rewrite length_resize). by rewrite resize_snoc, H0 by done.
  - apply (data_rep_change st _ fs i f _ 1); cbn [took img_len m_sb freeblock img]; try done; [lia| |apply Hr|].
    + rewrite seqZ_one. unfold used. cbn. rewrite H0. cbn. by rewrite !app_nil_r.
    + apply (file_rep_grow (img st)); try done; [lia|by apply (dr_zero _ _ Hr); lia|lia].
Qed.

(** The next entry of an indirect block. *)
Lemma entry_new st ind l :
  img_len st = FSSIZE → 0 < ind < FSSIZE → img st ind = encode_u32s (resize 256 0 l) → (length l < 256)%nat → 0 ≤ freeblock st < FSSIZE →
  entry_or_next h ind (Z.of_nat (length l)) st =
    Done (freeblock st, with_img (took st 1) FSSIZE (upd (img st) ind (encode_u32s (resize 256 0 (l ++ [freeblock st]))))).
Proof using Hroom.
  intros Hlen Hind Hc Hl Hfree. unfold entry_or_next. rewrite rsect_ok by (done || lia). cbn [mbind outcome_bind]. rewrite Hc.
  rewrite (get_u32_encode _ _ 0); [|by apply lookup_resize_new|lia]. change (0 =? 0) with true. cbv iota.
  rewrite next_block_ok by done. rewrite !(xint_id (freeblock st)) by (unfold FSSIZE in *; lia).
  rewrite wsect_ok by (done || lia). cbn [mbind outcome_bind].
  by rewrite put_encode_u32s, <- resize_snoc by (rewrite ?length_resize; lia).
Qed.

(** The indirect block of a file with all direct blocks, allocated with the
    first entry. *)
Definition indirect_need (f : mfile) : Z := if (length (mf_blocks f) =? 12)%nat then 2 else 1.

Lemma indirect_of st fs i f din :
  data_rep st fs → fs !! i = Some f → cd_addrs din = addrs_of f → (12 ≤ length (mf_blocks f))%nat →
  freeblock st + indirect_need f ≤ FSSIZE →
  ∃ ind, addr_or_next din 12 st = Done (ind, with_caddrs din (resize 12 0 (mf_blocks f) ++ [ind]), took st (indirect_need f - 1)) ∧
    (mf_ind f = 0 ∧ ind = freeblock st ∧ indirect_need f = 2 ∨ mf_ind f ≠ 0 ∧ ind = mf_ind f ∧ indirect_need f = 1) ∧
    img st ind = encode_u32s (resize 256 0 (drop 12 (mf_blocks f))) ∧ 46 ≤ ind < freeblock st + indirect_need f - 1 + 1.
Proof using.
  intros Hr Hi Ha Hl Hfree. pose proof (dr_files _ _ Hr i f Hi) as Hf. pose proof (dr_free _ _ Hr) as Hfr.
  change nmeta with 46 in Hfr. unfold indirect_need in *. destruct (Nat.eqb_spec (length (mf_blocks f)) 12) as [E|E].
  - pose proof (fr_direct _ _ Hf ltac:(lia)) as H0. exists (freeblock st). split; [|split; [by left|split; [|lia]]].
    + rewrite addr_new; [|rewrite Ha, <- H0; apply addrs_of_ind|lia]. unfold with_caddr, with_caddrs. rewrite Ha. do 4 f_equal.
      unfold addrs_of. by rewrite insert_app_r_alt; rewrite length_resize.
    + rewrite (dr_zero _ _ Hr) by lia. by rewrite drop_ge by lia.
  - destruct (fr_ind _ _ Hf ltac:(lia)) as [Hne Hind].
    pose proof (used_range st fs i f _ Hr Hi (used_ind f Hne)) as Hrg. change nmeta with 46 in Hrg.
    exists (mf_ind f). split; [|split; [by right|split; [done|lia]]].
    rewrite (addr_old din 12 (mf_ind f)); [|rewrite Ha; apply addrs_of_ind|unfold FSSIZE in *; lia].
    fold (addrs_of f). rewrite <- Ha. unfold took. cbn. rewrite Z.add_0_r. by destruct din, st.
Qed.

Lemma append_block_indirect st fs i f din :
  data_rep st fs → fs !! i = Some f → cd_addrs din = addrs_of f → (12 ≤ length (mf_blocks f) < 268)%nat →
  freeblock st + indirect_need f ≤ FSSIZE →
  gets_block st fs i f din (indirect_need f) (append_block h din (Z.of_nat (length (mf_blocks f))) st).
Proof using Hroom.
  intros Hr Hi Ha Hl Hfree. pose proof (dr_files _ _ Hr i f Hi) as Hf. pose proof (dr_free _ _ Hr) as Hfr. change nmeta with 46 in Hfr.
  destruct (indirect_of st fs i f din Hr Hi Ha ltac:(lia) Hfree) as (ind & Hadd & Hcase & Hcind & Hir).
  set (need := indirect_need f) in *. assert (1 ≤ need ≤ 2) as Hneed by (destruct Hcase as [(_ & _ & ->)|(_ & _ & ->)]; lia).
  unfold append_block. change NDIRECT with 12. rewrite (proj2 (Z.ltb_ge _ _)), Hadd by lia. cbn [mbind outcome_bind].
  replace (Z.of_nat (length (mf_blocks f)) - 12) with (Z.of_nat (length (drop 12 (mf_blocks f)))) by (rewrite length_drop; lia).
  rewrite entry_new; cbn [took img_len img freeblock]; [|apply Hr|lia|done|rewrite length_drop; lia|lia]. cbn [mbind outcome_bind].
  set (x := freeblock st + (need - 1)). exists x, ind. eexists. split.
  { unfold addrs_of. cbn [with_block mf_blocks mf_ind]. rewrite (resize_app_le (mf_blocks f)) by lia. reflexivity. }
  split_and!; [..|done|]; cbn [took with_img img_len img freeblock m_sb].
  - assert (x ≠ ind ∧ (ind ∉ mf_blocks f) ∧ used (with_block f x ind) ≡ₚ used f ++ seqZ (freeblock st) need) as (Hxi & Hib & Hused).
    { destruct Hcase as [(H0 & -> & E)|(Hne & -> & E)]; unfold x; rewrite E in *.
      - split_and!; [lia| |].
        + intros Hin. apply list_elem_of_lookup in Hin as [k Hk]. pose proof (used_range st fs i f _ Hr Hi (used_block f k _ Hk)). lia.
        + rewrite used_with_block, H0, seqZ_two by (lia || by left). by replace (2 - 1) with 1 by lia.
      - pose proof (used_range st fs i f _ Hr Hi (used_ind f Hne)). split_and!; [lia|by eapply used_ind_fresh|].
        rewrite used_with_block, seqZ_one, (proj2 (Z.eqb_neq _ _)) by (done || by right). by rewrite Z.add_0_r. }
    apply (data_rep_change st _ fs i f _ need); cbn [took with_img img_len img freeblock m_sb]; try done; [by rewrite (dr_len _ _ Hr)|lia|lia|lia|..].
    + intros n Hn. rewrite upd_ne; [done|]. intros ->. apply Hn. apply (used_ind (with_block f x ind)). cbn. lia.
    + intros n. unfold upd. case_decide; [|apply Hr]. rewrite length_encode_u32s, length_resize. done.
    + apply (file_rep_grow (img st)); try done; [lia|..].
      * rewrite upd_ne by done. apply (dr_zero _ _ Hr). lia.
      * intros y Hy. apply upd_ne. by intros ->.
      * lia.
      * intros _. split; [lia|]. by rewrite upd_eq, drop_app_le by lia.
  - lia.
  - intros n Hn. change nmeta with 46 in Hn. rewrite upd_ne; [done|lia].
Qed.
End Append.
