(* ===== verification/MkfsImage.v ===== *)
(** * Building the image

    [iappend], and the invariant of [mkfs] that all its functions keep. *)

From Stdlib Require Import ZArith Lia.
From stdpp Require Import base gmap strings numbers list.
From S2P Require Import Prelude Bytes Bio BioCache Mkfs DiskLayout Log MkfsSpec.

Local Open Scope Z_scope.

(** * [iappend] appends

    One round of the loop of [iappend] at a time: finding the block, and
    writing the bytes into it. *)

(** The blocks for [n] bytes, with the indirect block. *)
Definition blocks_for (n : Z) : Z := (n + 1023) / 1024 + (if 12 * 1024 <? n then 1 else 0).

Lemma blocks_for_mono a b : a ≤ b → blocks_for a ≤ blocks_for b.
Proof.
  intros Hab. unfold blocks_for. assert ((a + 1023) / 1024 ≤ (b + 1023) / 1024) by (apply Z.div_le_mono; lia).
  destruct (Z.ltb_spec (12 * 1024) a), (Z.ltb_spec (12 * 1024) b); lia.
Qed.

(** A file has the blocks its bytes need, and no more. *)
Definition exact (f : mfile) : Prop := Z.of_nat (length (mf_blocks f)) = (mf_size f + 1023) / 1024.

(** ** Writing into the last block *)

Lemma block_of_put data k chunk :
  (1024 * k ≤ length data)%nat → (length data + length chunk ≤ 1024 * S k)%nat →
  put_bytes (block_of data k) (Z.of_nat (length data - 1024 * k)) chunk = block_of (data ++ chunk) k.
Proof.
  intros H1 H2. unfold block_of. rewrite drop_app_le by done. set (d := drop (1024 * k) data).
  assert (length d = length data - 1024 * k)%nat as <- by (unfold d; by rewrite length_drop).
  assert (length d + length chunk ≤ 1024)%nat as Hd by (unfold d; rewrite length_drop; lia).
  rewrite !resize_ge by (rewrite ?length_app; lia). unfold put_bytes. rewrite Nat2Z.id, take_app_length, <- app_assoc. f_equal. f_equal.
  rewrite drop_app_ge by lia. rewrite drop_replicate. f_equal. rewrite length_app. lia.
Qed.

Lemma block_of_before data k chunk : (1024 * S k ≤ length data)%nat → block_of (data ++ chunk) k = block_of data k.
Proof.
  intros H. unfold block_of. rewrite drop_app_le by lia. apply resize_app_le. rewrite length_drop. lia.
Qed.

Definition with_data (f : mfile) (data : list Z) : mfile := mkMf (mf_type f) data (mf_blocks f) (mf_ind f).

Lemma write_block st fs i f k x chunk :
  data_rep st fs → fs !! i = Some f → mf_blocks f !! k = Some x → length (mf_blocks f) = S k →
  (1024 * k ≤ length (mf_data f))%nat → (length (mf_data f) + length chunk ≤ 1024 * S k)%nat →
  data_rep (with_img st FSSIZE (upd (img st) x (put_bytes (img st x) (Z.of_nat (length (mf_data f) - 1024 * k)) chunk)))
    (<[i := with_data f (mf_data f ++ chunk)]> fs).
Proof.
  intros Hr Hi Hx Hl H1 H2. pose proof (dr_files _ _ Hr i f Hi) as [F1 F2 F3 F4 F5]. pose proof (dr_free _ _ Hr) as Hfr.
  rewrite (F3 k x Hx), block_of_put by done. assert (x ∈ mf_blocks f) as Hxin by (by eapply list_elem_of_lookup_2).
  apply (data_rep_change st _ fs i f _ 0); cbn [with_img img_len m_sb freeblock img]; try done; [symmetry; apply Hr|lia|lia|..].
  - by rewrite app_nil_r.
  - intros n Hn. apply upd_ne. intros ->. apply Hn. unfold used. apply elem_of_app. by left.
  - intros n. unfold upd. case_decide; [|apply Hr]. unfold block_of. by rewrite length_resize.
  - split; cbn [with_data mf_blocks mf_data mf_ind]; rewrite ?length_app; try done; [lia|..].
    + intros j y Hy. destruct (decide (j = k)) as [->|Hjk].
      * assert (y = x) as -> by congruence. by rewrite upd_eq.
      * assert (j < k)%nat by (apply lookup_lt_Some in Hy; lia). rewrite upd_ne, (F3 j y Hy).
        -- symmetry. apply block_of_before. lia.
        -- intros ->. apply Hjk. assert (NoDup (mf_blocks f)) as Hnd by (by eapply used_blocks_nodup). by apply (NoDup_lookup _ j k x Hnd).
    + intros H. destruct (F5 H) as [Hne Hc]. split; [done|]. rewrite upd_ne; [done|]. intros E.
      apply (used_ind_fresh st fs i f Hr Hi Hne). by rewrite E.
Qed.

(** ** One round *)

(** The state reached from [st] by giving file [i] the bytes and blocks of [f']. *)
Record moved (st st' : mkfs) (fs : list mfile) (i : nat) (f f' : mfile) (need : Z) : Prop := {
  mv_rep : data_rep st' (<[i := f']> fs);
  mv_type : mf_type f' = mf_type f;
  mv_free : freeblock st' = freeblock st + need;
  mv_inode : freeinode st' = freeinode st;
  mv_meta : ∀ n, n < nmeta → img st' n = img st n;
}.

Section Rounds.
Context (h : Host) (Hroom : FSSIZE ≤ h_room h).

Lemma gets_block_moved st fs i f din need r :
  gets_block st fs i f din need r →
  ∃ x f' st', r = Done (x, with_caddrs din (addrs_of f'), st') ∧ mf_data f' = mf_data f ∧ mf_blocks f' = mf_blocks f ++ [x] ∧
    moved st st' fs i f f' need.
Proof using. intros (x & ind & st' & -> & Hr & Hf & Hi & Hm). by exists x, (with_block f x ind), st'. Qed.

(** The block the next byte goes to. *)
Lemma append_block_ok st fs i f din :
  data_rep st fs → fs !! i = Some f → exact f → cd_addrs din = addrs_of f → mf_size f < 268 * 1024 →
  let need := blocks_for (mf_size f + 1) - blocks_for (mf_size f) in freeblock st + need ≤ FSSIZE →
  ∃ k x f' st', append_block h din (mf_size f / BSIZE) st = Done (x, with_caddrs din (addrs_of f'), st') ∧
    Z.of_nat k = mf_size f / BSIZE ∧ mf_data f' = mf_data f ∧ mf_blocks f' !! k = Some x ∧ length (mf_blocks f') = S k ∧
    moved st st' fs i f f' need.
Proof using Hroom.
  intros Hr Hi He Ha Hs need Hneed. unfold exact in He. pose proof (Zle_0_nat (length (mf_data f))) as H0. fold (mf_size f) in H0.
  pose proof (dr_free _ _ Hr) as Hfr. change BSIZE with 1024. set (k := Z.to_nat (mf_size f / 1024)).
  assert (Z.of_nat k = mf_size f / 1024) as Hk by (unfold k; rewrite Z2Nat.id; [done|divlia]). rewrite <- Hk. exists k.
  destruct (decide (mf_size f mod 1024 = 0)) as [Hm|Hm].
  - assert (k = length (mf_blocks f)) as Hkl by (apply Nat2Z.inj; rewrite Hk, He; divlia). rewrite Hkl.
    assert (mf_size f = 1024 * Z.of_nat k) as Hsz by divlia.
    assert (gets_block st fs i f din need (append_block h din (Z.of_nat (length (mf_blocks f))) st)) as Hg.
    { destruct (decide (k < 12)%nat) as [Hlt|Hge].
      - assert (need = 1) as -> by (unfold need, blocks_for; rewrite !(proj2 (Z.ltb_ge _ _)) by lia; divlia). apply append_block_direct; (done || lia).
      - assert (need = indirect_need f) as -> by (unfold need, blocks_for, indirect_need; rewrite (proj2 (Z.ltb_lt _ (_ + 1))) by lia;
          destruct (Nat.eqb_spec (length (mf_blocks f)) 12); [rewrite (proj2 (Z.ltb_ge _ _)) by lia|rewrite (proj2 (Z.ltb_lt _ _)) by lia]; divlia).
        apply append_block_indirect; (done || lia). }
    apply gets_block_moved in Hg as (x & f' & st' & -> & Hd & Hb & Hmv). exists x, f', st'. split_and!; try done.
    + by rewrite Hb, list_lookup_middle.
    + rewrite Hb, length_app. cbn. lia.
  - assert (length (mf_blocks f) = S k) as Hl by (apply Nat2Z.inj; rewrite He, Nat2Z.inj_succ, Hk; divlia).
    destruct (lookup_lt_is_Some_2 (mf_blocks f) k ltac:(lia)) as [x Hx]. exists x, f, st.
    assert (need = 0) as Hn0.
    { unfold need, blocks_for. destruct (Z.ltb_spec (12 * 1024) (mf_size f)), (Z.ltb_spec (12 * 1024) (mf_size f + 1)); divlia. }
    split_and!; try done.
    + rewrite (append_block_old h st fs i f din k x) by done. rewrite <- Ha. by destruct din.
    + split; try done; [by rewrite list_insert_id|lia].
Qed.

(** The bytes of one round. *)
Definition round_len (size n : Z) : nat := Z.to_nat (Z.min n ((size / 1024 + 1) * 1024 - size)).

Lemma round_blocks size n : 0 ≤ size → 0 < n → let m := Z.of_nat (round_len size n) in
  0 < m ≤ n ∧ (size + m + 1023) / 1024 = size / 1024 + 1 ∧ blocks_for (size + m) = blocks_for (size + 1).
Proof using.
  intros Hs Hn m. assert (0 < m ≤ n) as Hm by (unfold m, round_len; rewrite Z2Nat.id; [|divlia]; split; [|lia]; divlia).
  assert (m ≤ (size / 1024 + 1) * 1024 - size) as Hmb by (unfold m, round_len; rewrite Z2Nat.id; [lia|divlia]).
  assert ((size + m + 1023) / 1024 = size / 1024 + 1) as Hd by divlia. split; [done|]. split; [done|]. unfold blocks_for. rewrite Hd.
  replace ((size + 1 + 1023) / 1024) with (size / 1024 + 1) by divlia. f_equal.
  destruct (Z.ltb_spec (12 * 1024) (size + m)), (Z.ltb_spec (12 * 1024) (size + 1)); try done; divlia.
Qed.

Lemma append_step_ok st fs i f din p :
  data_rep st fs → fs !! i = Some f → exact f → cd_addrs din = addrs_of f → p ≠ [] → mf_size f + Z.of_nat (length p) ≤ 268 * 1024 →
  freeblock st + (blocks_for (mf_size f + Z.of_nat (length p)) - blocks_for (mf_size f)) ≤ FSSIZE →
  let m := round_len (mf_size f) (Z.of_nat (length p)) in
  ∃ f' st', append_step h (din, mf_size f, p, st) = Done (inr (with_caddrs din (addrs_of f'), mf_size f', drop m p, st')) ∧
    mf_data f' = mf_data f ++ take m p ∧ exact f' ∧ moved st st' fs i f f' (blocks_for (mf_size f') - blocks_for (mf_size f)).
Proof using Hroom.
  intros Hr Hi He Ha Hp Hs Hfree m. pose proof (Zle_0_nat (length (mf_data f))) as H0. fold (mf_size f) in H0.
  assert (0 < Z.of_nat (length p)) as Hn by (destruct p; [done|cbn; lia]).
  destruct (round_blocks (mf_size f) (Z.of_nat (length p)) H0 Hn) as (Hm & Hd & Hb). fold m in Hm, Hd, Hb.
  pose proof (blocks_for_mono (mf_size f + 1) (mf_size f + Z.of_nat (length p)) ltac:(lia)) as Hmono.
  destruct (append_block_ok st fs i f din Hr Hi He Ha) as (k & x & f1 & st1 & Hab & Hk & Hdat & Hx & Hl & Hmv); [lia|lia|].
  destruct Hmv as [Hr1 Ht1 Hf1 Hi1 Hm1]. set (fs1 := <[i := f1]> fs) in *.
  assert (fs1 !! i = Some f1) as Hi' by (apply list_lookup_insert_eq; by eapply lookup_lt_Some).
  pose proof (used_range st1 fs1 i f1 x Hr1 Hi' (used_block f1 k x Hx)) as Hxr. pose proof (dr_free _ _ Hr1) as Hfr1.
  assert (mf_size f = Z.of_nat (length (mf_data f))) as Hsz by done. change BSIZE with 1024 in Hk.
  assert (Z.to_nat (Z.min (Z.of_nat (length p)) ((Z.of_nat k + 1) * 1024 - mf_size f)) = m) as Hmin by (unfold m, round_len; by rewrite Hk).
  assert (length (take m p) = m) as Hlt by (rewrite length_take; lia).
  assert (mf_size (with_data f1 (mf_data f ++ take m p)) = mf_size f + Z.of_nat m) as Hsz' by (unfold mf_size; cbn; rewrite length_app, Hlt; lia).
  pose proof (write_block st1 fs1 i f1 k x (take m p) Hr1 Hi' Hx Hl) as Hw. rewrite Hdat, Hlt in Hw.
  specialize (Hw ltac:(divlia) ltac:(divlia)). unfold fs1 in Hw. rewrite list_insert_insert_eq in Hw.
  exists (with_data f1 (mf_data f ++ take m p)). eexists. split_and!; [|done| |split; [exact Hw|done| |done|]].
  - unfold append_step. rewrite (proj2 (Z.ltb_lt _ _)) by done. unfold ensure. rewrite (proj2 (Z.ltb_lt (_ / _) _)); [|change BSIZE with 1024; change Mkfs.MAXFILE with 268; divlia].
    cbn [mbind outcome_bind]. rewrite Hab. cbn [mbind outcome_bind]. change BSIZE with 1024. rewrite <- Hk.
    change nmeta with 46 in *. rewrite (rsect_ok _ st1 (dr_len _ _ Hr1)) by lia. cbn [mbind outcome_bind].
    rewrite (wsect_ok h Hroom _ _ st1 (dr_len _ _ Hr1)) by lia. cbn [mbind outcome_bind]. rewrite Hmin.
    replace (mf_size f - Z.of_nat k * 1024) with (Z.of_nat (length (mf_data f) - 1024 * k)) by divlia.
    rewrite Hsz'. replace (Z.min (Z.of_nat (length p)) ((Z.of_nat k + 1) * 1024 - mf_size f)) with (Z.of_nat m) by (rewrite <- Hmin, Z2Nat.id; [done|divlia]).
    by rewrite Z.mod_small by lia.
  - unfold exact. rewrite Hsz'. cbn. rewrite Hl. lia.
  - rewrite Hsz', Hb. cbn. lia.
  - intros n Hn'. cbn. rewrite upd_ne; [by apply Hm1|lia].
Qed.

Lemma moved_trans st st1 st2 fs i f f1 f2 a b :
  moved st st1 fs i f f1 a → moved st1 st2 (<[i := f1]> fs) i f1 f2 b → moved st st2 fs i f f2 (a + b).
Proof using.
  intros [A1 A2 A3 A4 A5] [B1 B2 B3 B4 B5]. rewrite list_insert_insert_eq in B1. split; [done|congruence|lia|congruence|].
  intros n Hn. by rewrite B5, A5.
Qed.

(** The whole loop. *)
Lemma append_loop i : ∀ fuel p st fs f din,
  (length p < fuel)%nat → data_rep st fs → fs !! i = Some f → exact f → cd_addrs din = addrs_of f →
  mf_size f + Z.of_nat (length p) ≤ 268 * 1024 →
  freeblock st + (blocks_for (mf_size f + Z.of_nat (length p)) - blocks_for (mf_size f)) ≤ FSSIZE →
  ∃ f' st', while_fuel fuel (append_step h) (din, mf_size f, p, st) = Done (with_caddrs din (addrs_of f'), mf_size f', st') ∧
    mf_data f' = mf_data f ++ p ∧ exact f' ∧ moved st st' fs i f f' (blocks_for (mf_size f') - blocks_for (mf_size f)).
Proof using Hroom.
  induction fuel as [|fuel IH]; intros p st fs f din Hfuel Hr Hi He Ha Hs Hfree; [lia|]. cbn [while_fuel].
  destruct (decide (p = [])) as [->|Hp].
  - unfold append_step at 1. cbn. exists f, st. rewrite app_nil_r. split_and!; try done.
    + do 3 f_equal. rewrite <- Ha. by destruct din.
    + split; try done; [by rewrite list_insert_id|lia].
  - destruct (append_step_ok st fs i f din p Hr Hi He Ha Hp Hs Hfree) as (f1 & st1 & -> & Hd & He1 & Hmv). cbn [mbind outcome_bind].
    set (m := round_len (mf_size f) (Z.of_nat (length p))) in *. pose proof (Zle_0_nat (length (mf_data f))) as H0. fold (mf_size f) in H0.
    assert (0 < Z.of_nat m ≤ Z.of_nat (length p)) as Hm by (apply round_blocks; [done|destruct p; [done|cbn; lia]]).
    assert (mf_size f1 = mf_size f + Z.of_nat m) as Hsz by (unfold mf_size; rewrite Hd, length_app, length_take; lia).
    assert (mf_size f1 + Z.of_nat (length (drop m p)) = mf_size f + Z.of_nat (length p)) as Hrest by (rewrite length_drop; lia).
    destruct (IH (drop m p) st1 (<[i := f1]> fs) f1 (with_caddrs din (addrs_of f1))) as (f2 & st2 & Hrun & Hd2 & He2 & Hmv2).
    + rewrite length_drop. lia.
    + apply Hmv.
    + apply list_lookup_insert_eq. by eapply lookup_lt_Some.
    + done.
    + done.
    + lia.
    + rewrite Hrest, (mv_free _ _ _ _ _ _ _ Hmv). lia.
    + exists f2, st2. split; [exact Hrun|]. split; [by rewrite Hd2, Hd, <- app_assoc, take_drop|]. split; [done|].
      replace (blocks_for (mf_size f2) - blocks_for (mf_size f)) with
        ((blocks_for (mf_size f1) - blocks_for (mf_size f)) + (blocks_for (mf_size f2) - blocks_for (mf_size f1))) by lia.
      by apply (moved_trans st st1 st2 fs i f f1 f2).
Qed.
End Rounds.

(** ** The inodes of the image *)

Record cdinode_ok (d : dinode) : Prop := {
  co_type : 0 ≤ cd_type d < 2 ^ 16;
  co_major : 0 ≤ cd_major d < 2 ^ 16;
  co_minor : 0 ≤ cd_minor d < 2 ^ 16;
  co_nlink : 0 ≤ cd_nlink d < 2 ^ 16;
  co_size : 0 ≤ cd_size d < 2 ^ 32;
  co_len : length (cd_addrs d) = 13%nat;
  co_addrs : Forall (λ a, 0 ≤ a < 2 ^ 32) (cd_addrs d);
}.

Lemma length_dinode_bytes d : cdinode_ok d → Z.of_nat (length (dinode_bytes d)) = DISK_INODE_SIZE.
Proof.
  intros Hd. unfold dinode_bytes. rewrite !length_app, !length_le_encode, length_encode_u32s, (co_len _ Hd). done.
Qed.

Lemma dinode_at_bytes d : cdinode_ok d → dinode_at (dinode_bytes d) 0 = d.
Proof.
  intros [H1 H2 H3 H4 H5 H6 H7]. unfold dinode_at, dinode_bytes, get_u16, get_u32. destruct d as [t ma mi nl sz ad].
  cbn [cd_type cd_major cd_minor cd_nlink cd_size cd_addrs] in *. cbn [Z.add]. f_equal.
  - by rewrite get_u16_field.
  - next_field. by rewrite get_u16_field.
  - next_field. by rewrite get_u16_field.
  - next_field. by rewrite get_u16_field.
  - next_field. by rewrite get_u32_field.
  - etrans; [|apply (get_u32s_array ad H7)]. rewrite H6. apply list_fmap_ext. intros i k Hk. apply lookup_seqZ in Hk as [-> _].
    unfold get_u32. do 5 (rewrite get_bytes_next by (rewrite length_le_encode; lia); rewrite length_le_encode).
    f_equal. f_equal. lia.
Qed.

Lemma get_get_bytes b off len o n : 0 ≤ off → 0 ≤ o → o + n ≤ len → get_bytes (get_bytes b off len) o n = get_bytes b (off + o) n.
Proof.
  intros H1 H2 H3. apply list_eq. intros j. rewrite !lookup_get_bytes by lia. case_decide; [|done].
  rewrite decide_True by lia. f_equal. lia.
Qed.

Lemma dinode_at_get b off d : 0 ≤ off → cdinode_ok d → get_bytes b off DISK_INODE_SIZE = dinode_bytes d → dinode_at b off = d.
Proof.
  intros Ho Hd Hb. rewrite <- (dinode_at_bytes d Hd), <- Hb. unfold dinode_at, get_u16, get_u32, DISK_INODE_SIZE.
  rewrite !get_get_bytes, !Z.add_0_r by lia. f_equal. apply list_fmap_ext. intros i k Hk. apply lookup_seqZ in Hk as [-> Hk].
  unfold get_u32. rewrite get_get_bytes by (change (NDIRECT + 1) with 13 in Hk; lia). f_equal. f_equal. lia.
Qed.

(** * The image as files

    The invariant of [mkfs] between two calls of its functions, and what
    [ialloc], [iappend] and the copy of a file do to it. *)

(** The bytes of inode [inum]. *)
Definition inode_at (c : Z → block) (inum : Z) : list Z :=
  get_bytes (c (inum / IPB + 32)) (DISK_INODE_SIZE * (inum mod IPB)) DISK_INODE_SIZE.

Definition super_block : block := put_bytes zeroes 0 (superblock_bytes make_sb).

(** Inode [i + 1] is file [i]. *)
Record rep (st : mkfs) (fs : list mfile) : Prop := {
  rp_data : data_rep st fs;
  rp_exact : ∀ i f, fs !! i = Some f → exact f;
  rp_type : ∀ i f, fs !! i = Some f → mf_type f = T_DIR ∨ mf_type f = T_FILE;
  rp_table : ∀ i f, fs !! i = Some f → inode_at (img st) (Z.of_nat i + 1) = dinode_bytes (mf_dinode f);
  rp_free : freeinode st = Z.of_nat (length fs) + 1;
  rp_num : (length fs < 200)%nat;
  rp_super : img st 1 = super_block;
  rp_log : ∀ n, 2 ≤ n < 32 → img st n = zeroes;
}.

Lemma used_bounds st fs i f x : data_rep st fs → fs !! i = Some f → x ∈ used f → 46 ≤ x < 1000.
Proof.
  intros Hr Hi Hx. pose proof (used_range st fs i f x Hr Hi Hx). pose proof (dr_free _ _ Hr). unfold FSSIZE in *. change nmeta with 46 in *. lia.
Qed.

Lemma mf_size_bound st fs i f : data_rep st fs → fs !! i = Some f → 0 ≤ mf_size f ≤ 268 * 1024.
Proof. intros Hr Hi. destruct (dr_files _ _ Hr i f Hi) as [H1 H2 _ _ _]. unfold mf_size. lia. Qed.

Lemma addrs_of_range st fs i f : data_rep st fs → fs !! i = Some f → Forall (λ a, 0 ≤ a < 1000) (addrs_of f).
Proof.
  intros Hr Hi. apply Forall_app. split.
  - apply Forall_resize; [lia|]. apply Forall_forall. intros x Hx. apply list_elem_of_lookup in Hx as [k Hk].
    pose proof (used_bounds st fs i f x Hr Hi (used_block f k x Hk)). lia.
  - apply Forall_singleton. destruct (decide (mf_ind f = 0)) as [->|Hne]; [lia|]. pose proof (used_bounds st fs i f _ Hr Hi (used_ind f Hne)). lia.
Qed.

Lemma mf_dinode_ok st fs i f : data_rep st fs → fs !! i = Some f → mf_type f = T_DIR ∨ mf_type f = T_FILE → cdinode_ok (mf_dinode f).
Proof.
  intros Hr Hi Ht. pose proof (mf_size_bound st fs i f Hr Hi). split; cbn [mf_dinode cd_type cd_major cd_minor cd_nlink cd_size cd_addrs]; try lia.
  - destruct Ht as [-> | ->]; unfold T_DIR, T_FILE; lia.
  - rewrite length_app, length_resize. done.
  - eapply Forall_impl; [exact (addrs_of_range st fs i f Hr Hi)|]. cbn. lia.
Qed.

(** The data does not care about the blocks before it. *)
Lemma data_rep_meta st fs n b :
  data_rep st fs → 0 ≤ n < 46 → Z.of_nat (length b) = BSIZE → data_rep (with_img st FSSIZE (upd (img st) n b)) fs.
Proof.
  intros Hr Hn Hb. pose proof (dr_free _ _ Hr) as Hfr. change nmeta with 46 in *. split; cbn [with_img img_len m_sb freeblock img]; try apply Hr; try done.
  - intros i f Hi. apply (file_rep_frame (img st)); [|by apply (dr_files _ _ Hr i)]. intros x Hx. apply upd_ne.
    pose proof (used_bounds st fs i f x Hr Hi Hx). lia.
  - intros x Hx. rewrite upd_ne by lia. by apply Hr.
  - intros x. unfold upd. case_decide; [done|apply Hr].
Qed.

Section Image.
Context (h : Host) (Hroom : FSSIZE ≤ h_room h).

Lemma rinode_ok inum d st : m_sb st = make_sb → img_len st = FSSIZE → 0 ≤ inum < 200 → cdinode_ok d →
  inode_at (img st) inum = dinode_bytes d → rinode inum st = Done d.
Proof using.
  intros Hsb Hlen Hi Hd Hb. unfold rinode, IBLOCK. rewrite Hsb. change (sb_inodestart make_sb) with 32. unfold inode_at, IPB, BSIZE, DISK_INODE_SIZE in *.
  rewrite rsect_ok by (done || unfold FSSIZE; divlia). cbn [mbind outcome_bind]. rewrite (dinode_at_get _ _ d); [done|divlia|done|exact Hb].
Qed.

Lemma winode_ok inum d st fs : data_rep st fs → 0 ≤ inum < 200 → cdinode_ok d →
  ∃ st', winode h inum d st = Done st' ∧ data_rep st' fs ∧ inode_at (img st') inum = dinode_bytes d ∧
    (∀ j, 0 ≤ j < 200 → j ≠ inum → inode_at (img st') j = inode_at (img st) j) ∧
    freeblock st' = freeblock st ∧ freeinode st' = freeinode st ∧ (∀ n, n < 32 → img st' n = img st n).
Proof using Hroom.
  intros Hr Hi Hd. unfold winode, IBLOCK. rewrite (dr_sb _ _ Hr). change (sb_inodestart make_sb) with 32.
  pose proof (length_dinode_bytes d Hd) as Hlb. pose proof (dr_sized _ _ Hr (inum / IPB + 32)) as Hsz.
  unfold inode_at, IPB, BSIZE, DISK_INODE_SIZE in *. change (1024 / 64) with 16 in *.
  rewrite (rsect_ok _ st (dr_len _ _ Hr)) by (unfold FSSIZE; divlia). cbn [mbind outcome_bind].
  rewrite (wsect_ok h Hroom _ _ st (dr_len _ _ Hr)) by (unfold FSSIZE; divlia). eexists. split; [done|]. cbn [with_img img freeblock freeinode].
  assert (0 ≤ 64 * (inum mod 16) ∧ 64 * (inum mod 16) + 64 ≤ 1024) as [Ho1 Ho2] by divlia. split_and!; try done.
  - apply data_rep_meta; [done|divlia|]. rewrite length_put_bytes; unfold BSIZE; lia.
  - rewrite upd_eq, <- Hlb. apply get_put_bytes; lia.
  - intros j Hj Hne. unfold upd. case_decide as Hb; [|done]. rewrite Hb. rewrite get_put_bytes_ne; [done|lia|divlia|lia|divlia].
  - intros n Hn. apply upd_ne. divlia.
Qed.

(** Appending to a file. *)
Lemma iappend_ok st fs i f p :
  rep st fs → fs !! i = Some f → mf_size f + Z.of_nat (length p) ≤ 268 * 1024 →
  freeblock st + (blocks_for (mf_size f + Z.of_nat (length p)) - blocks_for (mf_size f)) ≤ FSSIZE →
  ∃ f' st', iappend h (Z.of_nat i + 1) p st = Done st' ∧ rep st' (<[i := f']> fs) ∧ mf_type f' = mf_type f ∧ mf_data f' = mf_data f ++ p ∧
    freeblock st' = freeblock st + (blocks_for (mf_size f + Z.of_nat (length p)) - blocks_for (mf_size f)).
Proof using Hroom.
  intros [Hr He Ht Htab Hfi Hnum Hsup Hlog] Hi Hs Hfree. pose proof (lookup_lt_Some _ _ _ Hi) as Hlt.
  pose proof (mf_dinode_ok st fs i f Hr Hi (Ht i f Hi)) as Hok. pose proof (mf_size_bound st fs i f Hr Hi) as Hsz.
  unfold iappend. rewrite (rinode_ok _ (mf_dinode f) st (dr_sb _ _ Hr) (dr_len _ _ Hr)) by (lia || done || by apply Htab).
  cbn [mbind outcome_bind mf_dinode cd_size]. rewrite xint_id by lia.
  destruct (append_loop h Hroom i (S (length p)) p st fs f (mf_dinode f)) as (f' & st1 & Hrun & Hd & He' & [Hr1 Ht1 Hf1 Hfi1 Hm1]); try done; [lia|by apply (He i)|].
  rewrite Hrun. cbn [mbind outcome_bind].
  assert (<[i := f']> fs !! i = Some f') as Hi' by (by apply list_lookup_insert_eq).
  assert (mf_size f' = mf_size f + Z.of_nat (length p)) as Hsz' by (unfold mf_size; rewrite Hd, length_app; lia).
  rewrite xint_id by lia. cbn [with_caddrs mf_dinode cd_type cd_major cd_minor cd_nlink cd_addrs].
  replace (mkCd (mf_type f) 0 0 1 (mf_size f') (addrs_of f')) with (mf_dinode f') by (unfold mf_dinode; by rewrite Ht1).
  assert (mf_type f' = T_DIR ∨ mf_type f' = T_FILE) as Htt by (rewrite Ht1; by apply (Ht i)).
  pose proof (mf_dinode_ok st1 _ i f' Hr1 Hi' Htt) as Hok'.
  destruct (winode_ok (Z.of_nat i + 1) (mf_dinode f') st1 _ Hr1 ltac:(lia) Hok') as (st2 & Hw & Hr2 & Ha & Hb & Hf2 & Hfi2 & Hm2).
  exists f', st2. rewrite Hf2, Hf1, Hsz'. split_and!; try done. change nmeta with 46 in Hm1.
  assert (∀ j, 0 ≤ j < 200 → inode_at (img st1) j = inode_at (img st) j) as Htab1.
  { intros j Hj. unfold inode_at. rewrite Hm1; [done|]. change IPB with 16. divlia. }
  split; try done.
  - intros j g Hj. destruct (decide (j = i)) as [->|Hne]; [congruence|]. rewrite list_lookup_insert_ne in Hj by done. by apply (He j).
  - intros j g Hj. destruct (decide (j = i)) as [->|Hne]; [congruence|]. rewrite list_lookup_insert_ne in Hj by done. by apply (Ht j).
  - intros j g Hj. destruct (decide (j = i)) as [->|Hne]; [congruence|]. rewrite list_lookup_insert_ne in Hj by done.
    pose proof (lookup_lt_Some _ _ _ Hj). rewrite Hb, Htab1 by lia. by apply Htab.
  - rewrite length_insert. congruence.
  - by rewrite length_insert.
  - by rewrite Hm2, Hm1 by lia.
  - intros n Hn. rewrite Hm2, Hm1 by lia. by apply Hlog.
Qed.

(** A new file. *)
Definition empty_file (t : Z) : mfile := mkMf t [] [] 0.

Lemma ialloc_ok st fs t : rep st fs → (S (length fs) < 200)%nat → t = T_DIR ∨ t = T_FILE →
  ∃ st', ialloc h t st = Done (Z.of_nat (length fs) + 1, st') ∧ rep st' (fs ++ [empty_file t]) ∧ freeblock st' = freeblock st.
Proof using Hroom.
  intros [Hr He Ht Htab Hfi Hnum Hsup Hlog] Hl Htt. unfold ialloc. rewrite Hfi, (Z.mod_small (_ + 1)) by lia.
  set (st0 := mkMkfs _ _ _ _ _).
  assert (data_rep st0 (fs ++ [empty_file t])) as Hr0.
  { destruct Hr as [R1 R2 R3 R4 R5 R6 R7]. split; try done.
    - unfold used_all. rewrite fmap_app, join_app. cbn. by rewrite app_nil_r.
    - intros i f Hi. apply lookup_app_Some in Hi as [Hi|[_ Hi]]; [by apply (R5 i)|]. apply list_lookup_singleton_Some in Hi as [_ <-].
      split; cbn; try lia. intros k x Hk. by rewrite lookup_nil in Hk. }
  assert ((fs ++ [empty_file t]) !! length fs = Some (empty_file t)) as Hi by (by rewrite list_lookup_middle).
  pose proof (mf_dinode_ok st0 _ _ _ Hr0 Hi Htt) as Hok.
  replace (mkCd (xshort t) 0 0 (xshort 1) (xint 0) (replicate (Z.to_nat (NDIRECT + 1)) 0)) with (mf_dinode (empty_file t))
    by (destruct Htt as [-> | ->]; reflexivity).
  destruct (winode_ok (Z.of_nat (length fs) + 1) (mf_dinode (empty_file t)) st0 _ Hr0 ltac:(lia) Hok) as (st' & -> & Hr' & Ha & Hb & Hf & Hfi' & Hm).
  cbn [mbind outcome_bind]. exists st'. split_and!; try done.
  assert (∀ i f, (fs ++ [empty_file t]) !! i = Some f → fs !! i = Some f ∨ i = length fs ∧ f = empty_file t) as Hcase.
  { intros i f Hf'. apply lookup_app_Some in Hf' as [Hf'|[Hge Hf']]; [by left|right]. apply list_lookup_singleton_Some in Hf' as [E <-]. split; [lia|done]. }
  split; try done.
  - intros i f Hif. destruct (Hcase i f Hif) as [Hi'|[-> ->]]; [by apply (He i)|done].
  - intros i f Hif. destruct (Hcase i f Hif) as [Hi'|[-> ->]]; [by apply (Ht i)|done].
  - intros i f Hif. destruct (Hcase i f Hif) as [Hi'|[-> ->]]; [|done]. pose proof (lookup_lt_Some _ _ _ Hi'). rewrite Hb by lia. by apply Htab.
  - rewrite Hfi', length_app. cbn. lia.
  - rewrite length_app. cbn. lia.
  - by rewrite Hm by lia.
  - intros n Hn. rewrite Hm by lia. by apply Hlog.
Qed.

(** Copying a file, [BSIZE] bytes at a time. *)
Lemma copy_loop i : ∀ fuel rest st fs f,
  (length rest < fuel)%nat → rep st fs → fs !! i = Some f → mf_size f + Z.of_nat (length rest) ≤ 268 * 1024 →
  freeblock st + (blocks_for (mf_size f + Z.of_nat (length rest)) - blocks_for (mf_size f)) ≤ FSSIZE →
  ∃ f' st', while_fuel fuel (λ '(rest, st),
      let buf := take (Z.to_nat BSIZE) rest in
      if 0 <? Z.of_nat (length buf) then
        st ← iappend h (Z.of_nat i + 1) buf st; Done (inr (drop (Z.to_nat BSIZE) rest, st))
      else Done (inl st)) (rest, st) = Done st' ∧
    rep st' (<[i := f']> fs) ∧ mf_type f' = mf_type f ∧ mf_data f' = mf_data f ++ rest ∧
    freeblock st' = freeblock st + (blocks_for (mf_size f + Z.of_nat (length rest)) - blocks_for (mf_size f)).
Proof using Hroom.
  induction fuel as [|fuel IH]; intros rest st fs f Hfuel Hr Hi Hs Hfree; [lia|]. cbn [while_fuel]. cbv zeta.
  set (buf := take (Z.to_nat BSIZE) rest). assert (Z.of_nat (length buf) = Z.min 1024 (Z.of_nat (length rest))) as Hbuf.
  { unfold buf. rewrite length_take. unfold BSIZE. lia. }
  destruct (Z.ltb_spec 0 (Z.of_nat (length buf))) as [Hpos|Hzero].
  - pose proof (blocks_for_mono (mf_size f + Z.of_nat (length buf)) (mf_size f + Z.of_nat (length rest)) ltac:(lia)) as Hmono.
    destruct (iappend_ok st fs i f buf Hr Hi) as (f1 & st1 & -> & Hr1 & Ht1 & Hd1 & Hf1); [lia|lia|]. cbn [mbind outcome_bind].
    assert (mf_size f1 = mf_size f + Z.of_nat (length buf)) as Hsz by (unfold mf_size; rewrite Hd1, length_app; lia).
    assert (Z.of_nat (length (drop (Z.to_nat BSIZE) rest)) = Z.of_nat (length rest) - Z.of_nat (length buf)) as Hdrop.
    { rewrite length_drop, Hbuf. unfold BSIZE. lia. }
    destruct (IH (drop (Z.to_nat BSIZE) rest) st1 (<[i := f1]> fs) f1) as (f2 & st2 & Hrun & Hr2 & Ht2 & Hd2 & Hf2); try done.
    + lia.
    + apply list_lookup_insert_eq. by eapply lookup_lt_Some.
    + lia.
    + rewrite Hdrop, Hsz. replace (mf_size f + Z.of_nat (length buf) + (Z.of_nat (length rest) - Z.of_nat (length buf))) with (mf_size f + Z.of_nat (length rest)) by lia. lia.
    + exists f2, st2. split; [exact Hrun|]. rewrite list_insert_insert_eq in Hr2. split; [done|]. split; [congruence|].
      split; [by rewrite Hd2, Hd1, <- app_assoc; unfold buf; rewrite take_drop|]. rewrite Hf2, Hf1, Hdrop, Hsz.
      replace (mf_size f + Z.of_nat (length buf) + (Z.of_nat (length rest) - Z.of_nat (length buf))) with (mf_size f + Z.of_nat (length rest)) by lia. lia.
  - assert (rest = []) as -> by (destruct rest; [done|cbn in Hbuf; lia]). exists f, st. cbn [mbind outcome_bind]. split; [done|].
    rewrite list_insert_id, app_nil_r by done. cbn. rewrite Z.add_0_r. split_and!; try done. lia.
Qed.

Lemma length_dirent_bytes inum name : Z.of_nat (length (dirent_bytes inum name)) = 16.
Proof using. unfold dirent_bytes, strncpy. by rewrite length_app, length_le_encode, length_resize. Qed.

(** One argument: the entry in the root directory and the file. *)
Lemma add_file_ok st fs root arg contents :
  rep st fs → fs !! 0%nat = Some root → h_open h arg = Some contents → SLASH_CH ∉ base_name arg → (S (length fs) < 200)%nat →
  mf_size root + 16 ≤ 268 * 1024 → Z.of_nat (length contents) ≤ 268 * 1024 →
  freeblock st + (blocks_for (mf_size root + 16) - blocks_for (mf_size root)) + blocks_for (Z.of_nat (length contents)) ≤ FSSIZE →
  ∃ root' f st', add_file h 1 arg st = Done st' ∧ rep st' (<[0%nat := root']> fs ++ [f]) ∧
    mf_type root' = mf_type root ∧ mf_data root' = mf_data root ++ dirent_bytes (Z.of_nat (length fs) + 1) (short_name (base_name arg)) ∧
    mf_type f = T_FILE ∧ mf_data f = contents ∧
    freeblock st' = freeblock st + (blocks_for (mf_size root + 16) - blocks_for (mf_size root)) + blocks_for (Z.of_nat (length contents)).
Proof using Hroom.
  intros Hr H0 Hopen Hsl Hnum Hroot Hlen Hfree. unfold add_file. rewrite bool_decide_eq_false_2, Hopen by done. cbn [negb ensure unwrap mbind outcome_bind].
  assert (0 ≤ blocks_for (Z.of_nat (length contents))) as Hpos by (transitivity (blocks_for 0); [done|apply blocks_for_mono; lia]).
  destruct (ialloc_ok st fs T_FILE Hr Hnum) as (st1 & -> & Hr1 & Hf1); [by right|]. cbn [mbind outcome_bind]. rewrite xshort_id by lia.
  pose proof (lookup_lt_Some _ _ _ H0) as Hlt.
  destruct (iappend_ok st1 _ 0 root (dirent_bytes (Z.of_nat (length fs) + 1) (short_name (base_name arg))) Hr1) as (root' & st2 & Hia & Hr2 & Ht2 & Hd2 & Hf2).
  { by rewrite lookup_app_l. }
  { rewrite length_dirent_bytes. lia. }
  { rewrite length_dirent_bytes. lia. }
  rewrite length_dirent_bytes in Hf2. change (Z.of_nat 0 + 1) with 1 in Hia. rewrite Hia. cbn [mbind outcome_bind].
  rewrite insert_app_l in Hr2 by done. assert ((<[0%nat := root']> fs ++ [empty_file T_FILE]) !! length fs = Some (empty_file T_FILE)) as Hi.
  { rewrite lookup_app_r; rewrite length_insert; [by rewrite Nat.sub_diag|done]. }
  destruct (copy_loop (length fs) (S (length contents)) contents st2 _ _ ltac:(lia) Hr2 Hi) as (f & st3 & Hrun & Hr3 & Ht3 & Hd3 & Hf3).
  { change (mf_size (empty_file T_FILE)) with 0. lia. }
  { change (mf_size (empty_file T_FILE)) with 0. change (blocks_for 0) with 0. rewrite Z.add_0_l. lia. }
  exists root', f, st3. split; [exact Hrun|]. rewrite insert_app_r_alt, length_insert, Nat.sub_diag in Hr3 by (by rewrite length_insert).
  split_and!; try done. rewrite Hf3. change (mf_size (empty_file T_FILE)) with 0. change (blocks_for 0) with 0. rewrite Z.add_0_l. lia.
Qed.
End Image.
