(* ===== verification/MkfsMain.v ===== *)
(** * The image [mkfs] makes

    [main] as a whole: the files it is given, in the root directory. *)

From Stdlib Require Import ZArith Lia.
From stdpp Require Import base gmap strings numbers list.
From S2P Require Import Prelude Bytes Bio BioCache Mkfs DiskLayout Log MkfsSpec MkfsImage.

Local Open Scope Z_scope.

(** ** What the program is asked for *)

(** The arguments with the contents of the files they name. *)
Abbreviation inputs := (list (list Z * list Z)).

Definition name_of (arg : list Z) : list Z := short_name (base_name arg).

(** The entries of the root directory. *)
Definition entries (ins : inputs) : list (Z * list Z) :=
  (1, dot) :: (1, dotdot) :: imap (λ j x, (Z.of_nat j + 2, name_of x.1)) ins.

Definition dir_bytes (es : list (Z * list Z)) : list Z := mjoin ((λ e, dirent_bytes e.1 e.2) <$> es).

Definition data_blocks (ins : inputs) : Z := foldr (λ x n, blocks_for (Z.of_nat (length x.2)) + n) 0 ins.

Lemma data_blocks_nonneg ins : 0 ≤ data_blocks ins.
Proof.
  induction ins as [|x ins IH]; [done|]. cbn. pose proof (blocks_for_mono 0 (Z.of_nat (length x.2)) ltac:(lia)) as H. change (blocks_for 0) with 0 in H. unfold data_blocks in IH. lia.
Qed.

(** The blocks of a directory with [n] entries. *)
Definition dir_blocks (n : nat) : Z := blocks_for (16 * Z.of_nat n).

(** The root directory and the files. *)
Record holds (fs : list mfile) (ins : inputs) : Prop := {
  ho_len : length fs = S (length ins);
  ho_root : ∃ root, fs !! 0%nat = Some root ∧ mf_type root = T_DIR ∧ mf_data root = dir_bytes (entries ins);
  ho_files : ∀ j x, ins !! j = Some x → ∃ f, fs !! S j = Some f ∧ mf_type f = T_FILE ∧ mf_data f = x.2;
}.

Lemma dir_bytes_app es es' : dir_bytes (es ++ es') = dir_bytes es ++ dir_bytes es'.
Proof. unfold dir_bytes. by rewrite fmap_app, join_app. Qed.

Lemma length_dir_bytes es : Z.of_nat (length (dir_bytes es)) = 16 * Z.of_nat (length es).
Proof.
  induction es as [|e es IH]; [done|]. change (e :: es) with ([e] ++ es). rewrite dir_bytes_app, !length_app, !Nat2Z.inj_add, IH.
  change (dir_bytes [e]) with (dirent_bytes e.1 e.2 ++ []). rewrite app_nil_r, length_dirent_bytes. cbn. lia.
Qed.

Lemma length_entries ins : length (entries ins) = S (S (length ins)).
Proof. cbn. by rewrite length_imap. Qed.

Lemma entries_snoc ins x : entries (ins ++ [x]) = entries ins ++ [(Z.of_nat (length ins) + 2, name_of x.1)].
Proof. unfold entries. rewrite imap_app. cbn. by rewrite Nat.add_0_r. Qed.

Lemma holds_snoc fs ins x root root' f :
  holds fs ins → fs !! 0%nat = Some root → mf_type root' = mf_type root →
  mf_data root' = mf_data root ++ dirent_bytes (Z.of_nat (length fs) + 1) (name_of x.1) → mf_type f = T_FILE → mf_data f = x.2 →
  holds (<[0%nat := root']> fs ++ [f]) (ins ++ [x]).
Proof.
  intros [H1 (r & Hr & Ht & Hd) H3] H0 Ht' Hd' Hft Hfd. assert (r = root) as -> by congruence. pose proof (lookup_lt_Some _ _ _ H0) as Hlt. split.
  - rewrite !length_app, length_insert. cbn. lia.
  - exists root'. split_and!; [by rewrite lookup_app_l, list_lookup_insert_eq by (by rewrite ?length_insert)|congruence|].
    rewrite Hd', Hd, entries_snoc, dir_bytes_app, H1. f_equal.
    unfold dir_bytes. cbn [fmap list_fmap mjoin list_join fst snd]. rewrite app_nil_r. f_equal. lia.
  - intros j y Hj. apply lookup_app_Some in Hj as [Hj|[Hge Hj]].
    + destruct (H3 j y Hj) as (g & Hg & Hgt & Hgd). exists g. split; [|done]. pose proof (lookup_lt_Some _ _ _ Hg).
      rewrite lookup_app_l by (by rewrite length_insert). by rewrite list_lookup_insert_ne.
    + apply list_lookup_singleton_Some in Hj as [Hj <-]. exists f. split; [|done]. assert (j = length ins) as -> by lia.
      rewrite lookup_app_r; rewrite length_insert, H1; [|done]. by rewrite Nat.sub_diag.
Qed.

(** A file that can be stored. *)
Definition input_ok (h : Host) (x : list Z * list Z) : Prop :=
  h_open h x.1 = Some x.2 ∧ (SLASH_CH ∉ base_name x.1) ∧ Z.of_nat (length x.2) ≤ 268 * 1024.

Section Main.
Context (h : Host) (Hroom : FSSIZE ≤ h_room h).

Lemma files_loop : ∀ rest ins st fs,
  rep st fs → holds fs ins → Forall (input_ok h) rest → (length ins + length rest < 199)%nat →
  freeblock st + (dir_blocks (S (S (length ins + length rest))) - dir_blocks (S (S (length ins)))) + data_blocks rest ≤ FSSIZE →
  ∃ st' fs', for_each rest.*1 (λ arg st, add_file h 1 arg st) st = Done st' ∧ rep st' fs' ∧ holds fs' (ins ++ rest) ∧
    freeblock st' = freeblock st + (dir_blocks (S (S (length ins + length rest))) - dir_blocks (S (S (length ins)))) + data_blocks rest.
Proof using Hroom.
  induction rest as [|x rest IH]; intros ins st fs Hr Hh Hok Hnum Hfree.
  - exists st, fs. rewrite app_nil_r. split_and!; try done. cbn [length]. rewrite Nat.add_0_r. unfold data_blocks. cbn. lia.
  - apply Forall_cons in Hok as [(Hopen & Hsl & Hlen) Hok]. cbn [fmap list_fmap for_each]. cbn [length] in *.
    destruct (ho_root _ _ Hh) as (root & H0 & Ht & Hd). pose proof (ho_len _ _ Hh) as Hl.
    assert (mf_size root = 16 * Z.of_nat (S (S (length ins)))) as Hsz by (unfold mf_size; by rewrite Hd, length_dir_bytes, length_entries).
    assert (mf_size root + 16 = 16 * Z.of_nat (S (S (S (length ins))))) as Hsz' by lia.
    assert (dir_blocks (S (S (S (length ins)))) ≤ dir_blocks (S (S (length ins + S (length rest))))) as Hmono by (apply blocks_for_mono; lia).
    assert (0 ≤ blocks_for (Z.of_nat (length x.2))) as Hpos by (transitivity (blocks_for 0); [done|apply blocks_for_mono; lia]).
    assert (data_blocks (x :: rest) = blocks_for (Z.of_nat (length x.2)) + data_blocks rest) as Hdb by done.
    pose proof (data_blocks_nonneg rest) as Hdp.
    destruct (add_file_ok h Hroom st fs root x.1 x.2 Hr H0 Hopen Hsl) as (root' & f & st1 & -> & Hr1 & Ht1 & Hd1 & Hft & Hfd & Hf1).
    { lia. }
    { lia. }
    { done. }
    { rewrite Hsz', Hsz. fold (dir_blocks (S (S (S (length ins))))) (dir_blocks (S (S (length ins)))). lia. }
    cbn [mbind outcome_bind]. rewrite Hsz', Hsz in Hf1. fold (dir_blocks (S (S (S (length ins))))) (dir_blocks (S (S (length ins)))) in Hf1.
    pose proof (holds_snoc fs ins x root root' f Hh H0 Ht1 Hd1 Hft Hfd) as Hh1.
    destruct (IH (ins ++ [x]) st1 _ Hr1 Hh1 Hok) as (st2 & fs2 & Hrun & Hr2 & Hh2 & Hf2); rewrite length_app in *; cbn [length] in *.
    { lia. }
    { replace (length ins + 1 + length rest)%nat with (length ins + S (length rest))%nat by lia. rewrite Nat.add_1_r. lia. }
    exists st2, fs2. split; [exact Hrun|]. split; [done|]. rewrite <- app_assoc in Hh2. split; [done|].
    replace (length ins + 1 + length rest)%nat with (length ins + S (length rest))%nat in Hf2 by lia. rewrite Nat.add_1_r in Hf2. lia.
Qed.

(** ** Before the files *)

Lemma fill_ok : ∃ st, for_range 0 FSSIZE (λ i st, wsect h i zeroes st) fresh = Done st ∧
  img_len st = FSSIZE ∧ (∀ n, img st n = zeroes) ∧ m_sb st = make_sb ∧ freeinode st = 1 ∧ freeblock st = nmeta.
Proof using Hroom.
  destruct (for_range_inv (λ i st, img_len st = i ∧ (∀ n, img st n = zeroes) ∧ m_sb st = make_sb ∧ freeinode st = 1 ∧ freeblock st = nmeta)
    0 FSSIZE (λ i st, wsect h i zeroes st) fresh) as (st & Hrun & Hst); [done|done| |by exists st].
  intros i st Hi (Hlen & Himg & Hrest). unfold wsect. rewrite seek_id, Hlen by lia. rewrite (proj2 (Z.leb_gt _ _)) by lia.
  eexists. split; [done|]. cbn. split; [lia|]. split; [|done]. intros n. unfold upd. by case_decide.
Qed.

Lemma empty_rep st : img_len st = FSSIZE → (∀ n, img st n = zeroes) → m_sb st = make_sb → freeinode st = 1 → freeblock st = nmeta →
  rep (with_img st FSSIZE (upd (img st) 1 super_block)) [].
Proof using.
  intros H1 H2 H3 H4 H5. assert (∀ n, Z.of_nat (length (img st n)) = BSIZE) as Hsz by (intros n; by rewrite H2).
  split; try done.
  - split; cbn [with_img img_len m_sb freeblock img]; try done; try (rewrite H5; done).
    + intros n Hn. rewrite upd_ne by (rewrite H5 in Hn; change nmeta with 46 in Hn; lia). apply H2.
    + intros n. unfold upd. by case_decide.
  - cbn. lia.
  - intros n Hn. cbn [with_img img]. rewrite upd_ne by lia. apply H2.
Qed.

(** The root directory with its own two entries. *)
Lemma root_ok st : rep st [] → freeblock st = nmeta →
  ∃ st1 st2 st3 fs, ialloc h T_DIR st = Done (1, st1) ∧ iappend h 1 (dirent_bytes (xshort 1) dot) st1 = Done st2 ∧
    iappend h 1 (dirent_bytes (xshort 1) dotdot) st2 = Done st3 ∧ rep st3 fs ∧ holds fs [] ∧ freeblock st3 = nmeta + dir_blocks 2.
Proof using Hroom.
  intros Hr Hf. destruct (ialloc_ok h Hroom st [] T_DIR Hr) as (st1 & H1 & Hr1 & Hf1); [cbn; lia|by left|].
  destruct (iappend_ok h Hroom st1 _ 0 (empty_file T_DIR) (dirent_bytes (xshort 1) dot) Hr1) as (f2 & st2 & H2 & Hr2 & Ht2 & Hd2 & Hf2); [done|by vm_compute| |].
  { rewrite Hf1, Hf. by vm_compute. }
  destruct (iappend_ok h Hroom st2 _ 0 f2 (dirent_bytes (xshort 1) dotdot) Hr2) as (f3 & st3 & H3 & Hr3 & Ht3 & Hd3 & Hf3); [done| | |].
  { unfold mf_size. rewrite Hd2. by vm_compute. }
  { unfold mf_size. rewrite Hf2, Hf1, Hf, Hd2. by vm_compute. }
  exists st1, st2, st3. eexists. split_and!; [exact H1|exact H2|exact H3|exact Hr3| |].
  - split; [done| |done]. exists f3. split_and!; [done|by rewrite Ht3, Ht2|]. rewrite Hd3, Hd2. reflexivity.
  - unfold mf_size in Hf3. rewrite Hf3, Hf2, Hf1, Hf, Hd2. by vm_compute.
Qed.

(** ** After the files *)

(** Bit [b] of the bitmap. *)
Definition bitmap_bit (buf : block) (b : Z) : bool := Z.testbit (default 0 (buf !! Z.to_nat (b / 8))) (b mod 8).

Lemma balloc_bits used : 0 ≤ used ≤ 8192 →
  ∃ buf, for_range 0 used (λ i buf,
      b ← unwrap "index out of bounds" (buf !! Z.to_nat (i / 8));
      Done (<[Z.to_nat (i / 8) := Z.lor b (Z.shiftl 1 (i mod 8)) mod 256]> buf)) zeroes = Done buf ∧
    length buf = 1024%nat ∧ ∀ b, 0 ≤ b < 8192 → bitmap_bit buf b = (b <? used).
Proof using.
  intros Hu. destruct (for_range_inv (λ i buf, length buf = 1024%nat ∧ ∀ b, 0 ≤ b < 8192 → bitmap_bit buf b = (b <? i)) 0 used
    (λ i buf, b ← unwrap "index out of bounds" (buf !! Z.to_nat (i / 8));
      Done (<[Z.to_nat (i / 8) := Z.lor b (Z.shiftl 1 (i mod 8)) mod 256]> buf)) zeroes) as (buf & Hrun & Hl & Hb); [lia| | |by exists buf].
  - split; [done|]. intros b Hb. unfold bitmap_bit, zeroes. rewrite lookup_replicate_2 by (change (Z.to_nat BSIZE) with 1024%nat; divlia). cbn.
    rewrite Z.bits_0. symmetry. apply Z.ltb_ge. lia.
  - intros i buf Hi [Hl Hb]. destruct (lookup_lt_is_Some_2 buf (Z.to_nat (i / 8))) as [v Hv]; [rewrite Hl; divlia|]. rewrite Hv. cbn [unwrap mbind outcome_bind].
    eexists. split; [done|]. rewrite length_insert. split; [done|]. intros b Hb8. specialize (Hb b Hb8). unfold bitmap_bit in *.
    destruct (decide (b / 8 = i / 8)) as [E|E].
    + rewrite E in *. rewrite list_lookup_insert_eq by (rewrite Hl; divlia). rewrite Hv in Hb. cbn in *.
      change 256 with (2 ^ 8). rewrite Z.mod_pow2_bits_low, Z.lor_spec, Hb by divlia. rewrite Z.shiftl_1_l, Z.pow2_bits_eqb by divlia.
      destruct (Z.ltb_spec b i), (Z.ltb_spec b (i + 1)), (Z.eqb_spec (i mod 8) (b mod 8)); cbn; try done; divlia.
    + rewrite list_lookup_insert_ne by divlia. rewrite Hb. destruct (Z.ltb_spec b i), (Z.ltb_spec b (i + 1)); try done; try lia.
      assert (b = i) by lia. by subst.
Qed.

(** ** The finished image *)

(** The size in the inode of the root directory is rounded up. *)
Definition disk_size (i : nat) (f : mfile) : Z := if (i =? 0)%nat then (mf_size f / 1024 + 1) * 1024 else mf_size f.
Definition disk_dinode (i : nat) (f : mfile) : dinode := mkCd (mf_type f) 0 0 1 (disk_size i f) (addrs_of f).

(** The blocks of the files are those from the first data block to [top]. *)
Record image (c : Z → block) (fs : list mfile) (top : Z) : Prop := {
  ig_num : (length fs < 200)%nat;
  ig_files : ∀ i f, fs !! i = Some f → file_rep c f;
  ig_exact : ∀ i f, fs !! i = Some f → exact f;
  ig_type : ∀ i f, fs !! i = Some f → mf_type f = T_DIR ∨ mf_type f = T_FILE;
  ig_used : used_all fs ≡ₚ seqZ nmeta (top - nmeta);
  ig_top : nmeta ≤ top ≤ FSSIZE;
  ig_inode : ∀ i f, fs !! i = Some f → inode_at c (Z.of_nat i + 1) = dinode_bytes (disk_dinode i f);
  ig_super : c 1 = super_block;
  ig_log : ∀ n, 2 ≤ n < 32 → c n = zeroes;
  ig_bitmap : ∀ b, 0 ≤ b < 8192 → bitmap_bit (c 45) b = (b <? top);
  ig_sized : ∀ n, Z.of_nat (length (c n)) = BSIZE;
}.

Lemma disk_dinode_ok st fs i f : data_rep st fs → fs !! i = Some f → mf_type f = T_DIR ∨ mf_type f = T_FILE → cdinode_ok (disk_dinode i f).
Proof using.
  intros Hr Hi Ht. destruct (mf_dinode_ok st fs i f Hr Hi Ht) as [H1 H2 H3 H4 H5 H6 H7]. split; try done.
  pose proof (mf_size_bound st fs i f Hr Hi). cbn [disk_dinode cd_size]. unfold disk_size. destruct (i =? 0)%nat; divlia.
Qed.

(** [fix_root] and [balloc] finish the image. *)
Lemma image_finish_ok st fs root : rep st fs → fs !! 0%nat = Some root →
  ∃ st1 st2, fix_root h 1 st = Done st1 ∧ freeblock st1 = freeblock st ∧ balloc h (freeblock st1) st1 = Done st2 ∧ img_len st2 = FSSIZE ∧
    image (img st2) fs (freeblock st).
Proof using Hroom.
  intros [Hr He Ht Htab Hfi Hnum Hsup Hlog] H0. pose proof (dr_free _ _ Hr) as Hfr. change nmeta with 46 in Hfr.
  pose proof (mf_size_bound st fs 0 root Hr H0) as Hsz. unfold fix_root.
  rewrite (rinode_ok _ (mf_dinode root) st (dr_sb _ _ Hr) (dr_len _ _ Hr)); [|lia|by eapply mf_dinode_ok; eauto|by apply (Htab 0%nat)].
  cbn [mbind outcome_bind mf_dinode cd_type cd_major cd_minor cd_nlink cd_size cd_addrs]. rewrite (xint_id (mf_size root)) by lia. change BSIZE with 1024.
  rewrite Z.mod_small by divlia. rewrite xint_id by divlia. fold (addrs_of root).
  change (mkCd (mf_type root) 0 0 1 ((mf_size root / 1024 + 1) * 1024) (addrs_of root)) with (disk_dinode 0 root).
  destruct (winode_ok h Hroom 1 (disk_dinode 0 root) st fs Hr ltac:(lia)) as (st1 & -> & Hr1 & Ha & Hb & Hf1 & Hfi1 & Hm1); [by eapply disk_dinode_ok; eauto|].
  exists st1. destruct (balloc_bits (freeblock st)) as (buf & Hbuf & Hlb & Hbits); [unfold FSSIZE in *; lia|].
  pose proof (data_rep_meta st1 fs 45 buf Hr1 ltac:(lia) ltac:(by rewrite Hlb)) as Hr2.
  eexists. split; [done|]. split; [done|]. split.
  { unfold balloc, ensure. rewrite Hf1, (proj2 (Z.ltb_lt _ _)) by (unfold FSSIZE, BSIZE in *; lia). cbn [mbind outcome_bind]. rewrite Hbuf.
    cbn [mbind outcome_bind]. rewrite (dr_sb _ _ Hr1). change (sb_bmapstart make_sb) with 45.
    apply (wsect_ok h Hroom); [apply Hr1|unfold FSSIZE; lia]. }
  split; [done|]. cbn [with_img img]. pose proof (dr_used _ _ Hr2) as Hu. cbn [with_img freeblock] in Hu. rewrite Hf1 in Hu.
  split; try done; try apply Hr2.
  - intros i f Hi. unfold inode_at. rewrite upd_ne by (change IPB with 16; pose proof (lookup_lt_Some _ _ _ Hi); divlia).
    fold (inode_at (img st1) (Z.of_nat i + 1)). destruct i as [|i].
    + assert (f = root) as -> by congruence. exact Ha.
    + pose proof (lookup_lt_Some _ _ _ Hi). rewrite Hb by lia. by apply (Htab (S i)).
  - rewrite upd_ne by lia. by rewrite Hm1 by lia.
  - intros n Hn. rewrite upd_ne, Hm1 by lia. by apply Hlog.
Qed.

Lemma main_ok prog image_name ins :
  h_create h image_name = true → Forall (input_ok h) ins → (length ins < 199)%nat →
  let top := nmeta + dir_blocks (S (S (length ins))) + data_blocks ins in top ≤ FSSIZE →
  ∃ st fs, main h (prog :: image_name :: ins.*1) = Done st ∧ img_len st = FSSIZE ∧ holds fs ins ∧ image (img st) fs top.
Proof using Hroom.
  intros Hc Hok Hnum top Htop. unfold main. rewrite Hc. cbn [negb].
  change (ensure (BSIZE mod DISK_INODE_SIZE =? 0) "Assertion `(BSIZE % sizeof(struct dinode)) == 0' failed.") with (Done tt).
  change (ensure (BSIZE mod Z.of_nat (length (dirent_bytes 0 [])) =? 0) "Assertion `(BSIZE % sizeof(struct dirent)) == 0' failed.") with (Done tt).
  rewrite !bind_Done_l. destruct fill_ok as (st0 & -> & F1 & F2 & F3 & F4 & F5). rewrite bind_Done_l, F3. fold super_block.
  rewrite (wsect_ok h Hroom 1 super_block st0 F1) by (unfold FSSIZE; lia). rewrite bind_Done_l.
  destruct (root_ok _ (empty_rep st0 F1 F2 F3 F4 F5) F5) as (st1 & st2 & st3 & fs & -> & E2 & E3 & Hr3 & Hh3 & Hf3).
  rewrite bind_Done_l. change (ensure (1 =? ROOTINO) _) with (Done tt). rewrite bind_Done_l, E2, bind_Done_l, E3, bind_Done_l.
  destruct (files_loop ins [] st3 fs Hr3 Hh3 Hok) as (st4 & fs4 & -> & Hr4 & Hh4 & Hf4); [done|rewrite Hf3; cbn [length Nat.add]; lia|].
  rewrite bind_Done_l. destruct (ho_root _ _ Hh4) as (root & H0 & _). destruct (image_finish_ok st4 fs4 root Hr4 H0) as (st5 & st6 & -> & _ & Hbal & Hlen & Himg).
  rewrite bind_Done_l. exists st6, fs4. split_and!; try done. replace top with (freeblock st4); [done|].
  rewrite Hf4, Hf3. cbn [length Nat.add]. unfold top. lia.
Qed.
End Main.
