(* ===== verification/MkfsRead.v ===== *)
(** * The kernel on the image of [mkfs]

    The structures [mkfs] writes, read by the kernel: the inodes, the block
    map, the contents of the files and the entries of the root directory. *)

From Stdlib Require Import ZArith Lia.
From stdpp Require Import base gmap strings numbers list.
From S2P Require Import Prelude Bytes Bio BioSpec BioCache BioClient Mkfs DiskLayout Log LogSpec PhysMem Bitmap Inode InodeSpec InodeTheorems.
From S2P Require Import Path PathTheorems Directory MkfsSpec MkfsImage MkfsMain.

Local Open Scope Z_scope.

(** Blocks outside of the image do not matter. *)
Lemma image_agree c c' fs top :
  image c fs top → (∀ n, 0 ≤ n < FSSIZE → c' n = c n) → (∀ n, Z.of_nat (length (c' n)) = BSIZE) → image c' fs top.
Proof.
  intros [H0 H1 H2 H3 H4 H5 H6 H7 H8 H9 H10] Hc Hsz. unfold FSSIZE in Hc, H5. change nmeta with 46 in *. split; try done.
  - intros i f Hi. apply (file_rep_frame c); [|by apply (H1 i)]. intros n Hn. apply Hc.
    assert (n ∈ used_all fs) as Hn' by (rewrite (used_all_split fs i f Hi); apply elem_of_app; by left).
    rewrite H4 in Hn'. apply elem_of_seqZ in Hn'. lia.
  - intros i f Hi. unfold inode_at. pose proof (lookup_lt_Some _ _ _ Hi).
    rewrite Hc; [by apply H6|]. change IPB with 16. divlia.
  - by rewrite Hc by lia.
  - intros n Hn. rewrite Hc by lia. by apply H8.
  - intros b Hb. rewrite Hc by lia. by apply H9.
Qed.

(** ** Contents *)

(** Block [k] of a file on the disk. *)
Definition block_map (f : mfile) (k : Z) : Z := default 0 (mf_blocks f !! Z.to_nat k).

Lemma block_of_lookup data k j : (j < 1024)%nat → block_of data k !! j = Some (default 0 (data !! (1024 * k + j)%nat)).
Proof.
  intros Hj. unfold block_of. destruct (decide (j < length (drop (1024 * k) data))%nat) as [Hl|Hl].
  - rewrite lookup_resize by done. rewrite lookup_drop. rewrite length_drop in Hl.
    destruct (lookup_lt_is_Some_2 data (1024 * k + j)) as [x Hx]; [lia|]. by rewrite Hx.
  - rewrite lookup_resize_new by lia. rewrite length_drop in Hl. by rewrite lookup_ge_None_2 by lia.
Qed.

(** The bytes of the blocks are the bytes of the file, then zeroes. *)
Lemma file_byte_data c f o : file_rep c f → 0 ≤ o < 1024 * Z.of_nat (length (mf_blocks f)) →
  file_byte c (block_map f) o = default 0 (mf_data f !! Z.to_nat o).
Proof.
  intros Hf Ho. unfold file_byte, block_map. change BSIZE with 1024.
  destruct (lookup_lt_is_Some_2 (mf_blocks f) (Z.to_nat (o / 1024))) as [x Hx]; [divlia|]. rewrite Hx. change (default 0 (Some x)) with x.
  rewrite (fr_data _ _ Hf _ _ Hx), block_of_lookup by divlia. cbn. do 2 f_equal. divlia.
Qed.

Lemma file_bytes_data c f off n : file_rep c f → 0 ≤ off → 0 ≤ n → off + n ≤ mf_size f →
  file_bytes c (block_map f) off n = get_bytes (mf_data f) off n.
Proof.
  intros Hf Ho Hn Hle. unfold mf_size in Hle. pose proof (fr_len _ _ Hf) as Hlen. apply list_eq. intros i. rewrite lookup_get_bytes by done. unfold file_bytes.
  rewrite list_lookup_fmap. case_decide as Hi.
  - rewrite lookup_seqZ_lt by lia. cbn. rewrite file_byte_data by (done || lia).
    replace (Z.to_nat (off + Z.of_nat i)) with (Z.to_nat off + i)%nat by lia.
    destruct (lookup_lt_is_Some_2 (mf_data f) (Z.to_nat off + i)) as [x Hx]; [lia|]. by rewrite Hx.
  - by rewrite lookup_seqZ_ge by lia.
Qed.

(** ** Inodes *)

Definition kernel_type (t : Z) : InodeType := if t =? T_DIR then Directory else File.
Definition kernel_dinode (i : nat) (f : mfile) : DiskInode := mkDinode (kernel_type (mf_type f)) 0 0 1 (disk_size i f) (addrs_of f).

Section Image.
Context (c : Z → block) (fs : list mfile) (top : Z) (Himg : image c fs top).

Lemma image_used i f x : fs !! i = Some f → x ∈ used f → 46 ≤ x < 1000.
Proof using Himg.
  intros Hi Hx. assert (x ∈ used_all fs) as Hx' by (rewrite (used_all_split fs i f Hi); apply elem_of_app; by left).
  rewrite (ig_used _ _ _ Himg) in Hx'. apply elem_of_seqZ in Hx'. pose proof (ig_top _ _ _ Himg). unfold FSSIZE in *. change nmeta with 46 in *. lia.
Qed.

Lemma image_size i f : fs !! i = Some f → 0 ≤ mf_size f ≤ 268 * 1024.
Proof using Himg. intros Hi. destruct (ig_files _ _ _ Himg i f Hi) as [H1 H2 _ _ _]. unfold mf_size. lia. Qed.

Lemma kernel_dinode_ok i f : fs !! i = Some f → dinode_ok (kernel_dinode i f).
Proof using Himg.
  intros Hi. pose proof (image_size i f Hi). split; cbn [kernel_dinode di_major di_minor nlink di_size addrs]; try lia.
  - unfold disk_size. destruct (i =? 0)%nat; divlia.
  - unfold addrs_of. rewrite length_app, length_resize. done.
  - apply Forall_app. split.
    + apply Forall_resize; [lia|]. apply Forall_forall. intros x Hx. apply list_elem_of_lookup in Hx as [k Hk].
      pose proof (image_used i f x Hi (used_block f k x Hk)). lia.
    + apply Forall_singleton. destruct (decide (mf_ind f = 0)) as [->|Hne]; [lia|]. pose proof (image_used i f _ Hi (used_ind f Hne)). lia.
Qed.

(** The kernel decodes the inodes. *)
Lemma image_dinode i f : fs !! i = Some f →
  get_dinode (c ((Z.of_nat i + 1) / IPB + 32)) (locate_inode_offset (Z.of_nat i + 1)) = Done (kernel_dinode i f).
Proof using Himg.
  intros Hi. unfold get_dinode, locate_inode_offset. pose proof (ig_inode _ _ _ Himg i f Hi) as Hb. unfold inode_at in Hb. rewrite Hb.
  rewrite <- (dinode_decode_encode (kernel_dinode i f) (kernel_dinode_ok i f Hi)). f_equal.
  unfold dinode_bytes, encode_dinode, disk_dinode, kernel_dinode, kernel_type. cbn [cd_type cd_major cd_minor cd_nlink cd_size cd_addrs itype di_major di_minor nlink di_size addrs].
  destruct (ig_type _ _ _ Himg i f Hi) as [-> | ->]; reflexivity.
Qed.

(** The kernel's block map finds the blocks, up to its own maximum. *)
Lemma image_mapped i f k : fs !! i = Some f → 0 ≤ k < Z.of_nat (length (mf_blocks f)) → k < 140 →
  mapped c (kernel_dinode i f) k (block_map f k).
Proof using Himg.
  intros Hi Hk H140. destruct (lookup_lt_is_Some_2 (mf_blocks f) (Z.to_nat k)) as [x Hx]; [lia|]. unfold block_map. rewrite Hx. change (default 0 (Some x)) with x.
  pose proof (image_used i f x Hi (used_block f _ x Hx)) as Hxr. pose proof (ig_files _ _ _ Himg i f Hi) as Hf. split; [lia|].
  cbn [kernel_dinode addrs]. unfold NDIRECT. change (NINDIRECT + 12) with 140. destruct (decide (k < 12)) as [Hlt|Hge].
  - left. split; [lia|]. apply addrs_of_direct; [lia|done].
  - right. split; [lia|]. destruct (fr_ind _ _ Hf ltac:(lia)) as [Hne Hind]. exists (mf_ind f). split; [done|]. split; [apply addrs_of_ind|].
    rewrite Hind. replace (k - 12) with (Z.of_nat (Z.to_nat k - 12)) by lia. symmetry. apply get_u32_encode; [|lia].
    pose proof (fr_max _ _ Hf). rewrite lookup_resize_lt; [|lia|rewrite length_drop; lia]. rewrite lookup_drop. by replace (12 + (Z.to_nat k - 12))%nat with (Z.to_nat k) by lia.
Qed.
End Image.

(** ** The root directory *)

Lemma get_dir_bytes es k e : es !! k = Some e → get_bytes (dir_bytes es) (16 * Z.of_nat k) 16 = dirent_bytes e.1 e.2.
Proof.
  intros Hk. rewrite <- (take_drop_middle es k e Hk), dir_bytes_app.
  assert (Z.of_nat (length (dir_bytes (take k es))) = 16 * Z.of_nat k) as Hl.
  { rewrite length_dir_bytes, length_take. apply lookup_lt_Some in Hk. lia. }
  rewrite get_bytes_app_r, Hl, Z.sub_diag by lia. change (e :: drop (S k) es) with ([e] ++ drop (S k) es). rewrite dir_bytes_app.
  change (dir_bytes [e]) with (dirent_bytes e.1 e.2 ++ []). rewrite app_nil_r. apply get_bytes_here, length_dirent_bytes.
Qed.

Lemma decode_dirent inum name : 0 ≤ inum < 2 ^ 16 → decode_direntry (dirent_bytes inum name) = mkDe inum (strncpy name).
Proof.
  intros Hi. unfold decode_direntry, dirent_bytes, get_u16. rewrite get_u16_field by done. f_equal.
  rewrite get_bytes_next by (rewrite length_le_encode; lia). rewrite length_le_encode. rewrite <- (app_nil_r (strncpy name)) at 1.
  apply get_bytes_here. unfold strncpy. by rewrite length_resize.
Qed.

Lemma c_string_strncpy name : Z.of_nat (length name) < DIRSIZ → no_nul name → c_string (strncpy name) = name.
Proof.
  intros Hl Hn. unfold strncpy, DIRSIZ in *. rewrite resize_ge by lia.
  destruct (Z.to_nat 14 - length name)%nat as [|m] eqn:E; [lia|]. cbn [replicate]. by apply c_string_prefix.
Qed.

Lemma root_entry c root es k e : file_rep c root → mf_data root = dir_bytes es → es !! k = Some e → 0 ≤ e.1 < 2 ^ 16 →
  entry_at c (block_map root) (Z.of_nat k) = mkDe e.1 (strncpy e.2).
Proof.
  intros Hf Hd Hk He. unfold entry_at, DIRENTRY_SIZE. pose proof (lookup_lt_Some _ _ _ Hk). pose proof (length_dir_bytes es) as Hl.
  rewrite file_bytes_data by (done || unfold mf_size; rewrite ?Hd; lia). rewrite Hd, (get_dir_bytes es k e Hk). by apply decode_dirent.
Qed.

Lemma root_entry_free c root es k : file_rep c root → mf_data root = dir_bytes es → Z.of_nat (length es) ≤ k →
  16 * k + 16 ≤ 1024 * Z.of_nat (length (mf_blocks root)) → de_inum (entry_at c (block_map root) k) = 0.
Proof.
  intros Hf Hd Hk Hle. unfold entry_at, DIRENTRY_SIZE. pose proof (length_dir_bytes es) as Hl.
  assert (file_bytes c (block_map root) (16 * k) 16 = replicate 16 0) as ->; [|done].
  apply list_eq. intros i. unfold file_bytes. rewrite list_lookup_fmap. destruct (decide (Z.of_nat i < 16)).
  - rewrite lookup_seqZ_lt, lookup_replicate_2 by lia. cbn. rewrite file_byte_data by (done || lia). rewrite lookup_ge_None_2; [done|]. rewrite Hd. lia.
  - rewrite lookup_seqZ_ge by lia. by rewrite lookup_ge_None_2 by (rewrite length_replicate; lia).
Qed.

(** ** The start of the file system *)

Definition image_log : Log := mkLog 2 30 ROOTDEV 0 false (decode_lh zeroes).

Lemma fs_init_ok {D} {BD : BlockDevice D} {BDL : BlockDeviceLaws D} (disk0 : D) :
  dev_read disk0 1 = super_block → dev_read disk0 2 = zeroes →
  ∃ s, fs_init sb_uninit log_uninit ROOTDEV (boot disk0) = Done (Some make_sb, image_log, s) ∧ disk s = disk0 ∧ quiet ROOTDEV s (dev_read disk0) [].
Proof.
  intros H1 H2. pose proof (boot_quiet ROOTDEV disk0 ltac:(done)) as Hq. unfold fs_init, sb_init. cbn [sb_uninit].
  destruct (open1 ROOTDEV (boot disk0) (dev_read disk0) [] 1 Hq) as (b & s1 & pl & -> & Hd1 & Hr1 & Hh1); [by apply Nat.ltb_lt|]. rewrite bind_Done_l.
  rewrite (raw_data_ok ROOTDEV s1 _ b 1 Hr1 Hh1), bind_Done_l. cbn [cur one_open]. rewrite H1. change (decode_sb super_block) with make_sb.
  change (sb_magic make_sb =? FSMAGIC) with true. cbn [negb].
  destruct (close1 ROOTDEV s1 (dev_read disk0) [] 1 pl b Hr1 Hh1) as (s2 & -> & Hd2 & Hq2); [intros _; by rewrite Hd1|]. rewrite !bind_Done_l.
  unfold log_init. change (read_log (Some make_sb)) with (Done (2, 30)). rewrite bind_Done_l.
  destruct (recover_empty ROOTDEV (mkLog 2 30 ROOTDEV (outstanding log_uninit) (committing log_uninit) (lh log_uninit)) eq_refl s2 (dev_read disk0) Hq2)
    as (s3 & -> & Hd3 & Hq3); cbn [log_start]; rewrite ?H2; [done|]. rewrite bind_Done_l. exists s3. split; [done|]. split; [|done]. rewrite Hd3, Hd2, Hd1. done.
Qed.
