(* ===== verification/MkfsTheorems.v ===== *)
(** * The files given to [mkfs] are the files the kernel finds *)

From Stdlib Require Import ZArith Lia.
From stdpp Require Import base gmap strings numbers list.
From S2P Require Import Prelude Bytes Bio BioSpec BioCache BioClient Mkfs DiskLayout Log LogSpec PhysMem Bitmap Inode InodeSpec InodeTheorems.
From S2P Require Import Path PathTheorems Directory MkfsSpec MkfsImage MkfsMain MkfsRead.

Local Open Scope Z_scope.

Definition names (ins : inputs) : list (list Z) := (λ x, name_of x.1) <$> ins.

(** What [mkfs] can be asked for: files that can be opened, of at most [max]
    blocks, with distinct names that fit into a path, and room for all of them
    in the image. *)
Record request (max : Z) (h : Host) (ins : inputs) : Prop := {
  rq_files : Forall (λ x, h_open h x.1 = Some x.2 ∧ (SLASH_CH ∉ base_name x.1) ∧ Z.of_nat (length x.2) ≤ max * 1024) ins;
  rq_names : Forall element (names ins);
  rq_distinct : NoDup (dot :: dotdot :: names ins);
  rq_num : (length ins < 199)%nat;
  rq_fit : nmeta + dir_blocks (S (S (length ins))) + data_blocks ins ≤ FSSIZE;
}.

Section Root.
Context (ins : inputs) (Hnames : Forall element (names ins)) (Hnum : (length ins < 199)%nat).

Lemma entries_names k e : entries ins !! k = Some e → (dot :: dotdot :: names ins) !! k = Some e.2 ∧ 1 ≤ e.1 < 2 ^ 16.
Proof using Hnum.
  intros Hk. destruct k as [|[|k]]; [by injection Hk as <-|by injection Hk as <-|].
  change (imap (λ j x, (Z.of_nat j + 2, name_of x.1)) ins !! k = Some e) in Hk. change (names ins !! k = Some e.2 ∧ 1 ≤ e.1 < 2 ^ 16).
  rewrite list_lookup_imap in Hk. unfold names. rewrite list_lookup_fmap. destruct (ins !! k) as [x|] eqn:Ex; [|done]. cbn in Hk. injection Hk as <-.
  pose proof (lookup_lt_Some _ _ _ Ex). cbn. split; [done|lia].
Qed.

Lemma entries_short e : e ∈ dot :: dotdot :: names ins → Z.of_nat (length e) < DIRSIZ ∧ no_nul e.
Proof using Hnames.
  intros He. apply elem_of_cons in He as [->|He]; [by vm_compute; repeat constructor|]. apply elem_of_cons in He as [->|He]; [by vm_compute; repeat constructor|].
  apply (proj1 (Forall_forall _ _) Hnames) in He as (_ & H1 & H2 & _). done.
Qed.

(** The names of the entries. *)
Lemma entry_matches c root k s : file_rep c root → mf_data root = dir_bytes (entries ins) → (k < length (entries ins))%nat →
  matches (entry_at c (block_map root) (Z.of_nat k)) s ↔ (dot :: dotdot :: names ins) !! k = Some s.
Proof using Hnames Hnum.
  intros Hf Hd Hk. destruct (lookup_lt_is_Some_2 (entries ins) k Hk) as [e He]. destruct (entries_names k e He) as [Hn Hr].
  rewrite (root_entry c root (entries ins) k e Hf Hd He) by lia. destruct (entries_short e.2 (list_elem_of_lookup_2 _ _ _ Hn)) as [Hs1 Hs2].
  unfold matches. cbn [de_inum de_name]. rewrite c_string_strncpy by done. rewrite Hn. split.
  - by intros [_ ->].
  - intros [= <-]. split; [lia|done].
Qed.

Lemma root_blocks root : exact root → mf_data root = dir_bytes (entries ins) →
  mf_size root = 16 * (Z.of_nat (length ins) + 2) ∧ Z.of_nat (length (mf_blocks root)) = (mf_size root + 1023) / 1024.
Proof using Hnum.
  intros He Hd. split; [|done]. unfold mf_size. rewrite Hd, length_dir_bytes, length_entries. lia.
Qed.

(** The root directory as the kernel sees it. *)
Lemma root_dir c fs top root : image c fs top → fs !! 0%nat = Some root → mf_type root = T_DIR → mf_data root = dir_bytes (entries ins) →
  dir_ok ROOTDEV (root_guard (kernel_dinode 0 root)) c (block_map root) (64 * (mf_size root / 1024 + 1)) (64 * Z.of_nat (length (mf_blocks root))).
Proof using Hnum.
  intros Himg H0 Ht Hd. destruct (root_blocks root (ig_exact _ _ _ Himg 0%nat root H0) Hd) as [Hsz Hbl]. split; cbn [root_guard id_dev id_dinode kernel_dinode itype di_size].
  - done.
  - by rewrite Ht.
  - unfold disk_size, DIRENTRY_SIZE. cbn [Nat.eqb]. lia.
  - unfold disk_size. cbn [Nat.eqb]. divlia.
  - divlia.
  - intros k Hk b Hb. unfold DIRENTRY_SIZE in Hb. change BSIZE with 1024 in Hb. apply (image_mapped c fs top Himg 0 root b H0); divlia.
Qed.
End Root.

(** ** What the kernel does with the image *)

Section Serve.
Context {D : Type} {BD : BlockDevice D} {BF : BitField}.

(** The path of a file in the root directory. *)
Definition root_path (name : list Z) : list Z := SLASH :: name ++ [0].

(** File [j] is found under its name, its inode can be locked and read in full,
    to whatever destination, and given back. *)
Definition file_served (c : Z → block) (j : nat) (x : list Z * list Z) : Prop :=
  ∀ ic (d : dstate D), d_sb d = Some make_sb → quiet ROOTDEV (d_b d) c [] → idle ic →
  let inode := mkInode ROOTDEV (Z.of_nat j + 2) 1 in
  let len := Z.of_nat (length x.2) in
  ∃ ic1 s1 g ic2 s2,
    namei (root_path (name_of x.1)) None ic d = Done (Some inode, ic1, with_b d s1) ∧
    lock inode ic1 (with_b d s1) = Done (g, ic2, with_b d s2) ∧
    itype (id_dinode g) = File ∧ di_size (id_dinode g) = len ∧
    (∀ M (CP : Copier M) is_user (DS : Destination M is_user) (DL : DestinationLaws M is_user) dst m,
       0 ≤ dst → dst + len < 2 ^ 64 → dst_ok dst len m →
       ∃ s3, inode_read g is_user dst 0 len (with_b d s2) m = Done (Ok len, g, with_b d s3, dst_put dst x.2 m) ∧ quiet ROOTDEV s3 c []) ∧
    (∀ s3, ∃ ic3, put inode (unlock 1 g ic2) (with_b d s3) = Done (ic3, with_b d s3) ∧ idle ic3).

(** Nothing is found under any other name. *)
Definition others_missing (c : Z → block) (ins : inputs) : Prop :=
  ∀ name ic (d : dstate D), d_sb d = Some make_sb → quiet ROOTDEV (d_b d) c [] → idle ic →
  element name → name ∉ dot :: dotdot :: names ins →
  ∃ ic1 s1, namei (root_path name) None ic d = Done (None, ic1, with_b d s1) ∧ quiet ROOTDEV s1 c [] ∧ idle ic1.

Lemma locate_image (d : dstate D) inum : d_sb d = Some make_sb → 0 ≤ inum < 200 → locate_inode (d_sb d) inum = Done (inum / IPB + 32).
Proof using.
  intros -> Hi. unfold locate_inode, sb_read. cbn [unwrap mbind outcome_bind]. change (sb_ninodes make_sb) with 200. change (sb_inodestart make_sb) with 32.
  rewrite (proj2 (Z.leb_gt _ _)) by lia. change IPB with 16. apply u32add_ok. divlia.
Qed.

Lemma path_length name post : element name → Z.of_nat (length post) < 2 ^ 32 → Z.of_nat (length (SLASH :: name ++ 0 :: post)) < 2 ^ 64.
Proof using. intros (_ & Hl & _) Hp. cbn [length]. rewrite length_app. unfold DIRSIZ in Hl. cbn. lia. Qed.

Context {BDL : BlockDeviceLaws D}.
Context (ins : inputs) (Hnames : Forall element (names ins)) (Hnum : (length ins < 199)%nat) (Hdistinct : NoDup (dot :: dotdot :: names ins)).
Context (c : Z → block) (fs : list mfile) (top : Z) (Himg : image c fs top) (Hholds : holds fs ins).

Lemma file_found j x post cwd ic (d : dstate D) :
  ins !! j = Some x → Z.of_nat (length post) < 2 ^ 32 → d_sb d = Some make_sb → quiet ROOTDEV (d_b d) c [] → idle ic →
  ∃ ic1 s1, namei (SLASH :: name_of x.1 ++ 0 :: post) cwd ic d = Done (Some (mkInode ROOTDEV (Z.of_nat j + 2) 1), ic1, with_b d s1) ∧
    disk s1 = disk (d_b d) ∧ quiet ROOTDEV s1 c [] ∧ held ic1 1 (Z.of_nat j + 2).
Proof using BDL Hnames Hnum Hdistinct Himg Hholds.
  intros Hj Hpost Hsb Hq Hidle. destruct (ho_root _ _ Hholds) as (root & H0 & Ht & Hd).
  pose proof (lookup_lt_Some _ _ _ Hj) as Hjl. pose proof (ig_files _ _ _ Himg 0%nat root H0) as Hroot.
  pose proof (root_dir ins Hnum c fs top root Himg H0 Ht Hd) as Hdir. pose proof (root_blocks ins Hnum root (ig_exact _ _ _ Himg 0%nat root H0) Hd) as [Hsz Hbl].
  assert (element (name_of x.1)) as Hel by (apply (proj1 (Forall_forall _ _) Hnames), list_elem_of_fmap; exists x; split; [done|by eapply list_elem_of_lookup_2]).
  assert (entries ins !! S (S j) = Some (Z.of_nat j + 2, name_of x.1)) as Hentry.
  { change (imap (λ j x, (Z.of_nat j + 2, name_of x.1)) ins !! j = Some (Z.of_nat j + 2, name_of x.1)). by rewrite list_lookup_imap, Hj. }
  assert ((dot :: dotdot :: names ins) !! S (S j) = Some (name_of x.1)) as Hname by (apply (entries_names ins Hnum _ _ Hentry)).
  pose proof (root_entry c root (entries ins) (S (S j)) _ Hroot Hd Hentry ltac:(cbn; lia)) as Hat. cbn [fst snd] in Hat.
  assert (de_inum (entry_at c (block_map root) (Z.of_nat (S (S j)))) = Z.of_nat j + 2) as Hinum by (by rewrite Hat).
  destruct (namei_found c [] ltac:(by apply Nat.ltb_lt) 32 (kernel_dinode 0 root) (block_map root) (64 * (mf_size root / 1024 + 1)) (64 * Z.of_nat (length (mf_blocks root)))
    (image_dinode c fs top Himg 0 root H0) ltac:(done) Hdir (name_of x.1) post cwd (Z.of_nat (S (S j))) ic d Hel (path_length _ _ Hel Hpost) Hidle Hq) as (ic1 & s1 & Hrun & Hd1 & Hq1 & Hh1).
  { by rewrite locate_image. }
  { rewrite Hbl, Hsz. divlia. }
  { intros k Hk Hm. replace k with (Z.of_nat (Z.to_nat k)) in Hm by lia.
    apply (entry_matches ins Hnames Hnum c root (Z.to_nat k) _ Hroot Hd) in Hm; [|rewrite length_entries; lia].
    pose proof (NoDup_lookup _ _ _ _ Hdistinct Hm Hname). lia. }
  { apply (entry_matches ins Hnames Hnum c root (S (S j)) _ Hroot Hd); [rewrite length_entries; lia|done]. }
  { rewrite Hinum. unfold ROOTINUM. lia. }
  rewrite Hinum in Hrun, Hh1. by exists ic1, s1.
Qed.

(** The inode of a file, found and locked. *)
Lemma file_locked j x f post cwd ic (d : dstate D) : ins !! j = Some x → fs !! S j = Some f → mf_type f = T_FILE → Z.of_nat (length post) < 2 ^ 32 →
  d_sb d = Some make_sb → quiet ROOTDEV (d_b d) c [] → idle ic →
  let inode := mkInode ROOTDEV (Z.of_nat j + 2) 1 in let g := mkData true ROOTDEV (Z.of_nat j + 2) (kernel_dinode (S j) f) in
  ∃ ic1 s1 ic2 s2 ic3, namei (SLASH :: name_of x.1 ++ 0 :: post) cwd ic d = Done (Some inode, ic1, with_b d s1) ∧
    lock inode ic1 (with_b d s1) = Done (g, ic2, with_b d s2) ∧ disk s2 = disk (d_b d) ∧ quiet ROOTDEV s2 c [] ∧ itype (id_dinode g) = File ∧ idle ic3 ∧
    ∀ d3 : dstate D, put inode (unlock 1 g ic2) d3 = Done (ic3, d3).
Proof using BDL Hnames Hnum Hdistinct Himg Hholds.
  intros Hj Hf Hft Hpost Hsb Hq Hidle inode g. pose proof (lookup_lt_Some _ _ _ Hj) as Hjl.
  destruct (file_found j x post cwd ic d Hj Hpost Hsb Hq Hidle) as (ic1 & s1 & Hrun & Hd1 & Hq1 & Hh1). fold inode in Hrun.
  pose proof (image_dinode c fs top Himg (S j) f Hf) as Hdi. replace (Z.of_nat (S j) + 1) with (Z.of_nat j + 2) in Hdi by lia.
  assert (itype (kernel_dinode (S j) f) = File) as Hty by (cbn; by rewrite Hft).
  destruct (lock_held 1 (Z.of_nat j + 2) ic1 (with_b d s1) c [] _ (kernel_dinode (S j) f) Hh1 ltac:(by apply slot_lt) Hq1 ltac:(by apply Nat.ltb_lt)
    (locate_image (with_b d s1) (Z.of_nat j + 2) Hsb ltac:(lia)) Hdi ltac:(by rewrite Hty)) as (y & s2 & Hlock & Hd2 & Hq2).
  destruct (put_held (D := D) 1 (Z.of_nat j + 2) ic1 y (kernel_dinode (S j) f) Hh1) as (ic3 & Hi3 & Hput); [by apply slot_lt|done|].
  exists ic1, s1. eexists _, s2, ic3. split_and!; [exact Hrun|exact Hlock|cbn in *; congruence|exact Hq2|exact Hty|exact Hi3|exact Hput].
Qed.

Lemma files_served j x : ins !! j = Some x → Z.of_nat (length x.2) ≤ 140 * 1024 → file_served c j x.
Proof using BDL Hnames Hnum Hdistinct Himg Hholds.
  intros Hj H140 ic d Hsb Hq Hidle inode len. destruct (ho_files _ _ Hholds j x Hj) as (f & Hf & Hft & Hfd).
  destruct (file_locked j x f [] None ic d Hj Hf Hft ltac:(by vm_compute) Hsb Hq Hidle) as (ic1 & s1 & ic2 & s2 & ic3 & Hrun & Hlock & _ & Hq2 & Hty & Hi3 & Hput).
  assert (mf_size f = len) as Hsz by (unfold mf_size, len; by rewrite Hfd).
  eexists ic1, s1, _, ic2, s2. split_and!; [exact Hrun|exact Hlock|exact Hty|exact Hsz| |intros s3; exists ic3; split; [apply Hput|exact Hi3]].
  intros M CP is_user DS DL dst m Hd0 Hd1 Hok.
  destruct (inode_read_ok ROOTDEV is_user (mkData true ROOTDEV (Z.of_nat j + 2) (kernel_dinode (S j) f)) dst 0 len (with_b d s2) m c [] (block_map f))
    as (s3 & Hread & _ & Hq3); try done; try (by apply Nat.ltb_lt); try lia.
  - change (0 + len ≤ mf_size f). lia.
  - intros k Hk. change BSIZE with 1024 in Hk. pose proof (ig_exact _ _ _ Himg (S j) f Hf) as He. unfold exact in He.
    apply (image_mapped c fs top Himg (S j) f k Hf); divlia.
  - exists s3. split; [|done]. rewrite Hread. do 3 f_equal.
    rewrite (file_bytes_data c f 0 len (ig_files _ _ _ Himg (S j) f Hf)) by lia. rewrite Hfd. unfold get_bytes, len. rewrite Nat2Z.id. cbn. by rewrite drop_0, firstn_all.
Qed.

(** The directory ends inside of its last block unless it fills it. *)
Lemma none_other : (Z.of_nat (length ins) + 2) mod 64 ≠ 0 → others_missing c ins.
Proof using BDL Hnames Hnum Himg Hholds.
  intros Hmod name ic d Hsb Hq Hidle Hel Hno. destruct (ho_root _ _ Hholds) as (root & H0 & Ht & Hd). pose proof (ig_files _ _ _ Himg 0%nat root H0) as Hroot.
  pose proof (root_dir ins Hnum c fs top root Himg H0 Ht Hd) as Hdir. pose proof (root_blocks ins Hnum root (ig_exact _ _ _ Himg 0%nat root H0) Hd) as [Hsz Hbl].
  destruct (namei_missing c [] ltac:(by apply Nat.ltb_lt) 32 (kernel_dinode 0 root) (block_map root) (64 * (mf_size root / 1024 + 1)) (64 * Z.of_nat (length (mf_blocks root)))
    (image_dinode c fs top Himg 0 root H0) ltac:(done) Hdir name [] None ic d Hel (path_length _ [] Hel ltac:(by vm_compute)) Hidle Hq) as (ic1 & s1 & Hrun & _ & Hq1 & Hi1).
  { by rewrite locate_image. }
  { rewrite Hbl, Hsz. divlia. }
  { intros k Hk Hm. destruct (decide (k < Z.of_nat (length (entries ins)))) as [Hlt|Hge].
    - replace k with (Z.of_nat (Z.to_nat k)) in Hm by lia. apply (entry_matches ins Hnames Hnum c root (Z.to_nat k) _ Hroot Hd) in Hm; [|lia].
      apply Hno. by eapply list_elem_of_lookup_2.
    - destruct Hm as [Hm _]. apply Hm. apply (root_entry_free c root (entries ins) k Hroot Hd); [lia|]. rewrite Hbl, Hsz in *. divlia. }
  by exists ic1, s1.
Qed.
End Serve.

(** ** The theorems *)

Lemma request_inputs max h ins : max ≤ 268 → request max h ins → Forall (input_ok h) ins.
Proof. intros Hm [H _ _ _ _]. eapply Forall_impl; [exact H|]. intros x (H1 & H2 & H3). split_and!; [done|done|lia]. Qed.

(** A disk that holds the image. *)
Definition on_disk {D} {BD : BlockDevice D} (disk0 : D) (st : mkfs) : Prop := ∀ n, 0 ≤ n < FSSIZE → dev_read disk0 n = img st n.

Lemma on_disk_image {D} {BD : BlockDevice D} {BDL : BlockDeviceLaws D} (disk0 : D) st fs top :
  on_disk disk0 st → image (img st) fs top → image (dev_read disk0) fs top.
Proof. intros Hon Himg. apply (image_agree (img st)); [done|exact Hon|]. intros n. apply dev_read_length. Qed.

(** C4 The files [mkfs] is given are the files the kernel finds.  [mkfs] finishes
    for every list of fewer than 199 files of at most 140 blocks each, the kernel's
    limit, with different short names, that fits on the disk, and on a disk with the
    image it wrote the kernel's file system starts without changing the disk; then,
    however often
    and in whatever order, each file is found by [namei] under its short name in
    the root directory, its inode can be locked and is a file of the right size,
    [read] delivers exactly the bytes of the file given to [mkfs], to whatever
    destination, and giving the inode back leaves the cache of inodes as idle as
    before.  When the entries of the root directory do not fill its last block, no
    other name is found. *)
Theorem mkfs_correct h prog image_name ins
    (Hroom : FSSIZE ≤ h_room h) (Hcreate : h_create h image_name = true) (Hreq : request 140 h ins) :
  ∃ st, main h (prog :: image_name :: ins.*1) = Done st ∧ img_len st = FSSIZE ∧ (∀ n, Z.of_nat (length (img st n)) = BSIZE) ∧
    ∀ D (BD : BlockDevice D) (BDL : BlockDeviceLaws D) (BF : BitField) (disk0 : D), on_disk disk0 st →
    ∃ d : dstate D, fs_init sb_uninit log_uninit ROOTDEV (boot disk0) = Done (d_sb d, d_log d, d_b d) ∧
      disk (d_b d) = disk0 ∧ d_sb d = Some make_sb ∧ quiet ROOTDEV (d_b d) (dev_read disk0) [] ∧
      (∀ j x, ins !! j = Some x → file_served (D := D) (dev_read disk0) j x) ∧
      ((Z.of_nat (length ins) + 2) mod 64 ≠ 0 → others_missing (D := D) (dev_read disk0) ins).
Proof.
  destruct (main_ok h Hroom prog image_name ins Hcreate (request_inputs 140 h ins ltac:(lia) Hreq) (rq_num _ _ _ Hreq) (rq_fit _ _ _ Hreq))
    as (st & fs & Hrun & Hlen & Hholds & Himg).
  exists st. split; [done|]. split; [done|]. split; [apply Himg|]. intros D BD BDL BF disk0 Hon.
  pose proof (on_disk_image disk0 st fs _ Hon Himg) as Himg'.
  destruct (fs_init_ok disk0 (ig_super _ _ _ Himg') (ig_log _ _ _ Himg' 2 ltac:(lia))) as (s & Hinit & Hd & Hq).
  exists (mkD (Some make_sb) image_log s). split; [exact Hinit|]. split; [exact Hd|]. split; [reflexivity|]. split; [exact Hq|]. split.
  - intros j x Hj. apply (files_served ins (rq_names _ _ _ Hreq) (rq_num _ _ _ Hreq) (rq_distinct _ _ _ Hreq) _ fs _ Himg' Hholds j x Hj).
    by apply (Forall_lookup_1 _ _ _ _ (rq_files _ _ _ Hreq) Hj).
  - apply (none_other ins (rq_names _ _ _ Hreq) (rq_num _ _ _ Hreq) _ fs _ Himg' Hholds).
Qed.

(** The kernel's block map ends after 140 blocks. *)
Lemma read_beyond {D} {BD : BlockDevice D} {BF : BitField} {M} {CP : Copier M} g is_user dst off (d : dstate D) (m : M) :
  140 * 1024 ≤ off → off + 1 ≤ di_size (id_dinode g) → di_size (id_dinode g) < 2 ^ 32 →
  inode_read g is_user dst off 1 d m = Panic "inode bmap: out of range.".
Proof.
  intros Ho Hs H32. unfold inode_read. rewrite (proj2 (Z.leb_gt _ _)), (proj2 (Z.ltb_ge _ _)) by lia.
  assert (read_block is_user 1 (mkRw 0 off dst (off / BSIZE) (off mod BSIZE) g d m) = Panic "inode bmap: out of range.") as H.
  { unfold read_block. cbn [rw_total rw_basic rw_self rw_d]. change (0 <? 1) with true. cbv iota. rewrite (usub_ok 1 0), bind_Done_l by lia.
    unfold bmap, NDIRECT. change (NINDIRECT + 12) with 140. change BSIZE with 1024. rewrite !(proj2 (Z.ltb_ge _ _)) by divlia. done. }
  cbn [while_fuel]. by rewrite H.
Qed.

(** C40 A file that [mkfs] accepts and the kernel cannot read.  [mkfs] stores
    files of up to 268 blocks, since it counts 256 entries in an indirect block;
    the kernel counts 128.  The kernel finds and locks such a file and reports
    its full size, and reading any byte from block 140 on makes it panic. *)
Theorem mkfs_kernel_limit h prog image_name ins j x
    (Hroom : FSSIZE ≤ h_room h) (Hcreate : h_create h image_name = true) (Hreq : request 268 h ins)
    (Hj : ins !! j = Some x) :
  ∃ st, main h (prog :: image_name :: ins.*1) = Done st ∧ (∀ n, Z.of_nat (length (img st n)) = BSIZE) ∧
    ∀ D (BD : BlockDevice D) (BDL : BlockDeviceLaws D) (BF : BitField) (disk0 : D), on_disk disk0 st →
    ∃ (d : dstate D) ic1 d1 g ic2 d2, fs_init sb_uninit log_uninit ROOTDEV (boot disk0) = Done (d_sb d, d_log d, d_b d) ∧
      namei (root_path (name_of x.1)) None new_icache d = Done (Some (mkInode ROOTDEV (Z.of_nat j + 2) 1), ic1, d1) ∧
      lock (mkInode ROOTDEV (Z.of_nat j + 2) 1) ic1 d1 = Done (g, ic2, d2) ∧ di_size (id_dinode g) = Z.of_nat (length x.2) ∧
      ∀ M (CP : Copier M) is_user dst off m, 140 * 1024 ≤ off < Z.of_nat (length x.2) →
        inode_read g is_user dst off 1 d2 m = Panic "inode bmap: out of range.".
Proof.
  destruct (main_ok h Hroom prog image_name ins Hcreate (request_inputs 268 h ins ltac:(lia) Hreq) (rq_num _ _ _ Hreq) (rq_fit _ _ _ Hreq))
    as (st & fs & Hrun & Hlen & Hholds & Himg).
  exists st. split; [done|]. split; [apply Himg|]. intros D BD BDL BF disk0 Hon. pose proof (on_disk_image disk0 st fs _ Hon Himg) as Himg'.
  destruct (fs_init_ok disk0 (ig_super _ _ _ Himg') (ig_log _ _ _ Himg' 2 ltac:(lia))) as (s & Hinit & Hd & Hq).
  destruct (ho_files _ _ Hholds j x Hj) as (f & Hf & Hft & Hfd).
  destruct (file_locked ins (rq_names _ _ _ Hreq) (rq_num _ _ _ Hreq) (rq_distinct _ _ _ Hreq) _ fs _ Himg' Hholds j x f [] None new_icache
    (mkD (Some make_sb) image_log s) Hj Hf Hft ltac:(by vm_compute) eq_refl Hq new_icache_idle) as (ic1 & s1 & ic2 & s2 & ic3 & Hnamei & Hlock & _).
  exists (mkD (Some make_sb) image_log s), ic1. eexists _, _, ic2, _.
  split; [exact Hinit|]. split; [exact Hnamei|]. split; [exact Hlock|].
  assert (mf_size f = Z.of_nat (length x.2)) as Hsz by (unfold mf_size; by rewrite Hfd). pose proof (image_size _ fs _ Himg' _ f Hf) as Hb.
  split; [exact Hsz|]. intros M CP is_user dst off m Hoff. apply read_beyond; [lia| |].
  - change (off + 1 ≤ mf_size f). lia.
  - change (mf_size f < 2 ^ 32). lia.
Qed.

(** C25 The bitmap is exact.  In the image [mkfs] writes, the blocks from the
    first data block up to the last one marked in the bitmap are the blocks of
    the root directory and of the files, each of them in exactly one file, and
    no block behind them is marked; the number of blocks taken is the number the
    sizes of the files need; every inode has the type, the size and the block
    addresses of its file; the log is empty. *)
Theorem mkfs_layout h prog image_name ins
    (Hroom : FSSIZE ≤ h_room h) (Hcreate : h_create h image_name = true) (Hreq : request 268 h ins) :
  let top := nmeta + dir_blocks (S (S (length ins))) + data_blocks ins in
  ∃ st fs, main h (prog :: image_name :: ins.*1) = Done st ∧ holds fs ins ∧
    used_all fs ≡ₚ seqZ nmeta (top - nmeta) ∧ (∀ b, 0 ≤ b < BPB → bitmap_bit (img st (sb_bmapstart make_sb)) b = (b <? top)) ∧
    (∀ i f, fs !! i = Some f → get_dinode (img st ((Z.of_nat i + 1) / IPB + sb_inodestart make_sb)) (locate_inode_offset (Z.of_nat i + 1)) = Done (kernel_dinode i f)) ∧
    decode_sb (img st 1) = make_sb ∧ lh_len (decode_lh (img st (sb_logstart make_sb))) = 0.
Proof.
  intros top. destruct (main_ok h Hroom prog image_name ins Hcreate (request_inputs 268 h ins ltac:(lia) Hreq) (rq_num _ _ _ Hreq) (rq_fit _ _ _ Hreq))
    as (st & fs & Hrun & Hlen & Hholds & Himg).
  exists st, fs. split_and!; try done; try apply Himg.
  - intros i f Hi. by apply (image_dinode _ fs _ Himg).
  - by rewrite (ig_super _ _ _ Himg).
  - change (sb_logstart make_sb) with 2. by rewrite (ig_log _ _ _ Himg) by lia.
Qed.

(** ** Two files to store *)

(** "xv6-user/_init" and "README.md". *)
Definition init_arg : list Z := user_dir ++ [95; 105; 110; 105; 116].
Definition readme_arg : list Z := [82; 69; 65; 68; 77; 69; 46; 109; 100].
Definition demo_files : inputs := [(init_arg, [127; 69; 76; 70; 1; 2; 3]); (readme_arg, replicate 1500 7)].

Definition host_of (files : inputs) : Host :=
  mkHost (λ arg, (λ r, r.2.2) <$> list_find (λ x, x.1 = arg) files) (λ _, true) FSSIZE.

Lemma demo_request : request 140 (host_of demo_files) demo_files.
Proof.
  split.
  - repeat (apply Forall_cons; split); [..|by apply Forall_nil]; (split_and!; [by vm_compute|by apply (bool_decide_unpack _); vm_compute|by vm_compute]).
  - repeat (apply Forall_cons; split); [..|by apply Forall_nil]; (split_and!; [done|by vm_compute|by repeat constructor..]).
  - by apply (bool_decide_unpack _); vm_compute.
  - by apply Nat.ltb_lt.
  - by vm_compute.
Qed.

Lemma img_on_disk st : (∀ n, Z.of_nat (length (img st n)) = BSIZE) → on_disk (mkFd (img st)) st.
Proof. intros Hs n Hn. cbn. by apply fit_id. Qed.

Lemma mkfs_correct_witness :
  ∃ st d ic1 d1 g ic2 d2 d3, main (host_of demo_files) ([] :: [] :: [init_arg; readme_arg]) = Done st ∧
    fs_init sb_uninit log_uninit ROOTDEV (boot (mkFd (img st))) = Done (d_sb d, d_log d, d_b d) ∧
    namei (BF := bit_field_std) [47; 105; 110; 105; 116; 0] None new_icache d = Done (Some (mkInode ROOTDEV 2 1), ic1, d1) ∧
    lock (mkInode ROOTDEV 2 1) ic1 d1 = Done (g, ic2, d2) ∧
    inode_read g false 0 0 7 d2 (replicate 8 0) = Done (Ok 7, g, d3, [127; 69; 76; 70; 1; 2; 3; 0]).
Proof.
  destruct (mkfs_correct (host_of demo_files) [] [] demo_files) as (st & Hrun & _ & Hsized & Hdisk).
  - by vm_compute.
  - reflexivity.
  - apply demo_request.
  - destruct (Hdisk fdisk _ _ bit_field_std (mkFd (img st)) (img_on_disk st Hsized)) as (d & Hinit & _ & Hsb & Hq & Hfiles & _).
    destruct (Hfiles 0%nat _ eq_refl new_icache d Hsb Hq new_icache_idle) as (ic1 & s1 & g & ic2 & s2 & Hnamei & Hlock & _ & _ & Hread & _).
    destruct (Hread (list Z) _ false _ _ 0 (replicate 8 0)) as (s3 & Hr & _); [clear; by vm_compute..|].
    exists st, d, ic1, (with_b d s1), g, ic2, (with_b d s2), (with_b d s3). split; [exact Hrun|]. split; [exact Hinit|]. split; [exact Hnamei|]. split; [exact Hlock|exact Hr].
Defined.

Lemma mkfs_layout_witness :
  ∃ st fs, main (host_of demo_files) ([] :: [] :: [init_arg; readme_arg]) = Done st ∧ used_all fs ≡ₚ [46; 47; 48; 49] ∧
    bitmap_bit (img st 45) 49 = true ∧ bitmap_bit (img st 45) 50 = false.
Proof.
  destruct (mkfs_layout (host_of demo_files) [] [] demo_files) as (st & fs & Hrun & _ & Hused & Hbits & _).
  - by vm_compute.
  - reflexivity.
  - destruct demo_request as [H1 H2 H3 H4 H5]. split; [|exact H2|exact H3|exact H4|exact H5].
    eapply Forall_impl; [exact H1|]. intros x (A1 & A2 & A3). split_and!; [exact A1|exact A2|lia].
  - exists st, fs. split; [exact Hrun|]. split; [exact Hused|]. split; [exact (Hbits 49 ltac:(clear; by vm_compute))|exact (Hbits 50 ltac:(clear; by vm_compute))].
Defined.

(** A file of 141 blocks. *)
Definition large_file : list Z := replicate (Z.to_nat (141 * 1024)) 7.
Definition large_files : inputs := [(readme_arg, large_file)].

Lemma mkfs_kernel_limit_witness :
  ∃ st (d : dstate fdisk) ic1 d1 g ic2 d2, main (host_of large_files) ([] :: [] :: [readme_arg]) = Done st ∧
    namei (BF := bit_field_std) (root_path readme_arg) None new_icache d = Done (Some (mkInode ROOTDEV 2 1), ic1, d1) ∧
    lock (mkInode ROOTDEV 2 1) ic1 d1 = Done (g, ic2, d2) ∧ di_size (id_dinode g) = 141 * 1024 ∧
    inode_read g false 0 (140 * 1024) 1 d2 [0] = Panic "inode bmap: out of range.".
Proof.
  destruct (mkfs_kernel_limit (host_of large_files) [] [] large_files 0 (readme_arg, large_file)) as (st & Hrun & Hsized & Hdisk).
  - by vm_compute.
  - reflexivity.
  - split.
    + apply Forall_cons. split; [|by apply Forall_nil]. split_and!; [reflexivity|by apply (bool_decide_unpack _); vm_compute|by vm_compute].
    + apply Forall_cons. split; [|by apply Forall_nil]. split_and!; [done|by vm_compute|by repeat constructor..].
    + by apply (bool_decide_unpack _); vm_compute.
    + by apply Nat.ltb_lt.
    + by vm_compute.
  - reflexivity.
  - destruct (Hdisk fdisk _ _ bit_field_std (mkFd (img st)) (img_on_disk st Hsized)) as (d & ic1 & d1 & g & ic2 & d2 & _ & Hnamei & Hlock & Hsz & Hpanic).
    exists st, d, ic1, d1, g, ic2, d2. split; [exact Hrun|]. split; [exact Hnamei|]. split; [exact Hlock|]. split; [rewrite Hsz; clear; by vm_compute|].
    apply Hpanic. clear. by vm_compute.
Defined.
