(* ===== verification/File.v ===== *)
(** * Pipes and open files

    Models [fs/pipe.rs], [fs/file.rs] and [fs/devices.rs]. *)

From Stdlib Require Import ZArith Lia.
From stdpp Require Import base gmap strings numbers list.
From S2P Require Import Prelude Bytes Bio Log Inode DiskLayout Bitmap PhysMem Path Address.

Local Open Scope Z_scope.

(** * Pipes

    Models [fs/pipe.rs].  The pipe's spinlock makes a call atomic up to the
    points where it sleeps: there it returns [PSleep], and the call goes on from
    the same place when the process is woken. *)

Definition PIPE_SIZE : Z := 512.

Record PipeGuard := mkPipe {
  p_data : list Z;
  read_number : Z;
  write_number : Z;
  read_open : bool;
  write_open : bool;
}.

(** [PipeGuard::alloc]: a zeroed page with both ends open. *)
Definition pipe_guard_alloc : PipeGuard := mkPipe (replicate (Z.to_nat PIPE_SIZE) 0) 0 0 true true.

(** What a call comes to: it sleeps (a write with the number of bytes it has
    written so far), or it returns. *)
Inductive pres :=
| PSleep (i : Z)
| PRet (r : result Z).

Section Ops.
Context {M : Type} {CP : Copier M} {P : Type} {WU : WakeUp P}.
(** The channels: the addresses of the two counters. *)
Context (rchan wchan : Z).

(** The loop of [read] that copies the bytes out: it ends with the last index
    written to [i]. *)
Definition pipe_read_loop (addr len : Z) (g : PipeGuard) (m : M) :
    outcome ((Z * PipeGuard * M) + (Z * PipeGuard * M)) :=
  for_range_until 0 len (λ index '(i, g, m),
    if read_number g =? write_number g then Done (inl (i, g, m))
    else
      let read_cursor := read_number g mod PIPE_SIZE in
      ch ← unwrap "index out of bounds" (p_data g !! Z.to_nat (read_cursor mod PIPE_SIZE));
      n ← uadd (read_number g) 1;
      let g := mkPipe (p_data g) n (write_number g) (read_open g) (write_open g) in
      a ← uadd addr index;
      '(r, m) ← copy_from_kernel true a [ch] m;
      match r with
      | Err _ => Done (inl (i, g, m))
      | Ok _ => Done (inr (index, g, m))
      end) (0, g, m).

Definition pipe_read (killed : bool) (addr len : Z) (g : PipeGuard) (m : M) (procs : P) :
    outcome (pres * PipeGuard * M * P) :=
  if (read_number g =? write_number g) && write_open g then
    if killed then Done (PRet (Err "pipe read: current process has been killed"), g, m, procs)
    else Done (PSleep 0, g, m, procs)
  else
    r ← pipe_read_loop addr len g m;
    match r with
    | inl (i, g, m) | inr (i, g, m) => Done (PRet (Ok i), g, m, wake_up wchan procs)
    end.

(** [write], from the point where [i] bytes have been written. *)
Definition pipe_write (killed : bool) (addr len i : Z) (g : PipeGuard) (m : M) (procs : P) :
    outcome (pres * PipeGuard * M * P) :=
  r ← while_fuel (S (Z.to_nat (len - i))) (λ '(i, g, m),
    if i <? len then
      if negb (read_open g) || killed then
        Done (inl (PRet (Err "pipe write: pipe read close or current process has been killed"), g, m, false))
      else
        full ← uadd (read_number g) PIPE_SIZE;
        if write_number g =? full then Done (inl (PSleep i, g, m, true))
        else
          a ← uadd addr i;
          '(r, m) ← copy_to_kernel true a 1 m;
          match r with
          | Err _ => Done (inl (PRet (Ok i), g, m, true))
          | Ok bytes =>
              let write_cursor := write_number g mod PIPE_SIZE in
              let data := <[Z.to_nat (write_cursor mod PIPE_SIZE) := nth 0 bytes 0]> (p_data g) in
              let g := mkPipe data (read_number g) (write_number g) (read_open g) (write_open g) in
              i ← uadd i 1;
              Done (inr (i, g, m))
          end
    else Done (inl (PRet (Ok i), g, m, true))) (i, g, m);
  let '(res, g, m, wakes) := r in
  Done (res, g, m, if (wakes : bool) then wake_up rchan procs else procs).

(** [close].  [free] drops a page in place, which does nothing. *)
Definition pipe_close (writeable : bool) (g : PipeGuard) (procs : P) : PipeGuard * P :=
  if writeable then
    (mkPipe (p_data g) (read_number g) (write_number g) (read_open g) false, wake_up rchan procs)
  else
    (mkPipe (p_data g) (read_number g) (write_number g) false (write_open g), wake_up wchan procs).
End Ops.

(** * Open files

    Models [fs/file.rs] and [fs/devices.rs]: the dispatch of read, write and
    stat to pipes, devices and inodes.  The functions in the device table are
    an argument; a null entry is [None]. *)

Inductive FileType := FNone | FPipe | FInode | FDevice | FSocket.

Global Instance FileType_eq_dec : EqDecision FileType.
Proof. solve_decision. Defined.

(** A pipe is referred to by its address. *)
Record VFile := mkVFile {
  ftype : FileType;
  readable : bool;
  writeable : bool;
  f_pipe : option Z;
  f_inode : option Inode;
  f_offset : Z;
  f_major : Z;
}.

Definition vfile_init : VFile := mkVFile FNone false false None None 0 0.

(** [Pipe::alloc]: both files refer to the local variable at [slot], which is
    moved out when the function returns. *)
Definition pipe_alloc (slot : Z) : PipeGuard * VFile * VFile :=
  (pipe_guard_alloc,
   mkVFile FPipe true false (Some slot) None 0 0,
   mkVFile FPipe false true (Some slot) None 0 0).

(** [Stat] in memory ([repr(C)]): the size is aligned to eight bytes. *)
Definition STAT_SIZE : Z := 24.
Definition encode_stat (s : Stat) : list Z :=
  le_encode 4 (st_dev s) ++ le_encode 4 (st_inum s) ++ le_encode 2 (itype_code (st_itype s)) ++
  le_encode 2 (i16_code (st_nlink s)) ++ replicate 4 0 ++ le_encode 8 (st_size s).

Section Ops.
Context {D : Type} {BD : BlockDevice D} {BF : BitField}.
Context {M : Type} {CP : Copier M} {P : Type} {WU : WakeUp P}.

(** [DeviceList]: read and write functions by major number. *)
Record DeviceFns := mkDevice {
  dv_read : option (bool → Z → Z → M → outcome (option Z * M));
  dv_write : option (bool → Z → Z → M → outcome (option Z * M));
}.

Definition new_device : DeviceFns := mkDevice None None.
Definition device_list_uninit : list DeviceFns := replicate (Z.to_nat NDEV) new_device.

(** What the calls change: the pipes that exist, by address, the inode cache,
    the disk, memory and processes. *)
Record world := mkWorld {
  w_pipes : gmap Z PipeGuard;
  w_ic : InodeCache;
  w_d : dstate D;
  w_m : M;
  w_procs : P;
}.

Definition with_fs (w : world) (ic : InodeCache) (d : dstate D) : world := mkWorld (w_pipes w) ic d (w_m w) (w_procs w).
Definition with_m (w : world) (m : M) : world := mkWorld (w_pipes w) (w_ic w) (w_d w) m (w_procs w).

Context (devices : list DeviceFns) (log_chan : Z) (rchan wchan : Z → Z).

Definition the_pipe (self : VFile) (w : world) : outcome (Z * PipeGuard) :=
  a ← unwrap "called `Option::unwrap()` on a `None` value" (f_pipe self);
  match w_pipes w !! a with
  | Some g => Done (a, g)
  | None => UB "pointer to a pipe that does not exist"
  end.

(** The device function, or [None] for the error of [read] and [write]. *)
Definition device_fn {A} (self : VFile) (sel : DeviceFns → option A) : outcome (option A) :=
  if (f_major self <? 0) || (NDEV <=? f_major self) then Done None
  else
    dv ← unwrap "index out of bounds" (devices !! Z.to_nat (f_major self));
    Done (sel dv).

(** [*(self.offset as *mut u32) += n]: the offset itself is taken for the
    address of a [u32]. *)
Definition advance_offset {A} (self : VFile) (n : Z) : outcome A := UB "write through the file offset".

Definition vfile_read (self : VFile) (killed : bool) (addr len : Z) (w : world) : outcome (pres * world) :=
  if negb (readable self) then Panic "File can't be read!"
  else match ftype self with
  | FPipe =>
      '(a, g) ← the_pipe self w;
      '(r, g, m, procs) ← pipe_read (wchan a) killed addr len g (w_m w) (w_procs w);
      Done (r, mkWorld (<[a := g]> (w_pipes w)) (w_ic w) (w_d w) m procs)
  | FDevice =>
      f ← device_fn self dv_read;
      match f with
      | None => Done (PRet (Err "[Error] vfs: Fail to read device"), w)
      | Some read =>
          '(r, m) ← read true addr len (w_m w);
          match r with
          | Some n => Done (PRet (Ok n), with_m w m)
          | None => Done (PRet (Err "Fail to read device"), with_m w m)
          end
      end
  | FInode =>
      inode ← unwrap "called `Option::unwrap()` on a `None` value" (f_inode self);
      '(guard, ic, d) ← lock inode (w_ic w) (w_d w);
      '(r, guard, d, m) ← inode_read guard true addr (f_offset self) (len mod 2 ^ 32) d (w_m w);
      match r with
      | Ok size => advance_offset self size
      | Err e => Done (PRet (Err e), with_m (with_fs w (unlock (i_index inode) guard ic) d) m)
      end
  | _ => Panic "Invalid file!"
  end.

Definition WRITE_MAX : Z := (MAXOPBLOCKS - 1 - 1 - 2) / 2 * BSIZE.

(** One round of the loop of [write] for an inode. *)
Definition inode_write_chunk (self : VFile) (addr len count : Z) (w : world) : outcome (result Z * world) :=
  write_bytes ← usub len count;
  let write_bytes := if WRITE_MAX <? write_bytes then WRITE_MAX else write_bytes in
  l ← begin_op (d_log (w_d w));
  match l with
  | None => wait_forever
  | Some l =>
      let d := mkD (d_sb (w_d w)) l (d_b (w_d w)) in
      inode ← unwrap "called `Option::unwrap()` on a `None` value" (f_inode self);
      '(guard, ic, d) ← lock inode (w_ic w) d;
      a ← uadd addr count;
      '(r, guard, d, m) ← inode_write guard true a (f_offset self) (write_bytes mod 2 ^ 32) d (w_m w);
      let ic := unlock (i_index inode) guard ic in
      match r with
      | Err e => Done (Err e, with_m (with_fs w ic d) m)
      | Ok _ =>
          '(l, b, procs) ← end_op log_chan (d_log d) (d_b d) (w_procs w);
          advance_offset self write_bytes
      end
  end.

Definition vfile_write (self : VFile) (killed : bool) (addr len i : Z) (w : world) : outcome (pres * world) :=
  if negb (writeable self) then Panic "file can't be written"
  else match ftype self with
  | FPipe =>
      '(a, g) ← the_pipe self w;
      '(r, g, m, procs) ← pipe_write (rchan a) killed addr len i g (w_m w) (w_procs w);
      Done (r, mkWorld (<[a := g]> (w_pipes w)) (w_ic w) (w_d w) m procs)
  | FDevice =>
      f ← device_fn self dv_write;
      match f with
      | None => Done (PRet (Err "Fail to write to device"), w)
      | Some write =>
          '(r, m) ← write true addr len (w_m w);
          match r with
          | Some n => Done (PRet (Ok n), with_m w m)
          | None => Done (PRet (Err "Fail to write device"), with_m w m)
          end
      end
  | FInode =>
      while_fuel (S (Z.to_nat len)) (λ '(count, w),
        if count <? len then
          '(r, w) ← inode_write_chunk self addr len count w;
          match r with
          | Err e => Done (inl (PRet (Err e), w))
          | Ok n => count ← uadd count n; Done (inr (count, w))
          end
        else Done (inl (PRet (Ok count), w))) (0, w)
  | _ => Panic "Invalid File Type!"
  end.

Definition vfile_stat (self : VFile) (addr : Z) (w : world) : outcome (result unit * world) :=
  match ftype self with
  | FDevice | FInode =>
      inode ← unwrap "called `Option::unwrap()` on a `None` value" (f_inode self);
      '(guard, ic, d) ← lock inode (w_ic w) (w_d w);
      let stat := inode_stat guard in
      let ic := unlock (i_index inode) guard ic in
      '(r, m) ← copy_from_kernel true addr (encode_stat stat) (w_m w);
      Done (r, with_m (with_fs w ic d) m)
  | _ => Done (Err "", w)
  end.
End Ops.
Global Arguments mkDevice {M}.
Global Arguments mkWorld {D M P}.
