(* ===== verification/Registers.v ===== *)
(** * Control registers

    Models the modules of [arch/riscv/register] and the machine-mode start of
    [main.rs].  A hart's control registers are a record; reading and writing a
    register with [csrr] and [csrw] are the projections and updates. *)

From Stdlib Require Import ZArith Lia.
From stdpp Require Import base gmap strings numbers list.
From S2P Require Import Prelude Address PageTable.

Local Open Scope Z_scope.

Record csrs := mkCsrs {
  sstatus : Z; sie : Z; sip : Z; scause : Z; sepc : Z; stval : Z; stvec : Z; satp : Z;
  mstatus : Z; mie : Z; mepc : Z; medeleg : Z; mideleg : Z; mtvec : Z; mscratch : Z; mhartid : Z;
  pmpcfg0 : Z; pmpaddr0 : Z; tp : Z;
}.

(** ** [sstatus] *)

Module Sstatus.
Definition SPP : Z := Z.shiftl 1 8.
Definition SPIE : Z := Z.shiftl 1 5.
Definition SIE : Z := Z.shiftl 1 1.

Definition is_from_supervisor (x : Z) : bool := negb (Z.land x SPP =? 0).
Definition is_from_user (x : Z) : bool := Z.land x SPP =? 0.
Definition intr_on (x : Z) : Z := Z.lor x SIE.
Definition intr_off (x : Z) : Z := Z.land x (unot 64 SIE).
Definition intr_get (x : Z) : bool := negb (Z.land x SIE =? 0).
Definition clear_spp (x : Z) : Z := Z.land x (unot 64 SPP).
Definition user_intr_on (x : Z) : Z := Z.lor x SPIE.
End Sstatus.

(** ** [scause] *)

Inductive Interrupt :=
| UserSoft | SupervisorSoft | UserTimer | SupervisorTimer | UserExternal | SupervisorExternal
| UnknownInterrupt.

Inductive Exception :=
| InstructionMisaligned | InstructionFault | IllegalInstruction | Breakpoint | LoadFault
| StoreMisaligned | StoreFault | UserEnvCall | KernelEnvCall | InstructionPageFault
| LoadPageFault | StorePageFault | UnknownException.

Inductive Trap := TrapInterrupt (i : Interrupt) | TrapException (e : Exception).

Definition interrupt_from (nr : Z) : Interrupt :=
  if nr =? 0 then UserSoft
  else if nr =? 1 then SupervisorSoft
  else if nr =? 4 then UserTimer
  else if nr =? 5 then SupervisorTimer
  else if nr =? 8 then UserExternal
  else if nr =? 9 then SupervisorExternal
  else UnknownInterrupt.

Definition exception_from (nr : Z) : Exception :=
  if nr =? 0 then InstructionMisaligned
  else if nr =? 1 then InstructionFault
  else if nr =? 2 then IllegalInstruction
  else if nr =? 3 then Breakpoint
  else if nr =? 5 then LoadFault
  else if nr =? 6 then StoreMisaligned
  else if nr =? 7 then StoreFault
  else if nr =? 8 then UserEnvCall
  else if nr =? 9 then KernelEnvCall
  else if nr =? 12 then InstructionPageFault
  else if nr =? 13 then LoadPageFault
  else if nr =? 15 then StorePageFault
  else UnknownException.

Section Scause.
Context {BF : BitField}.

Definition code (bits : Z) : Z := Z.land bits (unot 64 (Z.shiftl 1 (8 * 8 - 1))).
Definition is_interrupt (bits : Z) : bool := get_bit bits (8 * 8 - 1).
Definition is_exception (bits : Z) : bool := negb (is_interrupt bits).
Definition cause (bits : Z) : Trap :=
  if is_interrupt bits then TrapInterrupt (interrupt_from (code bits))
  else TrapException (exception_from (code bits)).
End Scause.

(** ** The other registers *)

(** [sip::clear_ssip], [sie::intr_on]. *)
Definition SSIP : Z := Z.shiftl 1 1.
Definition clear_ssip (sip : Z) : Z := Z.land sip (unot 64 SSIP).
Definition SIE_SEIE : Z := Z.shiftl 1 9.
Definition SIE_STIE : Z := Z.shiftl 1 5.
Definition SIE_SSIE : Z := Z.shiftl 1 1.
Definition sie_intr_on (sie : Z) : Z := Z.lor sie (Z.lor (Z.lor SIE_SSIE SIE_STIE) SIE_SEIE).

(** [mstatus::set_mpp] and [enable_interrupt]. *)
Definition MSTATUS_MPP_MASK : Z := Z.shiftl 3 11.
Definition MSTATUS_MPP_S : Z := Z.shiftl 1 11.
Definition set_mpp (mstatus : Z) : Z := Z.lor (Z.land mstatus (unot 64 MSTATUS_MPP_MASK)) MSTATUS_MPP_S.
Definition MIE_MTIE : Z := Z.shiftl 1 7.

(** [pmpcfg0::set_pmp]. *)
Inductive Permission := PmpNONE | PmpR | PmpW | PmpRW | PmpX | PmpRX | PmpWX | PmpRWX.
Inductive Range := RangeOFF | RangeTOR | RangeNA4 | RangeNAPOT.
Definition permission_code (p : Permission) : Z :=
  match p with PmpNONE => 0 | PmpR => 1 | PmpW => 2 | PmpRW => 3 | PmpX => 4 | PmpRX => 5 | PmpWX => 6 | PmpRWX => 7 end.
Definition range_code (r : Range) : Z :=
  match r with RangeOFF => 0 | RangeTOR => 1 | RangeNA4 => 2 | RangeNAPOT => 3 end.
Definition set_pmp (value index : Z) (range : Range) (permission : Permission) (locked : bool) : outcome Z :=
  _ ← ensure (index <? 8) "assertion failed: index < 8";
  let byte := Z.lor (Z.lor (Z.shiftl (if locked then 1 else 0) 7) (Z.shiftl (range_code range) 3)) (permission_code permission) in
  Done (Z.lor value (Z.shiftl byte (8 * index) mod 2 ^ 64)).

(** [clint]: the timer.  [mtime] is the value read from the device; the result
    is the address and the value that are written. *)
Definition count_mtiecmp (mhartid : Z) : outcome Z :=
  a ← umul 8 mhartid;
  a ← uadd CLINT a;
  uadd a 0x4000.

Definition add_mtimecmp (mtime mhartid interval : Z) : outcome (Z * Z) :=
  o ← umul 8 mhartid;
  offset ← uadd CLINT_MTIMECMP o;
  value ← uadd mtime interval;
  Done (offset, value).

(** ** [start] *)

Section Start.
Context {BF : BitField}.

Definition INTERVAL : Z := 1000000.

(** The scratch area of a hart: the words [timervec] uses. *)
Record timer_boot := mkTimer {
  t_mtimecmp : Z * Z;
  t_scratch3 : Z;
  t_scratch4 : Z;
}.

Definition timer_init (timervec scratch mtime : Z) (r : csrs) : outcome (csrs * timer_boot) :=
  let id := mhartid r in
  w ← add_mtimecmp mtime id INTERVAL;
  _ ← ensure (id <? NCPU) "index out of bounds";
  cmp ← count_mtiecmp id;
  Done (mkCsrs (sstatus r) (sie r) (sip r) (scause r) (sepc r) (stval r) (stvec r) (satp r)
          (set_bit (mstatus r) 3 true) (Z.lor (mie r) MIE_MTIE) (mepc r) (medeleg r) (mideleg r)
          timervec scratch (mhartid r) (pmpcfg0 r) (pmpaddr0 r) (tp r),
        mkTimer w cmp INTERVAL).

(** Up to the [mret]. *)
Definition start (rust_main timervec scratch mtime : Z) (r : csrs) : outcome (csrs * timer_boot) :=
  cfg ← set_pmp (pmpcfg0 r) 0 RangeTOR PmpRWX false;
  let r := mkCsrs (sstatus r) (sie_intr_on (sie r)) (sip r) (scause r) (sepc r) (stval r) (stvec r) 0
             (set_mpp (mstatus r)) (mie r) rust_main 0xffff 0xffff (mtvec r) (mscratch r) (mhartid r)
             cfg 0x3fffffffffffff (tp r) in
  '(r, t) ← timer_init timervec scratch mtime r;
  Done (mkCsrs (sstatus r) (sie r) (sip r) (scause r) (sepc r) (stval r) (stvec r) (satp r)
          (mstatus r) (mie r) (mepc r) (medeleg r) (mideleg r) (mtvec r) (mscratch r) (mhartid r)
          (pmpcfg0 r) (pmpaddr0 r) (mhartid r), t).
End Start.

(** ** Bit lemmas *)

Lemma intr_get_bit x : Sstatus.intr_get x = Z.testbit x 1.
Proof.
  unfold Sstatus.intr_get, Sstatus.SIE. change (Z.shiftl 1 1) with (2 ^ 1).
  destruct (Z.testbit x 1) eqn:E.
  - destruct (Z.eqb_spec (Z.land x (2 ^ 1)) 0) as [H|H]; [|done].
    assert (Z.testbit (Z.land x (2 ^ 1)) 1 = false) as Hf by (rewrite H; done).
    rewrite Z.land_spec, E in Hf. done.
  - destruct (Z.eqb_spec (Z.land x (2 ^ 1)) 0) as [H|H]; [done|]. exfalso. apply H.
    apply Z.bits_inj'. intros i Hi. rewrite Z.land_spec, Z.pow2_bits_eqb, Z.bits_0 by lia.
    destruct (Z.eqb_spec 1 i) as [<-|]; [by rewrite E|]. by rewrite andb_false_r.
Qed.

Lemma intr_on_get x : Sstatus.intr_get (Sstatus.intr_on x) = true.
Proof. rewrite intr_get_bit. unfold Sstatus.intr_on. rewrite Z.lor_spec. by rewrite orb_true_r. Qed.

Lemma intr_off_get x : Sstatus.intr_get (Sstatus.intr_off x) = false.
Proof. rewrite intr_get_bit. unfold Sstatus.intr_off, unot. rewrite Z.land_spec. by rewrite andb_false_r. Qed.

Lemma intr_off_other x i : 0 ≤ x < 2 ^ 64 → 0 ≤ i → i ≠ 1 → Z.testbit (Sstatus.intr_off x) i = Z.testbit x i.
Proof.
  intros Hx Hi Hne. unfold Sstatus.intr_off, unot, Sstatus.SIE. change (Z.shiftl 1 1) with (2 ^ 1).
  rewrite Z.land_spec, Z.lxor_spec, Z.pow2_bits_eqb by lia. destruct (Z.eqb_spec 1 i); [lia|]. rewrite xorb_false_l.
  destruct (Z.lt_ge_cases i 64).
  - rewrite Z.ones_spec_low by lia. by rewrite andb_true_r.
  - rewrite (testbit_high x 64) by lia. done.
Qed.

Lemma intr_on_other x i : 0 ≤ i → i ≠ 1 → Z.testbit (Sstatus.intr_on x) i = Z.testbit x i.
Proof.
  intros Hi Hne. unfold Sstatus.intr_on, Sstatus.SIE. change (Z.shiftl 1 1) with (2 ^ 1).
  rewrite Z.lor_spec, Z.pow2_bits_eqb by lia. destruct (Z.eqb_spec 1 i); [lia|]. by rewrite orb_false_r.
Qed.

(** Turning interrupts off and on again gives the register back. *)
Lemma intr_off_on x : 0 ≤ x < 2 ^ 64 → Sstatus.intr_get x = true → Sstatus.intr_on (Sstatus.intr_off x) = x.
Proof.
  intros Hx Hg. apply Z.bits_inj'. intros i Hi. destruct (Z.eq_dec i 1) as [->|Hne].
  - rewrite <- !intr_get_bit. by rewrite intr_on_get, Hg.
  - by rewrite intr_on_other, intr_off_other.
Qed.

Lemma intr_off_id x : 0 ≤ x < 2 ^ 64 → Sstatus.intr_get x = false → Sstatus.intr_off x = x.
Proof.
  intros Hx Hg. apply Z.bits_inj'. intros i Hi. destruct (Z.eq_dec i 1) as [->|Hne].
  - rewrite <- !intr_get_bit. by rewrite intr_off_get, Hg.
  - by rewrite intr_off_other.
Qed.
