(* ===== verification/Cpu.v ===== *)
(** * Harts, nested interrupt disabling and spinlocks

    Models [process/cpu.rs] (the structures, [push_off] and [pop_off]),
    [process/context.rs] and [lock/spinlock.rs]. *)

From Stdlib Require Import ZArith Lia.
From stdpp Require Import base gmap strings numbers list.
From S2P Require Import Prelude Registers.

Local Open Scope Z_scope.

(** ** Saved registers of a kernel thread *)

Record Context := mkContext { ctx_ra : Z; ctx_sp : Z; ctx_s : list Z }.

Definition new_context : Context := mkContext 0 0 (replicate 12 0).
Definition ctx_write_zero (c : Context) : Context := mkContext 0 0 (replicate 12 0).
Definition ctx_write_ra (ra : Z) (c : Context) : Context := mkContext ra (ctx_sp c) (ctx_s c).
Definition ctx_write_sp (sp : Z) (c : Context) : Context := mkContext (ctx_ra c) sp (ctx_s c).

(** ** Harts *)

(** The process a hart runs is its place in the process table. *)
Record CPU := mkCPU {
  c_process : option nat;
  c_ctx : Context;
  noff : Z;
  intena : Z;
}.

Definition new_cpu : CPU := mkCPU None new_context 0 0.
Definition set_proc (p : option nat) (c : CPU) : CPU := mkCPU p (c_ctx c) (noff c) (intena c).

(** A hart: its structure and its [sstatus]. *)
Record hart := mkHart { h_cpu : CPU; h_sstatus : Z }.

Definition intr_enabled (h : hart) : bool := Sstatus.intr_get (h_sstatus h).

Definition push_off (h : hart) : outcome hart :=
  let old_enable := Sstatus.intr_get (h_sstatus h) in
  let x := Sstatus.intr_off (h_sstatus h) in
  let c := h_cpu h in
  let c := if noff c =? 0 then mkCPU (c_process c) (c_ctx c) (noff c) (if old_enable then 1 else 0) else c in
  n ← uadd (noff c) 1;
  Done (mkHart (mkCPU (c_process c) (c_ctx c) n (intena c)) x).

Definition pop_off (h : hart) : outcome hart :=
  if Sstatus.intr_get (h_sstatus h) then Panic "pop_off(): interruptable"
  else
    let c := h_cpu h in
    if noff c <? 1 then Panic "pop_off(): count not match"
    else
      n ← usub (noff c) 1;
      let c := mkCPU (c_process c) (c_ctx c) n (intena c) in
      let x := if (n =? 0) && negb (intena c =? 0) then Sstatus.intr_on (h_sstatus h) else h_sstatus h in
      Done (mkHart c x).

(** [CPUManager::myproc]. *)
Definition myproc (h : hart) : outcome (nat * hart) :=
  h ← push_off h;
  p ← unwrap "called `Option::unwrap()` on a `None` value" (c_process (h_cpu h));
  h ← pop_off h;
  Done (p, h).

(** ** Spinlocks *)

Record Spinlock := mkSpin { locked : bool; cpu_id : Z }.

Definition new_spinlock : Spinlock := mkSpin false (-1).

Definition holding (l : Spinlock) (id : Z) : bool := locked l && (cpu_id l =? id).

(** [acquire] by hart [id] when no other hart interferes: a lock held by
    another hart makes it spin. *)
Definition acquire (id : Z) (l : Spinlock) (h : hart) : outcome (Spinlock * hart) :=
  h ← push_off h;
  if holding l id then Panic "spinlock acquire"
  else if locked l then NoFuel
  else Done (mkSpin true id, h).

Definition release (id : Z) (l : Spinlock) (h : hart) : outcome (Spinlock * hart) :=
  if negb (holding l id) then Panic "spinlock release"
  else
    h ← pop_off h;
    Done (mkSpin false (-1), h).

(** [CPU::sched] up to the switch: the checks. *)
Definition sched_checks (id : Z) (l : Spinlock) (running : bool) (h : hart) : outcome unit :=
  if negb (holding l id) then Panic "sched: not holding proc's lock"
  else if negb (noff (h_cpu h) =? 1) then Panic "sched: cpu hold mutliple locks"
  else if running then Panic "sched: proc is running"
  else if Sstatus.intr_get (h_sstatus h) then Panic "sched: interruptible"
  else Done tt.

(** ** Nesting *)

Record hart_ok (h : hart) : Prop := {
  ho_reg : 0 ≤ h_sstatus h < 2 ^ 64;
  ho_noff : 0 ≤ noff (h_cpu h) < 2 ^ 63;
  ho_off : 0 < noff (h_cpu h) → intr_enabled h = false;
}.

Lemma intr_off_range x : 0 ≤ x < 2 ^ 64 → 0 ≤ Sstatus.intr_off x < 2 ^ 64.
Proof.
  intros Hx. unfold Sstatus.intr_off. apply land_lt_pow2; [lia|by vm_compute|lia].
Qed.

(** What [push_off] leaves. *)
Lemma push_off_ok h :
  hart_ok h →
  ∃ h', push_off h = Done h' ∧ 0 ≤ h_sstatus h' < 2 ^ 64 ∧ noff (h_cpu h') = noff (h_cpu h) + 1 ∧ intr_enabled h' = false ∧
    c_process (h_cpu h') = c_process (h_cpu h) ∧ c_ctx (h_cpu h') = c_ctx (h_cpu h) ∧
    (0 < noff (h_cpu h) → intena (h_cpu h') = intena (h_cpu h)) ∧
    (noff (h_cpu h) = 0 → intena (h_cpu h') = if intr_enabled h then 1 else 0) ∧
    h_sstatus h' = Sstatus.intr_off (h_sstatus h).
Proof.
  intros [Hr Hn Ho]. unfold push_off. destruct (Z.eqb_spec (noff (h_cpu h)) 0) as [H0|H0]; cbn [noff].
  - rewrite uadd_ok by lia. cbn. eexists. split; [done|]. cbn.
    split_and!; try done; try (by apply intr_off_range); try lia. unfold intr_enabled. apply intr_off_get.
  - rewrite uadd_ok by lia. cbn. eexists. split; [done|]. cbn.
    split_and!; try done; try (by apply intr_off_range); try lia. unfold intr_enabled. apply intr_off_get.
Qed.

(** [pop_off] undoes the [push_off] it matches. *)
Lemma pop_push h : hart_ok h → (h' ← push_off h; pop_off h') = Done (mkHart (mkCPU (c_process (h_cpu h)) (c_ctx (h_cpu h)) (noff (h_cpu h))
   (if noff (h_cpu h) =? 0 then (if intr_enabled h then 1 else 0) else intena (h_cpu h))) (h_sstatus h)).
Proof.
  intros Hok. destruct (push_off_ok h Hok) as (h' & -> & Hr' & Hn' & Hi' & Hp & Hx & Hie & Hi0 & Hs). cbn [mbind outcome_bind].
  destruct Hok as [Hr Hn Ho]. unfold pop_off. unfold intr_enabled in *. rewrite Hi'.
  destruct (Z.ltb_spec (noff (h_cpu h')) 1); [lia|]. rewrite usub_ok by lia. cbn. rewrite Hn', Hp, Hx.
  replace (noff (h_cpu h) + 1 - 1) with (noff (h_cpu h)) by lia. destruct (Z.eqb_spec (noff (h_cpu h)) 0) as [H0|H0]; cbn.
  - rewrite Hi0 by done. destruct (Sstatus.intr_get (h_sstatus h)) eqn:Eg; cbn; rewrite Hs.
    + by rewrite intr_off_on.
    + by rewrite intr_off_id.
  - rewrite Hie by lia. by rewrite Hs, intr_off_id by (done || (apply Ho; lia)).
Qed.

(** Code that disables interrupts in a nested way. *)
Inductive nest :=
| Skip
| Seq (a b : nest)
| Off (a : nest).

Fixpoint run_nest (a : nest) (h : hart) : outcome hart :=
  match a with
  | Skip => Done h
  | Seq a b => h ← run_nest a h; run_nest b h
  | Off a => h ← push_off h; h ← run_nest a h; pop_off h
  end.

Fixpoint depth (a : nest) : Z :=
  match a with
  | Skip => 0
  | Seq a b => depth a `max` depth b
  | Off a => 1 + depth a
  end.

Lemma depth_pos a : 0 ≤ depth a.
Proof. induction a; simpl; lia. Qed.

Lemma run_nest_ok a : ∀ h,
  hart_ok h → noff (h_cpu h) + depth a < 2 ^ 63 →
  ∃ h', run_nest a h = Done h' ∧ hart_ok h' ∧ h_sstatus h' = h_sstatus h ∧ noff (h_cpu h') = noff (h_cpu h) ∧
    c_process (h_cpu h') = c_process (h_cpu h) ∧ (0 < noff (h_cpu h) → intena (h_cpu h') = intena (h_cpu h)).
Proof.
  induction a as [|a IHa b IHb|a IHa]; intros h Hok Hd; cbn [run_nest].
  - exists h. by split_and!.
  - cbn [depth] in Hd. pose proof (depth_pos a). pose proof (depth_pos b).
    destruct (IHa h Hok) as (h1 & -> & Hok1 & Hs1 & Hn1 & Hp1 & Hi1); [lia|]. cbn [mbind outcome_bind].
    destruct (IHb h1 Hok1) as (h2 & -> & Hok2 & Hs2 & Hn2 & Hp2 & Hi2); [lia|].
    exists h2. split_and!; try done; try congruence. intros Hpos. rewrite Hi2 by lia. by apply Hi1.
  - cbn [depth] in Hd. pose proof (depth_pos a).
    pose proof (pop_push h Hok) as Hpp. destruct (push_off_ok h Hok) as (h1 & E1 & Hr1 & Hn1 & Hi1 & Hp1 & Hx1 & Hie1 & Hi01 & Hs1).
    rewrite E1 in Hpp |- *. cbn [mbind outcome_bind] in Hpp |- *. destruct Hok as [Hr Hn Ho].
    destruct (IHa h1) as (h2 & -> & Hok2 & Hs2 & Hn2 & Hp2 & Hi2); [split; [done|lia|done]|lia|]. cbn [mbind outcome_bind].
    unfold pop_off in Hpp |- *. rewrite Hs2, Hn2. unfold intr_enabled in Hi1. rewrite Hi1 in Hpp |- *.
    destruct (Z.ltb_spec (noff (h_cpu h1)) 1); [lia|]. rewrite usub_ok in Hpp |- * by lia. cbn in Hpp |- *.
    rewrite Hi2 by lia. injection Hpp as Hp3 Hx3 Hn3 Hi3 Hs3. rewrite Hs3, Hn3.
    eexists. split; [done|]. cbn. split_and!; try done; try congruence.
Qed.

(** interrupts are disabled and enabled in matched pairs: whatever
    properly nested pairs of [push_off] and [pop_off] a hart executes, none of
    them panics and [sstatus] and the nesting depth come back to what they
    were. *)
Theorem nested_off_balanced a h :
  hart_ok h → noff (h_cpu h) + depth a < 2 ^ 63 →
  ∃ h', run_nest a h = Done h' ∧ h_sstatus h' = h_sstatus h ∧ noff (h_cpu h') = noff (h_cpu h) ∧
    (0 < noff (h_cpu h) → intena (h_cpu h') = intena (h_cpu h)).
Proof.
  intros Hok Hd. destruct (run_nest_ok a h Hok Hd) as (h' & E & _ & Hs & Hn & _ & Hi). exists h'. by split_and!.
Qed.

Lemma nested_off_balanced_witness :
  ∃ h', run_nest (Off (Seq (Off Skip) (Off (Off Skip)))) (mkHart new_cpu 2) = Done h' ∧ h_sstatus h' = 2.
Proof.
  destruct (nested_off_balanced (Off (Seq (Off Skip) (Off (Off Skip)))) (mkHart new_cpu 2)) as (h' & E & Hs & _).
  - split; cbn; lia.
  - by vm_compute.
  - exists h'. split; [exact E|exact Hs].
Defined.
