(* ===== verification/SpinlockConc.v ===== *)
(** * Spinlocks on several harts

    [lock/spinlock.rs] as a transition system: every load and store of
    [acquire], [release] and [holding] is a step of its own, and the steps of
    the harts interleave in any order. *)

From Stdlib Require Import ZArith Lia.
From stdpp Require Import base gmap strings numbers list functions relations.
From S2P Require Import Prelude Registers Cpu.

Local Open Scope Z_scope.

(** Where a hart is. *)
Inductive pc :=
| Outside             (** not using the lock *)
| AcqCheck            (** [acquire] after [push_off]: about to load [locked] in [holding] *)
| AcqCheckCpu         (** [locked] was true: about to compare [cpu_id] *)
| Spinning            (** about to swap [locked] *)
| Swapped             (** the swap returned false: about to set [cpu_id] *)
| Critical            (** holds the guard *)
| RelCheck            (** [release]: about to load [locked] in [holding] *)
| RelCheckCpu         (** about to compare [cpu_id] *)
| RelClear            (** about to set [cpu_id] to -1 *)
| RelUnlock           (** about to store false to [locked] *)
| RelPop              (** about to call [pop_off] *)
| Panicked.

Global Instance pc_eq_dec : EqDecision pc.
Proof. solve_decision. Defined.

Record sys := mkSys {
  lk : Spinlock;
  pcs : Z → pc;
  harts : Z → hart;
}.

Definition goto (s : sys) (i : Z) (p : pc) : sys := mkSys (lk s) (<[i := p]> (pcs s)) (harts s).

(** One step of hart [i]. *)
Inductive step (i : Z) (s : sys) : sys → Prop :=
| step_push h :
    pcs s i = Outside → push_off (harts s i) = Done h →
    step i s (mkSys (lk s) (<[i := AcqCheck]> (pcs s)) (<[i := h]> (harts s)))
| step_check_free : pcs s i = AcqCheck → locked (lk s) = false → step i s (goto s i Spinning)
| step_check_locked : pcs s i = AcqCheck → locked (lk s) = true → step i s (goto s i AcqCheckCpu)
| step_check_other : pcs s i = AcqCheckCpu → cpu_id (lk s) ≠ i → step i s (goto s i Spinning)
| step_check_self : pcs s i = AcqCheckCpu → cpu_id (lk s) = i → step i s (goto s i Panicked)
| step_spin : pcs s i = Spinning → locked (lk s) = true → step i s s
| step_swap :
    pcs s i = Spinning → locked (lk s) = false →
    step i s (mkSys (mkSpin true (cpu_id (lk s))) (<[i := Swapped]> (pcs s)) (harts s))
| step_set_cpu :
    pcs s i = Swapped → step i s (mkSys (mkSpin (locked (lk s)) i) (<[i := Critical]> (pcs s)) (harts s))
| step_leave : pcs s i = Critical → step i s (goto s i RelCheck)
| step_rel_free : pcs s i = RelCheck → locked (lk s) = false → step i s (goto s i Panicked)
| step_rel_locked : pcs s i = RelCheck → locked (lk s) = true → step i s (goto s i RelCheckCpu)
| step_rel_other : pcs s i = RelCheckCpu → cpu_id (lk s) ≠ i → step i s (goto s i Panicked)
| step_rel_self : pcs s i = RelCheckCpu → cpu_id (lk s) = i → step i s (goto s i RelClear)
| step_clear :
    pcs s i = RelClear → step i s (mkSys (mkSpin (locked (lk s)) (-1)) (<[i := RelUnlock]> (pcs s)) (harts s))
| step_unlock :
    pcs s i = RelUnlock → step i s (mkSys (mkSpin false (cpu_id (lk s))) (<[i := RelPop]> (pcs s)) (harts s))
| step_pop h :
    pcs s i = RelPop → pop_off (harts s i) = Done h →
    step i s (mkSys (lk s) (<[i := Outside]> (pcs s)) (<[i := h]> (harts s)))
| step_push_panic e : pcs s i = Outside → push_off (harts s i) = Panic e → step i s (goto s i Panicked)
| step_pop_panic e : pcs s i = RelPop → pop_off (harts s i) = Panic e → step i s (goto s i Panicked).

(** Any hart moves; harts have non-negative numbers. *)
Definition any_step (s s' : sys) : Prop := ∃ i, 0 ≤ i ∧ step i s s'.

Definition initial (s : sys) : Prop :=
  lk s = new_spinlock ∧ (∀ i, pcs s i = Outside) ∧ (∀ i, hart_ok (harts s i) ∧ noff (h_cpu (harts s i)) = 0).

Definition reachable (s : sys) : Prop := ∃ s0, initial s0 ∧ rtc any_step s0 s.

(** ** The invariant *)

(** The hart owns the lock word, its number is in [cpu_id], it has disabled
    interrupts. *)
Definition owns (p : pc) : bool :=
  match p with Swapped | Critical | RelCheck | RelCheckCpu | RelClear | RelUnlock => true | _ => false end.
Definition named (p : pc) : bool :=
  match p with Critical | RelCheck | RelCheckCpu | RelClear => true | _ => false end.

Record inv (s : sys) : Prop := {
  inv_panic i : pcs s i ≠ Panicked;
  inv_owner : locked (lk s) = true → ∃ i, 0 ≤ i ∧ owns (pcs s i) = true;
  inv_locked i : owns (pcs s i) = true → locked (lk s) = true;
  inv_unique i j : owns (pcs s i) = true → owns (pcs s j) = true → i = j;
  inv_named i : 0 ≤ i → (cpu_id (lk s) = i ↔ named (pcs s i) = true);
  inv_hart i : hart_ok (harts s i) ∧ noff (h_cpu (harts s i)) = if decide (pcs s i = Outside) then 0 else 1;
}.

Lemma named_owns p : named p = true → owns p = true.
Proof. by destruct p. Qed.

Lemma inv_initial s : initial s → inv s.
Proof.
  intros (Hl & Hp & Hh). split.
  - intros i. by rewrite Hp.
  - by rewrite Hl.
  - intros i. by rewrite Hp.
  - intros i j. by rewrite Hp.
  - intros i Hi. rewrite Hl, Hp. cbn. split; [lia|done].
  - intros i. rewrite Hp, decide_True by done. apply Hh.
Qed.

(** A step that changes only where hart [i] is, with the same standing. *)
Lemma inv_goto s i p :
  inv s → p ≠ Panicked → owns p = owns (pcs s i) → named p = named (pcs s i) →
  (p = Outside ↔ pcs s i = Outside) → inv (goto s i p).
Proof.
  intros [H1 H2 H3 H4 H5 H6] Hp Ho Hn Hout.
  assert (∀ j, owns (<[i := p]> (pcs s) j) = owns (pcs s j)) as Eo
    by (intros j; destruct (decide (j = i)) as [->|]; [by rewrite fn_lookup_insert|by rewrite fn_lookup_insert_ne]).
  assert (∀ j, named (<[i := p]> (pcs s) j) = named (pcs s j)) as En
    by (intros j; destruct (decide (j = i)) as [->|]; [by rewrite fn_lookup_insert|by rewrite fn_lookup_insert_ne]).
  split; cbn.
  - intros j. destruct (decide (j = i)) as [->|]; [by rewrite fn_lookup_insert|rewrite fn_lookup_insert_ne by done; apply H1].
  - intros Hl. destruct (H2 Hl) as (j & Hj & Hoj). exists j. by rewrite Eo.
  - intros j. rewrite Eo. apply H3.
  - intros j k. rewrite !Eo. apply H4.
  - intros j Hj. rewrite En. by apply H5.
  - intros j. destruct (H6 j) as [Hh Hc]. split; [done|]. rewrite Hc. destruct (decide (j = i)) as [->|Hne].
    + rewrite fn_lookup_insert. by rewrite (decide_ext _ _ _ _ Hout).
    + by rewrite fn_lookup_insert_ne.
Qed.

Lemma hart_push h : hart_ok h → noff (h_cpu h) = 0 → ∃ h', push_off h = Done h' ∧ hart_ok h' ∧ noff (h_cpu h') = 1.
Proof.
  intros Hok H0. destruct (push_off_ok h Hok) as (h' & E & Hr & Hn & Hi & _). exists h'. split; [done|].
  split; [split; [done|lia|done]|lia].
Qed.

Lemma hart_pop h : hart_ok h → noff (h_cpu h) = 1 → ∃ h', pop_off h = Done h' ∧ hart_ok h' ∧ noff (h_cpu h') = 0.
Proof.
  intros [Hr Hn Ho] H1. unfold pop_off. unfold intr_enabled in Ho. rewrite Ho by lia.
  destruct (Z.ltb_spec (noff (h_cpu h)) 1); [lia|]. rewrite usub_ok by lia. cbn. eexists. split; [done|].
  split; [|cbn; lia]. split; cbn; [|lia|lia]. destruct (_ && _); [|done]. unfold Sstatus.intr_on.
  apply lor_lt_pow2; [lia|done|by vm_compute].
Qed.

(** A step that moves hart [i] to [p] and sets the lock to [l]; no other hart
    owns it. *)
Lemma inv_move s i p l :
  inv s → 0 ≤ i → (∀ j, j ≠ i → owns (pcs s j) = false) → p ≠ Panicked → p ≠ Outside → pcs s i ≠ Outside →
  locked l = owns p → (if named p then cpu_id l = i else cpu_id l < 0) →
  inv (mkSys l (<[i := p]> (pcs s)) (harts s)).
Proof.
  intros [H1 H2 H3 H4 H5 H6] Hi Hother Hp Hout Hout' Hl Hc. split; cbn.
  - intros j. destruct (decide (j = i)) as [->|]; [by rewrite fn_lookup_insert|rewrite fn_lookup_insert_ne by done; apply H1].
  - intros Hx. exists i. split; [done|]. rewrite fn_lookup_insert. congruence.
  - intros j. destruct (decide (j = i)) as [->|Hne]; [rewrite fn_lookup_insert; congruence|].
    rewrite fn_lookup_insert_ne, Hother by done. done.
  - assert (∀ j, owns (<[i := p]> (pcs s) j) = true → j = i) as Hu.
    { intros j Hj. destruct (decide (j = i)) as [|Hne]; [done|]. by rewrite fn_lookup_insert_ne, Hother in Hj. }
    intros j k ->%Hu ->%Hu. done.
  - intros j Hj. destruct (decide (j = i)) as [->|Hne].
    + rewrite fn_lookup_insert. destruct (named p); [done|]. split; [lia|done].
    + rewrite fn_lookup_insert_ne by done.
      assert (named (pcs s j) = false) as ->.
      { destruct (named (pcs s j)) eqn:E; [|done]. apply named_owns in E. by rewrite Hother in E. }
      split; [|done]. intros Hx. destruct (named p); [congruence|lia].
  - intros j. destruct (H6 j) as [Hh Hn]. split; [done|]. rewrite Hn. destruct (decide (j = i)) as [->|Hne].
    + rewrite fn_lookup_insert. by rewrite !decide_False.
    + by rewrite fn_lookup_insert_ne.
Qed.

(** Entering and leaving: only the hart's own state changes. *)
Lemma inv_hart_move s i p h :
  inv s → p ≠ Panicked → owns p = false → owns (pcs s i) = false → hart_ok h →
  noff (h_cpu h) = (if decide (p = Outside) then 0 else 1) →
  inv (mkSys (lk s) (<[i := p]> (pcs s)) (<[i := h]> (harts s))).
Proof.
  intros [H1 H2 H3 H4 H5 H6] Hp Ho Ho' Hh Hn.
  assert (∀ j, owns (<[i := p]> (pcs s) j) = owns (pcs s j)) as Eo
    by (intros j; destruct (decide (j = i)) as [->|]; [rewrite fn_lookup_insert; congruence|by rewrite fn_lookup_insert_ne]).
  assert (named p = named (pcs s i)) as En.
  { destruct (named p) eqn:E1; [apply named_owns in E1; congruence|].
    destruct (named (pcs s i)) eqn:E2; [apply named_owns in E2; congruence|done]. }
  split; cbn.
  - intros j. destruct (decide (j = i)) as [->|]; [by rewrite fn_lookup_insert|rewrite fn_lookup_insert_ne by done; apply H1].
  - intros Hl. destruct (H2 Hl) as (j & Hj & Hoj). exists j. by rewrite Eo.
  - intros j. rewrite Eo. apply H3.
  - intros j k. rewrite !Eo. apply H4.
  - intros j Hj. destruct (decide (j = i)) as [->|]; [rewrite fn_lookup_insert, En|rewrite fn_lookup_insert_ne by done]; by apply H5.
  - intros j. destruct (decide (j = i)) as [->|Hne]; [by rewrite !fn_lookup_insert|].
    rewrite !fn_lookup_insert_ne by done. apply H6.
Qed.

Lemma not_owned s i j : inv s → owns (pcs s i) = true → j ≠ i → owns (pcs s j) = false.
Proof. intros Hinv Hi Hne. destruct (owns (pcs s j)) eqn:E; [|done]. destruct Hne. by apply (inv_unique _ Hinv). Qed.

Lemma lock_free s j : inv s → locked (lk s) = false → owns (pcs s j) = false.
Proof. intros Hinv Hl. destruct (owns (pcs s j)) eqn:E; [|done]. apply (inv_locked _ Hinv) in E. congruence. Qed.

(** Nobody's number is in a lock that nobody has named. *)
Lemma cpu_id_none s : inv s → (∀ j, named (pcs s j) = false) → cpu_id (lk s) < 0.
Proof.
  intros Hinv Hno. destruct (Z.lt_ge_cases (cpu_id (lk s)) 0) as [|Hge]; [done|].
  destruct (inv_named _ Hinv _ Hge) as [Hx _]. specialize (Hx eq_refl). congruence.
Qed.

Lemma inv_step i s s' : 0 ≤ i → inv s → step i s s' → inv s'.
Proof.
  intros Hi Hinv Hst. pose proof (inv_hart _ Hinv i) as [Hok Hn].
  destruct Hst as [h Hp E|Hp Hl|Hp Hl|Hp Hc|Hp Hc|Hp Hl|Hp Hl|Hp|Hp|Hp Hl|Hp Hl|Hp Hc|Hp Hc|Hp|Hp|h Hp E|e Hp E|e Hp E].
  - rewrite Hp, decide_True in Hn by done. destruct (hart_push _ Hok Hn) as (h' & E' & Hok' & Hn').
    rewrite E in E'. injection E' as ->. by apply inv_hart_move; rewrite ?Hp.
  - apply inv_goto; rewrite ?Hp; done.
  - apply inv_goto; rewrite ?Hp; done.
  - apply inv_goto; rewrite ?Hp; done.
  - apply (inv_named _ Hinv i Hi) in Hc. by rewrite Hp in Hc.
  - done.
  - apply inv_move; rewrite ?Hp; try done; [intros j _; by apply lock_free|]. cbn. apply cpu_id_none; [done|].
    intros j. destruct (named (pcs s j)) eqn:En; [|done]. apply named_owns in En. by rewrite (lock_free s j Hinv Hl) in En.
  - assert (owns (pcs s i) = true) as Ho by (by rewrite Hp). apply inv_move; rewrite ?Hp; try done.
    + intros j. by apply not_owned.
    + cbn. by apply (inv_locked _ Hinv i).
  - apply inv_goto; rewrite ?Hp; done.
  - assert (owns (pcs s i) = true) as Ho by (by rewrite Hp). apply (inv_locked _ Hinv) in Ho. congruence.
  - apply inv_goto; rewrite ?Hp; done.
  - exfalso. apply Hc. apply (inv_named _ Hinv i Hi). by rewrite Hp.
  - apply inv_goto; rewrite ?Hp; done.
  - assert (owns (pcs s i) = true) as Ho by (by rewrite Hp). apply inv_move; rewrite ?Hp; try done.
    + intros j. by apply not_owned.
    + cbn. by apply (inv_locked _ Hinv i).
  - assert (owns (pcs s i) = true) as Ho by (by rewrite Hp). apply inv_move; rewrite ?Hp; try done.
    + intros j. by apply not_owned.
    + cbn. apply cpu_id_none; [done|]. intros j. destruct (decide (j = i)) as [->|Hne]; [by rewrite Hp|].
      destruct (named (pcs s j)) eqn:En; [|done]. apply named_owns in En. by rewrite (not_owned s i j Hinv Ho Hne) in En.
  - rewrite Hp, decide_False in Hn by done. destruct (hart_pop _ Hok Hn) as (h' & E' & Hok' & Hn').
    rewrite E in E'. injection E' as ->. by apply inv_hart_move; rewrite ?Hp.
  - rewrite Hp, decide_True in Hn by done. destruct (hart_push _ Hok Hn) as (h' & E' & _). congruence.
  - rewrite Hp, decide_False in Hn by done. destruct (hart_pop _ Hok Hn) as (h' & E' & _). congruence.
Qed.

Lemma inv_reachable s : reachable s → inv s.
Proof.
  intros (s0 & H0 & Hr). apply inv_initial in H0. induction Hr as [|s0 s1 s2 [i [Hi Hs]] _ IH]; [done|].
  apply IH. by apply (inv_step i s0).
Qed.

(** C15: in every interleaving of harts that acquire and release a spinlock, no
    check panics, at most one hart is in the critical section, and that hart
    has interrupts disabled. *)
Theorem spinlock_mutual_exclusion s :
  reachable s →
  (∀ i, pcs s i ≠ Panicked) ∧
  (∀ i j, pcs s i = Critical → pcs s j = Critical → i = j) ∧
  (∀ i, pcs s i = Critical → intr_enabled (harts s i) = false ∧ (0 ≤ i → holding (lk s) i = true)).
Proof.
  intros Hinv%inv_reachable. split; [apply (inv_panic _ Hinv)|]. split.
  - intros i j Hi Hj. apply (inv_unique _ Hinv); [by rewrite Hi|by rewrite Hj].
  - intros i Hi. destruct (inv_hart _ Hinv i) as [Hok Hn]. rewrite Hi, decide_False in Hn by done. split.
    + apply (ho_off _ Hok). lia.
    + intros Hge. unfold holding. rewrite (inv_locked _ Hinv i) by (by rewrite Hi).
      assert (cpu_id (lk s) = i) as -> by (apply (inv_named _ Hinv); [done|by rewrite Hi]). apply Z.eqb_refl.
Qed.

(** a hart that spins can always enter when the lock is free, and the lock
    word is taken only while some hart is on its way through the critical
    section. *)
Theorem spinlock_progress s i :
  reachable s → 0 ≤ i → pcs s i = Spinning →
  (locked (lk s) = false → ∃ s', step i s s' ∧ owns (pcs s' i) = true) ∧
  (locked (lk s) = true → ∃ j, 0 ≤ j ∧ j ≠ i ∧ owns (pcs s j) = true ∧ ∃ s', step j s s').
Proof.
  intros Hinv%inv_reachable Hi Hp. split.
  - intros Hl. eexists. split; [by apply step_swap|]. cbn. by rewrite fn_lookup_insert.
  - intros Hl. destruct (inv_owner _ Hinv Hl) as (j & Hj & Ho). exists j. split; [done|].
    split; [intros ->; by rewrite Hp in Ho|]. split; [done|].
    destruct (pcs s j) eqn:Ej; try done; eexists;
      [by apply step_set_cpu|by apply step_leave|by apply step_rel_locked| |by apply step_clear|by apply step_unlock].
    apply step_rel_self; [done|]. apply (inv_named _ Hinv j Hj). by rewrite Ej.
Qed.

Definition demo_sys : sys := mkSys new_spinlock (λ _, Outside) (λ _, mkHart new_cpu 2).

Lemma demo_initial : initial demo_sys.
Proof. split; [done|]. split; [done|]. intros i. split; [split; cbn; lia|done]. Defined.

(** Hart 0 on its way in, and inside. *)
Definition demo_off : hart := mkHart (mkCPU None new_context 1 1) 0.
Definition demo_spin : sys :=
  mkSys new_spinlock (<[0 := Spinning]> (<[0 := AcqCheck]> (λ _, Outside))) (<[0 := demo_off]> (λ _, mkHart new_cpu 2)).
Definition demo_crit : sys :=
  mkSys (mkSpin true 0) (<[0 := Critical]> (<[0 := Swapped]> (pcs demo_spin))) (harts demo_spin).

Lemma demo_spin_reachable : reachable demo_spin.
Proof.
  exists demo_sys. split; [apply demo_initial|].
  apply rtc_l with (mkSys new_spinlock (<[0 := AcqCheck]> (λ _, Outside)) (<[0 := demo_off]> (λ _, mkHart new_cpu 2))).
  - exists 0. split; [done|]. by apply (step_push 0 demo_sys demo_off).
  - apply rtc_once. exists 0. split; [done|]. by apply step_check_free.
Defined.

Lemma demo_crit_reachable : reachable demo_crit.
Proof.
  destruct demo_spin_reachable as (s0 & H0 & Hr). exists s0. split; [exact H0|]. etrans; [exact Hr|].
  apply rtc_l with (mkSys (mkSpin true (-1)) (<[0 := Swapped]> (pcs demo_spin)) (harts demo_spin)).
  - exists 0. split; [done|]. by apply (step_swap 0 demo_spin).
  - apply rtc_once. exists 0. split; [done|].
    exact (step_set_cpu 0 (mkSys (mkSpin true (-1)) (<[0 := Swapped]> (pcs demo_spin)) (harts demo_spin)) eq_refl).
Defined.

Lemma spinlock_mutual_exclusion_witness : pcs demo_crit 0 = Critical ∧ (∀ j, pcs demo_crit j = Critical → j = 0).
Proof.
  split; [done|]. intros j Hj. apply (spinlock_mutual_exclusion demo_crit demo_crit_reachable); done.
Defined.

Lemma spinlock_progress_witness : ∃ s', step 0 demo_spin s' ∧ owns (pcs s' 0) = true.
Proof. apply (spinlock_progress demo_spin 0 demo_spin_reachable); done. Defined.
