(* ===== verification/SleepConc.v ===== *)
(** * Sleep locks and wake-ups between processes

    [lock/sleeplock.rs] with [Process::sleep] and [ProcManager::wake_up] as a
    transition system: each acquisition and release of a spinlock and each
    access to [locked] and to a process's state is a step, and the steps of the
    processes interleave in any order. The spinlock inside the sleep lock and
    the one in each process ([meta]) are atomic here, which is what
    [SpinlockConc] shows of their implementation. *)

From Stdlib Require Import ZArith Lia.
From stdpp Require Import base gmap strings numbers list functions relations.
From S2P Require Import Prelude Address.

Local Open Scope Z_scope.

(** Where a process is. *)
Inductive pc :=
| Idle                (** does not use the lock *)
| LockAcq             (** [lock]: about to acquire the spinlock *)
| LockTest            (** about to load [locked] *)
| LockSet             (** [locked] was false: about to set it *)
| LockRel             (** about to drop the spinlock's guard *)
| Holding             (** holds the [SleepLockGuard] *)
| SleepMeta           (** [sleep]: about to acquire the process's [meta] *)
| SleepDrop           (** about to drop the spinlock's guard *)
| SleepSet            (** about to set the channel and [SLEEPING] *)
| SleepSched          (** about to switch to the scheduler, which drops [meta] *)
| Asleep              (** switched away *)
| UnlockAcq           (** [unlock]: about to acquire the spinlock *)
| UnlockSet           (** about to clear [locked] *)
| WakeAcq (k : Z)     (** [wake_up]: about to acquire the [meta] of process [k] *)
| WakeTest (k : Z)    (** about to examine process [k] and drop its [meta] *)
| UnlockRel.          (** about to drop the spinlock's guard *)

Global Instance pc_eq_dec : EqDecision pc.
Proof. solve_decision. Defined.

(** The owner of the spinlock, [locked], the owner of each [meta], whether each
    process is [SLEEPING] on this lock's channel, and where each process is. *)
Record sys := mkSys {
  spin : option Z;
  locked : bool;
  metas : Z → option Z;
  sleeping : Z → bool;
  pcs : Z → pc;
}.

Definition goto (s : sys) (p : Z) (c : pc) : sys :=
  mkSys (spin s) (locked s) (metas s) (sleeping s) (<[p := c]> (pcs s)).
Definition set_spin (s : sys) (o : option Z) : sys := mkSys o (locked s) (metas s) (sleeping s) (pcs s).
Definition set_locked (s : sys) (b : bool) : sys := mkSys (spin s) b (metas s) (sleeping s) (pcs s).
Definition set_meta (s : sys) (k : Z) (o : option Z) : sys :=
  mkSys (spin s) (locked s) (<[k := o]> (metas s)) (sleeping s) (pcs s).
Definition set_sleeping (s : sys) (k : Z) (b : bool) : sys :=
  mkSys (spin s) (locked s) (metas s) (<[k := b]> (sleeping s)) (pcs s).

(** [SleepLock::lock] and [unlock]. *)
Inductive lock_step (p : Z) (s : sys) : sys → Prop :=
| step_lock : pcs s p = Idle → lock_step p s (goto s p LockAcq)
| step_lock_acq : pcs s p = LockAcq → spin s = None → lock_step p s (goto (set_spin s (Some p)) p LockTest)
| step_lock_busy : pcs s p = LockTest → locked s = true → lock_step p s (goto s p SleepMeta)
| step_lock_free : pcs s p = LockTest → locked s = false → lock_step p s (goto s p LockSet)
| step_lock_set : pcs s p = LockSet → lock_step p s (goto (set_locked s true) p LockRel)
| step_lock_rel : pcs s p = LockRel → lock_step p s (goto (set_spin s None) p Holding)
| step_unlock : pcs s p = Holding → lock_step p s (goto s p UnlockAcq)
| step_unlock_acq : pcs s p = UnlockAcq → spin s = None → lock_step p s (goto (set_spin s (Some p)) p UnlockSet)
| step_unlock_set : pcs s p = UnlockSet → lock_step p s (goto (set_locked s false) p (WakeAcq 0))
| step_unlock_rel : pcs s p = UnlockRel → lock_step p s (goto (set_spin s None) p Idle).

(** [Process::sleep], which the loop of [lock] calls; a process that is not
    sleeping any more is resumed by the scheduler. *)
Inductive sleep_step (p : Z) (s : sys) : sys → Prop :=
| step_sleep_meta :
    pcs s p = SleepMeta → metas s p = None → sleep_step p s (goto (set_meta s p (Some p)) p SleepDrop)
| step_sleep_drop : pcs s p = SleepDrop → sleep_step p s (goto (set_spin s None) p SleepSet)
| step_sleep_set : pcs s p = SleepSet → sleep_step p s (goto (set_sleeping s p true) p SleepSched)
| step_sleep_sched : pcs s p = SleepSched → sleep_step p s (goto (set_meta s p None) p Asleep)
| step_resume :
    pcs s p = Asleep → sleeping s p = false → metas s p = None → sleep_step p s (goto s p LockAcq).

(** [ProcManager::wake_up], which [unlock] calls; whether the process it examines
    sleeps on the channel or not, it does not after. *)
Inductive wake_step (p : Z) (s : sys) : sys → Prop :=
| step_wake_acq k :
    pcs s p = WakeAcq k → k < NPROC → metas s k = None → wake_step p s (goto (set_meta s k (Some p)) p (WakeTest k))
| step_wake_test k :
    pcs s p = WakeTest k →
    wake_step p s (goto (set_meta (set_sleeping s k false) k None) p (WakeAcq (k + 1)))
| step_wake_end k : pcs s p = WakeAcq k → NPROC ≤ k → wake_step p s (goto s p UnlockRel).

(** One step of process [p]. *)
Definition step (p : Z) (s s' : sys) : Prop := lock_step p s s' ∨ sleep_step p s s' ∨ wake_step p s s'.

(** [kill] ends the sleep of a process whatever its channel.  It examines the
    state and changes it in two critical sections, so the process may be awake
    already when the second comes; of what [kill] does to such a process only
    the effect on its sleep is here. *)
Definition kill_step (k : Z) (s s' : sys) : Prop := metas s k = None ∧ s' = set_sleeping s k false.

Definition any_step (s s' : sys) : Prop := ∃ p, 0 ≤ p < NPROC ∧ (step p s s' ∨ kill_step p s s').

Definition initial (s : sys) : Prop :=
  spin s = None ∧ locked s = false ∧ (∀ p, metas s p = None) ∧ (∀ p, sleeping s p = false) ∧
  ∀ p, pcs s p = Idle.

Definition reachable (s : sys) : Prop := ∃ s0, initial s0 ∧ rtc any_step s0 s.

(** ** The invariant *)

(** The process has the spinlock; it has the [meta] of [k]; it has the sleep
    lock. *)
Definition has_spin (c : pc) : bool :=
  match c with
  | LockTest | LockSet | LockRel | SleepMeta | SleepDrop | UnlockSet | WakeAcq _ | WakeTest _ | UnlockRel => true
  | _ => false
  end.
Definition has_meta (p : Z) (c : pc) (k : Z) : bool :=
  match c with SleepDrop | SleepSet | SleepSched => p =? k | WakeTest j => j =? k | _ => false end.
Definition has_lock (c : pc) : bool :=
  match c with LockRel | Holding | UnlockAcq | UnlockSet => true | _ => false end.

(** The process is past the point where it relies on a wake-up, and a process
    that will still reach [k] in [wake_up]. *)
Definition committed (s : sys) (p : Z) : bool :=
  match pcs s p with SleepSet | SleepSched => true | Asleep => sleeping s p | _ => false end.
Definition will_wake (c : pc) (k : Z) : bool :=
  match c with WakeAcq j | WakeTest j => j <=? k | _ => false end.

Record inv (s : sys) : Prop := {
  inv_spin p : spin s = Some p ↔ has_spin (pcs s p) = true;
  inv_meta k p : metas s k = Some p ↔ has_meta p (pcs s p) k = true;
  inv_owner : locked s = true → ∃ p, 0 ≤ p < NPROC ∧ has_lock (pcs s p) = true;
  inv_locked p : has_lock (pcs s p) = true → locked s = true;
  inv_unique p q : has_lock (pcs s p) = true → has_lock (pcs s q) = true → p = q;
  inv_free p : pcs s p = LockSet → locked s = false;
  inv_busy p : pcs s p = SleepMeta ∨ pcs s p = SleepDrop → locked s = true;
  inv_wake p : committed s p = true → locked s = true ∨ ∃ q, will_wake (pcs s q) p = true;
  inv_range p : pcs s p ≠ Idle → 0 ≤ p < NPROC;
  inv_index p k : pcs s p = WakeAcq k ∨ pcs s p = WakeTest k → 0 ≤ k;
}.

Lemma sleep_inv_initial s : initial s → inv s.
Proof.
  intros (H1 & H2 & H3 & H4 & H5).
  split; intros; unfold committed in *; rewrite ?H1, ?H2, ?H3, ?H4, ?H5 in *; naive_solver.
Qed.

(** Case analysis on a step, a step that is possible, and case analysis on
    which process moved. *)
Ltac step_cases Hst := destruct Hst as [Hst|[Hst|Hst]]; destruct Hst.
Ltac take_step := first [left; by constructor|right; left; by constructor|right; right; by econstructor].
Ltac by_mover :=
  unfold goto, set_spin, set_locked, set_meta, set_sleeping, committed, insert, fn_insert in *; cbn [pcs spin locked metas sleeping] in *;
  repeat case_decide; subst.

Lemma step_spin_ok p s s' : inv s → step p s s' → ∀ q, spin s' = Some q ↔ has_spin (pcs s' q) = true.
Proof.
  intros Hinv Hst q. pose proof (inv_spin _ Hinv p) as Hp. pose proof (inv_spin _ Hinv q) as Hq.
  step_cases Hst; by_mover; rewrite ?H in *; cbn in *; try congruence; intuition congruence.
Qed.

Lemma step_meta_ok p s s' : inv s → step p s s' → ∀ k q, metas s' k = Some q ↔ has_meta q (pcs s' q) k = true.
Proof.
  intros Hinv Hst k q. pose proof (inv_meta _ Hinv k p) as Hp. pose proof (inv_meta _ Hinv k q) as Hq.
  step_cases Hst; by_mover; rewrite ?H in *; cbn in *; rewrite ?Z.eqb_eq, ?Z.eqb_refl in *; naive_solver.
Qed.

Lemma spin_unique s p q : inv s → has_spin (pcs s p) = true → has_spin (pcs s q) = true → p = q.
Proof. intros Hinv Hp%(inv_spin _ Hinv) Hq%(inv_spin _ Hinv). congruence. Qed.

Lemma step_locked_ok p s s' : inv s → step p s s' → ∀ q, has_lock (pcs s' q) = true → locked s' = true.
Proof.
  intros Hinv Hst q. pose proof (inv_locked _ Hinv p) as Hp. pose proof (inv_locked _ Hinv q) as Hq.
  pose proof (inv_unique _ Hinv p q) as Hu.
  step_cases Hst; by_mover; rewrite ?H in *; cbn in *; try congruence; intuition congruence.
Qed.

Lemma step_unique_ok p s s' : inv s → step p s s' →
  ∀ q r, has_lock (pcs s' q) = true → has_lock (pcs s' r) = true → q = r.
Proof.
  intros Hinv Hst q r. pose proof (inv_free _ Hinv p) as Hf.
  pose proof (inv_locked _ Hinv q) as Hq. pose proof (inv_locked _ Hinv r) as Hr.
  pose proof (inv_unique _ Hinv q r) as Hqr. pose proof (inv_unique _ Hinv p q) as Hpq.
  pose proof (inv_unique _ Hinv p r) as Hpr.
  step_cases Hst; by_mover; rewrite ?H in *; cbn in *; try congruence; intuition congruence.
Qed.

Lemma step_test_ok p s s' : inv s → step p s s' →
  ∀ q, (pcs s' q = LockSet → locked s' = false) ∧ (pcs s' q = SleepMeta ∨ pcs s' q = SleepDrop → locked s' = true).
Proof.
  intros Hinv Hst q. pose proof (inv_free _ Hinv q) as Hf. pose proof (inv_busy _ Hinv q) as Hb.
  pose proof (inv_busy _ Hinv p) as Hbp. pose proof (spin_unique s p q Hinv) as Hu.
  step_cases Hst; by_mover; rewrite ?H in *; cbn in *; try (intuition congruence).
  all: split; [intros Eq|intros [Eq|Eq]]; rewrite Eq in *; naive_solver.
Qed.

Lemma step_range_ok p s s' : inv s → 0 ≤ p < NPROC → step p s s' →
  ∀ q, (pcs s' q ≠ Idle → 0 ≤ q < NPROC) ∧ ∀ k, pcs s' q = WakeAcq k ∨ pcs s' q = WakeTest k → 0 ≤ k.
Proof.
  intros Hinv Hr Hst q. pose proof (inv_range _ Hinv q) as Hq. pose proof (inv_index _ Hinv q) as Hi.
  step_cases Hst; by_mover; try naive_solver lia.
  split; [done|]. intros j [[= <-]|?]; [|done]. specialize (Hi k (or_intror H)). lia.
Qed.

Lemma step_owner_ok p s s' : inv s → 0 ≤ p < NPROC → step p s s' →
  locked s' = true → ∃ q, 0 ≤ q < NPROC ∧ has_lock (pcs s' q) = true.
Proof.
  intros Hinv Hr Hst. pose proof (inv_owner _ Hinv) as Ho.
  step_cases Hst; cbn [goto set_spin set_locked set_meta set_sleeping locked pcs] in *; intros Hl; try done.
  all: try (destruct (Ho Hl) as (q & Hq & Hh); exists (if decide (q = p) then p else q); split; [by case_decide|];
    by_mover; rewrite ?H in *; naive_solver).
  all: exists p; split; [done|]; by rewrite fn_lookup_insert.
Qed.

(** What a committed process relies on survives a step that does not clear
    [locked] and does not take a waker past it. *)
Lemma wake_keep s s' q :
  inv s → (locked s = true → locked s' = true) → (committed s' q = true → committed s q = true) →
  (∀ r, will_wake (pcs s r) q = true → will_wake (pcs s' r) q = true) →
  committed s' q = true → locked s' = true ∨ ∃ r, will_wake (pcs s' r) q = true.
Proof. intros Hinv Hl Hc Hw Hq%Hc%(inv_wake _ Hinv). naive_solver. Qed.

(** A waker at [q] has [q]'s [meta], so [q] is not on its way to sleep. *)
Lemma wake_test_awake s p q :
  inv s → pcs s p = WakeTest q → ∀ s', committed (goto (set_meta (set_sleeping s q false) q s') p (WakeAcq (q + 1))) q = false.
Proof.
  intros Hinv Hp s'. assert (metas s q = Some p) as Em by (apply (inv_meta _ Hinv); rewrite Hp; apply Z.eqb_refl).
  pose proof (inv_meta _ Hinv q q) as Hq. by_mover; try done.
  destruct (pcs s q) eqn:Ec; try done; cbn in Hq; rewrite Z.eqb_refl in Hq; pose proof (proj2 Hq eq_refl); congruence.
Qed.

Lemma step_wake_ok p s s' : inv s → step p s s' →
  ∀ q, 0 ≤ q < NPROC → committed s' q = true → locked s' = true ∨ ∃ r, will_wake (pcs s' r) q = true.
Proof.
  intros Hinv Hst q Hq. step_cases Hst.
  17: { destruct (decide (q = k)) as [->|Hne]; [by rewrite (wake_test_awake s p k Hinv H)|].
        apply (wake_keep s); [done..| |]; [by_mover; by rewrite ?H|].
        intros r. cbn. unfold insert, fn_insert. case_decide; subst; [|done]. rewrite H. cbn. zify_bool. lia. }
  12: { destruct (decide (q = p)) as [->|Hne]; [intros _; left; apply (inv_busy _ Hinv p); by right|].
        apply (wake_keep s); [done..| |]; by_mover; try done; intros r; case_decide; subst; by rewrite ?H. }
  9: { intros _. right. exists p. cbn. rewrite fn_lookup_insert. apply Z.leb_le. lia. }
  all: apply (wake_keep s); [done|by cbn| |]; [by_mover; rewrite ?H; done|].
  all: intros r; cbn; unfold insert, fn_insert; case_decide; subst; [|done]; rewrite H; cbn; try done.
  intros ?%Z.leb_le. lia.
Qed.

Lemma committed_range s p : inv s → committed s p = true → 0 ≤ p < NPROC.
Proof. intros Hinv Hc. apply (inv_range _ Hinv). unfold committed in Hc. by destruct (pcs s p). Qed.

Lemma sleep_inv_step p s s' : 0 ≤ p < NPROC → inv s → step p s s' → inv s'.
Proof.
  intros Hr Hinv Hst. split.
  - by apply (step_spin_ok p s).
  - by apply (step_meta_ok p s).
  - by apply (step_owner_ok p s).
  - by apply (step_locked_ok p s).
  - by apply (step_unique_ok p s).
  - intros q. by apply (step_test_ok p s).
  - intros q. by apply (step_test_ok p s).
  - intros q Hc. apply (step_wake_ok p s); try done.
    apply (step_range_ok p s s' Hinv Hr Hst). unfold committed in Hc. by destruct (pcs s' q).
  - intros q. by apply (step_range_ok p s).
  - intros q. by apply (step_range_ok p s).
Qed.

Lemma inv_kill p s s' : inv s → kill_step p s s' → inv s'.
Proof.
  intros [H1 H2 H3 H4 H5 H6 H7 H8 H9 H10] [Hm ->]. split; try done.
  intros q. specialize (H8 q). by_mover; [|done]. by destruct (pcs s q).
Qed.

Lemma sleep_inv_reachable s : reachable s → inv s.
Proof.
  intros (s0 & H0 & Hr). apply sleep_inv_initial in H0. induction Hr as [|s0 s1 s2 (p & Hp & [Hs|Hs]) _ IH]; [done|..].
  - apply IH. by apply (sleep_inv_step p s0).
  - apply IH. by apply (inv_kill p s0).
Qed.

(** ** What the lock gives its users *)

(** C30: in every interleaving of processes that lock and unlock a sleep lock,
    at most one holds its guard, and [locked] is set while one does. *)
Theorem sleeplock_mutual_exclusion s :
  reachable s →
  (∀ p q, pcs s p = Holding → pcs s q = Holding → p = q) ∧ (∀ p, pcs s p = Holding → locked s = true).
Proof.
  intros Hinv%sleep_inv_reachable. split.
  - intros p q Hp Hq. apply (inv_unique _ Hinv); [by rewrite Hp|by rewrite Hq].
  - intros p Hp. apply (inv_locked _ Hinv p). by rewrite Hp.
Qed.

(** C11: no wake-up is lost. A process that sleeps on a sleep lock sleeps only
    while the lock is held or while an [unlock] has yet to examine it in
    [wake_up]: once the lock is free and no [unlock] is under way, nobody
    sleeps on it. *)
Theorem sleeplock_no_lost_wakeup s p :
  reachable s → pcs s p = Asleep → sleeping s p = true →
  (∃ q, 0 ≤ q < NPROC ∧ has_lock (pcs s q) = true) ∨ (∃ q k, (pcs s q = WakeAcq k ∨ pcs s q = WakeTest k) ∧ k ≤ p).
Proof.
  intros Hinv%sleep_inv_reachable Hp Hs. assert (committed s p = true) as Hc by (unfold committed; by rewrite Hp).
  destruct (inv_wake _ Hinv p Hc) as [Hl|[q Hq]]; [left; by apply (inv_owner _ Hinv)|right].
  exists q. destruct (pcs s q) as [ | | | | | | | | | | | | |k|k| ]; try done; exists k; (split; [tauto|by apply Z.leb_le]).
Qed.

(** The process that has the spinlock can move, or the one it waits for can. *)
Lemma spin_holder_moves s p : inv s → has_spin (pcs s p) = true → ∃ q s', pcs s q ≠ Idle ∧ step q s s'.
Proof.
  intros Hinv Hp. destruct (pcs s p) as [ | | | | | | | | | | | | |k|k| ] eqn:Ec; try done.
  all: try (exists p; eexists; split; [congruence|take_step]).
  - destruct (locked s) eqn:El; exists p; eexists; (split; [congruence|take_step]).
  - exists p. destruct (metas s p) as [q|] eqn:Em; [|eexists; split; [congruence|take_step]].
    apply (inv_meta _ Hinv) in Em. assert (q = p) as ->; [|by rewrite Ec in Em].
    destruct (has_spin (pcs s q)) eqn:Eq; [apply (spin_unique s q p Hinv Eq); by rewrite Ec|].
    destruct (pcs s q); try done; cbn in Em; by apply Z.eqb_eq in Em.
  - destruct (Z.lt_ge_cases k NPROC) as [Hk|Hk]; [|exists p; eexists; split; [congruence|take_step]].
    destruct (metas s k) as [q|] eqn:Em; [|exists p; eexists; split; [congruence|take_step]].
    exists q. apply (inv_meta _ Hinv) in Em. destruct (pcs s q) eqn:Eq; try done; try by (eexists; split; [|take_step]).
Qed.

(** With the spinlock free, a process that is asleep or awaits the lock can
    move, or the lock's holder can. *)
Lemma spin_free_moves s p : inv s → spin s = None → pcs s p ≠ Idle → ∃ q s', pcs s q ≠ Idle ∧ step q s s'.
Proof.
  intros Hinv Hn Hp.
  assert (∀ q, has_spin (pcs s q) = false) as Hns.
  { intros q. destruct (has_spin (pcs s q)) eqn:Eq; [|done]. apply (inv_spin _ Hinv) in Eq. congruence. }
  specialize (Hns p) as Hnp. destruct (pcs s p) eqn:Ec; try done.
  all: try (exists p; eexists; split; [congruence|take_step]).
  destruct (sleeping s p) eqn:Es.
  - assert (committed s p = true) as Hc by (unfold committed; by rewrite Ec).
    destruct (inv_wake _ Hinv p Hc) as [Hl|[q Hq]].
    + destruct (inv_owner _ Hinv Hl) as (q & _ & Hq). specialize (Hns q). exists q.
      destruct (pcs s q) eqn:Eq; try done; eexists; (split; [done|take_step]).
    + specialize (Hns q). by destruct (pcs s q).
  - exists p. destruct (metas s p) as [q|] eqn:Em; [|eexists; split; [congruence|take_step]].
    apply (inv_meta _ Hinv) in Em. specialize (Hns q).
    destruct (pcs s q) eqn:Eq; try done; cbn in Em; apply Z.eqb_eq in Em; congruence.
Qed.

(** C31: the sleep lock does not deadlock. In every reachable state in which
    some process uses the lock, a process that uses it can take a step. *)
Theorem sleeplock_progress s p :
  reachable s → pcs s p ≠ Idle → ∃ q s', pcs s q ≠ Idle ∧ step q s s'.
Proof.
  intros Hinv%sleep_inv_reachable Hp. destruct (spin s) as [q|] eqn:Es.
  - apply (spin_holder_moves s q Hinv). by apply (inv_spin _ Hinv).
  - by apply (spin_free_moves s p).
Qed.

(** ** One process holds the lock and another sleeps on it *)

Definition demo_start : sys := mkSys None false (λ _, None) (λ _, false) (λ _, Idle).

Lemma demo_start_initial : initial demo_start.
Proof. done. Qed.

Ltac demo_step p := eapply rtc_l; [exists p; split; [done|left; take_step]|].

Lemma demo_contended : ∃ s, reachable s ∧ pcs s 0 = Holding ∧ pcs s 1 = Asleep ∧ sleeping s 1 = true.
Proof.
  eexists. split.
  - exists demo_start. split; [exact demo_start_initial|].
    do 5 demo_step 0. do 7 demo_step 1. apply rtc_refl.
  - done.
Qed.

Lemma sleeplock_mutual_exclusion_witness :
  ∃ s, pcs s 0 = Holding ∧ pcs s 1 = Asleep ∧ locked s = true ∧ (∀ p, pcs s p = Holding → p = 0).
Proof.
  destruct demo_contended as (s & Hr & H0 & H1 & _). exists s. split; [exact H0|]. split; [exact H1|].
  destruct (sleeplock_mutual_exclusion s Hr) as [Hu Hl]. split; [exact (Hl 0 H0)|]. intros p Hp. exact (Hu p 0 Hp H0).
Defined.

Lemma sleeplock_no_lost_wakeup_witness :
  ∃ s, pcs s 1 = Asleep ∧ sleeping s 1 = true ∧
    ((∃ q, 0 ≤ q < NPROC ∧ has_lock (pcs s q) = true) ∨ (∃ q k, (pcs s q = WakeAcq k ∨ pcs s q = WakeTest k) ∧ k ≤ 1)).
Proof.
  destruct demo_contended as (s & Hr & _ & H1 & Hs). exists s. split; [exact H1|]. split; [exact Hs|].
  exact (sleeplock_no_lost_wakeup s 1 Hr H1 Hs).
Defined.

Lemma sleeplock_progress_witness : ∃ s, pcs s 1 = Asleep ∧ ∃ q s', pcs s q ≠ Idle ∧ step q s s'.
Proof.
  destruct demo_contended as (s & Hr & _ & H1 & _). exists s. split; [exact H1|].
  apply (sleeplock_progress s 1 Hr). rewrite H1. discriminate.
Defined.
