(* ===== verification/Proc.v ===== *)
(** * Processes

    Models [process/process.rs], [process/trapframe.rs] and the table of
    [process/manager.rs].  A process is referred to by its place in the table;
    [proc_addr] gives its address, which serves as a sleep channel.  The
    spinlock of a process makes each access to its state atomic.  [fork_ret],
    [trampoline] and [user_trap] are linker symbols. *)

From Stdlib Require Import ZArith Lia.
From stdpp Require Import base gmap strings numbers list.
From S2P Require Import Prelude Address Pte PhysMem PageTable KernelMap Bytes Bio DiskLayout Log Bitmap Inode Cpu.

Local Open Scope Z_scope.

Inductive ProcState := UNUSED | USED | SLEEPING | RUNNABLE | RUNNING | ZOMBIE | ALLOCATED.

Global Instance ProcState_eq_dec : EqDecision ProcState.
Proof. solve_decision. Defined.

Record ProcMeta := mkPMeta {
  p_state : ProcState;
  p_channel : Z;
  p_killed : bool;
  p_xstate : Z;
  p_pid : Z;
}.

Definition new_pmeta : ProcMeta := mkPMeta UNUSED 0 false 0 0.
Definition set_state (st : ProcState) (x : ProcMeta) : ProcMeta :=
  mkPMeta st (p_channel x) (p_killed x) (p_xstate x) (p_pid x).
Definition set_channel (c : Z) (x : ProcMeta) : ProcMeta :=
  mkPMeta (p_state x) c (p_killed x) (p_xstate x) (p_pid x).
(** [Process::set_killed] and [modify_kill]. *)
Definition set_killed (k : bool) (x : ProcMeta) : ProcMeta :=
  mkPMeta (p_state x) (p_channel x) k (p_xstate x) (p_pid x).

(** An open file is referred to by the number of its [Arc]. *)
Record ProcData := mkPData {
  kstack : Z;
  p_size : Z;
  p_pagetable : option Z;
  p_trapframe : Z;
  p_context : Context;
  p_name : list Z;
  p_parent : option nat;
  open_files : list (option Z);
  p_cwd : option Inode;
}.

Definition new_pdata : ProcData :=
  mkPData 0 0 None 0 new_context (replicate 16 0) None (replicate (Z.to_nat NFILE) None) None.

Record Process := mkProc { meta : ProcMeta; pdata : ProcData }.
Definition new_process : Process := mkProc new_pmeta new_pdata.

Definition with_meta (p : Process) (x : ProcMeta) : Process := mkProc x (pdata p).
Definition with_pdata (p : Process) (x : ProcData) : Process := mkProc (meta p) x.
Definition upd_meta (f : ProcMeta → ProcMeta) (p : Process) : Process := mkProc (f (meta p)) (pdata p).

Definition set_pagetable (pt : option Z) (x : ProcData) : ProcData :=
  mkPData (kstack x) (p_size x) pt (p_trapframe x) (p_context x) (p_name x) (p_parent x) (open_files x) (p_cwd x).
Definition set_trapframe (tf : Z) (x : ProcData) : ProcData :=
  mkPData (kstack x) (p_size x) (p_pagetable x) tf (p_context x) (p_name x) (p_parent x) (open_files x) (p_cwd x).
Definition set_parent (p : option nat) (x : ProcData) : ProcData :=
  mkPData (kstack x) (p_size x) (p_pagetable x) (p_trapframe x) (p_context x) (p_name x) p (open_files x) (p_cwd x).
Definition set_psize (n : Z) (x : ProcData) : ProcData :=
  mkPData (kstack x) n (p_pagetable x) (p_trapframe x) (p_context x) (p_name x) (p_parent x) (open_files x) (p_cwd x).
Definition set_context (c : Context) (x : ProcData) : ProcData :=
  mkPData (kstack x) (p_size x) (p_pagetable x) (p_trapframe x) c (p_name x) (p_parent x) (open_files x) (p_cwd x).
Definition set_files (fs : list (option Z)) (x : ProcData) : ProcData :=
  mkPData (kstack x) (p_size x) (p_pagetable x) (p_trapframe x) (p_context x) (p_name x) (p_parent x) fs (p_cwd x).
Definition set_cwd (c : option Inode) (x : ProcData) : ProcData :=
  mkPData (kstack x) (p_size x) (p_pagetable x) (p_trapframe x) (p_context x) (p_name x) (p_parent x) (open_files x) c.
(** [set_name]: a name longer than the array writes beyond it. *)
Definition set_name (name : list Z) (x : ProcData) : outcome ProcData :=
  if 16 <? Z.of_nat (length name) then UB "copy beyond the name of the process"
  else Done (mkPData (kstack x) (p_size x) (p_pagetable x) (p_trapframe x) (p_context x)
               (put_bytes (p_name x) 0 name) (p_parent x) (open_files x) (p_cwd x)).

(** [init_context]. *)
Definition init_context (fork_ret : Z) (x : ProcData) : outcome ProcData :=
  sp ← uadd (kstack x) PGSIZE;
  Done (set_context (ctx_write_sp sp (ctx_write_ra fork_ret (ctx_write_zero (p_context x)))) x).

Definition find_unallocated_fd (x : ProcData) : result Z :=
  match list_find (λ f, f = None) (open_files x) with
  | Some (fd, _) => Ok (Z.of_nat fd)
  | None => Err "Fail to find unallocted fd"
  end.

(** ** The trapframe: words at fixed offsets of its page *)

Module Tf.
Definition kernel_satp : Z := 0.
Definition kernel_sp : Z := 8.
Definition kernel_trap : Z := 16.
Definition epc : Z := 24.
Definition kernel_hartid : Z := 32.
Definition sp : Z := 48.
Definition a0 : Z := 112.
Definition a1 : Z := 120.
Definition a7 : Z := 168.
Definition TRAPFRAME_SIZE : Z := 288.

Definition get (m : mem) (tf field : Z) : Z := read_word m (tf + field).
Definition put (m : mem) (tf field v : Z) : mem := write_word m (tf + field) v.

(** [update_epc]. *)
Definition update_epc (m : mem) (tf : Z) : outcome mem :=
  v ← uadd (get m tf epc) 4;
  Done (put m tf epc v).
End Tf.

(** [ProcData::user_init]: what [uservec] needs on the next trap. *)
Definition user_init (satp user_trap cpuid : Z) (x : ProcData) (m : mem) : outcome mem :=
  let tf := p_trapframe x in
  let m := Tf.put m tf Tf.kernel_satp satp in
  sp ← uadd (kstack x) (PGSIZE * 4);
  let m := Tf.put m tf Tf.kernel_sp sp in
  let m := Tf.put m tf Tf.kernel_trap user_trap in
  Done (Tf.put m tf Tf.kernel_hartid cpuid).

(** [isize] as 64 bits. *)
Definition isize_of (v : Z) : Z := if v <? 2 ^ 63 then v else v - 2 ^ 64.

(** Giving a page back to the heap: the end of a [Box<PageTable>]. *)
Class PageFree (H : Type) := free_page : Z → H → outcome H.

Section Memory.
Context {BFl : BitFlags} {H : Type} {PS : PageSource H} {PF : PageFree H}.

Definition drop_table (pt : Z) (s : pstate H) : outcome (pstate H) :=
  h ← free_page pt (pheap s);
  Done (mkP (pmem s) h).

(** [ProcData::proc_pagetable]: a failed map frees nothing and goes on. *)
Definition proc_pagetable (trampoline : Z) (x : ProcData) (s : pstate H) : outcome (ProcData * pstate H) :=
  '(pt, s) ← uvmcreate s;
  '(ok, s) ← map pt TRAMPOLINE trampoline PGSIZE (flags_or PTE_R PTE_X) s;
  m ← (if negb ok then uvm_free pt 0 (pmem s) else Done (pmem s));
  '(ok, s) ← map pt TRAPFRAME (p_trapframe x) PGSIZE (flags_or PTE_R PTE_W) (with_mem s m);
  m ← (if negb ok then uvm_free pt 0 (pmem s) else Done (pmem s));
  Done (set_pagetable (Some pt) x, with_mem s m).

(** [Process::proc_pagetable]. *)
Definition new_pagetable (trampoline : Z) (x : ProcData) (s : pstate H) : outcome (option Z * pstate H) :=
  '(pt, s) ← uvmcreate s;
  '(ok, s) ← map pt TRAMPOLINE trampoline PGSIZE (flags_or PTE_R PTE_X) s;
  if negb ok then
    m ← uvm_free pt 0 (pmem s);
    s ← drop_table pt (with_mem s m);
    Done (None, s)
  else
    '(ok, s) ← map pt TRAPFRAME (p_trapframe x) PGSIZE (flags_or PTE_R PTE_W) s;
    if negb ok then
      m ← uvm_unmap pt TRAPFRAME 1 false (pmem s);
      m ← uvm_free pt 0 m;
      s ← drop_table pt (with_mem s m);
      Done (None, s)
    else Done (Some pt, s).

(** [free_proc]. *)
Definition free_proc (p : Process) (s : pstate H) : outcome (Process * pstate H) :=
  let x := pdata p in
  if p_trapframe x =? 0 then Done (p, s)
  else
    let x := set_trapframe 0 x in
    s ← match p_pagetable x with
        | Some pt =>
            m ← proc_free_pagetable pt (p_size x) (pmem s);
            drop_table pt (with_mem s m)
        | None => Done s
        end;
    let x := set_psize 0 (set_parent None (set_pagetable None x)) in
    Done (mkProc (mkPMeta UNUSED 0 false 0 0) x, s).

(** [grow_proc]. *)
Definition grow_proc (count : Z) (p : Process) (s : pstate H) : outcome (result unit * Process * pstate H) :=
  let x := pdata p in
  let size := p_size x in
  pt ← unwrap unwrap_none (p_pagetable x);
  if 0 <? count then
    n ← uadd size count;
    '(r, s) ← uvm_alloc pt size n s;
    match r with
    | Some new_size => Done (Ok tt, with_pdata p (set_psize new_size x), s)
    | None => Done (Err "Fail to allocate virtual memory for user", p, s)
    end
  else if count <? 0 then
    let signed := isize_of size + count in
    _ ← ensure ((- 2 ^ 63 <=? signed) && (signed <? 2 ^ 63)) "arithmetic overflow";
    let new_size := signed mod 2 ^ 64 in
    '(size, m) ← uvm_dealloc pt size new_size (pmem s);
    Done (Ok tt, with_pdata p (set_psize size x), with_mem s m)
  else Done (Ok tt, with_pdata p (set_psize size x), s).
End Memory.

(** ** The table *)

Record ProcManager := mkPm {
  procs : list Process;
  init_proc : option nat;
  last_pid : Z;
}.

Definition new_proc_manager : ProcManager := mkPm (replicate (Z.to_nat NPROC) new_process) None 0.

Definition with_procs (pm : ProcManager) (ps : list Process) : ProcManager := mkPm ps (init_proc pm) (last_pid pm).
Definition upd_proc (i : nat) (f : Process → Process) (pm : ProcManager) : ProcManager :=
  with_procs pm (alter f i (procs pm)).
Definition get_proc (i : nat) (pm : ProcManager) : outcome Process :=
  unwrap "index out of bounds" (procs pm !! i).

Definition alloc_pid (pm : ProcManager) : outcome (Z * ProcManager) :=
  pid ← uadd (last_pid pm) 1;
  Done (pid, mkPm (procs pm) (init_proc pm) pid).

(** [ProcManager::init]. *)
Definition pm_init (pm : ProcManager) : outcome ProcManager :=
  for_range 0 (Z.of_nat (length (procs pm))) (λ pos pm,
    k ← kernel_stack pos;
    Done (upd_proc (Z.to_nat pos) (λ p, with_pdata p
      (let x := set_files (replicate (Z.to_nat NFILE) None) (pdata p) in
       mkPData k (p_size x) (p_pagetable x) (p_trapframe x) (p_context x) (p_name x) (p_parent x) (open_files x) (p_cwd x))) pm)) pm.

(** [ProcManager::wake_up], one process. *)
Definition wake_one (channel : Z) (p : Process) : Process :=
  if bool_decide (p_state (meta p) = SLEEPING) && (p_channel (meta p) =? channel) then upd_meta (set_state RUNNABLE) p else p.

Definition pm_wake_up (channel : Z) (pm : ProcManager) : ProcManager := with_procs pm (wake_one channel <$> procs pm).

Global Instance pm_wake : WakeUp ProcManager := pm_wake_up.

(** [seek_runnable]. *)
Definition seek_runnable (pm : ProcManager) : option nat * ProcManager :=
  match list_find (λ p, p_state (meta p) = RUNNABLE) (procs pm) with
  | Some (i, _) => (Some i, upd_proc i (upd_meta (set_state ALLOCATED)) pm)
  | None => (None, pm)
  end.

Section Table.
Context (proc_addr : nat → Z).

(** [reparent]. *)
Definition reparent (proc : nat) (pm : ProcManager) : outcome ProcManager :=
  for_range 0 (Z.of_nat (length (procs pm))) (λ index pm,
    p ← get_proc (Z.to_nat index) pm;
    if bool_decide (p_parent (pdata p) = Some proc) then
      let addr := match init_proc pm with Some i => proc_addr i | None => 0 end in
      Done (pm_wake_up addr (upd_proc (Z.to_nat index) (λ p, with_pdata p (set_parent (init_proc pm) (pdata p))) pm))
    else Done pm) pm.

(** [kill]: the result is [Ok] only when a sleeping process has been woken. *)
Definition kill (pid : Z) (pm : ProcManager) : outcome (option Z * ProcManager) :=
  r ← for_range_until 0 (Z.of_nat (length (procs pm))) (λ i pm,
    p ← get_proc (Z.to_nat i) pm;
    if p_pid (meta p) =? pid then
      let pm := upd_proc (Z.to_nat i) (upd_meta (set_killed true)) pm in
      if decide (p_state (meta p) = SLEEPING) then
        Done (inl (upd_proc (Z.to_nat i) (upd_meta (set_state RUNNABLE)) pm))
      else Done (inr pm)
    else Done (inr pm)) pm;
  match r with
  | inl pm => Done (Some 0, pm)
  | inr pm => Done (None, pm)
  end.

(** The end of [exit]: the children go to init, the parent is woken, and the
    process becomes a zombie. *)
Definition exit_zombie (me : nat) (status : Z) (pm : ProcManager) : outcome ProcManager :=
  pm ← reparent me pm;
  p ← get_proc me pm;
  parent ← unwrap "Fail to find parent process" (p_parent (pdata p));
  let pm := pm_wake_up (proc_addr parent) pm in
  Done (upd_proc me (upd_meta (λ x, mkPMeta ZOMBIE (p_channel x) (p_killed x) status (p_pid x))) pm).

(** One scan of the table in [wait]. *)
Inductive wait_result :=
| WaitPid (pid : Z)      (** a child has been collected *)
| WaitErr                (** no children, killed, or the copy failed *)
| WaitSleep.             (** there are children: sleep and scan again *)

Section Wait.
Context {H : Type} {PF : PageFree H}.

Definition wait_scan (me : nat) (addr : Z) (pm : ProcManager) (s : pstate H) :
    outcome (wait_result * ProcManager * pstate H) :=
  my_proc ← get_proc me pm;
  r ← for_range_until 0 (Z.of_nat (length (procs pm))) (λ index have_kids,
    p ← get_proc (Z.to_nat index) pm;
    if bool_decide (p_parent (pdata p) = Some me) then
      if decide (p_state (meta p) = ZOMBIE) then
        let pid := p_pid (meta p) in
        pt ← unwrap "Fail to get pagetable" (p_pagetable (pdata p));
        '(c, m) ← (if addr =? 0 then Done (Ok tt, pmem s) else copy_out pt addr (p_xstate (meta p)) 8 (pmem s));
        let s := with_mem s m in
        match c with
        | Err _ => Done (inl (WaitErr, pm, s))
        | Ok _ =>
            '(p, s) ← free_proc p s;
            Done (inl (WaitPid pid, upd_proc (Z.to_nat index) (λ _, p) pm, s))
        end
      else Done (inr true)
    else Done (inr have_kids)) false;
  match r with
  | inl x => Done x
  | inr have_kids =>
      if negb (have_kids : bool) || p_killed (meta my_proc) then Done (WaitErr, pm, s)
      else Done (WaitSleep, pm, s)
  end.
End Wait.

(** Sleeping and yielding: the state the process leaves for the scheduler, and
    what it does when it runs again. *)
Definition proc_sleep (me : nat) (channel : Z) (pm : ProcManager) : ProcManager :=
  upd_proc me (upd_meta (λ x, set_state SLEEPING (set_channel channel x))) pm.
Definition proc_resume (me : nat) (pm : ProcManager) : ProcManager := upd_proc me (upd_meta (set_channel 0)) pm.
Definition yielding (me : nat) (pm : ProcManager) : ProcManager := upd_proc me (upd_meta (set_state RUNNABLE)) pm.

(** [yield_proc] and [try_yield_proc]: only a running process yields. *)
Definition try_yield_proc (p : option nat) (pm : ProcManager) : outcome (bool * ProcManager) :=
  match p with
  | None => Done (false, pm)
  | Some i =>
      x ← get_proc i pm;
      if decide (p_state (meta x) = RUNNING) then Done (true, yielding i pm) else Done (false, pm)
  end.

(** One round of the scheduler up to the switch: the process chosen. *)
Definition schedule (pm : ProcManager) : option nat * ProcManager :=
  let '(r, pm) := seek_runnable pm in
  match r with
  | Some i => (Some i, upd_proc i (upd_meta (set_state RUNNING)) pm)
  | None => (None, pm)
  end.
End Table.

Section Alloc.
Context {BFl : BitFlags} {H : Type} {PS : PageSource H}.

(** [alloc_proc]: a new pid is taken even when the table is full. *)
Definition alloc_proc (trampoline fork_ret : Z) (pm : ProcManager) (s : pstate H) :
    outcome (option nat * ProcManager * pstate H) :=
  '(pid, pm) ← alloc_pid pm;
  match list_find (λ p, p_state (meta p) = UNUSED) (procs pm) with
  | None => Done (None, pm, s)
  | Some (i, p) =>
      let x := mkPMeta ALLOCATED (p_channel (meta p)) (p_killed (meta p)) (p_xstate (meta p)) pid in
      '(trapframe, s) ← new_zeroed s;
      '(d, s) ← proc_pagetable trampoline (set_trapframe trapframe (pdata p)) s;
      d ← init_context fork_ret d;
      Done (Some i, upd_proc i (λ _, mkProc x d) pm, s)
  end.
End Alloc.

(** The end of [fork]: the child takes over name, size, files and directory of
    its parent, becomes runnable and learns who its parent is. *)
Definition fork_child (me child : nat) (files : list (option Z)) (cwd : option Inode) (parent : ProcData)
    (pm : ProcManager) : ProcManager :=
  upd_proc child (λ p,
    let x := pdata p in
    mkProc (set_state RUNNABLE (meta p))
      (mkPData (kstack x) (p_size parent) (p_pagetable x) (p_trapframe x) (p_context x) (p_name parent)
         (Some me) files cwd)) pm.
