(* ===== verification/Sched.v ===== *)
(** * Giving up a hart and getting one back

    [CPU::sched] and [Process::yielding] of [process/process.rs] together with
    one round of [CPUManager::scheduler] on every hart they touch: the lock of
    the process, the nesting of [push_off] and the interrupt state of the kernel
    thread.  The switch itself is [Asm.switch]; here it hands the hart over. *)

From Stdlib Require Import ZArith Lia.
From stdpp Require Import base gmap strings numbers list.
From S2P Require Import Prelude Registers Cpu Proc.

Local Open Scope Z_scope.

(** The harts, and lock and state of the process that yields. *)
Record sys := mkSys {
  cpus : list hart;
  plock : Spinlock;
  pstat : ProcState;
}.

Definition hart_at (i : nat) (st : sys) : outcome hart := unwrap "index out of bounds" (cpus st !! i).
Definition set_hart (i : nat) (h : hart) (st : sys) : sys := mkSys (<[i := h]> (cpus st)) (plock st) (pstat st).
Definition set_pstat (s : ProcState) (st : sys) : sys := mkSys (cpus st) (plock st) s.

(** [meta.acquire()] and the end of the guard, on hart [i]. *)
Definition lock_meta (i : nat) (st : sys) : outcome sys :=
  h ← hart_at i st;
  '(l, h) ← acquire (Z.of_nat i) (plock st) h;
  Done (mkSys (<[i := h]> (cpus st)) l (pstat st)).
Definition unlock_meta (i : nat) (st : sys) : outcome sys :=
  h ← hart_at i st;
  '(l, h) ← release (Z.of_nat i) (plock st) h;
  Done (mkSys (<[i := h]> (cpus st)) l (pstat st)).

(** [sched] up to the switch; the result is the [intena] it keeps. *)
Definition sched_save (i : nat) (st : sys) : outcome Z :=
  h ← hart_at i st;
  _ ← sched_checks (Z.of_nat i) (plock st) (bool_decide (pstat st = RUNNING)) h;
  Done (intena (h_cpu h)).

(** [self.intena = intena]: [self] is the hart on which [sched] was called. *)
Definition sched_restore (self : nat) (v : Z) (st : sys) : outcome sys :=
  h ← hart_at self st;
  let c := h_cpu h in
  Done (set_hart self (mkHart (mkCPU (c_process c) (c_ctx c) (noff c) v) (h_sstatus h)) st).

(** [yielding] up to the switch, on hart [a]. *)
Definition yield_out (a : nat) (st : sys) : outcome (Z * sys) :=
  st ← lock_meta a st;
  let st := set_pstat RUNNABLE st in
  v ← sched_save a st;
  Done (v, st).

(** The scheduler of hart [a] after the switch back to it. *)
Definition scheduler_back (a : nat) (st : sys) : outcome sys :=
  h ← hart_at a st;
  let st := set_hart a (mkHart (set_proc None (h_cpu h)) (h_sstatus h)) st in
  unlock_meta a st.

(** A round of the scheduler of hart [b] that finds process [p], up to the
    switch to it.  [seek_runnable] takes and gives back the lock of the process. *)
Definition scheduler_pick (b p : nat) (st : sys) : outcome sys :=
  h ← hart_at b st;
  let st := set_hart b (mkHart (h_cpu h) (Sstatus.intr_on (h_sstatus h))) st in
  st ← lock_meta b st;
  if negb (bool_decide (pstat st = RUNNABLE)) then Panic "the process is not runnable"
  else
    let st := set_pstat ALLOCATED st in
    st ← unlock_meta b st;
    h ← hart_at b st;
    let st := set_hart b (mkHart (set_proc (Some p) (h_cpu h)) (h_sstatus h)) st in
    st ← lock_meta b st;
    Done (set_pstat RUNNING st).

(** The rest of [sched] and of [yielding], on hart [b]. *)
Definition yield_in (a b : nat) (v : Z) (st : sys) : outcome sys :=
  st ← sched_restore a v st;
  unlock_meta b st.

(** Away from hart [a], and back on hart [b]. *)
Definition yield_away (a : nat) (st : sys) : outcome (Z * sys) :=
  '(v, st) ← yield_out a st;
  st ← scheduler_back a st;
  Done (v, st).
Definition yield_back (a b p : nat) (v : Z) (st : sys) : outcome sys :=
  st ← scheduler_pick b p st;
  yield_in a b v st.

(** ** What a hart finds *)

(** The lock is free and the hart holds no lock. *)
Record free_on (i : nat) (h : hart) (st : sys) : Prop := {
  fo_hart : cpus st !! i = Some h;
  fo_ok : hart_ok h;
  fo_noff : noff (h_cpu h) = 0;
  fo_lock : plock st = new_spinlock;
}.

(** ... or holds this lock only. *)
Record held_on (i : nat) (h : hart) (st : sys) : Prop := {
  hd_hart : cpus st !! i = Some h;
  hd_reg : 0 ≤ h_sstatus h < 2 ^ 64;
  hd_off : intr_enabled h = false;
  hd_noff : noff (h_cpu h) = 1;
  hd_lock : plock st = mkSpin true (Z.of_nat i);
}.

Lemma intr_on_range x : 0 ≤ x < 2 ^ 64 → 0 ≤ Sstatus.intr_on x < 2 ^ 64.
Proof. intros Hx. unfold Sstatus.intr_on. apply lor_lt_pow2; [lia|done|by vm_compute]. Qed.

Lemma lock_meta_ok i h st :
  free_on i h st →
  ∃ h', lock_meta i st = Done (mkSys (<[i := h']> (cpus st)) (mkSpin true (Z.of_nat i)) (pstat st)) ∧
    held_on i h' (mkSys (<[i := h']> (cpus st)) (mkSpin true (Z.of_nat i)) (pstat st)) ∧
    intena (h_cpu h') = (if intr_enabled h then 1 else 0) ∧ c_process (h_cpu h') = c_process (h_cpu h) ∧
    h_sstatus h' = Sstatus.intr_off (h_sstatus h).
Proof.
  intros [Hh Hok Hn Hl]. unfold lock_meta, hart_at, acquire. rewrite Hh, Hl. cbn [unwrap]. rewrite bind_Done_l.
  destruct (push_off_ok h Hok) as (h' & -> & Hr & Hn' & Hi & Hp & Hc & _ & Hie & Hs). rewrite bind_Done_l. cbn.
  exists h'. split; [done|]. split; [|by split_and!; auto]. split; try done; [|lia].
  apply list_lookup_insert_eq. by apply lookup_lt_Some in Hh.
Qed.

Lemma unlock_meta_ok i h st :
  held_on i h st → 0 ≤ intena (h_cpu h) →
  ∃ h', unlock_meta i st = Done (mkSys (<[i := h']> (cpus st)) new_spinlock (pstat st)) ∧
    free_on i h' (mkSys (<[i := h']> (cpus st)) new_spinlock (pstat st)) ∧
    intr_enabled h' = negb (intena (h_cpu h) =? 0) ∧ c_process (h_cpu h') = c_process (h_cpu h) ∧
    intena (h_cpu h') = intena (h_cpu h) ∧
    h_sstatus h' = (if negb (intena (h_cpu h) =? 0) then Sstatus.intr_on (h_sstatus h) else h_sstatus h).
Proof.
  intros [Hh Hr Hi Hn Hl] Hie. unfold unlock_meta, hart_at, release. rewrite Hh, Hl. cbn [unwrap]. rewrite bind_Done_l.
  unfold holding. cbn [locked cpu_id]. rewrite Z.eqb_refl. cbn [andb negb]. unfold pop_off. unfold intr_enabled in Hi. rewrite Hi, Hn.
  rewrite usub_ok by lia. rewrite !bind_Done_l. cbn. eexists. split; [done|]. cbn. split; [|split_and!; try done].
  - split; cbn.
    + apply list_lookup_insert_eq. by apply lookup_lt_Some in Hh.
    + split; cbn; [|lia|lia]. destruct (negb _); [by apply intr_on_range|done].
    + done.
    + done.
  - unfold intr_enabled. cbn. destruct (negb _); [apply intr_on_get|done].
Qed.

Lemma hart_at_ok i h st : cpus st !! i = Some h → hart_at i st = Done h.
Proof. intros E. unfold hart_at. by rewrite E. Qed.

(** ** Away *)

Lemma yield_away_ok a h st :
  free_on a h st → pstat st = RUNNING →
  ∃ h' st', yield_away a st = Done (if intr_enabled h then 1 else 0, st') ∧ free_on a h' st' ∧ pstat st' = RUNNABLE ∧
    c_process (h_cpu h') = None ∧ (∀ j, j ≠ a → cpus st' !! j = cpus st !! j).
Proof.
  intros Hf Hs. unfold yield_away, yield_out. destruct (lock_meta_ok a h st Hf) as (h1 & -> & Hh1 & Hi1 & _ & _). rewrite !bind_Done_l.
  set (st1 := set_pstat RUNNABLE _). destruct Hh1 as [Hc1 Hr1 Ho1 Hn1 Hl1]. cbn [cpus] in Hc1.
  assert (hart_at a st1 = Done h1) as Ea by by apply hart_at_ok.
  assert (sched_save a st1 = Done (intena (h_cpu h1))) as ->.
  { unfold sched_save, sched_checks. rewrite Ea, bind_Done_l. cbn [plock pstat st1 set_pstat].
    unfold holding. cbn [locked cpu_id]. rewrite Z.eqb_refl, Hn1. unfold intr_enabled in Ho1. rewrite Ho1. done. }
  rewrite !bind_Done_l. cbv beta iota. unfold scheduler_back. rewrite Ea, bind_Done_l. cbv zeta.
  set (h2 := mkHart _ _). destruct (unlock_meta_ok a h2 (set_hart a h2 st1)) as (h3 & -> & Hf3 & _ & Hp3 & _ & _).
  - split; cbn; try done. apply list_lookup_insert_eq. rewrite length_insert. by apply lookup_lt_Some in Hc1; rewrite length_insert in Hc1.
  - cbn. rewrite Hi1. by destruct (intr_enabled h).
  - rewrite bind_Done_l. eexists h3, _. rewrite Hi1. split; [done|]. split; [done|]. split; [done|]. split; [done|].
    intros j Hj. cbn. by rewrite !list_lookup_insert_ne by done.
Qed.

(** ** Back *)

Lemma scheduler_pick_ok b p h st :
  free_on b h st → pstat st = RUNNABLE →
  ∃ h', scheduler_pick b p st = Done (mkSys (<[b := h']> (cpus st)) (mkSpin true (Z.of_nat b)) RUNNING) ∧
    held_on b h' (mkSys (<[b := h']> (cpus st)) (mkSpin true (Z.of_nat b)) RUNNING) ∧
    intena (h_cpu h') = 1 ∧ c_process (h_cpu h') = Some p.
Proof.
  intros [Hh Hok Hn Hl] Hs. unfold scheduler_pick. rewrite (hart_at_ok b h st Hh), bind_Done_l.
  pose proof (lookup_lt_Some _ _ _ Hh) as Hlen. set (h1 := mkHart (h_cpu h) _).
  assert (intr_enabled h1 = true) as Hi1 by apply intr_on_get.
  assert (hart_ok h1) as Hok1. { destruct Hok as [Hr Hn0 _]. split; cbn; [by apply intr_on_range|done|lia]. }
  destruct (lock_meta_ok b h1 (set_hart b h1 st)) as (h2 & -> & Hh2 & Hi2 & _ & _).
  { split; cbn; try done. by apply list_lookup_insert_eq. }
  rewrite bind_Done_l. cbn [pstat]. change (pstat (set_hart b h1 st)) with (pstat st). rewrite Hs, bool_decide_true by done. cbn [negb].
  rewrite Hi1 in Hi2. destruct Hh2 as [Hc2 Hr2 Ho2 Hn2 Hl2]. cbn [cpus] in Hc2.
  destruct (unlock_meta_ok b h2 (set_pstat ALLOCATED (mkSys (<[b := h2]> (cpus (set_hart b h1 st))) (mkSpin true (Z.of_nat b)) RUNNABLE)))
    as (h3 & -> & Hf3 & Hi3 & _ & _ & _); [by split|lia|]. rewrite Hi2 in Hi3. rewrite bind_Done_l.
  destruct Hf3 as [Hc3 Hok3 Hn3 _]. rewrite (hart_at_ok b h3 _ Hc3), bind_Done_l. set (h4 := mkHart (set_proc _ _) _).
  match goal with |- context [lock_meta b (set_hart b h4 ?s)] => set (s4 := s) end.
  destruct (lock_meta_ok b h4 (set_hart b h4 s4)) as (h5 & -> & Hh5 & Hi5 & Hp5 & _).
  { split; cbn; [|by destruct Hok3|done|done]. apply list_lookup_insert_eq. by rewrite !length_insert. }
  rewrite bind_Done_l. change (intr_enabled h4) with (intr_enabled h3) in Hi5. rewrite Hi3 in Hi5.
  exists h5. cbn in Hh5 |- *. rewrite !list_insert_insert_eq in Hh5 |- *.
  split; [done|]. split; [|split; [exact Hi5|exact Hp5]]. by destruct Hh5.
Qed.

Lemma yield_back_ok a b p v h st :
  free_on b h st → pstat st = RUNNABLE → is_Some (cpus st !! a) → 0 ≤ v →
  ∃ h' st', yield_back a b p v st = Done st' ∧ free_on b h' st' ∧ pstat st' = RUNNING ∧ c_process (h_cpu h') = Some p ∧
    intr_enabled h' = (if decide (a = b) then negb (v =? 0) else true) ∧
    (∀ j, j ≠ a → j ≠ b → cpus st' !! j = cpus st !! j) ∧
    (∀ ha, a ≠ b → cpus st !! a = Some ha →
       cpus st' !! a = Some (mkHart (mkCPU (c_process (h_cpu ha)) (c_ctx (h_cpu ha)) (noff (h_cpu ha)) v) (h_sstatus ha))).
Proof.
  intros Hf Hs [ha Ha] Hv. unfold yield_back. destruct (scheduler_pick_ok b p h st Hf Hs) as (h1 & -> & Hh1 & Hi1 & Hp1).
  rewrite bind_Done_l. unfold yield_in, sched_restore, hart_at. cbn [cpus].
  pose proof (lookup_lt_Some _ _ _ (fo_hart _ _ _ Hf)) as Hlb. pose proof (lookup_lt_Some _ _ _ Ha) as Hla. destruct Hh1 as [Hc1 Hr1 Ho1 Hn1 Hl1].
  destruct (decide (a = b)) as [->|Hne].
  - cbn [cpus] in Hc1. rewrite Hc1. cbn [unwrap]. rewrite !bind_Done_l. set (h2 := mkHart _ _).
    match goal with |- context [unlock_meta b ?s] => destruct (unlock_meta_ok b h2 s) as (h3 & -> & Hf3 & Hi3 & Hp3 & _ & _) end.
    + split; cbn; try done. apply list_lookup_insert_eq. by rewrite length_insert.
    + done.
    + eexists h3, _. split; [done|]. split; [done|]. split; [done|]. split; [by rewrite Hp3|]. split; [exact Hi3|]. split; [|done].
      intros j Hj _. cbn. by rewrite !list_lookup_insert_ne by done.
  - cbn [cpus] in Hc1. rewrite list_lookup_insert_ne, Ha by done. cbn [unwrap]. rewrite !bind_Done_l. set (h2 := mkHart (mkCPU _ _ _ _) _).
    match goal with |- context [unlock_meta b ?s] => destruct (unlock_meta_ok b h1 s) as (h3 & -> & Hf3 & Hi3 & Hp3 & _ & _) end.
    + split; cbn; try done. rewrite list_lookup_insert_ne by done. exact Hc1.
    + lia.
    + eexists h3, _. split; [done|]. split; [done|]. split; [done|]. split; [by rewrite Hp3|]. split; [by rewrite Hi3, Hi1|]. split.
      * intros j Hj Hj'. cbn. by rewrite !list_lookup_insert_ne by done.
      * intros ha' _ [= <-]. cbn. rewrite list_lookup_insert_ne by done.
        apply list_lookup_insert_eq. by rewrite length_insert.
Qed.

(** C22 Yielding on one hart.  A kernel thread that gives up its hart and is later
    run again by the scheduler of the same hart, whatever happens in between, has
    its process, no lock, and interrupts as they were when it yielded; the lock
    of the process is free and no check of [sched], [acquire] or [release]
    panics. *)
Theorem yield_same_hart a p h st
    (Hf : free_on a h st) (Hs : pstat st = RUNNING) :
  ∃ v st1, yield_away a st = Done (v, st1) ∧ pstat st1 = RUNNABLE ∧
    (∃ h1, free_on a h1 st1 ∧ c_process (h_cpu h1) = None) ∧
    ∀ h2 st2, free_on a h2 st2 → pstat st2 = RUNNABLE →
      ∃ h3 st3, yield_back a a p v st2 = Done st3 ∧ free_on a h3 st3 ∧ pstat st3 = RUNNING ∧
        c_process (h_cpu h3) = Some p ∧ intr_enabled h3 = intr_enabled h.
Proof.
  destruct (yield_away_ok a h st Hf Hs) as (h1 & st1 & Hrun & Hf1 & Hs1 & Hp1 & _). eexists _, st1. split; [done|]. split; [done|].
  split; [by exists h1|]. intros h2 st2 Hf2 Hs2.
  destruct (yield_back_ok a a p (if intr_enabled h then 1 else 0) h2 st2) as (h3 & st3 & Hrun3 & Hf3 & Hs3 & Hp3 & Hi3 & _);
    [done|done|by rewrite (fo_hart _ _ _ Hf2)|by destruct (intr_enabled h)|].
  exists h3, st3. split; [done|]. split; [done|]. split; [done|]. split; [done|].
  rewrite decide_True in Hi3 by done. rewrite Hi3. by destruct (intr_enabled h).
Qed.

(** C37 Yielding across harts.  A kernel thread that yields on hart [a] and runs
    again on another hart [b] always continues with interrupts enabled, also
    when it yielded with interrupts disabled: [sched] puts the saved [intena] back
    into the structure of hart [a], where it overwrites the value of whatever runs
    there now. *)
Theorem yield_other_hart a b p h st
    (Hne : a ≠ b) (Hf : free_on a h st) (Hs : pstat st = RUNNING) :
  ∃ v st1, yield_away a st = Done (v, st1) ∧ v = (if intr_enabled h then 1 else 0) ∧
    ∀ hb ha st2, free_on b hb st2 → pstat st2 = RUNNABLE → cpus st2 !! a = Some ha →
      ∃ h3 ha3 st3, yield_back a b p v st2 = Done st3 ∧ cpus st3 !! b = Some h3 ∧ intr_enabled h3 = true ∧
        cpus st3 !! a = Some ha3 ∧ intena (h_cpu ha3) = v ∧ noff (h_cpu ha3) = noff (h_cpu ha).
Proof.
  destruct (yield_away_ok a h st Hf Hs) as (h1 & st1 & Hrun & Hf1 & Hs1 & Hp1 & _). eexists _, st1. split; [done|]. split; [done|].
  intros hb ha st2 Hf2 Hs2 Ha.
  destruct (yield_back_ok a b p (if intr_enabled h then 1 else 0) hb st2) as (h3 & st3 & Hrun3 & Hf3 & Hs3 & Hp3 & Hi3 & _ & Hx);
    [done|done|by rewrite Ha|by destruct (intr_enabled h)|].
  rewrite decide_False in Hi3 by done. eexists h3, _, st3. split; [done|]. split; [apply Hf3|]. split; [done|].
  split; [by apply Hx|]. done.
Qed.

(** ** Two harts, the second one idle *)

Definition demo_sys : sys := mkSys [mkHart (set_proc (Some 3%nat) new_cpu) 0; mkHart new_cpu 2] new_spinlock RUNNING.

Lemma demo_free i h : cpus demo_sys !! i = Some h → free_on i h demo_sys.
Proof.
  intros Hh. split; [done| | |done]; destruct i as [|[|i]]; cbn in Hh; try done; injection Hh as <-; [split; cbn; lia|split; cbn; lia|done|done].
Qed.

Lemma yield_same_hart_witness :
  ∃ v st1 st3 h3, yield_away 0 demo_sys = Done (v, st1) ∧ yield_back 0 0 3 v st1 = Done st3 ∧
    cpus st3 !! 0%nat = Some h3 ∧ intr_enabled h3 = false.
Proof.
  destruct (yield_same_hart 0 3 (mkHart (set_proc (Some 3%nat) new_cpu) 0) demo_sys) as (v & st1 & Hrun & Hs & (h1 & Hf1 & _) & Hback).
  - by apply demo_free.
  - done.
  - destruct (Hback h1 st1 Hf1 Hs) as (h3 & st3 & Hrun3 & Hf3 & _ & _ & Hi). exists v, st1, st3, h3.
    split; [exact Hrun|]. split; [exact Hrun3|]. split; [apply Hf3|exact Hi].
Defined.

Lemma yield_other_hart_witness :
  ∃ v st1 st3 h3, yield_away 0 demo_sys = Done (v, st1) ∧ yield_back 0 1 3 v st1 = Done st3 ∧
    intr_enabled (mkHart (set_proc (Some 3%nat) new_cpu) 0) = false ∧ cpus st3 !! 1%nat = Some h3 ∧ intr_enabled h3 = true.
Proof.
  destruct (yield_other_hart 0 1 3 (mkHart (set_proc (Some 3%nat) new_cpu) 0) demo_sys) as (v & st1 & Hrun & Hv & Hback).
  - done.
  - by apply demo_free.
  - done.
  - assert (yield_away 0 demo_sys = Done (0, mkSys [mkHart (mkCPU None new_context 0 0) 0; mkHart new_cpu 2] new_spinlock RUNNABLE)) as E
      by by vm_compute.
    pose proof Hrun as Hrun'. rewrite E in Hrun'. injection Hrun' as _ Es.
    destruct (Hback (mkHart new_cpu 2) (mkHart (mkCPU None new_context 0 0) 0) st1) as (h3 & _ & st3 & Hrun3 & Hh & Hi & _).
    + rewrite <- Es. split; [done|split; cbn; lia|done|done].
    + by rewrite <- Es.
    + by rewrite <- Es.
    + exists v, st1, st3, h3. split; [exact Hrun|]. split; [exact Hrun3|]. split; [done|]. split; [exact Hh|exact Hi].
Defined.
