(* ===== verification/ProcTheorems.v ===== *)
(** * Theorems about the process table

    The operations of [process/manager.rs] as steps of a transition system; the
    table stays well formed whatever the processes do. *)

From Stdlib Require Import ZArith Lia.
From stdpp Require Import base gmap strings numbers list relations.
From S2P Require Import Prelude Address Pte PhysMem PageTable PageTableTheorems KernelMap Bytes Bio DiskLayout Log Bitmap Inode Cpu Proc.

Local Open Scope Z_scope.

Definition used (p : Process) : Prop := p_state (meta p) ≠ UNUSED.
Definition alive (p : Process) : Prop := p_state (meta p) ≠ UNUSED ∧ p_state (meta p) ≠ ZOMBIE.

Lemma alive_used p : alive p → used p.
Proof. by intros [? ?]. Qed.

Record table_ok (pm : ProcManager) : Prop := {
  to_len : length (procs pm) = Z.to_nat NPROC;
  (** the first process lives and has no parent *)
  to_init : ∃ i p, init_proc pm = Some i ∧ procs pm !! i = Some p ∧ alive p ∧ p_parent (pdata p) = None;
  (** process numbers are unique *)
  to_pid i j p q : procs pm !! i = Some p → procs pm !! j = Some q → used p → used q →
    p_pid (meta p) = p_pid (meta q) → i = j;
  to_pid_range i p : procs pm !! i = Some p → used p → 0 < p_pid (meta p) ≤ last_pid pm;
  (** parents live *)
  to_parent i p j : procs pm !! i = Some p → p_parent (pdata p) = Some j → ∃ q, procs pm !! j = Some q ∧ alive q;
  to_unused i p : procs pm !! i = Some p → p_state (meta p) = UNUSED → p_parent (pdata p) = None;
}.

(** ** Changes of one process *)

Lemma lookup_upd_proc i f pm j :
  procs (upd_proc i f pm) !! j = if decide (i = j) then f <$> procs pm !! i else procs pm !! j.
Proof. unfold upd_proc. simpl. apply list_lookup_alter. Qed.

(** The process number and the parent stay, and no life begins or ends. *)
Definition mild (p p' : Process) : Prop :=
  p_pid (meta p') = p_pid (meta p) ∧ p_parent (pdata p') = p_parent (pdata p) ∧
  (p_state (meta p) = UNUSED ↔ p_state (meta p') = UNUSED) ∧ (alive p → alive p').

Lemma mild_refl p : mild p p.
Proof. by unfold mild. Qed.

Lemma mild_ok i f pm : (∀ p, procs pm !! i = Some p → mild p (f p)) → table_ok pm → table_ok (upd_proc i f pm).
Proof.
  intros Hf [Hl (k & pk & Hk & Hpk & Hak & Hnk) Hu Hr Hp Hun].
  assert (∀ j p, procs (upd_proc i f pm) !! j = Some p → ∃ p0, procs pm !! j = Some p0 ∧ mild p0 p) as Hinv.
  { intros j p Hj. rewrite lookup_upd_proc in Hj. case_decide as Hd; [subst j|eauto using mild_refl].
    destruct (procs pm !! i) as [p0|]; [|done]. injection Hj as <-. eauto. }
  assert (∀ j p0, procs pm !! j = Some p0 → ∃ p, procs (upd_proc i f pm) !! j = Some p ∧ mild p0 p) as Hfw.
  { intros j p0 Hj. rewrite lookup_upd_proc. case_decide as Hd; [subst j; rewrite Hj|]; eauto using mild_refl. }
  split.
  - unfold upd_proc. simpl. by rewrite length_alter.
  - destruct (Hfw k pk Hpk) as (p & Hj & (_ & Hpa & _ & Ha)). exists k, p. split_and!; [done|done|by apply Ha|congruence].
  - intros j j' p q Hj Hj' Hup Huq. destruct (Hinv j p Hj) as (p0 & Hp0 & (-> & _ & Hs1 & _)).
    destruct (Hinv j' q Hj') as (q0 & Hq0 & (-> & _ & Hs2 & _)).
    unfold used in *. rewrite <- Hs1 in Hup. rewrite <- Hs2 in Huq. by apply (Hu j j' p0 q0).
  - intros j p Hj Hup. destruct (Hinv j p Hj) as (p0 & Hp0 & (-> & _ & Hs1 & _)).
    unfold used in *. rewrite <- Hs1 in Hup. by apply (Hr j p0).
  - intros j p j' Hj Hpa. destruct (Hinv j p Hj) as (p0 & Hp0 & (_ & E & _ & _)).
    rewrite E in Hpa. destruct (Hp j p0 j' Hp0 Hpa) as (q & Hq & Haq). destruct (Hfw j' q Hq) as (q' & Hq' & (_ & _ & _ & Ha)).
    exists q'. split; [done|by apply Ha].
  - intros j p Hj Hst. destruct (Hinv j p Hj) as (p0 & Hp0 & (_ & E & Hs & _)).
    rewrite E. apply (Hun j p0 Hp0). by apply Hs.
Qed.

(** The same for all processes at once. *)
Lemma mild_all f pm : (∀ p, mild p (f p)) → table_ok pm → table_ok (with_procs pm (f <$> procs pm)).
Proof.
  intros Hf [Hl (k & pk & Hk & Hpk & Hak & Hnk) Hu Hr Hp Hun].
  assert (∀ j p, (f <$> procs pm) !! j = Some p → ∃ p0, procs pm !! j = Some p0 ∧ p = f p0) as Hinv.
  { intros j p. rewrite list_lookup_fmap. destruct (procs pm !! j) as [p0|]; [|done]. intros [= <-]. eauto. }
  split; simpl.
  - by rewrite length_fmap.
  - destruct (Hf pk) as (_ & Hpa & _ & Ha). exists k, (f pk). rewrite list_lookup_fmap, Hpk. split_and!; [done|done|by apply Ha|congruence].
  - intros j j' p q (p0 & Hp0 & ->)%Hinv (q0 & Hq0 & ->)%Hinv Hup Huq. destruct (Hf p0) as (-> & _ & Hs1 & _).
    destruct (Hf q0) as (-> & _ & Hs2 & _). unfold used in *. rewrite <- Hs1 in Hup. rewrite <- Hs2 in Huq. by apply (Hu j j' p0 q0).
  - intros j p (p0 & Hp0 & ->)%Hinv Hup. destruct (Hf p0) as (-> & _ & Hs1 & _). unfold used in *. rewrite <- Hs1 in Hup.
    by apply (Hr j p0).
  - intros j p j' (p0 & Hp0 & ->)%Hinv Hpa. destruct (Hf p0) as (_ & E & _ & _). rewrite E in Hpa.
    destruct (Hp j p0 j' Hp0 Hpa) as (q & Hq & Haq). exists (f q). rewrite list_lookup_fmap, Hq. split; [done|by apply Hf].
  - intros j p (p0 & Hp0 & ->)%Hinv Hst. destruct (Hf p0) as (_ & E & Hs & _). rewrite E. apply (Hun j p0 Hp0). by apply Hs.
Qed.

(** ** The operations *)

Lemma wake_mild c p : mild p (wake_one c p).
Proof.
  unfold wake_one. destruct (bool_decide _ && _) eqn:E; [|apply mild_refl].
  apply andb_true_iff in E as [Hs%bool_decide_eq_true _]. unfold mild, alive. cbn. rewrite Hs. by split_and!.
Qed.

Lemma wake_ok c pm : table_ok pm → table_ok (pm_wake_up c pm).
Proof. intros Hok. apply mild_all; [apply wake_mild|done]. Qed.

(** A process that lives changes to another state of life. *)
Lemma state_mild p st : alive p → st ≠ UNUSED → st ≠ ZOMBIE → mild p (upd_meta (set_state st) p).
Proof. intros [Hu Hz] Hs Hs'. unfold mild, alive. by split_and!. Qed.

Lemma meta_mild p f :
  (∀ x, p_pid (f x) = p_pid x ∧ p_state (f x) = p_state x) → mild p (upd_meta f p).
Proof. intros Hf. unfold mild, alive. cbn. destruct (Hf (meta p)) as [-> ->]. by split_and!. Qed.

Lemma running_alive p : p_state (meta p) = RUNNING → alive p.
Proof. unfold alive. by intros ->. Qed.

Lemma seek_ok pm : table_ok pm → table_ok (seek_runnable pm).2.
Proof.
  intros Hok. unfold seek_runnable. destruct (list_find _ _) as [[i p]|] eqn:E; [|done]. cbn.
  apply list_find_Some in E as (Hi & Hs & _). apply mild_ok; [|done].
  intros p' Hp'. rewrite Hi in Hp'. injection Hp' as <-. apply state_mild; [|done|done]. unfold alive. by rewrite Hs.
Qed.

Lemma schedule_ok pm : table_ok pm → table_ok (schedule pm).2.
Proof.
  intros Hok. unfold schedule. pose proof (seek_ok pm Hok) as H1. destruct (seek_runnable pm) as [[i|] pm1] eqn:E; [|done].
  cbn in H1 |- *. apply mild_ok; [|done]. intros p Hp. apply state_mild; [|done|done].
  unfold seek_runnable in E. destruct (list_find _ _) as [[i' p']|] eqn:E'; [|done]. injection E as -> <-.
  rewrite lookup_upd_proc, decide_True in Hp by done. apply list_find_Some in E' as (Hi & Hs & _). rewrite Hi in Hp.
  injection Hp as <-. done.
Qed.

Lemma kill_ok pid pm r pm' : table_ok pm → kill pid pm = Done (r, pm') → table_ok pm'.
Proof.
  intros Hok Hk. unfold kill in Hk.
  set (body := λ i pm, p ← get_proc (Z.to_nat i) pm; _) in Hk.
  assert (∀ i pm1, 0 ≤ i < Z.of_nat (length (procs pm)) → table_ok pm1 →
    (∃ pm2, body i pm1 = Done (inl pm2) ∧ table_ok pm2) ∨ (∃ pm2, body i pm1 = Done (inr pm2) ∧ table_ok pm2)) as Hb.
  { intros i pm1 Hi Hok1. unfold body, get_proc.
    destruct (lookup_lt_is_Some_2 (procs pm1) (Z.to_nat i)) as [p Hp].
    { rewrite (to_len _ Hok1). rewrite (to_len _ Hok) in Hi. lia. }
    rewrite Hp. cbn [unwrap mbind outcome_bind]. destruct (Z.eqb_spec (p_pid (meta p)) pid); [|right; eauto].
    assert (table_ok (upd_proc (Z.to_nat i) (upd_meta (set_killed true)) pm1)) as Hok2.
    { apply mild_ok; [|done]. intros p' _. by apply meta_mild. }
    case_decide as Hs; [left|right; eauto]. eexists. split; [done|]. apply mild_ok; [|done].
    intros p' Hp'. apply state_mild; [|done|done]. rewrite lookup_upd_proc, decide_True, Hp in Hp' by done.
    injection Hp' as <-. unfold alive. cbn. by rewrite Hs. }
  destruct (for_range_until_inv (λ _, table_ok) table_ok 0 (Z.of_nat (length (procs pm))) body pm) as [(x & E & Hx)|(x & E & Hx)];
    [lia|done|exact Hb|..]; rewrite E in Hk; cbn in Hk; injection Hk as <- <-; done.
Qed.

(** A process gets a new parent, which lives. *)
Lemma parent_ok i j q pm :
  table_ok pm → procs pm !! j = Some q → alive q → init_proc pm ≠ Some i →
  (∀ p, procs pm !! i = Some p → used p) →
  table_ok (upd_proc i (λ p, with_pdata p (set_parent (Some j) (pdata p))) pm).
Proof.
  intros [Hl (k & pk & Hk & Hpk & Hak & Hnk) Hu Hr Hp Hun] Hj Ha Hni Hused.
  assert (∀ n p, procs (upd_proc i (λ p, with_pdata p (set_parent (Some j) (pdata p))) pm) !! n = Some p →
    ∃ p0, procs pm !! n = Some p0 ∧ meta p = meta p0 ∧ (p = p0 ∨ (n = i ∧ p_parent (pdata p) = Some j))) as Hinv.
  { intros n p Hn. rewrite lookup_upd_proc in Hn. case_decide as Hd; [subst n|by eauto 10].
    destruct (procs pm !! i) as [p0|]; [|done]. injection Hn as <-. exists p0. split_and!; [done|done|by right]. }
  assert (∀ n p0, procs pm !! n = Some p0 → ∃ p, procs (upd_proc i (λ p, with_pdata p (set_parent (Some j) (pdata p))) pm) !! n = Some p ∧ meta p = meta p0) as Hfw.
  { intros n p0 Hn. rewrite lookup_upd_proc. case_decide as Hd; [subst n; rewrite Hn|]; eauto. }
  split.
  - unfold upd_proc. simpl. by rewrite length_alter.
  - exists k, pk. rewrite lookup_upd_proc, decide_False by congruence. done.
  - intros n n' p p' Hn Hn'. destruct (Hinv n p Hn) as (p0 & Hp0 & Hm & _). destruct (Hinv n' p' Hn') as (p0' & Hp0' & Hm' & _).
    unfold used. rewrite Hm, Hm'. by apply (Hu n n' p0 p0').
  - intros n p Hn. destruct (Hinv n p Hn) as (p0 & Hp0 & Hm & _). unfold used. rewrite Hm. by apply (Hr n p0).
  - intros n p n' Hn Hpa. destruct (Hinv n p Hn) as (p0 & Hp0 & Hm & Hor).
    assert (∃ q, procs pm !! n' = Some q ∧ alive q) as (q' & Hq' & Ha').
    { destruct Hor as [->|[_ E]]; [by apply (Hp n p0)|]. rewrite E in Hpa. injection Hpa as <-. eauto. }
    destruct (Hfw n' q' Hq') as (q2 & Hq2 & Hm2). exists q2. split; [done|]. unfold alive. by rewrite Hm2.
  - intros n p Hn Hs. destruct (Hinv n p Hn) as (p0 & Hp0 & Hm & [->|[-> _]]); [by apply (Hun n p0)|].
    destruct (Hused p0 Hp0). by rewrite <- Hm.
Qed.

(** A slot changes hands between life and death; nobody is its child. *)
Lemma slot_ok i p' pm :
  table_ok pm → init_proc pm ≠ Some i → (∀ n p, procs pm !! n = Some p → p_parent (pdata p) ≠ Some i) →
  (p_state (meta p') = UNUSED → p_parent (pdata p') = None) →
  (∀ j, p_parent (pdata p') = Some j → j ≠ i ∧ ∃ q, procs pm !! j = Some q ∧ alive q) →
  (used p' → 0 < p_pid (meta p') ≤ last_pid pm ∧ (∀ n p, n ≠ i → procs pm !! n = Some p → used p → p_pid (meta p) ≠ p_pid (meta p'))) →
  table_ok (upd_proc i (λ _, p') pm).
Proof.
  intros [Hl (k & pk & Hk & Hpk & Hak & Hnk) Hu Hr Hp Hun] Hni Hnc Hun' Hpar Huse.
  assert (∀ n p, procs (upd_proc i (λ _, p') pm) !! n = Some p → (n = i ∧ p = p') ∨ (n ≠ i ∧ procs pm !! n = Some p)) as Hinv.
  { intros n p Hn. rewrite lookup_upd_proc in Hn. case_decide as Hd; [subst n|by right].
    destruct (procs pm !! i); [|done]. injection Hn as <-. by left. }
  split.
  - unfold upd_proc. simpl. by rewrite length_alter.
  - exists k, pk. rewrite lookup_upd_proc, decide_False by congruence. done.
  - intros n n' p q [[-> ->]|[Hn Hpn]]%Hinv [[-> ->]|[Hn' Hqn]]%Hinv Hup Huq Hpid; try done.
    + destruct (Huse Hup) as [_ Hne]. by destruct (Hne n' q).
    + destruct (Huse Huq) as [_ Hne]. by destruct (Hne n p).
    + by apply (Hu n n' p q).
  - intros n p [[-> ->]|[Hn Hpn]]%Hinv Hup; [by apply Huse|by apply (Hr n p)].
  - intros n p j Hn Hpa.
    assert (∃ q, procs pm !! j = Some q ∧ alive q) as (q & Hq & Ha).
    { apply Hinv in Hn as [[-> ->]|[Hn Hpn]]; [by apply Hpar|by apply (Hp n p)]. }
    destruct (decide (j = i)) as [->|Hji].
    + exfalso. apply Hinv in Hn as [[-> ->]|[Hn Hpn]]; [|by apply (Hnc n p)]. by destruct (Hpar i Hpa).
    + exists q. rewrite lookup_upd_proc, decide_False by done. done.
  - intros n p [[-> ->]|[Hn Hpn]]%Hinv Hs; [by apply Hun'|by apply (Hun n p)].
Qed.

Lemma upd_proc_const i f p pm : procs pm !! i = Some p → upd_proc i f pm = upd_proc i (λ _, f p) pm.
Proof.
  intros Hi. unfold upd_proc. f_equal. apply list_eq. intros j. rewrite !list_lookup_alter.
  case_decide; [|done]. by rewrite Hi.
Qed.

Section Table.
Context (proc_addr : nat → Z).

Lemma reparent_ok me pm :
  table_ok pm →
  ∃ pm', reparent proc_addr me pm = Done pm' ∧ table_ok pm' ∧ init_proc pm' = init_proc pm ∧ last_pid pm' = last_pid pm ∧
    (init_proc pm ≠ Some me → ∀ n p, procs pm' !! n = Some p → p_parent (pdata p) ≠ Some me).
Proof.
  intros Hok. unfold reparent.
  destruct (for_range_inv (λ k pm', table_ok pm' ∧ init_proc pm' = init_proc pm ∧ last_pid pm' = last_pid pm ∧
    (init_proc pm ≠ Some me → ∀ n p, Z.of_nat n < k → procs pm' !! n = Some p → p_parent (pdata p) ≠ Some me))
    0 (Z.of_nat (length (procs pm))) (λ index pm,
    p ← get_proc (Z.to_nat index) pm;
    if bool_decide (p_parent (pdata p) = Some me) then
      let addr := match init_proc pm with Some i => proc_addr i | None => 0 end in
      Done (pm_wake_up addr (upd_proc (Z.to_nat index) (λ p, with_pdata p (set_parent (init_proc pm) (pdata p))) pm))
    else Done pm) pm) as (pm' & E & H1 & H2 & H3 & H4).
  - lia.
  - split_and!; try done. intros _ n p Hn. lia.
  - intros k pm1 Hk (Hok1 & Hi1 & Hl1 & Hno). unfold get_proc.
    destruct (lookup_lt_is_Some_2 (procs pm1) (Z.to_nat k)) as [p Hp].
    { rewrite (to_len _ Hok1). rewrite (to_len _ Hok) in Hk. lia. }
    rewrite Hp. cbn [unwrap mbind outcome_bind].
    case_bool_decide as Hpar.
    + destruct (to_init _ Hok1) as (i & q & Hi & Hq & Ha & Hnp). rewrite Hi.
      eexists. split; [done|].
      assert (table_ok (upd_proc (Z.to_nat k) (λ p, with_pdata p (set_parent (Some i) (pdata p))) pm1)) as Hok2.
      { apply (parent_ok _ i q); try done.
        - rewrite Hi. intros [= ->]. rewrite Hq in Hp. injection Hp as ->. congruence.
        - intros p' Hp'. rewrite Hp in Hp'. injection Hp' as <-. intros Hs. rewrite (to_unused _ Hok1 _ _ Hp Hs) in Hpar. done. }
      split; [by apply wake_ok|]. split; [done|]. split; [done|]. intros Hne n p' Hn.
      unfold pm_wake_up. simpl. rewrite list_lookup_fmap.
      destruct (alter _ _ _ !! n) as [p1|] eqn:E1; [|done]. intros [= <-].
      destruct (wake_mild (proc_addr i) p1) as (_ & -> & _). rewrite list_lookup_alter in E1. case_decide as Hd.
      * rewrite Hp in E1. injection E1 as <-. cbn. congruence.
      * apply (Hno Hne n p1); [lia|done].
    + eexists. split; [done|]. split_and!; try done. intros Hne n p' Hn Hp'.
      destruct (decide (n = Z.to_nat k)) as [->|Hnk]; [rewrite Hp in Hp'; by injection Hp' as <-|].
      apply (Hno Hne n p'); [lia|done].
  - exists pm'. split; [exact E|]. split_and!; try done. intros Hne n p Hn. apply (H4 Hne n p); [|done].
    apply lookup_lt_Some in Hn. rewrite (to_len _ H1) in Hn. rewrite (to_len _ Hok). lia.
Qed.

Lemma exit_ok me status pm pm' :
  table_ok pm → (∃ p, procs pm !! me = Some p ∧ used p) → exit_zombie proc_addr me status pm = Done pm' → table_ok pm'.
Proof.
  intros Hok _ He. unfold exit_zombie in He. destruct (reparent_ok me pm Hok) as (pm1 & E & Hok1 & Hi1 & Hl1 & Hno).
  rewrite E in He. cbn [mbind outcome_bind] in He. unfold get_proc in He.
  destruct (procs pm1 !! me) as [p|] eqn:Hp; [|done]. cbn [unwrap mbind outcome_bind] in He.
  destruct (p_parent (pdata p)) as [par|] eqn:Hpar; [|done]. cbn [unwrap mbind outcome_bind] in He. injection He as <-.
  assert (used p) as Hup by (intros Hs; by rewrite (to_unused _ Hok1 _ _ Hp Hs) in Hpar).
  assert (init_proc pm1 ≠ Some me) as Hni.
  { destruct (to_init _ Hok1) as (i & q & Hi & Hq & _ & Hnp). rewrite Hi. intros [= ->]. congruence. }
  set (pm2 := pm_wake_up (proc_addr par) pm1). pose proof (wake_ok (proc_addr par) pm1 Hok1) as Hok2. fold pm2 in Hok2.
  assert (procs pm2 !! me = Some (wake_one (proc_addr par) p)) as Hp2 by (unfold pm2; simpl; by rewrite list_lookup_fmap, Hp).
  destruct (wake_mild (proc_addr par) p) as (Hpid & Hpa & Hst & _).
  rewrite (upd_proc_const _ _ _ _ Hp2). apply slot_ok; try done.
  - intros n q Hn. unfold pm2 in Hn. simpl in Hn. rewrite list_lookup_fmap in Hn. destruct (procs pm1 !! n) as [q0|] eqn:Hq0; [|done].
    injection Hn as <-. destruct (wake_mild (proc_addr par) q0) as (_ & -> & _). by apply (Hno ltac:(congruence) n q0).
  - cbn. rewrite Hpa, Hpar. intros j [= <-]. split.
    + intros ->. apply (Hno ltac:(congruence) me p Hp). done.
    + apply (to_parent _ Hok2 me _ par Hp2). by rewrite Hpa.
  - intros _. cbn. rewrite Hpid. split; [by apply (to_pid_range _ Hok1 me p)|].
    intros n q Hn Hq Huq Heq. apply Hn. apply (to_pid _ Hok2 n me q _ Hq Hp2 Huq).
    + unfold used. by rewrite <- Hst.
    + by rewrite Hpid.
Qed.

Lemma wait_ok {H} {PF : PageFree H} me addr pm s r pm' (s' : pstate H) :
  table_ok pm → wait_scan me addr pm s = Done (r, pm', s') → table_ok pm'.
Proof.
  intros Hok Hw. unfold wait_scan in Hw. destruct (get_proc me pm) as [my_proc| | |]; try done. cbn [mbind outcome_bind] in Hw.
  set (body := λ index have_kids, p ← get_proc (Z.to_nat index) pm; _) in Hw.
  assert (∀ i b x, body i b = Done (inl x) → table_ok x.1.2) as Hb.
  { intros i b x. unfold body, get_proc. destruct (procs pm !! Z.to_nat i) as [p|] eqn:Hp; [|done]. cbn [unwrap mbind outcome_bind].
    case_bool_decide; [|done]. case_decide as Hs; [|done]. destruct (p_pagetable (pdata p)) as [pt|] eqn:Hpt; [|done].
    cbn [unwrap mbind outcome_bind]. destruct (if addr =? 0 then _ else _) as [[[u|e] m1]| | |]; try done; cbn [mbind outcome_bind];
      [|intros Hx; injection Hx as <-; exact Hok].
    unfold free_proc. destruct (p_trapframe (pdata p) =? 0) eqn:Htf.
    - cbn [mbind outcome_bind]. intros Hx. injection Hx as <-. cbn. apply mild_ok; [|done]. intros p' Hp'. rewrite Hp in Hp'. injection Hp' as <-. apply mild_refl.
    - cbn [p_pagetable set_trapframe]. rewrite Hpt. destruct (proc_free_pagetable pt _ _); try done. cbn [mbind outcome_bind].
      destruct (drop_table pt _); try done. cbn [mbind outcome_bind]. intros Hx. injection Hx as <-. cbn.
      apply slot_ok; try done.
      + intros Hi. destruct (to_init _ Hok) as (k & q & Hk & Hq & [_ Ha] & _). rewrite Hk in Hi. injection Hi as ->.
        rewrite Hp in Hq. injection Hq as <-. done.
      + intros n q Hq Hpar. destruct (to_parent _ Hok n q _ Hq Hpar) as (z & Hz & [_ Hz']). rewrite Hp in Hz. injection Hz as <-. done. }
  destruct (for_range_until 0 _ body false) as [[x|b]| | |] eqn:E; try done; cbn [mbind outcome_bind] in Hw.
  - destruct (for_range_until_inl _ _ _ _ _ E) as (i & b & Hx). injection Hw as ->. by apply Hb in Hx.
  - destruct (negb b || _); injection Hw as <- <- <-; done.
Qed.
End Table.

Lemma pid_ok pm n : table_ok pm → last_pid pm ≤ n → table_ok (mkPm (procs pm) (init_proc pm) n).
Proof.
  intros [Hl Hi Hu Hr Hp Hun] Hn. split; cbn; try done. intros i p Hpi Hup. pose proof (Hr i p Hpi Hup). lia.
Qed.

(** Nobody is the child of a process that does not live. *)
Lemma dead_childless pm i p n q :
  table_ok pm → procs pm !! i = Some p → ¬ alive p → procs pm !! n = Some q → p_parent (pdata q) ≠ Some i.
Proof.
  intros Hok Hi Hd Hn Hpar. destruct (to_parent _ Hok n q i Hn Hpar) as (z & Hz & Ha). rewrite Hi in Hz. by injection Hz as <-.
Qed.

Lemma init_alive pm i p : table_ok pm → procs pm !! i = Some p → ¬ alive p → init_proc pm ≠ Some i.
Proof.
  intros Hok Hi Hd Heq. destruct (to_init _ Hok) as (k & q & Hk & Hq & Ha & _). rewrite Hk in Heq. injection Heq as ->.
  rewrite Hi in Hq. by injection Hq as <-.
Qed.

Section Alloc.
Context {BFl : BitFlags} {H : Type} {PS : PageSource H}.

Lemma proc_pagetable_parent tr x s x' (s' : pstate H) :
  proc_pagetable tr x s = Done (x', s') → p_parent x' = p_parent x.
Proof.
  unfold proc_pagetable. destruct (uvmcreate s) as [[pt s1]| | |]; try done. cbn [mbind outcome_bind].
  destruct (map pt TRAMPOLINE tr PGSIZE _ s1) as [[ok s2]| | |]; try done. cbn [mbind outcome_bind].
  destruct (if negb ok then _ else _) as [m| | |]; try done. cbn [mbind outcome_bind].
  destruct (map pt TRAPFRAME _ PGSIZE _ (with_mem s2 m)) as [[ok' s3]| | |]; try done. cbn [mbind outcome_bind].
  destruct (if negb ok' then _ else _); try done. cbn [mbind outcome_bind]. by intros [= <- _].
Qed.

Lemma alloc_proc_ok tr fr pm s r pm' (s' : pstate H) :
  table_ok pm → alloc_proc tr fr pm s = Done (r, pm', s') →
  table_ok pm' ∧ last_pid pm' = last_pid pm + 1 ∧ init_proc pm' = init_proc pm ∧
  match r with
  | None => procs pm' = procs pm ∧ ∀ i p, procs pm !! i = Some p → used p
  | Some i => ∃ p0 p, procs pm !! i = Some p0 ∧ p_state (meta p0) = UNUSED ∧ procs pm' = <[i := p]> (procs pm) ∧
      p_state (meta p) = ALLOCATED ∧ p_pid (meta p) = last_pid pm + 1 ∧ p_parent (pdata p) = None
  end.
Proof.
  intros Hok. unfold alloc_proc, alloc_pid. destruct (uadd (last_pid pm) 1) as [n| | |] eqn:En; try done.
  apply chk_Done in En as [-> Hn]. cbn [mbind outcome_bind procs].
  assert (table_ok (mkPm (procs pm) (init_proc pm) (last_pid pm + 1))) as Hok1 by (apply pid_ok; [done|lia]).
  destruct (list_find _ (procs pm)) as [[i p0]|] eqn:Ef.
  - apply list_find_Some in Ef as (Hi & Hs & _).
    destruct (new_zeroed s) as [[tf s1]| | |]; try done. cbn [mbind outcome_bind].
    destruct (proc_pagetable tr _ s1) as [[d s2]| | |] eqn:Ep; try done. cbn [mbind outcome_bind].
    destruct (init_context fr d) as [d'| | |] eqn:Ec; try done. cbn [mbind outcome_bind]. intros Hx. injection Hx as <- <- <-.
    assert (p_parent d' = None) as Hpar.
    { unfold init_context in Ec. destruct (uadd (kstack d) PGSIZE); try done. cbn in Ec. injection Ec as <-. cbn.
      rewrite (proc_pagetable_parent _ _ _ _ _ Ep). cbn. by apply (to_unused _ Hok i p0). }
    assert (¬ alive p0) as Hdead by (intros [Ha _]; done).
    split; [|split; [done|split; [done|]]].
    + apply slot_ok; try done.
      * by apply (init_alive pm i p0).
      * intros n q Hq. by apply (dead_childless pm i p0 n q).
      * intros j. cbn. by rewrite Hpar.
      * intros _. cbn. split.
        { destruct (to_init _ Hok) as (k & q & _ & Hq & Ha & _). pose proof (to_pid_range _ Hok k q Hq (alive_used q Ha)). lia. }
        intros n q Hn' Hq Huq. pose proof (to_pid_range _ Hok n q Hq Huq). lia.
    + exists p0, (mkProc (mkPMeta ALLOCATED (p_channel (meta p0)) (p_killed (meta p0)) (p_xstate (meta p0)) (last_pid pm + 1)) d').
      split; [done|]. split; [done|]. split; [|by split_and!]. cbn. apply list_eq. intros j. rewrite list_lookup_alter.
      case_decide as Hd; [subst j|by rewrite list_lookup_insert_ne]. rewrite Hi, list_lookup_insert_eq; [done|].
      by apply lookup_lt_Some in Hi.
  - intros Hx. injection Hx as <- <- <-. split; [done|]. split; [done|]. split; [done|]. split; [done|].
    intros i p Hi Hs. apply list_find_None in Ef. by apply (Forall_lookup_1 _ _ _ _ Ef Hi).
Qed.

Lemma fork_ok tr fr pm s pm' (s' : pstate H) me child p files cwd :
  table_ok pm → procs pm !! me = Some p → alive p → alloc_proc tr fr pm s = Done (Some child, pm', s') →
  table_ok (fork_child me child files cwd (pdata p) pm').
Proof.
  intros Hok Hme Ha Hal. destruct (alloc_proc_ok _ _ _ _ _ _ _ Hok Hal) as (Hok' & Hlast & Hinit & p0 & pc & Hp0 & Hs0 & Hprocs & Hsc & Hpid & Hnp).
  assert (child ≠ me) as Hne by (intros ->; rewrite Hme in Hp0; injection Hp0 as <-; by destruct Ha).
  assert (procs pm' !! child = Some pc) as Hc by (rewrite Hprocs; apply list_lookup_insert_eq; by apply lookup_lt_Some in Hp0).
  assert (procs pm' !! me = Some p) as Hme' by (rewrite Hprocs, list_lookup_insert_ne; done).
  unfold fork_child. rewrite (upd_proc_const _ _ _ _ Hc).
  assert (init_proc pm' ≠ Some child) as Hni by (rewrite Hinit; apply (init_alive pm child p0); [done|done|by intros [? _]]).
  apply slot_ok; try done.
  - intros n q Hq Hpar. rewrite Hprocs in Hq. destruct (decide (n = child)) as [->|Hn].
    + rewrite list_lookup_insert_eq in Hq by (by apply lookup_lt_Some in Hp0). injection Hq as <-. congruence.
    + rewrite list_lookup_insert_ne in Hq by done. by apply (dead_childless pm child p0 n q Hok Hp0 ltac:(by intros [? _]) Hq).
  - intros j. cbn. intros [= <-]. split; [done|]. exists p. done.
  - intros _. cbn. split; [apply (to_pid_range _ Hok' child pc Hc); unfold used; by rewrite Hsc|].
    intros n q Hn Hq Huq Heq. apply Hn. apply (to_pid _ Hok' n child q pc Hq Hc Huq); [unfold used; by rewrite Hsc|done].
Qed.
End Alloc.

(** ** The transition system *)

Section System.
Context {BFl : BitFlags} {H : Type} {PS : PageSource H} {PF : PageFree H} (proc_addr : nat → Z) (tr fr : Z).

(** A process that runs does something, an interrupt wakes sleepers, or a hart
    picks the next process. *)
Inductive pm_step (pm : ProcManager) : ProcManager → Prop :=
| st_schedule : pm_step pm (schedule pm).2
| st_wake c : pm_step pm (pm_wake_up c pm)
| st_yield i p : procs pm !! i = Some p → p_state (meta p) = RUNNING → pm_step pm (yielding i pm)
| st_sleep i p c : procs pm !! i = Some p → p_state (meta p) = RUNNING → pm_step pm (proc_sleep i c pm)
| st_resume i p : procs pm !! i = Some p → p_state (meta p) = RUNNING → pm_step pm (proc_resume i pm)
| st_kill pid r pm' : kill pid pm = Done (r, pm') → pm_step pm pm'
| st_exit i p status pm' :
    procs pm !! i = Some p → p_state (meta p) = RUNNING → exit_zombie proc_addr i status pm = Done pm' → pm_step pm pm'
| st_wait i addr (s : pstate H) r pm' s' : wait_scan i addr pm s = Done (r, pm', s') → pm_step pm pm'
| st_fork i p child files cwd (s : pstate H) pm' s' :
    procs pm !! i = Some p → p_state (meta p) = RUNNING → alloc_proc tr fr pm s = Done (Some child, pm', s') →
    pm_step pm (fork_child i child files cwd (pdata p) pm')
| st_alloc_full (s : pstate H) pm' s' : alloc_proc tr fr pm s = Done (None, pm', s') → pm_step pm pm'.

Lemma step_ok pm pm' : table_ok pm → pm_step pm pm' → table_ok pm'.
Proof.
  intros Hok Hs. destruct Hs as [|c|i p Hi Hr|i p c Hi Hr|i p Hi Hr|pid r pm' E|i p st pm' Hi Hr E|i addr s r pm' s' E|i p ch fs cwd s pm' s' Hi Hr E|s pm' s' E].
  - by apply schedule_ok.
  - by apply wake_ok.
  - apply mild_ok; [|done]. intros p' Hp'. rewrite Hi in Hp'. injection Hp' as <-. by apply state_mild; [apply running_alive|..].
  - apply mild_ok; [|done]. intros p' Hp'. rewrite Hi in Hp'. injection Hp' as <-. unfold mild, alive. cbn. rewrite Hr. by split_and!.
  - apply mild_ok; [|done]. intros p' _. by apply meta_mild.
  - by apply (kill_ok pid pm r).
  - apply (exit_ok proc_addr i st pm); [done| |done]. exists p. split; [done|]. by apply alive_used, running_alive.
  - by apply (wait_ok i addr pm s r pm' s').
  - by apply (fork_ok tr fr pm s pm' s'); [| |apply running_alive|].
  - by apply (alloc_proc_ok tr fr pm s None pm' s').
Qed.

(** C20: under the operations of the process manager (scheduling, wake-ups,
    yielding, sleeping, [kill], [exit], [wait] and [fork]), in any order, the
    process table stays well formed: the first process lives, processes in use
    have different numbers, and the parent of every process is alive, so that a
    child that exits can always be collected.  The [exit] of [process/mod.rs],
    which a killed process calls, is not among them: it leaves its children with
    a dead parent. *)
Theorem table_invariant pm pm' : table_ok pm → rtc pm_step pm pm' → table_ok pm'.
Proof. intros Hok Hr. induction Hr as [|pm pm1 pm2 Hs _ IH]; [done|]. apply IH. by apply (step_ok pm). Qed.
End System.

(** The table after boot: the first process is runnable. *)
Definition boot_table : ProcManager :=
  mkPm (mkProc (mkPMeta RUNNABLE 0 false 0 1) new_pdata :: replicate 63 new_process) (Some 0%nat) 1.

Lemma boot_table_ok : table_ok boot_table.
Proof.
  assert (∀ i p, procs boot_table !! i = Some p → (i = 0%nat ∧ p = mkProc (mkPMeta RUNNABLE 0 false 0 1) new_pdata) ∨ p = new_process) as Hinv.
  { intros [|i] p Hi; [left; by injection Hi as <-|right]. change (replicate 63 new_process !! i = Some p) in Hi. by apply lookup_replicate in Hi as [-> _]. }
  split.
  - done.
  - eexists 0%nat, _. split; [done|]. split; [done|]. by split.
  - intros i j p q Hp Hq Hup Huq _. apply Hinv in Hp as [[-> _]| ->]; [|by destruct Hup].
    by apply Hinv in Hq as [[-> _]| ->]; [|destruct Huq].
  - intros i p Hp Hup. apply Hinv in Hp as [[-> ->]| ->]; [cbn; lia|by destruct Hup].
  - intros i p j Hp. by apply Hinv in Hp as [[_ ->]| ->].
  - intros i p Hp. by apply Hinv in Hp as [[_ ->]| ->].
Defined.

(** The first process runs and forks; the child is scheduled. *)
Definition demo_running : ProcManager := (schedule boot_table).2.
Definition demo_alloc : outcome (option nat * ProcManager * pstate Z) :=
  alloc_proc (BFl := bit_flags_std) 0x1000 0 demo_running (mkP (λ _, 0) 0x8000).

Lemma demo_alloc_done : match demo_alloc with Done (Some 1%nat, _, _) => true | _ => false end = true.
Proof. by vm_compute. Qed.

Lemma table_invariant_witness :
  ∃ pm s, demo_alloc = Done (Some 1%nat, pm, s) ∧ table_ok (schedule (fork_child 0 1 [] None new_pdata pm)).2.
Proof.
  pose proof demo_alloc_done as Hd. destruct demo_alloc as [[[[[|[|?]]|] pm] s]| | |] eqn:E; try discriminate Hd. exists pm, s. split; [reflexivity|].
  apply (@table_invariant bit_flags_std Z _ (λ _ h, Done h) (λ i, Z.of_nat i) 0x1000 0 boot_table); [apply boot_table_ok|].
  apply rtc_l with demo_running; [apply st_schedule|].
  apply rtc_l with (fork_child 0 1 [] None new_pdata pm); [|apply rtc_once, st_schedule].
  eapply (st_fork _ _ _ _ 0%nat (mkProc (mkPMeta RUNNING 0 false 0 1) new_pdata) 1%nat [] None (mkP (λ _, 0) 0x8000)); [reflexivity|reflexivity|exact E].
Defined.

(** the scheduler runs only processes that are ready: the process it
    switches to was runnable before, none with a smaller number was, and no other
    process changes. *)
Theorem schedule_correct pm :
  match schedule pm with
  | (Some i, pm') => ∃ p, procs pm !! i = Some p ∧ p_state (meta p) = RUNNABLE ∧
      (∀ j q, (j < i)%nat → procs pm !! j = Some q → p_state (meta q) ≠ RUNNABLE) ∧
      (∃ p', procs pm' = <[i := p']> (procs pm) ∧ p_state (meta p') = RUNNING ∧ p_pid (meta p') = p_pid (meta p) ∧ pdata p' = pdata p)
  | (None, pm') => pm' = pm ∧ ∀ j q, procs pm !! j = Some q → p_state (meta q) ≠ RUNNABLE
  end.
Proof.
  unfold schedule, seek_runnable. destruct (list_find _ _) as [[i p]|] eqn:E.
  - apply list_find_Some in E as (Hi & Hs & Hmin). exists p. split; [done|]. split; [done|]. split; [intros j q Hj Hq; by apply (Hmin j q)|].
    exists (upd_meta (set_state RUNNING) (upd_meta (set_state ALLOCATED) p)). split; [|done].
    apply list_eq. intros j. unfold upd_proc. simpl. rewrite !list_lookup_alter. case_decide as Hd; [subst j|].
    + rewrite decide_True by done. rewrite Hi. cbn. rewrite list_lookup_insert_eq; [done|]. by apply lookup_lt_Some in Hi.
    + by rewrite list_lookup_insert_ne.
  - split; [done|]. intros j q Hq Hs. apply list_find_None in E. by apply (Forall_lookup_1 _ _ _ _ E Hq).
Qed.
