(* ===== verification/Kernel.v ===== *)
(** * The kernel's state

    The components together: process table, memory, open files, inode cache,
    disk, pipes and clock; the copies of [memory/mod.rs] between the kernel and
    the current process; reference counting of open files ([Arc]); the parts of
    [process/manager.rs] and [process/process.rs] that reach across components.

    [me] is the process the calling hart runs.  [kbuf] is the address of the
    kernel's buffer in a copy: blocks and local variables are not part of the
    modelled memory, so their bytes are laid there. *)

From Stdlib Require Import ZArith Lia.
From stdpp Require Import base gmap strings numbers list.
From S2P Require Import Prelude Address Pte PhysMem PageTable Bytes Bio DiskLayout Log Bitmap Inode Path File Cpu Proc.

Local Open Scope Z_scope.

(** The bytes at an address. *)
Definition load_bytes (m : mem) (a n : Z) : list Z := (λ i, read_byte m (a + i)) <$> seqZ 0 n.

(** [copy_from_kernel] and [copy_to_kernel] with the page table of the current
    process. *)
Definition user_copier (pt : option Z) (kbuf : Z) : Copier mem := {|
  copy_from_kernel is_user dst bytes m :=
    if (is_user : bool) then
      p ← unwrap unwrap_none pt;
      copy_out p dst kbuf (Z.of_nat (length bytes)) (store_bytes m kbuf bytes)
    else Done (Ok tt, store_bytes m dst bytes);
  copy_to_kernel is_user src len m :=
    if (is_user : bool) then
      p ← unwrap unwrap_none pt;
      '(r, m) ← copy_in p kbuf src len m;
      match r with
      | Ok _ => Done (Ok (load_bytes m kbuf len), m)
      | Err e => Done (Err e, m)
      end
    else Done (Ok (load_bytes m src len), m);
|}.

Section Kernel.
Context {D : Type} {BD : BlockDevice D} {BF : BitField} {BFl : BitFlags} {H : Type} {PS : PageSource H} {PF : PageFree H}.

Record kernel := mkK {
  k_pm : ProcManager;
  k_ps : pstate H;
  k_files : gmap Z (Z * VFile);
  k_next : Z;
  k_ic : InodeCache;
  k_d : dstate D;
  k_pipes : gmap Z PipeGuard;
  k_ticks : Z;
}.

Definition with_pm (k : kernel) (pm : ProcManager) : kernel :=
  mkK pm (k_ps k) (k_files k) (k_next k) (k_ic k) (k_d k) (k_pipes k) (k_ticks k).
Definition with_ps (k : kernel) (s : pstate H) : kernel :=
  mkK (k_pm k) s (k_files k) (k_next k) (k_ic k) (k_d k) (k_pipes k) (k_ticks k).
Definition with_kmem (k : kernel) (m : mem) : kernel := with_ps k (with_mem (k_ps k) m).
Definition with_arcs (k : kernel) (fs : gmap Z (Z * VFile)) (n : Z) : kernel :=
  mkK (k_pm k) (k_ps k) fs n (k_ic k) (k_d k) (k_pipes k) (k_ticks k).
Definition with_ifs (k : kernel) (ic : InodeCache) (d : dstate D) : kernel :=
  mkK (k_pm k) (k_ps k) (k_files k) (k_next k) ic d (k_pipes k) (k_ticks k).
Definition with_ticks (k : kernel) (n : Z) : kernel :=
  mkK (k_pm k) (k_ps k) (k_files k) (k_next k) (k_ic k) (k_d k) (k_pipes k) n.

Definition kmem (k : kernel) : mem := pmem (k_ps k).

Context (me : nat) (proc_addr : nat → Z) (kbuf log_chan : Z).

Definition my_proc (k : kernel) : outcome Process := get_proc me (k_pm k).
Definition upd_me (f : Process → Process) (k : kernel) : kernel := with_pm k (upd_proc me f (k_pm k)).
Definition upd_data (f : ProcData → ProcData) (k : kernel) : kernel := upd_me (λ p, with_pdata p (f (pdata p))) k.

(** [LOG.begin_op] and [LOG.end_op]. *)
Definition k_begin_op (k : kernel) : outcome kernel :=
  r ← begin_op (d_log (k_d k));
  match r with
  | None => wait_forever
  | Some l => Done (with_ifs k (k_ic k) (mkD (d_sb (k_d k)) l (d_b (k_d k))))
  end.
Definition k_end_op (k : kernel) : outcome kernel :=
  '(l, b, pm) ← end_op log_chan (d_log (k_d k)) (d_b (k_d k)) (k_pm k);
  Done (with_pm (with_ifs k (k_ic k) (mkD (d_sb (k_d k)) l b)) pm).

(** Operations of the inode cache. *)
Definition k_put (i : Inode) (k : kernel) : outcome kernel :=
  '(ic, d) ← put i (k_ic k) (k_d k);
  Done (with_ifs k ic d).
Definition k_lock (i : Inode) (k : kernel) : outcome (InodeData * kernel) :=
  '(g, ic, d) ← lock i (k_ic k) (k_d k);
  Done (g, with_ifs k ic d).
Definition k_unlock (i : Inode) (g : InodeData) (k : kernel) : kernel :=
  with_ifs k (unlock (i_index i) g (k_ic k)) (k_d k).
Definition k_namei (path : list Z) (k : kernel) : outcome (option Inode * kernel) :=
  p ← my_proc k;
  '(r, ic, d) ← namei path (p_cwd (pdata p)) (k_ic k) (k_d k);
  Done (r, with_ifs k ic d).
Definition k_namei_parent (path name : list Z) (k : kernel) : outcome (option Inode * list Z * kernel) :=
  p ← my_proc k;
  '(r, name, ic, d) ← namei_parent path name (p_cwd (pdata p)) (k_ic k) (k_d k);
  Done (r, name, with_ifs k ic d).
Definition k_create (path : list Z) (t : InodeType) (maj min : Z) (k : kernel) : outcome (result Inode * kernel) :=
  p ← my_proc k;
  '(r, ic, d) ← create path t maj min (p_cwd (pdata p)) (k_ic k) (k_d k);
  Done (r, with_ifs k ic d).
Definition k_update (g : InodeData) (k : kernel) : outcome kernel :=
  d ← update g (k_d k);
  Done (with_ifs k (k_ic k) d).

(** ** Open files *)

(** The last reference to an [Inode] handle inside a file. *)
Definition drop_vfile (f : VFile) (k : kernel) : outcome kernel :=
  match f_inode f with
  | Some i => k_put i k
  | None => Done k
  end.

(** [VFile::clone]. *)
Definition clone_vfile (f : VFile) (k : kernel) : outcome (VFile * kernel) :=
  match f_inode f with
  | Some i =>
      '(i, ic) ← dup i (k_ic k);
      Done (mkVFile (ftype f) (readable f) (writeable f) (f_pipe f) (Some i) (f_offset f) (f_major f), with_ifs k ic (k_d k))
  | None => Done (f, k)
  end.

(** [Arc::new], [Arc::clone] and [Drop for Arc]. *)
Definition arc_new (f : VFile) (k : kernel) : Z * kernel :=
  (k_next k, with_arcs k (<[k_next k := (1, f)]> (k_files k)) (k_next k + 1)).
Definition arc_get (a : Z) (k : kernel) : outcome (Z * VFile) :=
  match k_files k !! a with Some x => Done x | None => UB "use of a file after it was freed" end.
Definition arc_clone (a : Z) (k : kernel) : outcome kernel :=
  '(n, f) ← arc_get a k;
  Done (with_arcs k (<[a := (n + 1, f)]> (k_files k)) (k_next k)).
Definition arc_drop (a : Z) (k : kernel) : outcome kernel :=
  '(n, f) ← arc_get a k;
  if n =? 1 then drop_vfile f (with_arcs k (delete a (k_files k)) (k_next k))
  else Done (with_arcs k (<[a := (n - 1, f)]> (k_files k)) (k_next k)).

(** [open_files[fd]]. *)
Definition file_at (fd : Z) (k : kernel) : outcome (option Z) :=
  p ← my_proc k;
  unwrap "index out of bounds" (open_files (pdata p) !! Z.to_nat fd).
Definition set_file (fd : Z) (a : option Z) (k : kernel) : kernel :=
  upd_data (λ x, set_files (<[Z.to_nat fd := a]> (open_files x)) x) k.
(** [open_files[fd].as_ref().unwrap()]. *)
Definition the_file (fd : Z) (k : kernel) : outcome (Z * VFile) :=
  o ← file_at fd k;
  a ← unwrap unwrap_none o;
  '(_, f) ← arc_get a k;
  Done (a, f).
(** [open_files[fd].take()], and the end of what it held. *)
Definition take_file (fd : Z) (k : kernel) : outcome kernel :=
  o ← file_at fd k;
  let k := set_file fd None k in
  match o with
  | Some a => arc_drop a k
  | None => Done k
  end.

(** [Process::fd_alloc]. *)
Definition fd_alloc (f : VFile) (k : kernel) : outcome (result Z * kernel) :=
  p ← my_proc k;
  match find_unallocated_fd (pdata p) with
  | Err e => Done (Err e, k)
  | Ok fd =>
      '(f, k) ← clone_vfile f k;
      let '(a, k) := arc_new f k in
      Done (Ok fd, set_file fd (Some a) k)
  end.

(** ** Fork and exit *)

(** [open_files.clone_from]: every open file gets another reference. *)
Fixpoint clone_files (fs : list (option Z)) (k : kernel) : outcome kernel :=
  match fs with
  | [] => Done k
  | Some a :: fs => k ← arc_clone a k; clone_files fs k
  | None :: fs => clone_files fs k
  end.

(** [cwd.clone_from]. *)
Definition clone_cwd (c : option Inode) (k : kernel) : outcome (option Inode * kernel) :=
  match c with
  | None => Done (None, k)
  | Some i => '(i, ic) ← dup i (k_ic k); Done (Some i, with_ifs k ic (k_d k))
  end.

(** [Process::fork] as one step, although the code sets the parent of the child
    only after the child is runnable.  The files and the directory of the child that
    [clone_from] would drop are those of a free slot, which [exit] has taken out. *)
Definition fork (trampoline fork_ret : Z) (k : kernel) : outcome (option nat * kernel) :=
  '(r, pm, s) ← alloc_proc trampoline fork_ret (k_pm k) (k_ps k);
  let k := with_ps (with_pm k pm) s in
  match r with
  | None => Done (None, k)
  | Some child =>
      p ← my_proc k;
      c ← get_proc child (k_pm k);
      pt ← unwrap unwrap_none (p_pagetable (pdata p));
      cpt ← unwrap unwrap_none (p_pagetable (pdata c));
      '(r, s) ← uvm_copy pt cpt (p_size (pdata p)) (k_ps k);
      match r with
      | Err _ => Panic "fork: Fail to copy data from parent process."
      | Ok _ =>
          let tf := p_trapframe (pdata p) in
          let ctf := p_trapframe (pdata c) in
          let m := copy_bytes (pmem s) ctf tf Tf.TRAPFRAME_SIZE in
          let m := Tf.put m ctf Tf.a0 0 in
          let k := with_ps k (with_mem s m) in
          k ← clone_files (open_files (pdata p)) k;
          '(cwd, k) ← clone_cwd (p_cwd (pdata p)) k;
          Done (Some child, with_pm k (fork_child me child (open_files (pdata p)) cwd (pdata p) (k_pm k)))
      end
  end.

(** Closing all files, in the order of their descriptors. *)
Definition close_all (k : kernel) : outcome kernel :=
  p ← my_proc k;
  for_range 0 (Z.of_nat (length (open_files (pdata p)))) (λ fd k, take_file fd k) k.

(** The current directory is given up after the operation has ended. *)
Definition drop_cwd (k : kernel) : outcome kernel :=
  p ← my_proc k;
  match p_cwd (pdata p) with
  | Some i => k_put i (upd_data (set_cwd None) k)
  | None => Done k
  end.

(** [ProcManager::exit], up to the switch to the scheduler. *)
Definition exit (status : Z) (k : kernel) : outcome kernel :=
  k ← close_all k;
  k ← k_begin_op k;
  k ← k_end_op k;
  k ← drop_cwd k;
  pm ← exit_zombie proc_addr me status (k_pm k);
  Done (with_pm k pm).

(** [exit] of [process/mod.rs], which a killed process calls: its children keep
    their parent. *)
Definition exit_killed (status : Z) (k : kernel) : outcome kernel :=
  k ← close_all k;
  let k := upd_data (set_files (replicate (Z.to_nat NFILE) None)) k in
  k ← k_begin_op k;
  k ← k_end_op k;
  k ← drop_cwd k;
  p ← my_proc k;
  parent ← unwrap unwrap_none (p_parent (pdata p));
  let pm := pm_wake_up (proc_addr parent) (k_pm k) in
  Done (with_pm k (upd_proc me (upd_meta (λ x, mkPMeta ZOMBIE (p_channel x) (p_killed x) (status mod 2 ^ 64) (p_pid x))) pm)).

(** [ProcManager::user_init]: the first process.  [initcode] is its program. *)
Definition INITCODE : list Z :=
  [0x17; 0x05; 0x00; 0x00; 0x13; 0x05; 0x05; 0x02; 0x97; 0x05; 0x00; 0x00; 0x93; 0x85; 0x05; 0x02;
   0x9d; 0x48; 0x73; 0x00; 0x00; 0x00; 0x89; 0x48; 0x73; 0x00; 0x00; 0x00; 0xef; 0xf0; 0xbf; 0xff;
   0x2f; 0x69; 0x6e; 0x69; 0x74; 0x00; 0x00; 0x01; 0x20; 0x00; 0x00; 0x00; 0x00; 0x00; 0x00; 0x00;
   0x00; 0x00; 0x00].

Definition INITNAME : list Z := [105; 110; 105; 116; 110; 97; 109; 101; 0].
Definition ROOTIPATH : list Z := [SLASH; 0].

Definition pm_user_init (trampoline fork_ret : Z) (k : kernel) : outcome kernel :=
  '(r, pm, s) ← alloc_proc trampoline fork_ret (k_pm k) (k_ps k);
  i ← unwrap "Fail to get unused process" r;
  p ← get_proc i pm;
  pt ← unwrap unwrap_none (p_pagetable (pdata p));
  s ← uvm_init pt INITCODE s;
  let x := set_psize PGSIZE (pdata p) in
  let m := Tf.put (pmem s) (p_trapframe x) Tf.epc 0 in
  let m := Tf.put m (p_trapframe x) Tf.sp (4 * PGSIZE) in
  x ← set_name INITNAME x;
  let k := with_ps (with_pm k pm) (with_mem s m) in
  '(r, ic, d) ← namei ROOTIPATH None (k_ic k) (k_d k);
  root ← unwrap "cannot find root inode" r;
  let p := mkProc (set_state RUNNABLE (meta p)) (set_cwd (Some root) x) in
  let pm := upd_proc i (λ _, p) (k_pm k) in
  Done (with_ifs (with_pm k (mkPm (procs pm) (Some i) (last_pid pm))) ic d).
End Kernel.
