(* ===== verification/Exec.v ===== *)
(** * Loading a program

    Models [process/elf.rs]: the headers, [load_seg] and [exec].  The headers
    are read into local structures, segments into the pages of the new page
    table. *)

From Stdlib Require Import ZArith Lia.
From stdpp Require Import base gmap strings numbers list.
From S2P Require Import Prelude Address Pte PhysMem PageTable Bytes Bio DiskLayout Log Bitmap Inode Path File Cpu Proc Kernel.

Local Open Scope Z_scope.

Definition ELF_MAGIC : Z := 0x464C457F.
Definition ELF_PROG_LOAD : Z := 1.

(** The fields [exec] uses, at their offsets. *)
Record ElfHeader := mkElf { e_magic : Z; e_entry : Z; e_phoff : Z; e_phnum : Z }.
Definition ELF_HEADER_SIZE : Z := 64.
Definition get_u64 (b : block) (off : Z) : Z := le_decode (get_bytes b off 8).
Definition decode_elf (b : block) : ElfHeader := mkElf (get_u32 b 0) (get_u64 b 24) (get_u64 b 32) (get_u16 b 56).

Record ProgHeader := mkPh { ph_type : Z; ph_off : Z; ph_vaddr : Z; ph_file_size : Z; ph_mem_size : Z }.
Definition PROG_HEADER_SIZE : Z := 56.
Definition decode_ph (b : block) : ProgHeader :=
  mkPh (get_u32 b 0) (get_u64 b 8) (get_u64 b 16) (get_u64 b 32) (get_u64 b 40).

Definition align_sp (sp : Z) : outcome Z :=
  r ← urem sp 16;
  usub sp r.

Section Exec.
Context {D : Type} {BD : BlockDevice D} {BF : BitField} {BFl : BitFlags} {H : Type} {PS : PageSource H} {PF : PageFree H}.
Context (me : nat) (proc_addr : nat → Z) (kbuf log_chan : Z).

Abbreviation kernel := (@kernel D H).

(** [load_seg]. *)
Definition load_seg (pt va : Z) (g : InodeData) (offset size : Z) (d : dstate D) (m : mem) :
    outcome (result unit * InodeData * dstate D * mem) :=
  if negb (is_page_aligned va) then Panic "load_seg(): va must be page aligned."
  else
    while_fuel (S (S (Z.to_nat (size / PGSIZE)))) (λ '(copy_size, va, g, d, m),
      if copy_size <? size then
        match pgt_translate pt va m with
        | None => Panic "load_seg(): address should exist."
        | Some pa =>
            n ← usub size copy_size;
            let count := if n <? PGSIZE then n else PGSIZE in
            off ← uadd offset copy_size;
            '(r, g, d, m) ← inode_read (CP := user_copier None kbuf) g false pa (off mod 2 ^ 32) (count mod 2 ^ 32) d m;
            match r with
            | Err _ => Done (inl (Err "load_seg: Fail to read inode", g, d, m))
            | Ok _ =>
                copy_size ← uadd copy_size PGSIZE;
                va ← add_page va;
                Done (inr (copy_size, va, g, d, m))
            end
        end
      else Done (inl (Ok tt, g, d, m))) (0, va, g, d, m).

(** Reading a structure of [len] bytes from the file into a local one. *)
Definition read_struct (g : InodeData) (off len : Z) (old : list Z) (d : dstate D) :
    outcome (result Z * InodeData * dstate D * list Z) :=
  inode_read g false 0 (off mod 2 ^ 32) len d old.

Definition k_free_pagetable (pt size : Z) (k : kernel) : outcome kernel :=
  m ← proc_free_pagetable pt size (kmem k);
  Done (with_kmem k m).

(** One program header: [inr] goes on with the size of the image, the offset of
    the next header and the header as it was read; [inl] is an error. *)
Definition exec_segment (pt : Z) (inode : Inode) (st : Z * Z * list Z * InodeData * kernel) :
    outcome (string * kernel + (Z * Z * list Z * InodeData * kernel)) :=
  let '(size, off, ph, g, k) := st in
  let fail (msg : string) (size : Z) (g : InodeData) (k : kernel) : outcome (string * kernel + (Z * Z * list Z * InodeData * kernel)) :=
    k ← k_free_pagetable pt size k;
    k ← k_end_op log_chan (k_unlock inode g k);
    Done (inl (msg, k)) in
  '(r, g, d, ph) ← read_struct g off PROG_HEADER_SIZE ph (k_d k);
  let k := with_ifs k (k_ic k) d in
  match r with
  | Err _ =>
      k ← k_end_op log_chan (k_unlock inode g k);
      Done (inl ("exec: Fail to read from inode", k))
  | Ok _ =>
      let h := decode_ph ph in
      if negb (ph_type h =? ELF_PROG_LOAD) then Done (inr (size, off, ph, g, k))
      else if ph_mem_size h <? ph_file_size h then fail "exec: memory size is less than file size." size g k
      else
        top ← uadd (ph_vaddr h) (ph_mem_size h);
        if top <? ph_vaddr h then fail "exec: vaddr + mem_size < vaddr" size g k
        else
          top ← uadd (ph_vaddr h) (ph_mem_size h);
          '(r, s) ← uvm_alloc pt size top (k_ps k);
          let k := with_ps k s in
          match r with
          | None => fail "exec: Fail to uvmalloc." size g k
          | Some size =>
              if negb (ph_vaddr h mod PGSIZE =? 0) then
                k ← k_free_pagetable pt size k;
                k ← k_end_op log_chan k;
                Done (inl ("exec: Programe Header must be integer multiple of PGSIZE. ", k_unlock inode g k))
              else
                '(r, g, d, m) ← load_seg pt (ph_vaddr h) g (ph_off h) (ph_file_size h) (k_d k) (kmem k);
                let k := with_kmem (with_ifs k (k_ic k) d) m in
                match r with
                | Err _ => fail "exec: Fail to load segment. " size g k
                | Ok _ =>
                    off ← uadd off PROG_HEADER_SIZE;
                    Done (inr (size, off, ph, g, k))
                end
          end
  end.

(** The arguments: the strings go to the top of the stack. *)
Definition push_args (pt stack_base size sp : Z) (argv : list Z) (m : mem) :
    outcome (string * mem + (Z * Z * list Z * mem)) :=
  while_fuel (S (S (Z.to_nat MAXARG))) (λ '(argc, sp, user_stack, m),
    a ← unwrap "index out of bounds" (argv !! Z.to_nat argc);
    if a =? 0 then Done (inl (inr (argc, sp, user_stack, m)))
    else if MAXARG <=? argc then
      m ← proc_free_pagetable pt size m;
      Done (inl (inl ("exec: argc is more than MAXARG. ", m)))
    else
      len ← Misc.str_len (Z.to_nat (PGSIZE + 1)) m a;
      n ← uadd len 1;
      sp ← usub sp n;
      sp ← align_sp sp;
      if sp <? stack_base then Done (inl (inl ("User Stack Bomb!", m)))
      else
        '(r, m) ← copy_out pt sp a n m;
        match r with
        | Err _ =>
            m ← proc_free_pagetable pt size m;
            Done (inl (inl ("exec: Fail to copy out.", m)))
        | Ok _ =>
            _ ← unwrap "index out of bounds" (user_stack !! Z.to_nat argc);
            argc' ← uadd argc 1;
            Done (inr (argc', sp, <[Z.to_nat argc := sp]> user_stack, m))
        end) (0, sp, replicate (Z.to_nat MAXARG) 0, m).

(** The bytes of an array of [usize]. *)
Definition encode_u64s (vs : list Z) : list Z := mjoin (le_encode 8 <$> vs).

(** The second half of [exec]: the stack and the new image. *)
Definition exec_stack (pt size : Z) (argv path : list Z) (elf : ElfHeader) (k : kernel) : outcome (result Z * kernel) :=
  p ← my_proc me k;
  let old_size := p_size (pdata p) in
  size ← page_round_up size;
  top ← uadd size (2 * PGSIZE);
  '(r, s) ← uvm_alloc pt size top (k_ps k);
  let k := with_ps k s in
  match r with
  | None =>
      k ← k_free_pagetable pt size k;
      Done (Err "exec: Fail to uvmalloc", k)
  | Some size =>
      guard ← usub size (2 * PGSIZE);
      m ← uvm_clear pt guard (kmem k);
      let sp := size in
      stack_base ← usub sp PGSIZE;
      r ← push_args pt stack_base size sp argv m;
      match r with
      | inl (e, m) => Done (Err e, with_kmem k m)
      | inr (argc, sp, user_stack, m) =>
          _ ← unwrap "index out of bounds" (user_stack !! Z.to_nat argc);
          let user_stack := <[Z.to_nat argc := 0]> user_stack in
          n ← uadd argc 1;
          bytes ← umul n 8;
          sp ← usub sp bytes;
          sp ← align_sp sp;
          k ← (if sp <? stack_base then
                 k ← k_end_op log_chan (with_kmem k m);
                 k ← k_free_pagetable pt size k;
                 Done k
               else Done (with_kmem k m));
          '(r, m) ← copy_out pt sp kbuf bytes (store_bytes (kmem k) kbuf (encode_u64s (take (Z.to_nat n) user_stack)));
          match r with
          | Err _ =>
              m ← proc_free_pagetable pt size m;
              Done (Err "exec: Fail to copy out.", with_kmem k m)
          | Ok _ =>
              p ← my_proc me k;
              let x := pdata p in
              let tf := p_trapframe x in
              let m := Tf.put m tf Tf.a1 sp in
              let exec_name := filter (λ c, c ≠ SLASH) path in
              if Z.of_nat (length exec_name) <? 16 then UB "read beyond the name"
              else
                x ← set_name (take 16 exec_name) x;
                old ← unwrap unwrap_none (p_pagetable x);
                m ← proc_free_pagetable old old_size m;
                s ← drop_table old (with_mem (k_ps k) m);
                let x := set_psize size (set_pagetable (Some pt) x) in
                let m := Tf.put (pmem s) tf Tf.epc (e_entry elf) in
                let m := Tf.put m tf Tf.sp sp in
                Done (Ok argc, with_ps (upd_me me (λ p, with_pdata p x) k) (with_mem s m))
          end
      end
  end.

Definition exec (trampoline : Z) (path argv : list Z) (k : kernel) : outcome (result Z * kernel) :=
  k ← k_begin_op k;
  '(r, k) ← k_namei me path k;
  match r with
  | None => Done (Err "Fail to find executable file", k)
  | Some inode =>
      '(g, k) ← k_lock inode k;
      '(r, g, d, hdr) ← read_struct g 0 ELF_HEADER_SIZE (replicate (Z.to_nat ELF_HEADER_SIZE) 0) (k_d k);
      let k := with_ifs k (k_ic k) d in
      let elf := decode_elf hdr in
      match r with
      | Err _ =>
          k ← k_end_op log_chan (k_unlock inode g k);
          k ← k_put inode k;
          Done (Err "exec: Fail to read elf header.", k)
      | Ok _ =>
          if negb (e_magic elf =? ELF_MAGIC) then
            k ← k_end_op log_chan (k_unlock inode g k);
            k ← k_put inode k;
            Done (Err "exec: Elf magic number is wrong.", k)
          else
            p ← my_proc me k;
            '(pt, s) ← new_pagetable trampoline (pdata p) (k_ps k);
            pt ← unwrap "Fail to alloc pagetable for current process." pt;
            let k := with_ps k s in
            r ← for_range_until 0 (e_phnum elf) (λ _, exec_segment pt inode)
                  (0, e_phoff elf, replicate (Z.to_nat PROG_HEADER_SIZE) 0, g, k);
            match r with
            | inl (msg, k) =>
                k ← k_put inode k;
                s ← drop_table pt (k_ps k);
                Done (Err msg, with_ps k s)
            | inr (size, _, _, g, k) =>
                k ← k_end_op log_chan (k_unlock inode g k);
                '(r, k) ← exec_stack pt size argv path elf k;
                k ← k_put inode k;
                match r with
                | Ok argc => Done (Ok argc, k)
                | Err e => s ← drop_table pt (k_ps k); Done (Err e, with_ps k s)
                end
            end
      end
  end.
End Exec.
