(* ===== verification/Syscall.v ===== *)
(** * System calls

    Models [syscall/]: the transfer of arguments, the calls on processes, the
    calls on files and the dispatch. *)

From Stdlib Require Import ZArith Lia.
From stdpp Require Import base gmap strings numbers list.
From S2P Require Import Prelude Address Pte PhysMem PageTable Bytes Bio DiskLayout Log Bitmap Inode Path File Cpu Proc Kernel Exec.

Local Open Scope Z_scope.

(** * System calls: arguments and processes

    Models [syscall/proc.rs] and the access to arguments of [syscall/mod.rs]. *)

(** What a system call comes to: a value, an error, the process sleeps inside
    of the call, or it has exited. *)
Inductive sysres :=
| SRet (v : Z)
| SErr
| SBlock
| SGone.

Definition of_pres (r : pres) : sysres :=
  match r with PSleep _ => SBlock | PRet (Ok v) => SRet v | PRet (Err _) => SErr end.

Section Calls.
Context {D : Type} {BD : BlockDevice D} {BF : BitField} {BFl : BitFlags} {H : Type} {PS : PageSource H} {PF : PageFree H}.
Context (me : nat) (proc_addr : nat → Z) (kbuf log_chan : Z) (trampoline fork_ret : Z).

Abbreviation kernel := (@kernel D H).

(** [Syscall::arg]. *)
Definition arg (id : Z) (k : kernel) : outcome Z :=
  p ← my_proc me k;
  if (0 <=? id) && (id <=? 5) then Done (Tf.get (kmem k) (p_trapframe (pdata p)) (Tf.a0 + 8 * id))
  else Panic "Unable to obtain parameters".

(** [copy_from_str] into a fresh buffer of [max_len] zero bytes. *)
Definition copy_from_str (addr max_len : Z) (k : kernel) : outcome (result (list Z) * kernel) :=
  p ← my_proc me k;
  pt ← unwrap unwrap_none (p_pagetable (pdata p));
  '(r, m) ← copy_in_str pt kbuf addr max_len (write_bytes (kmem k) kbuf 0 max_len);
  match r with
  | Err e => Done (Err e, with_kmem k m)
  | Ok _ => Done (Ok (load_bytes m kbuf max_len), with_kmem k m)
  end.

(** [copy_form_addr]: the check concerns the first eight bytes. *)
Definition copy_form_addr (addr len : Z) (k : kernel) : outcome (result (list Z) * kernel) :=
  p ← my_proc me k;
  let size := p_size (pdata p) in
  beyond ← (if size <? addr then Done true else e ← uadd addr 8; Done (size <? e));
  if (beyond : bool) then Panic "The address value of the copy exceeds the process."
  else
    pt ← unwrap unwrap_none (p_pagetable (pdata p));
    '(r, m) ← copy_in pt kbuf addr len (kmem k);
    match r with
    | Err e => Done (Err e, with_kmem k m)
    | Ok _ => Done (Ok (load_bytes m kbuf len), with_kmem k m)
    end.

Definition sys_fork (k : kernel) : outcome (sysres * kernel) :=
  '(r, k) ← fork me trampoline fork_ret k;
  match r with
  | None => Done (SErr, k)
  | Some child =>
      c ← get_proc child (k_pm k);
      Done (SRet (p_pid (meta c)), k)
  end.

Definition sys_exit (k : kernel) : outcome (sysres * kernel) :=
  status ← arg 0 k;
  k ← exit me proc_addr log_chan status k;
  Done (SGone, k).

Definition sys_wait (k : kernel) : outcome (sysres * kernel) :=
  addr ← arg 0 k;
  '(r, pm, s) ← wait_scan me addr (k_pm k) (k_ps k);
  let k := with_ps (with_pm k pm) s in
  match r with
  | WaitPid pid => Done (SRet pid, k)
  | WaitErr => Done (SErr, k)
  | WaitSleep => Done (SBlock, with_pm k (proc_sleep me (proc_addr me) (k_pm k)))
  end.

Definition sys_getpid (k : kernel) : outcome (sysres * kernel) :=
  p ← my_proc me k;
  Done (SRet (p_pid (meta p)), k).

Definition sys_sbrk (k : kernel) : outcome (sysres * kernel) :=
  size ← arg 0 k;
  p ← my_proc me k;
  let addr := p_size (pdata p) in
  '(r, p, s) ← grow_proc (isize_of size) p (k_ps k);
  match r with
  | Ok _ => Done (SRet addr, with_ps (upd_me me (λ _, p) k) s)
  | Err _ => Panic "Fail to allocate virtual memory for user"
  end.

(** One round of the loop of [sys_sleep], which began at tick [now_time]. *)
Definition sys_sleep (now_time : Z) (k : kernel) : outcome (sysres * kernel) :=
  time_span ← arg 0 k;
  n ← usub (k_ticks k) now_time;
  if n <? time_span then
    p ← my_proc me k;
    if p_killed (meta p) then Done (SErr, k)
    else Done (SBlock, with_pm k (proc_sleep me 0 (k_pm k)))
  else Done (SRet 0, k).

Definition sys_kill (k : kernel) : outcome (sysres * kernel) :=
  pid ← arg 0 k;
  '(r, pm) ← kill pid (k_pm k);
  match r with
  | Some v => Done (SRet v, with_pm k pm)
  | None => Done (SErr, with_pm k pm)
  end.

(** [clock_intr]. *)
Definition clock_intr (k : kernel) : outcome kernel :=
  n ← uadd (k_ticks k) 1;
  Done (with_ticks k n).
End Calls.

(** * System calls: files

    Models [syscall/file.rs].  [bytes_of] gives the bytes of a [VFile] in
    memory, a layout that Rust does not specify; [slot] is the address of the
    local variable of [Pipe::alloc]. *)

(** [OpenMode] and [OpenMode::mode]. *)
Inductive OpenMode := RDONLY | WRONLY | RDWR | CREATE | TRUNC | INVALID.

Definition open_mode (item : Z) : OpenMode :=
  if item =? 0x000 then RDONLY
  else if item =? 0x001 then WRONLY
  else if item =? 0x002 then RDWR
  else if item =? 0x200 then CREATE
  else if item =? 0x400 then TRUNC
  else INVALID.

(** [as i16]. *)
Definition as_i16 (v : Z) : Z := i16_of (v mod 2 ^ 16).

(** [str::from_utf8]: what a byte string must satisfy. *)
Definition cont (b : Z) : bool := (0x80 <=? b) && (b <=? 0xBF).
Fixpoint utf8_valid (fuel : nat) (bs : list Z) : bool :=
  match fuel, bs with
  | _, [] => true
  | O, _ => false
  | S n, a :: r =>
      if a <=? 0x7F then utf8_valid n r
      else match r with
      | b :: r1 =>
          if (0xC2 <=? a) && (a <=? 0xDF) && cont b then utf8_valid n r1
          else match r1 with
          | c :: r2 =>
              if ((a =? 0xE0) && (0xA0 <=? b) && (b <=? 0xBF) ||
                  ((0xE1 <=? a) && (a <=? 0xEC) || (a =? 0xEE) || (a =? 0xEF)) && cont b ||
                  (a =? 0xED) && (0x80 <=? b) && (b <=? 0x9F)) && cont c then utf8_valid n r2
              else match r2 with
              | d :: r3 =>
                  if ((a =? 0xF0) && (0x90 <=? b) && (b <=? 0xBF) ||
                      (0xF1 <=? a) && (a <=? 0xF3) && cont b ||
                      (a =? 0xF4) && (0x80 <=? b) && (b <=? 0x8F)) && cont c && cont d then utf8_valid n r3
                  else false
              | [] => false
              end
          | [] => false
          end
      | [] => false
      end
  end.

Section Calls.
Context {D : Type} {BD : BlockDevice D} {BF : BitField} {BFl : BitFlags} {H : Type} {PS : PageSource H} {PF : PageFree H}.
Context (me : nat) (proc_addr : nat → Z) (kbuf log_chan : Z) (trampoline : Z).
Context (devices : list (@DeviceFns mem)) (rchan wchan : Z → Z).
Context (bytes_of : VFile → list Z) (slot : Z).

Abbreviation kernel := (@kernel D H).
Abbreviation arg := (arg me).
Abbreviation copy_from_str := (copy_from_str me kbuf).

(** The part of the kernel that file operations change. *)
Definition to_world (k : kernel) : @world D mem ProcManager :=
  mkWorld (k_pipes k) (k_ic k) (k_d k) (kmem k) (k_pm k).
Definition from_world (k : kernel) (w : @world D mem ProcManager) : kernel :=
  mkK (w_procs w) (with_mem (k_ps k) (w_m w)) (k_files k) (k_next k) (w_ic w) (w_d w) (w_pipes w) (k_ticks k).

Definition my_copier (k : kernel) : outcome (Copier mem) :=
  p ← my_proc me k;
  Done (user_copier (p_pagetable (pdata p)) kbuf).

Definition sys_dup (k : kernel) : outcome (sysres * kernel) :=
  old_fd ← arg 0 k;
  '(a, file) ← the_file me old_fd k;
  '(r, k) ← fd_alloc me file k;
  match r with
  | Err _ => Panic "called `Result::unwrap()` on an `Err` value"
  | Ok new_fd =>
      k ← arc_clone a k;
      old ← file_at me new_fd k;
      let k := set_file me new_fd (Some a) k in
      k ← match old with Some b => arc_drop b k | None => Done k end;
      Done (SRet new_fd, k)
  end.

Definition sys_read (k : kernel) : outcome (sysres * kernel) :=
  fd ← arg 0 k;
  '(_, file) ← the_file me fd k;
  ptr ← arg 1 k;
  len ← arg 2 k;
  p ← my_proc me k;
  CP ← my_copier k;
  '(r, w) ← vfile_read (CP := CP) devices wchan file (p_killed (meta p)) ptr len (to_world k);
  Done (of_pres r, from_world k w).

Definition sys_write (k : kernel) : outcome (sysres * kernel) :=
  fd ← arg 0 k;
  '(_, file) ← the_file me fd k;
  ptr ← arg 1 k;
  len ← arg 2 k;
  p ← my_proc me k;
  CP ← my_copier k;
  '(r, w) ← vfile_write (CP := CP) devices log_chan rchan file (p_killed (meta p)) ptr len 0 (to_world k);
  Done (of_pres r, from_world k w).

(** The first half of [sys_open]: the inode, locked. *)
Definition open_inode (path : list Z) (mode : Z) (k : kernel) : outcome (option (Inode * InodeData) * kernel) :=
  match open_mode mode with
  | CREATE =>
      '(r, k) ← k_create me path File 0 0 k;
      match r with
      | Ok inode =>
          '(g, k) ← k_lock inode k;
          Done (Some (inode, g), k)
      | Err _ =>
          k ← k_end_op log_chan k;
          Done (None, k)
      end
  | _ =>
      '(r, k) ← k_namei me path k;
      match r with
      | Some inode =>
          '(g, k) ← k_lock inode k;
          if bool_decide (itype (id_dinode g) = Directory) && negb (mode =? 0) then
            k ← k_end_op log_chan (k_unlock inode g k);
            k ← k_put inode k;
            Done (None, k)
          else Done (Some (inode, g), k)
      | None =>
          k ← k_end_op log_chan k;
          Done (None, k)
      end
  end.

Definition sys_open (k : kernel) : outcome (sysres * kernel) :=
  addr ← arg 0 k;
  '(r, k) ← copy_from_str addr MAXPATH k;
  match r with
  | Err _ => Panic "called `Result::unwrap()` on an `Err` value"
  | Ok path =>
      mode ← arg 1 k;
      k ← k_begin_op k;
      '(r, k) ← open_inode path mode k;
      match r with
      | None => Done (SErr, k)
      | Some (inode, g) =>
          let '(ft, maj) := match itype (id_dinode g) with Device => (FDevice, di_major (id_dinode g)) | _ => (FInode, 0) end in
          '(g, k) ← (if get_bit mode 11 && bool_decide (itype (id_dinode g) = File) then
                       '(g, d) ← truncate g inode (k_d k);
                       Done (g, with_ifs k (k_ic k) d)
                     else Done (g, k));
          k ← k_end_op log_chan (k_unlock inode g k);
          let writeable := get_bit mode 0 || get_bit mode 1 in
          let readable := negb (get_bit mode 0) || get_bit mode 1 in
          let file := mkVFile ft readable writeable None (Some inode) 0 maj in
          '(r, k) ← fd_alloc me file k;
          k ← drop_vfile file k;
          match r with
          | Ok fd => Done (SRet fd, k)
          | Err _ => Done (SErr, k)
          end
      end
  end.

(** The arguments of [sys_exec]: pages with the strings, by address. *)
Definition exec_args (user_argv : Z) (k : kernel) : outcome (option (list Z) * kernel) :=
  let argv := replicate (Z.to_nat MAXARG) 0 in
  while_fuel (S (Z.to_nat MAXARG)) (λ '(count, argv, k),
    if Z.of_nat (length argv) <=? count then Done (inl (None, k))
    else
      o ← umul count 8;
      a ← uadd user_argv o;
      '(r, k) ← copy_form_addr me kbuf a 8 k;
      match r with
      | Err _ => Done (inl (None, k))
      | Ok buf =>
          let user_arg := le_decode buf in
          if user_arg =? 0 then Done (inl (Some (<[Z.to_nat count := 0]> argv), k))
          else
            '(page, s) ← new_zeroed (k_ps k);
            let k := with_ps k s in
            let argv := <[Z.to_nat count := page]> argv in
            p ← my_proc me k;
            pt ← unwrap unwrap_none (p_pagetable (pdata p));
            '(r, m) ← copy_in_str pt page user_arg PGSIZE (kmem k);
            let k := with_kmem k m in
            match r with
            | Err _ => Done (inl (None, k))
            | Ok _ =>
                count ← uadd count 1;
                Done (inr (count, argv, k))
            end
      end) (0, argv, k).

Definition sys_exec (k : kernel) : outcome (sysres * kernel) :=
  addr ← arg 0 k;
  '(r, k) ← copy_from_str addr MAXPATH k;
  match r with
  | Err _ => Panic "called `Result::unwrap()` on an `Err` value"
  | Ok path =>
      user_argv ← arg 1 k;
      _ ← ensure (utf8_valid (length path) path) "called `Result::unwrap()` on an `Err` value";
      '(argv, k) ← exec_args user_argv k;
      match argv with
      | None => Done (SErr, k)
      | Some argv =>
          '(r, k) ← exec me kbuf log_chan trampoline path argv k;
          match r with
          | Ok argc => Done (SRet argc, k)
          | Err _ => Done (SErr, k)
          end
      end
  end.

Definition sys_mknod (k : kernel) : outcome (sysres * kernel) :=
  maj ← arg 1 k;
  min ← arg 2 k;
  k ← k_begin_op k;
  addr ← arg 0 k;
  '(r, k) ← copy_from_str addr MAXPATH k;
  match r with
  | Err _ => Done (SErr, k)
  | Ok path =>
      '(r, k) ← k_create me path Device (as_i16 maj) (as_i16 min) k;
      match r with
      | Ok inode =>
          k ← k_end_op log_chan k;
          k ← k_put inode k;
          Done (SRet 0, k)
      | Err _ =>
          k ← k_end_op log_chan k;
          Done (SErr, k)
      end
  end.

Definition sys_close (k : kernel) : outcome (sysres * kernel) :=
  fd ← arg 0 k;
  k ← take_file me fd k;
  Done (SRet 0, k).

Definition sys_fstat (k : kernel) : outcome (sysres * kernel) :=
  fd ← arg 0 k;
  stat ← arg 1 k;
  '(_, file) ← the_file me fd k;
  CP ← my_copier k;
  '(r, w) ← vfile_stat (CP := CP) file stat (to_world k);
  match r with
  | Ok _ => Done (SRet 0, from_world k w)
  | Err _ => Done (SErr, from_world k w)
  end.

Definition sys_chdir (k : kernel) : outcome (sysres * kernel) :=
  k ← k_begin_op k;
  addr ← arg 0 k;
  '(r, k) ← copy_from_str addr MAXPATH k;
  match r with
  | Err _ => Done (SErr, k)
  | Ok path =>
      '(r, k) ← k_namei me path k;
      match r with
      | Some inode =>
          '(g, k) ← k_lock inode k;
          if decide (itype (id_dinode g) = Directory) then
            let k := k_unlock inode g k in
            p ← my_proc me k;
            let old_cwd := p_cwd (pdata p) in
            let k := upd_data me (set_cwd (Some inode)) k in
            k ← match old_cwd with Some i => k_put i k | None => Done k end;
            k ← k_end_op log_chan k;
            Done (SRet 0, k)
          else
            k ← k_end_op log_chan k;
            k ← k_put inode (k_unlock inode g k);
            Done (SErr, k)
      | None =>
          k ← k_end_op log_chan k;
          Done (SErr, k)
      end
  end.

(** What is copied to the user are the first bytes of the two [VFile]s. *)
Definition sys_pipe (k : kernel) : outcome (sysres * kernel) :=
  fd_array ← arg 0 k;
  let '(_, rf, wf) := pipe_alloc slot in
  '(r, k) ← fd_alloc me rf k;
  match r with
  | Err _ => Done (SErr, k)
  | Ok rfd =>
      '(r, k) ← fd_alloc me wf k;
      match r with
      | Err _ => Done (SErr, k)
      | Ok wfd =>
          let undo (k : kernel) : outcome (sysres * kernel) :=
            k ← take_file me rfd k;
            k ← take_file me wfd k;
            Done (SErr, k) in
          p ← my_proc me k;
          pt ← unwrap "Fail to get page table" (p_pagetable (pdata p));
          '(r, m) ← copy_out pt fd_array kbuf 8 (store_bytes (kmem k) kbuf (take 8 (bytes_of rf)));
          let k := with_kmem k m in
          match r with
          | Err _ => undo k
          | Ok _ =>
              a ← uadd fd_array 8;
              '(r, m) ← copy_out pt a kbuf 8 (store_bytes (kmem k) kbuf (take 8 (bytes_of wf)));
              let k := with_kmem k m in
              match r with
              | Err _ => undo k
              | Ok _ => Done (SRet 0, k)
              end
          end
      end
  end.

Definition DOT : list Z := [46].
Definition DOTDOT : list Z := [46; 46].

Definition sys_unlink (k : kernel) : outcome (sysres * kernel) :=
  addr ← arg 0 k;
  '(r, k) ← copy_from_str addr MAXPATH k;
  match r with
  | Err _ => Done (SErr, k)
  | Ok path =>
      k ← k_begin_op k;
      '(r, name, k) ← k_namei_parent me path (replicate (Z.to_nat DIRSIZ) 0) k;
      match r with
      | None =>
          k ← k_end_op log_chan k;
          Done (SErr, k)
      | Some parent =>
          '(pg, k) ← k_lock parent k;
          if Misc.str_cmp name DOT DIRSIZ && Misc.str_cmp name DOTDOT DIRSIZ then
            k ← k_end_op log_chan (k_unlock parent pg k);
            k ← k_put parent k;
            Done (SErr, k)
          else
            '(found, pg, ic, d) ← dir_lookup pg name (k_ic k) (k_d k);
            let k := with_ifs k ic d in
            match found with
            | None =>
                k ← k_end_op log_chan (k_unlock parent pg k);
                k ← k_put parent k;
                Done (SErr, k)
            | Some inode =>
                '(g, k) ← k_lock inode k;
                if nlink (id_dinode g) <? 1 then Panic "sys_unlink: inods's nlink must be larger than 1."
                else
                  let is_dir := bool_decide (itype (id_dinode g) = Directory) in
                  '(empty, g, d) ← (if is_dir then is_dir_empty g (k_d k) else Done (true, g, k_d k));
                  let k := with_ifs k (k_ic k) d in
                  if is_dir && negb empty then
                    k ← k_end_op log_chan (k_unlock parent pg (k_unlock inode g k));
                    k ← k_put inode k;
                    k ← k_put parent k;
                    Done (SErr, k)
                  else
                    '(pg, k) ← (if is_dir then
                        n ← i16sub (nlink (id_dinode pg)) 1;
                        let pg := with_dinode pg (with_nlink (id_dinode pg) n) in
                        k ← k_update pg k;
                        Done (pg, k)
                      else Done (pg, k));
                    let k := k_unlock parent pg k in
                    n ← i16sub (nlink (id_dinode g)) 1;
                    let g := with_dinode g (with_nlink (id_dinode g) n) in
                    k ← k_update g k;
                    let k := k_unlock inode g k in
                    k ← k_end_op log_chan k;
                    k ← k_put inode k;
                    k ← k_put parent k;
                    Done (SRet 0, k)
            end
      end
  end.

Definition sys_link (k : kernel) : outcome (sysres * kernel) :=
  old_addr ← arg 0 k;
  new_addr ← arg 1 k;
  '(r, k) ← copy_from_str old_addr MAXPATH k;
  match r with
  | Err _ => Done (SErr, k)
  | Ok old_path =>
      '(r, k) ← copy_from_str new_addr MAXPATH k;
      match r with
      | Err _ => Done (SErr, k)
      | Ok new_path =>
          k ← k_begin_op k;
          '(r, k) ← k_namei me old_path k;
          match r with
          | None =>
              k ← k_end_op log_chan k;
              Done (SErr, k)
          | Some inode =>
              '(g, k) ← k_lock inode k;
              if decide (itype (id_dinode g) = Directory) then
                k ← k_end_op log_chan (k_unlock inode g k);
                k ← k_put inode k;
                Done (SErr, k)
              else
                n ← i16add (nlink (id_dinode g)) 1;
                let g1 := with_dinode g (with_nlink (id_dinode g) n) in
                '(r, name, k) ← k_namei_parent me new_path (replicate (Z.to_nat DIRSIZ) 0) k;
                match r with
                | None =>
                    k ← k_end_op log_chan (k_unlock inode g k);
                    k ← k_put inode k;
                    Done (SErr, k)
                | Some parent =>
                    '(pg, k) ← k_lock parent k;
                    '(linked, pg, k) ← (if negb (bool_decide (itype (id_dinode pg) = Directory)) then Done (true, pg, k)
                      else
                        '(r, pg, ic, d) ← dir_link pg name (i_inum inode) (k_ic k) (k_d k);
                        Done (match r with Ok _ => true | Err _ => false end, pg, with_ifs k ic d));
                    if (linked : bool) then
                      let k := k_unlock parent pg k in
                      k ← k_end_op log_chan (k_unlock inode g k);
                      k ← k_put parent k;
                      k ← k_put inode k;
                      Done (SErr, k)
                    else
                      k ← k_update g1 k;
                      let k := k_unlock inode g1 k in
                      k ← k_end_op log_chan k;
                      let k := k_unlock parent pg k in
                      k ← k_put parent k;
                      k ← k_put inode k;
                      Done (SRet 0, k)
                end
          end
      end
  end.

Definition sys_mkdir (k : kernel) : outcome (sysres * kernel) :=
  k ← k_begin_op k;
  addr ← arg 0 k;
  '(r, k) ← copy_from_str addr MAXPATH k;
  match r with
  | Err _ => Done (SErr, k)
  | Ok path =>
      '(r, k) ← k_create me path Directory 0 0 k;
      match r with
      | Ok inode =>
          k ← k_put inode k;
          k ← k_end_op log_chan k;
          Done (SRet 0, k)
      | Err _ => Done (SErr, k)
      end
  end.
End Calls.

(** * Dispatch of system calls

    Models [SysCallID], [Syscall::syscall] and [handle_syscall] of
    [syscall/mod.rs]. *)

Inductive SysCallID :=
| SysFork | SysExit | SysWait | SysPipe | SysRead | SysKill | SysExec | SysFstat | SysChdir | SysDup
| SysGetPid | SysSbrk | SysSleep | SysUptime | SysOpen | SysWrite | SysMknod | SysUnlink | SysLink
| SysMkdir | SysClose | Unknown.

(** [SysCallID::new]. *)
Definition new_syscall_id (id : Z) : SysCallID :=
  match id with
  | 1 => SysFork | 2 => SysExit | 3 => SysWait | 4 => SysPipe | 5 => SysRead | 6 => SysKill
  | 7 => SysExec | 8 => SysFstat | 9 => SysChdir | 10 => SysDup | 11 => SysGetPid | 12 => SysSbrk
  | 13 => SysSleep | 14 => SysUptime | 15 => SysOpen | 16 => SysWrite | 17 => SysMknod
  | 18 => SysUnlink | 19 => SysLink | 20 => SysMkdir | 21 => SysClose | _ => Unknown
  end.

Section Dispatch.
Context {D : Type} {BD : BlockDevice D} {BF : BitField} {BFl : BitFlags} {H : Type} {PS : PageSource H} {PF : PageFree H}.
Context (me : nat) (proc_addr : nat → Z) (kbuf log_chan : Z) (trampoline fork_ret : Z).
Context (devices : list (@DeviceFns mem)) (rchan wchan : Z → Z).
Context (bytes_of : VFile → list Z) (slot : Z).

Abbreviation kernel := (@kernel D H).

Definition syscall (k : kernel) : outcome (sysres * kernel) :=
  p ← my_proc me k;
  match new_syscall_id (Tf.get (kmem k) (p_trapframe (pdata p)) Tf.a7) with
  | SysFork => sys_fork me trampoline fork_ret k
  | SysExit => sys_exit me proc_addr log_chan k
  | SysWait => sys_wait me proc_addr k
  | SysRead => sys_read me kbuf devices wchan k
  | SysWrite => sys_write me kbuf log_chan devices rchan k
  | SysOpen => sys_open me kbuf log_chan k
  | SysExec => sys_exec me kbuf log_chan trampoline k
  | SysMknod => sys_mknod me kbuf log_chan k
  | SysClose => sys_close me k
  | SysDup => sys_dup me k
  | SysUptime => Done (SRet 0, k)
  | SysSbrk => sys_sbrk me k
  | SysFstat => sys_fstat me kbuf k
  | SysChdir => sys_chdir me kbuf log_chan k
  | SysPipe => sys_pipe me kbuf bytes_of slot k
  | SysUnlink => sys_unlink me kbuf log_chan k
  | SysLink => sys_link me kbuf log_chan k
  | SysMkdir => sys_mkdir me kbuf log_chan k
  | _ => Panic "Invalid syscall id"
  end.

(** What [handle_syscall] leaves: a result in [a0], or a process that sleeps
    inside of the call, or one that is gone. *)
Inductive handled := Returned | Sleeping | Exited.

Definition set_a0 (v : Z) (k : kernel) : outcome kernel :=
  p ← my_proc me k;
  Done (with_kmem k (Tf.put (kmem k) (p_trapframe (pdata p)) Tf.a0 v)).

Definition handle_syscall (k : kernel) : outcome (handled * kernel) :=
  '(r, k) ← syscall k;
  match r with
  | SRet res => k ← set_a0 res k; Done (Returned, k)
  | SErr => k ← set_a0 (2 ^ 64 - 1) k; Done (Returned, k)
  | SBlock => Done (Sleeping, k)
  | SGone => Done (Exited, k)
  end.
End Dispatch.
