(* ===== verification/Uart.v ===== *)
(** * The serial line and the interrupt controller

    Models [driver/uart.rs] and [driver/plic.rs].  A device is a state with
    reads and writes of its registers by address; a read may change the state. *)

From Stdlib Require Import ZArith Lia.
From stdpp Require Import base gmap strings numbers list.
From S2P Require Import Prelude Address Bytes Bio Log.

Local Open Scope Z_scope.

Class Mmio (U : Type) := {
  mmio_read : Z → U → Z * U;
  mmio_write : Z → Z → U → U;
}.

(** [Wrapping<usize>]. *)
Definition wrap (x : Z) : Z := x mod 2 ^ 64.

Definition RHR : Z := 0.
Definition THR : Z := 0.
Definition IER : Z := 1.
Definition FCR : Z := 2.
Definition LCR : Z := 3.
Definition LSR : Z := 5.
Definition IER_RX_ENABLE : Z := Z.shiftl 1 0.
Definition IER_TX_ENABLE : Z := Z.shiftl 1 1.
Definition FCR_FIFO_ENABLE : Z := Z.shiftl 1 0.
Definition FCR_FIFO_CLEAR : Z := Z.shiftl 3 1.
Definition LCR_EIGHT_BITS : Z := Z.shiftl 3 0.
Definition LCR_BAUD_LATCH : Z := Z.shiftl 1 7.
Definition UART_BASE_ADDR : Z := UART0.
Definition UART_BUF_SIZE : Z := 32.

(** The output buffer. *)
Record Uart := mkUart {
  u_buf : list Z;
  u_write : Z;
  u_read : Z;
}.

Definition new_uart : Uart := mkUart (replicate (Z.to_nat UART_BUF_SIZE) 0) 0 0.

Section Ops.
Context {U : Type} {MM : Mmio U} {P : Type} {WU : WakeUp P}.
(** The address of the read index, on which writers sleep. *)
Context (uart_chan : Z).

Definition uart_init (u : U) : U :=
  let u := mmio_write (UART_BASE_ADDR + IER) 0x00 u in
  let u := mmio_write (UART_BASE_ADDR + LCR) LCR_BAUD_LATCH u in
  let u := mmio_write UART_BASE_ADDR 0x03 u in
  let u := mmio_write (UART_BASE_ADDR + 1) 0x00 u in
  let u := mmio_write (UART_BASE_ADDR + LCR) LCR_EIGHT_BITS u in
  let u := mmio_write (UART_BASE_ADDR + FCR) (Z.lor FCR_FIFO_ENABLE FCR_FIFO_CLEAR) u in
  mmio_write (UART_BASE_ADDR + IER) (Z.lor IER_TX_ENABLE IER_RX_ENABLE) u.

Definition idle (u : U) : bool * U :=
  let '(v, u) := mmio_read (UART_BASE_ADDR + LSR) u in
  (0 <? Z.land v (Z.shiftl 1 5), u).

(** [Uart::put] and [putc_sync] wait for the device: [fuel] bounds the polls. *)
Definition uart_wait (fuel : nat) (u : U) : outcome U :=
  while_fuel fuel (λ u,
    let '(b, u) := idle u in
    if (b : bool) then Done (inl u) else Done (inr u)) u.

Definition uart_put (fuel : nat) (c : Z) (u : U) : outcome U :=
  u ← uart_wait fuel u;
  Done (mmio_write (UART_BASE_ADDR + 0) c u).

Definition putc_sync (fuel : nat) (panicked : bool) (c : Z) (u : U) : outcome U :=
  if panicked then wait_forever
  else
    u ← uart_wait fuel u;
    Done (mmio_write (UART_BASE_ADDR + THR) c u).

Definition uart_get (u : U) : option Z * U :=
  let '(v, u) := mmio_read (UART_BASE_ADDR + 5) u in
  if Z.land v 1 =? 0 then (None, u)
  else let '(c, u) := mmio_read (UART_BASE_ADDR + 0) u in (Some c, u).

(** One byte of [transmit]. *)
Definition transmit_round (st : Uart * U * P) : outcome (Uart * U * P + Uart * U * P) :=
  let '(self, u, procs) := st in
  if u_write self =? u_read self then Done (inl (self, u, procs))
  else
    let '(b, u) := idle u in
    if negb b then Done (inl (self, u, procs))
    else
      c ← unwrap "index out of bounds" (u_buf self !! Z.to_nat (u_read self mod UART_BUF_SIZE));
      let self := mkUart (u_buf self) (u_write self) (wrap (u_read self + 1)) in
      let procs := wake_up uart_chan procs in
      Done (inr (self, mmio_write (UART_BASE_ADDR + THR) c u, procs)).

(** [transmit]: the buffer holds at most [UART_BUF_SIZE] bytes. *)
Definition transmit (self : Uart) (u : U) (procs : P) : outcome (Uart * U * P) :=
  while_fuel (S (Z.to_nat UART_BUF_SIZE)) transmit_round (self, u, procs).

(** [putc]: [None] when the buffer is full and the writer sleeps. *)
Definition uart_putc (panicked : bool) (c : Z) (self : Uart) (u : U) (procs : P) : outcome (option (Uart * U * P)) :=
  if panicked then wait_forever
  else if u_write self =? wrap (u_read self + UART_BUF_SIZE) then Done None
  else
    let write_index := u_write self mod UART_BUF_SIZE in
    let self := mkUart (<[Z.to_nat write_index := c]> (u_buf self)) (wrap (u_write self + 1)) (u_read self) in
    '(self, u, procs) ← transmit self u procs;
    Done (Some (self, u, procs)).

(** [Write for Uart]: what [println!] does with its bytes. *)
Definition write_str (fuel : nat) (out : list Z) (u : U) : outcome U := for_each out (λ c u, uart_put fuel c u) u.
End Ops.

(** A serial line that is always idle, has no input, and keeps what was sent. *)
Definition line_device : Mmio (list Z) := {|
  mmio_read a u := (if a =? UART_BASE_ADDR + LSR then Z.shiftl 1 5 else 0, u);
  mmio_write a v u := if a =? UART_BASE_ADDR + THR then u ++ [v] else u;
|}.

(** A serial line that is busy after every byte until its status has been polled
    twice; a byte that is written to it while it is busy is lost. *)
Record slow := mkSlow { sl_sent : list Z; sl_busy : nat }.

Definition slow_device : Mmio slow := {|
  mmio_read a u :=
    if a =? UART_BASE_ADDR + LSR then
      (if (sl_busy u =? 0)%nat then Z.shiftl 1 5 else 0, mkSlow (sl_sent u) (pred (sl_busy u)))
    else (0, u);
  mmio_write a v u :=
    if a =? UART_BASE_ADDR + THR then
      if (sl_busy u =? 0)%nat then mkSlow (sl_sent u ++ [v]) 2 else u
    else u;
|}.

(** ** The interrupt controller *)

Definition PLIC_SENABLE (hart_id : Z) : outcome Z := o ← umul hart_id 0x100; uadd (PLIC_BASE + 0x2080) o.
Definition PLIC_SPRIORITY (hart_id : Z) : outcome Z := o ← umul hart_id 0x2000; uadd (PLIC_BASE + 0x201000) o.
Definition PLIC_SCLAIM (hart_id : Z) : outcome Z := o ← umul hart_id 0x2000; uadd (PLIC_BASE + 0x201004) o.

Section Plic.
Context {U : Type} {MM : Mmio U}.

Definition plic_init (u : U) : U :=
  let u := mmio_write (PLIC_BASE + UART0_IRQ * 4) 1 u in
  mmio_write (PLIC_BASE + VIRTIO0_IRQ * 4) 1 u.

Definition plic_init_hart (hart_id : Z) (u : U) : outcome U :=
  a ← PLIC_SENABLE hart_id;
  let u := mmio_write a (Z.lor (Z.shiftl 1 UART0_IRQ) (Z.shiftl 1 VIRTIO0_IRQ)) u in
  a ← PLIC_SPRIORITY hart_id;
  Done (mmio_write a 0 u).

Definition plic_claim (hart_id : Z) (u : U) : outcome (option Z * U) :=
  a ← PLIC_SCLAIM hart_id;
  let '(interrupt, u) := mmio_read a u in
  Done (if interrupt =? 0 then None else Some interrupt, u).

Definition plic_complete (hart_id interrupt : Z) (u : U) : outcome U :=
  a ← PLIC_SCLAIM hart_id;
  Done (mmio_write a interrupt u).
End Plic.
