(* ===== verification/UartTheorems.v ===== *)
(** * Ring buffers and the serial line

    The lemmas on ring buffers that the serial line and the console share, and
    the correctness of the serial line. *)

From Stdlib Require Import ZArith Lia.
From stdpp Require Import base gmap strings numbers list.
From S2P Require Import Prelude Uart Address Bytes Bio Log.

Local Open Scope Z_scope.

(** * Ring buffers with wrapping indices

    The console and the serial line keep a queue in an array, with indices of
    type [Wrapping<usize>] that only grow. *)

(** ** Indices *)

Lemma wrap_range x : 0 ≤ wrap x < 2 ^ 64.
Proof. unfold wrap. apply Z.mod_pos_bound. lia. Qed.

Lemma wrap_id x : 0 ≤ x < 2 ^ 64 → wrap x = x.
Proof. unfold wrap. apply Z.mod_small. Qed.

Lemma wrap_add_l x y : wrap (wrap x + y) = wrap (x + y).
Proof. unfold wrap. by rewrite Zplus_mod_idemp_l. Qed.

Lemma wrap_sub_l x y : wrap (wrap x - y) = wrap (x - y).
Proof. unfold wrap. by rewrite Zminus_mod_idemp_l. Qed.

Lemma wrap_diff x n : 0 ≤ n < 2 ^ 64 → wrap (wrap (x + n) - x) = n.
Proof. intros Hn. rewrite wrap_sub_l. replace (x + n - x) with n by lia. by apply wrap_id. Qed.

(** A buffer whose size divides the range of the indices. *)
Lemma wrap_mod x n : 0 < n → (n | 2 ^ 64) → wrap x mod n = x mod n.
Proof. intros Hn Hd. unfold wrap. by apply Z.mod_mod_divide. Qed.

Lemma wrap_neq x n : 0 < n < 2 ^ 64 → 0 ≤ x < 2 ^ 64 → wrap (x + n) ≠ x.
Proof.
  intros Hn Hx Heq. assert (wrap (wrap (x + n) - x) = n) as H by (apply wrap_diff; lia).
  rewrite Heq in H. replace (x - x) with 0 in H by lia. rewrite wrap_id in H; lia.
Qed.

Lemma ring_inj x i j n : 0 < n → 0 ≤ i < n → 0 ≤ j < n → (x + i) mod n = (x + j) mod n → i = j.
Proof.
  intros Hn Hi Hj H. assert (((x + i) - (x + j)) mod n = 0) as Hd by (rewrite Zminus_mod, H, Z.sub_diag; done).
  replace (x + i - (x + j)) with (i - j) in Hd by lia. apply Z.mod_divide in Hd as [k Hk]; [|lia]. assert (k = 0) as -> by nia. lia.
Qed.

(** ** Rings *)

(** The [length q] places of the ring from index [r] on hold [q]. *)
Definition ring (size : Z) (buf : list Z) (r : Z) (q : list Z) : Prop :=
  Z.of_nat (length buf) = size ∧ Z.of_nat (length q) ≤ size ∧
  ∀ i x, q !! i = Some x → buf !! Z.to_nat ((r + Z.of_nat i) mod size) = Some x.

Section Ring.
Context (size : Z) (Hsize : 0 < size) (Hdiv : (size | 2 ^ 64)).

Lemma ring_head buf r x q : ring size buf r (x :: q) → buf !! Z.to_nat (r mod size) = Some x.
Proof using. intros (_ & _ & H). specialize (H 0%nat x eq_refl). by rewrite Z.add_0_r in H. Qed.

Lemma ring_tail buf r x q : ring size buf r (x :: q) → ring size buf (wrap (r + 1)) q.
Proof using Hsize Hdiv.
  intros (Hl & Hq & H). split_and!; [done|cbn in Hq; lia|]. intros i y Hi.
  rewrite <- Zplus_mod_idemp_l, wrap_mod, Zplus_mod_idemp_l by done.
  replace (r + 1 + Z.of_nat i) with (r + Z.of_nat (S i)) by lia. by apply H.
Qed.

Lemma ring_snoc buf r q x :
  ring size buf r q → Z.of_nat (length q) < size →
  ring size (<[Z.to_nat ((r + Z.of_nat (length q)) mod size) := x]> buf) r (q ++ [x]).
Proof using Hsize.
  intros (Hl & Hq & H) Hlt. split_and!; [by rewrite length_insert|rewrite length_app; cbn; lia|].
  intros i y Hi. assert (0 ≤ (r + Z.of_nat (length q)) mod size < size) as Hm by (apply Z.mod_pos_bound; lia).
  apply lookup_app_Some in Hi as [Hi|[Hge Hi]].
  - pose proof (lookup_lt_Some _ _ _ Hi) as Hlen. rewrite list_lookup_insert_ne; [by apply H|].
    intros Heq. apply (Z2Nat.inj) in Heq; [|lia|apply Z.mod_pos_bound; lia].
    apply ring_inj in Heq; lia.
  - destruct (i - length q)%nat as [|k] eqn:E; [|by destruct k]. injection Hi as <-.
    replace i with (length q) by lia. apply list_lookup_insert_eq. lia.
Qed.

Lemma ring_prefix buf r q k : ring size buf r (q ++ k) → ring size buf r q.
Proof using. intros (Hl & Hq & H). rewrite length_app in Hq. split_and!; [done|lia|]. intros i x Hi. apply H. by apply lookup_app_l_Some. Qed.
End Ring.

Lemma ring_new size r : 0 ≤ size → ring size (replicate (Z.to_nat size) 0) r [].
Proof. intros H. split_and!; [rewrite length_replicate; lia|cbn; lia|]. intros i x. by rewrite lookup_nil. Qed.

(** * Correctness of the serial line

    The output buffer is a first-in first-out queue of at most [UART_BUF_SIZE]
    bytes, whatever the device answers to a poll.  The device only promises to
    send a byte that it is given right after its status register reported the
    holding register empty (bit 5 of [LSR]). *)

Lemma uart_buf_div : (UART_BUF_SIZE | 2 ^ 64).
Proof. exists (2 ^ 59). done. Qed.

(** A driver whose buffer holds the queue [q]. *)
Record uart_rep (self : Uart) (q : list Z) : Prop := {
  ur_read : 0 ≤ u_read self < 2 ^ 64;
  ur_write : u_write self = wrap (u_read self + Z.of_nat (length q));
  ur_ring : ring UART_BUF_SIZE (u_buf self) (u_read self) q;
}.

Lemma uart_rep_new : uart_rep new_uart [].
Proof. split; [done..|]. by apply ring_new. Qed.

Lemma uart_rep_len self q : uart_rep self q → Z.of_nat (length q) ≤ UART_BUF_SIZE.
Proof. intros H. apply (ur_ring _ _ H). Qed.

Lemma uart_empty self q : uart_rep self q → (u_write self =? u_read self) = bool_decide (q = []).
Proof.
  intros H. pose proof (uart_rep_len _ _ H) as Hl. unfold UART_BUF_SIZE in Hl. rewrite (ur_write _ _ H). destruct q as [|x q]; cbn [length] in *.
  - rewrite Z.add_0_r, wrap_id by apply H. by rewrite Z.eqb_refl.
  - case_bool_decide; [done|]. apply Z.eqb_neq. apply wrap_neq; [lia|apply H].
Qed.

Lemma uart_full self q : uart_rep self q → (u_write self =? wrap (u_read self + UART_BUF_SIZE)) = (Z.of_nat (length q) =? UART_BUF_SIZE).
Proof.
  intros H. pose proof (uart_rep_len _ _ H) as Hl. rewrite (ur_write _ _ H).
  destruct (Z.eqb_spec (Z.of_nat (length q)) UART_BUF_SIZE) as [->|Hne]; [apply Z.eqb_refl|].
  apply Z.eqb_neq. replace (u_read self + UART_BUF_SIZE) with (u_read self + Z.of_nat (length q) + (UART_BUF_SIZE - Z.of_nat (length q))) by lia.
  rewrite <- (wrap_add_l (u_read self + Z.of_nat (length q))). intros Heq. symmetry in Heq. revert Heq. unfold UART_BUF_SIZE in *. apply wrap_neq; [lia|apply wrap_range].
Qed.

Section Fifo.
Context {U : Type} {MM : Mmio U} {P : Type} {WU : WakeUp P} (uart_chan : Z).
(** What the device has sent: the bytes written to it when it had room; nothing
    is known of a byte that is written to a busy transmitter. *)
Context (sent : U → list Z).
Hypothesis sent_write : ∀ c u v u1, mmio_read (UART_BASE_ADDR + LSR) u = (v, u1) → Z.testbit v 5 = true →
  sent (mmio_write (UART_BASE_ADDR + THR) c u1) = sent u1 ++ [c].
Hypothesis sent_status : ∀ u, sent (mmio_read (UART_BASE_ADDR + LSR) u).2 = sent u.

Lemma sent_idle u : sent (idle u).2 = sent u.
Proof using sent_status.
  rewrite <- (sent_status u). unfold idle. by destruct (mmio_read (UART_BASE_ADDR + LSR) u).
Qed.

Lemma sent_idle_write c u u1 : idle u = (true, u1) → sent (mmio_write (UART_BASE_ADDR + THR) c u1) = sent u1 ++ [c].
Proof using sent_write.
  unfold idle. destruct (mmio_read (UART_BASE_ADDR + LSR) u) as [v u2] eqn:E. intros [= Hv <-]. apply (sent_write c u v u2 E).
  apply Z.ltb_lt in Hv. destruct (Z.testbit v 5) eqn:Hb; [done|]. exfalso.
  assert (Z.land v (Z.shiftl 1 5) = 0) as H0; [|lia]. apply Z.bits_inj'. intros n Hn. rewrite Z.land_spec, Z.shiftl_1_l, Z.pow2_bits_eqb, Z.bits_0 by done.
  destruct (Z.eqb_spec 5 n) as [<-|]; [by rewrite Hb|apply andb_false_r].
Qed.

Lemma transmit_rounds n q : ∀ self u procs,
  uart_rep self q → (length q < n)%nat →
  ∃ self' u' procs' q', while_fuel n (transmit_round uart_chan) (self, u, procs) = Done (self', u', procs') ∧
    uart_rep self' q' ∧ sent u' ++ q' = sent u ++ q.
Proof using sent_write sent_status.
  revert n. induction q as [|x q IH]; intros n self u procs Hrep Hn; (destruct n as [|n]; [lia|]); cbn [while_fuel];
    unfold transmit_round at 2; cbv beta iota; rewrite (uart_empty _ _ Hrep).
  - cbn. eexists _, _, _, []. split; [done|]. by rewrite !app_nil_r.
  - rewrite bool_decide_eq_false_2 by done. pose proof (sent_idle u) as Hs. destruct (idle u) as [[|] u1] eqn:Ei; cbn [negb snd] in *.
    + rewrite (ring_head _ _ _ _ _ (ur_ring _ _ Hrep)). cbn [unwrap mbind outcome_bind].
      set (s1 := mkUart _ _ _). assert (uart_rep s1 q) as H1.
      { destruct Hrep as [Hr Hw Hg]. split; cbn.
        - apply wrap_range.
        - rewrite Hw, wrap_add_l. f_equal. cbn. lia.
        - by apply (ring_tail UART_BUF_SIZE eq_refl uart_buf_div _ _ x). }
      destruct (IH n s1 (mmio_write (UART_BASE_ADDR + THR) x u1) (wake_up uart_chan procs) H1) as (self' & u' & procs' & q' & Hrun & Hr' & Hq');
        [cbn in Hn; lia|].
      exists self', u', procs', q'. split; [exact Hrun|]. split; [exact Hr'|]. rewrite Hq', (sent_idle_write x u u1 Ei), Hs. by rewrite <- app_assoc.
    + cbn. eexists _, _, _, (x :: q). split; [done|]. by rewrite Hs.
Qed.

Lemma transmit_ok self q u procs :
  uart_rep self q →
  ∃ self' u' procs' q', transmit uart_chan self u procs = Done (self', u', procs') ∧
    uart_rep self' q' ∧ sent u' ++ q' = sent u ++ q.
Proof using sent_write sent_status.
  intros Hrep. apply transmit_rounds; [done|]. pose proof (uart_rep_len _ _ Hrep). lia.
Qed.

(** A write sleeps exactly when the buffer is full; otherwise its byte is
    queued behind all others. *)
Lemma putc_ok c self q u procs :
  uart_rep self q →
  if Z.of_nat (length q) =? UART_BUF_SIZE then uart_putc uart_chan false c self u procs = Done None
  else ∃ self' u' procs' q', uart_putc uart_chan false c self u procs = Done (Some (self', u', procs')) ∧
    uart_rep self' q' ∧ sent u' ++ q' = sent u ++ q ++ [c].
Proof using sent_write sent_status.
  intros Hrep. unfold uart_putc. rewrite (uart_full _ _ Hrep). destruct (Z.eqb_spec (Z.of_nat (length q)) UART_BUF_SIZE) as [He|Hne]; [done|].
  pose proof (uart_rep_len _ _ Hrep) as Hl. edestruct (transmit_ok) as (self' & u' & procs' & q' & Hrun & Hr' & Hq').
  2: { rewrite Hrun. cbn. eexists _, _, _, _. done. }
  destruct Hrep as [Hr Hw Hg]. split; cbn; [done| |].
  - rewrite Hw, wrap_add_l. f_equal. rewrite length_app. cbn. lia.
  - rewrite Hw, wrap_mod by (done || apply uart_buf_div). apply ring_snoc; [done|done|lia].
Qed.

(** The processes that write, and the interrupts that send. *)
Inductive uop := OPut (c : Z) | OTransmit.

(** Running them: the bytes accepted; a write to a full buffer waits. *)
Fixpoint run_ops (ops : list uop) (self : Uart) (u : U) (procs : P) : outcome (list Z * Uart * U * P) :=
  match ops with
  | [] => Done ([], self, u, procs)
  | OTransmit :: ops =>
      '(self, u, procs) ← transmit uart_chan self u procs;
      run_ops ops self u procs
  | OPut c :: ops =>
      r ← uart_putc uart_chan false c self u procs;
      match r with
      | None => run_ops ops self u procs
      | Some (self, u, procs) =>
          '(acc, self, u, procs) ← run_ops ops self u procs;
          Done (c :: acc, self, u, procs)
      end
  end.

Lemma run_ops_ok ops : ∀ self q u procs,
  uart_rep self q →
  ∃ acc self' u' procs' q', run_ops ops self u procs = Done (acc, self', u', procs') ∧
    uart_rep self' q' ∧ sent u' ++ q' = sent u ++ q ++ acc.
Proof using sent_write sent_status.
  induction ops as [|[c|] ops IH]; intros self q u procs Hrep; cbn [run_ops].
  - eexists _, _, _, _, q. split; [done|]. by rewrite app_nil_r.
  - pose proof (putc_ok c self q u procs Hrep) as Hp. destruct (Z.of_nat (length q) =? UART_BUF_SIZE).
    + rewrite Hp. cbn. by apply IH.
    + destruct Hp as (s1 & u1 & p1 & q1 & -> & Hr1 & Hq1). cbn [mbind outcome_bind].
      destruct (IH s1 q1 u1 p1 Hr1) as (acc & s2 & u2 & p2 & q2 & -> & Hr2 & Hq2). cbn.
      eexists _, _, _, _, _. split; [done|]. split; [done|]. rewrite Hq2, app_assoc, Hq1, <- !app_assoc. done.
  - destruct (transmit_ok self q u procs Hrep) as (s1 & u1 & p1 & q1 & -> & Hr1 & Hq1). cbn [mbind outcome_bind].
    destruct (IH s1 q1 u1 p1 Hr1) as (acc & s2 & u2 & p2 & q2 & Hrun & Hr2 & Hq2).
    exists acc, s2, u2, p2, q2. split; [exact Hrun|]. split; [done|]. by rewrite Hq2, app_assoc, Hq1, <- app_assoc.
Qed.
End Fifo.

(** C33 The serial line sends what was written, in order: whatever the device
    answers to its polls, and although it only promises to send a byte that it
    is given right after it reported its holding register empty, any sequence of
    writes and transmit interrupts runs without panic, and the bytes sent
    followed by the bytes still in the buffer are the bytes the writers put in;
    the buffer never holds more than [UART_BUF_SIZE] bytes. *)
Theorem uart_fifo {U} {MM : Mmio U} {P} {WU : WakeUp P} (uart_chan : Z) (sent : U → list Z)
    (sent_write : ∀ c u v u1, mmio_read (UART_BASE_ADDR + LSR) u = (v, u1) → Z.testbit v 5 = true →
       sent (mmio_write (UART_BASE_ADDR + THR) c u1) = sent u1 ++ [c])
    (sent_status : ∀ u, sent (mmio_read (UART_BASE_ADDR + LSR) u).2 = sent u) ops u procs :
  ∃ acc self' u' procs' q', run_ops uart_chan ops new_uart u procs = Done (acc, self', u', procs') ∧
    uart_rep self' q' ∧ Z.of_nat (length q') ≤ UART_BUF_SIZE ∧ sent u' ++ q' = sent u ++ acc.
Proof.
  destruct (run_ops_ok (WU := WU) uart_chan sent sent_write sent_status ops _ _ u procs uart_rep_new)
    as (acc & s & u' & p & q & Hrun & Hr & Hq).
  exists acc, s, u', p, q. split; [exact Hrun|]. split; [done|]. split; [by eapply uart_rep_len|done].
Qed.

(** On the slow line the second byte stays in the buffer until the third
    interrupt finds the line idle. *)
Lemma uart_fifo_witness :
  ∃ acc self' u' procs' q', run_ops (MM := slow_device) (WU := λ _ p, p) 0 [OPut 104; OPut 105; OTransmit; OTransmit] new_uart (mkSlow [] 0) tt =
      Done (acc, self', u', procs') ∧
    sl_sent u' = [104; 105] ∧ acc = [104; 105] ∧ sl_sent u' ++ q' = [] ++ acc.
Proof.
  edestruct (uart_fifo (MM := slow_device) (P := unit) (WU := λ _ p, p) 0 sl_sent) with (ops := [OPut 104; OPut 105; OTransmit; OTransmit]) (u := mkSlow [] 0) (procs := tt)
    as (acc & self' & u' & procs' & q' & Hrun & _ & _ & Hq).
  - intros c [l [|n]] v u1; cbn; intros [= <- <-] Hb; [done|by vm_compute in Hb].
  - by intros [l n].
  - exists acc, self', u', procs', q'. split; [exact Hrun|]. vm_compute in Hrun. injection Hrun as <- <- <- <-. done.
Defined.
