(* ===== verification/Console.v ===== *)
(** * The console

    Models [driver/console.rs] and the interrupt handler of [driver/uart.rs].
    The spinlock of the console makes a call atomic up to the points where it
    sleeps. *)

From Stdlib Require Import ZArith Lia.
From stdpp Require Import base gmap strings numbers list.
From S2P Require Import Prelude Address Bytes Bio Log Inode Uart.

Local Open Scope Z_scope.

Definition INPUT_BUF : Z := 128.
Definition CTRL_EOT : Z := 0x04.
Definition CTRL_BS : Z := 0x08.
Definition CTRL_LF : Z := 0x0A.
Definition CTRL_CR : Z := 0x0D.
Definition CTRL_DEL : Z := 0x7f.
Definition CTRL_PRINT_PROCESS : Z := 0x10.
Definition CTRL_BS_LINE : Z := 0x15.

Record Console := mkConsole {
  c_buf : list Z;
  c_read : Z;
  c_write : Z;
  c_edit : Z;
}.

Definition new_console : Console := mkConsole (replicate (Z.to_nat INPUT_BUF) 0) 0 0 0.

Definition set_edit (c : Console) (e : Z) : Console := mkConsole (c_buf c) (c_read c) (c_write c) e.
Definition set_read (c : Console) (r : Z) : Console := mkConsole (c_buf c) r (c_write c) (c_edit c).

Definition buf_at (c : Console) (i : Z) : outcome Z :=
  unwrap "index out of bounds" (c_buf c !! Z.to_nat (i mod INPUT_BUF)).

(** A read sleeps (with what is left to do), or returns. *)
Inductive cres := CSleep (dst rest : Z) | CRet (r : option Z).

Section Ops.
Context {U : Type} {MM : Mmio U} {P : Type} {WU : WakeUp P} {M : Type} {CP : Copier M}.
(** The address of the read index, on which readers sleep; polls of the device. *)
Context (console_chan uart_chan : Z) (fuel : nat) (panicked : bool).

Definition putc (c : Z) (u : U) : outcome U :=
  if c =? CTRL_BS then
    u ← putc_sync fuel panicked CTRL_BS u;
    u ← putc_sync fuel panicked 32 u;
    putc_sync fuel panicked CTRL_BS u
  else putc_sync fuel panicked c u.

(** One round of the loop of [console_read], with [rest] of [size] bytes to go. *)
Definition read_round (killed is_user : bool) (size : Z) (st : Z * Z * Console * M) :
    outcome ((cres * Console * M) + (Z * Z * Console * M)) :=
  let '(dst, rest, c, m) := st in
  if 0 <? rest then
    if c_read c =? c_write c then
      if killed then Done (inl (CRet None, c, m)) else Done (inl (CSleep dst rest, c, m))
    else
      ch ← buf_at c (c_read c);
      let c := set_read c (wrap (c_read c + 1)) in
      if ch =? CTRL_EOT then
        let c := if rest <? size then set_read c (wrap (c_read c - 1)) else c in
        ret ← usub size rest;
        Done (inl (CRet (Some ret), c, m))
      else
        '(r, m) ← copy_from_kernel is_user dst [ch] m;
        match r with
        | Err _ => ret ← usub size rest; Done (inl (CRet (Some ret), c, m))
        | Ok _ =>
            dst ← uadd dst 1;
            rest ← usub rest 1;
            if ch =? CTRL_LF then ret ← usub size rest; Done (inl (CRet (Some ret), c, m))
            else Done (inr (dst, rest, c, m))
        end
  else ret ← usub size rest; Done (inl (CRet (Some ret), c, m)).

(** [console_read]; also for a reader that goes on after it has slept. *)
Definition console_read (killed is_user : bool) (size dst rest : Z) (c : Console) (m : M) : outcome (cres * Console * M) :=
  while_fuel (S (Z.to_nat rest)) (read_round killed is_user size) (dst, rest, c, m).

(** [console_write] from byte [i] on; [inl] says where it sleeps. *)
Definition console_write (is_user : bool) (src size i : Z) (self : Uart) (u : U) (procs : P) (m : M) :
    outcome ((Z * Z + Z) * Uart * U * P * M) :=
  r ← for_range_until i size (λ i '(src, self, u, procs, m),
    '(r, m) ← copy_to_kernel is_user src 1 m;
    match r with
    | Err _ => Done (inl (inr i, self, u, procs, m))
    | Ok bs =>
        c ← unwrap "index out of bounds" (bs !! 0%nat);
        r ← uart_putc uart_chan panicked c self u procs;
        match r with
        | None => Done (inl (inl (i, src), self, u, procs, m))
        | Some (self, u, procs) =>
            src ← uadd src 1;
            Done (inr (src, self, u, procs, m))
        end
    end) (src, self, u, procs, m);
  match r with
  | inl r => Done r
  | inr (_, self, u, procs, m) => Done (inr size, self, u, procs, m)
  end.

(** [CTRL_BS_LINE]: back to the line feed, or to what has been handed over. *)
Definition erase_round (st : Console * U) : outcome (Console * U + Console * U) :=
  let '(c, u) := st in
  if c_edit c =? c_write c then Done (inl (c, u))
  else
    ch ← buf_at c (wrap (c_edit c - 1));
    if ch =? CTRL_LF then Done (inl (c, u))
    else
      let c := set_edit c (wrap (c_edit c - 1)) in
      u ← putc CTRL_BS u;
      Done (inr (c, u)).

Definition erase_line (c : Console) (u : U) : outcome (Console * U) :=
  while_fuel (S (Z.to_nat INPUT_BUF)) erase_round (c, u).

Definition console_intr (ch : Z) (c : Console) (u : U) (procs : P) : outcome (Console * U * P) :=
  if ch =? CTRL_PRINT_PROCESS then Done (c, u, procs)
  else if ch =? CTRL_BS_LINE then
    '(c, u) ← erase_line c u;
    Done (c, u, procs)
  else if (ch =? CTRL_BS) || (ch =? CTRL_DEL) then
    if c_edit c =? c_write c then Done (c, u, procs)
    else
      let c := set_edit c (wrap (c_edit c - 1)) in
      u ← putc CTRL_BS u;
      Done (c, u, procs)
  else if negb (ch =? 0) && (wrap (c_edit c - c_read c) <? INPUT_BUF) then
    let ch := if ch =? CTRL_CR then CTRL_LF else ch in
    u ← putc ch u;
    let c := mkConsole (<[Z.to_nat (c_edit c mod INPUT_BUF) := ch]> (c_buf c)) (c_read c) (c_write c) (wrap (c_edit c + 1)) in
    if (ch =? CTRL_LF) || (ch =? CTRL_EOT) || (wrap (c_edit c - c_read c) =? INPUT_BUF) then
      Done (mkConsole (c_buf c) (c_read c) (c_edit c) (c_edit c), u, wake_up console_chan procs)
    else Done (c, u, procs)
  else Done (c, u, procs).

(** [Spinlock<Uart>::intr]; [n] bounds the characters that wait. *)
Definition uart_intr (n : nat) (c : Console) (self : Uart) (u : U) (procs : P) : outcome (Console * Uart * U * P) :=
  '(c, u, procs) ← while_fuel n (λ '(c, u, procs),
    let '(v, u) := mmio_read (UART_BASE_ADDR + LSR) u in
    if 0 <? Z.land v 1 then
      let '(ch, u) := mmio_read (UART_BASE_ADDR + RHR) u in
      '(c, u, procs) ← console_intr ch c u procs;
      Done (inr (c, u, procs))
    else Done (inl (c, u, procs))) (c, u, procs);
  '(self, u, procs) ← transmit uart_chan self u procs;
  Done (c, self, u, procs).
End Ops.
