(* ===== verification/ConsoleTheorems.v ===== *)
(** * Correctness of the console

    The ring buffer with its three indices implements a line discipline on two
    queues: the characters handed over to readers and the line being edited. *)

From Stdlib Require Import ZArith Lia.
From stdpp Require Import base gmap strings numbers list.
From S2P Require Import Prelude Address Bytes Bio Log Inode Uart UartTheorems Console.

Local Open Scope Z_scope.

(** ** The line discipline *)

(** What has been handed over, and the line that is edited. *)
Record tty := mkTty { committed : list Z; editing : list Z }.

(** The line without its last characters, up to a line feed. *)
Fixpoint erase_rev (l : list Z) : list Z :=
  match l with
  | x :: l' => if x =? CTRL_LF then l else erase_rev l'
  | [] => []
  end.

Definition key (ch : Z) (t : tty) : tty :=
  if ch =? CTRL_PRINT_PROCESS then t
  else if ch =? CTRL_BS_LINE then mkTty (committed t) (reverse (erase_rev (reverse (editing t))))
  else if (ch =? CTRL_BS) || (ch =? CTRL_DEL) then mkTty (committed t) (removelast (editing t))
  else if (ch =? 0) || (INPUT_BUF <=? Z.of_nat (length (committed t ++ editing t))) then t
  else
    let ch := if ch =? CTRL_CR then CTRL_LF else ch in
    let e := editing t ++ [ch] in
    if (ch =? CTRL_LF) || (ch =? CTRL_EOT) || (Z.of_nat (length (committed t ++ e)) =? INPUT_BUF) then mkTty (committed t ++ e) []
    else mkTty (committed t) e.

(** Reading from the front of the queue: to the end of a line, to an end of
    file, which is left for the next read unless it comes first, or until enough
    has been read. *)
Fixpoint read_queue {M} {CP : Copier M} (killed is_user : bool) (size dst rest : Z) (q : list Z) (m : M) :
    outcome (cres * list Z * M) :=
  if rest <=? 0 then Done (CRet (Some (size - rest)), q, m)
  else match q with
  | [] => Done (if killed then CRet None else CSleep dst rest, [], m)
  | ch :: q' =>
      if ch =? CTRL_EOT then Done (CRet (Some (size - rest)), if rest <? size then q else q', m)
      else
        '(r, m) ← copy_from_kernel is_user dst [ch] m;
        match r with
        | Err _ => Done (CRet (Some (size - rest)), q', m)
        | Ok _ =>
            if ch =? CTRL_LF then Done (CRet (Some (size - rest + 1)), q', m)
            else read_queue killed is_user size (dst + 1) (rest - 1) q' m
        end
  end.

(** The indices and the ring of a console in a given state. *)
Record console_rep (c : Console) (t : tty) : Prop := {
  cr_read : 0 ≤ c_read c < 2 ^ 64;
  cr_write : c_write c = wrap (c_read c + Z.of_nat (length (committed t)));
  cr_edit : c_edit c = wrap (c_read c + Z.of_nat (length (committed t ++ editing t)));
  cr_ring : ring INPUT_BUF (c_buf c) (c_read c) (committed t ++ editing t);
}.

Lemma input_buf_div : (INPUT_BUF | 2 ^ 64).
Proof. exists (2 ^ 57). done. Qed.

Lemma console_rep_new : console_rep new_console (mkTty [] []).
Proof. split; [done..|]. by apply ring_new. Qed.

Lemma total_le c t : console_rep c t → Z.of_nat (length (committed t ++ editing t)) ≤ INPUT_BUF.
Proof. intros H. apply (cr_ring _ _ H). Qed.

(** Comparing indices tells whether a queue is empty. *)
Lemma read_eq_write c t : console_rep c t → (c_read c =? c_write c) = bool_decide (committed t = []).
Proof.
  intros H. pose proof (total_le _ _ H) as Hle. rewrite length_app in Hle. unfold INPUT_BUF in Hle.
  rewrite (cr_write _ _ H). destruct (committed t) as [|x q] eqn:E; cbn [length] in *.
  - rewrite Z.add_0_r, wrap_id by apply H. by rewrite Z.eqb_refl.
  - case_bool_decide as Hd; [done|]. apply Z.eqb_neq. intros Heq. symmetry in Heq. revert Heq.
    apply wrap_neq; [lia|apply H].
Qed.

Lemma edit_eq_write c t : console_rep c t → (c_edit c =? c_write c) = bool_decide (editing t = []).
Proof.
  intros H. pose proof (total_le _ _ H) as Hle. rewrite length_app in Hle. unfold INPUT_BUF in Hle.
  rewrite (cr_write _ _ H), (cr_edit _ _ H), length_app, Nat2Z.inj_add.
  destruct (editing t) as [|x q] eqn:E; cbn [length] in *.
  - by rewrite Z.add_0_r, Z.eqb_refl.
  - case_bool_decide as Hd; [done|]. apply Z.eqb_neq. rewrite Z.add_assoc, <- wrap_add_l. apply wrap_neq; [lia|apply wrap_range].
Qed.

Lemma edit_sub_read c t : console_rep c t → wrap (c_edit c - c_read c) = Z.of_nat (length (committed t ++ editing t)).
Proof. intros H. pose proof (total_le _ _ H) as Hle. unfold INPUT_BUF in Hle. rewrite (cr_edit _ _ H). apply wrap_diff. lia. Qed.

(** Taking back the last character of the line. *)
Lemma rep_back c cm e x :
  console_rep c (mkTty cm (e ++ [x])) →
  console_rep (set_edit c (wrap (c_edit c - 1))) (mkTty cm e) ∧ buf_at c (wrap (c_edit c - 1)) = Done x.
Proof.
  intros H. destruct H as [Hr Hw He Hg]. cbn [committed editing] in *. rewrite app_assoc in He, Hg.
  assert (wrap (c_edit c - 1) = wrap (c_read c + Z.of_nat (length (cm ++ e)))) as Hb.
  { rewrite He, wrap_sub_l. f_equal. rewrite length_app. cbn. lia. }
  split.
  - split; cbn; [done|done|done|]. by eapply ring_prefix.
  - unfold buf_at. rewrite Hb, wrap_mod by (done || apply input_buf_div). destruct Hg as (_ & _ & Hg).
    rewrite (Hg (length (cm ++ e)) x); [done|]. by rewrite lookup_app_r, Nat.sub_diag by lia.
Qed.

Section Device.
Context {U : Type} {MM : Mmio U} {P : Type} {WU : WakeUp P} {M : Type} {CP : Copier M}.
Context (console_chan : Z) (fuel : nat).
(** The transmitter becomes idle while it is polled. *)
Hypothesis ready : ∀ u, ∃ u', uart_wait fuel u = Done u'.

Lemma putc_ready ch u : ∃ u', putc fuel false ch u = Done u'.
Proof using ready.
  assert (∀ c u, ∃ u', putc_sync fuel false c u = Done u') as Hs.
  { intros c u1. unfold putc_sync. destruct (ready u1) as [u2 ->]. cbn. eauto. }
  unfold putc. destruct (ch =? CTRL_BS); [|apply Hs].
  destruct (Hs CTRL_BS u) as [u1 ->]. cbn [mbind outcome_bind]. destruct (Hs 32 u1) as [u2 ->]. cbn [mbind outcome_bind]. apply Hs.
Qed.

Lemma erase_line_ok c cm e u :
  console_rep c (mkTty cm e) →
  ∃ c' u', erase_line fuel false c u = Done (c', u') ∧ console_rep c' (mkTty cm (reverse (erase_rev (reverse e)))).
Proof using ready.
  intros Hrep. unfold erase_line.
  pose (I := λ s : Console * U, ∃ e', console_rep s.1 (mkTty cm e') ∧ erase_rev (reverse e') = erase_rev (reverse e)).
  pose (meas := λ s : Console * U, wrap (c_edit s.1 - c_write s.1)).
  assert (∀ s e', console_rep s.1 (mkTty cm e') → meas s = Z.of_nat (length e')) as Hmeas.
  { intros s e' H. unfold meas. pose proof (total_le _ _ H) as Hle. unfold INPUT_BUF in Hle. cbn in Hle.
    rewrite (cr_edit _ _ H), (cr_write _ _ H). cbn. rewrite length_app in *. rewrite wrap_sub_l.
    unfold wrap. rewrite Zminus_mod_idemp_r. rewrite Z.mod_small; lia. }
  destruct (while_fuel_inv I meas (λ s, console_rep s.1 (mkTty cm (reverse (erase_rev (reverse e))))) (erase_round fuel false)) with (fuel := S (Z.to_nat INPUT_BUF)) (s := (c, u)) as ([c' u'] & Hrun & Hq).
  - intros [c1 u1] (e1 & H1 & Her). cbn [fst] in *. unfold erase_round. rewrite (edit_eq_write _ _ H1). cbn [editing].
    destruct e1 as [|x e1 _] using rev_ind.
    + left. eexists. split; [done|]. cbn. by rewrite <- Her.
    + rewrite bool_decide_eq_false_2 by (by destruct e1). destruct (rep_back _ _ _ _ H1) as [Hb ->]. cbn [mbind outcome_bind].
      rewrite reverse_snoc in Her. cbn [erase_rev] in Her. destruct (x =? CTRL_LF) eqn:Ex.
      * left. eexists. split; [done|]. cbn [fst]. rewrite <- Her, reverse_cons, reverse_involutive. exact H1.
      * right. destruct (putc_ready CTRL_BS u1) as [u2 ->]. cbn. eexists. split; [done|]. split; [by exists e1|].
        rewrite (Hmeas (_, u2) _ Hb), (Hmeas (c1, u1) _ H1), length_app. cbn. lia.
  - by exists e.
  - rewrite (Hmeas (c, u) e Hrep). pose proof (total_le _ _ Hrep) as Hle. cbn in Hle. rewrite length_app in Hle. lia.
  - rewrite (Hmeas (c, u) e Hrep). lia.
  - exists c', u'. split; [exact Hrun|exact Hq].
Qed.

Lemma console_intr_ok ch c t u procs :
  console_rep c t →
  ∃ c' u', console_intr console_chan fuel false ch c u procs =
    Done (c', u', if decide (committed (key ch t) = committed t) then procs else wake_up console_chan procs) ∧
    console_rep c' (key ch t).
Proof using ready.
  intros Hrep. destruct t as [cm e]. unfold console_intr, key. cbn [committed editing].
  destruct (ch =? CTRL_PRINT_PROCESS). { exists c, u. by rewrite decide_True. }
  destruct (ch =? CTRL_BS_LINE).
  { destruct (erase_line_ok c cm e u Hrep) as (c' & u' & -> & H'). cbn. exists c', u'. by rewrite decide_True. }
  destruct ((ch =? CTRL_BS) || (ch =? CTRL_DEL)).
  { cbn [committed editing]. rewrite decide_True by done. rewrite (edit_eq_write _ _ Hrep). cbn [editing].
    destruct e as [|x e _] using rev_ind; [by eauto|].
    rewrite bool_decide_eq_false_2 by (by destruct e). destruct (putc_ready CTRL_BS u) as [u' ->]. cbn.
    eexists _, _. split; [done|]. rewrite removelast_last. apply (rep_back _ _ _ _ Hrep). }
  rewrite (edit_sub_read _ _ Hrep). cbn [committed editing].
  destruct (ch =? 0) eqn:E0; cbn [negb andb orb]. { exists c, u. by rewrite decide_True. }
  destruct (Z.ltb_spec (Z.of_nat (length (cm ++ e))) INPUT_BUF) as [Hlt|Hge];
    [rewrite (proj2 (Z.leb_gt INPUT_BUF _)) by lia | rewrite (proj2 (Z.leb_le INPUT_BUF _)) by lia; exists c, u; by rewrite decide_True].
  set (ch' := if ch =? CTRL_CR then CTRL_LF else ch). destruct (putc_ready ch' u) as [u' ->]. cbn [mbind outcome_bind].
  set (c1 := mkConsole (<[_ := ch']> (c_buf c)) (c_read c) (c_write c) (wrap (c_edit c + 1))).
  assert (console_rep c1 (mkTty cm (e ++ [ch']))) as H1.
  { destruct Hrep as [Hr Hw He Hg]. cbn [committed editing] in *. split; cbn; [done|done| |].
    - rewrite He, wrap_add_l. f_equal. rewrite app_assoc, (length_app (cm ++ e)). cbn. lia.
    - rewrite app_assoc, He, wrap_mod by (done || apply input_buf_div). by apply ring_snoc. }
  rewrite (edit_sub_read _ _ H1). cbn [committed editing].
  destruct ((ch' =? CTRL_LF) || (ch' =? CTRL_EOT) || (Z.of_nat (length (cm ++ e ++ [ch'])) =? INPUT_BUF)); cbn [committed].
  - rewrite decide_False by (intros Hx; apply (f_equal length) in Hx; rewrite !length_app in Hx; cbn in Hx; lia).
    eexists _, _. split; [done|]. destruct H1 as [Hr Hw He Hg]. cbn [committed editing] in *.
    split; cbn; rewrite ?app_nil_r; done.
  - rewrite decide_True by done. by eauto.
Qed.

(** The reader takes the first character. *)
Lemma rep_take c x cm e :
  console_rep c (mkTty (x :: cm) e) →
  console_rep (set_read c (wrap (c_read c + 1))) (mkTty cm e) ∧ buf_at c (c_read c) = Done x ∧
  set_read (set_read c (wrap (c_read c + 1))) (wrap (wrap (c_read c + 1) - 1)) = c.
Proof using.
  intros [Hr Hw He Hg]. cbn [committed editing app] in *. split_and!.
  - split; cbn.
    + apply wrap_range.
    + rewrite Hw, wrap_add_l. f_equal. cbn. lia.
    + rewrite He, wrap_add_l. f_equal. cbn. lia.
    + by apply (ring_tail INPUT_BUF eq_refl input_buf_div _ _ x).
  - unfold buf_at. by rewrite (ring_head _ _ _ _ _ Hg).
  - unfold set_read. destruct c as [b r w e']. cbn in *. f_equal. rewrite wrap_sub_l.
    replace (r + 1 - 1) with r by lia. by apply wrap_id.
Qed.

(** Reading runs like reading the queue, with the same errors of the copy. *)
Definition same_read (e : list Z) (spec : outcome (cres * list Z * M)) (impl : outcome (cres * Console * M)) : Prop :=
  match spec with
  | Done (r, q, m) => ∃ c, impl = Done (r, c, m) ∧ console_rep c (mkTty q e)
  | Panic s => impl = Panic s
  | UB s => impl = UB s
  | NoFuel => impl = NoFuel
  end.

Lemma read_rounds killed is_user size n q e : ∀ dst rest c m,
  0 ≤ rest ≤ size → size < 2 ^ 64 → 0 ≤ dst → dst + rest < 2 ^ 64 → rest < Z.of_nat n →
  console_rep c (mkTty q e) →
  same_read e (read_queue killed is_user size dst rest q m) (while_fuel n (read_round killed is_user size) (dst, rest, c, m)).
Proof using.
  revert n. induction q as [|x q IH]; intros n dst rest c m Hl Hs Hd Hdl Hn Hrep; (destruct n as [|n]; [lia|]);
    cbn [while_fuel read_queue]; unfold read_round at 2; cbv beta iota; (destruct (Z.leb_spec rest 0) as [H0|H0];
    [rewrite (proj2 (Z.ltb_ge 0 rest)) by lia; rewrite usub_ok by lia; cbn; by eauto|]);
    rewrite (proj2 (Z.ltb_lt 0 rest)) by lia; rewrite (read_eq_write _ _ Hrep); cbn [committed].
  - cbn. destruct killed; cbn; by eauto.
  - rewrite bool_decide_eq_false_2 by done. destruct (rep_take _ _ _ _ Hrep) as (H1 & -> & Hback). cbn [mbind outcome_bind].
    destruct (x =? CTRL_EOT).
    { rewrite usub_ok by lia. cbn. eexists. split; [done|]. destruct (rest <? size); [|exact H1]. cbn in Hback. by rewrite Hback. }
    destruct (copy_from_kernel is_user dst [x] m) as [[r m']|s|s|]; cbn [mbind outcome_bind]; [|done..].
    destruct r as [|s]; [|rewrite usub_ok by lia; cbn; by eauto].
    rewrite uadd_ok, usub_ok by lia. cbn [mbind outcome_bind]. destruct (x =? CTRL_LF).
    + rewrite usub_ok by lia. cbn. replace (size - (rest - 1)) with (size - rest + 1) by lia. by eauto.
    + apply IH; [lia..|done].
Qed.
End Device.

(** C19 The console implements a line discipline on two queues.  From the empty
    state on, every character that arrives edits the line or hands it over to
    the readers exactly as the line discipline says, readers are woken exactly
    when something was handed over, and a read, also one that continues after a
    sleep, takes from the front of the queue what the line discipline says, with
    the outcome of the copies to the reader. *)
Theorem console_refines_tty {U} {MM : Mmio U} {P} {WU : WakeUp P} {M} {CP : Copier M} (console_chan : Z) (fuel : nat)
    (ready : ∀ u, ∃ u', uart_wait fuel u = Done u') :
  console_rep new_console (mkTty [] []) ∧
  (∀ ch c t u procs, console_rep c t →
     ∃ c' u', console_intr console_chan fuel false ch c u procs =
       Done (c', u', if decide (committed (key ch t) = committed t) then procs else wake_up console_chan procs) ∧
       console_rep c' (key ch t)) ∧
  (∀ killed is_user size dst rest c q e m,
     0 ≤ rest ≤ size → size < 2 ^ 64 → 0 ≤ dst → dst + rest < 2 ^ 64 → console_rep c (mkTty q e) →
     same_read e (read_queue killed is_user size dst rest q m) (console_read killed is_user size dst rest c m)).
Proof.
  split_and!; [apply console_rep_new|intros; by apply console_intr_ok|].
  intros. apply read_rounds; try done. lia.
Qed.

(** The word "hi", a correction and a line feed, read into a buffer. *)
Definition type_all {U} {MM : Mmio U} (keys : list Z) (c : Console) (u : U) : outcome (Console * U * unit) :=
  for_each keys (λ ch '(c, u, p), console_intr (WU := λ _ p, p) 0 1 false ch c u p) (c, u, tt).

Lemma console_refines_tty_witness :
  (∀ u, ∃ u', uart_wait (MM := line_device) 1 u = Done u') ∧
  console_rep new_console (mkTty [] []) ∧
  ∃ c u, type_all (MM := line_device) [104; 111; CTRL_BS; 105; CTRL_CR; 120] new_console [] = Done (c, u, tt) ∧
    ∃ c', console_read false false 10 0 10 c (replicate 10 0) = Done (CRet (Some 3), c', [104; 105; CTRL_LF; 0; 0; 0; 0; 0; 0; 0]).
Proof.
  assert (∀ u, ∃ u', uart_wait (MM := line_device) 1 u = Done u') as Hr by (intros u; by exists u).
  split; [exact Hr|].
  destruct (console_refines_tty (P := unit) (WU := λ _ p, p) (M := list Z) 0 1 Hr) as (H0 & _ & _).
  split; [exact H0|]. eexists _, _. split; [by vm_compute|]. eexists. by vm_compute.
Defined.
