(* ===== verification/Virtio.v ===== *)
(** * The disk driver

    Models [driver/virtio_disk.rs].  The part of [Disk] that the device writes,
    the used ring and the status bytes, is part of the same record, as in the
    code. *)

From Stdlib Require Import ZArith Lia.
From stdpp Require Import base gmap strings numbers list.
From S2P Require Import Prelude Address Bytes Bio Log Uart.

Local Open Scope Z_scope.

Definition NUM : Z := 8.

Definition VIRTIO_MMIO_MAGIC_VALUE : Z := 0x000.
Definition VIRTIO_MMIO_VERSION : Z := 0x004.
Definition VIRTIO_MMIO_DEVICE_ID : Z := 0x008.
Definition VIRTIO_MMIO_VENDOR_ID : Z := 0x00c.
Definition VIRTIO_MMIO_DEVICE_FEATURES : Z := 0x010.
Definition VIRTIO_MMIO_DRIVER_FEATURES : Z := 0x020.
Definition VIRTIO_MMIO_GUEST_PAGE_SIZE : Z := 0x028.
Definition VIRTIO_MMIO_QUEUE_SEL : Z := 0x030.
Definition VIRTIO_MMIO_QUEUE_NUM_MAX : Z := 0x034.
Definition VIRTIO_MMIO_QUEUE_NUM : Z := 0x038.
Definition VIRTIO_MMIO_QUEUE_PFN : Z := 0x040.
Definition VIRTIO_MMIO_QUEUE_NOTIFY : Z := 0x050.
Definition VIRTIO_MMIO_INTERRUPT_STATUS : Z := 0x060.
Definition VIRTIO_MMIO_INTERRUPT_ACK : Z := 0x064.
Definition VIRTIO_MMIO_STATUS : Z := 0x070.

Definition VIRTIO_CONFIG_S_ACKNOWLEDGE : Z := 1.
Definition VIRTIO_CONFIG_S_DRIVER : Z := 2.
Definition VIRTIO_CONFIG_S_DRIVER_OK : Z := 4.
Definition VIRTIO_CONFIG_S_FEATURES_OK : Z := 8.

Definition VIRTIO_BLK_F_RO : Z := 5.
Definition VIRTIO_BLK_F_SCSI : Z := 7.
Definition VIRTIO_BLK_F_CONFIG_WCE : Z := 11.
Definition VIRTIO_BLK_F_MQ : Z := 12.
Definition VIRTIO_F_ANY_LAYOUT : Z := 27.
Definition VIRTIO_RING_F_INDIRECT_DESC : Z := 28.
Definition VIRTIO_RING_F_EVENT_IDX : Z := 29.

Definition VRING_DESC_F_NEXT : Z := 1.
Definition VRING_DESC_F_WRITE : Z := 2.
Definition VIRTIO_BLK_T_IN : Z := 0.
Definition VIRTIO_BLK_T_OUT : Z := 1.

(** ** Data *)

Record VQDesc := mkDesc { vd_addr : Z; vd_len : Z; vd_flags : Z; vd_next : Z }.
Definition new_desc : VQDesc := mkDesc 0 0 0 0.

Record VQAvail := mkAvail { av_idx : Z; av_ring : list Z }.
Definition new_avail : VQAvail := mkAvail 0 (replicate (Z.to_nat NUM) 0).

(** The ring holds the [id]s; the [len]s are not read. *)
Record VQUsed := mkUsed { us_idx : Z; us_ring : list Z }.
Definition new_used : VQUsed := mkUsed 0 (replicate (Z.to_nat NUM) 0).

Record Info := mkInfo { in_channel : option Z; in_status : Z; in_disk : bool }.
Definition new_info : Info := mkInfo None 0 false.

Record VirtIOBlkReq := mkReq { rq_type : Z; rq_reserved : Z; rq_sector : Z }.
Definition new_req : VirtIOBlkReq := mkReq 0 0 0.

Record Disk := mkDisk {
  v_desc : list VQDesc;
  v_avail : VQAvail;
  v_used : VQUsed;
  v_free : list bool;
  v_used_idx : Z;
  v_info : list Info;
  v_ops : list VirtIOBlkReq;
}.

Definition new_disk : Disk :=
  mkDisk (replicate (Z.to_nat NUM) new_desc) new_avail new_used (replicate (Z.to_nat NUM) false) 0
    (replicate (Z.to_nat NUM) new_info) (replicate (Z.to_nat NUM) new_req).

Definition with_desc (d : Disk) (x : list VQDesc) : Disk :=
  mkDisk x (v_avail d) (v_used d) (v_free d) (v_used_idx d) (v_info d) (v_ops d).
Definition with_avail (d : Disk) (x : VQAvail) : Disk :=
  mkDisk (v_desc d) x (v_used d) (v_free d) (v_used_idx d) (v_info d) (v_ops d).
Definition with_free (d : Disk) (x : list bool) : Disk :=
  mkDisk (v_desc d) (v_avail d) (v_used d) x (v_used_idx d) (v_info d) (v_ops d).
Definition with_used_idx (d : Disk) (x : Z) : Disk :=
  mkDisk (v_desc d) (v_avail d) (v_used d) (v_free d) x (v_info d) (v_ops d).
Definition with_info (d : Disk) (x : list Info) : Disk :=
  mkDisk (v_desc d) (v_avail d) (v_used d) (v_free d) (v_used_idx d) x (v_ops d).
Definition with_ops (d : Disk) (x : list VirtIOBlkReq) : Disk :=
  mkDisk (v_desc d) (v_avail d) (v_used d) (v_free d) (v_used_idx d) (v_info d) x.

(** [a[i]] and [a[i] = x], with their bounds check. *)
Definition at_ {A} (xs : list A) (i : Z) : outcome A := unwrap "index out of bounds" (xs !! Z.to_nat i).
Definition set_at {A} (xs : list A) (i : Z) (x : A) : outcome (list A) :=
  if i <? Z.of_nat (length xs) then Done (<[Z.to_nat i := x]> xs) else Panic "index out of bounds".

Definition u16add (a b : Z) : outcome Z := chk 16 (a + b).

Section Ops.
Context {U : Type} {MM : Mmio U} {P : Type} {WU : WakeUp P}.
(** Addresses: the whole structure, and the channel [&self.free[0]]. *)
Context (self_addr free_chan : Z) (ops_addr status_addr : Z → Z).

Definition reg_read (offset : Z) (u : U) : Z * U := mmio_read (VIRTIO0 + offset) u.
Definition reg_write (offset data : Z) (u : U) : U := mmio_write (VIRTIO0 + offset) data u.

(** The identification registers, read in order until one is wrong. *)
Fixpoint check_regs (regs : list (Z * Z)) (u : U) : outcome U :=
  match regs with
  | [] => Done u
  | (o, v) :: regs =>
      let '(x, u) := reg_read o u in
      if x =? v then check_regs regs u else Panic "could not find virtio disk"
  end.

Definition clear_features (features : Z) : Z :=
  foldl (λ f b, Z.land f (unot 32 (Z.shiftl 1 b))) features
    [VIRTIO_BLK_F_RO; VIRTIO_BLK_F_SCSI; VIRTIO_BLK_F_CONFIG_WCE; VIRTIO_BLK_F_MQ; VIRTIO_F_ANY_LAYOUT;
     VIRTIO_RING_F_EVENT_IDX; VIRTIO_RING_F_INDIRECT_DESC].

(** [init]: the descriptors start a page, the used ring the next one and the
    rest a third one. *)
Definition disk_init (d : Disk) (u : U) : outcome (Disk * U) :=
  _ ← ensure (self_addr mod PGSIZE =? 0) "assertion failed";
  _ ← ensure ((self_addr + PGSIZE) mod PGSIZE =? 0) "assertion failed";
  _ ← ensure ((self_addr + 2 * PGSIZE) mod PGSIZE =? 0) "assertion failed";
  u ← check_regs [(VIRTIO_MMIO_MAGIC_VALUE, 0x74726976); (VIRTIO_MMIO_VERSION, 1);
                  (VIRTIO_MMIO_DEVICE_ID, 2); (VIRTIO_MMIO_VENDOR_ID, 0x554d4551)] u;
  let status := Z.lor 0 VIRTIO_CONFIG_S_ACKNOWLEDGE in
  let u := reg_write VIRTIO_MMIO_STATUS status u in
  let status := Z.lor status VIRTIO_CONFIG_S_DRIVER in
  let u := reg_write VIRTIO_MMIO_STATUS status u in
  let '(features, u) := reg_read VIRTIO_MMIO_DEVICE_FEATURES u in
  let u := reg_write VIRTIO_MMIO_DRIVER_FEATURES (clear_features features) u in
  let status := Z.lor status VIRTIO_CONFIG_S_FEATURES_OK in
  let u := reg_write VIRTIO_MMIO_STATUS status u in
  let status := Z.lor status VIRTIO_CONFIG_S_DRIVER_OK in
  let u := reg_write VIRTIO_MMIO_STATUS status u in
  let u := reg_write VIRTIO_MMIO_GUEST_PAGE_SIZE PGSIZE u in
  let u := reg_write VIRTIO_MMIO_QUEUE_SEL 0 u in
  let '(max, u) := reg_read VIRTIO_MMIO_QUEUE_NUM_MAX u in
  if max =? 0 then Panic "virtio disk has no queue 0"
  else if max <? NUM then Panic "virtio disk max queue short than NUM"
  else
    let u := reg_write VIRTIO_MMIO_QUEUE_NUM NUM u in
    let pfn := Z.shiftr self_addr PGSHIFT in
    _ ← ensure (pfn <? 2 ^ 32) "called `Result::unwrap()` on an `Err` value";
    let u := reg_write VIRTIO_MMIO_QUEUE_PFN pfn u in
    Done (with_free d ((λ _, true) <$> v_free d), u).

(** ** Descriptors *)

Definition alloc_round (i : Z) (d : Disk) : outcome (Z * Disk + Disk) :=
  f ← at_ (v_free d) i;
  if (f : bool) then
    fr ← set_at (v_free d) i false;
    Done (inl (i, with_free d fr))
  else Done (inr d).

Definition alloc_desc (d : Disk) : outcome (option Z * Disk) :=
  r ← for_range_until 0 NUM alloc_round d;
  match r with
  | inl (i, d) => Done (Some i, d)
  | inr d => Done (None, d)
  end.

Definition free_desc (i : Z) (d : Disk) (procs : P) : outcome (Disk * P) :=
  if NUM <=? i then Panic "desc index not correct"
  else
    f ← at_ (v_free d) i;
    if (f : bool) then Panic "desc index not correct"
    else
      ds ← set_at (v_desc d) i new_desc;
      fr ← set_at (v_free d) i true;
      Done (with_free (with_desc d ds) fr, wake_up free_chan procs).

(** [alloc3_desc]: when a descriptor is missing the loop gives back [0..i]. *)
Definition alloc3_desc (d : Disk) (procs : P) : outcome (option (list Z) * Disk * P) :=
  r ← for_range_until 0 3 (λ i '(idx, d, procs),
    '(o, d) ← alloc_desc d;
    match o with
    | Some ix => Done (inr (idx ++ [ix], d, procs))
    | None =>
        '(d, procs) ← for_range 0 i (λ j '(d, procs), free_desc j d procs) (d, procs);
        Done (inl (d, procs))
    end) ([], d, procs);
  match r with
  | inl (d, procs) => Done (None, d, procs)
  | inr (idx, d, procs) => Done (Some idx, d, procs)
  end.

(** [free_chain]; a chain has at most [NUM] descriptors. *)
Definition free_chain (i : Z) (d : Disk) (procs : P) : outcome (Disk * P) :=
  while_fuel (S (Z.to_nat NUM)) (λ '(i, d, procs),
    x ← at_ (v_desc d) i;
    '(d, procs) ← free_desc i d procs;
    if Z.land (vd_flags x) VRING_DESC_F_NEXT =? 0 then Done (inl (d, procs))
    else Done (inr (vd_next x, d, procs))) (i, d, procs).

(** ** Requests *)

(** The three descriptors and the bookkeeping of a request. *)
Definition format_desc (idx : list Z) (blockno buf : Z) (writing : bool) (d : Disk) : outcome (Z * Disk) :=
  i0 ← at_ idx 0;
  i1 ← at_ idx 1;
  i2 ← at_ idx 2;
  sector ← umul blockno (BSIZE / 512);
  ops ← set_at (v_ops d) i0 (mkReq (if writing then VIRTIO_BLK_T_OUT else VIRTIO_BLK_T_IN) 0 sector);
  ds ← set_at (v_desc d) i0 (mkDesc (ops_addr i0) 16 VRING_DESC_F_NEXT i1);
  ds ← set_at ds i1 (mkDesc buf BSIZE (Z.lor (if writing then 0 else VRING_DESC_F_WRITE) VRING_DESC_F_NEXT) i2);
  ds ← set_at ds i2 (mkDesc (status_addr i0) 1 VRING_DESC_F_WRITE 0);
  info ← set_at (v_info d) i0 (mkInfo (Some buf) 0xff true);
  Done (i0, with_info (with_desc (with_ops d ops) ds) info).

(** [rw] up to the wait for the device: [None] when the process sleeps because
    descriptors are missing. *)
Definition rw_start (blockno buf : Z) (writing : bool) (d : Disk) (u : U) (procs : P) :
    outcome (option Z * Disk * U * P) :=
  '(r, d, procs) ← alloc3_desc d procs;
  match r with
  | None => Done (None, d, u, procs)
  | Some idx =>
      '(i0, d) ← format_desc idx blockno buf writing d;
      ring ← set_at (av_ring (v_avail d)) (av_idx (v_avail d) mod NUM) i0;
      n ← u16add (av_idx (v_avail d)) 1;
      Done (Some i0, with_avail d (mkAvail n ring), reg_write VIRTIO_MMIO_QUEUE_NOTIFY 0 u, procs)
  end.

(** The rest of [rw]: [None] while the device has the buffer. *)
Definition rw_finish (i0 buf : Z) (d : Disk) (procs : P) : outcome (option (Disk * P)) :=
  x ← at_ (v_info d) i0;
  if in_disk x then Done None
  else
    info ← set_at (v_info d) i0 (mkInfo None (in_status x) (in_disk x));
    chan ← unwrap "called `Option::unwrap()` on a `None` value" (in_channel x);
    _ ← ensure (chan =? buf) "assertion failed";
    r ← free_chain i0 (with_info d info) procs;
    Done (Some r).

(** [Disk::intr]; the number of new entries of the used ring bounds the loop. *)
Definition disk_intr (d : Disk) (u : U) (procs : P) : outcome (Disk * U * P) :=
  let '(intr_stat, u) := reg_read VIRTIO_MMIO_INTERRUPT_STATUS u in
  let u := reg_write VIRTIO_MMIO_INTERRUPT_ACK (Z.land intr_stat 0x3) u in
  '(d, procs) ← while_fuel (S (Z.to_nat ((us_idx (v_used d) - v_used_idx d) mod 2 ^ 16))) (λ '(d, procs),
    if v_used_idx d =? us_idx (v_used d) then Done (inl (d, procs))
    else
      id ← at_ (us_ring (v_used d)) (v_used_idx d mod NUM);
      x ← at_ (v_info d) id;
      if negb (in_status x =? 0) then Panic "interrupt status"
      else
        chan ← unwrap "virtio disk intr handler not found pre-stored buf channel to wakeup" (in_channel x);
        info ← set_at (v_info d) id (mkInfo (in_channel x) (in_status x) false);
        let procs := wake_up chan procs in
        n ← u16add (v_used_idx d) 1;
        Done (inr (with_used_idx (with_info d info) n, procs))) (d, procs);
  Done (d, u, procs).
End Ops.
