(* ===== verification/VirtioTheorems.v ===== *)
(** * Correctness of the disk driver *)

From Stdlib Require Import ZArith Lia.
From stdpp Require Import base gmap strings numbers list.
From S2P Require Import Prelude Address Bytes Bio Log Uart Virtio.

Local Open Scope Z_scope.

(** All arrays have [NUM] elements and the indices their width. *)
Record disk_wf (d : Disk) : Prop := {
  wf_desc : length (v_desc d) = 8%nat;
  wf_free : length (v_free d) = 8%nat;
  wf_info : length (v_info d) = 8%nat;
  wf_ops : length (v_ops d) = 8%nat;
  wf_ring : length (av_ring (v_avail d)) = 8%nat;
  wf_avail : 0 ≤ av_idx (v_avail d) < 2 ^ 16;
  wf_used : 0 ≤ v_used_idx d < 2 ^ 16;
}.

Lemma at_ok {A} (xs : list A) (i : nat) x : xs !! i = Some x → at_ xs (Z.of_nat i) = Done x.
Proof. intros H. unfold at_. by rewrite Nat2Z.id, H. Qed.

Lemma set_at_ok {A} (xs : list A) (i : nat) x : (i < length xs)%nat → set_at xs (Z.of_nat i) x = Done (<[i := x]> xs).
Proof. intros H. unfold set_at. rewrite (proj2 (Z.ltb_lt _ _)) by lia. by rewrite Nat2Z.id. Qed.

(** The lowest free descriptor. *)
Definition lowest_free (fr : list bool) (i : nat) : Prop := fr !! i = Some true ∧ ∀ j, (j < i)%nat → fr !! j = Some false.

Lemma alloc_scan d r : ∀ k, (∀ j, (j < k)%nat → v_free d !! j = Some false) → length (v_free d) = (k + r)%nat →
  (∃ i, lowest_free (v_free d) i ∧
     for_each_until (seqZ (Z.of_nat k) (Z.of_nat r)) alloc_round d = Done (inl (Z.of_nat i, with_free d (<[i := false]> (v_free d))))) ∨
  ((∀ j, (j < k + r)%nat → v_free d !! j = Some false) ∧
     for_each_until (seqZ (Z.of_nat k) (Z.of_nat r)) alloc_round d = Done (inr d)).
Proof.
  induction r as [|r IH]; intros k Hk Hlen.
  - right. split; [intros j Hj; apply Hk; lia|]. done.
  - rewrite seqZ_cons by lia. cbn [for_each_until]. unfold alloc_round at 2 4.
    destruct (lookup_lt_is_Some_2 (v_free d) k) as [b Hb]; [lia|]. rewrite (at_ok _ _ _ Hb). cbn [mbind outcome_bind]. destruct b.
    + left. exists k. split; [by split|]. rewrite set_at_ok by lia. done.
    + replace (Z.succ (Z.of_nat k)) with (Z.of_nat (S k)) by lia. replace (Z.pred (Z.of_nat (S r))) with (Z.of_nat r) by lia.
      destruct (IH (S k)) as [H|[Hall H]]; [|lia|by left|].
      * intros j Hj. destruct (decide (j = k)) as [->|]; [done|]. apply Hk. lia.
      * right. split; [intros j Hj; apply Hall; lia|done].
Qed.

Lemma alloc_desc_ok d : length (v_free d) = 8%nat →
  (∃ i, lowest_free (v_free d) i ∧ alloc_desc d = Done (Some (Z.of_nat i), with_free d (<[i := false]> (v_free d)))) ∨
  ((∀ j, (j < 8)%nat → v_free d !! j = Some false) ∧ alloc_desc d = Done (None, d)).
Proof.
  intros Hl. unfold alloc_desc, for_range_until. change (seqZ 0 (NUM - 0)) with (seqZ (Z.of_nat 0) (Z.of_nat 8)).
  destruct (alloc_scan d 8 0) as [(i & Hi & ->)|[Hall ->]]; [lia|done| |]; eauto.
Qed.

Lemma lowest_free_lt fr i : length fr = 8%nat → lowest_free fr i → (i < 8)%nat.
Proof. intros Hl [H _]. apply lookup_lt_Some in H. lia. Qed.

(** The three descriptors that are taken. *)
Record taken3 (fr : list bool) (i0 i1 i2 : nat) : Prop := {
  t3_0 : lowest_free fr i0;
  t3_1 : lowest_free (<[i0 := false]> fr) i1;
  t3_2 : lowest_free (<[i1 := false]> (<[i0 := false]> fr)) i2;
}.

Lemma taken3_distinct fr i0 i1 i2 : length fr = 8%nat → taken3 fr i0 i1 i2 →
  i0 ≠ i1 ∧ i0 ≠ i2 ∧ i1 ≠ i2 ∧ (i0 < 8)%nat ∧ (i1 < 8)%nat ∧ (i2 < 8)%nat ∧
  fr !! i0 = Some true ∧ fr !! i1 = Some true ∧ fr !! i2 = Some true.
Proof.
  intros Hl [[H0 _] [H1 _] [H2 _]].
  pose proof (lookup_lt_Some _ _ _ H0) as L0. pose proof (lookup_lt_Some _ _ _ H1) as L1. pose proof (lookup_lt_Some _ _ _ H2) as L2.
  rewrite ?length_insert in *.
  assert (i0 ≠ i1) by (intros <-; by rewrite list_lookup_insert_eq in H1 by lia).
  assert (i1 ≠ i2) by (intros <-; by rewrite list_lookup_insert_eq in H2 by (rewrite length_insert; lia)).
  rewrite list_lookup_insert_ne in H2 by done.
  assert (i0 ≠ i2) by (intros <-; by rewrite list_lookup_insert_eq in H2 by lia).
  rewrite list_lookup_insert_ne in H1 by done. rewrite list_lookup_insert_ne in H2 by done.
  rewrite Hl in *. split_and!; done.
Qed.

Definition take3 (fr : list bool) (i0 i1 i2 : nat) : list bool := <[i2 := false]> (<[i1 := false]> (<[i0 := false]> fr)).



Section Ops.
Context {U : Type} {MM : Mmio U} {P : Type} {WU : WakeUp P} (free_chan : Z) (ops_addr status_addr : Z → Z).


(** With three free descriptors [alloc3_desc] takes the lowest ones. *)
Lemma alloc3_ok d procs i0 i1 i2 : length (v_free d) = 8%nat → taken3 (v_free d) i0 i1 i2 →
  alloc3_desc free_chan d procs = Done (Some [Z.of_nat i0; Z.of_nat i1; Z.of_nat i2], with_free d (take3 (v_free d) i0 i1 i2), procs).
Proof.
  intros Hl Ht. unfold alloc3_desc, for_range_until. change (seqZ 0 (3 - 0)) with [0; 1; 2]. cbn [for_each_until].
  assert (∀ e i, length (v_free e) = 8%nat → lowest_free (v_free e) i →
    alloc_desc e = Done (Some (Z.of_nat i), with_free e (<[i := false]> (v_free e)))) as Ha.
  { intros e i Hle [Hi Hlow]. destruct (alloc_desc_ok e Hle) as [(k & [Hk Hk'] & ->)|[Hall _]].
    - assert (k = i) as ->; [|done]. destruct (Nat.lt_trichotomy k i) as [?|[?|?]]; [|done|].
      + specialize (Hlow k). rewrite Hk in Hlow. by discriminate Hlow.
      + specialize (Hk' i). rewrite Hi in Hk'. by discriminate Hk'.
    - pose proof (lookup_lt_Some _ _ _ Hi). rewrite Hall in Hi by lia. done. }
  rewrite (Ha d i0 Hl (t3_0 _ _ _ _ Ht)). cbn [mbind outcome_bind app].
  rewrite (Ha (with_free d _) i1); [|cbn; by rewrite length_insert|apply Ht]. cbn [mbind outcome_bind app].
  rewrite (Ha (with_free (with_free d _) _) i2); [|cbn; by rewrite !length_insert|apply Ht]. done.
Qed.

(** The chain of a request. *)
Record chain_at (ds : list VQDesc) (i0 i1 i2 : nat) (buf : Z) (writing : bool) : Prop := {
  ch_0 : ds !! i0 = Some (mkDesc (ops_addr (Z.of_nat i0)) 16 VRING_DESC_F_NEXT (Z.of_nat i1));
  ch_1 : ds !! i1 = Some (mkDesc buf BSIZE (Z.lor (if writing then 0 else VRING_DESC_F_WRITE) VRING_DESC_F_NEXT) (Z.of_nat i2));
  ch_2 : ds !! i2 = Some (mkDesc (status_addr (Z.of_nat i0)) 1 VRING_DESC_F_WRITE 0);
}.


(** The state after a request has been handed to the device. *)
Definition requested (d : Disk) (i0 i1 i2 : nat) (blockno buf : Z) (writing : bool) : Disk :=
  mkDisk (<[i2 := mkDesc (status_addr (Z.of_nat i0)) 1 VRING_DESC_F_WRITE 0]>
           (<[i1 := mkDesc buf BSIZE (Z.lor (if writing then 0 else VRING_DESC_F_WRITE) VRING_DESC_F_NEXT) (Z.of_nat i2)]>
             (<[i0 := mkDesc (ops_addr (Z.of_nat i0)) 16 VRING_DESC_F_NEXT (Z.of_nat i1)]> (v_desc d))))
    (mkAvail (av_idx (v_avail d) + 1) (<[Z.to_nat (av_idx (v_avail d) mod NUM) := Z.of_nat i0]> (av_ring (v_avail d))))
    (v_used d) (take3 (v_free d) i0 i1 i2) (v_used_idx d)
    (<[i0 := mkInfo (Some buf) 0xff true]> (v_info d))
    (<[i0 := mkReq (if writing then VIRTIO_BLK_T_OUT else VIRTIO_BLK_T_IN) 0 (blockno * (BSIZE / 512))]> (v_ops d)).

Lemma format_desc_ok d i0 i1 i2 blockno buf writing :
  disk_wf d → (i0 < 8)%nat → (i1 < 8)%nat → (i2 < 8)%nat → 0 ≤ blockno < 2 ^ 32 →
  format_desc ops_addr status_addr [Z.of_nat i0; Z.of_nat i1; Z.of_nat i2] blockno buf writing d =
    Done (Z.of_nat i0, with_info (with_desc (with_ops d (v_ops (requested d i0 i1 i2 blockno buf writing)))
      (v_desc (requested d i0 i1 i2 blockno buf writing))) (v_info (requested d i0 i1 i2 blockno buf writing))).
Proof.
  intros [Hd Hf Hi Ho _ _ _] L0 L1 L2 Hb. unfold format_desc. cbn [at_ unwrap lookup list_lookup Z.to_nat mbind outcome_bind].
  change (at_ [_; _; _] 0) with (Done (Z.of_nat i0)). change (at_ [_; _; _] 1) with (Done (Z.of_nat i1)).
  change (at_ [_; _; _] 2) with (Done (Z.of_nat i2)). cbn [mbind outcome_bind].
  rewrite umul_ok by (change (BSIZE / 512) with 2; lia). cbn [mbind outcome_bind].
  rewrite (set_at_ok (v_ops d)) by lia. cbn [mbind outcome_bind]. rewrite (set_at_ok (v_desc d)) by lia. cbn [mbind outcome_bind].
  rewrite (set_at_ok (<[i0:=_]> (v_desc d))) by (rewrite length_insert; lia). cbn [mbind outcome_bind].
  rewrite (set_at_ok (<[i1:=_]> _)) by (rewrite !length_insert; lia). cbn [mbind outcome_bind].
  rewrite (set_at_ok (v_info d)) by lia. done.
Qed.

Lemma rw_start_ok d u procs i0 i1 i2 blockno buf writing :
  disk_wf d → taken3 (v_free d) i0 i1 i2 → 0 ≤ blockno < 2 ^ 32 →
  rw_start free_chan ops_addr status_addr blockno buf writing d u procs =
    if av_idx (v_avail d) =? 2 ^ 16 - 1 then Panic "arithmetic overflow"
    else Done (Some (Z.of_nat i0), requested d i0 i1 i2 blockno buf writing, reg_write VIRTIO_MMIO_QUEUE_NOTIFY 0 u, procs).
Proof.
  intros Hwf Ht Hb. destruct (taken3_distinct _ _ _ _ (wf_free _ Hwf) Ht) as (_ & _ & _ & L0 & L1 & L2 & _).
  unfold rw_start. rewrite (alloc3_ok d procs i0 i1 i2 (wf_free _ Hwf) Ht). cbn [mbind outcome_bind].
  rewrite format_desc_ok; [|by destruct Hwf; split; cbn; try done; unfold take3; rewrite !length_insert|done..]. cbn [mbind outcome_bind].
  assert (0 ≤ av_idx (v_avail d) mod NUM < 8) as Hm by (apply Z.mod_pos_bound; done).
  cbn [v_avail with_info with_desc with_ops with_free].
  rewrite <- (Z2Nat.id (av_idx (v_avail d) mod NUM)) by lia. rewrite set_at_ok by (rewrite (wf_ring _ Hwf); lia). cbn [mbind outcome_bind].
  unfold u16add. pose proof (wf_avail _ Hwf) as Ha. destruct (Z.eqb_spec (av_idx (v_avail d)) (2 ^ 16 - 1)) as [He|Hne].
  - unfold chk, in_width. rewrite (proj2 (Z.ltb_ge _ _)) by lia. by rewrite andb_false_r.
  - rewrite chk_ok by lia. cbn [mbind outcome_bind]. done.
Qed.

Lemma requested_wf d i0 i1 i2 blockno buf writing :
  disk_wf d → av_idx (v_avail d) ≠ 2 ^ 16 - 1 → disk_wf (requested d i0 i1 i2 blockno buf writing).
Proof. intros [Hd Hf Hi Ho Hr Ha Hu] Hne. split; cbn; unfold take3; rewrite ?length_insert; try done. lia. Qed.






End Ops.


(** The driver after [init], all descriptors free. *)
Definition ready_disk : Disk := with_free new_disk (replicate 8 true).

Lemma ready_disk_wf : disk_wf ready_disk.
Proof. by split. Qed.

Lemma ready_taken : taken3 (v_free ready_disk) 0 1 2.
Proof. split; (split; [done|]); intros j Hj; (repeat (destruct j as [|j]; [done|])); lia. Qed.


(** Every request moves the index of the available ring by one, and the
    index is a checked 16-bit integer: whatever the device does, the request
    that finds it at 65535 panics. *)
Theorem rw_index_overflow {U} {MM : Mmio U} {P} {WU : WakeUp P} free_chan ops_addr status_addr d u procs i0 i1 i2 blockno buf writing
    (Hwf : disk_wf d) (Hfree : taken3 (v_free d) i0 i1 i2) (Hb : 0 ≤ blockno < 2 ^ 32) :
  if av_idx (v_avail d) =? 2 ^ 16 - 1 then rw_start free_chan ops_addr status_addr blockno buf writing d u procs = Panic "arithmetic overflow"
  else ∃ d' u', rw_start free_chan ops_addr status_addr blockno buf writing d u procs = Done (Some (Z.of_nat i0), d', u', procs) ∧
    av_idx (v_avail d') = av_idx (v_avail d) + 1.
Proof.
  rewrite (rw_start_ok _ _ _ _ _ _ i0 i1 i2) by done. destruct (_ =? _); [done|]. by eexists _, _.
Qed.

Lemma rw_index_overflow_witness :
  rw_start (MM := line_device) (WU := λ _ p, p) 0 (λ i, i) (λ i, i) 5 4096 true
    (with_avail ready_disk (mkAvail 65535 (replicate 8 0))) [] tt = Panic "arithmetic overflow".
Proof.
  apply (rw_index_overflow (MM := line_device) (WU := λ _ p, p) 0 (λ i, i) (λ i, i) (with_avail ready_disk (mkAvail 65535 (replicate 8 0))) [] tt 0 1 2);
    [by split|apply ready_taken|lia].
Defined.

(** With two requests in the hands of the device a third one finds only two
    free descriptors.  The driver takes them and then gives back descriptors 0
    and 1 instead: the header and the data descriptor of the first request are
    cleared and free while the device works on them, and descriptors 6 and 7 are
    lost. *)
Theorem alloc3_frees_in_flight {U} {MM : Mmio U} {P} {WU : WakeUp P} free_chan ops_addr status_addr u procs b1 b2 b3 a1 a2 a3 w1 w2 w3
    (H1 : 0 ≤ b1 < 2 ^ 32) (H2 : 0 ≤ b2 < 2 ^ 32) :
  ∃ d1 u1 d2 u2 d3 procs3,
    rw_start free_chan ops_addr status_addr b1 a1 w1 ready_disk u procs = Done (Some 0, d1, u1, procs) ∧
    rw_start free_chan ops_addr status_addr b2 a2 w2 d1 u1 procs = Done (Some 3, d2, u2, procs) ∧
    chain_at ops_addr status_addr (v_desc d2) 0 1 2 a1 w1 ∧
    rw_start free_chan ops_addr status_addr b3 a3 w3 d2 u2 procs = Done (None, d3, u2, procs3) ∧
    v_desc d3 !! 0%nat = Some new_desc ∧ v_desc d3 !! 1%nat = Some new_desc ∧
    v_free d3 = [true; true; false; false; false; false; false; false].
Proof.
  rewrite (rw_start_ok (MM := MM) _ _ _ _ _ _ 0 1 2); [|apply ready_disk_wf|apply ready_taken|done]. cbn [av_idx v_avail ready_disk with_free new_disk new_avail Z.eqb].
  set (d1 := requested _ _ ready_disk _ _ _ _ _ _). set (u1 := reg_write VIRTIO_MMIO_QUEUE_NOTIFY 0 u).
  assert (taken3 (v_free d1) 3 4 5) as Ht.
  { split; (split; [done|]); intros j Hj; (repeat (destruct j as [|j]; [done|])); lia. }
  eexists d1, u1, _, _, _, _. split; [done|].
  rewrite (rw_start_ok (MM := MM) _ _ _ _ _ _ 3 4 5); [|by apply requested_wf; [apply ready_disk_wf|]|exact Ht|done].
  change (av_idx (v_avail d1) =? 2 ^ 16 - 1) with false. split; [done|]. split; [by split|]. split; [done|]. done.
Qed.

Lemma alloc3_frees_in_flight_witness :
  ∃ d2 u2 d3 procs3, chain_at (λ i, i) (λ i, i) (v_desc d2) 0 1 2 4096 false ∧
    rw_start (MM := line_device) (WU := λ _ p, p) 0 (λ i, i) (λ i, i) 3 12288 false d2 u2 tt = Done (None, d3, u2, procs3) ∧
    v_desc d3 !! 0%nat = Some new_desc ∧ v_free d3 = [true; true; false; false; false; false; false; false].
Proof.
  destruct (alloc3_frees_in_flight (MM := line_device) (WU := λ _ p, p) 0 (λ i, i) (λ i, i) [] tt 1 2 3 4096 8192 12288 false false false
    ltac:(lia) ltac:(lia)) as (d1 & u1 & d2 & u2 & d3 & procs3 & E1 & E2 & Hc & E3 & Hd & _ & Hf).
  exists d2, u2, d3, procs3. split; [exact Hc|]. split; [exact E3|]. split; [exact Hd|exact Hf].
Defined.
