(* ===== verification/Mbuf.v ===== *)
(** * Message buffers

    Models [net/mbuf.rs].  A buffer is the address of its storage, with the
    [head] as an address and the [len] of the message. *)

From Stdlib Require Import ZArith Lia.
From stdpp Require Import base strings numbers.
From S2P Require Import Prelude.

Local Open Scope Z_scope.

Definition MBUF_SIZE : Z := 2048.
Definition MBUF_DEFAULT_HEADROOM : Z := 128.

Record MBuf := mkMBuf {
  mb_buf : Z;
  mb_head : Z;
  mb_len : Z;
}.

Definition mbuf_allocate (buf headroom : Z) : outcome (result MBuf) :=
  if MBUF_SIZE <? headroom then Done (Err "headroom is larger than MBUF_SIZE.")
  else
    head ← uadd buf headroom;
    Done (Ok (mkMBuf buf head 0)).

Definition pull (len : Z) (m : MBuf) : outcome (option Z * MBuf) :=
  let tmp := mb_head m in
  if mb_len m <? len then Done (None, m)
  else
    n ← u32sub (mb_len m) len;
    head ← uadd (mb_head m) len;
    Done (Some tmp, mkMBuf (mb_buf m) head n).

Definition push (len : Z) (m : MBuf) : outcome (Z * MBuf) :=
  head ← usub (mb_head m) len;
  if head <? mb_buf m then Panic "mbuf_push():"
  else
    n ← u32add (mb_len m) len;
    Done (head, mkMBuf (mb_buf m) head n).

Definition put (len : Z) (m : MBuf) : outcome (Z * MBuf) :=
  tmp ← uadd (mb_head m) (mb_len m);
  n ← u32add (mb_len m) len;
  if MBUF_SIZE <? n then Panic "MBUF put(): len out of the limit of MBUF_SIZE."
  else Done (tmp, mkMBuf (mb_buf m) (mb_head m) n).

Definition trim (len : Z) (m : MBuf) : outcome (option Z * MBuf) :=
  if mb_len m <? len then Done (None, m)
  else
    n ← u32sub (mb_len m) len;
    a ← uadd (mb_head m) n;
    Done (Some a, mkMBuf (mb_buf m) (mb_head m) n).
