(* ===== verification/Trap.v ===== *)
(** * Traps

    Models [trap.rs] and [system_reset] of [shutdown.rs].  The handlers of the
    devices, which have a state of their own, are arguments. *)

From Stdlib Require Import ZArith Lia.
From stdpp Require Import base gmap strings numbers list.
From S2P Require Import Prelude Address Pte PhysMem PageTable Bytes Bio DiskLayout Log Bitmap Inode Path File Registers Cpu Proc Kernel Exec.
From S2P Require Import Syscall.

Local Open Scope Z_scope.

(** ** Reset of the machine *)

Definition SHUTDOWN : Z := 8.
Definition REBOOT : Z := 9.
Definition RESET_TYPE_SHUTDOWN : Z := 0.
Definition RESET_TYPE_COLD_REBOOT : Z := 1.
Definition RESET_TYPE_WARM_REBOOT : Z := 2.
Definition RESET_REASON_NO_REASON : Z := 0.
Definition RESET_REASON_SYSTEM_FAILURE : Z := 1.
Definition TEST_FAIL : Z := 0x3333.
Definition TEST_PASS : Z := 0x5555.
Definition TEST_RESET : Z := 0x7777.

(** The word [system_reset] writes to the test device. *)
Definition system_reset (reset_type reset_reason : Z) : Z :=
  let value := if reset_type =? RESET_TYPE_SHUTDOWN then TEST_PASS
               else if reset_type =? RESET_TYPE_COLD_REBOOT then TEST_RESET
               else if reset_type =? RESET_TYPE_WARM_REBOOT then TEST_RESET
               else TEST_FAIL in
  if reset_reason =? RESET_REASON_SYSTEM_FAILURE then TEST_FAIL else value.

(** ** Updates of single registers *)

Definition set_sstatus (v : Z) (r : csrs) : csrs :=
  mkCsrs v (sie r) (sip r) (scause r) (sepc r) (stval r) (stvec r) (satp r) (mstatus r) (mie r) (mepc r)
    (medeleg r) (mideleg r) (mtvec r) (mscratch r) (mhartid r) (pmpcfg0 r) (pmpaddr0 r) (tp r).
Definition set_sip (v : Z) (r : csrs) : csrs :=
  mkCsrs (sstatus r) (sie r) v (scause r) (sepc r) (stval r) (stvec r) (satp r) (mstatus r) (mie r) (mepc r)
    (medeleg r) (mideleg r) (mtvec r) (mscratch r) (mhartid r) (pmpcfg0 r) (pmpaddr0 r) (tp r).
Definition set_sepc (v : Z) (r : csrs) : csrs :=
  mkCsrs (sstatus r) (sie r) (sip r) (scause r) v (stval r) (stvec r) (satp r) (mstatus r) (mie r) (mepc r)
    (medeleg r) (mideleg r) (mtvec r) (mscratch r) (mhartid r) (pmpcfg0 r) (pmpaddr0 r) (tp r).
Definition set_stvec (v : Z) (r : csrs) : csrs :=
  mkCsrs (sstatus r) (sie r) (sip r) (scause r) (sepc r) (stval r) v (satp r) (mstatus r) (mie r) (mepc r)
    (medeleg r) (mideleg r) (mtvec r) (mscratch r) (mhartid r) (pmpcfg0 r) (pmpaddr0 r) (tp r).

Definition trap_init_hart (kernelvec : Z) (r : csrs) : csrs := set_stvec kernelvec r.

(** Where a trap goes on. *)
Inductive tresult :=
| ToUser (trapframe user_satp : Z)   (** into user mode, by [userret] *)
| ToKernel                           (** back to what the trap interrupted *)
| Yields                             (** the process has given up the hart *)
| Sleeps                             (** it sleeps inside of a system call *)
| Exits
| Resets (value : Z).

Section Traps.
Context {D : Type} {BD : BlockDevice D} {BF : BitField} {BFl : BitFlags} {H : Type} {PS : PageSource H} {PF : PageFree H}.
Context (me : nat) (proc_addr : nat → Z) (kbuf log_chan : Z) (fork_ret : Z).
Context (devices : list (@DeviceFns mem)) (rchan wchan : Z → Z).
Context (bytes_of : VFile → list Z) (slot : Z).
(** Addresses of the assembly code. *)
Context (kernelvec trampoline uservec userret user_trap_addr : Z).
(** The interrupt the PLIC reports, its acknowledgement, and the handlers of the
    devices: [plic_claim] and [plic_complete] of [Uart], [disk_intr] of [Virtio] and
    [uart_intr] of [Console] on the state of their devices. *)
Context (plic_claim : @kernel D H → outcome (option Z * @kernel D H)) (plic_complete : Z → @kernel D H → outcome (@kernel D H)).
Context (disk_intr uart_intr : @kernel D H → outcome (@kernel D H)).

Abbreviation kernel := (@kernel D H).

(** An interrupt from the PLIC. *)
Definition device_intr (k : kernel) : outcome kernel :=
  '(claim, k) ← plic_claim k;
  match claim with
  | None => Done k
  | Some i =>
      k ← (if i =? VIRTIO0_IRQ then disk_intr k
           else if i =? UART0_IRQ then uart_intr k
           else Panic "Unresolved interrupt");
      plic_complete i k
  end.

Definition killed (k : kernel) : outcome bool :=
  p ← my_proc me k;
  Done (p_killed (meta p)).

(** [Process::name], which the messages of [user_trap] print. *)
Definition proc_name (x : ProcData) : outcome (list Z) :=
  _ ← ensure (utf8_valid (length (p_name x)) (p_name x)) "called `Result::unwrap()` on an `Err` value";
  Done (p_name x).

Definition user_trap_ret (r : csrs) (k : kernel) : outcome (tresult * csrs * kernel) :=
  p ← my_proc me k;
  let r := set_sstatus (Sstatus.intr_off (sstatus r)) r in
  o ← usub uservec trampoline;
  v ← uadd TRAMPOLINE o;
  let r := set_stvec v r in
  m ← user_init (satp r) user_trap_addr (tp r) (pdata p) (kmem k);
  let k := with_kmem k m in
  let r := set_sstatus (Sstatus.user_intr_on (Sstatus.clear_spp (sstatus r))) r in
  let r := set_sepc (Tf.get m (p_trapframe (pdata p)) Tf.epc) r in
  pt ← unwrap unwrap_none (p_pagetable (pdata p));
  o ← usub userret trampoline;
  _ ← uadd TRAMPOLINE o;
  Done (ToUser TRAPFRAME (as_satp pt), r, k).

(** The end of [user_trap], also for a process that comes back from [yielding]
    or from a system call that slept. *)
Definition user_trap_tail (r : csrs) (k : kernel) : outcome (tresult * csrs * kernel) :=
  dead ← killed k;
  if (dead : bool) then
    k ← exit_killed me proc_addr log_chan (-1) k;
    Done (Exits, r, k)
  else user_trap_ret r k.

Definition user_trap (r : csrs) (k : kernel) : outcome (tresult * csrs * kernel) :=
  let pc := sepc r in
  let c := cause (scause r) in
  if negb (Sstatus.is_from_user (sstatus r)) then Panic "user_trap(): not from user mode"
  else
    let r := set_stvec kernelvec r in
    p ← my_proc me k;
    _ ← proc_name (pdata p);
    let tf := p_trapframe (pdata p) in
    let k := with_kmem k (Tf.put (kmem k) tf Tf.epc pc) in
    match c with
    | TrapException UserEnvCall =>
        dead ← killed k;
        if (dead : bool) then
          k ← exit_killed me proc_addr log_chan (-1) k;
          Done (Exits, r, k)
        else
          m ← Tf.update_epc (kmem k) tf;
          let k := with_kmem k m in
          let r := set_sstatus (Sstatus.intr_on (sstatus r)) r in
          '(h, k) ← handle_syscall me proc_addr kbuf log_chan trampoline fork_ret devices rchan wchan bytes_of slot k;
          match h with
          | Returned => user_trap_tail r k
          | Sleeping => Done (Sleeps, r, k)
          | Exited => Done (Exits, r, k)
          end
    | TrapInterrupt SupervisorExternal =>
        k ← device_intr k;
        user_trap_tail r k
    | TrapInterrupt SupervisorSoft =>
        k ← (if tp r =? 0 then clock_intr k else Done k);
        let r := set_sip (clear_ssip (sip r)) r in
        dead ← killed k;
        if (dead : bool) then
          k ← exit_killed me proc_addr log_chan (-1) k;
          Done (Exits, r, k)
        else Done (Yields, r, with_pm k (yielding me (k_pm k)))
    | _ =>
        user_trap_tail r (upd_me me (upd_meta (set_killed true)) k)
    end.

(** [kernel_trap]; [running] is the process of the hart, if it has one. *)
Definition kernel_trap (running : option nat) (which : Z) (r : csrs) (k : kernel) : outcome (tresult * csrs * kernel) :=
  let saved := sstatus r in
  let pc := sepc r in
  if negb (Sstatus.is_from_supervisor (sstatus r)) then Panic "not from supervisor mode"
  else if Sstatus.intr_get (sstatus r) then Panic "kerneltrap(): interrupts enabled"
  else
    let back (t : tresult) (pc : Z) (r : csrs) (k : kernel) : outcome (tresult * csrs * kernel) :=
      Done (t, set_sstatus saved (set_sepc pc r), k) in
    match cause (scause r) with
    | TrapException Breakpoint =>
        pc ← uadd pc 2;
        back ToKernel pc r k
    | TrapException LoadFault => Panic "Load Fault!"
    | TrapException LoadPageFault => Panic "[Panic] Load Page Fault!"
    | TrapException StorePageFault => Panic "[Panic] Store Page Fault!"
    | TrapException KernelEnvCall =>
        if which =? SHUTDOWN then Done (Resets (system_reset RESET_TYPE_SHUTDOWN RESET_REASON_NO_REASON), r, k)
        else if which =? REBOOT then Done (Resets (system_reset RESET_TYPE_COLD_REBOOT RESET_REASON_NO_REASON), r, k)
        else Panic "Unresolved Kernel Syscall!"
    | TrapException InstructionFault => Panic "Instruction Fault"
    | TrapException InstructionPageFault => Panic "explicit panic"
    | TrapInterrupt SupervisorExternal =>
        k ← device_intr k;
        back ToKernel pc r k
    | TrapInterrupt SupervisorSoft =>
        k ← (if tp r =? 0 then clock_intr k else Done k);
        let r := set_sip (clear_ssip (sip r)) r in
        '(yields, pm) ← try_yield_proc running (k_pm k);
        back (if (yields : bool) then Yields else ToKernel) pc r (with_pm k pm)
    | _ => Panic "Unresolved Trap!"
    end.
End Traps.
