(* ===== verification/TrapTheorems.v ===== *)
(** * System calls seen from user mode

    The whole way of an [ecall]: [user_trap], [handle_syscall] and
    [user_trap_ret], up to the jump to [userret]. *)

From Stdlib Require Import ZArith Lia.
From stdpp Require Import base gmap strings numbers list.
From S2P Require Import Prelude Address Pte PhysMem PageTable Bytes Bio DiskLayout Log Bitmap Inode Path File Registers Cpu Proc Kernel Exec.
From S2P Require Import Syscall Trap BioClient PageTableTheorems.

Local Open Scope Z_scope.

(** ** Fields of the trap frame *)

Lemma tf_get_put m tf o v : 0 ≤ v < 2 ^ 64 → Tf.get (Tf.put m tf o v) tf o = v.
Proof. apply read_word_write. Qed.
Lemma tf_get_put_ne m tf o v o' : o + 8 ≤ o' ∨ o' + 8 ≤ o → Tf.get (Tf.put m tf o v) tf o' = Tf.get m tf o'.
Proof. intros Ho. apply read_word_write_ne. lia. Qed.

(** What [user_init] stores, and the registers it leaves. *)
Record kernel_fields (satp user_trap cpuid : Z) (x : ProcData) (m : mem) : Prop := {
  kf_satp : Tf.get m (p_trapframe x) Tf.kernel_satp = satp;
  kf_sp : Tf.get m (p_trapframe x) Tf.kernel_sp = kstack x + PGSIZE * 4;
  kf_trap : Tf.get m (p_trapframe x) Tf.kernel_trap = user_trap;
  kf_hartid : Tf.get m (p_trapframe x) Tf.kernel_hartid = cpuid;
}.

(** The saved program counter and the saved registers. *)
Definition saved_field (o : Z) : Prop := o = Tf.epc ∨ 40 ≤ o.

(** The trap frame is all that differs. *)
Definition outside_frame (x : ProcData) (m m' : mem) : Prop :=
  ∀ a, ¬ (p_trapframe x ≤ a < p_trapframe x + Tf.TRAPFRAME_SIZE) → m a = m' a.

Lemma outside_frame_put x m m' o v :
  outside_frame x m m' → 0 ≤ o → o + 8 ≤ Tf.TRAPFRAME_SIZE → outside_frame x (Tf.put m (p_trapframe x) o v) m'.
Proof. intros Hm H0 H8 a Ha. unfold Tf.put. rewrite write_word_other by lia. by apply Hm. Qed.

Lemma user_init_ok satp ut cpuid x m :
  0 ≤ satp < 2 ^ 64 → 0 ≤ ut < 2 ^ 64 → 0 ≤ cpuid < 2 ^ 64 → 0 ≤ kstack x → kstack x + PGSIZE * 4 < 2 ^ 64 →
  ∃ m', user_init satp ut cpuid x m = Done m' ∧ kernel_fields satp ut cpuid x m' ∧
    (∀ o, saved_field o → Tf.get m' (p_trapframe x) o = Tf.get m (p_trapframe x) o) ∧
    outside_frame x m' m.
Proof.
  intros Hs Hu Hc Hk0 Hk1. unfold user_init. rewrite uadd_ok by (unfold PGSIZE in *; lia). cbn [mbind outcome_bind].
  eexists. split; [done|]. split; [split|split].
  - do 3 rewrite tf_get_put_ne by (right; by vm_compute). by apply tf_get_put.
  - do 2 rewrite tf_get_put_ne by (right; by vm_compute). apply tf_get_put. unfold PGSIZE in *. lia.
  - rewrite tf_get_put_ne by (right; by vm_compute). by apply tf_get_put.
  - by apply tf_get_put.
  - unfold saved_field, Tf.epc. intros o Ho.
    rewrite !tf_get_put_ne by (unfold Tf.kernel_satp, Tf.kernel_sp, Tf.kernel_trap, Tf.kernel_hartid; lia). done.
  - do 4 (apply outside_frame_put; [|by vm_compute|by vm_compute]). by intros a.
Qed.

(** ** The status register on the way to user mode *)

Definition user_status (x : Z) : Z := Sstatus.user_intr_on (Sstatus.clear_spp (Sstatus.intr_off x)).

Lemma user_status_ok x :
  Sstatus.is_from_user (user_status x) = true ∧ Sstatus.intr_get (user_status x) = false ∧
  Z.land (user_status x) Sstatus.SPIE = Sstatus.SPIE.
Proof.
  unfold user_status, Sstatus.is_from_user, Sstatus.intr_get, Sstatus.user_intr_on, Sstatus.clear_spp, Sstatus.intr_off.
  rewrite !Z.land_lor_distr_l, <- !Z.land_assoc.
  change (Z.land (unot 64 Sstatus.SIE) (Z.land (unot 64 Sstatus.SPP) Sstatus.SPP)) with 0.
  change (Z.land (unot 64 Sstatus.SIE) (Z.land (unot 64 Sstatus.SPP) Sstatus.SIE)) with 0.
  change (Z.land (unot 64 Sstatus.SIE) (Z.land (unot 64 Sstatus.SPP) Sstatus.SPIE)) with Sstatus.SPIE.
  rewrite Z.land_0_r, Z.land_diag. split; [done|]. split; [done|]. apply Z.bits_inj'. intros n Hn.
  rewrite Z.lor_spec, Z.land_spec. by destruct (Z.testbit x n), (Z.testbit Sstatus.SPIE n).
Qed.

Section Ecall.
Context {D : Type} {BD : BlockDevice D} {BF : BitField} {BFl : BitFlags} {H : Type} {PS : PageSource H} {PF : PageFree H}.
Context (me : nat) (proc_addr : nat → Z) (kbuf log_chan : Z) (fork_ret : Z).
Context (devices : list (@DeviceFns mem)) (rchan wchan : Z → Z).
Context (bytes_of : VFile → list Z) (slot : Z).
Context (kernelvec trampoline uservec userret user_trap_addr : Z).
Context (plic_claim : @kernel D H → outcome (option Z * @kernel D H)) (plic_complete : Z → @kernel D H → outcome (@kernel D H)).
Context (disk_intr uart_intr : @kernel D H → outcome (@kernel D H)).

(** The trampoline's code is inside of its page. *)
Record trampoline_ok : Prop := {
  to_uservec : 0 ≤ trampoline ≤ uservec ∧ uservec < trampoline + PGSIZE;
  to_userret : trampoline ≤ userret < trampoline + PGSIZE;
  to_top : trampoline + PGSIZE ≤ 2 ^ 64;
  to_trap : 0 ≤ user_trap_addr < 2 ^ 64;
}.

(** A process that can return to user mode. *)
Record user_ready (k : @kernel D H) (x : Process) (pt : Z) : Prop := {
  ur_proc : my_proc me k = Done x;
  ur_table : p_pagetable (pdata x) = Some pt;
  ur_alive : p_killed (meta x) = false;
  ur_stack : 0 ≤ kstack (pdata x) ∧ kstack (pdata x) + PGSIZE * 4 < 2 ^ 64;
}.

Lemma user_ready_mem k x pt m : user_ready k x pt → user_ready (with_kmem k m) x pt.
Proof using. by intros []. Qed.

(** Registers and trap frame as [userret] finds them. *)
Record enters_user (r r' : csrs) (x : Process) (m m' : mem) : Prop := {
  eu_pc : sepc r' = Tf.get m (p_trapframe (pdata x)) Tf.epc;
  eu_user : Sstatus.is_from_user (sstatus r') = true;
  eu_intr : Sstatus.intr_get (sstatus r') = false ∧ Z.land (sstatus r') Sstatus.SPIE = Sstatus.SPIE;
  eu_vec : stvec r' = TRAMPOLINE + (uservec - trampoline);
  eu_kernel : kernel_fields (satp r) user_trap_addr (tp r) (pdata x) m';
  eu_saved o : saved_field o → Tf.get m' (p_trapframe (pdata x)) o = Tf.get m (p_trapframe (pdata x)) o;
  eu_frame : outside_frame (pdata x) m' m;
}.

Lemma user_trap_ret_ok r k x pt :
  trampoline_ok → user_ready k x pt → 0 ≤ satp r < 2 ^ 64 → 0 ≤ tp r < 2 ^ 64 →
  ∃ r' m', user_trap_ret me trampoline uservec userret user_trap_addr r k =
      Done (ToUser TRAPFRAME (as_satp pt), r', with_kmem k m') ∧
    enters_user r r' x (kmem k) m'.
Proof using.
  intros [Ht Hu Htop Ha] [Hp Hpt _ [Hk0 Hk1]] Hs Htp. unfold user_trap_ret. rewrite Hp. cbn [mbind outcome_bind].
  assert (TRAMPOLINE + PGSIZE < 2 ^ 64) as Htr by (by vm_compute). assert (0 ≤ TRAMPOLINE) as Htr0 by (by vm_compute).
  rewrite (usub_ok uservec trampoline) by lia. cbn [mbind outcome_bind].
  rewrite (uadd_ok TRAMPOLINE (uservec - trampoline)) by lia. cbn [mbind outcome_bind set_stvec set_sstatus satp tp].
  destruct (user_init_ok (satp r) user_trap_addr (tp r) (pdata x) (kmem k)) as (m' & -> & Hf & Hsv & Hfr); try done.
  cbn [mbind outcome_bind]. rewrite Hpt. cbn [mbind outcome_bind unwrap].
  rewrite (usub_ok userret trampoline) by lia. cbn [mbind outcome_bind].
  rewrite (uadd_ok TRAMPOLINE (userret - trampoline)) by lia. cbn [mbind outcome_bind].
  eexists _, m'. split; [done|]. destruct (user_status_ok (sstatus r)) as (H1 & H2 & H3).
  split; cbn [sepc sstatus stvec set_sepc set_sstatus]; try done. apply Hsv. by left.
Qed.

(** The state in which an [ecall] starts its system call: the program counter
    is saved and moved past the instruction. *)
Definition ecall_state (r : csrs) (x : Process) (k : @kernel D H) : @kernel D H :=
  let tf := p_trapframe (pdata x) in
  let k := with_kmem k (Tf.put (kmem k) tf Tf.epc (sepc r)) in
  with_kmem k (Tf.put (kmem k) tf Tf.epc (sepc r + 4)).

Lemma ecall_state_fields r x k o :
  0 ≤ sepc r → sepc r + 4 < 2 ^ 64 → o = Tf.epc ∨ o + 8 ≤ Tf.epc ∨ Tf.epc + 8 ≤ o →
  Tf.get (kmem (ecall_state r x k)) (p_trapframe (pdata x)) o =
    if decide (o = Tf.epc) then sepc r + 4 else Tf.get (kmem k) (p_trapframe (pdata x)) o.
Proof using.
  intros H0 H1 Ho. unfold ecall_state, kmem. cbn [with_kmem with_ps k_ps with_mem pmem].
  case_decide as E; [subst; apply tf_get_put; lia|]. by rewrite !tf_get_put_ne by lia.
Qed.

(** What a finished system call delivers. *)
Definition syscall_value (s : sysres) : option Z :=
  match s with SRet v => Some v | SErr => Some (2 ^ 64 - 1) | _ => None end.

Abbreviation the_syscall := (syscall me proc_addr kbuf log_chan trampoline fork_ret devices rchan wchan bytes_of slot).
Abbreviation the_user_trap :=
  (user_trap me proc_addr kbuf log_chan fork_ret devices rchan wchan bytes_of slot kernelvec trampoline uservec userret
     user_trap_addr plic_claim plic_complete disk_intr uart_intr).

Lemma handle_syscall_ok s v k0 k x pt :
  the_syscall k0 = Done (s, k) → syscall_value s = Some v → user_ready k x pt →
  handle_syscall me proc_addr kbuf log_chan trampoline fork_ret devices rchan wchan bytes_of slot k0 =
    Done (Returned, with_kmem k (Tf.put (kmem k) (p_trapframe (pdata x)) Tf.a0 v)).
Proof using.
  intros Hs Hv [Hp _ _ _]. unfold handle_syscall, set_a0. rewrite Hs. cbn [mbind outcome_bind].
  destruct s; try done; injection Hv as <-; rewrite Hp; done.
Qed.

Lemma uptime_ok k x :
  my_proc me k = Done x → Tf.get (kmem k) (p_trapframe (pdata x)) Tf.a7 = 14 → the_syscall k = Done (SRet 0, k).
Proof using. intros Hx Hid. unfold syscall. rewrite Hx. cbn [mbind outcome_bind]. by rewrite Hid. Qed.

(** Up to the system call, and from its end. *)
Lemma ecall_enters r k x :
  Sstatus.is_from_user (sstatus r) = true → cause (scause r) = TrapException UserEnvCall →
  0 ≤ sepc r → sepc r + 4 < 2 ^ 64 → my_proc me k = Done x → p_killed (meta x) = false →
  utf8_valid (length (p_name (pdata x))) (p_name (pdata x)) = true →
  the_user_trap r k =
    ('(h, k) ← handle_syscall me proc_addr kbuf log_chan trampoline fork_ret devices rchan wchan bytes_of slot (ecall_state r x k);
     let r := set_sstatus (Sstatus.intr_on (sstatus r)) (set_stvec kernelvec r) in
     match h with
     | Returned => user_trap_tail me proc_addr log_chan trampoline uservec userret user_trap_addr r k
     | Sleeping => Done (Sleeps, r, k)
     | Exited => Done (Exits, r, k)
     end).
Proof using.
  intros Hu Hc H0 H1 Hp Ha Hn. unfold user_trap. rewrite Hu, Hc. cbn [negb]. rewrite Hp. cbn [mbind outcome_bind].
  unfold proc_name, killed. rewrite Hn. cbn [mbind outcome_bind ensure]. unfold my_proc in *. cbn [with_kmem with_ps k_pm].
  rewrite Hp. cbn [mbind outcome_bind]. rewrite Ha. unfold Tf.update_epc.
  change (kmem (with_kmem k ?m)) with m. rewrite tf_get_put by lia. rewrite uadd_ok by lia. done.
Qed.

(** An [ecall] returns.  When a live process traps with an [ecall] and its
    system call finishes with a value or an error, [user_trap] goes to [userret]
    with the process's page table, in user mode with interrupts on: the program
    counter and all registers are those the system call left in the trap frame
    (it starts with the program counter past the [ecall]), except [a0], which
    has the value, or -1 for an error; the trap vector and the kernel's fields
    of the trap frame are set for the next trap; and nothing of the kernel's
    state but the trap frame has changed since the system call. *)
Theorem ecall_returns r k x s v k2 x2 pt2
    (Htr : trampoline_ok) (Hsatp : 0 ≤ satp r < 2 ^ 64) (Htp : 0 ≤ tp r < 2 ^ 64)
    (Huser : Sstatus.is_from_user (sstatus r) = true) (Hcause : cause (scause r) = TrapException UserEnvCall)
    (Hpc0 : 0 ≤ sepc r) (Hpc1 : sepc r + 4 < 2 ^ 64)
    (Hx : my_proc me k = Done x) (Halive : p_killed (meta x) = false)
    (Hname : utf8_valid (length (p_name (pdata x))) (p_name (pdata x)) = true)
    (Hrun : the_syscall (ecall_state r x k) = Done (s, k2)) (Hv : syscall_value s = Some v) (Hvr : 0 ≤ v < 2 ^ 64)
    (Hx2 : user_ready k2 x2 pt2) :
  Tf.get (kmem (ecall_state r x k)) (p_trapframe (pdata x)) Tf.epc = sepc r + 4 ∧
  ∃ r' m', the_user_trap r k = Done (ToUser TRAPFRAME (as_satp pt2), r', with_kmem k2 m') ∧
    sepc r' = Tf.get (kmem k2) (p_trapframe (pdata x2)) Tf.epc ∧
    Sstatus.is_from_user (sstatus r') = true ∧ Sstatus.intr_get (sstatus r') = false ∧
    Z.land (sstatus r') Sstatus.SPIE = Sstatus.SPIE ∧ stvec r' = TRAMPOLINE + (uservec - trampoline) ∧
    kernel_fields (satp r) user_trap_addr (tp r) (pdata x2) m' ∧
    Tf.get m' (p_trapframe (pdata x2)) Tf.a0 = v ∧
    (∀ o, saved_field o → o + 8 ≤ Tf.a0 ∨ Tf.a0 + 8 ≤ o →
       Tf.get m' (p_trapframe (pdata x2)) o = Tf.get (kmem k2) (p_trapframe (pdata x2)) o) ∧
    outside_frame (pdata x2) m' (kmem k2).
Proof using.
  split; [rewrite ecall_state_fields by (done || by left); by rewrite decide_True|].
  rewrite (ecall_enters r k x) by done. rewrite (handle_syscall_ok s v _ k2 x2 pt2 Hrun Hv Hx2). cbn [mbind outcome_bind].
  set (k3 := with_kmem k2 _). assert (user_ready k3 x2 pt2) as Hx3 by by apply user_ready_mem.
  unfold user_trap_tail, killed. rewrite (ur_proc _ _ _ Hx3). cbn [mbind outcome_bind]. rewrite (ur_alive _ _ _ Hx3).
  destruct (user_trap_ret_ok (set_sstatus (Sstatus.intr_on (sstatus r)) (set_stvec kernelvec r)) k3 x2 pt2)
    as (r' & m' & -> & [Epc Eu [Ei Es] Ev Ek Esv Efr]); try done.
  assert (∀ o, o + 8 ≤ Tf.a0 ∨ Tf.a0 + 8 ≤ o →
    Tf.get (kmem k3) (p_trapframe (pdata x2)) o = Tf.get (kmem k2) (p_trapframe (pdata x2)) o) as Ho.
  { intros o Ho. change (kmem k3) with (Tf.put (kmem k2) (p_trapframe (pdata x2)) Tf.a0 v). rewrite tf_get_put_ne; [done|lia]. }
  exists r', m'. split; [done|]. split; [rewrite Epc; apply Ho; left; by vm_compute|]. do 5 (split; [done|]). split; [|split].
  - rewrite Esv by (right; by vm_compute). by apply tf_get_put.
  - intros o Hs Hne. rewrite (Esv o Hs). by apply Ho.
  - intros a Ha. rewrite (Efr a Ha). by apply (outside_frame_put _ (kmem k2)); [intros ?| | |].
Qed.
End Ecall.

(** ** A process that asks for the time *)

Definition demo_regs : csrs := mkCsrs 0 0 0 8 100 0 0 (as_satp 0x87fff000) 0 0 0 0 0 0 0 0 0 0 0.
Definition demo_proc : Process :=
  mkProc (mkPMeta RUNNING 0 false 0 1)
    (mkPData 0x3fffffd000 PGSIZE (Some 0x87000000) 0x87001000 new_context (replicate 16 0) None (replicate (Z.to_nat NFILE) None) None).
Definition demo_kernel : @kernel fdisk Z :=
  mkK (mkPm [demo_proc] None 1) (mkP (Tf.put (λ _, 0) 0x87001000 Tf.a7 14) 0x87002000) ∅ 0 new_icache
    (mkD None log_uninit (boot (mkFd (λ _, [])))) ∅ 0.

Lemma ecall_returns_witness :
  ∃ r' m', user_trap (BF := bit_field_std) (BFl := bit_flags_std) (PF := λ _ h, Done h) 0%nat (λ _, 0) 0 0 0 [] (λ _, 0) (λ _, 0)
      (λ _, []) 0 0x80001000 0x80002000 0x80002000 0x80002090 0x80003000 (λ k, Done (None, k)) (λ _, Done) Done Done demo_regs demo_kernel =
      Done (ToUser TRAPFRAME (as_satp 0x87000000), r', with_kmem (ecall_state demo_regs demo_proc demo_kernel) m') ∧
    sepc r' = 104 ∧ Tf.get m' 0x87001000 Tf.a0 = 0 ∧ Tf.get m' 0x87001000 Tf.a7 = 14.
Proof.
  destruct (ecall_returns (BF := bit_field_std) (BFl := bit_flags_std) (PF := λ _ h, Done h) 0%nat (λ _, 0) 0 0 0 [] (λ _, 0) (λ _, 0)
      (λ _, []) 0 0x80001000 0x80002000 0x80002000 0x80002090 0x80003000 (λ k, Done (None, k)) (λ _, Done) Done Done demo_regs demo_kernel demo_proc
      (SRet 0) 0 (ecall_state demo_regs demo_proc demo_kernel) demo_proc 0x87000000)
    as (Hpc & r' & m' & Hrun & Epc & _ & _ & _ & _ & _ & Ha & Hs & _).
  - split; unfold PGSIZE; lia.
  - by vm_compute.
  - by vm_compute.
  - done.
  - done.
  - by vm_compute.
  - by vm_compute.
  - done.
  - done.
  - by vm_compute.
  - apply (uptime_ok _ _ _ _ _ _ _ _ _ _ _ _ demo_proc); [done|by vm_compute].
  - done.
  - by vm_compute.
  - split; [done|done|done|by vm_compute].
  - exists r', m'. split; [exact Hrun|]. split; [rewrite Epc; exact Hpc|]. split; [exact Ha|].
    rewrite Hs; [by vm_compute|right; by vm_compute|right; by vm_compute].
Defined.
