(* ===== verification/ForkMemory.v ===== *)
(** * The memory of a new process

    The pages that [alloc_proc] takes for a process, and what [fork] does with
    them: trap frame, page table with the two pages every process has, and the
    copy of the parent's memory. *)

From Stdlib Require Import ZArith Lia.
From stdpp Require Import base gmap strings numbers list.
From S2P Require Import Prelude Address Pte PhysMem PageTable PageTableSpec UserCopy PageTableTheorems UvmCopy Cpu Proc.

Local Open Scope Z_scope.

#[local] Opaque pt_write map uvm_copy.

Lemma read_le_shift n m m' a b : (∀ i, 0 ≤ i < Z.of_nat n → m' (a + i) = m (b + i)) → read_le n m' a = read_le n m b.
Proof.
  revert a b. induction n as [|n IH]; intros a b Hx; cbn [read_le]; [done|]. unfold read_byte.
  rewrite <- (Z.add_0_r a) at 1. rewrite <- (Z.add_0_r b) at 1. rewrite Hx by lia. do 2 f_equal.
  apply IH. intros i Hi. rewrite <- !Z.add_assoc. apply Hx. lia.
Qed.

Section Memory.
Context {BFl : BitFlags} {BFlL : BitFlagsLaws} {H : Type} {PS : PageSource H} {PSL : PageSourceLaws H}.

(** ** Pages in use keep their bytes *)

(** The pages in use in [h] stay in use and keep their bytes from [s] to [s']. *)
Record keeps (h : H) (s s' : pstate H) : Prop := {
  kp_pages q : q mod PGSIZE = 0 → ps_page (pheap s) q → ps_page (pheap s') q;
  kp_frame x : ps_page h (page_of x) → pmem s' x = pmem s x;
}.

(** All pages in use in [h] are in use in [h']. *)
Definition pages_sub (h h' : H) : Prop := ∀ q, q mod PGSIZE = 0 → ps_page h q → ps_page h' q.

Lemma keeps_trans h s1 s2 s3 : keeps h s1 s2 → keeps h s2 s3 → keeps h s1 s3.
Proof.
  intros [P1 F1] [P2 F2]. split; [auto|]. intros x Hx. rewrite F2, F1; done.
Qed.

Lemma keeps_sub h h' s s' : pages_sub h h' → keeps h' s s' → keeps h s s'.
Proof. intros Hs [P F]. split; [done|]. intros x Hx. apply F, Hs; [apply page_of_bounds|done]. Qed.

(** A tree all of whose tables were free in [h]. *)
Definition fresh_tree (h : H) (m : mem) (root : Z) : Prop := ∀ q, table_of m root q → ¬ ps_page h q.

Lemma new_page_step s :
  ps_inv (pheap s) →
  new_zeroed s = Panic alloc_error ∨
  ∃ q s', new_zeroed s = Done (q, s') ∧ ps_inv (pheap s') ∧ page_ok q ∧ ¬ ps_page (pheap s) q ∧ ps_page (pheap s') q ∧
    keeps (pheap s) s s' ∧ ∀ x, in_page q x → pmem s' x = 0.
Proof.
  intros Hi. destruct (new_zeroed_ok s Hi) as [?|(q & h' & Hn & Hi' & Hq & Hnew & Hh')]; [by left|]. right. eexists q, _.
  split; [done|]. cbn [pheap pmem]. split; [done|]. split; [done|]. split; [done|]. split; [apply Hh'; [apply Hq|by right]|]. split; [split|].
  - intros r Hr Hu. by apply Hh'; [|left].
  - intros x Hx. cbn [pmem]. apply zero_page_other. intros Hin. apply in_page_of in Hin as E; [|apply Hq]. by rewrite E in Hx.
  - intros x Hx. unfold write_bytes, in_page in *. destruct (Z.leb_spec q x), (Z.ltb_spec x (q + PGSIZE)); (done || lia).
Qed.

(** Mapping a page in a fresh tree. *)
Lemma map_fresh h root va pa perm s :
  pt_inv (pmem s) root (pheap s) → ps_inv (pheap s) → pages_sub h (pheap s) → fresh_tree h (pmem s) root →
  va mod PGSIZE = 0 → 0 ≤ va → va + PGSIZE ≤ MAXVA → 0 ≤ pa → pa + PGSIZE < 2 ^ 64 → 0 ≤ perm < 2 ^ 10 →
  mapping (pmem s) root va = None →
  map root va pa PGSIZE perm s = Panic alloc_error ∨
  ∃ s', map root va pa PGSIZE perm s = Done (true, s') ∧ pt_inv (pmem s') root (pheap s') ∧ ps_inv (pheap s') ∧
    keeps h s s' ∧ fresh_tree h (pmem s') root ∧
    ∀ v, 0 ≤ v < 2 ^ 39 → mapping (pmem s') root v = if decide (page_of v = va) then Some (leaf_pte pa perm) else mapping (pmem s) root v.
Proof.
  intros Hi Hps Hsub Hf Hal H0 Hmax Hpa Hpa' Hperm Hnone.
  destruct (map_one root va pa perm s) as [?|(s' & E & He & Hm)]; [done..|by left|].
  right. exists s'. split; [done|]. split; [apply He|]. split; [apply He|].
  assert (fresh_tree h (pmem s') root) as Hf'.
  { intros q Hq Hu. destruct (ex_fresh _ _ _ He q Hq) as [Ht|Hn]; [by apply (Hf q)|]. apply Hn, Hsub; [|done].
    by apply (table_page _ _ _ _ (ex_inv _ _ _ He) Hq). }
  split; [split; [apply He|]|done].
  intros x Hx. apply (ex_frame _ _ _ He). intros q Hq Hin.
  apply in_page_of in Hin as <-; [by apply (Hf' _ Hq)|]. by apply (table_page _ _ _ _ (ex_inv _ _ _ He) Hq).
Qed.

(** ** The page table of a new process *)

(** The two pages every process has. *)
Definition process_pages (tr tf v : Z) : option Z :=
  if decide (page_of v = TRAPFRAME) then Some (leaf_pte tf (Z.lor PTE_R PTE_W))
  else if decide (page_of v = TRAMPOLINE) then Some (leaf_pte tr (Z.lor PTE_R PTE_X)) else None.

(** The parts of [proc_pagetable] put together. *)
Lemma proc_pagetable_eq tr x s pt s1 o1 :
  new_zeroed s = Done (pt, s1) → map pt TRAMPOLINE tr PGSIZE (flags_or PTE_R PTE_X) s1 = o1 →
  (∀ e, o1 = Panic e → proc_pagetable tr x s = Panic e) ∧
  ∀ s2 o2, o1 = Done (true, s2) → map pt TRAPFRAME (p_trapframe x) PGSIZE (flags_or PTE_R PTE_W) s2 = o2 →
    (∀ e, o2 = Panic e → proc_pagetable tr x s = Panic e) ∧
    ∀ s3, o2 = Done (true, s3) → proc_pagetable tr x s = Done (set_pagetable (Some pt) x, s3).
Proof using.
  intros H1 H2. unfold proc_pagetable, uvmcreate. rewrite H1, bind_Done_l, H2. split; [by intros e ->|].
  intros s2 o2 -> H3. rewrite bind_Done_l. cbn [negb]. rewrite bind_Done_l, with_mem_id, H3. split; [by intros e ->|].
  intros s3 ->. rewrite bind_Done_l. cbn [negb]. by rewrite bind_Done_l, with_mem_id.
Qed.

(** The steps both page tables of a process are made with. *)
Lemma process_tree_ok tr tf s :
  ps_inv (pheap s) → 0 ≤ tr → tr + PGSIZE < 2 ^ 64 → page_ok tf →
  new_zeroed s = Panic alloc_error ∨ ∃ pt s1, new_zeroed s = Done (pt, s1) ∧
  (map pt TRAMPOLINE tr PGSIZE (flags_or PTE_R PTE_X) s1 = Panic alloc_error ∨
   ∃ s2, map pt TRAMPOLINE tr PGSIZE (flags_or PTE_R PTE_X) s1 = Done (true, s2) ∧
   (map pt TRAPFRAME tf PGSIZE (flags_or PTE_R PTE_W) s2 = Panic alloc_error ∨
    ∃ s', map pt TRAPFRAME tf PGSIZE (flags_or PTE_R PTE_W) s2 = Done (true, s') ∧ ps_inv (pheap s') ∧
      pt_inv (pmem s') pt (pheap s') ∧ keeps (pheap s) s s' ∧ fresh_tree (pheap s) (pmem s') pt ∧
      ∀ v, 0 ≤ v < 2 ^ 39 → mapping (pmem s') pt v = process_pages tr tf v)).
Proof.
  intros Hi Htr Htr' (_ & Htf & Htf').
  destruct (new_page_step s Hi) as [E|(pt & s1 & E & Hi1 & Hpt & Hnew & Hu & Hk1 & Hz)]; [by left|right].
  exists pt, s1. split; [done|]. destruct (empty_tree (pmem s1) pt (pheap s1) Hpt Hu Hz) as (Ht1 & Hroot & Hm1).
  assert (TRAMPOLINE mod PGSIZE = 0 ∧ 0 ≤ TRAMPOLINE ∧ TRAMPOLINE + PGSIZE ≤ MAXVA ∧ TRAPFRAME mod PGSIZE = 0 ∧
    0 ≤ TRAPFRAME ∧ TRAPFRAME + PGSIZE ≤ MAXVA) as (L1 & L2 & L3 & L4 & L5 & L6) by by vm_compute.
  rewrite !flags_or_bits.
  destruct (map_fresh (pheap s) pt TRAMPOLINE tr (Z.lor PTE_R PTE_X) s1) as [E2|(s2 & E2 & Ht2 & Hi2 & Hk2 & Hf2 & Hm2)];
    [done|done|exact (kp_pages _ _ _ Hk1)|by intros q Hq%Hroot; subst|done|done|done|done|done|by vm_compute|done|by left|right].
  exists s2. split; [done|].
  destruct (map_fresh (pheap s) pt TRAPFRAME tf (Z.lor PTE_R PTE_W) s2) as [E3|(s3 & E3 & Ht3 & Hi3 & Hk3 & Hf3 & Hm3)];
    [done|done| |done|done|done|done|lia|lia|by vm_compute| |by left|right].
  { intros q Hq Hp. by apply Hk2, Hk1. }
  { rewrite Hm2 by (by vm_compute). rewrite decide_False by by vm_compute. apply Hm1. }
  exists s3. split; [done|]. split; [done|]. split; [done|]. split; [by do 2 (eapply keeps_trans; [done|])|]. split; [done|].
  intros v Hv. unfold process_pages. rewrite Hm3, Hm2, Hm1 by done. done.
Qed.

Lemma proc_pagetable_ok tr x s :
  ps_inv (pheap s) → 0 ≤ tr → tr + PGSIZE < 2 ^ 64 → page_ok (p_trapframe x) →
  proc_pagetable tr x s = Panic alloc_error ∨
  ∃ pt s', proc_pagetable tr x s = Done (set_pagetable (Some pt) x, s') ∧ ps_inv (pheap s') ∧
    pt_inv (pmem s') pt (pheap s') ∧ keeps (pheap s) s s' ∧ fresh_tree (pheap s) (pmem s') pt ∧
    ∀ v, 0 ≤ v < 2 ^ 39 → mapping (pmem s') pt v = process_pages tr (p_trapframe x) v.
Proof.
  intros Hi Htr Htr' Htf. destruct (process_tree_ok tr (p_trapframe x) s Hi Htr Htr' Htf) as [E|(pt & s1 & E1 & Hrest)];
    [left; unfold proc_pagetable, uvmcreate; by rewrite E|].
  destruct (proc_pagetable_eq tr x s pt s1 _ E1 eq_refl) as [Hpan Hmap]. destruct Hrest as [E2|(s2 & E2 & Hrest)]; [left; by apply Hpan|].
  destruct (Hmap s2 _ E2 eq_refl) as [Hpan3 Hdone]. destruct Hrest as [E3|(s3 & E3 & Hrest)]; [left; by apply Hpan3|].
  right. exists pt, s3. split; [by apply Hdone|done].
Qed.

(** [Process::proc_pagetable], which gives the table to its caller. *)
Lemma new_pagetable_ok {PF : PageFree H} tr x s :
  ps_inv (pheap s) → 0 ≤ tr → tr + PGSIZE < 2 ^ 64 → page_ok (p_trapframe x) →
  new_pagetable tr x s = Panic alloc_error ∨
  ∃ pt s', new_pagetable tr x s = Done (Some pt, s') ∧ ps_inv (pheap s') ∧
    pt_inv (pmem s') pt (pheap s') ∧ keeps (pheap s) s s' ∧ fresh_tree (pheap s) (pmem s') pt ∧
    ∀ v, 0 ≤ v < 2 ^ 39 → mapping (pmem s') pt v = process_pages tr (p_trapframe x) v.
Proof.
  intros Hi Htr Htr' Htf. unfold new_pagetable, uvmcreate.
  destruct (process_tree_ok tr (p_trapframe x) s Hi Htr Htr' Htf) as [->|(pt & s1 & -> & [E2|(s2 & E2 & [E3|(s3 & E3 & Hrest)])])];
    [by left|rewrite bind_Done_l, E2; cbn [negb]..]; [by left|rewrite bind_Done_l, E3; cbn [negb]..]; [by left|].
  right. by exists pt, s3.
Qed.

(** ** The memory of a process *)

(** Page table, trap frame and the pages of [size] bytes are in use. *)
Record mem_ok (pt tf size : Z) (s : pstate H) : Prop := {
  mo_tree : pt_inv (pmem s) pt (pheap s);
  mo_heap : ps_inv (pheap s);
  mo_user v : 0 ≤ v < size → v mod PGSIZE = 0 → ∃ pte, mapping (pmem s) pt v = Some pte ∧
    page_ok (as_pagetable pte) ∧ ps_page (pheap s) (as_pagetable pte);
  mo_frame : page_ok tf ∧ ps_page (pheap s) tf;
  mo_size : size mod PGSIZE = 0 ∧ 0 ≤ size ≤ TRAPFRAME;
}.

(** Nothing changes for a process while its pages keep their bytes. *)
Lemma mem_ok_keeps pt tf size s s' :
  mem_ok pt tf size s → ps_inv (pheap s') → keeps (pheap s) s s' →
  mem_ok pt tf size s' ∧ (∀ v, mapping (pmem s') pt v = mapping (pmem s) pt v) ∧
  (∀ q, table_of (pmem s') pt q ↔ table_of (pmem s) pt q) ∧
  ∀ a, 0 ≤ a < size → user_byte (pmem s') pt a = user_byte (pmem s) pt a.
Proof.
  intros Hok Hi Hk. destruct (tree_same (pmem s) (pmem s') pt (pheap s) (pheap s')) as (Ht & Htab & Hm); [apply Hok| |apply Hk|].
  { intros q x Hq Hx. destruct (table_page _ _ _ _ (mo_tree _ _ _ _ Hok) Hq) as [[Hal _] Hu]. apply in_page_of in Hx as <-; [|done].
    by apply (kp_frame _ _ _ Hk). }
  split; [split|split; [done|split; [done|]]].
  - done.
  - done.
  - intros v Hv Hal. destruct (mo_user _ _ _ _ Hok v Hv Hal) as (pte & E & Hp & Hu). exists pte. rewrite Hm.
    split; [done|]. split; [done|]. apply Hk; [apply Hp|done].
  - destruct (mo_frame _ _ _ _ Hok) as [Hp Hu]. split; [done|]. apply Hk; [apply Hp|done].
  - apply Hok.
  - intros a Ha. unfold user_byte. rewrite Hm. pose proof (page_of_bounds a) as [Hb Hal].
    destruct (mo_user _ _ _ _ Hok (page_of a)) as (pte & E & Hp & Hu); [unfold page_of, PGSIZE in *; divlia|done|].
    rewrite (mapping_page _ _ a (page_of a)), E by (symmetry; by apply page_of_aligned). cbn [mbind option_bind].
    f_equal. unfold read_byte. f_equal. apply (kp_frame _ _ _ Hk).
    rewrite (proj1 (in_page_of (as_pagetable pte) _ (proj1 Hp))); [done|]. unfold in_page, PGSIZE. divlia.
Qed.

(** ** Fork *)

Section Fork.
Context (tr pt tf size ctf cpt : Z) (s s1 s2 s3 : pstate H).
Context (Hok : mem_ok pt tf size s).
(** the trap frame of the child *)
Context (Hctf : page_ok ctf) (Hcnew : ¬ ps_page (pheap s) ctf) (Hcu : ps_page (pheap s1) ctf) (Hk1 : keeps (pheap s) s s1).
(** its page table *)
Context (Hi2 : ps_inv (pheap s2)) (Ht2 : pt_inv (pmem s2) cpt (pheap s2)) (Hk2 : keeps (pheap s1) s1 s2).
Context (Hf2 : fresh_tree (pheap s1) (pmem s2) cpt) (Hm2 : ∀ v, 0 ≤ v < 2 ^ 39 → mapping (pmem s2) cpt v = process_pages tr ctf v).

Lemma fork_keeps2 : keeps (pheap s) s s2.
Proof using Hk1 Hk2. apply (keeps_trans _ _ s1); [done|]. apply (keeps_sub _ (pheap s1)); [exact (kp_pages _ _ _ Hk1)|done]. Qed.

Lemma process_pages_low v : 0 ≤ v < TRAPFRAME → process_pages tr ctf v = None.
Proof using.
  intros Hv. unfold process_pages. assert (TRAPFRAME = 67108862 * 4096 ∧ TRAMPOLINE = 67108863 * 4096) as [E1 E2] by by vm_compute.
  rewrite !decide_False; [done|..]; unfold page_of, PGSIZE; divlia.
Qed.

Lemma fork_ready : forkable pt cpt size s2.
Proof using All.
  destruct (mem_ok_keeps pt tf size s s2 Hok Hi2 fork_keeps2) as (Hok2 & Hm & Htab & _).
  assert (∀ q, q mod PGSIZE = 0 → ps_page (pheap s) q → ¬ table_of (pmem s2) cpt q) as Hold.
  { intros q Hq Hu Ht. apply (Hf2 q Ht), Hk1; done. }
  destruct (mo_size _ _ _ _ Hok) as [Hal Hsz]. assert (TRAPFRAME < 2 ^ 39 ∧ TRAPFRAME ≤ MAXVA) as [Hlt Hmax] by by vm_compute.
  split; [apply Hok2|done|done| | | |split; [done|lia]].
  - intros q Hq. apply Htab in Hq. destruct (table_page _ _ _ _ (mo_tree _ _ _ _ Hok) Hq) as [[Hqa _] Hu]. by apply Hold.
  - intros v Hv Hva. destruct (mo_user _ _ _ _ Hok v Hv Hva) as (pte & E & Hp & Hu). exists pte. rewrite Hm.
    split; [done|]. split; [done|]. split; [apply fork_keeps2; [apply Hp|done]|]. apply Hold; [apply Hp|done].
  - intros v Hv. rewrite Hm2 by lia. apply process_pages_low. lia.
Qed.

(** The trap frame is copied after the memory. *)
Context (Hc : copying pt cpt s2 size s3).

Definition frame_copied : mem := Tf.put (copy_bytes (pmem s3) ctf tf Tf.TRAPFRAME_SIZE) ctf Tf.a0 0.

Lemma frame_copied_other x : ¬ in_page ctf x → frame_copied x = pmem s3 x.
Proof using.
  intros Hx. unfold frame_copied, Tf.put. change Tf.a0 with 112. change Tf.TRAPFRAME_SIZE with 288. unfold in_page, PGSIZE in Hx.
  rewrite write_word_other by lia. unfold copy_bytes. destruct (Z.leb_spec ctf x), (Z.ltb_spec x (ctf + 288)); (done || lia).
Qed.

Lemma frame_not_table : ¬ table_of (pmem s2) cpt ctf ∧ ¬ table_of (pmem s3) cpt ctf.
Proof using Hf2 Hcu Hc Hk2 Hctf.
  assert (¬ table_of (pmem s2) cpt ctf) as Hn by (intros Ht; by apply (Hf2 _ Ht)). split; [done|]. intros Ht.
  destruct (af_fresh _ _ _ (cp_apart _ _ _ _ _ Hc) _ Ht) as [?|Hu]; [done|]. apply Hu, Hk2; [apply Hctf|done].
Qed.

Lemma fork_keeps : keeps (pheap s) s (with_mem s3 frame_copied).
Proof using All.
  split.
  - intros q Hq Hu. apply (af_pages _ _ _ (cp_apart _ _ _ _ _ Hc)), fork_keeps2; done.
  - intros x Hx. cbn [pmem with_mem]. pose proof (page_of_bounds x) as [_ Hal]. rewrite frame_copied_other.
    + rewrite (af_frame _ _ _ (cp_apart _ _ _ _ _ Hc)).
      * by apply fork_keeps2.
      * by apply fork_keeps2.
      * intros Ht. apply (Hf2 _ Ht), Hk1; done.
    + intros Hin. apply in_page_of in Hin; [|apply Hctf]. by rewrite Hin in Hx.
Qed.

(** The child's trap frame. *)
Lemma fork_frame o :
  0 ≤ o → o + 8 ≤ Tf.TRAPFRAME_SIZE → o + 8 ≤ Tf.a0 ∨ Tf.a0 + 8 ≤ o → Tf.get frame_copied ctf o = Tf.get (pmem s) tf o.
Proof using All.
  change Tf.TRAPFRAME_SIZE with 288. intros H0 H8 Ha. unfold Tf.get, frame_copied, Tf.put. rewrite read_word_write_ne by lia.
  apply read_le_shift. intros i Hi. unfold copy_bytes. change Tf.TRAPFRAME_SIZE with 288.
  destruct (Z.leb_spec ctf (ctf + o + i)), (Z.ltb_spec (ctf + o + i) (ctf + 288)); try lia. cbn [andb].
  replace (tf + (ctf + o + i - ctf)) with (tf + o + i) by lia.
  destruct (mo_frame _ _ _ _ Hok) as [Hp Hu]. assert (page_of (tf + o + i) = tf) as E.
  { apply in_page_of; [apply Hp|]. unfold in_page, PGSIZE. lia. }
  assert (ps_page (pheap s) (page_of (tf + o + i))) as Hx by by rewrite E.
  rewrite <- (kp_frame _ _ _ fork_keeps _ Hx). cbn [pmem with_mem]. symmetry. apply frame_copied_other.
  rewrite in_page_of by apply Hctf. congruence.
Qed.

Lemma fork_frame_a0 : Tf.get frame_copied ctf Tf.a0 = 0.
Proof using. by apply read_word_write. Qed.

(** The child's tree. *)
Lemma fork_tables q x : table_of (pmem s3) cpt q → in_page q x → frame_copied x = pmem s3 x.
Proof using All.
  intros Hq Hx. apply frame_copied_other. intros Hx'. destruct (table_page _ _ _ _ (cp_child _ _ _ _ _ Hc) Hq) as [Hqo _].
  rewrite (in_page_unique q ctf x Hqo Hctf Hx Hx') in Hq. by apply frame_not_table.
Qed.

Lemma fork_tree :
  pt_inv frame_copied cpt (pheap s3) ∧ (∀ v, mapping frame_copied cpt v = mapping (pmem s3) cpt v).
Proof using All.
  by destruct (tree_same (pmem s3) frame_copied cpt (pheap s3) (pheap s3)) as (Ht & _ & Hm); [apply Hc|apply fork_tables|done|].
Qed.

Lemma frame_copied_not_table : ¬ table_of frame_copied cpt ctf.
Proof using All.
  destruct (tree_same (pmem s3) frame_copied cpt (pheap s3) (pheap s3)) as (_ & Ht & _); [apply Hc|apply fork_tables|done|].
  rewrite Ht. apply frame_not_table.
Qed.

(** A page of the child: fresh, and with the parent's bytes. *)
Lemma fork_page v :
  0 ≤ v < size → v mod PGSIZE = 0 → ∃ q pte, mapping (pmem s) pt v = Some pte ∧
    mapping frame_copied cpt v = Some (leaf_pte q (as_flags pte)) ∧ page_ok q ∧ ¬ ps_page (pheap s1) q ∧ ps_page (pheap s3) q ∧
    same_bytes frame_copied q (pmem s) (as_pagetable pte) PGSIZE.
Proof using All.
  intros Hv Hal. destruct (cp_copy _ _ _ _ _ Hc v Hv Hal) as (q & pte & E1 & E2 & Hq & Hnew & Hu & Hnt & Hsame).
  destruct (mem_ok_keeps pt tf size s s2 Hok Hi2 fork_keeps2) as (_ & Hm & _ & _). rewrite Hm in E1.
  exists q, pte. split; [done|]. rewrite (proj2 fork_tree). split; [done|]. split; [done|].
  split; [intros Hp; by apply Hnew, Hk2; [apply Hq|]|]. split; [done|].
  intros o Ho. destruct (mo_user _ _ _ _ Hok v Hv Hal) as (pte' & E & Hpo & Hpu). rewrite E1 in E. injection E as <-.
  transitivity (read_byte (pmem s3) (q + o)).
  - unfold read_byte. rewrite frame_copied_other; [done|]. rewrite (in_page_of _ _ (proj1 Hctf)).
    rewrite (proj1 (in_page_of q (q + o) (proj1 Hq))) by (unfold in_page; lia). intros ->. apply Hnew, Hk2; [apply Hctf|done].
  - rewrite (Hsame o Ho). unfold read_byte. f_equal. apply fork_keeps2.
    by rewrite (proj1 (in_page_of (as_pagetable pte) _ (proj1 Hpo))) by (unfold in_page; lia).
Qed.

Lemma fork_mem_ok : mem_ok cpt ctf size (with_mem s3 frame_copied).
Proof using All.
  split; cbn [pmem pheap with_mem].
  - apply fork_tree.
  - apply Hc.
  - intros v Hv Hal. destruct (fork_page v Hv Hal) as (q & pte & _ & E & Hq & _ & Hu & _). eexists. split; [exact E|].
    destruct (leaf_pte_fields q (as_flags pte)) as (_ & -> & _); [unfold page_ok, PGSIZE in *; lia|apply Hq|apply flags_range|done].
  - split; [done|]. apply (af_pages _ _ _ (cp_apart _ _ _ _ _ Hc)), Hk2; [apply Hctf|apply Hctf|done].
  - apply Hok.
Qed.

(** What the child sees. *)
Lemma fork_view a :
  0 ≤ a < size → user_byte frame_copied cpt a = user_byte (pmem s) pt a ∧
  as_flags <$> mapping frame_copied cpt a = as_flags <$> mapping (pmem s) pt a.
Proof using All.
  intros Ha. pose proof (page_of_bounds a) as [Hb Hal].
  destruct (fork_page (page_of a)) as (q & pte & E1 & E2 & Hq & _ & _ & Hs); [unfold page_of, PGSIZE in *; divlia|done|].
  destruct (leaf_pte_fields q (as_flags pte)) as (_ & F1 & F2 & _); [unfold page_ok, PGSIZE in *; lia|apply Hq|apply flags_range|].
  rewrite (user_byte_page _ _ _ _ E1), (user_byte_page _ _ _ _ E2), F1. split; [f_equal; apply Hs; unfold PGSIZE; divlia|].
  rewrite (mapping_page frame_copied cpt a (page_of a)), (mapping_page (pmem s) pt a (page_of a)), E1, E2
    by (symmetry; by apply page_of_aligned). cbn [fmap option_fmap option_map].
  rewrite F2, flags_valid; [done|]. assert (TRAPFRAME ≤ MAXVA) by by vm_compute. destruct (mo_size _ _ _ _ Hok) as [_ Hsz].
  destruct (translate_mapping pt (page_of a) (pmem s) pte) as (? & _ & _ & Hv); [lia|done|done].
Qed.

(** The child's two other pages. *)
Lemma fork_rest v : 0 ≤ v < 2 ^ 39 → size ≤ v → mapping frame_copied cpt v = process_pages tr ctf v.
Proof using All. intros Hv Hle. rewrite (proj2 fork_tree), (cp_rest _ _ _ _ _ Hc), Hm2; done. Qed.
End Fork.
End Memory.
