(* ===== verification/ForkTheorems.v ===== *)
(** * Fork

    The system call that makes a process: the components that [fork] brings
    together, process table, page tables, trap frames, open files and inode
    cache, and what parent and child find afterwards. *)

From Stdlib Require Import ZArith Lia.
From stdpp Require Import base gmap strings numbers list.
From S2P Require Import Prelude Address Pte PhysMem PageTable PageTableSpec UserCopy PageTableTheorems UvmCopy Bytes Bio DiskLayout Log Bitmap.
From S2P Require Import Inode Path File Registers Cpu Proc ForkMemory Kernel Syscall BioClient.

Local Open Scope Z_scope.

#[local] Opaque pt_write map uvm_copy.

Section Alloc.
Context {BFl : BitFlags} {BFlL : BitFlagsLaws} {H : Type} {PS : PageSource H} {PSL : PageSourceLaws H}.
Context (tr fr : Z) (Htr : 0 ≤ tr ∧ tr + PGSIZE < 2 ^ 64).

(** The record of a process that has just been allocated. *)
Definition allocated (p : Process) (pid ctf cpt : Z) : Process :=
  mkProc (mkPMeta ALLOCATED (p_channel (meta p)) (p_killed (meta p)) (p_xstate (meta p)) pid)
    (set_context (mkContext fr (kstack (pdata p) + PGSIZE) (replicate 12 0)) (set_pagetable (Some cpt) (set_trapframe ctf (pdata p)))).

(** Trap frame and page table of a new process are fresh. *)
Definition new_memory (s s1 s2 : pstate H) (ctf cpt : Z) : Prop :=
  (page_ok ctf ∧ ¬ ps_page (pheap s) ctf ∧ ps_page (pheap s1) ctf ∧ keeps (pheap s) s s1 ∧ ∀ x, in_page ctf x → pmem s1 x = 0) ∧
  ps_inv (pheap s2) ∧ pt_inv (pmem s2) cpt (pheap s2) ∧ keeps (pheap s1) s1 s2 ∧ fresh_tree (pheap s1) (pmem s2) cpt ∧
  ∀ v, 0 ≤ v < 2 ^ 39 → mapping (pmem s2) cpt v = process_pages tr ctf v.

(** [alloc_proc] finds no memory, or no free slot, or takes the first free slot
    for a process with fresh memory and the next process number. *)
Lemma alloc_proc_run pm s :
  ps_inv (pheap s) → 0 ≤ last_pid pm → last_pid pm + 1 < 2 ^ 64 →
  (∀ i p, procs pm !! i = Some p → 0 ≤ kstack (pdata p) ∧ kstack (pdata p) + PGSIZE < 2 ^ 64) →
  let pm1 := mkPm (procs pm) (init_proc pm) (last_pid pm + 1) in
  alloc_proc tr fr pm s = Panic alloc_error ∨
  (alloc_proc tr fr pm s = Done (None, pm1, s) ∧ ∀ i p, procs pm !! i = Some p → p_state (meta p) ≠ UNUSED) ∨
  ∃ i p ctf cpt s1 s2, procs pm !! i = Some p ∧ p_state (meta p) = UNUSED ∧ new_memory s s1 s2 ctf cpt ∧
    alloc_proc tr fr pm s = Done (Some i, upd_proc i (λ _, allocated p (last_pid pm + 1) ctf cpt) pm1, s2).
Proof using Htr BFlL.
  intros Hi H0 H1 Hst pm1. unfold alloc_proc, alloc_pid. rewrite uadd_ok by lia. rewrite !bind_Done_l. cbn [procs]. fold pm1.
  destruct (list_find _ (procs pm)) as [[i p]|] eqn:Ef.
  - apply list_find_Some in Ef as (Hp & Hs & _).
    destruct (new_page_step s Hi) as [->|(ctf & s1 & -> & Hi1 & Hctf & Hnew & Hu & Hk1 & Hz)]; [by left|]. rewrite bind_Done_l.
    destruct (proc_pagetable_ok tr (set_trapframe ctf (pdata p)) s1) as [->|(cpt & s2 & -> & Hi2 & Ht2 & Hk2 & Hf2 & Hm2)];
      [done|lia|lia|done|by left|]. rewrite bind_Done_l.
    right. right. exists i, p, ctf, cpt, s1, s2. split; [done|]. split; [done|]. split; [done|].
    unfold init_context. cbn [kstack set_pagetable set_trapframe]. destruct (Hst i p Hp) as [Hs0 Hs1]. rewrite uadd_ok by (unfold PGSIZE in *; lia). done.
  - right. left. split; [done|]. intros i p Hp Hs. apply list_find_None in Ef. by apply (Forall_lookup_1 _ _ _ _ Ef Hp).
Qed.
End Alloc.

Section Fork.
Context {D : Type} {BD : BlockDevice D} {BF : BitField} {BFl : BitFlags} {BFlL : BitFlagsLaws}.
Context {H : Type} {PS : PageSource H} {PSL : PageSourceLaws H} {PF : PageFree H}.
Context (me : nat) (tr fr : Z).

(** ** References *)

(** How many of the descriptors name the file [a]. *)
Definition names_of (a : Z) (fs : list (option Z)) : Z := Z.of_nat (length (filter (λ o, o = Some a) fs)).

Lemma clone_files_ok fs (k : @kernel D H) :
  (∀ a, Some a ∈ fs → is_Some (k_files k !! a)) →
  ∃ m, clone_files fs k = Done (with_arcs k m (k_next k)) ∧
    ∀ a, m !! a = (λ '(n, f), (n + names_of a fs, f)) <$> (k_files k !! a).
Proof using.
  revert k. induction fs as [|[a|] fs IH]; intros k Hin.
  - exists (k_files k). split; [by destruct k|]. intros a. cbn. destruct (k_files k !! a) as [[n f]|]; cbn; [|done]. by rewrite Z.add_0_r.
  - destruct (Hin a) as ([n f] & Ha); [by left|]. cbn [clone_files]. unfold arc_clone, arc_get. rewrite Ha, !bind_Done_l.
    destruct (IH (with_arcs k (<[a := (n + 1, f)]> (k_files k)) (k_next k))) as (m & -> & Hm).
    { intros b Hb. cbn. destruct (decide (a = b)) as [->|Hne]; [by rewrite lookup_insert_eq|rewrite lookup_insert_ne by done].
      apply Hin. by right. }
    exists m. split; [done|]. intros b. rewrite Hm. cbn [k_files with_arcs]. unfold names_of. rewrite filter_cons.
    destruct (decide (a = b)) as [->|Hne].
    + rewrite lookup_insert_eq, Ha, decide_True by done. cbn. f_equal. f_equal. lia.
    + rewrite lookup_insert_ne by done. rewrite decide_False by congruence. done.
  - destruct (IH k) as (m & E & Hm); [intros b Hb; apply Hin; by right|]. exists m. split; [exact E|]. intros b. rewrite Hm.
    unfold names_of. rewrite filter_cons, decide_False by done. done.
Qed.

(** The cache entry of the current directory gets one more reference. *)
Definition cwd_dup (c : option Inode) (ic : InodeCache) : InodeCache :=
  match c with
  | Some i => match ic_meta ic !! Z.to_nat (i_index i) with Some x => set_refs (i_index i) (im_refs x + 1) x ic | None => ic end
  | None => ic
  end.
Definition cwd_ok (c : option Inode) (ic : InodeCache) : Prop :=
  ∀ i, c = Some i → ∃ x, ic_meta ic !! Z.to_nat (i_index i) = Some x ∧ 0 ≤ im_refs x ∧ im_refs x + 1 < 2 ^ 64.

Lemma clone_cwd_ok c (k : @kernel D H) :
  cwd_ok c (k_ic k) → clone_cwd c k = Done (c, with_ifs k (cwd_dup c (k_ic k)) (k_d k)).
Proof using.
  intros Hc. unfold clone_cwd, cwd_dup. destruct c as [i|]; [|by destruct k].
  destruct (Hc i eq_refl) as (x & E & H0 & H1). unfold dup, meta_at. rewrite E. cbn [unwrap]. rewrite bind_Done_l, uadd_ok by lia.
  rewrite !bind_Done_l. by destruct i.
Qed.

(** ** The system call *)

(** A running process that can fork: its memory is in order, its files are open,
    and process numbers and reference counts have not run out. *)
Record can_fork (k : @kernel D H) (x : Process) (pt : Z) : Prop := {
  cf_me : procs (k_pm k) !! me = Some x;
  cf_running : p_state (meta x) = RUNNING;
  cf_table : p_pagetable (pdata x) = Some pt;
  cf_memory : mem_ok pt (p_trapframe (pdata x)) (p_size (pdata x)) (k_ps k);
  cf_pid : 0 ≤ last_pid (k_pm k) ∧ last_pid (k_pm k) + 1 < 2 ^ 64;
  cf_slots i p : procs (k_pm k) !! i = Some p → (0 ≤ kstack (pdata p) ∧ kstack (pdata p) + PGSIZE * 4 < 2 ^ 64) ∧
    (p_state (meta p) = UNUSED → p_killed (meta p) = false);
  cf_files a : Some a ∈ open_files (pdata x) → is_Some (k_files k !! a);
  cf_cwd : cwd_ok (p_cwd (pdata x)) (k_ic k);
}.

(** The child's record. *)
Record is_child (x c : Process) (pid cpt ctf : Z) : Prop := {
  ic_state : p_state (meta c) = RUNNABLE;
  ic_alive : p_killed (meta c) = false;
  ic_stack : 0 ≤ kstack (pdata c) ∧ kstack (pdata c) + PGSIZE * 4 < 2 ^ 64;
  ic_pid : p_pid (meta c) = pid;
  ic_parent : p_parent (pdata c) = Some me;
  ic_table : p_pagetable (pdata c) = Some cpt;
  ic_frame : p_trapframe (pdata c) = ctf;
  ic_size : p_size (pdata c) = p_size (pdata x);
  ic_name : p_name (pdata c) = p_name (pdata x);
  ic_files : open_files (pdata c) = open_files (pdata x);
  ic_cwd : p_cwd (pdata c) = p_cwd (pdata x);
  ic_start : p_context (pdata c) = mkContext fr (kstack (pdata c) + PGSIZE) (replicate 12 0);
}.

(** The child's memory: the parent's bytes with the parent's permissions, the
    trampoline and its own trap frame, and there the parent's registers but 0 in
    [a0]. *)
Record child_memory (pt tf size : Z) (s : pstate H) (cpt ctf : Z) (s' : pstate H) : Prop := {
  cm_ok : mem_ok cpt ctf size s';
  cm_view a : 0 ≤ a < size → user_byte (pmem s') cpt a = user_byte (pmem s) pt a ∧
    as_flags <$> mapping (pmem s') cpt a = as_flags <$> mapping (pmem s) pt a;
  cm_own v : 0 ≤ v < size → v mod PGSIZE = 0 → ∃ pte, mapping (pmem s') cpt v = Some pte ∧
    ¬ ps_page (pheap s) (as_pagetable pte) ∧ as_pagetable pte ≠ ctf;
  cm_rest v : 0 ≤ v < 2 ^ 39 → size ≤ v → mapping (pmem s') cpt v = process_pages tr ctf v;
  cm_frame : ¬ ps_page (pheap s) ctf ∧ ¬ table_of (pmem s') cpt ctf;
  cm_regs o : 0 ≤ o → o + 8 ≤ Tf.TRAPFRAME_SIZE → o + 8 ≤ Tf.a0 ∨ Tf.a0 + 8 ≤ o → Tf.get (pmem s') ctf o = Tf.get (pmem s) tf o;
  cm_a0 : Tf.get (pmem s') ctf Tf.a0 = 0;
}.

(** The process table after [fork]. *)
Definition forked_pm (k : @kernel D H) (x : Process) (i : nat) (p : Process) (ctf cpt : Z) : ProcManager :=
  fork_child me i (open_files (pdata x)) (p_cwd (pdata x)) (pdata x)
    (upd_proc i (λ _, allocated fr p (last_pid (k_pm k) + 1) ctf cpt)
       (mkPm (procs (k_pm k)) (init_proc (k_pm k)) (last_pid (k_pm k) + 1))).

Lemma forked_pm_lookup k x i p ctf cpt j :
  procs (k_pm k) !! i = Some p →
  procs (forked_pm k x i p ctf cpt) !! j =
    if decide (j = i) then
      Some (mkProc (set_state RUNNABLE (meta (allocated fr p (last_pid (k_pm k) + 1) ctf cpt)))
        (mkPData (kstack (pdata p)) (p_size (pdata x)) (Some cpt) ctf (mkContext fr (kstack (pdata p) + PGSIZE) (replicate 12 0))
           (p_name (pdata x)) (Some me) (open_files (pdata x)) (p_cwd (pdata x))))
    else procs (k_pm k) !! j.
Proof using.
  intros Hi. unfold forked_pm, fork_child, upd_proc. cbn [procs with_procs]. rewrite !list_lookup_alter.
  destruct (decide (j = i)) as [->|Hne].
  - rewrite !decide_True by done. by rewrite Hi.
  - by rewrite !decide_False by congruence.
Qed.

Section Run.
Context (k : @kernel D H) (x : Process) (pt : Z) (Hk : can_fork k x pt).
Context (i : nat) (p : Process) (ctf cpt : Z) (s2 : pstate H) (Hp : procs (k_pm k) !! i = Some p) (Hun : p_state (meta p) = UNUSED).
Abbreviation pm2 := (upd_proc i (λ _, allocated fr p (last_pid (k_pm k) + 1) ctf cpt)
  (mkPm (procs (k_pm k)) (init_proc (k_pm k)) (last_pid (k_pm k) + 1))).
Context (Halloc : alloc_proc tr fr (k_pm k) (k_ps k) = Done (Some i, pm2, s2)).

Lemma child_not_me : i ≠ me.
Proof using Hk Hp Hun.
  intros E. pose proof (cf_me _ _ _ Hk) as Hm. pose proof (cf_running _ _ _ Hk) as Hr. rewrite <- E in Hm. clear Halloc. congruence.
Qed.

Lemma pm2_me : procs pm2 !! me = Some x.
Proof using Hk Hp Hun.
  cbn. rewrite list_lookup_alter, decide_False by (apply child_not_me). apply Hk.
Qed.
Lemma pm2_child : procs pm2 !! i = Some (allocated fr p (last_pid (k_pm k) + 1) ctf cpt).
Proof using Hp. cbn. by rewrite list_lookup_alter, decide_True, Hp. Qed.

(** [fork] from the copy of the memory on. *)
Lemma fork_steps :
  fork me tr fr k =
    ('(r, s) ← uvm_copy pt cpt (p_size (pdata x)) s2;
     match r with
     | Err _ => Panic "fork: Fail to copy data from parent process."
     | Ok _ =>
         k ← clone_files (open_files (pdata x)) (with_ps (with_ps (with_pm k pm2) s2) (with_mem s (frame_copied (p_trapframe (pdata x)) ctf s)));
         '(cwd, k) ← clone_cwd (p_cwd (pdata x)) k;
         Done (Some i, with_pm k (fork_child me i (open_files (pdata x)) cwd (pdata x) (k_pm k)))
     end).
Proof using Hk Hp Hun Halloc.
  unfold fork. rewrite Halloc, bind_Done_l. cbv beta iota. unfold my_proc, get_proc. cbn [k_pm with_ps with_pm k_ps].
  rewrite (pm2_me : procs pm2 !! me = Some x). cbn [unwrap]. rewrite bind_Done_l, pm2_child. cbn [unwrap]. rewrite bind_Done_l, (cf_table _ _ _ Hk).
  cbn [allocated pdata set_context set_pagetable p_pagetable unwrap]. rewrite !bind_Done_l. done.
Qed.

Lemma fork_runs s3 :
  uvm_copy pt cpt (p_size (pdata x)) s2 = Done (Ok tt, s3) →
  ∃ m, fork me tr fr k = Done (Some i,
      mkK (forked_pm k x i p ctf cpt) (with_mem s3 (frame_copied (p_trapframe (pdata x)) ctf s3)) m (k_next k)
        (cwd_dup (p_cwd (pdata x)) (k_ic k)) (k_d k) (k_pipes k) (k_ticks k)) ∧
    ∀ a, m !! a = (λ '(n, f), (n + names_of a (open_files (pdata x)), f)) <$> (k_files k !! a).
Proof using Hk Hp Hun Halloc.
  intros Hu. rewrite fork_steps, Hu, bind_Done_l. cbv beta iota.
  destruct (clone_files_ok (open_files (pdata x)) (with_ps (with_ps (with_pm k pm2) s2) (with_mem s3 (frame_copied (p_trapframe (pdata x)) ctf s3))))
    as (m & E & Hm); [apply Hk|].
  exists m. split; [|exact Hm]. cbn in E. rewrite E, bind_Done_l, clone_cwd_ok by apply Hk. done.
Qed.
End Run.

(** The memory after [fork]. *)
Lemma forked_memory k x pt i p ctf cpt s1 s2 s3 :
  can_fork k x pt → procs (k_pm k) !! i = Some p → new_memory tr (k_ps k) s1 s2 ctf cpt →
  copying pt cpt s2 (p_size (pdata x)) s3 →
  let s' := with_mem s3 (frame_copied (p_trapframe (pdata x)) ctf s3) in
  child_memory pt (p_trapframe (pdata x)) (p_size (pdata x)) (k_ps k) cpt ctf s' ∧
  keeps (pheap (k_ps k)) (k_ps k) s' ∧ ps_inv (pheap s').
Proof using BFlL.
  intros Hk Hp ((Hctf & Hnew & Hu & Hk1 & _) & Hi2 & Ht2 & Hk2 & Hf2 & Hm2) Hc s'. pose proof (cf_memory _ _ _ Hk) as Hok.
  split; [|split; [eapply fork_keeps; done|apply Hc]]. split.
  - by eapply (fork_mem_ok tr pt (p_trapframe (pdata x)) _ ctf cpt (k_ps k) s1 s2).
  - intros a Ha. by eapply (fork_view tr pt (p_trapframe (pdata x)) _ ctf cpt (k_ps k) s1 s2).
  - intros v Hv Hal. destruct (fork_page tr pt (p_trapframe (pdata x)) _ ctf cpt (k_ps k) s1 s2 s3 Hok Hctf Hnew Hu Hk1 Hi2 Ht2 Hk2 Hf2 Hm2 Hc v Hv Hal)
      as (q & pte & _ & E & Hq & Hn & _). eexists. split; [exact E|].
    destruct (leaf_pte_fields q (as_flags pte)) as (_ & -> & _); [unfold page_ok, PGSIZE in *; lia|apply Hq|apply flags_range|].
    split; [intros Hps; apply Hn, Hk1; [apply Hq|done]|congruence].
  - intros v Hv Hle. by eapply (fork_rest tr pt (p_trapframe (pdata x)) _ ctf cpt (k_ps k) s1 s2).
  - split; [done|]. by eapply (frame_copied_not_table tr pt (p_trapframe (pdata x)) _ ctf cpt (k_ps k) s1 s2).
  - intros o H0 H8 Ha. by eapply (fork_frame tr pt (p_trapframe (pdata x)) _ ctf cpt (k_ps k) s1 s2).
  - apply fork_frame_a0.
Qed.

(** Before and after a fork that made the process [c] in slot [child]. *)
Record forked (k : @kernel D H) (x : Process) (pt : Z) (k' : @kernel D H) (child : nat) (c : Process) (cpt ctf : Z) : Prop := {
  fd_other : child ≠ me;
  fd_slot : ∃ p, procs (k_pm k) !! child = Some p ∧ p_state (meta p) = UNUSED;
  fd_child : procs (k_pm k') !! child = Some c;
  fd_record : is_child x c (last_pid (k_pm k) + 1) cpt ctf;
  fd_procs j : j ≠ child → procs (k_pm k') !! j = procs (k_pm k) !! j;
  fd_memory : child_memory pt (p_trapframe (pdata x)) (p_size (pdata x)) (k_ps k) cpt ctf (k_ps k');
  fd_keeps : keeps (pheap (k_ps k)) (k_ps k) (k_ps k');
  fd_parent : mem_ok pt (p_trapframe (pdata x)) (p_size (pdata x)) (k_ps k');
  fd_view a : 0 ≤ a < p_size (pdata x) → user_byte (kmem k') pt a = user_byte (kmem k) pt a;
  fd_files a : k_files k' !! a = (λ '(n, f), (n + names_of a (open_files (pdata x)), f)) <$> (k_files k !! a);
  fd_cwd : k_ic k' = cwd_dup (p_cwd (pdata x)) (k_ic k);
  fd_disk : k_d k' = k_d k;
}.

Lemma sys_fork_run k x pt :
  0 ≤ tr ∧ tr + PGSIZE < 2 ^ 64 → can_fork k x pt →
  sys_fork me tr fr k = Panic alloc_error ∨
  (sys_fork me tr fr k = Done (SErr, with_pm k (mkPm (procs (k_pm k)) (init_proc (k_pm k)) (last_pid (k_pm k) + 1))) ∧
     ∀ i p, procs (k_pm k) !! i = Some p → p_state (meta p) ≠ UNUSED) ∨
  ∃ child c cpt ctf k', sys_fork me tr fr k = Done (SRet (last_pid (k_pm k) + 1), k') ∧ forked k x pt k' child c cpt ctf.
Proof using BFlL.
  intros Htr Hk.
  destruct (alloc_proc_run tr fr Htr (k_pm k) (k_ps k)) as [E|[[E Hfull]|(i & p & ctf & cpt & s1 & s2 & Hp & Hun & Hnew & E)]];
    [apply Hk|apply Hk|apply Hk| |left; unfold sys_fork, fork; by rewrite E| |].
  { intros i p Hp. destruct (cf_slots _ _ _ Hk i p Hp) as [Hst _]. unfold PGSIZE in *. lia. }
  { right. left. split; [|done]. unfold sys_fork, fork. rewrite E. by destruct k. }
  destruct (uvm_copy_ok pt cpt (p_size (pdata x)) s2) as [Hu|(s3 & Hu & Hc)].
  { destruct Hnew as ((? & ? & ? & ? & _) & ? & ? & ? & ? & ?). eapply (fork_ready tr pt (p_trapframe (pdata x)) _ ctf cpt (k_ps k) s1 s2); try done. apply Hk. }
  { left. unfold sys_fork. rewrite (fork_steps k x pt Hk i p ctf cpt s2 Hp Hun E), Hu. done. }
  right. right. destruct (fork_runs k x pt Hk i p ctf cpt s2 Hp Hun E s3 Hu) as (m & Hf & Hm).
  destruct (forked_memory k x pt i p ctf cpt s1 s2 s3 Hk Hp Hnew Hc) as (Hcm & Hkp & Hi).
  destruct (mem_ok_keeps _ _ _ _ _ (cf_memory _ _ _ Hk) Hi Hkp) as (Hok & _ & _ & Hv).
  pose proof (forked_pm_lookup k x i p ctf cpt i Hp) as Hl. rewrite decide_True in Hl by done.
  destruct (cf_slots _ _ _ Hk i p Hp) as [Hst Hnk].
  eexists i, _, cpt, ctf, _. split; [unfold sys_fork; rewrite Hf, bind_Done_l; unfold get_proc; cbn [k_pm]; rewrite Hl; done|].
  split; cbn [k_pm k_ps k_files k_ic k_d].
  - by apply (child_not_me k x pt Hk i p).
  - by exists p.
  - exact Hl.
  - split; cbn; try done; by apply Hnk.
  - intros j Hj. rewrite (forked_pm_lookup k x i p ctf cpt j Hp). by rewrite decide_False.
  - exact Hcm.
  - exact Hkp.
  - exact Hok.
  - exact Hv.
  - exact Hm.
  - done.
  - done.
Qed.

(** C17 Fork.  The system call of a running process whose memory is in order and
    whose size is a multiple of the page size runs out of memory, or fails because no slot of the process table is free, which
    leaves all but the process number as it was, or returns the next process
    number to the parent.  Then the child is a runnable process with the parent's
    name, open files and directory; it finds at every address the byte and the
    permissions its parent finds, in pages of its own, and its trap frame has its
    parent's registers but 0 in [a0].  All pages that were in use keep their
    bytes, so the parent and all other processes see no difference; the files and
    the directory are counted once more for each descriptor of the child. *)
Theorem sys_fork_correct k x pt
    (Htr : 0 ≤ tr ∧ tr + PGSIZE < 2 ^ 64) (Hk : can_fork k x pt) :
  sys_fork me tr fr k = Panic alloc_error ∨
  (sys_fork me tr fr k = Done (SErr, with_pm k (mkPm (procs (k_pm k)) (init_proc (k_pm k)) (last_pid (k_pm k) + 1))) ∧
     ∀ i p, procs (k_pm k) !! i = Some p → p_state (meta p) ≠ UNUSED) ∨
  ∃ child c cpt ctf k', sys_fork me tr fr k = Done (SRet (last_pid (k_pm k) + 1), k') ∧ forked k x pt k' child c cpt ctf.
Proof using BFlL. by apply sys_fork_run. Qed.
End Fork.

(** ** A process of one page forks *)

Definition demo_parent : Process :=
  mkProc (mkPMeta RUNNING 0 false 0 1)
    (mkPData 0x3fffffd000 PGSIZE (Some 0x1000) 0x2000 new_context (replicate 16 0) None [Some 5; None; Some 5] None).

Definition demo_fork_kernel : @kernel fdisk Z :=
  mkK (mkPm [demo_parent; new_process] (Some 0%nat) 1) demo_fork_state {[5 := (2, vfile_init)]} 6 new_icache
    (mkD None log_uninit (boot (mkFd (λ _, [])))) ∅ 0.

Lemma demo_can_fork : can_fork 0%nat demo_fork_kernel demo_parent 0x1000.
Proof.
  destruct demo_forkable as [Hf _]. split; try done.
  - split; [apply Hf|apply Hf| | |by vm_compute].
    + intros v Hv Hal. destruct (fk_user _ _ _ _ Hf v Hv Hal) as (pte & E & Hp & Hu & _). by exists pte.
    + split; [by vm_compute|]. destruct (table_page _ _ _ 0x5000 (fk_child _ _ _ _ Hf)) as [_ Hlt]; [exists []; split; [split; [cbn; lia|constructor]|done]|].
      change (0x5000 < pheap demo_fork_state) in Hlt.
      change (0x2000 < pheap demo_fork_state). lia.
  - intros [|[|i]] p; cbn; [intros [= <-]|intros [= <-]|done]; (split; [by vm_compute|done]).
  - intros a Ha. assert (a = 5) as -> by (cbn in Ha; set_solver). by eexists.
Qed.

Lemma sys_fork_correct_witness :
  ∃ k' cpt, sys_fork (BFl := bit_flags_std) 0%nat 0x80002000 0x80001000 demo_fork_kernel = Done (SRet 2, k') ∧
    user_byte (kmem k') cpt 8 = Some 42 ∧ k_files k' !! 5 = Some (4, vfile_init).
Proof.
  destruct (sys_fork_correct (BFl := bit_flags_std) (BFlL := bit_flags_std_laws) 0%nat 0x80002000 0x80001000
    demo_fork_kernel demo_parent 0x1000)
    as [E|[[_ Hfull]|(child & c & cpt & ctf & k' & E & Hf)]].
  - by vm_compute.
  - exact demo_can_fork.
  - assert (match sys_fork (BFl := bit_flags_std) 0%nat 0x80002000 0x80001000 demo_fork_kernel with Panic _ => false | _ => true end = true)
      as Hd by by vm_compute. by rewrite E in Hd.
  - by destruct (Hfull 1%nat new_process).
  - exists k', cpt. split; [exact E|]. split; [|by rewrite (fd_files _ _ _ _ _ _ _ _ _ _ _ Hf)].
    transitivity (user_byte (pmem demo_fork_state) 0x1000 8); [|apply demo_forkable].
    apply (cm_view _ _ _ _ _ _ _ _ (fd_memory _ _ _ _ _ _ _ _ _ _ _ Hf) 8). unfold demo_parent; cbn [pdata p_size]; unfold PGSIZE; lia.
Defined.
