(* ===== verification/ExecMemory.v ===== *)
(** * The address space of a new program

    The memory [exec] builds before it gives up the old one: the user pages from
    address 0 on, all of them fresh.  [uvm_alloc] grows it by pages of zeros, and
    writes go to one page at a time. *)

From Stdlib Require Import ZArith Lia.
From stdpp Require Import base gmap strings numbers list.
From S2P Require Import Prelude Address Pte PhysMem PageTable PageTableSpec UserCopy PageTableTheorems UvmCopy Cpu Proc ForkMemory.

Local Open Scope Z_scope.

#[local] Opaque map.

(** The end of the last page that [a] bytes need. *)
Definition page_up (a : Z) : Z := page_of (a + PGSIZE - 1).

Lemma le_page_up a : a ≤ page_up a.
Proof. unfold page_up, page_of, PGSIZE. divlia. Qed.

(** ** Unmapping *)

(** [uvm_unmap] of mapped pages ends, and the memory is what it was. *)

Lemma uvm_unmap_done root va n free m :
  va mod PGSIZE = 0 → 0 ≤ va → 0 ≤ n → va + n * PGSIZE ≤ MAXVA →
  (∀ v, va ≤ v < va + n * PGSIZE → v mod PGSIZE = 0 → ∃ pte, mapping m root v = Some pte ∧ as_flags pte ≠ PTE_V) →
  uvm_unmap root va n free m = Done m.
Proof.
  intros Hal H0 Hn Hmax Hall. unfold uvm_unmap, is_page_aligned. rewrite (proj2 (Z.eqb_eq _ _)) by done. cbn [negb]. assert (MAXVA = 2 ^ 38) as Emax by done.
  match goal with |- (for_range 0 n ?b ?st ≫= _) = _ =>
    destruct (for_range_inv (λ i vm, vm = (va + i * PGSIZE, m)) 0 n b st) as (r & -> & ->); [done|by rewrite Z.add_0_r| |done] end.
  intros i vm Hi ->. destruct (Hall (va + i * PGSIZE)) as (pte & Hm & Hf); [unfold PGSIZE in *; lia|unfold PGSIZE in *; divlia|].
  destruct (translate_mapping root (va + i * PGSIZE) m pte ltac:(unfold PGSIZE in *; lia) Hm) as (e & -> & -> & ->). cbn [negb].
  rewrite (proj2 (Z.eqb_neq _ _)) by done. unfold add_page. rewrite uadd_ok, bind_Done_l by (unfold PGSIZE in *; lia).
  eexists. split; [done|]. destruct free; unfold drop_in_place; f_equal; unfold PGSIZE; lia.
Qed.

Section Space.
Context {BFl : BitFlags} {BFlL : BitFlagsLaws} {H : Type} {PS : PageSource H} {PSL : PageSourceLaws H}.
(** The pages in use before the program is loaded. *)
Context (h0 : H) (root : Z).

(** The page behind a user address. *)
Definition user_page (m : mem) (v q : Z) : Prop := as_pagetable <$> mapping m root v = Some q.

Record space (n : Z) (s : pstate H) : Prop := {
  sp_tree : pt_inv (pmem s) root (pheap s);
  sp_heap : ps_inv (pheap s);
  sp_sub : pages_sub h0 (pheap s);
  sp_fresh : fresh_tree h0 (pmem s) root;
  sp_page v : 0 ≤ v < n → v mod PGSIZE = 0 → ∃ q, user_page (pmem s) v q ∧ page_ok q ∧
    ¬ ps_page h0 q ∧ ps_page (pheap s) q ∧ ¬ table_of (pmem s) root q;
  sp_inj v v' q : 0 ≤ v < n → 0 ≤ v' < n → v mod PGSIZE = 0 → v' mod PGSIZE = 0 →
    user_page (pmem s) v q → user_page (pmem s) v' q → v = v';
  sp_none v : n ≤ v < TRAPFRAME → mapping (pmem s) root v = None;
  sp_size : n mod PGSIZE = 0 ∧ 0 ≤ n ≤ TRAPFRAME;
}.

(** The entry of a page of a program. *)
Lemma user_pte q : page_ok q → as_pagetable (leaf_pte q USER_FLAGS) = q.
Proof using. intros Hq. apply leaf_pte_fields; [unfold page_ok, PGSIZE in *; lia|apply Hq|by vm_compute]. Qed.

Lemma user_page_unique m v q q' : user_page m v q → user_page m v q' → q = q'.
Proof using. unfold user_page. congruence. Qed.

Lemma user_byte_at m a q : user_page m (page_of a) q → user_byte m root a = Some (read_byte m (q + a mod PGSIZE)).
Proof using. unfold user_page. intros Hm. apply fmap_Some in Hm as (pte & Hm & ->). apply (user_byte_page _ _ _ _ Hm). Qed.

(** [page_of] of an address below [n]. *)
Lemma below_page n a : n mod PGSIZE = 0 → 0 ≤ a < n → 0 ≤ page_of a < n ∧ page_of a mod PGSIZE = 0.
Proof using. intros Hn Ha. pose proof (page_of_bounds a) as [Hb Hal]. split; [|done]. unfold page_of, PGSIZE in *. divlia. Qed.

(** The address space of a new process. *)
Lemma space_empty tr tf s :
  ps_inv (pheap s) → pt_inv (pmem s) root (pheap s) → pages_sub h0 (pheap s) → fresh_tree h0 (pmem s) root →
  (∀ v, 0 ≤ v < 2 ^ 39 → mapping (pmem s) root v = process_pages tr tf v) → space 0 s.
Proof using.
  intros Hi Ht Hk Hf Hm. assert (TRAPFRAME < 2 ^ 39 ∧ TRAPFRAME mod PGSIZE = 0 ∧ TRAMPOLINE = TRAPFRAME + PGSIZE) as (Hlim & Hal & Htr) by by vm_compute.
  split; [done|done|done|done|lia|lia| |by vm_compute].
  intros v Hv. rewrite Hm by lia. unfold process_pages. rewrite !decide_False; [done|..]; rewrite ?Htr; intros E; unfold page_of, PGSIZE in *; divlia.
Qed.

(** ** Growing *)

(** What growing keeps and adds. *)
Record grown_space (n n' : Z) (s s' : pstate H) : Prop := {
  gs_space : space n' s';
  gs_keeps : keeps h0 s s';
  gs_old a : 0 ≤ a < n → user_byte (pmem s') root a = user_byte (pmem s) root a;
  gs_new a : n ≤ a < n' → user_byte (pmem s') root a = Some 0;
  gs_map v : 0 ≤ v < 2 ^ 39 → ¬ (n ≤ v < n') → mapping (pmem s') root v = mapping (pmem s) root v;
  gs_flags v : n ≤ v < n' → as_flags <$> mapping (pmem s') root v = Some (Z.lor USER_FLAGS PTE_V);
}.

Lemma grown_refl n s : space n s → grown_space n n s s.
Proof using. intros Hs. split; [done|split; done|done|lia|done|lia]. Qed.

Lemma grown_trans n1 n2 n3 s1 s2 s3 : n1 ≤ n2 → n2 ≤ n3 → 0 ≤ n1 → grown_space n1 n2 s1 s2 → grown_space n2 n3 s2 s3 → grown_space n1 n3 s1 s3.
Proof using.
  intros H12 H23 H0 [A1 A2 A3 A4 A5 A6] [B1 B2 B3 B4 B5 B6]. split; [done|by eapply keeps_trans|..].
  - intros a Ha. rewrite B3, A3 by lia. done.
  - intros a Ha. destruct (decide (a < n2)); [rewrite B3 by lia; apply A4; lia|apply B4; lia].
  - intros v Hv Hout. by rewrite B5, A5 by lia.
  - intros v Hv. destruct (decide (v < n2)); [|apply B6; lia]. destruct (sp_size _ _ A1) as [_ Hn2]. assert (TRAPFRAME < 2 ^ 39) by by vm_compute.
    rewrite B5 by lia. apply A6. lia.
Qed.

(** A fresh page of zeros behind the last one. *)
Lemma page_added n s s' q :
  space n s → n + PGSIZE ≤ TRAPFRAME → apart_from root s s' → pt_inv (pmem s') root (pheap s') → ps_inv (pheap s') →
  page_ok q → ¬ ps_page (pheap s) q → ps_page (pheap s') q → ¬ table_of (pmem s') root q → (∀ x, in_page q x → pmem s' x = 0) →
  (∀ v, 0 ≤ v < 2 ^ 39 → mapping (pmem s') root v = if decide (page_of v = n) then Some (leaf_pte q USER_FLAGS) else mapping (pmem s) root v) →
  grown_space n (n + PGSIZE) s s'.
Proof using.
  intros Hs Hn Ha Ht Hh Hq Hnew Hu Hqt Hz Hm. destruct (sp_size _ _ Hs) as [Hal Hsz]. assert (TRAPFRAME < 2 ^ 39 ∧ TRAPFRAME mod PGSIZE = 0) as [Htf Htfa] by by vm_compute.
  assert (∀ v, 0 ≤ v < n → v mod PGSIZE = 0 → mapping (pmem s') root v = mapping (pmem s) root v) as Hold.
  { intros v Hv Hva. rewrite Hm by lia. rewrite decide_False; [done|]. rewrite page_of_aligned by done. lia. }
  assert (∀ v, 0 ≤ v < n + PGSIZE → v mod PGSIZE = 0 → 0 ≤ v < n ∨ v = n) as Hcase by (unfold PGSIZE in *; intros; divlia).
  assert (user_page (pmem s') n q) as Hnq by (unfold user_page; rewrite Hm by lia; rewrite decide_True by (by apply page_of_aligned); cbn; by rewrite user_pte).
  assert (∀ v r, 0 ≤ v < n → v mod PGSIZE = 0 → user_page (pmem s') v r → ¬ user_page (pmem s') n r) as Hclash.
  { intros v r Hv Hva Hr Hr'. unfold user_page in Hr. rewrite Hold in Hr by done. destruct (sp_page _ _ Hs v Hv Hva) as (r' & Hr2 & _ & _ & Hru & _).
    apply Hnew. by rewrite (user_page_unique _ _ _ _ Hnq Hr'), (user_page_unique _ _ _ _ Hr Hr2). }
  assert (keeps h0 s s') as Hk.
  { split; [apply Ha|]. intros x Hx. apply (af_frame _ _ _ Ha); [by apply (sp_sub _ _ Hs); [apply page_of_bounds|]|]. intros Htx. by apply (sp_fresh _ _ Hs _ Htx). }
  split; [split|done|..].
  - done.
  - done.
  - intros r Hr Hru. by apply (af_pages _ _ _ Ha), (sp_sub _ _ Hs).
  - intros r Hr Hru. destruct (af_fresh _ _ _ Ha r Hr) as [Hr'|Hr']; [by apply (sp_fresh _ _ Hs r)|]. apply Hr', (sp_sub _ _ Hs); [|done].
    by apply (table_page _ _ _ _ Ht Hr).
  - intros v Hv Hva. destruct (Hcase v Hv Hva) as [Hv'| ->].
    + destruct (sp_page _ _ Hs v Hv' Hva) as (r & Hr & Hro & Hrn & Hru & Hrt). exists r. unfold user_page. rewrite Hold by done.
      split; [done|]. split; [done|]. split; [done|]. split; [by apply Ha; [apply Hro|]|]. intros Htr. by destruct (af_fresh _ _ _ Ha r Htr).
    + exists q. split; [done|]. split; [done|]. split; [intros Hp; by apply Hnew, (sp_sub _ _ Hs); [apply Hq|]|]. done.
  - intros v v' r Hv Hv' Hva Hva' Hr Hr'. destruct (Hcase v Hv Hva) as [Hv1| ->], (Hcase v' Hv' Hva') as [Hv2| ->]; [|..|done].
    + unfold user_page in *. rewrite Hold in Hr, Hr' by done. by apply (sp_inj _ _ Hs v v' r).
    + by destruct (Hclash v r Hv1 Hva Hr).
    + by destruct (Hclash v' r Hv2 Hva' Hr').
  - intros v Hv. rewrite Hm by (unfold PGSIZE in *; lia). rewrite decide_False; [apply (sp_none _ _ Hs); unfold PGSIZE in *; lia|]. unfold page_of, PGSIZE in *. divlia.
  - unfold PGSIZE in *. split; [divlia|lia].
  - intros a Hab. destruct (below_page n a Hal Hab) as [Hp Hpa]. destruct (sp_page _ _ Hs _ Hp Hpa) as (r & Hr & Hro & _ & Hru & Hrt).
    rewrite (user_byte_at _ a r Hr). rewrite (user_byte_at _ a r) by (unfold user_page; by rewrite Hold). f_equal. unfold read_byte. f_equal.
    assert (page_of (r + a mod PGSIZE) = r) as E by (apply in_page_of; [apply Hro|]; unfold in_page, PGSIZE; divlia).
    apply (af_frame _ _ _ Ha); by rewrite E.
  - intros a Hab. assert (page_of a = n) as E by (unfold page_of, PGSIZE in *; divlia). rewrite (user_byte_at _ a q) by (by rewrite E).
    f_equal. unfold read_byte. rewrite Hz; [done|]. unfold in_page, PGSIZE. divlia.
  - intros v Hv Hout. rewrite Hm by lia. rewrite decide_False; [done|]. unfold page_of, PGSIZE in *. divlia.
  - intros v Hv. rewrite Hm by (unfold PGSIZE in *; lia). rewrite decide_True by (unfold page_of, PGSIZE in *; divlia). cbn.
    f_equal. apply leaf_pte_fields; [unfold page_ok, PGSIZE in *; lia|apply Hq|by vm_compute].
Qed.

(** One page of [uvm_alloc]. *)
Definition alloc_page (old_size i : Z) (s : pstate H) : outcome (pstate H + pstate H) :=
  let cur_size := old_size + i * PGSIZE in
  '(memory, s) ← new_zeroed s;
  let s := with_mem s (write_bytes (pmem s) memory 0 PGSIZE) in
  '(ok, s) ← map root cur_size memory PGSIZE user_perm s;
  if negb ok then
    '(_, m) ← uvm_dealloc root cur_size old_size (pmem s);
    Done (inl (with_mem s m))
  else Done (inr s).

Lemma alloc_page_ok old i n s :
  space n s → n = old + i * PGSIZE → n + PGSIZE ≤ TRAPFRAME →
  alloc_page old i s = Panic alloc_error ∨ ∃ s', alloc_page old i s = Done (inr s') ∧ grown_space n (n + PGSIZE) s s'.
Proof using BFlL.
  intros Hs -> Hn. destruct (sp_size _ _ Hs) as [Hal Hsz]. unfold alloc_page. assert (TRAPFRAME ≤ MAXVA) as Hmax by by vm_compute.
  destruct (fresh_page_ok root (old + i * PGSIZE) s (sp_tree _ _ Hs) (sp_heap _ _ Hs) Hal) as [->|(q & s1 & -> & [E|(s2 & E & Ha & Ht & Hh & Hq & Hnew & Hu & Hqt & Hz & Hm)])];
    [lia|lia|apply (sp_none _ _ Hs); unfold PGSIZE in *; lia|by left|..]; rewrite bind_Done_l; cbv zeta; rewrite E; [by left|].
  right. exists s2. split; [done|]. by apply (page_added _ s s2 q).
Qed.

Lemma uvm_alloc_ok old new s :
  0 ≤ old ≤ new → page_up new ≤ TRAPFRAME → space (page_up old) s →
  uvm_alloc root old new s = Panic alloc_error ∨
  ∃ s', uvm_alloc root old new s = Done (Some new, s') ∧ grown_space (page_up old) (page_up new) s s'.
Proof using BFlL.
  intros Hon Hmax Hs. assert (TRAPFRAME < 2 ^ 39) as Htf by by vm_compute. unfold uvm_alloc. rewrite (proj2 (Z.ltb_ge _ _)) by lia.
  assert (page_up old ≤ page_up new) as Hle by (unfold page_up, page_of, PGSIZE; divlia). pose proof (page_of_bounds (new + PGSIZE - 1)) as Hb.
  fold (page_up new) in Hb. rewrite page_round_up_ok by (unfold PGSIZE in *; lia). fold (page_up old). rewrite bind_Done_l.
  set (N := (new - page_up old + PGSIZE - 1) / PGSIZE). assert (page_up old + Z.max 0 N * PGSIZE = page_up new) as HN.
  { unfold N, page_up, page_of, PGSIZE in *. divlia. }
  assert (for_range_until 0 N (alloc_page (page_up old)) s = Panic alloc_error ∨
    ∃ s', for_range_until 0 N (alloc_page (page_up old)) s = Done (inr s') ∧ grown_space (page_up old) (page_up new) s s') as [E|(s' & E & Hg)].
  { destruct (decide (0 ≤ N)) as [H0|H0].
    - rewrite Z.max_r in HN by done. rewrite <- HN.
      apply (for_range_until_panic (λ i s', grown_space (page_up old) (page_up old + i * PGSIZE) s s')); [done|rewrite Z.add_0_r; by apply grown_refl|].
      intros i s1 Hi Hg. destruct (alloc_page_ok (page_up old) i _ s1 (gs_space _ _ _ _ Hg) eq_refl) as [?|(s2 & E & Hg2)]; [unfold PGSIZE in *; lia|by left|].
      right. exists s2. split; [done|]. replace (page_up old + (i + 1) * PGSIZE) with (page_up old + i * PGSIZE + PGSIZE) by lia.
      destruct (sp_size _ _ Hs). by apply (grown_trans _ (page_up old + i * PGSIZE) _ s s1 s2); try done; unfold PGSIZE; lia.
    - right. exists s. rewrite Z.max_l, Z.add_0_r in HN by lia. rewrite <- HN. split; [|by apply grown_refl].
      unfold for_range_until. by rewrite seqZ_nil by lia. }
  - left. unfold alloc_page in E. by rewrite E.
  - right. exists s'. split; [|done]. unfold alloc_page in E. by rewrite E.
Qed.

(** A size that is smaller leaves the memory alone. *)
Lemma uvm_alloc_max old new s :
  0 ≤ old → page_up (Z.max old new) ≤ TRAPFRAME → space (page_up old) s →
  uvm_alloc root old new s = Panic alloc_error ∨
  ∃ s', uvm_alloc root old new s = Done (Some (Z.max old new), s') ∧ grown_space (page_up old) (page_up (Z.max old new)) s s'.
Proof using BFlL.
  intros H0 Hmax Hs. destruct (decide (old ≤ new)) as [Hle|Hgt].
  - rewrite Z.max_r in * by done. by apply uvm_alloc_ok.
  - right. exists s. rewrite Z.max_l by lia. unfold uvm_alloc. rewrite (proj2 (Z.ltb_lt _ _)) by lia. split; [done|]. by apply grown_refl.
Qed.

(** ** Writing *)

(** The bytes of a range are written, through the pages behind it, and nothing
    else is. *)
Record filled (n va size : Z) (byte : Z → Z) (s : pstate H) (m' : mem) : Prop := {
  fl_space : space n (with_mem s m');
  fl_keeps : keeps h0 s (with_mem s m');
  fl_in a : va ≤ a < va + size → user_byte m' root a = Some (byte (a - va) mod 256);
  fl_out a : 0 ≤ a < n → ¬ (va ≤ a < va + size) → user_byte m' root a = user_byte (pmem s) root a;
  fl_rest v : mapping m' root v = mapping (pmem s) root v;
}.

Lemma filled_nil n va byte s : space n s → filled n va 0 byte s (pmem s).
Proof using. intros Hs. destruct s. split; [done|split; done|lia|done|done]. Qed.

Lemma filled_app n va a b byte1 byte2 byte s m1 m2 :
  filled n va a byte1 s m1 → filled n (va + a) b byte2 (with_mem s m1) m2 → 0 ≤ va → 0 ≤ a → 0 ≤ b → va + a + b ≤ n →
  (∀ i, 0 ≤ i < a → byte i = byte1 i) → (∀ i, 0 ≤ i < b → byte (a + i) = byte2 i) → filled n va (a + b) byte s m2.
Proof using.
  intros [A1 A2 A3 A4 A5] [B1 B2 B3 B4 B5] Hva Ha Hb Hn H1 H2. cbn [pmem with_mem] in *. split.
  - done.
  - by apply (keeps_trans _ _ (with_mem s m1)).
  - intros x Hx. destruct (decide (x < va + a)).
    + rewrite B4, A3, H1 by lia. done.
    + rewrite B3 by lia. rewrite <- H2 by lia. do 3 f_equal. lia.
  - intros x Hx Hout. by rewrite B4, A4 by lia.
  - intros v. by rewrite B5, A5.
Qed.

(** Writes to the pages of the program. *)
Lemma inside_written n s m' :
  space n s → (∀ x, (∀ v q, 0 ≤ v < n → v mod PGSIZE = 0 → user_page (pmem s) v q → ¬ in_page q x) → m' x = pmem s x) →
  space n (with_mem s m') ∧ keeps h0 s (with_mem s m') ∧ ∀ v, mapping m' root v = mapping (pmem s) root v.
Proof using.
  intros Hs Hx. assert (∀ v q, 0 ≤ v < n → v mod PGSIZE = 0 → user_page (pmem s) v q → page_ok q ∧ ¬ ps_page h0 q ∧ ¬ table_of (pmem s) root q) as Huser.
  { intros v q Hv Hva Hq. destruct (sp_page _ _ Hs v Hv Hva) as (q' & Hq' & Hrest). rewrite (user_page_unique _ _ _ _ Hq Hq'). naive_solver. }
  destruct (tree_same (pmem s) m' root (pheap s) (pheap s) (sp_tree _ _ Hs)) as (Ht & Htab & Hm); [|done|].
  { intros r x Hr Hin. apply Hx. intros v q Hv Hva Hq Hin'. destruct (Huser v q Hv Hva Hq) as (Hqo & _ & Hqt).
    destruct (table_page _ _ _ _ (sp_tree _ _ Hs) Hr) as [Hro _]. by rewrite (in_page_unique r q x) in Hr. }
  split; [|split; [split|done]].
  - destruct Hs as [S1 S2 S3 S4 S5 S6 S7 S8]. split; cbn [pmem pheap with_mem]; try done.
    + intros r Hr. apply S4. by apply Htab.
    + intros v Hv Hva. destruct (S5 v Hv Hva) as (r & Hr & Hrest). exists r. unfold user_page. rewrite Hm. split; [done|]. by rewrite Htab.
    + intros v v' r. unfold user_page. rewrite !Hm. apply S6.
    + intros v Hv. rewrite Hm. by apply S7.
  - done.
  - intros x Hp. cbn [pmem with_mem]. apply Hx. intros v q Hv Hva Hq Hin. destruct (Huser v q Hv Hva Hq) as (Hqo & Hqn & _).
    apply in_page_of in Hin; [|apply Hqo]. by rewrite Hin in Hp.
Qed.

(** Writing into one page. *)
Lemma page_written n s v q m' :
  space n s → 0 ≤ v < n → v mod PGSIZE = 0 → user_page (pmem s) v q → page_ok q → (∀ x, ¬ in_page q x → m' x = pmem s x) →
  space n (with_mem s m') ∧ keeps h0 s (with_mem s m') ∧ (∀ v, mapping m' root v = mapping (pmem s) root v) ∧
  ∀ a, 0 ≤ a < n → user_byte m' root a = if decide (page_of a = v) then Some (read_byte m' (q + a mod PGSIZE)) else user_byte (pmem s) root a.
Proof using.
  intros Hs Hv Hva Hq Hqo Hm'. destruct (inside_written n s m' Hs) as (H1 & H2 & Hm).
  { intros x Hx. apply Hm'. by apply (Hx v q). }
  split; [done|]. split; [done|]. split; [done|]. intros a Ha. destruct (below_page n a (proj1 (sp_size _ _ Hs)) Ha) as [Hp Hpa].
  destruct (sp_page _ _ Hs _ Hp Hpa) as (r & Hr & Hro & _). case_decide as Hd.
  - apply user_byte_at. unfold user_page. by rewrite Hm, Hd.
  - rewrite (user_byte_at _ a r Hr). rewrite (user_byte_at _ a r) by (unfold user_page; by rewrite Hm). unfold read_byte. rewrite Hm'; [done|].
    intros Hx. apply Hd. apply (sp_inj _ _ Hs _ _ q); [done..| |done]. rewrite <- (in_page_unique r q (r + a mod PGSIZE) Hro Hqo); [done| |done].
    unfold in_page, PGSIZE. divlia.
Qed.

Lemma store_filled n s v q o bs :
  space n s → 0 ≤ v < n → v mod PGSIZE = 0 → user_page (pmem s) v q → page_ok q → 0 ≤ o → o + Z.of_nat (length bs) ≤ PGSIZE →
  filled n (v + o) (Z.of_nat (length bs)) (λ i, nth (Z.to_nat i) bs 0) s (store_bytes (pmem s) (q + o) bs).
Proof using.
  intros Hs Hv Hva Hq Hqo Ho Hl. assert (v + PGSIZE ≤ n) as Hvn by (destruct (sp_size _ _ Hs); unfold PGSIZE in *; divlia).
  assert (∀ x, store_bytes (pmem s) (q + o) bs x = if decide (q + o ≤ x < q + o + Z.of_nat (length bs)) then nth (Z.to_nat (x - (q + o))) bs 0 else pmem s x) as Hst.
  { intros x. unfold store_bytes. case_decide; destruct (Z.leb_spec (q + o) x), (Z.ltb_spec x (q + o + Z.of_nat (length bs))); (done || lia). }
  destruct (page_written n s v q (store_bytes (pmem s) (q + o) bs)) as (H1 & H2 & H3 & H4); try done.
  { intros x Hx. rewrite Hst, decide_False; [done|]. unfold in_page in Hx. lia. }
  split; try done.
  - intros a Ha. assert (page_of a = v ∧ a mod PGSIZE = a - v) as [E1 E2] by (unfold page_of, PGSIZE in *; divlia).
    rewrite H4, decide_True by (done || lia). unfold read_byte. rewrite Hst, decide_True by lia. do 4 f_equal. lia.
  - intros a Ha Hout. rewrite H4 by done. case_decide as Hd; [|done]. rewrite (user_byte_at _ a q) by (by rewrite Hd).
    unfold read_byte. rewrite Hst, decide_False; [done|]. assert (a mod PGSIZE = a - v) by (unfold page_of, PGSIZE in *; divlia). lia.
Qed.
End Space.
