(* ===== verification/Sbrk.v ===== *)
(** * Growing and shrinking a process

    [grow_proc] of [process/process.rs], by which [sys_sbrk] moves the end of the
    memory of a process. *)

From Stdlib Require Import ZArith Lia.
From stdpp Require Import base gmap strings numbers list.
From S2P Require Import Prelude Address Pte PhysMem PageTable PageTableSpec UserCopy PageTableTheorems UvmCopy Cpu Proc ForkMemory ExecMemory.

Local Open Scope Z_scope.

#[local] Opaque map.

Section Sbrk.
Context {BFl : BitFlags} {BFlL : BitFlagsLaws} {H : Type} {PS : PageSource H} {PSL : PageSourceLaws H}.
Context (h0 : H) (root : Z).

(** A process with the page table [root], all of whose pages up to its size are
    mapped by leaf entries. *)
Record sized (p : Process) (s : pstate H) : Prop := {
  sz_table : p_pagetable (pdata p) = Some root;
  sz_size : 0 ≤ p_size (pdata p);
  sz_space : space h0 root (page_up (p_size (pdata p))) s;
  sz_leaf v pte : 0 ≤ v < page_up (p_size (pdata p)) → mapping (pmem s) root v = Some pte → as_flags pte ≠ PTE_V;
}.

(** The process with another size. *)
Definition resized (p : Process) (n : Z) : Process := with_pdata p (set_psize n (pdata p)).

Lemma page_up_mono a b : a ≤ b → page_up a ≤ page_up b.
Proof using. intros Hab. unfold page_up, page_of, PGSIZE. divlia. Qed.

Lemma page_up_mod a : page_up a mod PGSIZE = 0.
Proof using. apply page_of_bounds. Qed.

Lemma sized_mapped p s v : sized p s → 0 ≤ v < page_up (p_size (pdata p)) → v mod PGSIZE = 0 →
  ∃ pte, mapping (pmem s) root v = Some pte ∧ as_flags pte ≠ PTE_V.
Proof using.
  intros Hz Hv Hva. destruct (sp_page _ _ _ _ (sz_space _ _ Hz) v Hv Hva) as (q & Hq & _). unfold user_page in Hq.
  destruct (mapping (pmem s) root v) as [pte|] eqn:E; [|done]. exists pte. split; [done|]. by apply (sz_leaf _ _ Hz v).
Qed.

(** Giving memory back moves the size and nothing else. *)
Lemma shrink_ok p s count :
  sized p s → 0 < count ≤ p_size (pdata p) →
  grow_proc (- count) p s = Done (Ok tt, resized p (p_size (pdata p) - count), s).
Proof using BFlL.
  intros Hz Hc. set (n := p_size (pdata p)) in *. destruct (sp_size _ _ _ _ (sz_space _ _ Hz)) as [_ [_ Hn]]. fold n in Hn. pose proof (le_page_up n) as Hup.
  assert (TRAPFRAME < 2 ^ 38 ∧ MAXVA = 2 ^ 38) as [Htf Emax] by by vm_compute. unfold grow_proc. rewrite (sz_table _ _ Hz). cbn [unwrap]. rewrite bind_Done_l. fold n.
  rewrite (proj2 (Z.ltb_ge 0 _)), (proj2 (Z.ltb_lt _ 0)) by lia. unfold isize_of. rewrite (proj2 (Z.ltb_lt n _)) by lia.
  replace (n + - count) with (n - count) by lia. rewrite (proj2 (Z.leb_le _ _)), (proj2 (Z.ltb_lt (n - count) _)) by lia. cbn [andb ensure]. rewrite bind_Done_l.
  rewrite Z.mod_small by lia. unfold uvm_dealloc. rewrite (proj2 (Z.leb_gt _ _)) by lia.
  rewrite !page_round_up_ok by (unfold PGSIZE; lia). rewrite !bind_Done_l. fold (page_up (n - count)). fold (page_up n).
  assert ((if page_up (n - count) <? page_up n then
           d ← usub (page_up n) (page_up (n - count)); pages_num ← udiv d PGSIZE; uvm_unmap root (page_up (n - count)) pages_num true (pmem s)
         else Done (pmem s)) = Done (pmem s)) as ->.
  { destruct (Z.ltb_spec (page_up (n - count)) (page_up n)) as [Hlt|]; [|done]. pose proof (le_page_up (n - count)) as Hup'.
    pose proof (page_up_mod n) as M1. pose proof (page_up_mod (n - count)) as M2.
    rewrite usub_ok, bind_Done_l by lia. rewrite udiv_ok, bind_Done_l by done. unfold PGSIZE in *.
    assert ((page_up n - page_up (n - count)) / 4096 * 4096 = page_up n - page_up (n - count)) as Hd by divlia.
    apply uvm_unmap_done; unfold PGSIZE in *; [done|lia|apply Z.div_pos; lia|lia|]. intros v Hv Hva. apply (sized_mapped p s v Hz); [fold n; lia|done]. }
  rewrite !bind_Done_l. unfold resized. by destruct s.
Qed.

(** The allocator's first page for a place that is still mapped. *)
Lemma uvm_alloc_remap s old new :
  pt_inv (pmem s) root (pheap s) → ps_inv (pheap s) → 0 ≤ old → page_up old < new → page_up old < MAXVA →
  mapping (pmem s) root (page_up old) ≠ None →
  uvm_alloc root old new s = Panic alloc_error ∨ uvm_alloc root old new s = Panic "remap".
Proof using.
  intros Hi Hps H0 Hn Hmax Hm. assert (MAXVA = 2 ^ 38) as Emax by done. pose proof (le_page_up old) as Hup. unfold uvm_alloc. rewrite (proj2 (Z.ltb_ge _ _)) by lia.
  rewrite page_round_up_ok by (unfold PGSIZE; lia). rewrite bind_Done_l. fold (page_up old). unfold for_range_until.
  rewrite seqZ_cons by (rewrite Z.sub_0_r; apply Z.div_str_pos; unfold PGSIZE; lia). cbn [for_each_until]. rewrite Z.mul_0_l, Z.add_0_r.
  destruct (new_page_step s Hps) as [->|(q & s1 & -> & _ & Hq & Hnew & _ & [_ Hk] & _)]; [by left|right]. rewrite bind_Done_l. cbv zeta.
  rewrite map_mapped; [done|apply page_up_mod|lia|]. cbn [pmem with_mem].
  rewrite (mapping_ext (pmem s) _ root (pheap s)); [done|done|]. intros r x Hr Hx. destruct (table_page _ _ _ _ Hi Hr) as [Hro Hru].
  pose proof (proj1 (in_page_of r x (proj1 Hro)) Hx) as E. rewrite zero_page_other; [apply Hk; by rewrite E|].
  intros Hin. apply in_page_of in Hin; [|apply Hq]. rewrite <- E, Hin in Hru. done.
Qed.

(** Growing. *)
Lemma grow_eq p s more : p_pagetable (pdata p) = Some root → 0 < more → 0 ≤ p_size (pdata p) → p_size (pdata p) + more < 2 ^ 64 →
  grow_proc more p s =
    ('(r, s) ← uvm_alloc root (p_size (pdata p)) (p_size (pdata p) + more) s;
     match r with
     | Some n => Done (Ok tt, resized p n, s)
     | None => Done (Err "Fail to allocate virtual memory for user", p, s)
     end).
Proof using.
  intros Hpt Hmore H0 Hn. unfold grow_proc. rewrite Hpt. cbn [unwrap]. rewrite bind_Done_l. rewrite (proj2 (Z.ltb_lt _ _)), uadd_ok by lia. by rewrite bind_Done_l.
Qed.

(** C38 What [sbrk] does when a process gives [count] bytes back and then asks for
    [more].  The first call only moves the size of the process: its pages stay
    mapped and no page goes back to the allocator.  So the second call succeeds
    without new pages as long as it stays within the last page; it panics with
    [remap], or for lack of memory, when it needs a page that was given back; and
    when no page was given back it runs out of memory or adds pages of zeros and
    keeps the bytes of the process. *)
Theorem shrink_grow p s count more
    (Hp : sized p s) (Hcount : 0 < count ≤ p_size (pdata p)) (Hmore : 0 < more)
    (Hmax : page_up (p_size (pdata p) - count + more) ≤ TRAPFRAME) :
  let n := p_size (pdata p) in let n' := n - count in let p' := resized p n' in
  grow_proc (- count) p s = Done (Ok tt, p', s) ∧
  let r := grow_proc more p' s in
  if n' + more <=? page_up n' then r = Done (Ok tt, resized p (n' + more), s)
  else if page_up n' <? page_up n then r = Panic alloc_error ∨ r = Panic "remap"
  else r = Panic alloc_error ∨ ∃ s', r = Done (Ok tt, resized p (n' + more), s') ∧ grown_space h0 root (page_up n) (page_up (n' + more)) s s'.
Proof using BFlL PSL.
  intros n n' p'. split; [by apply shrink_ok|]. assert (TRAPFRAME < 2 ^ 38 ∧ MAXVA = 2 ^ 38) as [Htf Emax] by by vm_compute.
  pose proof (le_page_up (n' + more)) as Hup. pose proof (le_page_up n') as Hup'. destruct Hp as [Z1 Z2 Z3 Z4]. fold n in Z2, Z3, Z4, Hcount, Hmax. fold n' in Hmax.
  assert (0 ≤ n') as H0 by (unfold n'; lia). destruct (sp_size _ _ _ _ Z3) as [_ Hsz]. pose proof (page_up_mod n') as M1.
  cbv zeta. rewrite (grow_eq p' s more) by (done || (change (p_size (pdata p')) with n'; lia)).
  change (p_size (pdata p')) with n'. assert (∀ k, resized p' k = resized p k) as Hres by (intros k; by destruct p as [? []]).
  destruct (Z.leb_spec (n' + more) (page_up n')) as [Hin|Hout].
  - assert (uvm_alloc root n' (n' + more) s = Done (Some (n' + more), s)) as ->; [|by rewrite bind_Done_l, Hres].
    unfold uvm_alloc. rewrite (proj2 (Z.ltb_ge _ _)), page_round_up_ok, bind_Done_l by (unfold PGSIZE, n' in *; lia). fold (page_up n').
    unfold for_range_until. rewrite seqZ_nil; [done|]. rewrite Z.sub_0_r. apply Z.lt_succ_r, Z.div_lt_upper_bound; unfold PGSIZE; lia.
  - destruct (Z.ltb_spec (page_up n') (page_up n)) as [Hlt|Hge].
    + destruct (uvm_alloc_remap s n' (n' + more)) as [-> | ->]; [apply Z3|apply Z3|done|done|lia| |by left|by right].
      destruct (sp_page _ _ _ _ Z3 (page_up n')) as (q & Hq & _); [lia|done|]. intros E. unfold user_page in Hq. by rewrite E in Hq.
    + assert (page_up n' = page_up n) as E by (pose proof (page_up_mono n' n ltac:(unfold n'; lia)); lia). rewrite <- E in Z3 |- *.
      destruct (uvm_alloc_ok h0 root n' (n' + more) s) as [->|(s' & -> & Hg)]; [lia|done|done|by left|right].
      exists s'. rewrite bind_Done_l, Hres. done.
Qed.
End Sbrk.

(** ** A process with two pages *)

Definition demo_sbrk_tables : outcome (ProcData * pstate Z) :=
  proc_pagetable (BFl := bit_flags_std) 0x1000 (set_trapframe 0x5000 new_pdata) (mkP (λ _, 0) 0x8000).
Definition demo_sbrk_grown : outcome (option Z * pstate Z) :=
  match demo_sbrk_tables with
  | Done (_, s) => uvm_alloc (BFl := bit_flags_std) 0x8000 0 0x2000 s
  | _ => Panic "no table"
  end.
Definition demo_sbrk_state : pstate Z := match demo_sbrk_grown with Done (_, s) => s | _ => mkP (λ _, 0) 0 end.
Definition demo_sbrk_proc : Process := mkProc (mkPMeta RUNNING 0 false 0 1) (set_psize 0x2000 (set_pagetable (Some 0x8000) new_pdata)).

Lemma demo_sbrk_sized : sized 0x8000 0x8000 demo_sbrk_proc demo_sbrk_state.
Proof.
  assert (match demo_sbrk_tables with Done (x, _) => bool_decide (p_pagetable x = Some 0x8000) | _ => false end = true) as Ht by by vm_compute.
  assert (match demo_sbrk_grown with Done _ => true | _ => false end = true) as Hg by by vm_compute.
  unfold demo_sbrk_state, demo_sbrk_grown, demo_sbrk_tables in *.
  destruct (proc_pagetable_ok (BFl := bit_flags_std) (BFlL := bit_flags_std_laws) 0x1000 (set_trapframe 0x5000 new_pdata) (mkP (λ _, 0) 0x8000))
    as [E|(pt & s & E & Hi & Htree & [Hk _] & Hf & Hm)]; [clear; by vm_compute..|rewrite E in Ht; discriminate Ht|]. rewrite E in Ht, Hg |- *.
  apply bool_decide_eq_true in Ht. injection Ht as ->.
  pose proof (space_empty 0x8000 0x8000 0x1000 0x5000 s Hi Htree Hk Hf Hm) as H0.
  destruct (uvm_alloc_ok (BFl := bit_flags_std) (BFlL := bit_flags_std_laws) 0x8000 0x8000 0 0x2000 s) as [E2|(s' & E2 & Hgr)]; [lia|clear; by vm_compute|exact H0|..].
  { rewrite E2 in Hg. discriminate Hg. }
  rewrite E2. split; [reflexivity|clear; by vm_compute|apply Hgr|]. intros v pte Hv Hpte. pose proof (gs_flags _ _ _ _ _ _ Hgr v) as Hfl. rewrite Hpte in Hfl.
  change (page_up 0) with 0 in Hfl. change (page_up (p_size (pdata demo_sbrk_proc))) with (page_up 0x2000) in Hv. specialize (Hfl Hv). injection Hfl as ->. clear. by vm_compute.
Qed.

Lemma demo_sbrk_remap :
  match grow_proc (BFl := bit_flags_std) 1 (resized demo_sbrk_proc (p_size (pdata demo_sbrk_proc) - 0x1000)) demo_sbrk_state with
  | Panic e => bool_decide (e = "remap"%string)
  | _ => false
  end = true.
Proof. by vm_compute. Qed.

(** A page is given back and asked for again: the kernel panics. *)
Lemma shrink_grow_witness :
  grow_proc (BFl := bit_flags_std) (- 0x1000) demo_sbrk_proc demo_sbrk_state =
    Done (Ok tt, resized demo_sbrk_proc (p_size (pdata demo_sbrk_proc) - 0x1000), demo_sbrk_state) ∧
  grow_proc (BFl := bit_flags_std) 1 (resized demo_sbrk_proc (p_size (pdata demo_sbrk_proc) - 0x1000)) demo_sbrk_state = Panic "remap".
Proof.
  destruct (shrink_grow (BFl := bit_flags_std) (BFlL := bit_flags_std_laws) 0x8000 0x8000 demo_sbrk_proc demo_sbrk_state 0x1000 1 demo_sbrk_sized
    ltac:(clear; by vm_compute) ltac:(lia) ltac:(clear; by vm_compute)) as [H1 H2]. split; [exact H1|]. cbv zeta in H2.
  assert ((p_size (pdata demo_sbrk_proc) - 0x1000 + 1 <=? page_up (p_size (pdata demo_sbrk_proc) - 0x1000)) = false) as E1 by (clear; by vm_compute).
  assert ((page_up (p_size (pdata demo_sbrk_proc) - 0x1000) <? page_up (p_size (pdata demo_sbrk_proc))) = true) as E2 by (clear; by vm_compute).
  rewrite E1, E2 in H2. destruct H2 as [H2|H2]; [exfalso|exact H2].
  pose proof demo_sbrk_remap as Hc. rewrite H2 in Hc. discriminate Hc.
Defined.
