(* ===== verification/ExecLoad.v ===== *)
(** * Loading a program

    The first half of [exec]: one segment, and the loop over the program headers. *)

From Stdlib Require Import ZArith Lia FunctionalExtensionality.
From stdpp Require Import base gmap strings numbers list.
From S2P Require Import Prelude Address Pte PhysMem PageTable PageTableSpec UserCopy PageTableTheorems UvmCopy Bytes Bio BioSpec BioCache.
From S2P Require Import BioClient DiskLayout Log LogSpec Bitmap Inode InodeSpec Path File Cpu Proc Kernel ForkMemory ExecMemory Exec.

Local Open Scope Z_scope.

(** * Loading a segment

    [load_seg] reads the bytes of a file into the pages of the new program. *)

(** ** Physical memory as the destination of a copy *)

Global Instance phys_destination kbuf : @Destination mem (user_copier None kbuf) false := {|
  dst_ok _ _ _ := True;
  dst_put dst bs m := store_bytes m dst bs;
|}.

Lemma store_bytes_app m dst xs ys : store_bytes (store_bytes m dst xs) (dst + Z.of_nat (length xs)) ys = store_bytes m dst (xs ++ ys).
Proof.
  apply functional_extensionality. intros x. unfold store_bytes. rewrite length_app, Nat2Z.inj_add, Z.add_assoc.
  destruct (Z.leb_spec (dst + Z.of_nat (length xs)) x), (Z.leb_spec dst x); try lia; cbn [andb].
  - rewrite (proj2 (Z.ltb_ge x (dst + Z.of_nat (length xs)))) by lia. destruct (x <? _); [|done].
    rewrite app_nth2 by lia. f_equal. lia.
  - rewrite !(proj2 (Z.ltb_lt x _)) by lia. by rewrite app_nth1 by lia.
  - done.
Qed.

Global Instance phys_destination_laws kbuf : @DestinationLaws mem (user_copier None kbuf) false (phys_destination kbuf).
Proof.
  split; cbn; [done|done|..].
  - intros dst bs bs' m _. apply store_bytes_app.
  - intros dst m _. apply functional_extensionality. intros x. unfold store_bytes. cbn [length]. rewrite Z.add_0_r.
    destruct (Z.leb_spec dst x), (Z.ltb_spec x dst); (done || lia).
Qed.

Section Load.
Context {D : Type} {BD : BlockDevice D} {BDL : BlockDeviceLaws D} {BF : BitField} (dev : Z).
Context {BFl : BitFlags} {BFlL : BitFlagsLaws} {H : Type} {PS : PageSource H} {PSL : PageSourceLaws H}.
Context (h0 : H) (root kbuf : Z).

(** The pages of a program are found by [pgt_translate]. *)
Lemma space_translate n s v : space h0 root n s → 0 ≤ v < n → v mod PGSIZE = 0 →
  ∃ q, user_page root (pmem s) v q ∧ page_ok q ∧ pgt_translate root v (pmem s) = Some q.
Proof using.
  intros Hs Hv Hva. destruct (sp_page _ _ _ _ Hs v Hv Hva) as (q & Hq & Hqo & _). exists q. split; [done|]. split; [done|].
  destruct (sp_size _ _ _ _ Hs) as [_ Hn]. assert (TRAPFRAME ≤ MAXVA) by by vm_compute.
  by rewrite pgt_translate_mapping by lia.
Qed.

(** The file that is loaded from. *)
Record source_ok (g : InodeData) (c : Z → block) (f : Z → Z) (off size : Z) : Prop := {
  so_dev : id_dev g = dev;
  so_size : 0 ≤ off ∧ 0 ≤ size ∧ off + size ≤ di_size (id_dinode g);
  so_size32 : di_size (id_dinode g) < 2 ^ 32;
  so_map : mapped_range c (id_dinode g) f off size;
}.

(** A part of the range. *)
Lemma mapped_sub c di f off n o k : 0 ≤ off → 0 ≤ o → 0 < k → o + k ≤ n → mapped_range c di f off n → mapped_range c di f (off + o) k.
Proof using.
  intros H0 Ho Hk Hle Hm b Hb. apply Hm. unfold BSIZE in *. split.
  - etrans; [|apply Hb]. apply Z.div_le_mono; lia.
  - etrans; [apply Hb|]. apply Z.div_le_mono; lia.
Qed.

(** The round of [load_seg]. *)
Definition load_round (offset size : Z) (st : Z * Z * InodeData * dstate D * mem) :
    outcome (result unit * InodeData * dstate D * mem + (Z * Z * InodeData * dstate D * mem)) :=
  let '(copy_size, va, g, d, m) := st in
  if copy_size <? size then
    match pgt_translate root va m with
    | None => Panic "load_seg(): address should exist."
    | Some pa =>
        n ← usub size copy_size;
        let count := if n <? PGSIZE then n else PGSIZE in
        off ← uadd offset copy_size;
        '(r, g, d, m) ← inode_read (CP := user_copier None kbuf) g false pa (off mod 2 ^ 32) (count mod 2 ^ 32) d m;
        match r with
        | Err _ => Done (inl (Err "load_seg: Fail to read inode", g, d, m))
        | Ok _ =>
            copy_size ← uadd copy_size PGSIZE;
            va ← add_page va;
            Done (inr (copy_size, va, g, d, m))
        end
    end
  else Done (inl (Ok tt, g, d, m)).

Lemma nth_file_bytes c f off n i : 0 ≤ i < n → nth (Z.to_nat i) (file_bytes c f off n) 0 = file_byte c f (off + i).
Proof using.
  intros Hi. apply nth_lookup_Some. unfold file_bytes. rewrite list_lookup_fmap, lookup_seqZ_lt by lia. cbn. do 2 f_equal. lia.
Qed.

Lemma load_round_ok n va g off size (d : dstate D) s c L f t m1 b :
  space h0 root n s → va mod PGSIZE = 0 → 0 ≤ va → va + size ≤ n → source_ok g c f off size → (length L < NBUF)%nat →
  0 ≤ t < size → t mod PGSIZE = 0 → filled h0 root n va t (λ i, file_byte c f (off + i)) s m1 → quiet dev b c L →
  ∃ m2 b', load_round off size (t, va + t, g, with_b d b, m1) = Done (inr (t + PGSIZE, va + t + PGSIZE, g, with_b d b', m2)) ∧
    disk b' = disk b ∧ quiet dev b' c L ∧ filled h0 root n va (Z.min size (t + PGSIZE)) (λ i, file_byte c f (off + i)) s m2.
Proof using BDL.
  intros Hs Hva H0 Hn [S1 (S2 & S3 & S4) S5 S6] HL Ht Hta Hf Hq. destruct (sp_size _ _ _ _ Hs) as [Hna Hnm]. assert (TRAPFRAME < 2 ^ 39) as Htf by by vm_compute.
  assert ((va + t) mod PGSIZE = 0) as Hal by (unfold PGSIZE in *; divlia).
  destruct (space_translate n (with_mem s m1) (va + t) (fl_space _ _ _ _ _ _ _ _ Hf)) as (q & Hq1 & Hqo & Htr); [lia|done|]. cbn [pmem with_mem] in Htr.
  set (k := Z.min (size - t) PGSIZE). assert (0 < k ≤ PGSIZE ∧ t + k ≤ size ∧ Z.min size (t + PGSIZE) = t + k) as (Hk & Htk & Hmin) by (unfold k, PGSIZE; lia).
  destruct (inode_read_ok dev (CP := user_copier None kbuf) false g q (off + t) k (with_b d b) m1 c L f) as (b' & Hread & Hd' & Hq');
    [done|done|done|lia|lia|lia|lia|unfold page_ok in *; lia|unfold page_ok, PGSIZE in *; lia|done|by apply (mapped_sub c _ f off size); [..|done]; lia|].
  exists (store_bytes m1 q (file_bytes c f (off + t) k)), b'. split; [|split; [done|split; [done|]]].
  - unfold load_round. rewrite (proj2 (Z.ltb_lt t size)), Htr by lia. rewrite (usub_ok size t), bind_Done_l by lia. cbv zeta.
    replace (if size - t <? PGSIZE then size - t else PGSIZE) with k by (unfold k; destruct (Z.ltb_spec (size - t) PGSIZE); lia).
    rewrite (uadd_ok off t), bind_Done_l by lia. rewrite (Z.mod_small (off + t)), (Z.mod_small k) by (unfold PGSIZE in *; lia).
    rewrite Hread, bind_Done_l. rewrite (uadd_ok t PGSIZE), bind_Done_l by (unfold PGSIZE in *; lia). unfold add_page.
    rewrite uadd_ok, bind_Done_l by (unfold PGSIZE in *; lia). done.
  - rewrite Hmin. pose proof (store_filled h0 root n (with_mem s m1) (va + t) q 0 (file_bytes c f (off + t) k) (fl_space _ _ _ _ _ _ _ _ Hf)) as Hst.
    cbn [pmem with_mem] in Hst. rewrite length_file_bytes, Z2Nat.id, !Z.add_0_r in Hst by lia.
    eapply (filled_app h0 root n va t k); [exact Hf|apply Hst; (done || lia)|lia|lia|lia|lia|done|].
    intros i Hi. cbv beta. rewrite nth_file_bytes by lia. f_equal. lia.
Qed.

Lemma load_seg_ok n va g off size (d : dstate D) s c L f :
  space h0 root n s → va mod PGSIZE = 0 → 0 ≤ va → va + size ≤ n → source_ok g c f off size → (length L < NBUF)%nat → quiet dev (d_b d) c L →
  ∃ m' b, load_seg kbuf root va g off size d (pmem s) = Done (Ok tt, g, with_b d b, m') ∧ disk b = disk (d_b d) ∧ quiet dev b c L ∧
    filled h0 root n va size (λ i, file_byte c f (off + i)) s m'.
Proof using BDL.
  intros Hs Hva H0 Hn Hso HL Hq. pose proof (so_size _ _ _ _ _ Hso) as (S2 & S3 & S4). unfold load_seg.
  assert (is_page_aligned va = true) as -> by (unfold is_page_aligned; by rewrite Hva). cbn [negb].
  pose (I := λ st : Z * Z * InodeData * dstate D * mem, ∃ t m b, st = (t, va + t, g, with_b d b, m) ∧ 0 ≤ t ∧ t mod PGSIZE = 0 ∧
    disk b = disk (d_b d) ∧ quiet dev b c L ∧ filled h0 root n va (Z.min size t) (λ i, file_byte c f (off + i)) s m).
  pose (Q := λ r : result unit * InodeData * dstate D * mem, ∃ m' b, r = (Ok tt, g, with_b d b, m') ∧ disk b = disk (d_b d) ∧ quiet dev b c L ∧
    filled h0 root n va size (λ i, file_byte c f (off + i)) s m').
  destruct (while_fuel_inv I (λ '(t, _, _, _, _), if t <? size then 1 + (size - 1 - t) / PGSIZE else 0) Q (load_round off size))
    with (fuel := S (S (Z.to_nat (size / PGSIZE)))) (s := (0, va, g, d, pmem s)) as (r & Hr & m' & b & -> & Hrest).
  - intros st (t & m & b & -> & Ht & Hta & Hd & Hqb & Hf). destruct (Z.ltb_spec t size) as [Hlt|Hge].
    + right. rewrite Z.min_r in Hf by lia.
      destruct (load_round_ok n va g off size d s c L f t m b) as (m2 & b' & E & Hd' & Hq' & Hf'); try done.
      eexists. split; [exact E|]. split.
      * exists (t + PGSIZE), m2, b'. unfold PGSIZE in *. split; [f_equal; f_equal; f_equal; f_equal; lia|]. split; [lia|]. split; [divlia|]. split; [congruence|done].
      * unfold PGSIZE in *. destruct (Z.ltb_spec (t + 4096) size); divlia.
    + left. rewrite Z.min_l in Hf by lia. unfold load_round. rewrite (proj2 (Z.ltb_ge _ _)) by lia. eexists. split; [done|]. by exists m, b.
  - exists 0, (pmem s), (d_b d). rewrite Z.add_0_r, Z.min_r by lia. split; [by destruct d|]. split; [lia|]. split; [done|]. split; [done|]. split; [done|].
    by apply filled_nil.
  - unfold PGSIZE. destruct (Z.ltb_spec 0 size); divlia.
  - unfold PGSIZE. destruct (Z.ltb_spec 0 size); divlia.
  - exists m', b. split; [exact Hr|done].
Qed.
End Load.

(** * Loading the segments of a program

    The loop of [exec] over the program headers.  A header that is not loadable
    is read again in every later round, since the offset only advances behind a
    loadable one: the segments loaded are those before it. *)

#[local] Opaque map uvm_alloc load_seg.

(** ** The program in the file *)

(** The segments of the program: its loadable headers. *)
Definition segments (phs : list ProgHeader) : list ProgHeader := filter (λ h, ph_type h = ELF_PROG_LOAD) phs.

(** The segments that the loop gets to: those before the first header that is
    not loadable. *)
Fixpoint segments_read (phs : list ProgHeader) : list ProgHeader :=
  match phs with
  | h :: r => if ph_type h =? ELF_PROG_LOAD then h :: segments_read r else []
  | [] => []
  end.

(** No loadable header behind one that is not loadable. *)
Definition loadable_first (phs : list ProgHeader) : Prop :=
  ∃ ls rest, phs = ls ++ rest ∧ Forall (λ h, ph_type h = ELF_PROG_LOAD) ls ∧ Forall (λ h, ph_type h ≠ ELF_PROG_LOAD) rest.

Definition prog_size (ls : list ProgHeader) : Z := foldl (λ n h, Z.max n (ph_vaddr h + ph_mem_size h)) 0 ls.

(** The byte at an address: of the last segment with file contents there. *)
Definition seg_byte (c : Z → block) (f : Z → Z) (a : Z) (old : Z) (h : ProgHeader) : Z :=
  if decide (ph_vaddr h ≤ a < ph_vaddr h + ph_file_size h) then file_byte c f (ph_off h + (a - ph_vaddr h)) mod 256 else old.
Definition prog_byte (c : Z → block) (f : Z → Z) (ls : list ProgHeader) (a : Z) : Z := foldl (seg_byte c f a) 0 ls.

(** A segment inside of its file and of the user's address space, with room for
    the stack behind it. *)
Record segment_ok (size : Z) (h : ProgHeader) : Prop := {
  sg_addr : 0 ≤ ph_vaddr h ∧ ph_vaddr h mod PGSIZE = 0;
  sg_file : 0 ≤ ph_off h ∧ 0 ≤ ph_file_size h ≤ ph_mem_size h ∧ ph_off h + ph_file_size h ≤ size;
  sg_top : page_up (ph_vaddr h + ph_mem_size h) + 2 * PGSIZE ≤ TRAPFRAME;
}.

Lemma segments_read_app ls rest : Forall (λ h, ph_type h = ELF_PROG_LOAD) ls → segments_read (ls ++ rest) = ls ++ segments_read rest.
Proof. induction 1 as [|h ls Hh Hls IH]; cbn [app segments_read]; [done|]. by rewrite Hh, Z.eqb_refl, IH. Qed.

Lemma segments_app ls rest : segments (ls ++ rest) = segments ls ++ segments rest.
Proof. apply filter_app. Qed.

Lemma segments_all ls : Forall (λ h, ph_type h = ELF_PROG_LOAD) ls → segments ls = ls.
Proof. unfold segments. induction 1 as [|h ls Hh Hls IH]; [done|]. by rewrite filter_cons_True, IH. Qed.

Lemma segments_none ls : Forall (λ h, ph_type h ≠ ELF_PROG_LOAD) ls → segments ls = [] ∧ segments_read ls = [].
Proof.
  unfold segments. induction 1 as [|h ls Hh Hls [IH _]]; [done|]. rewrite filter_cons_False by done. split; [done|]. cbn.
  by rewrite (proj2 (Z.eqb_neq _ _)) by done.
Qed.

(** Then the loop gets to all of them. *)
Lemma segments_read_all phs : loadable_first phs → segments_read phs = segments phs.
Proof.
  intros (ls & rest & -> & Hls & Hrest). destruct (segments_none rest Hrest) as [E1 E2].
  by rewrite segments_read_app, segments_app, segments_all, E1, E2 by done.
Qed.

Lemma segments_read_prefix phs : segments_read phs `prefix_of` segments phs.
Proof.
  unfold segments. induction phs as [|h phs IH]; [done|]. cbn [segments_read]. destruct (Z.eqb_spec (ph_type h) ELF_PROG_LOAD) as [E|E].
  - rewrite filter_cons_True by done. by apply prefix_cons.
  - apply prefix_nil.
Qed.

Lemma segments_read_snoc phs h : segments_read (phs ++ [h]) =
  if bool_decide (length (segments_read phs) = length phs) && (ph_type h =? ELF_PROG_LOAD) then segments_read phs ++ [h] else segments_read phs.
Proof.
  induction phs as [|x phs IH]; cbn [app segments_read].
  - cbn. by destruct (ph_type h =? ELF_PROG_LOAD).
  - destruct (ph_type x =? ELF_PROG_LOAD); cbn [length app]; [|done]. rewrite IH.
    destruct (decide (length (segments_read phs) = length phs)) as [E|E].
    + rewrite !bool_decide_eq_true_2 by congruence. by destruct (ph_type h =? ELF_PROG_LOAD).
    + rewrite !bool_decide_eq_false_2 by lia. done.
Qed.

Lemma segments_read_stuck phs : ∀ j h, phs !! j = Some h → (ph_type h =? ELF_PROG_LOAD) = false → length (segments_read (take j phs)) = j →
  segments_read (take j phs) = segments_read phs.
Proof.
  induction phs as [|x phs IH]; intros j h Hj Et Hl; [done|]. destruct j as [|j]; cbn [take segments_read] in *.
  - injection Hj as ->. by rewrite Et.
  - destruct (ph_type x =? ELF_PROG_LOAD); [|done]. f_equal. apply (IH j h); [done|done|]. cbn in Hl. lia.
Qed.

Lemma segments_read_take n phs : segments_read (take n phs) `prefix_of` segments_read phs.
Proof.
  revert n. induction phs as [|x phs IH]; intros n; [by rewrite take_nil|]. destruct n as [|n]; [apply prefix_nil|]. cbn [take segments_read].
  destruct (ph_type x =? ELF_PROG_LOAD); [|done]. apply prefix_cons, IH.
Qed.

Lemma Forall_prefix {A} (P : A → Prop) l k : l `prefix_of` k → Forall P k → Forall P l.
Proof. intros [r ->] Hk. by apply Forall_app in Hk as [? _]. Qed.

Lemma segments_read_ok size phs : Forall (segment_ok size) (segments phs) → Forall (segment_ok size) (segments_read phs).
Proof. apply Forall_prefix, segments_read_prefix. Qed.

Lemma prog_size_snoc ls h : prog_size (ls ++ [h]) = Z.max (prog_size ls) (ph_vaddr h + ph_mem_size h).
Proof. unfold prog_size. by rewrite foldl_app. Qed.

Lemma prog_byte_snoc c f ls h a : prog_byte c f (ls ++ [h]) a = seg_byte c f a (prog_byte c f ls a) h.
Proof. unfold prog_byte. by rewrite foldl_app. Qed.

Lemma prog_size_bounds size ls : Forall (segment_ok size) ls → 0 ≤ prog_size ls ∧ page_up (prog_size ls) + 2 * PGSIZE ≤ TRAPFRAME.
Proof.
  induction ls as [|h ls IH] using rev_ind; intros Hok; [by vm_compute|]. apply Forall_app in Hok as [Hok Hh]. rewrite Forall_singleton in Hh.
  destruct (IH Hok) as [H1 H2]. destruct Hh as [_ _ Ht]. rewrite prog_size_snoc. split; [lia|].
  destruct (Z.max_spec (prog_size ls) (ph_vaddr h + ph_mem_size h)) as [[_ ->]|[_ ->]]; done.
Qed.

(** Nothing but zeros behind the segments. *)
Lemma prog_byte_top c f size ls a : Forall (segment_ok size) ls → prog_size ls ≤ a → prog_byte c f ls a = 0.
Proof.
  induction ls as [|h ls IH] using rev_ind; intros Hok Ha; [done|]. apply Forall_app in Hok as [Hok Hh]. rewrite Forall_singleton in Hh.
  destruct Hh as [_ Hf _]. rewrite prog_size_snoc in Ha. rewrite prog_byte_snoc. unfold seg_byte. rewrite decide_False by lia. apply IH; [done|lia].
Qed.

Section Segments.
Context {D : Type} {BD : BlockDevice D} {BDL : BlockDeviceLaws D} {BF : BitField} (dev : Z).
Context {BFl : BitFlags} {BFlL : BitFlagsLaws} {H : Type} {PS : PageSource H} {PSL : PageSourceLaws H}.
Context (h0 : H) (root : Z).

(** The memory with the segments [ls] in it. *)
Record loaded (c : Z → block) (f : Z → Z) (s0 : pstate H) (ls : list ProgHeader) (s : pstate H) : Prop := {
  ld_space : space h0 root (page_up (prog_size ls)) s;
  ld_keeps : keeps h0 s0 s;
  ld_bytes a : 0 ≤ a < page_up (prog_size ls) → user_byte (pmem s) root a = Some (prog_byte c f ls a);
  ld_flags v : 0 ≤ v < page_up (prog_size ls) → as_flags <$> mapping (pmem s) root v = Some (Z.lor USER_FLAGS PTE_V);
  ld_rest v : TRAPFRAME ≤ v < 2 ^ 39 → mapping (pmem s) root v = mapping (pmem s0) root v;
}.

(** Room for the next segment, and its bytes. *)
Lemma loaded_snoc c f s0 ls h size s s1 m2 :
  loaded c f s0 ls s → Forall (segment_ok size) ls → segment_ok size h →
  grown_space h0 root (page_up (prog_size ls)) (page_up (prog_size (ls ++ [h]))) s s1 →
  filled h0 root (page_up (prog_size (ls ++ [h]))) (ph_vaddr h) (ph_file_size h) (λ i, file_byte c f (ph_off h + i)) s1 m2 →
  loaded c f s0 (ls ++ [h]) (with_mem s1 m2).
Proof using.
  intros [L1 L2 L3 L4 L5] Hls [Ha Hf _] [G1 G2 G3 G4 G5 G6] [F1 F2 F3 F4 F5]. destruct (prog_size_bounds size ls Hls) as [Hp0 Hp1].
  destruct (sp_size _ _ _ _ F1) as [_ Hn]. assert (TRAPFRAME < 2 ^ 39) as Htf by by vm_compute. pose proof (le_page_up (prog_size ls)) as Hup.
  assert (page_up (prog_size ls) ≤ page_up (prog_size (ls ++ [h]))) as Hle.
  { rewrite prog_size_snoc. unfold page_up, page_of. apply Z.mul_le_mono_nonneg_r; [done|]. apply Z.div_le_mono; [done|]. lia. }
  split; cbn [pmem with_mem]; [exact F1| | | |].
  - apply (keeps_trans _ _ s1); [by apply (keeps_trans _ _ s)|done].
  - intros a Hab. rewrite prog_byte_snoc. unfold seg_byte. case_decide as Hd; [by rewrite F3 by done|].
    rewrite F4 by done. destruct (decide (a < page_up (prog_size ls))); [rewrite G3, L3 by lia; done|].
    rewrite G4 by lia. by rewrite (prog_byte_top c f size) by (done || lia).
  - intros v Hv. rewrite F5. destruct (decide (v < page_up (prog_size ls))); [rewrite G5, L4 by lia; done|apply G6; lia].
  - intros v Hv. rewrite F5, G5 by lia. by apply L5.
Qed.

(** ** The rounds of the loop *)

Context {PF : PageFree H} (kbuf log_chan : Z).
Abbreviation kernel := (@kernel D H).

(** The kernel with other buffers and other memory. *)
Definition at_state (k : kernel) (b : bstate D) (s : pstate H) : kernel := with_ps (with_ifs k (k_ic k) (with_b (k_d k) b)) s.

(** An executable: the header and the program headers in the file [g], whose
    blocks are all there. *)
Record executable (g : InodeData) (c : Z → block) (f : Z → Z) (elf : ElfHeader) (phs : list ProgHeader) : Prop := {
  ex_file : id_dev g = dev ∧ 0 ≤ di_size (id_dinode g) < 2 ^ 32;
  ex_blocks off n : 0 ≤ off → 0 ≤ n → off + n ≤ di_size (id_dinode g) → mapped_range c (id_dinode g) f off n;
  ex_header : decode_elf (file_bytes c f 0 ELF_HEADER_SIZE) = elf ∧ ELF_HEADER_SIZE ≤ di_size (id_dinode g) ∧ e_magic elf = ELF_MAGIC;
  ex_phnum : e_phnum elf = Z.of_nat (length phs);
  ex_phs (i : nat) h : phs !! i = Some h → decode_ph (file_bytes c f (e_phoff elf + PROG_HEADER_SIZE * Z.of_nat i) PROG_HEADER_SIZE) = h;
  ex_phoff : 0 ≤ e_phoff elf ∧ e_phoff elf + PROG_HEADER_SIZE * Z.of_nat (length phs) ≤ di_size (id_dinode g);
  ex_segments : Forall (segment_ok (di_size (id_dinode g))) (segments phs);
}.

Context (g : InodeData) (c : Z → block) (f : Z → Z) (elf : ElfHeader) (phs : list ProgHeader) (Hex : executable g c f elf phs).
Context (L : list Z) (HL : (length L < NBUF)%nat).

(** Reading a structure of the file. *)
Lemma read_struct_ok off len old (d : dstate D) :
  0 ≤ off → 0 ≤ len → off + len ≤ di_size (id_dinode g) → Z.of_nat (length old) = len → quiet dev (d_b d) c L →
  ∃ b, read_struct g off len old d = Done (Ok len, g, with_b d b, file_bytes c f off len) ∧ disk b = disk (d_b d) ∧ quiet dev b c L.
Proof using BDL Hex HL.
  intros Ho Hl Hle Hold Hq. destruct (ex_file _ _ _ _ _ Hex) as [Hdev Hsz]. unfold read_struct. rewrite Z.mod_small by lia.
  destruct (inode_read_ok dev (M := list Z) false g 0 off len d old c L f) as (b & E & Hd & Hq'); try done; try lia.
  - cbn. lia.
  - by apply (ex_blocks _ _ _ _ _ Hex).
  - exists b. split; [|done]. rewrite E. do 2 f_equal. cbn [dst_put local_destination]. unfold put_bytes. cbn [take app Z.to_nat].
    rewrite length_file_bytes, drop_ge by lia. by rewrite take_0, app_nil_r.
Qed.

Lemma segment_source h : segment_ok (di_size (id_dinode g)) h → source_ok dev g c f (ph_off h) (ph_file_size h).
Proof using Hex.
  clear HL. intros [_ Hf _]. destruct (ex_file _ _ _ _ _ Hex) as [Hdev Hsz]. split; [done|lia|lia|]. apply (ex_blocks _ _ _ _ _ Hex); lia.
Qed.

(** The parts of a round put together. *)
Lemma exec_segment_eq inode size off ph ph' h k b b1 s :
  read_struct g off PROG_HEADER_SIZE ph (with_b (k_d k) b) = Done (Ok PROG_HEADER_SIZE, g, with_b (with_b (k_d k) b) b1, ph') → decode_ph ph' = h →
  ((ph_type h =? ELF_PROG_LOAD) = false →
     exec_segment kbuf log_chan root inode (size, off, ph, g, at_state k b s) = Done (inr (size, off, ph', g, at_state k b1 s))) ∧
  ((ph_type h =? ELF_PROG_LOAD) = true → segment_ok (di_size (id_dinode g)) h → 0 ≤ off → off + PROG_HEADER_SIZE < 2 ^ 64 →
     ∀ o, uvm_alloc root size (ph_vaddr h + ph_mem_size h) s = o →
     (∀ e, o = Panic e → exec_segment kbuf log_chan root inode (size, off, ph, g, at_state k b s) = Panic e) ∧
     ∀ size' s1 m2 b2, o = Done (Some size', s1) →
       load_seg kbuf root (ph_vaddr h) g (ph_off h) (ph_file_size h) (with_b (k_d k) b1) (pmem s1) = Done (Ok tt, g, with_b (with_b (k_d k) b1) b2, m2) →
       exec_segment kbuf log_chan root inode (size, off, ph, g, at_state k b s) =
         Done (inr (size', off + PROG_HEADER_SIZE, ph', g, at_state k b2 (with_mem s1 m2)))).
Proof using.
  clear HL. intros Hread Hdec. unfold exec_segment. change (k_d (at_state k b s)) with (with_b (k_d k) b). rewrite Hread, bind_Done_l, Hdec. cbv zeta. split.
  - intros ->. done.
  - intros -> [[Ha1 Ha2] Hf Ht] Ho Ho2 o Halloc. cbn [negb]. assert (TRAPFRAME < 2 ^ 39) as Htf by by vm_compute.
    pose proof (le_page_up (ph_vaddr h + ph_mem_size h)) as Hup. unfold PGSIZE in Ht. rewrite (proj2 (Z.ltb_ge (ph_mem_size h) _)) by lia.
    rewrite !(uadd_ok (ph_vaddr h)) by lia. rewrite !bind_Done_l. rewrite (proj2 (Z.ltb_ge (ph_vaddr h + ph_mem_size h) _)) by lia.
    change (k_ps _) with s. rewrite Halloc. split; [by intros e ->|].
    intros size' s1 m2 b2 -> Hload. rewrite bind_Done_l, Ha2. cbn [negb Z.eqb].
    change (load_seg kbuf root (ph_vaddr h) g (ph_off h) (ph_file_size h) _ _) with
      (load_seg kbuf root (ph_vaddr h) g (ph_off h) (ph_file_size h) (with_b (k_d k) b1) (pmem s1)). rewrite Hload, bind_Done_l.
    rewrite uadd_ok, bind_Done_l by (unfold PROG_HEADER_SIZE in *; lia). done.
Qed.

(** One round reads header [j], and loads its segment if it is loadable. *)
Lemma exec_round inode s0 j h ph k b s :
  phs !! j = Some h → length (segments_read (take j phs)) = j → Z.of_nat (length ph) = PROG_HEADER_SIZE → quiet dev b c L → loaded c f s0 (segments_read (take j phs)) s →
  let st := (prog_size (segments_read (take j phs)), e_phoff elf + PROG_HEADER_SIZE * Z.of_nat j, ph, g, at_state k b s) in
  exec_segment kbuf log_chan root inode st = Panic alloc_error ∨
  ∃ ph' b' s', let j' := if ph_type h =? ELF_PROG_LOAD then S j else j in let ls := segments_read (take j' phs) in
    exec_segment kbuf log_chan root inode st =
      Done (inr (prog_size ls, e_phoff elf + PROG_HEADER_SIZE * Z.of_nat j', ph', g, at_state k b' s')) ∧
    length ls = j' ∧ Z.of_nat (length ph') = PROG_HEADER_SIZE ∧ disk b' = disk b ∧ quiet dev b' c L ∧ loaded c f s0 ls s'.
Proof using BDL BFlL Hex HL.
  intros Hj Hlen Hph Hq Hld st. pose proof (lookup_lt_Some _ _ _ Hj) as Hlt. destruct (ex_phoff _ _ _ _ _ Hex) as [Hp0 Hp1].
  destruct (ex_file _ _ _ _ _ Hex) as [Hdev Hsz]. set (off := e_phoff elf + PROG_HEADER_SIZE * Z.of_nat j) in *.
  assert (0 ≤ off ∧ off + PROG_HEADER_SIZE ≤ di_size (id_dinode g)) as [Ho1 Ho2] by (unfold off, PROG_HEADER_SIZE in *; lia).
  destruct (read_struct_ok off PROG_HEADER_SIZE ph (with_b (k_d k) b)) as (b1 & Hread & Hd1 & Hq1); [done|done|done|done|done|].
  destruct (exec_segment_eq inode (prog_size (segments_read (take j phs))) off ph _ h k b b1 s Hread (ex_phs _ _ _ _ _ Hex j h Hj)) as [Hskip Hseg].
  assert (Z.of_nat (length (file_bytes c f off PROG_HEADER_SIZE)) = PROG_HEADER_SIZE) as Hph' by (by rewrite length_file_bytes).
  assert (segments_read (take (S j) phs) = if ph_type h =? ELF_PROG_LOAD then segments_read (take j phs) ++ [h] else segments_read (take j phs)) as Hnext.
  { rewrite (take_S_r _ _ _ Hj), segments_read_snoc, bool_decide_eq_true_2; [done|]. rewrite Hlen, length_take. lia. }
  destruct (ph_type h =? ELF_PROG_LOAD) eqn:Et.
  - assert (Forall (segment_ok (di_size (id_dinode g))) (segments_read (take j phs) ++ [h])) as Hok.
    { rewrite <- Hnext. apply (Forall_prefix _ _ _ (segments_read_take (S j) phs)), segments_read_ok, Hex. }
    apply Forall_app in Hok as [Hls Hh]. rewrite Forall_singleton in Hh.
    destruct (Hseg eq_refl Hh Ho1 ltac:(lia) _ eq_refl) as [Hpanic Hdone]. destruct (prog_size_bounds _ _ Hls) as [Hs0 Hs1].
    assert (page_up (prog_size (segments_read (take j phs) ++ [h])) ≤ TRAPFRAME) as Hmax.
    { destruct (prog_size_bounds (di_size (id_dinode g)) (segments_read (take j phs) ++ [h])) as [_ Hm]; [by apply Forall_app; rewrite Forall_singleton|unfold PGSIZE in Hm; lia]. }
    rewrite prog_size_snoc in Hmax.
    destruct (uvm_alloc_max h0 root (prog_size (segments_read (take j phs))) (ph_vaddr h + ph_mem_size h) s Hs0 Hmax (ld_space _ _ _ _ _ Hld))
      as [E|(s1 & E & Hg)]; [left; by apply Hpanic|]. rewrite <- prog_size_snoc in E, Hg.
    pose proof (le_page_up (prog_size (segments_read (take j phs) ++ [h]))) as Hup. rewrite prog_size_snoc in Hup at 1. pose proof Hh as [[Ha1 Ha2] Hf Ht].
    destruct (load_seg_ok dev h0 root kbuf _ (ph_vaddr h) g (ph_off h) (ph_file_size h) (with_b (k_d k) b1) s1 c L f (gs_space _ _ _ _ _ _ Hg) Ha2 Ha1)
      as (m2 & b2 & Hload & Hd2 & Hq2 & Hfill); [lia|by apply segment_source|done|done|].
    right. exists (file_bytes c f off PROG_HEADER_SIZE), b2, (with_mem s1 m2). cbv zeta. rewrite Hnext. split_and!.
    + unfold st. rewrite (Hdone _ s1 m2 b2 E Hload). do 6 f_equal. unfold off. lia.
    + rewrite length_app, Hlen. cbn. lia.
    + done.
    + cbn in Hd1, Hd2. congruence.
    + done.
    + by apply (loaded_snoc c f s0 _ h (di_size (id_dinode g)) s s1 m2).
  - right. exists (file_bytes c f off PROG_HEADER_SIZE), b1, s. cbv zeta. split_and!; [by apply Hskip|done..].
Qed.

(** The whole loop. *)
Lemma exec_loop inode s0 k b s :
  quiet dev b c L → loaded c f s0 [] s →
  let r := for_range_until 0 (e_phnum elf) (λ _, exec_segment kbuf log_chan root inode)
             (0, e_phoff elf, replicate (Z.to_nat PROG_HEADER_SIZE) 0, g, at_state k b s) in
  r = Panic alloc_error ∨
  ∃ off ph b' s', r = Done (inr (prog_size (segments_read phs), off, ph, g, at_state k b' s')) ∧ disk b' = disk b ∧ quiet dev b' c L ∧ loaded c f s0 (segments_read phs) s'.
Proof using BDL BFlL Hex HL.
  intros Hq Hld r. pose (I := λ i (st : Z * Z * block * InodeData * kernel), ∃ (j : nat) (ph : block) b' s', let ls := segments_read (take j phs) in
    (Z.of_nat j = i ∨ Z.of_nat j < i ∧ ∃ h, phs !! j = Some h ∧ (ph_type h =? ELF_PROG_LOAD) = false) ∧ length ls = j ∧
    st = (prog_size ls, e_phoff elf + PROG_HEADER_SIZE * Z.of_nat j, ph, g, at_state k b' s') ∧
    Z.of_nat (length ph) = PROG_HEADER_SIZE ∧ disk b' = disk b ∧ quiet dev b' c L ∧ loaded c f s0 ls s').
  unfold r. rewrite (ex_phnum _ _ _ _ _ Hex).
  destruct (for_range_until_panic I alloc_error 0 (Z.of_nat (length phs)) (λ _, exec_segment kbuf log_chan root inode)
    (0, e_phoff elf, replicate (Z.to_nat PROG_HEADER_SIZE) 0, g, at_state k b s)) as [E|(st & E & j & ph & b' & s' & Hj & Hlen & -> & _ & Hd & Hq' & Hld')].
  - lia.
  - exists 0%nat, (replicate (Z.to_nat PROG_HEADER_SIZE) 0), b, s. cbv zeta. split; [by left|]. split; [done|]. split; [|done]. by rewrite Z.mul_0_r, Z.add_0_r.
  - intros i st Hi (j & ph & b1 & s1 & Hj & Hlen & -> & Hph & Hd1 & Hq1 & Hld1).
    destruct (lookup_lt_is_Some_2 phs j) as [h Hh]; [lia|].
    destruct (exec_round inode s0 j h ph k b1 s1 Hh Hlen Hph Hq1 Hld1) as [?|(ph' & b2 & s2 & E & Hlen' & Hph' & Hd2 & Hq2 & Hld2)]; [by left|].
    right. eexists. split; [exact E|]. eexists _, ph', b2, s2. cbv zeta. split; [|split; [exact Hlen'|split; [done|split; [done|split; [congruence|done]]]]].
    destruct (ph_type h =? ELF_PROG_LOAD) eqn:Et.
    + destruct Hj as [<-|(_ & h' & Hh' & Et')]; [left; lia|]. congruence.
    + right. split; [lia|]. by exists h.
  - by left.
  - right. assert (segments_read (take j phs) = segments_read phs) as Hall.
    { destruct Hj as [Hj|(_ & h & Hh & Et)]; [by rewrite take_ge by lia|]. by apply (segments_read_stuck phs j h). }
    rewrite Hall in E, Hld'. eexists _, ph, b', s'. split; [exact E|done].
Qed.
End Segments.
