(* ===== verification/ExecStack.v ===== *)
(** * Starting a program

    The second half of [exec]: the stack with the arguments, and the end of the
    old program. *)

From Stdlib Require Import ZArith Lia.
From stdpp Require Import base gmap strings numbers list.
From S2P Require Import Prelude Address Pte PhysMem PageTable PageTableSpec UserCopy PageTableTheorems UvmCopy Bytes Bio DiskLayout Log Bitmap.
From S2P Require Import Inode Path File Cpu Proc Kernel ForkMemory ExecMemory Exec ExecLoad TrapTheorems.

Local Open Scope Z_scope.

(** * The stack of a new program

    The second half of [exec]: the guard page, the strings of the arguments and
    the array of pointers to them. *)

#[local] Opaque map uvm_alloc.

(** ** The layout of the arguments *)

(** Where a string goes, and all of them from the top of the stack on. *)
Definition arg_sp (sp : Z) (arg : list Z) : Z := (sp - (Z.of_nat (length arg) + 1)) / 16 * 16.
Fixpoint arg_sps (sp : Z) (args : list (list Z)) : list Z :=
  match args with
  | x :: r => arg_sp sp x :: arg_sps (arg_sp sp x) r
  | [] => []
  end.
Definition args_end (sp : Z) (args : list (list Z)) : Z := foldl arg_sp sp args.

(** The array of pointers, with its null at the end. *)
Definition argv_sp (sp : Z) (args : list (list Z)) : Z := (args_end sp args - (Z.of_nat (length args) + 1) * 8) / 16 * 16.

Lemma arg_sp_bounds sp x : arg_sp sp x + Z.of_nat (length x) + 1 ≤ sp.
Proof. unfold arg_sp. divlia. Qed.

Lemma align_sp_ok sp : 0 ≤ sp < 2 ^ 64 → align_sp sp = Done (sp / 16 * 16).
Proof. intros Hs. unfold align_sp. rewrite urem_ok, bind_Done_l by done. rewrite usub_ok by divlia. f_equal. divlia. Qed.

Lemma length_arg_sps sp args : length (arg_sps sp args) = length args.
Proof. revert sp. induction args as [|x args IH]; intros sp; cbn; [done|]. by rewrite IH. Qed.

Lemma arg_sps_snoc sp args x : arg_sps sp (args ++ [x]) = arg_sps sp args ++ [arg_sp (args_end sp args) x].
Proof. revert sp. induction args as [|y args IH]; intros sp; cbn; [done|]. by rewrite IH. Qed.

Lemma args_end_snoc sp args x : args_end sp (args ++ [x]) = arg_sp (args_end sp args) x.
Proof. unfold args_end. by rewrite foldl_app. Qed.

Lemma args_end_le sp args : args_end sp args ≤ sp - Z.of_nat (length args).
Proof.
  revert sp. induction args as [|x args IH]; intros sp; cbn [args_end foldl length]; [lia|]. fold (args_end (arg_sp sp x) args).
  pose proof (IH (arg_sp sp x)). pose proof (arg_sp_bounds sp x). lia.
Qed.

Lemma args_end_app sp args args' : args_end sp (args ++ args') ≤ args_end sp args.
Proof. unfold args_end. rewrite foldl_app. pose proof (args_end_le (foldl arg_sp sp args) args') as Hle. unfold args_end in Hle. lia. Qed.

(** The strings are inside of the part of the stack that is used. *)
Lemma arg_sps_bounds args : ∀ sp j q x, arg_sps sp args !! j = Some q → args !! j = Some x → args_end sp args ≤ q ∧ q + Z.of_nat (length x) + 1 ≤ sp.
Proof.
  induction args as [|y args IH]; intros sp j q x Hq Hx; [done|]. pose proof (arg_sp_bounds sp y). destruct j as [|j]; cbn in Hq, Hx.
  - injection Hq as <-. injection Hx as <-. split; [|lia]. pose proof (args_end_le (arg_sp sp y) args) as Hle. cbn. unfold args_end in Hle. lia.
  - destruct (IH _ _ _ _ Hq Hx) as [H1 H2]. split; [exact H1|]. lia.
Qed.

(** A string that ends right at the top of the stack is refused by [copy_out]. *)
Definition first_ok (args : list (list Z)) : Prop :=
  match args with x :: _ => (Z.of_nat (length x) + 1) mod 16 ≠ 0 | [] => True end.

Lemma arg_below n args x rest : n mod PGSIZE = 0 → first_ok (args ++ x :: rest) → arg_sp (args_end n args) x + Z.of_nat (length x) + 1 < n.
Proof.
  intros Hn Hf. destruct args as [|y args].
  - cbn in *. unfold arg_sp, PGSIZE in *. divlia.
  - pose proof (args_end_le n (y :: args)). pose proof (arg_sp_bounds (args_end n (y :: args)) x). cbn [length] in *. lia.
Qed.

Section Stack.
Context {BFl : BitFlags} {BFlL : BitFlagsLaws} {H : Type} {PS : PageSource H} {PSL : PageSourceLaws H}.
Context (h0 : H) (root : Z).

(** ** Writes that leave the bytes of the program alone *)

(** The same program, with other memory around it. *)
Record same_user (n : Z) (s : pstate H) (m' : mem) : Prop := {
  su_space : space h0 root n (with_mem s m');
  su_byte a : 0 ≤ a < n → user_byte m' root a = user_byte (pmem s) root a;
}.

(** The guard page loses its user bit. *)
Lemma uvm_clear_ok n s v :
  space h0 root n s → 0 ≤ v < n → v mod PGSIZE = 0 →
  ∃ pte m', uvm_clear root v (pmem s) = Done m' ∧ mapping (pmem s) root v = Some pte ∧ same_user n s m' ∧ keeps h0 s (with_mem s m') ∧
    ∀ w, 0 ≤ w < 2 ^ 39 → mapping m' root w = if decide (page_of w = v) then Some (rm_user_bit pte) else mapping (pmem s) root w.
Proof using.
  intros Hs Hv Hva. destruct (sp_page _ _ _ _ Hs v Hv Hva) as (q & Hq & Hqo & _). destruct (sp_size _ _ _ _ Hs) as [_ Hn].
  assert (TRAPFRAME < 2 ^ 38 ∧ MAXVA = 2 ^ 38) as [Htf Hmax] by by vm_compute. unfold user_page in Hq.
  destruct (tbl_at (pmem s) root [page_num v 2; page_num v 1]) as [p|] eqn:Hp; [|unfold mapping in Hq; by rewrite Hp in Hq].
  set (e := entry p (page_num v 0)). assert (mapping (pmem s) root v = Some (read_word (pmem s) e) ∧ is_valid (read_word (pmem s) e) = true) as [Hm Hval].
  { unfold mapping in *. rewrite Hp in *. cbn [mbind option_bind] in *. cbv zeta in *. fold e in Hq |- *. destruct (is_valid (read_word (pmem s) e)); [done|discriminate]. }
  set (w := rm_user_bit (read_word (pmem s) e)). set (m' := write_word (pmem s) e w).
  destruct (rm_user_bit_ok (read_word (pmem s) e) (read_word_range _ _)) as (E1 & E2 & E3 & E4). fold w in E1, E2, E3, E4. rewrite Hval in E2.
  pose proof (page_num_range v 0 ltac:(lia)) as Hidx. pose proof (sp_tree _ _ _ _ Hs) as Hinv. destruct (pi_table _ _ _ Hinv _ _ (va_path v) Hp) as [Hpo _].
  assert (table_of (pmem s) root p) as Hpt by (eexists; split; [apply va_path|done]).
  assert (∀ r, table_of m' root r ↔ table_of (pmem s) root r) as Htab.
  { intros r. split; intros (path & Hok & Hat); exists path; (split; [done|]); unfold m', e in *;
      rewrite (tbl_at_write_leaf _ root (pheap s) [page_num v 2; page_num v 1]) in *; (done || apply va_path). }
  assert (∀ x, ¬ in_page p x → m' x = pmem s x) as Hframe.
  { intros x Hx. unfold m'. apply write_word_other. pose proof (entry_in_page p _ Hpo Hidx). fold e in H0. unfold in_page in Hx. lia. }
  assert (∀ x, 0 ≤ x < 2 ^ 39 → mapping m' root x = if decide (page_of x = v) then Some w else mapping (pmem s) root x) as Hmap.
  { intros x Hx. unfold m', e. rewrite (mapping_write_leaf _ root (pheap s)); try done; [|lia]. by rewrite (page_of_aligned v). }
  assert (∀ x, 0 ≤ x < 2 ^ 39 → as_pagetable <$> mapping m' root x = as_pagetable <$> mapping (pmem s) root x) as Hpage.
  { intros x Hx. rewrite Hmap by done. case_decide as Hd; [|done]. rewrite (mapping_page _ root x v), Hm by (by rewrite (page_of_aligned v)). cbn. by rewrite E1. }
  exists (read_word (pmem s) e), m'. split; [|split; [done|split; [split|split; [split|done]]]].
  - unfold uvm_clear, translate. rewrite (proj2 (Z.ltb_ge _ _)) by lia.
    assert (walk [2; 1] v root (pmem s) = Some p) as -> by (rewrite <- Hp; simpl; by destruct (is_valid _)). done.
  - destruct Hs as [S1 S2 S3 S4 S5 S6 S7 S8]. split; cbn [pmem pheap with_mem]; try done.
    + apply (pt_inv_write_leaf _ root (pheap s) [page_num v 2; page_num v 1]); (done || apply va_path).
    + intros r Hr. apply S4. by apply Htab.
    + intros x Hx Hxa. destruct (S5 x Hx Hxa) as (r & Hr & Hrest). exists r. unfold user_page. rewrite Hpage by lia. split; [done|]. by rewrite Htab.
    + intros x x' r Hx Hx'. unfold user_page. rewrite !Hpage by lia. by apply S6.
    + intros x Hx. rewrite Hmap by lia. rewrite decide_False; [by apply S7|]. intros Hd. pose proof (page_of_bounds x). unfold PGSIZE in *. divlia.
  - intros a Ha. destruct (below_page n a (proj1 (sp_size _ _ _ _ Hs)) Ha) as [Hb Hba]. destruct (sp_page _ _ _ _ Hs _ Hb Hba) as (r & Hr & Hro & _ & _ & Hrt).
    rewrite (user_byte_at _ _ a r Hr). rewrite (user_byte_at _ _ a r) by (unfold user_page; rewrite Hpage by lia; done). f_equal. unfold read_byte.
    rewrite Hframe; [done|]. intros Hx. apply Hrt. rewrite (in_page_unique r p (r + a mod PGSIZE)); try done. unfold in_page, PGSIZE. divlia.
  - done.
  - intros x Hx. cbn [pmem with_mem]. apply Hframe. intros Hin. apply in_page_of in Hin; [|apply Hpo]. rewrite Hin in Hx. by apply (sp_fresh _ _ _ _ Hs p).
Qed.

(** Writes to pages that were in use before. *)
Lemma outside_written n s m' :
  space h0 root n s → (∀ x, ¬ ps_page h0 (page_of x) → m' x = pmem s x) →
  same_user n s m' ∧ ∀ v, mapping m' root v = mapping (pmem s) root v.
Proof using.
  intros Hs Hx. destruct (tree_same (pmem s) m' root (pheap s) (pheap s) (sp_tree _ _ _ _ Hs)) as (Ht & Htab & Hm); [|done|].
  { intros q x Hq Hin. apply Hx. destruct (table_page _ _ _ _ (sp_tree _ _ _ _ Hs) Hq) as [Hqo _]. rewrite (proj1 (in_page_of q x (proj1 Hqo)) Hin).
    by apply (sp_fresh _ _ _ _ Hs). }
  split; [split|done].
  - destruct Hs as [S1 S2 S3 S4 S5 S6 S7 S8]. split; cbn [pmem pheap with_mem]; try done.
    + intros r Hr. apply S4. by apply Htab.
    + intros v Hv Hva. destruct (S5 v Hv Hva) as (r & Hr & Hrest). exists r. unfold user_page. rewrite Hm. split; [done|]. by rewrite Htab.
    + intros v v' r. unfold user_page. rewrite !Hm. apply S6.
    + intros v Hv. rewrite Hm. by apply S7.
  - intros a Ha. destruct (below_page n a (proj1 (sp_size _ _ _ _ Hs)) Ha) as [Hb Hba]. destruct (sp_page _ _ _ _ Hs _ Hb Hba) as (r & Hr & Hro & Hrn & _).
    rewrite (user_byte_at _ _ a r Hr). rewrite (user_byte_at _ _ a r) by (unfold user_page; by rewrite Hm). f_equal. unfold read_byte.
    rewrite Hx; [done|]. rewrite (proj1 (in_page_of r _ (proj1 Hro))); [done|]. unfold in_page, PGSIZE. divlia.
Qed.

(** ** Copies to the program *)

(** [copy_out] from memory that was in use before, to a range that ends inside
    of the program. *)
Lemma copy_out_filled n s dst src len :
  space h0 root n s → 0 ≤ dst → 0 ≤ len → dst + len < n → (∀ x, src ≤ x < src + len → ps_page h0 (page_of x)) →
  ∃ m', copy_out root dst src len (pmem s) = Done (Ok tt, m') ∧ filled h0 root n dst len (λ i, pmem s (src + i)) s m'.
Proof using.
  intros Hs Hd Hl Hn Hsrc. destruct (sp_size _ _ _ _ Hs) as [Hna Hsz]. assert (TRAPFRAME < MAXVA) as Hmax by by vm_compute.
  set (pa := λ v, default 0 (as_pagetable <$> mapping (pmem s) root v)).
  assert (∀ v, page_of dst ≤ v ≤ page_of (dst + len) → v mod PGSIZE = 0 → 0 ≤ v < n ∧ user_page root (pmem s) v (pa v) ∧ page_ok (pa v) ∧
    ¬ ps_page h0 (pa v) ∧ ¬ table_of (pmem s) root (pa v)) as Hpages.
  { intros v Hv Hva. assert (0 ≤ v < n) as Hvn by (unfold page_of, PGSIZE in *; divlia). split; [done|].
    destruct (sp_page _ _ _ _ Hs v Hvn Hva) as (q & Hq & Hqo & Hqn & _ & Hqt). unfold pa. rewrite Hq. done. }
  destruct (copy_out_ok root dst src len (pmem s) (pheap s) pa (sp_tree _ _ _ _ Hs) Hd Hl) as (m' & Hrun & Hin & Hout).
  - lia.
  - intros v Hv Hva. destruct (Hpages v Hv Hva) as (Hvn & Hq & _). by rewrite pgt_translate_mapping by lia.
  - intros v Hv Hva. by apply Hpages.
  - intros v v' Hv Hv' Hva Hva' E. destruct (Hpages v Hv Hva) as (Hvn & Hq & _), (Hpages v' Hv' Hva') as (Hvn' & Hq' & _).
    rewrite <- E in Hq'. by apply (sp_inj _ _ _ _ Hs v v' (pa v)).
  - intros v Hv Hva. by apply Hpages.
  - intros v x Hv Hva Hx Hsx. destruct (Hpages v Hv Hva) as (_ & _ & Hqo & Hqn & _). apply Hqn. rewrite <- (proj1 (in_page_of _ x (proj1 Hqo)) Hx). by apply Hsrc.
  - exists m'. split; [done|]. assert (∀ a, a mod PGSIZE = a - page_of a) as Hmod by (intros a; unfold page_of, PGSIZE; divlia).
    assert (∀ j, 0 ≤ j < len → 0 ≤ page_of (dst + j) < n ∧ page_of (dst + j) mod PGSIZE = 0 ∧ page_of dst ≤ page_of (dst + j) ≤ page_of (dst + len) ∧
      in_page (pa (page_of (dst + j))) (target dst pa j)) as Htarget.
    { intros j Hj. pose proof (page_of_bounds (dst + j)) as [Hb Hal]. unfold target, in_page. split; [|split; [done|split; [|lia]]]; unfold page_of, PGSIZE in *; divlia. }
    destruct (inside_written h0 root n s m' Hs) as (H1 & H2 & H3).
    { intros x Hx. apply Hout. intros j Hj ->. destruct (Htarget j Hj) as (Hv & Hva & Hr & Hin'). apply (Hx _ _ Hv Hva (proj1 (proj2 (Hpages _ Hr Hva))) Hin'). }
    split; try done.
    + intros a Ha. destruct (Htarget (a - dst) ltac:(lia)) as (Hv & Hva & Hr & _). replace (dst + (a - dst)) with a in * by lia.
      rewrite (user_byte_at _ _ a (pa (page_of a))) by (unfold user_page; rewrite H3; by apply Hpages). unfold read_byte.
      rewrite <- (Hin (a - dst)) by lia. unfold target. replace (dst + (a - dst)) with a by lia. by rewrite Hmod.
    + intros a Ha Hna'. destruct (below_page n a Hna Ha) as [Hp Hpa]. destruct (sp_page _ _ _ _ Hs _ Hp Hpa) as (r & Hr & Hro & _).
      rewrite (user_byte_at _ _ a r Hr). rewrite (user_byte_at _ _ a r) by (unfold user_page; by rewrite H3). f_equal. unfold read_byte.
      rewrite Hout; [done|]. intros j Hj E. destruct (Htarget j Hj) as (Hv & Hva & Hrng & Hin'). rewrite <- E in Hin'.
      destruct (Hpages _ Hrng Hva) as (_ & Hq & Hqo & _). assert (in_page r (r + a mod PGSIZE)) as Hir by (unfold in_page, PGSIZE; divlia).
      pose proof (in_page_unique _ _ _ Hro Hqo Hir Hin') as ->. pose proof (sp_inj _ _ _ _ Hs _ _ _ Hp Hv Hpa Hva Hr Hq) as Epg.
      unfold target in E. rewrite <- Epg, Hmod in E. lia.
Qed.

(** ** The strings *)

(** A string in memory that was in use before. *)
Record string_at (m : mem) (a : Z) (x : list Z) : Prop := {
  sa_addr : 0 < a ∧ a + Z.of_nat (length x) + 1 < 2 ^ 64;
  sa_chars : Forall (λ ch, 0 < ch < 256) x;
  sa_bytes i : 0 ≤ i ≤ Z.of_nat (length x) → read_byte m (a + i) = nth (Z.to_nat i) x 0;
  sa_used y : a ≤ y < a + Z.of_nat (length x) + 1 → ps_page h0 (page_of y);
}.

Lemma string_keeps s s' a x : string_at (pmem s) a x → keeps h0 s s' → string_at (pmem s') a x.
Proof using.
  intros [S1 S2 S3 S4] [_ Hk]. split; try done. intros i Hi. rewrite <- S3 by done. unfold read_byte. f_equal. apply Hk, S4. lia.
Qed.

Lemma str_len_ok fuel m a x : string_at m a x → (length x < fuel)%nat → Misc.str_len fuel m a = Done (Z.of_nat (length x)).
Proof using.
  intros [S1 S2 S3 _] Hf. unfold Misc.str_len.
  match goal with |- while_fuel _ ?b _ = _ => destruct (while_fuel_inv (λ i, 0 ≤ i ≤ Z.of_nat (length x)) (λ i, Z.of_nat (length x) - i)
    (λ r, r = Z.of_nat (length x)) b) with (fuel := fuel) (s := 0) as (r & -> & ->) end; [|lia|lia|lia|done].
  intros i Hi. rewrite (uadd_ok a i), bind_Done_l by lia. rewrite S3 by done. destruct (decide (i = Z.of_nat (length x))) as [->|Hne].
  - left. rewrite nth_overflow by lia. cbn. eauto.
  - right. destruct (lookup_lt_is_Some_2 x (Z.to_nat i)) as [ch Hch]; [lia|]. rewrite (nth_lookup_Some _ _ _ _ Hch).
    pose proof (Forall_lookup_1 _ _ _ _ S2 Hch). cbn in *. rewrite (proj2 (Z.eqb_neq ch 0)) by lia. cbn [negb].
    rewrite (uadd_ok i 1), bind_Done_l by lia. eexists. split; [done|]. lia.
Qed.

(** The strings [args] are on the stack. *)
Record pushed (n : Z) (s : pstate H) (args : list (list Z)) (m : mem) : Prop := {
  pu_space : space h0 root n (with_mem s m);
  pu_keeps : keeps h0 s (with_mem s m);
  pu_map v : mapping m root v = mapping (pmem s) root v;
  pu_arg j q x : arg_sps n args !! j = Some q → args !! j = Some x → ∀ i, 0 ≤ i ≤ Z.of_nat (length x) → user_byte m root (q + i) = Some (nth (Z.to_nat i) x 0);
  pu_rest a : 0 ≤ a < args_end n args → user_byte m root a = user_byte (pmem s) root a;
}.

Lemma pushed_nil n s : space h0 root n s → pushed n s [] (pmem s).
Proof using. intros Hs. destruct s. by split. Qed.

(** One string more. *)
Lemma pushed_snoc n s args a x m :
  pushed n s args m → string_at (pmem s) a x → 0 ≤ arg_sp (args_end n args) x → arg_sp (args_end n args) x + Z.of_nat (length x) + 1 < n →
  ∃ m', copy_out root (arg_sp (args_end n args) x) a (Z.of_nat (length x) + 1) m = Done (Ok tt, m') ∧ pushed n s (args ++ [x]) m'.
Proof using.
  intros [P1 P2 P3 P4 P5] Hx H0 Hn. set (q := arg_sp (args_end n args) x) in *. pose proof (arg_sp_bounds (args_end n args) x) as Hq. fold q in Hq.
  pose proof (args_end_le n args) as Hle. pose proof (string_keeps s (with_mem s m) a x Hx P2) as Hx'.
  destruct (copy_out_filled n (with_mem s m) q a (Z.of_nat (length x) + 1) P1) as (m' & Hrun & [F1 F2 F3 F4 F5]);
    [done|lia|lia|intros y Hy; apply (sa_used _ _ _ Hx); lia|].
  cbn [pmem with_mem] in *. exists m'. split; [exact Hrun|]. split; cbn [pmem with_mem].
  - exact F1.
  - by apply (keeps_trans _ _ (with_mem s m)).
  - intros v. by rewrite F5.
  - intros j r y Hr Hy i Hi. rewrite arg_sps_snoc in Hr. apply lookup_app_Some in Hr as [Hr|[Hj Hr]].
    + pose proof (lookup_lt_Some _ _ _ Hr) as Hlt. rewrite length_arg_sps in Hlt. rewrite lookup_app_l in Hy by done.
      destruct (arg_sps_bounds _ _ _ _ _ Hr Hy) as [B1 B2]. rewrite F4 by lia. by apply (P4 j r y).
    + rewrite length_arg_sps in *. rewrite lookup_app_r in Hy by done. destruct (j - length args)%nat; [|done]. injection Hr as <-. injection Hy as <-. fold q.
      rewrite F3 by lia. replace (q + i - q) with i by lia. f_equal. by apply (sa_bytes _ _ _ Hx').
  - intros b Hb. rewrite args_end_snoc in Hb. fold q in Hb. rewrite F4 by lia. apply P5. lia.
Qed.

(** The pointers as [exec] keeps them. *)
Definition user_stack_of (n : Z) (args : list (list Z)) : list Z := arg_sps n args ++ replicate (Z.to_nat MAXARG - length args) 0.

Lemma user_stack_snoc n args x : Z.of_nat (length args) < MAXARG →
  <[length args := arg_sp (args_end n args) x]> (user_stack_of n args) = user_stack_of n (args ++ [x]).
Proof using.
  intros Hl. unfold user_stack_of. rewrite insert_app_r_alt, length_arg_sps, Nat.sub_diag by (by rewrite length_arg_sps).
  rewrite arg_sps_snoc, <- app_assoc, length_app. f_equal. cbn [length].
  destruct (Z.to_nat MAXARG - length args)%nat as [|k] eqn:Ek; [unfold MAXARG in *; lia|]. cbn. do 2 f_equal. lia.
Qed.

(** Everything the loop of [exec] over the arguments needs. *)
Record args_ok (n : Z) (m : mem) (argv : list Z) (args : list (list Z)) : Prop := {
  ao_num : Z.of_nat (length args) < MAXARG;
  ao_strings j x : args !! j = Some x → ∃ a, argv !! j = Some a ∧ string_at m a x;
  ao_end : argv !! length args = Some 0;
  ao_fits : n - PGSIZE ≤ argv_sp n args;
}.

Lemma args_keeps n s s' argv args : args_ok n (pmem s) argv args → keeps h0 s s' → args_ok n (pmem s') argv args.
Proof using.
  intros [A1 A2 A3 A5] Hk. split; try done. intros j x Hx. destruct (A2 j x Hx) as (a & Ha & Hs). exists a. split; [done|]. by apply (string_keeps s).
Qed.

Lemma push_args_ok n s argv args :
  space h0 root n s → PGSIZE ≤ n → args_ok n (pmem s) argv args → first_ok args →
  ∃ m', push_args root (n - PGSIZE) n n argv (pmem s) =
      Done (inr (Z.of_nat (length args), args_end n args, user_stack_of n args, m')) ∧ pushed n s args m'.
Proof using.
  intros Hs Hn [A1 A2 A3 A5] A4. destruct (sp_size _ _ _ _ Hs) as [Hna Hsz]. assert (TRAPFRAME < 2 ^ 39) as Htf by by vm_compute.
  assert (n - PGSIZE ≤ args_end n args) as Hend by (unfold argv_sp in A5; divlia). unfold push_args.
  pose (I := λ '(argc, sp, us, m), ∃ done rest, args = done ++ rest ∧ argc = Z.of_nat (length done) ∧ sp = args_end n done ∧ us = user_stack_of n done ∧ pushed n s done m).
  pose (Q := λ r : string * mem + Z * Z * list Z * mem, ∃ m', r = inr (Z.of_nat (length args), args_end n args, user_stack_of n args, m') ∧ pushed n s args m').
  match goal with |- ∃ _, while_fuel ?fu ?b ?st = _ ∧ _ =>
    destruct (while_fuel_inv I (λ '(argc, _, _, _), Z.of_nat (length args) - argc) Q b) with (fuel := fu) (s := st) as (r & -> & m' & -> & Hp) end; cycle 1.
  { exists [], args. split_and!; [done..|]. by apply pushed_nil. }
  { unfold MAXARG in *. lia. }
  { lia. }
  { by exists m'. }
  intros [[[argc sp] us] m] (done & rest & Eargs & -> & -> & -> & Hp). rewrite Nat2Z.id. destruct rest as [|x rest].
  - left. rewrite app_nil_r in Eargs. subst done. rewrite A3. eexists. split; [done|]. by exists m.
  - right. assert (args !! length done = Some x) as Hx by (subst args; by rewrite lookup_app_r, Nat.sub_diag by done).
    destruct (A2 _ _ Hx) as (a & Ha & Hstr). rewrite Ha. cbn [unwrap]. rewrite bind_Done_l. destruct (sa_addr _ _ _ Hstr) as [Ha0 Ha1].
    rewrite (proj2 (Z.eqb_neq a 0)) by lia. assert (length args = length done + S (length rest))%nat as Hlen by (subst args; by rewrite length_app).
    rewrite (proj2 (Z.leb_gt _ _)) by lia. pose proof (args_end_le n done) as Hle. pose proof (arg_sp_bounds (args_end n done) x) as Hb.
    assert (args_end n args ≤ arg_sp (args_end n done) x) as Hlow.
    { subst args. replace (done ++ x :: rest) with ((done ++ [x]) ++ rest) by (by rewrite <- app_assoc). rewrite <- args_end_snoc. apply args_end_app. }
    pose proof (str_len_ok (Z.to_nat (PGSIZE + 1)) m a x (string_keeps s (with_mem s m) _ _ Hstr (pu_keeps _ _ _ _ Hp))) as Hsl. unfold PGSIZE in *.
    rewrite Hsl, bind_Done_l by lia. rewrite (uadd_ok (Z.of_nat (length x)) 1), bind_Done_l by lia. rewrite (usub_ok (args_end n done)), bind_Done_l by lia.
    rewrite align_sp_ok, bind_Done_l by lia. fold (arg_sp (args_end n done) x). rewrite (proj2 (Z.ltb_ge _ _)) by lia.
    destruct (pushed_snoc n s done a x m Hp Hstr) as (m' & -> & Hp'); [lia|apply (arg_below n done x rest); [done|by rewrite <- Eargs]|].
    rewrite bind_Done_l. destruct (lookup_lt_is_Some_2 (user_stack_of n done) (length done)) as [y ->].
    { unfold user_stack_of. rewrite length_app, length_arg_sps, length_replicate. unfold MAXARG in *. lia. }
    cbn [unwrap]. rewrite bind_Done_l, uadd_ok, bind_Done_l by (unfold MAXARG in *; lia). eexists. split; [done|]. split; [|lia].
    exists (done ++ [x]), rest. rewrite length_app, args_end_snoc, <- app_assoc. cbn [length app]. split_and!; [done|lia|done| |done].
    rewrite user_stack_snoc by lia. done.
Qed.

(** The first string ends right at the top of the stack, behind which nothing is
    mapped. *)
Lemma push_args_first n s argv x args :
  space h0 root n s → 2 * PGSIZE ≤ n → n < TRAPFRAME → args_ok n (pmem s) argv (x :: args) → (Z.of_nat (length x) + 1) mod 16 = 0 →
  push_args root (n - PGSIZE) n n argv (pmem s) = Panic unwrap_none.
Proof using.
  intros Hs Hn Htop [A1 A2 A3 A5] Hmul. destruct (sp_size _ _ _ _ Hs) as [Hna Hsz]. assert (TRAPFRAME + PGSIZE < MAXVA ∧ MAXVA = 2 ^ 38) as [Htf Hmax] by by vm_compute.
  destruct (A2 0%nat x eq_refl) as (a & Ha & Hstr). destruct (sa_addr _ _ _ Hstr) as [Ha0 Ha1]. unfold push_args.
  change (S (S (Z.to_nat MAXARG))) with 34%nat. cbn [while_fuel]. change (Z.to_nat 0) with 0%nat. rewrite Ha. cbn [unwrap]. rewrite bind_Done_l. rewrite (proj2 (Z.eqb_neq a 0)) by lia.
  change (MAXARG <=? 0) with false. cbv iota.
  assert (n - PGSIZE + 16 ≤ arg_sp n x) as Hlow.
  { pose proof (args_end_le n (x :: args)) as _. pose proof (args_end_app n [x] args) as He. cbn [app args_end foldl] in He. unfold argv_sp in A5. cbn [length args_end foldl] in *.
    unfold args_end in *. cbn in A5. unfold arg_sp, PGSIZE in *. divlia. }
  pose proof (str_len_ok (Z.to_nat (PGSIZE + 1)) (pmem s) a x Hstr) as Hsl. unfold arg_sp, PGSIZE in *.
  rewrite Hsl, bind_Done_l by divlia. rewrite (uadd_ok (Z.of_nat (length x)) 1), bind_Done_l by lia. rewrite (usub_ok n), bind_Done_l by divlia.
  rewrite align_sp_ok, bind_Done_l by divlia. set (sp := (n - (Z.of_nat (length x) + 1)) / 16 * 16) in *. rewrite (proj2 (Z.ltb_ge _ _)) by lia.
  assert (sp = n - (Z.of_nat (length x) + 1)) as Hsp by (unfold sp; divlia). assert (page_of sp = n - 4096) as Hpg by (unfold page_of, PGSIZE; divlia).
  destruct (sp_page _ _ _ _ Hs (n - 4096)) as (q & Hq & Hqo & _ & _ & Hqt); [lia|unfold PGSIZE; divlia|].
  replace (Z.of_nat (length x) + 1) with (page_of sp + PGSIZE - sp) by (unfold PGSIZE; lia).
  rewrite (copy_out_page_end root sp a (pmem s) (pheap s) q); [done|apply Hs|unfold PGSIZE; lia|done|done| |].
  - rewrite Hpg, pgt_translate_mapping by lia. exact Hq.
  - rewrite Hpg, pgt_translate_mapping by (unfold PGSIZE; lia). replace (n - 4096 + PGSIZE) with n by (unfold PGSIZE; lia). by rewrite (sp_none _ _ _ _ Hs) by lia.
Qed.
End Stack.

(** * The new program takes over

    [exec_stack]: the stack with the arguments, the registers of the new program
    and the end of the old one. *)

#[local] Opaque map uvm_alloc.

(** ** Words in memory *)

Lemma nth_le_encode n : ∀ v i, (i < n)%nat → nth i (le_encode n v) 0 = v / 256 ^ Z.of_nat i mod 256.
Proof.
  induction n as [|n IH]; intros v i Hi; [lia|]. destruct i as [|i]; cbn [le_encode nth]; [by rewrite Z.pow_0_r, Z.div_1_r|].
  rewrite IH by lia. rewrite Nat2Z.inj_succ, Z.pow_succ_r by lia. by rewrite Zdiv_Zdiv by lia.
Qed.

Lemma encode_u64s_cons v vs : encode_u64s (v :: vs) = le_encode 8 v ++ encode_u64s vs.
Proof. done. Qed.

Lemma length_encode_u64s vs : length (encode_u64s vs) = (8 * length vs)%nat.
Proof. induction vs as [|v vs IH]; [done|]. rewrite encode_u64s_cons, length_app, length_le_encode, IH. cbn [length]. lia. Qed.

Lemma nth_encode_u64s vs : ∀ j v i, vs !! j = Some v → (i < 8)%nat → nth (8 * j + i) (encode_u64s vs) 0 = v / 256 ^ Z.of_nat i mod 256.
Proof.
  induction vs as [|w vs IH]; intros j v i Hj Hi; [done|]. rewrite encode_u64s_cons. destruct j as [|j].
  - injection Hj as ->. rewrite app_nth1 by (rewrite length_le_encode; lia). replace (8 * 0 + i)%nat with i by lia. by apply nth_le_encode.
  - rewrite app_nth2 by (rewrite length_le_encode; lia). rewrite length_le_encode. replace (8 * S j + i - 8)%nat with (8 * j + i)%nat by lia. by apply IH.
Qed.

Section Image.
Context {BFl : BitFlags} {BFlL : BitFlagsLaws} {H : Type} {PS : PageSource H} {PSL : PageSourceLaws H}.
Context (kbuf tf : Z).

(** Memory that [exec] writes apart from the new program: the array of pointers
    on the kernel stack and the trap frame. *)
Definition scratch (x : Z) : Prop := kbuf ≤ x < kbuf + 8 * MAXARG ∨ in_page tf x.

(** The program that calls [exec]: its tables, its trap frame and the kernel
    stack are different pages in use. *)
Record old_image (old osz : Z) (s : pstate H) : Prop := {
  oi_tree : pt_inv (pmem s) old (pheap s);
  oi_heap : ps_inv (pheap s);
  oi_size : 0 ≤ osz ≤ TRAPFRAME;
  oi_page v : 0 ≤ v < osz ∨ v = TRAPFRAME ∨ v = TRAMPOLINE → ∃ pte, mapping (pmem s) old v = Some pte ∧ as_flags pte ≠ PTE_V;
  oi_frame : page_ok tf ∧ ps_page (pheap s) tf ∧ ¬ table_of (pmem s) old tf;
  oi_buf x : kbuf ≤ x < kbuf + 8 * MAXARG → ps_page (pheap s) (page_of x) ∧ ¬ table_of (pmem s) old (page_of x) ∧ page_of x ≠ tf;
}.

(** What the pages in use keep while [exec] runs. *)
Definition kept (s : pstate H) (m : mem) : Prop := ∀ x, ps_page (pheap s) (page_of x) → ¬ scratch x → m x = pmem s x.

Lemma old_mapping old osz s m v : old_image old osz s → kept s m → mapping m old v = mapping (pmem s) old v.
Proof using.
  intros Ho Hk. apply (mapping_ext _ _ _ (pheap s)); [apply Ho|]. intros q x Hq Hx. destruct (table_page _ _ _ _ (oi_tree _ _ _ Ho) Hq) as [Hqo Hqu].
  pose proof (proj1 (in_page_of q x (proj1 Hqo)) Hx) as E. apply Hk; [by rewrite E|]. intros [Hb|Hb].
  - destruct (oi_buf _ _ _ Ho x Hb) as (_ & Hnt & _). by rewrite E in Hnt.
  - destruct (oi_frame _ _ _ Ho) as (Hto & _ & Hnt). by rewrite (in_page_unique _ _ _ Hqo Hto Hx Hb) in Hq.
Qed.

Lemma proc_free_done old osz s m : old_image old osz s → kept s m → proc_free_pagetable old osz m = Done m.
Proof using.
  intros Ho Hk. destruct (oi_size _ _ _ Ho) as [Hs0 Hs1]. assert (TRAMPOLINE mod PGSIZE = 0 ∧ TRAPFRAME mod PGSIZE = 0 ∧ TRAPFRAME + PGSIZE = TRAMPOLINE ∧
    TRAMPOLINE + PGSIZE = 2 ^ 38 ∧ MAXVA = 2 ^ 38) as (L1 & L2 & L3 & L4 & L5) by by vm_compute.
  assert (∀ v, 0 ≤ v < osz ∨ v = TRAPFRAME ∨ v = TRAMPOLINE → ∃ pte, mapping m old v = Some pte ∧ as_flags pte ≠ PTE_V) as Hpage.
  { intros v Hv. rewrite (old_mapping old osz s) by done. by apply (oi_page _ _ _ Ho). }
  unfold proc_free_pagetable. rewrite (uvm_unmap_done old TRAMPOLINE), bind_Done_l; [|unfold PGSIZE in *; (done || lia)..|].
  2: { intros v Hv Hva. apply Hpage. right. right. unfold PGSIZE in *. divlia. }
  rewrite (uvm_unmap_done old TRAPFRAME), bind_Done_l; [|unfold PGSIZE in *; (done || lia)..|].
  2: { intros v Hv Hva. apply Hpage. right. left. unfold PGSIZE in *. divlia. }
  unfold uvm_free. destruct (Z.ltb_spec 0 osz) as [Hpos|]; [|done]. unfold PGSIZE in *. rewrite pg_round_up_ok, bind_Done_l by (unfold PGSIZE; lia).
  rewrite udiv_ok, bind_Done_l by done. unfold page_of, PGSIZE in *. apply uvm_unmap_done; unfold PGSIZE; try done; try divlia.
  intros v Hv Hva. apply Hpage. left. divlia.
Qed.

(** ** The steps of [exec_stack] *)

Context (s0 : pstate H) (root : Z).
Abbreviation space := (space (pheap s0) root).

(** The guard page and the page of the stack above the [n] bytes of the program. *)
Record stacked (n : Z) (s s' : pstate H) : Prop := {
  sk_space : space (n + 2 * PGSIZE) s';
  sk_keeps : keeps (pheap s0) s s';
  sk_bytes a : 0 ≤ a < n → user_byte (pmem s') root a = user_byte (pmem s) root a;
  sk_map v : 0 ≤ v < 2 ^ 39 → ¬ (n ≤ v < n + 2 * PGSIZE) → mapping (pmem s') root v = mapping (pmem s) root v;
  sk_guard v : n ≤ v < n + PGSIZE → ∃ pte, mapping (pmem s') root v = Some pte ∧ Z.testbit pte 4 = false;
  sk_stack v : n + PGSIZE ≤ v < n + 2 * PGSIZE → as_flags <$> mapping (pmem s') root v = Some (Z.lor USER_FLAGS PTE_V);
}.

Lemma page_up_aligned n : n mod PGSIZE = 0 → page_up n = n.
Proof using. unfold page_up, page_of, PGSIZE. intros. divlia. Qed.

Lemma stack_pages n s : space n s → n + 2 * PGSIZE ≤ TRAPFRAME →
  uvm_alloc root n (n + 2 * PGSIZE) s = Panic alloc_error ∨
  ∃ s1 m1, uvm_alloc root n (n + 2 * PGSIZE) s = Done (Some (n + 2 * PGSIZE), s1) ∧ uvm_clear root n (pmem s1) = Done m1 ∧ stacked n s (with_mem s1 m1).
Proof using BFlL.
  intros Hs Hn. destruct (sp_size _ _ _ _ Hs) as [Hal Hsz]. assert (TRAPFRAME < 2 ^ 39) as Htf by by vm_compute.
  assert ((n + 2 * PGSIZE) mod PGSIZE = 0) as Hal2 by (unfold PGSIZE in *; divlia).
  destruct (uvm_alloc_ok (pheap s0) root n (n + 2 * PGSIZE) s) as [?|(s1 & Hrun & Hg)]; rewrite ?page_up_aligned in * by done;
    [unfold PGSIZE in *; lia|done|done|by left|].
  destruct (uvm_clear_ok (pheap s0) root (n + 2 * PGSIZE) s1 n) as (pte & m1 & Hclear & Hpte & [Hs1 Hb1] & Hk1 & Hm1);
    [apply Hg|unfold PGSIZE in *; lia|done|].
  right. exists s1, m1. split; [done|]. split; [done|]. destruct Hg as [G1 G2 G3 G4 G5 G6].
  assert (∀ v, page_of v = n ↔ n ≤ v < n + PGSIZE) as Hpg by (intros v; unfold page_of, PGSIZE in *; divlia).
  split; cbn [pmem with_mem]; [done|by apply (keeps_trans _ _ s1)|..].
  - intros a Ha. rewrite Hb1, G3 by (unfold PGSIZE in *; lia). done.
  - intros v Hv Hout. rewrite Hm1 by done. rewrite decide_False by (rewrite Hpg; unfold PGSIZE in *; lia). by apply G5.
  - intros v Hv. rewrite Hm1 by (unfold PGSIZE in *; lia). rewrite decide_True by (by apply Hpg). exists (rm_user_bit pte). split; [done|].
    destruct (translate_mapping root n (pmem s1) pte) as (e & _ & <- & _); [by transitivity TRAPFRAME; [unfold PGSIZE in *; lia|vm_compute]|done|].
    apply (rm_user_bit_ok _ (read_word_range _ _)).
  - intros v Hv. rewrite Hm1 by (unfold PGSIZE in *; lia). rewrite decide_False by (rewrite Hpg; unfold PGSIZE in *; lia). apply G6. unfold PGSIZE in *; lia.
Qed.

(** Strings and pointers are on the stack. *)
Record argued (n : Z) (s : pstate H) (args : list (list Z)) (m : mem) : Prop := {
  ar_space : space n (with_mem s m);
  ar_map v : mapping m root v = mapping (pmem s) root v;
  ar_rest a : 0 ≤ a < argv_sp n args → user_byte m root a = user_byte (pmem s) root a;
  ar_string j q x : arg_sps n args !! j = Some q → args !! j = Some x → ∀ i, 0 ≤ i ≤ Z.of_nat (length x) → user_byte m root (q + i) = Some (nth (Z.to_nat i) x 0);
  ar_pointer j q : (arg_sps n args ++ [0]) !! j = Some q → ∀ i, 0 ≤ i < 8 → user_byte m root (argv_sp n args + 8 * Z.of_nat j + i) = Some (q / 256 ^ i mod 256);
  ar_keeps x : ps_page (pheap s0) (page_of x) → ¬ scratch x → m x = pmem s x;
}.

Lemma store_bytes_out m dst bs x : ¬ (dst ≤ x < dst + Z.of_nat (length bs)) → store_bytes m dst bs x = m x.
Proof using. intros Hx. unfold store_bytes. destruct (Z.leb_spec dst x), (Z.ltb_spec x (dst + Z.of_nat (length bs))); (done || lia). Qed.

Lemma store_bytes_in m dst bs i : 0 ≤ i < Z.of_nat (length bs) → store_bytes m dst bs (dst + i) = nth (Z.to_nat i) bs 0.
Proof using.
  intros Hi. unfold store_bytes. rewrite (proj2 (Z.leb_le _ _)), (proj2 (Z.ltb_lt _ _)) by lia. cbn. do 2 f_equal. lia.
Qed.

Lemma argv_below n args : n mod PGSIZE = 0 → argv_sp n args + (Z.of_nat (length args) + 1) * 8 ≤ args_end n args ∧ argv_sp n args + (Z.of_nat (length args) + 1) * 8 < n.
Proof using.
  intros Hn. unfold argv_sp. pose proof (args_end_le n args). destruct args as [|x args]; [cbn in *; unfold PGSIZE in *; divlia|]. cbn [length] in *. divlia.
Qed.

Lemma argv_pushed n s args m :
  pushed (pheap s0) root n s args m → 0 ≤ argv_sp n args → Z.of_nat (length args) < MAXARG →
  (∀ x, kbuf ≤ x < kbuf + 8 * MAXARG → ps_page (pheap s0) (page_of x)) →
  ∃ m', copy_out root (argv_sp n args) kbuf ((Z.of_nat (length args) + 1) * 8) (store_bytes m kbuf (encode_u64s (arg_sps n args ++ [0]))) = Done (Ok tt, m') ∧
    argued n s args m'.
Proof using.
  intros [P1 P2 P3 P4 P5] H0 Hnum Hbuf. destruct (sp_size _ _ _ _ P1) as [Hal Hsz]. destruct (argv_below n args Hal) as [B1 B2]. pose proof (args_end_le n args) as Hle.
  set (bs := encode_u64s (arg_sps n args ++ [0])). assert (Z.of_nat (length bs) = (Z.of_nat (length args) + 1) * 8) as Hbs.
  { unfold bs. rewrite length_encode_u64s, length_app, length_arg_sps. cbn. lia. }
  destruct (outside_written (pheap s0) root n (with_mem s m) (store_bytes m kbuf bs) P1) as [[Hs1 Hb1] Hm1].
  { intros x Hx. apply store_bytes_out. intros Hin. apply Hx, Hbuf. lia. }
  set (s1 := with_mem (with_mem s m) (store_bytes m kbuf bs)) in *. rewrite <- Hbs in *.
  destruct (copy_out_filled (pheap s0) root n s1 (argv_sp n args) kbuf (Z.of_nat (length bs)) Hs1) as (m' & Hrun & [F1 F2 F3 F4 F5]);
    [done|lia|done|intros x Hx; apply Hbuf; lia|].
  exists m'. split; [exact Hrun|]. cbn [pmem with_mem s1] in *. split.
  - exact F1.
  - intros v. by rewrite F5, Hm1, P3.
  - intros a Ha. rewrite F4, Hb1 by lia. apply P5. lia.
  - intros j q x Hq Hx i Hi. destruct (arg_sps_bounds _ _ _ _ _ Hq Hx). rewrite F4, Hb1 by lia. by apply (P4 j q x).
  - intros j q Hq i Hi. assert (j < S (length args))%nat as Hj by (apply lookup_lt_Some in Hq; rewrite length_app, length_arg_sps in Hq; cbn in Hq; lia).
    rewrite F3 by lia. rewrite store_bytes_in by lia. f_equal.
    replace (Z.to_nat _) with (8 * j + Z.to_nat i)%nat by lia. unfold bs. rewrite (nth_encode_u64s _ j q) by (done || lia). rewrite Z2Nat.id by lia. by apply Z.mod_mod.
  - intros x Hx Hns. pose proof (kp_frame _ _ _ F2 x Hx) as E. unfold s1 in E. cbn [pmem with_mem] in E. rewrite E, store_bytes_out by (unfold scratch in Hns; lia).
    by apply (kp_frame _ _ _ P2).
Qed.

(** The program with [n] bytes of memory is ready to run with its arguments. *)
Record ready (n entry : Z) (args : list (list Z)) (s s' : pstate H) : Prop := {
  rd_space : space (n + 2 * PGSIZE) s';
  rd_bytes a : 0 ≤ a < n → user_byte (pmem s') root a = user_byte (pmem s) root a;
  rd_map v : 0 ≤ v < 2 ^ 39 → ¬ (n ≤ v < n + 2 * PGSIZE) → mapping (pmem s') root v = mapping (pmem s) root v;
  rd_guard v : n ≤ v < n + PGSIZE → ∃ pte, mapping (pmem s') root v = Some pte ∧ Z.testbit pte 4 = false;
  rd_stack v : n + PGSIZE ≤ v < n + 2 * PGSIZE → as_flags <$> mapping (pmem s') root v = Some (Z.lor USER_FLAGS PTE_V);
  rd_string j q x : arg_sps (n + 2 * PGSIZE) args !! j = Some q → args !! j = Some x →
    ∀ i, 0 ≤ i ≤ Z.of_nat (length x) → user_byte (pmem s') root (q + i) = Some (nth (Z.to_nat i) x 0);
  rd_pointer j q : (arg_sps (n + 2 * PGSIZE) args ++ [0]) !! j = Some q →
    ∀ i, 0 ≤ i < 8 → user_byte (pmem s') root (argv_sp (n + 2 * PGSIZE) args + 8 * Z.of_nat j + i) = Some (q / 256 ^ i mod 256);
  rd_regs : Tf.get (pmem s') tf Tf.epc = entry ∧ Tf.get (pmem s') tf Tf.sp = argv_sp (n + 2 * PGSIZE) args ∧ Tf.get (pmem s') tf Tf.a1 = argv_sp (n + 2 * PGSIZE) args;
  rd_kept : kept s0 (pmem s');
}.

(** The registers in the trap frame. *)
Definition regs_put (m : mem) (entry sp : Z) : mem := Tf.put (Tf.put (Tf.put m tf Tf.a1 sp) tf Tf.epc entry) tf Tf.sp sp.

Lemma tf_put_out m o v x : 0 ≤ o → o + 8 ≤ PGSIZE → ¬ in_page tf x → Tf.put m tf o v x = m x.
Proof using. intros H1 H2 Hx. unfold Tf.put. apply write_word_other. unfold in_page in Hx. lia. Qed.

Lemma regs_put_out m entry sp x : ¬ in_page tf x → regs_put m entry sp x = m x.
Proof using. intros Hx. unfold regs_put. by rewrite !tf_put_out. Qed.

Lemma regs_put_get m entry sp : 0 ≤ entry < 2 ^ 64 → 0 ≤ sp < 2 ^ 64 →
  Tf.get (regs_put m entry sp) tf Tf.epc = entry ∧ Tf.get (regs_put m entry sp) tf Tf.sp = sp ∧ Tf.get (regs_put m entry sp) tf Tf.a1 = sp.
Proof using.
  intros He Hs. unfold regs_put. split; [|split].
  - rewrite tf_get_put_ne by (unfold Tf.sp, Tf.epc; lia). by apply tf_get_put.
  - by apply tf_get_put.
  - rewrite !tf_get_put_ne by (unfold Tf.sp, Tf.epc, Tf.a1; lia). by apply tf_get_put.
Qed.

Lemma ready_ok n entry args s s1 m :
  page_ok tf → ps_page (pheap s0) tf → keeps (pheap s0) s0 s → stacked n s s1 → argued (n + 2 * PGSIZE) s1 args m →
  n + PGSIZE ≤ argv_sp (n + 2 * PGSIZE) args → 0 ≤ n → 0 ≤ entry < 2 ^ 64 →
  ready n entry args s (with_mem s1 (regs_put m entry (argv_sp (n + 2 * PGSIZE) args))).
Proof using.
  intros Htf Htu Hk [K1 K2 K3 K4 K5 K6] [A1 A2 A3 A4 A5 A6] Hsp Hn He. set (sp := argv_sp (n + 2 * PGSIZE) args) in *.
  destruct (sp_size _ _ _ _ K1) as [Hal Hsz]. destruct (argv_below _ args Hal) as [_ B2]. fold sp in B2. assert (TRAPFRAME < 2 ^ 39) as Hmax by by vm_compute.
  destruct (outside_written (pheap s0) root (n + 2 * PGSIZE) (with_mem s1 m) (regs_put m entry sp) A1) as [[Hs Hb] Hm].
  { intros x Hx. apply regs_put_out. intros Hin. apply in_page_of in Hin; [|apply Htf]. by rewrite Hin in Hx. }
  cbn [pmem with_mem] in *. split; cbn [pmem with_mem].
  - exact Hs.
  - intros a Ha. rewrite Hb, A3, K3 by (unfold PGSIZE in *; lia). done.
  - intros v Hv Hout. rewrite Hm, A2. by apply K4.
  - intros v Hv. rewrite Hm, A2. by apply K5.
  - intros v Hv. rewrite Hm, A2. by apply K6.
  - intros j q x Hq Hx i Hi. destruct (arg_sps_bounds _ _ _ _ _ Hq Hx) as [Q1 Q2]. rewrite Hb; [by apply (A4 j q x)|].
    pose proof (proj1 (argv_below _ args Hal)). fold sp in H0. unfold PGSIZE in *. lia.
  - intros j q Hq i Hi. assert (j < S (length args))%nat as Hj by (apply lookup_lt_Some in Hq; rewrite length_app, length_arg_sps in Hq; cbn in Hq; lia).
    rewrite Hb by (unfold PGSIZE in *; lia). by apply A5.
  - apply regs_put_get; [done|]. unfold PGSIZE in *. lia.
  - intros x Hx Hns. rewrite regs_put_out by (unfold scratch in Hns; naive_solver). rewrite A6 by done.
    rewrite (kp_frame _ _ _ K2), (kp_frame _ _ _ Hk) by done. done.
Qed.

(** ** [exec_stack] *)

#[local] Opaque uvm_clear push_args copy_out proc_free_pagetable.

Context {D : Type} {BD : BlockDevice D} {BF : BitField} {PF : PageFree H} (me : nat) (log_chan : Z).
Abbreviation kernel := (@kernel D H).

(** The name of the program, as long as the array in the process. *)
Definition name_ok (path : list Z) : Prop := 16 ≤ Z.of_nat (length (filter (λ ch, ch ≠ SLASH) path)).

(** The process with the new program. *)
Definition new_data (path : list Z) (size : Z) (x : ProcData) : ProcData :=
  set_psize size (set_pagetable (Some root)
    (mkPData (kstack x) (p_size x) (p_pagetable x) (p_trapframe x) (p_context x) (put_bytes (p_name x) 0 (take 16 (filter (λ ch, ch ≠ SLASH) path)))
       (p_parent x) (open_files x) (p_cwd x))).

Lemma set_name_ok path x : name_ok path → ∃ x', set_name (take 16 (filter (λ ch, ch ≠ SLASH) path)) x = Done x' ∧ p_pagetable x' = p_pagetable x ∧
  ∀ size, set_psize size (set_pagetable (Some root) x') = new_data path size x.
Proof using.
  intros Hn. unfold set_name. rewrite (proj2 (Z.ltb_ge _ _)) by (rewrite length_take; lia). by eexists.
Qed.

(** The pointers that are copied. *)
Lemma user_stack_take n args : Z.of_nat (length args) < MAXARG →
  take (Z.to_nat (Z.of_nat (length args) + 1)) (<[length args := 0]> (user_stack_of n args)) = arg_sps n args ++ [0].
Proof using.
  intros Hl. unfold user_stack_of. rewrite insert_app_r_alt, length_arg_sps, Nat.sub_diag by (by rewrite length_arg_sps).
  destruct (Z.to_nat MAXARG - length args)%nat as [|i] eqn:Ei; [unfold MAXARG in *; lia|]. change (<[0%nat := 0]> (replicate (S i) 0)) with ([0] ++ replicate i 0).
  rewrite app_assoc. apply take_app_length'. rewrite length_app, length_arg_sps. cbn. lia.
Qed.

(** Where the parts of [exec_stack] lead. *)
Lemma exec_stack_eq size n argv path elf (k : kernel) p old args s1 m1 m2 m4 :
  let top := n + 2 * PGSIZE in let sp := argv_sp top args in let x := pdata p in
  page_round_up size = Done n → 0 ≤ n → top < 2 ^ 64 → procs (k_pm k) !! me = Some p → p_pagetable x = Some old → p_trapframe x = tf → name_ok path →
  uvm_alloc root n top (k_ps k) = Done (Some top, s1) → uvm_clear root n (pmem s1) = Done m1 →
  push_args root (top - PGSIZE) top top argv m1 = Done (inr (Z.of_nat (length args), args_end top args, user_stack_of top args, m2)) →
  Z.of_nat (length args) < MAXARG → top - PGSIZE ≤ sp →
  copy_out root sp kbuf ((Z.of_nat (length args) + 1) * 8) (store_bytes m2 kbuf (encode_u64s (arg_sps top args ++ [0]))) = Done (Ok tt, m4) →
  proc_free_pagetable old (p_size x) (Tf.put m4 tf Tf.a1 sp) = Done (Tf.put m4 tf Tf.a1 sp) →
  exec_stack me kbuf log_chan root size argv path elf k =
    (h ← free_page old (pheap s1);
     Done (Ok (Z.of_nat (length args)), with_ps (upd_me me (λ q, with_pdata q (new_data path top x)) k) (mkP (regs_put m4 (e_entry elf) sp) h))).
Proof using.
  intros top sp x Hup Hn0 Htop Hp Hold Htf Hname Halloc Hclear Hpush Hnum Hsp Hcopy Hfree. unfold PGSIZE in *.
  pose proof (args_end_le top args) as Hle. assert (0 ≤ args_end top args - (Z.of_nat (length args) + 1) * 8 < 2 ^ 64) as Hrng by (unfold sp, argv_sp in Hsp; divlia).
  unfold exec_stack, my_proc, get_proc. rewrite Hp. cbn [unwrap]. rewrite bind_Done_l. cbv zeta. rewrite Hup, bind_Done_l. rewrite (uadd_ok n), bind_Done_l by (unfold PGSIZE; lia).
  change (n + 2 * PGSIZE) with top. rewrite Halloc, bind_Done_l. rewrite (usub_ok top (2 * PGSIZE)), bind_Done_l by (unfold top, PGSIZE; lia).
  replace (top - 2 * PGSIZE) with n by (unfold top, PGSIZE; lia). change (kmem (with_ps k s1)) with (pmem s1). rewrite Hclear, bind_Done_l.
  rewrite (usub_ok top PGSIZE), bind_Done_l by (unfold top, PGSIZE; lia). change (top - PGSIZE) with (top - 4096). rewrite Hpush, bind_Done_l.
  rewrite Nat2Z.id. destruct (lookup_lt_is_Some_2 (user_stack_of top args) (length args)) as [y Hy].
  { unfold user_stack_of. rewrite length_app, length_arg_sps, length_replicate. unfold MAXARG in *. lia. }
  rewrite Hy. cbn [unwrap]. rewrite bind_Done_l. rewrite (uadd_ok (Z.of_nat (length args)) 1), bind_Done_l by (unfold MAXARG in *; lia).
  rewrite (umul_ok (Z.of_nat (length args) + 1)), bind_Done_l by (unfold MAXARG in *; lia). rewrite (usub_ok (args_end top args)), bind_Done_l by done.
  rewrite align_sp_ok, bind_Done_l by done. fold (argv_sp top args). fold sp. rewrite (proj2 (Z.ltb_ge sp (top - 4096)) Hsp), bind_Done_l.
  change (kmem (with_kmem (with_ps k s1) m2)) with m2. rewrite user_stack_take, Hcopy, bind_Done_l by done.
  change (k_pm (with_kmem (with_ps k s1) m2)) with (k_pm k). rewrite Hp. cbn [unwrap]. rewrite bind_Done_l. rewrite (proj2 (Z.ltb_ge _ _)) by done.
  destruct (set_name_ok path (pdata p) Hname) as (x' & -> & Hpt & Hnew). rewrite bind_Done_l, Hpt. fold x. rewrite Hold. cbn [unwrap].
  rewrite bind_Done_l, Htf, Hfree, bind_Done_l, Hnew. unfold drop_table. cbn [pheap with_mem with_kmem with_ps k_ps].
  by destruct (free_page old (pheap s1)).
Qed.

(** The second half of [exec]: the allocator gives up, or the program is ready
    and belongs to the process. *)
Lemma exec_stack_ok size argv path elf (k : kernel) p old args :
  let n := page_up size in let top := n + 2 * PGSIZE in
  old_image old (p_size (pdata p)) s0 → keeps (pheap s0) s0 (k_ps k) → space n (k_ps k) → 0 ≤ size → top ≤ TRAPFRAME →
  procs (k_pm k) !! me = Some p → p_pagetable (pdata p) = Some old → p_trapframe (pdata p) = tf → name_ok path → 0 ≤ e_entry elf < 2 ^ 64 →
  args_ok (pheap s0) top (pmem s0) argv args → first_ok args →
  exec_stack me kbuf log_chan root size argv path elf k = Panic alloc_error ∨
  ∃ s', ready n (e_entry elf) args (k_ps k) s' ∧
    exec_stack me kbuf log_chan root size argv path elf k =
      (h ← free_page old (pheap s');
       Done (Ok (Z.of_nat (length args)), with_ps (upd_me me (λ q, with_pdata q (new_data path top (pdata p))) k) (mkP (pmem s') h))).
Proof using BFlL.
  intros n top Ho Hk Hs H0 Hmax Hp Hold Htf Hname He Ha Hfirst. assert (TRAPFRAME < 2 ^ 39) as Hlim by by vm_compute.
  destruct (sp_size _ _ _ _ Hs) as [Hal Hsz]. pose proof (le_page_up size) as Hup. fold n in Hup.
  assert (page_round_up size = Done n) as Hrnd by (apply page_round_up_ok; unfold PGSIZE in *; lia).
  destruct (stack_pages n (k_ps k) Hs Hmax) as [E|(s1 & m1 & Halloc & Hclear & Hst)].
  - left. unfold exec_stack, my_proc, get_proc. rewrite Hp. cbn [unwrap]. rewrite bind_Done_l, Hrnd, bind_Done_l. rewrite (uadd_ok n) by (unfold top, PGSIZE in *; lia).
    by rewrite bind_Done_l, E.
  - right. destruct (oi_frame _ _ _ Ho) as (Hto & Htu & _). pose proof (args_keeps _ top s0 (with_mem s1 m1) argv args Ha (keeps_trans _ _ _ _ Hk (sk_keeps _ _ _ Hst))) as Ha1.
    destruct (push_args_ok (pheap s0) root top (with_mem s1 m1) argv args (sk_space _ _ _ Hst)) as (m2 & Hpush & Hpu); [unfold top, PGSIZE in *; lia|done|done|].
    destruct Ha as [A1 _ _ A5]. destruct (argv_pushed top (with_mem s1 m1) args m2 Hpu) as (m4 & Hcopy & Har);
      [unfold top, PGSIZE in *; lia|done|intros x Hx; by apply (oi_buf _ _ _ Ho)|].
    pose proof (ready_ok n (e_entry elf) args (k_ps k) (with_mem s1 m1) m4 Hto Htu Hk Hst Har ltac:(fold top; unfold top, PGSIZE in *; lia) ltac:(lia) He) as Hrd.
    eexists. split; [exact Hrd|]. apply (exec_stack_eq size n argv path elf k p old args s1 m1 m2 m4); try done; [lia|unfold top in *; lia|].
    apply (proc_free_done old (p_size (pdata p)) s0); [done|]. intros x Hx Hns. rewrite tf_put_out by (unfold scratch in Hns; (done || naive_solver)).
    rewrite (ar_keeps _ _ _ _ Har), (kp_frame _ _ _ (sk_keeps _ _ _ Hst)), (kp_frame _ _ _ Hk) by done. done.
Qed.

(** The second half of [exec] panics on such a first argument. *)
Lemma exec_stack_first size argv path elf (k : kernel) p x args :
  let n := page_up size in let top := n + 2 * PGSIZE in
  keeps (pheap s0) s0 (k_ps k) → space n (k_ps k) → 0 ≤ size → top < TRAPFRAME → procs (k_pm k) !! me = Some p →
  args_ok (pheap s0) top (pmem s0) argv (x :: args) → (Z.of_nat (length x) + 1) mod 16 = 0 →
  exec_stack me kbuf log_chan root size argv path elf k = Panic alloc_error ∨ exec_stack me kbuf log_chan root size argv path elf k = Panic unwrap_none.
Proof using BFlL.
  intros n top Hk Hs H0 Hmax Hp Ha Hx. assert (TRAPFRAME < 2 ^ 39) as Hlim by by vm_compute.
  destruct (sp_size _ _ _ _ Hs) as [Hal Hsz]. pose proof (le_page_up size) as Hup. fold n in Hup.
  assert (page_round_up size = Done n) as Hrnd by (apply page_round_up_ok; unfold PGSIZE in *; lia).
  unfold exec_stack, my_proc, get_proc. rewrite Hp. cbn [unwrap]. rewrite bind_Done_l, Hrnd, bind_Done_l. rewrite (uadd_ok n) by (unfold top, PGSIZE in *; lia).
  rewrite bind_Done_l. change (n + 2 * PGSIZE) with top.
  destruct (stack_pages n (k_ps k) Hs ltac:(lia)) as [E|(s1 & m1 & Halloc & Hclear & Hst)]; [left; unfold top; by rewrite E|].
  right. unfold top in *. rewrite Halloc, bind_Done_l. cbv zeta. rewrite (usub_ok (n + 2 * PGSIZE) (2 * PGSIZE)), bind_Done_l by (unfold PGSIZE in *; lia).
  replace (n + 2 * PGSIZE - 2 * PGSIZE) with n by lia. change (kmem (with_ps k s1)) with (pmem s1). rewrite Hclear, bind_Done_l.
  rewrite (usub_ok (n + 2 * PGSIZE) PGSIZE), bind_Done_l by (unfold PGSIZE in *; lia).
  pose proof (args_keeps _ _ s0 (with_mem s1 m1) argv _ Ha (keeps_trans _ _ _ _ Hk (sk_keeps _ _ _ Hst))) as Ha1.
  pose proof (push_args_first (pheap s0) root (n + 2 * PGSIZE) (with_mem s1 m1) argv x args (sk_space _ _ _ Hst) ltac:(unfold PGSIZE in *; lia) Hmax Ha1 Hx) as Hpush.
  cbn [pmem with_mem] in Hpush. by rewrite Hpush.
Qed.
End Image.
