(* ===== verification/ExecTheorems.v ===== *)
(** * Correctness of [exec]

    The parts put together: the file is found, its segments are loaded into a new
    address space, the arguments go onto the stack, and the process continues in
    the new program. *)

From Stdlib Require Import ZArith Lia.
From stdpp Require Import base gmap strings numbers list.
From S2P Require Import Prelude Address Pte PhysMem PageTable PageTableSpec UserCopy PageTableTheorems UvmCopy Bytes Bio BioSpec BioCache.
From S2P Require Import BioClient DiskLayout Log LogSpec Bitmap Inode InodeSpec Path File Cpu Proc Kernel TrapTheorems ForkMemory Mkfs MkfsSpec.
From S2P Require Import MkfsImage MkfsMain MkfsRead MkfsTheorems Directory ExecMemory Exec ExecLoad ExecStack.

Local Open Scope Z_scope.

#[local] Opaque map uvm_alloc load_seg exec_stack for_range_until new_pagetable.

(** ** The file-system operation around the file *)

(** The log admits an operation, and nothing is logged while none is running. *)
Definition log_ready (l l1 : Log) : Prop :=
  begin_op l = Done (Some l1) ∧ 0 ≤ outstanding l ∧ (outstanding l = 0 → lh_len (lh l) ≤ 0).

Lemma log_op {D} {BD : BlockDevice D} {P} {WU : WakeUp P} chan l l1 : log_ready l l1 →
  ∀ (b : bstate D) (pm : P), end_op chan l1 b pm = Done (l, b, wake_up chan pm).
Proof.
  intros (Hb & Ho & Hl) b pm. unfold begin_op in Hb. destruct (committing l) eqn:Ec; [done|].
  destruct (u32add (outstanding l) 1) as [o| | |] eqn:Eo; try done. cbn [mbind outcome_bind] in Hb.
  assert (o = outstanding l + 1 ∧ o < 2 ^ 32) as [-> H32].
  { unfold u32add, chk in Eo. destruct (in_width 32 (outstanding l + 1)) eqn:Ew; [|done]. injection Eo as <-. split; [done|].
    unfold in_width in Ew. apply andb_prop in Ew as [_ Ew]. by apply Z.ltb_lt in Ew. }
  repeat match goal with H : context [uadd ?a ?b] |- _ => destruct (uadd a b); try done; cbn [mbind outcome_bind] in Hb
    | H : context [umul ?a ?b] |- _ => destruct (umul a b); try done; cbn [mbind outcome_bind] in Hb end.
  destruct (LOGSIZE <? _); [done|]. injection Hb as <-. unfold end_op. cbn [outstanding committing log_start log_size log_dev lh].
  rewrite u32sub_ok, bind_Done_l by lia. replace (outstanding l + 1 - 1) with (outstanding l) by lia. destruct (Z.eqb_spec (outstanding l) 0) as [E|E].
  - unfold commit. cbn [committing lh negb]. rewrite (proj2 (Z.ltb_ge _ _)) by auto. rewrite bind_Done_l. cbn. rewrite <- Ec. by destruct l.
  - rewrite <- Ec. by destruct l.
Qed.

(** ** The call *)

Section Exec.
Context {D : Type} {BD : BlockDevice D} {BDL : BlockDeviceLaws D} {BF : BitField} {BFl : BitFlags} {BFlL : BitFlagsLaws}.
Context {H : Type} {PS : PageSource H} {PSL : PageSourceLaws H} {PF : PageFree H}.
Context (me : nat) (kbuf log_chan tr : Z).
Abbreviation kernel := (@kernel D H).

(** The path leads to the file with the data [g], which can be locked and given
    back; [c] is what the disk holds. *)
Record opened (path : list Z) (cwd : option Inode) (ic : InodeCache) (d : dstate D) (c : Z → block) (L : list Z)
    (inode : Inode) (g : InodeData) (ic' : InodeCache) : Prop := {
  op_path : ∃ ic1 b1 ic2 b2, namei path cwd ic d = Done (Some inode, ic1, with_b d b1) ∧
    lock inode ic1 (with_b d b1) = Done (g, ic2, with_b d b2) ∧ disk b2 = disk (d_b d) ∧ quiet (id_dev g) b2 c L ∧
    ∀ d : dstate D, put inode (unlock (i_index inode) g ic2) d = Done (ic', d);
  op_buffers : (length L < NBUF)%nat;
}.

(** The path leads to an executable file: its header is [elf], its program headers
    are [phs], its bytes are in the blocks [f] of the disk [c]. *)
Record program_file (k : kernel) (path : list Z) (cwd : option Inode) (l1 : Log) (c : Z → block) (L : list Z) (f : Z → Z)
    (inode : Inode) (g : InodeData) (ic' : InodeCache) (elf : ElfHeader) (phs : list ProgHeader) : Prop := {
  pf_log : log_ready (d_log (k_d k)) l1;
  pf_file : opened path cwd (k_ic k) (mkD (d_sb (k_d k)) l1 (d_b (k_d k))) c L inode g ic';
  pf_elf : executable (id_dev g) g c f elf phs;
  pf_entry : 0 ≤ e_entry elf < 2 ^ 64;
}.

(** The process [p] with the page table [old] that calls [exec]. *)
Record caller (k : kernel) (p : Process) (old : Z) : Prop := {
  cl_proc : procs (k_pm k) !! me = Some p ∧ p_pagetable (pdata p) = Some old;
  cl_image : old_image kbuf (p_trapframe (pdata p)) old (p_size (pdata p)) (k_ps k);
  cl_tramp : 0 ≤ tr ∧ tr + PGSIZE < 2 ^ 64;
}.

(** The arguments [args], whose addresses are in [argv], for a program of [n]
    bytes: strings in memory of the kernel, fewer than [MAXARG] and with an array
    that ends in a null pointer, which fit on the page of the stack. *)
Definition exec_args (k : kernel) (argv : list Z) (args : list (list Z)) (n : Z) : Prop :=
  args_ok (pheap (k_ps k)) (page_up n + 2 * PGSIZE) (pmem (k_ps k)) argv args.

(** The program with the segments [ls] of the file and the arguments [args] in the
    page table [root], ready to run; the state was [s] before. *)
Record running (tf root entry : Z) (c : Z → block) (f : Z → Z) (ls : list ProgHeader) (args : list (list Z)) (s s' : pstate H) : Prop := {
  ru_space : space (pheap s) root (page_up (prog_size ls) + 2 * PGSIZE) s';
  ru_byte a : 0 ≤ a < page_up (prog_size ls) → user_byte (pmem s') root a = Some (prog_byte c f ls a);
  ru_flags v : 0 ≤ v < page_up (prog_size ls) → as_flags <$> mapping (pmem s') root v = Some (Z.lor USER_FLAGS PTE_V);
  ru_guard v : page_up (prog_size ls) ≤ v < page_up (prog_size ls) + PGSIZE → ∃ pte, mapping (pmem s') root v = Some pte ∧ Z.testbit pte 4 = false;
  ru_stack v : page_up (prog_size ls) + PGSIZE ≤ v < page_up (prog_size ls) + 2 * PGSIZE → as_flags <$> mapping (pmem s') root v = Some (Z.lor USER_FLAGS PTE_V);
  ru_top v : page_up (prog_size ls) + 2 * PGSIZE ≤ v < 2 ^ 39 → mapping (pmem s') root v = process_pages tr tf v;
  ru_string j q x : arg_sps (page_up (prog_size ls) + 2 * PGSIZE) args !! j = Some q → args !! j = Some x →
    ∀ i, 0 ≤ i ≤ Z.of_nat (length x) → user_byte (pmem s') root (q + i) = Some (nth (Z.to_nat i) x 0);
  ru_pointer j q : (arg_sps (page_up (prog_size ls) + 2 * PGSIZE) args ++ [0]) !! j = Some q →
    ∀ i, 0 ≤ i < 8 → user_byte (pmem s') root (argv_sp (page_up (prog_size ls) + 2 * PGSIZE) args + 8 * Z.of_nat j + i) = Some (q / 256 ^ i mod 256);
  ru_regs : let sp := argv_sp (page_up (prog_size ls) + 2 * PGSIZE) args in
    Tf.get (pmem s') tf Tf.epc = entry ∧ Tf.get (pmem s') tf Tf.sp = sp ∧ Tf.get (pmem s') tf Tf.a1 = sp;
  ru_kept : kept kbuf tf s (pmem s');
}.

Lemma running_ok tf root entry c f ls args s s1 s2 s' :
  loaded (pheap s) root c f s1 ls s2 → page_up (prog_size ls) + 2 * PGSIZE ≤ TRAPFRAME → 0 ≤ page_up (prog_size ls) →
  (∀ v, 0 ≤ v < 2 ^ 39 → mapping (pmem s1) root v = process_pages tr tf v) →
  ready kbuf tf s root (page_up (prog_size ls)) entry args s2 s' → running tf root entry c f ls args s s'.
Proof using.
  intros [L1 L2 L3 L4 L5] Htop Hpos Hpp [R1 R2 R3 R4 R5 R6 R7 R8 R9]. assert (TRAPFRAME < 2 ^ 39 ∧ TRAPFRAME mod PGSIZE = 0 ∧ TRAMPOLINE = TRAPFRAME + PGSIZE) as (Hlim & Hal & Htr) by by vm_compute.
  split; try done.
  - intros a Ha. rewrite R2 by done. by apply L3.
  - intros v Hv. rewrite R3 by (unfold PGSIZE in *; lia). by apply L4.
  - intros v Hv. rewrite R3 by (unfold PGSIZE in *; lia). destruct (decide (TRAPFRAME ≤ v)); [rewrite L5, Hpp by (unfold PGSIZE in *; lia); done|].
    rewrite (sp_none _ _ _ _ L1) by (unfold PGSIZE in *; lia). unfold process_pages.
    rewrite !decide_False; [done|..]; rewrite ?Htr; intros E; unfold page_of, PGSIZE in *; divlia.
Qed.

(** The address space before the first segment. *)
Lemma loaded_empty tf root c f s s1 :
  ps_inv (pheap s1) → pt_inv (pmem s1) root (pheap s1) → keeps (pheap s) s s1 → fresh_tree (pheap s) (pmem s1) root →
  (∀ v, 0 ≤ v < 2 ^ 39 → mapping (pmem s1) root v = process_pages tr tf v) → loaded (pheap s) root c f s1 [] s1.
Proof using.
  intros Hi Ht [Hk _] Hf Hm. assert (page_up (prog_size []) = 0) as E0 by by vm_compute.
  split; rewrite ?E0; [by apply (space_empty _ _ tr tf)|split; done|lia|lia|done].
Qed.

(** The kernel while the file is read: only the log, the cache of inodes, the
    buffers and the memory differ. *)
Definition reading (k : kernel) (l : Log) (ic : InodeCache) : kernel := with_ifs k ic (mkD (d_sb (k_d k)) l (d_b (k_d k))).

(** What the call leaves when the old page table has been given back. *)
Definition after_exec (k : kernel) (p : Process) (path : list Z) (root top : Z) (ic : InodeCache) (b : bstate D) (s : pstate H) : kernel :=
  with_ps (with_ifs (with_pm k (upd_proc me (λ q, with_pdata q (new_data root path top (pdata p))) (pm_wake_up log_chan (k_pm k))))
    ic (with_b (k_d k) b)) s.

(** The first half of [exec], put together. *)
Lemma exec_start k p path argv inode g elf l1 ic1 ic2 b1 b2 b3 hdr n :
  begin_op (d_log (k_d k)) = Done (Some l1) → procs (k_pm k) !! me = Some p →
  namei path (p_cwd (pdata p)) (k_ic k) (mkD (d_sb (k_d k)) l1 (d_b (k_d k))) = Done (Some inode, ic1, mkD (d_sb (k_d k)) l1 b1) →
  lock inode ic1 (mkD (d_sb (k_d k)) l1 b1) = Done (g, ic2, mkD (d_sb (k_d k)) l1 b2) →
  read_struct g 0 ELF_HEADER_SIZE (replicate (Z.to_nat ELF_HEADER_SIZE) 0) (mkD (d_sb (k_d k)) l1 b2) = Done (Ok n, g, mkD (d_sb (k_d k)) l1 b3, hdr) →
  decode_elf hdr = elf → e_magic elf = ELF_MAGIC →
  exec me kbuf log_chan tr path argv k =
    ('(pt, s1) ← new_pagetable tr (pdata p) (k_ps k);
     pt ← unwrap "Fail to alloc pagetable for current process." pt;
     r ← for_range_until 0 (e_phnum elf) (λ _, exec_segment kbuf log_chan pt inode)
           (0, e_phoff elf, replicate (Z.to_nat PROG_HEADER_SIZE) 0, g, at_state (reading k l1 ic2) b3 s1);
     match r with
     | inl (msg, k) => k ← k_put inode k; s ← drop_table pt (k_ps k); Done (Err msg, with_ps k s)
     | inr (size, _, _, g, k) =>
         k ← k_end_op log_chan (k_unlock inode g k);
         '(r, k) ← exec_stack me kbuf log_chan pt size argv path elf k;
         k ← k_put inode k;
         match r with
         | Ok argc => Done (Ok argc, k)
         | Err e => s ← drop_table pt (k_ps k); Done (Err e, with_ps k s)
         end
     end).
Proof using.
  intros Hb Hp Hn Hl Hr Hd Hm. unfold exec, k_begin_op. rewrite Hb, !bind_Done_l. unfold k_namei, my_proc, get_proc.
  match goal with |- context [procs ?t !! me] => change (procs t !! me) with (procs (k_pm k) !! me) end. rewrite Hp. cbn [unwrap]. rewrite bind_Done_l.
  change (k_ic (with_ifs _ ?i _)) with i. change (k_d (with_ifs _ _ ?d)) with d. rewrite Hn, !bind_Done_l. unfold k_lock.
  change (k_ic (with_ifs _ ?i _)) with i. change (k_d (with_ifs _ _ ?d)) with d. rewrite Hl, !bind_Done_l.
  change (k_d (with_ifs _ _ ?d)) with d. rewrite Hr, bind_Done_l. cbv zeta. rewrite Hd, Hm, Z.eqb_refl. cbn [negb].
  match goal with |- context [procs ?t !! me] => change (procs t !! me) with (procs (k_pm k) !! me) end. rewrite Hp. cbn [unwrap]. rewrite bind_Done_l.
  match goal with |- context [new_pagetable tr ?x ?t] => change (new_pagetable tr x t) with (new_pagetable tr (pdata p) (k_ps k)) end. done.
Qed.

(** The second half. *)
Lemma exec_end k p path argv inode g elf l1 ic2 ic3 b s pt size argc old s' top :
  procs (k_pm k) !! me = Some p →
  (∀ b (pm : ProcManager), end_op log_chan l1 b pm = Done (d_log (k_d k), b, wake_up log_chan pm)) →
  (∀ d : dstate D, put inode (unlock (i_index inode) g ic2) d = Done (ic3, d)) →
  let k5 := with_ps (with_pm (with_ifs k (unlock (i_index inode) g ic2) (with_b (k_d k) b)) (pm_wake_up log_chan (k_pm k))) s in
  ∀ o, exec_stack me kbuf log_chan pt size argv path elf k5 = o →
  let r := (k ← k_end_op log_chan (k_unlock inode g (at_state (reading k l1 ic2) b s));
     '(r, k) ← exec_stack me kbuf log_chan pt size argv path elf k;
     k ← k_put inode k;
     match r with
     | Ok argc => Done (Ok argc, k)
     | Err e => s ← drop_table pt (k_ps k); Done (Err e, with_ps k s)
     end) in
  (∀ e, o = Panic e → r = Panic e) ∧
  (o = (h ← free_page old (pheap s');
        Done (Ok argc, with_ps (upd_me me (λ q, with_pdata q (new_data pt path top (pdata p))) k5) (mkP (pmem s') h))) →
   r = (h ← free_page old (pheap s'); Done (Ok argc, after_exec k p path pt top ic3 b (mkP (pmem s') h)))).
Proof using.
  intros Hp Hend Hput k5 o Hstack r. assert (r = ('(r, k) ← o; k ← k_put inode k;
     match r with
     | Ok argc => Done (Ok argc, k)
     | Err e => s ← drop_table pt (k_ps k); Done (Err e, with_ps k s)
     end)) as ->.
  { unfold r, k_end_op. match goal with |- context [end_op log_chan ?l ?b ?pm] => change (end_op log_chan l b pm) with (end_op log_chan l1 b (k_pm k)) end.
    rewrite Hend, !bind_Done_l. rewrite <- Hstack. done. }
  split; [by intros e ->|]. intros ->. destruct (free_page old (pheap s')) as [h| | |]; [|done..]. rewrite !bind_Done_l. unfold k_put.
  match goal with |- context [put inode ?i ?d] => change (put inode i d) with (put inode (unlock (i_index inode) g ic2) (with_b (k_d k) b)) end.
  rewrite Hput, !bind_Done_l. done.
Qed.

(** The kernel when the file has been read. *)
Definition program_read (k : kernel) (inode : Inode) (g : InodeData) (ic : InodeCache) (b : bstate D) (s : pstate H) : kernel :=
  with_ps (with_pm (with_ifs k (unlock (i_index inode) g ic) (with_b (k_d k) b)) (pm_wake_up log_chan (k_pm k))) s.

(** The call up to the stack: the segments that the loop gets to are loaded, and
    what the rest of the call does decides. *)
Lemma exec_loaded k p old path argv l1 c L f inode g ic' elf phs :
  program_file k path (p_cwd (pdata p)) l1 c L f inode g ic' elf phs → caller k p old →
  exec me kbuf log_chan tr path argv k = Panic alloc_error ∨
  ∃ root ic b s1 s, let k5 := program_read k inode g ic b s in
    let o := exec_stack me kbuf log_chan root (prog_size (segments_read phs)) argv path elf k5 in
    keeps (pheap (k_ps k)) (k_ps k) s1 ∧ (∀ v, 0 ≤ v < 2 ^ 39 → mapping (pmem s1) root v = process_pages tr (p_trapframe (pdata p)) v) ∧
    loaded (pheap (k_ps k)) root c f s1 (segments_read phs) s ∧ disk b = disk (d_b (k_d k)) ∧ quiet (id_dev g) b c L ∧
    procs (k_pm k5) !! me = Some (wake_one log_chan p) ∧
    (∀ e, o = Panic e → exec me kbuf log_chan tr path argv k = Panic e) ∧
    (∀ argc s' top,
       o = (h ← free_page old (pheap s');
            Done (Ok argc, with_ps (upd_me me (λ q, with_pdata q (new_data root path top (pdata p))) k5) (mkP (pmem s') h))) →
       exec me kbuf log_chan tr path argv k =
         (h ← free_page old (pheap s'); Done (Ok argc, after_exec k p path root top ic' b (mkP (pmem s') h)))).
Proof using BDL BFlL PSL.
  intros [Hlog [Hfile HL] Helf Hent] [[Hp Hold] Hold' [Htr Htr']]. set (tf := p_trapframe (pdata p)) in *.
  pose proof (log_op (D := D) (P := ProcManager) log_chan _ _ Hlog) as Hend. destruct Hfile as (ic1 & b1 & ic2 & b2 & Hn & Hl & Hd2 & Hq2 & Hput).
  destruct (ex_header _ _ _ _ _ _ Helf) as (Hdec & Hhs & Hmagic).
  destruct (read_struct_ok (id_dev g) g c f elf phs Helf L HL 0 ELF_HEADER_SIZE (replicate (Z.to_nat ELF_HEADER_SIZE) 0) (mkD (d_sb (k_d k)) l1 b2))
    as (b3 & Hread & Hd3 & Hq3); [done|done|done|done|done|].
  rewrite (exec_start k p path argv inode g elf l1 ic1 ic2 b1 b2 b3 _ _ (proj1 Hlog) Hp Hn Hl Hread Hdec Hmagic).
  destruct (oi_frame _ _ _ _ _ Hold') as (Hto & Htu & _).
  destruct (new_pagetable_ok tr (pdata p) (k_ps k)) as [->|(pt & s1 & -> & Hi1 & Ht1 & Hk1 & Hf1 & Hm1)]; [apply Hold'|done|done|done|by left|].
  rewrite bind_Done_l. cbn [unwrap]. rewrite bind_Done_l. pose proof (loaded_empty tf pt c f (k_ps k) s1 Hi1 Ht1 Hk1 Hf1 Hm1) as Hld.
  destruct (exec_loop (id_dev g) (pheap (k_ps k)) pt kbuf log_chan g c f elf phs Helf L HL inode s1 (reading k l1 ic2) b3 s1 Hq3 Hld)
    as [->|(off & ph & b4 & s4 & -> & Hd4 & Hq4 & Hld4)]; [by left|]. rewrite bind_Done_l. cbv iota beta.
  right. exists pt, ic2, b4, s1, s4. cbv zeta. split; [done|]. split; [done|]. split; [done|]. split; [cbn in Hd2, Hd3; congruence|]. split; [done|].
  split; [change (procs (k_pm (program_read k inode g ic2 b4 s4))) with (wake_one log_chan <$> procs (k_pm k)); by rewrite list_lookup_fmap, Hp|].
  split.
  - intros e E. by apply (exec_end k p path argv inode g elf l1 ic2 ic' b4 s4 pt _ 0 old s4 0 Hp Hend Hput _ E).
  - intros argc s' top E. by apply (exec_end k p path argv inode g elf l1 ic2 ic' b4 s4 pt _ argc old s' top Hp Hend Hput _ E).
Qed.

Lemma wake_pdata ch p : pdata (wake_one ch p) = pdata p.
Proof using. unfold wake_one. by case_match. Qed.

(** The call as a whole. *)
Lemma exec_ok k p old path argv args l1 c L f inode g ic' elf phs
    (Hfile : program_file k path (p_cwd (pdata p)) l1 c L f inode g ic' elf phs) (Hcall : caller k p old) (Hname : name_ok path)
    (Hargs : exec_args k argv args (prog_size (segments_read phs))) (Hfirst : first_ok args) :
  let top := page_up (prog_size (segments_read phs)) + 2 * PGSIZE in
  exec me kbuf log_chan tr path argv k = Panic alloc_error ∨
  ∃ root b' s', running (p_trapframe (pdata p)) root (e_entry elf) c f (segments_read phs) args (k_ps k) s' ∧
    disk b' = disk (d_b (k_d k)) ∧ quiet (id_dev g) b' c L ∧
    exec me kbuf log_chan tr path argv k =
      (h ← free_page old (pheap s'); Done (Ok (Z.of_nat (length args)), after_exec k p path root top ic' b' (mkP (pmem s') h))).
Proof using BDL BFlL PSL.
  intros top. destruct (exec_loaded k p old path argv l1 c L f inode g ic' elf phs Hfile Hcall)
    as [E|(root & ic & b & s1 & s & Hk & Hm & Hld & Hd & Hq & Hp & Hpanic & Hdone)]; [by left|].
  destruct Hfile as [_ _ Helf Hent], Hcall as [[_ Hold] Himg _]. set (tf := p_trapframe (pdata p)) in *.
  destruct (prog_size_bounds _ _ (segments_read_ok _ _ (ex_segments _ _ _ _ _ _ Helf))) as [Hps Htop]. pose proof (le_page_up (prog_size (segments_read phs))) as Hup.
  destruct (exec_stack_ok kbuf tf (k_ps k) root me log_chan (prog_size (segments_read phs)) argv path elf (program_read k inode g ic b s) (wake_one log_chan p) old args)
    as [E|(s' & Hrd & E)]; rewrite ?wake_pdata; try done.
  { apply (keeps_trans _ _ s1); [done|apply Hld]. }
  { apply Hld. }
  - left. by apply Hpanic.
  - right. exists root, b, s'. rewrite wake_pdata in E. split; [by apply (running_ok tf root (e_entry elf) c f _ args (k_ps k) s1 s); (done || lia)|].
    split; [done|]. split; [done|]. by apply Hdone.
Qed.

(** C3 [exec] replaces the program of a process.  Let the path lead to an
    executable file in which no loadable program header stands behind one of
    another type, let the path buffer have at least 16 characters that are not
    slashes, and let the arguments be fewer than 32 strings that fit on the stack's
    page, the first of which does not have a length, with its null, that is a
    multiple of 16.  Then the call runs out of memory, or a new page table holds at
    every address the byte of the file that the last of its loadable segments has
    there, and zeros elsewhere; above lie a guard page that is not for the user and
    a stack with the strings of the arguments and the array of pointers to them; the
    trap frame starts the program at its entry with [sp] and [a1] at that array,
    and the result is the number of arguments.  All its pages are new, the pages in
    use keep their bytes except for the kernel stack and the trap frame, the disk
    does not change, and only then is the old page table given back.
    ([exec_skips_segments] and [exec_first_argument] show what happens to other
    headers and arguments.) *)
Theorem exec_correct k p old path argv args l1 c L f inode g ic' elf phs
    (Hfile : program_file k path (p_cwd (pdata p)) l1 c L f inode g ic' elf phs) (Horder : loadable_first phs)
    (Hcall : caller k p old) (Hname : name_ok path)
    (Hargs : exec_args k argv args (prog_size (segments phs))) (Hfirst : first_ok args) :
  let top := page_up (prog_size (segments phs)) + 2 * PGSIZE in
  exec me kbuf log_chan tr path argv k = Panic alloc_error ∨
  ∃ root b' s', running (p_trapframe (pdata p)) root (e_entry elf) c f (segments phs) args (k_ps k) s' ∧
    disk b' = disk (d_b (k_d k)) ∧ quiet (id_dev g) b' c L ∧
    exec me kbuf log_chan tr path argv k =
      (h ← free_page old (pheap s'); Done (Ok (Z.of_nat (length args)), after_exec k p path root top ic' b' (mkP (pmem s') h))).
Proof using BDL BFlL PSL. rewrite <- (segments_read_all phs Horder) in *. by apply (exec_ok k p old path argv args l1 c L f inode g ic' elf phs). Qed.

(** A loadable segment behind a header of another type is not loaded: the loop
    reads that header again and again, and the program that is started has the
    segments before it and nothing else. *)
Theorem exec_skips_segments k p old path argv args l1 c L f inode g ic' elf ls h rest
    (Hfile : program_file k path (p_cwd (pdata p)) l1 c L f inode g ic' elf (ls ++ h :: rest))
    (Hls : Forall (λ h, ph_type h = ELF_PROG_LOAD) ls) (Hh : ph_type h ≠ ELF_PROG_LOAD)
    (Hcall : caller k p old) (Hname : name_ok path) (Hargs : exec_args k argv args (prog_size ls)) (Hfirst : first_ok args) :
  let top := page_up (prog_size ls) + 2 * PGSIZE in
  exec me kbuf log_chan tr path argv k = Panic alloc_error ∨
  ∃ root b' s', running (p_trapframe (pdata p)) root (e_entry elf) c f ls args (k_ps k) s' ∧
    exec me kbuf log_chan tr path argv k =
      (h ← free_page old (pheap s'); Done (Ok (Z.of_nat (length args)), after_exec k p path root top ic' b' (mkP (pmem s') h))).
Proof using BDL BFlL PSL.
  assert (segments_read (ls ++ h :: rest) = ls) as E.
  { rewrite segments_read_app by done. cbn. by rewrite (proj2 (Z.eqb_neq _ _)), app_nil_r by done. }
  intros top. pose proof (exec_ok k p old path argv args l1 c L f inode g ic' elf (ls ++ h :: rest)) as Hex. rewrite E in Hex.
  destruct (Hex Hfile Hcall Hname Hargs Hfirst) as [?|(root & b' & s' & Hrn & _ & _ & Hrun)]; [by left|]. right. by exists root, b', s'.
Qed.

(** A first argument whose length with its null is a multiple of 16 ends right at
    the top of the stack, and the kernel panics while it copies it. *)
Theorem exec_first_argument k p old path argv x args l1 c L f inode g ic' elf phs
    (Hfile : program_file k path (p_cwd (pdata p)) l1 c L f inode g ic' elf phs) (Hcall : caller k p old)
    (Hargs : exec_args k argv (x :: args) (prog_size (segments_read phs))) (Hx : (Z.of_nat (length x) + 1) mod 16 = 0)
    (Htop : page_up (prog_size (segments_read phs)) + 2 * PGSIZE < TRAPFRAME) :
  exec me kbuf log_chan tr path argv k = Panic alloc_error ∨ exec me kbuf log_chan tr path argv k = Panic unwrap_none.
Proof using BDL BFlL PSL.
  destruct (exec_loaded k p old path argv l1 c L f inode g ic' elf phs Hfile Hcall)
    as [E|(root & ic & b & s1 & s & Hk & Hm & Hld & Hd & Hq & Hp & Hpanic & _)]; [by left|].
  destruct (prog_size_bounds _ _ (segments_read_ok _ _ (ex_segments _ _ _ _ _ _ (pf_elf _ _ _ _ _ _ _ _ _ _ _ _ Hfile)))) as [Hps _].
  destruct (exec_stack_first kbuf (k_ps k) root me log_chan (prog_size (segments_read phs)) argv path elf (program_read k inode g ic b s) (wake_one log_chan p) x args)
    as [E|E]; [apply (keeps_trans _ _ s1); [done|apply Hld]|apply Hld|done..|left; by apply Hpanic|right; by apply Hpanic].
Qed.
End Exec.

(** ** Programs on a disk made by [mkfs] *)

(** A program as a list of bytes. *)
Record program_bytes (data : list Z) (elf : ElfHeader) (phs : list ProgHeader) : Prop := {
  pb_bytes : Forall (λ x, 0 ≤ x < 256) data;
  pb_header : decode_elf (get_bytes data 0 ELF_HEADER_SIZE) = elf ∧ ELF_HEADER_SIZE ≤ Z.of_nat (length data) ∧ e_magic elf = ELF_MAGIC;
  pb_entry : 0 ≤ e_entry elf < 2 ^ 64;
  pb_phnum : e_phnum elf = Z.of_nat (length phs);
  pb_phs (i : nat) h : phs !! i = Some h → decode_ph (get_bytes data (e_phoff elf + PROG_HEADER_SIZE * Z.of_nat i) PROG_HEADER_SIZE) = h;
  pb_phoff : 0 ≤ e_phoff elf ∧ e_phoff elf + PROG_HEADER_SIZE * Z.of_nat (length phs) ≤ Z.of_nat (length data);
  pb_segments : Forall (segment_ok (Z.of_nat (length data))) (segments phs);
}.

(** The byte a program has at an address. *)
Definition data_byte (data : list Z) (a old : Z) (h : ProgHeader) : Z :=
  if decide (ph_vaddr h ≤ a < ph_vaddr h + ph_file_size h) then nth (Z.to_nat (ph_off h + (a - ph_vaddr h))) data 0 else old.
Definition prog_data (data : list Z) (ls : list ProgHeader) (a : Z) : Z := foldl (data_byte data a) 0 ls.

Section Image.
Context (c : Z → block) (fs : list mfile) (top : Z) (Himg : image c fs top).

Lemma prog_byte_data i fl data ls a :
  fs !! i = Some fl → mf_data fl = data → Forall (λ x, 0 ≤ x < 256) data → Forall (segment_ok (Z.of_nat (length data))) ls →
  prog_byte c (block_map fl) ls a = prog_data data ls a.
Proof using Himg.
  intros Hi <- Hb. pose proof (ig_files _ _ _ Himg i fl Hi) as Hf. pose proof (fr_len _ _ Hf) as Hlen.
  induction ls as [|h ls IH] using rev_ind; intros Hok; [done|]. apply Forall_app in Hok as [Hok Hh]. rewrite Forall_singleton in Hh. destruct Hh as [_ Hsz _].
  unfold prog_data. rewrite prog_byte_snoc, foldl_app. fold (prog_data (mf_data fl) ls a). rewrite IH by done. cbn. unfold seg_byte, data_byte. case_decide as Hd; [|done].
  set (o := ph_off h + (a - ph_vaddr h)) in *. rewrite (file_byte_data c fl o Hf) by (unfold o; lia). destruct (lookup_lt_is_Some_2 (mf_data fl) (Z.to_nat o)) as [x Hx]; [unfold o; lia|].
  rewrite Hx, (nth_lookup_Some _ _ _ _ Hx). pose proof (Forall_lookup_1 _ _ _ _ Hb Hx). cbn in *. by apply Z.mod_small.
Qed.

Lemma image_executable j fl data dev inum elf phs :
  fs !! S j = Some fl → mf_data fl = data → Z.of_nat (length data) ≤ 140 * 1024 → program_bytes data elf phs →
  executable dev (mkData true dev inum (kernel_dinode (S j) fl)) c (block_map fl) elf phs.
Proof using Himg.
  intros Hi <- H140 [P1 [P2 [P3 P4]] P5 P6 P7 P8 P9]. pose proof (ig_files _ _ _ Himg (S j) fl Hi) as Hf.
  assert (di_size (kernel_dinode (S j) fl) = Z.of_nat (length (mf_data fl))) as Hsz by done.
  split; cbn [id_dinode id_dev]; rewrite ?Hsz.
  - split; [done|]. lia.
  - intros off n Ho Hn Hle k Hk. pose proof (ig_exact _ _ _ Himg (S j) fl Hi) as He. unfold exact in He. change BSIZE with 1024 in Hk. unfold mf_size in He.
    apply (image_mapped c fs top Himg (S j) fl k Hi); divlia.
  - split; [|done]. by rewrite (file_bytes_data c fl).
  - done.
  - intros i h Hih. pose proof (lookup_lt_Some _ _ _ Hih) as Hlt. unfold PROG_HEADER_SIZE in *. rewrite (file_bytes_data c fl); [by apply P7|done|lia|lia|]. unfold mf_size. lia.
  - done.
  - done.
Qed.
End Image.

Lemma image_log_ready : ∃ l1, log_ready image_log l1.
Proof. eexists. split; [by vm_compute|]. done. Qed.

(** A file of an image is a program file of the kernel. *)
Lemma image_program {D} {BD : BlockDevice D} {BDL : BlockDeviceLaws D} {BF : BitField} {H} max h ins j x c fs top elf phs (k : @kernel D H) s post cwd :
  max ≤ 140 → request max h ins → image c fs top → holds fs ins → ins !! j = Some x → program_bytes x.2 elf phs →
  k_d k = mkD (Some make_sb) image_log s → quiet ROOTDEV s c [] → idle (k_ic k) → Z.of_nat (length post) < 2 ^ 32 →
  ∃ l1 f ic', program_file k (SLASH :: name_of x.1 ++ 0 :: post) cwd l1 c [] (block_map f) (mkInode ROOTDEV (Z.of_nat j + 2) 1)
      (mkData true ROOTDEV (Z.of_nat j + 2) (kernel_dinode (S j) f)) ic' elf phs ∧ idle ic' ∧ fs !! S j = Some f ∧ mf_data f = x.2.
Proof.
  intros Hmax Hreq Himg Hholds Hj Hprog Hk Hq Hidle Hpost. destruct (ho_files _ _ Hholds j x Hj) as (f & Hf & Hft & Hfd). destruct image_log_ready as (l1 & Hl1).
  destruct (file_locked ins (rq_names _ _ _ Hreq) (rq_num _ _ _ Hreq) (rq_distinct _ _ _ Hreq) c fs top Himg Hholds j x f post cwd (k_ic k) (mkD (Some make_sb) l1 s)
    Hj Hf Hft Hpost eq_refl Hq Hidle) as (ic1 & s1 & ic2 & s2 & ic3 & Hn & Hl & Hd & Hq2 & _ & Hi3 & Hput).
  exists l1, f, ic3. split; [|done]. split; rewrite ?Hk.
  - exact Hl1.
  - split; [|by apply Nat.ltb_lt]. exists ic1, s1, ic2, s2. split; [exact Hn|]. split; [exact Hl|]. split; [exact Hd|]. split; [exact Hq2|exact Hput].
  - apply (image_executable c fs top Himg j f x.2); try done. pose proof (Forall_lookup_1 _ _ _ _ (rq_files _ _ _ Hreq) Hj) as (_ & _ & Hlen). cbn in Hlen. lia.
  - apply Hprog.
Qed.


(** ** A program with one argument *)

(** A header, one program header and four bytes of text. *)
Definition demo_elf : list Z :=
  [127; 69; 76; 70] ++ replicate 20 0 ++ [4] ++ replicate 7 0 ++ [64] ++ replicate 23 0 ++ [1] ++ replicate 7 0 ++
  [1] ++ replicate 7 0 ++ [120] ++ replicate 23 0 ++ [4] ++ replicate 7 0 ++ [8] ++ replicate 15 0 ++ [19; 0; 5; 0].
Definition demo_header : ElfHeader := mkElf ELF_MAGIC 4 64 1.
Definition demo_segment : ProgHeader := mkPh ELF_PROG_LOAD 120 0 4 8.
Definition demo_programs : inputs := [(init_arg, demo_elf)].

Lemma demo_program : program_bytes demo_elf demo_header [demo_segment].
Proof.
  split; try (by vm_compute); try (split_and!; by vm_compute).
  - by repeat constructor.
  - intros i h Hi. destruct i as [|i]; [|done]. injection Hi as <-. by vm_compute.
  - cbn. apply Forall_singleton. by split; [split|split_and!|]; vm_compute.
Qed.

(** Nothing is freed. *)
Definition keep_pages : PageFree Z := λ _ n, Done n.

(** A process with a page table and no memory of its own, and the string "a". *)
Definition demo_exec_mem : mem := λ x, if x =? 0x7000 then 97 else 0.
Definition demo_caller : Process :=
  mkProc (mkPMeta RUNNING 0 false 0 1) (set_trapframe 0x5000 (set_pagetable (Some 0x8000) new_pdata)).
Definition demo_table : outcome (option Z * pstate Z) :=
  new_pagetable (BFl := bit_flags_std) (PF := keep_pages) 0x1000 (pdata demo_caller) (mkP demo_exec_mem 0x8000).
Definition demo_exec_state : pstate Z := match demo_table with Done (_, s) => s | _ => mkP demo_exec_mem 0x8000 end.
Definition demo_path : list Z := SLASH :: name_of init_arg ++ 0 :: replicate 122 0.

Definition demo_disk : dstate fdisk :=
  match main (host_of demo_programs) [[]; []; init_arg] with
  | Done st =>
      match fs_init sb_uninit log_uninit ROOTDEV (boot (mkFd (img st))) with
      | Done (sb, l, b) => mkD sb l b
      | _ => mkD sb_uninit log_uninit (boot (mkFd (img st)))
      end
  | _ => mkD sb_uninit log_uninit (boot (mkFd (λ _, [])))
  end.
Definition demo_exec_kernel : @kernel fdisk Z :=
  mkK (mkPm [demo_caller] None 1) demo_exec_state ∅ 0 new_icache demo_disk ∅ 0.
Abbreviation demo_exec :=
  (exec (BF := bit_field_std) (BFl := bit_flags_std) (PF := keep_pages) 0 0x6000 0 0x1000 demo_path [0x7000; 0] demo_exec_kernel).

Lemma demo_exec_done : match demo_exec with Done (Ok 1, _) => true | _ => false end = true.
Proof. by vm_compute. Qed.

Lemma demo_programs_request : request 140 (host_of demo_programs) demo_programs.
Proof.
  split.
  - apply Forall_singleton. split_and!; [by vm_compute|by apply (bool_decide_unpack _); vm_compute|by vm_compute].
  - apply Forall_singleton. split_and!; [done|by vm_compute|by repeat constructor..].
  - by apply (bool_decide_unpack _); vm_compute.
  - by apply Nat.ltb_lt.
  - by vm_compute.
Qed.

Lemma demo_image : ∃ st fs top s, main (host_of demo_programs) [[]; []; init_arg] = Done st ∧
  image (dev_read (mkFd (img st))) fs top ∧ holds fs demo_programs ∧ demo_disk = mkD (Some make_sb) image_log s ∧ quiet ROOTDEV s (dev_read (mkFd (img st))) [].
Proof.
  pose proof demo_programs_request as Hreq.
  destruct (main_ok (host_of demo_programs) ltac:(by vm_compute) [] [] demo_programs eq_refl (request_inputs 140 _ _ ltac:(lia) Hreq) (rq_num _ _ _ Hreq) (rq_fit _ _ _ Hreq))
    as (st & fs & Hrun & Hlen & Hholds & Himg).
  pose proof (on_disk_image (mkFd (img st)) st fs _ (img_on_disk st (ig_sized _ _ _ Himg)) Himg) as Himg'.
  destruct (fs_init_ok (mkFd (img st)) (ig_super _ _ _ Himg') (ig_log _ _ _ Himg' 2 ltac:(lia))) as (s & Hinit & Hd & Hq).
  eexists st, fs, _, s. split; [exact Hrun|]. split; [exact Himg'|]. split; [exact Hholds|]. split; [|exact Hq].
  unfold demo_disk. change (main (host_of demo_programs) [[]; []; init_arg]) with (main (host_of demo_programs) ([] :: [] :: demo_programs.*1)).
  rewrite Hrun. by rewrite Hinit.
Qed.

Lemma demo_exec_caller : caller 0 0x6000 0x1000 demo_exec_kernel demo_caller 0x8000 ∧
  exec_args demo_exec_kernel [0x7000; 0] [[97]] (prog_size (segments [demo_segment])).
Proof.
  set (s0 := mkP demo_exec_mem 0x8000).
  destruct (new_pagetable_ok (BFl := bit_flags_std) (BFlL := bit_flags_std_laws) (PF := keep_pages) 0x1000 (pdata demo_caller) s0) as [E|(pt & s1 & E & Hi & Ht & Hk & Hf & Hm)];
    [by vm_compute..|exfalso|].
  { assert (match demo_table with Panic _ => false | _ => true end = true) as Hd by by vm_compute. unfold demo_table in Hd. fold s0 in Hd. by rewrite E in Hd. }
  assert (match demo_table with Done (Some pt, _) => pt =? 0x8000 | _ => false end = true) as Hpt by by vm_compute.
  unfold demo_table in Hpt. fold s0 in Hpt. rewrite E in Hpt. apply Z.eqb_eq in Hpt as ->.
  assert (demo_exec_state = s1) as Hs by (unfold demo_exec_state, demo_table; fold s0; by rewrite E).
  assert (∀ x, page_of x < 0x8000 → pmem s1 x = demo_exec_mem x) as Hmem by (intros x Hx; by apply (kp_frame _ _ _ Hk)).
  assert (0x8000 ≤ pheap s1) as Hheap.
  { pose proof (kp_pages _ _ _ Hk 0x7000 eq_refl ltac:(by vm_compute)) as H7. destruct Hi as [Hal _]. cbn in H7. unfold PGSIZE in Hal. divlia. }
  assert (∀ q, q < 0x8000 → ¬ table_of (pmem s1) 0x8000 q) as Hnt by (intros q Hq Hq'; by apply (Hf q Hq')).
  split; [split; [split; reflexivity| |clear; by vm_compute]|unfold exec_args]; change (k_ps demo_exec_kernel) with demo_exec_state; rewrite Hs.
  - split; [exact Ht|exact Hi|clear; by vm_compute| | |].
    + intros v [Hv|Hv]; [change (p_size (pdata demo_caller)) with 0 in Hv; lia|]. destruct Hv as [-> | ->]; eexists.
      * split; [rewrite Hm by (clear; by vm_compute); clear; vm_compute; reflexivity|clear; by vm_compute].
      * split; [rewrite Hm by (clear; by vm_compute); clear; vm_compute; reflexivity|clear; by vm_compute].
    + change (p_trapframe (pdata demo_caller)) with 0x5000. split; [clear; by vm_compute|]. split; [unfold ps_page; cbn; lia|]. by apply Hnt.
    + intros x Hx. change (8 * MAXARG) with 256 in Hx. assert (page_of x = 0x6000) as -> by (unfold page_of, PGSIZE; divlia). split; [cbn; lia|]. split; [by apply Hnt|done].
  - split; [clear; by vm_compute| |reflexivity|clear; by vm_compute].
    intros j x Hx. destruct j as [|j]; [|discriminate Hx]. injection Hx as <-. exists 0x7000. split; [reflexivity|]. split; [clear; by vm_compute|clear; by repeat constructor| |].
    + intros i Hi'. cbn in Hi'. unfold read_byte. assert (i = 0 ∨ i = 1) as [-> | ->] by lia; (rewrite Hmem by (clear; by vm_compute)); clear; by vm_compute.
    + intros y Hy. cbn in Hy. unfold ps_page. cbn. unfold page_of, PGSIZE. divlia.
Qed.

Lemma demo_order : loadable_first [demo_segment].
Proof. exists [demo_segment], []. split; [done|]. split; [by apply Forall_singleton|by constructor]. Qed.

(** What is seen of the program. *)
Definition demo_started (root : Z) (s : pstate Z) : Prop :=
  user_byte (pmem s) root 0 = Some 19 ∧ user_byte (pmem s) root 2 = Some 5 ∧ user_byte (pmem s) root 4 = Some 0 ∧
  user_byte (pmem s) root 0x2FF0 = Some 97 ∧ user_byte (pmem s) root 0x2FE0 = Some 0xF0 ∧ user_byte (pmem s) root 0x2FE1 = Some 0x2F ∧
  Tf.get (pmem s) 0x5000 Tf.epc = 4 ∧ Tf.get (pmem s) 0x5000 Tf.sp = 0x2FE0.

Lemma demo_running c f root s : running 0x6000 0x1000 0x5000 root 4 c f [demo_segment] [[97]] demo_exec_state s →
  (∀ a, 0 ≤ a < 0x1000 → user_byte (pmem s) root a = Some (prog_data demo_elf [demo_segment] a)) → demo_started root s.
Proof.
  intros [_ _ _ _ _ _ Hs Hp [R1 [R2 _]] _] Hb. repeat split.
  - rewrite Hb by lia. clear. by vm_compute.
  - rewrite Hb by lia. clear. by vm_compute.
  - rewrite Hb by lia. clear. by vm_compute.
  - exact (Hs 0%nat 0x2FF0 [97] eq_refl eq_refl 0 ltac:(cbn; lia)).
  - exact (Hp 0%nat 0x2FF0 eq_refl 0 ltac:(lia)).
  - exact (Hp 0%nat 0x2FF0 eq_refl 1 ltac:(lia)).
  - exact R1.
  - exact R2.
Qed.

Lemma exec_correct_witness :
  ∃ root b' s' ic', demo_exec = Done (Ok 1, after_exec 0 0 demo_exec_kernel demo_caller demo_path root 0x3000 ic' b' s') ∧ demo_started root s'.
Proof.
  destruct demo_image as (st & fs & top & s & Hrun & Himg & Hholds & Hdisk & Hq).
  destruct (image_program (BF := bit_field_std) 140 (host_of demo_programs) demo_programs 0 (init_arg, demo_elf) _ fs top demo_header [demo_segment] demo_exec_kernel s
    (replicate 122 0) None ltac:(lia) demo_programs_request Himg Hholds eq_refl demo_program Hdisk Hq new_icache_idle ltac:(clear; by vm_compute))
    as (l1 & f & ic' & Hfile & _ & Hf & Hfd).
  destruct (exec_correct (BFl := bit_flags_std) (BFlL := bit_flags_std_laws) (PF := keep_pages) 0 0x6000 0 0x1000 demo_exec_kernel demo_caller 0x8000 demo_path [0x7000; 0] [[97]]
    l1 _ [] (block_map f) _ _ ic' demo_header [demo_segment] Hfile demo_order (proj1 demo_exec_caller) ltac:(clear; by vm_compute) (proj2 demo_exec_caller) ltac:(clear; by vm_compute)) as [E|(root & b' & s' & Hrn & _ & _ & E)].
  - exfalso. pose proof demo_exec_done as Hd. rewrite E in Hd. discriminate Hd.
  - exists root, b', (mkP (pmem s') (pheap s')), ic'. split; [exact E|]. apply (demo_running (dev_read (mkFd (img st))) (block_map f)); [destruct s'; exact Hrn|].
    intros a Ha. cbn [pmem]. rewrite (ru_byte _ _ _ _ _ _ _ _ _ _ _ Hrn a Ha). f_equal.
    apply (prog_byte_data _ fs top Himg 1 f); [exact Hf|exact Hfd|apply demo_program|apply (pb_segments _ _ _ demo_program)].
Defined.

