(* ===== verification/Asm.v ===== *)
(** * Assembly

    The programs of [asm/*.S] as lists of instructions, and the part of the
    RISC-V instruction set they use.  Programs are straight-line: running one ends
    in a jump, a call or a return.  Address translation is the hardware's; it
    is an interface whose law is the Sv39 walk of the privileged specification. *)

From Stdlib Require Import ZArith Lia.
From stdpp Require Import base functions gmap strings numbers list.
From S2P Require Import Prelude Address Pte PhysMem PageTable Registers Trap.

Local Open Scope Z_scope.

(** ** The machine *)

Inductive reg :=
| RA | SP | GP | TP | T0 | T1 | T2 | S0 | S1 | A0 | A1 | A2 | A3 | A4 | A5 | A6 | A7
| S2 | S3 | S4 | S5 | S6 | S7 | S8 | S9 | S10 | S11 | T3 | T4 | T5 | T6.

Global Instance reg_eq_dec : EqDecision reg.
Proof. solve_decision. Defined.

Inductive csr := MHARTID | MSCRATCH | SSCRATCH | SEPC | SATP | SIP.

Inductive priv := User | Supervisor | Machine.

Global Instance priv_eq_dec : EqDecision priv.
Proof. solve_decision. Defined.

Record machine := mkM {
  regs : reg → Z;
  csr_file : csrs;
  sscratch : Z;
  mode : priv;
  mmem : mem;
}.

Definition set_reg (d : reg) (v : Z) (M : machine) : machine :=
  mkM (<[d := v]> (regs M)) (csr_file M) (sscratch M) (mode M) (mmem M).
Definition set_mmem (m : mem) (M : machine) : machine := mkM (regs M) (csr_file M) (sscratch M) (mode M) m.
Definition set_csrs (r : csrs) (M : machine) : machine := mkM (regs M) r (sscratch M) (mode M) (mmem M).
Definition set_sscratch (v : Z) (M : machine) : machine := mkM (regs M) (csr_file M) v (mode M) (mmem M).
Definition set_mode (p : priv) (M : machine) : machine := mkM (regs M) (csr_file M) (sscratch M) p (mmem M).

Definition set_satp (v : Z) (r : csrs) : csrs :=
  mkCsrs (sstatus r) (sie r) (sip r) (scause r) (sepc r) (stval r) (stvec r) v (mstatus r) (mie r) (mepc r)
    (medeleg r) (mideleg r) (mtvec r) (mscratch r) (mhartid r) (pmpcfg0 r) (pmpaddr0 r) (tp r).
Definition set_mscratch (v : Z) (r : csrs) : csrs :=
  mkCsrs (sstatus r) (sie r) (sip r) (scause r) (sepc r) (stval r) (stvec r) (satp r) (mstatus r) (mie r) (mepc r)
    (medeleg r) (mideleg r) (mtvec r) v (mhartid r) (pmpcfg0 r) (pmpaddr0 r) (tp r).

Definition put_bit (x k : Z) (b : bool) : Z := if b then Z.setbit x k else Z.clearbit x k.

(** [mhartid] is read-only; of [sip] only the software interrupt can be
    written. *)
Definition csr_get (c : csr) (M : machine) : Z :=
  match c with
  | MHARTID => mhartid (csr_file M)
  | MSCRATCH => mscratch (csr_file M)
  | SSCRATCH => sscratch M
  | SEPC => sepc (csr_file M)
  | SATP => satp (csr_file M)
  | SIP => sip (csr_file M)
  end.
Definition csr_set (c : csr) (v : Z) (M : machine) : machine :=
  match c with
  | MHARTID => M
  | MSCRATCH => set_csrs (set_mscratch v (csr_file M)) M
  | SSCRATCH => set_sscratch v M
  | SEPC => set_csrs (set_sepc v (csr_file M)) M
  | SATP => set_csrs (set_satp v (csr_file M)) M
  | SIP => set_csrs (set_sip (put_bit (sip (csr_file M)) 1 (Z.testbit v 1)) (csr_file M)) M
  end.

(** ** Instructions *)

Inductive instr :=
| SD (rs : reg) (off : Z) (rb : reg)
| LD (rd : reg) (off : Z) (rb : reg)
| ADDI (rd rs : reg) (imm : Z)
| ADD (rd rs1 rs2 : reg)
| MUL (rd rs1 rs2 : reg)
| LI (rd : reg) (imm : Z)
| CSRR (rd : reg) (c : csr)
| CSRW (c : csr) (rs : reg)
| CSRRW (rd : reg) (c : csr) (rs : reg)
| SFENCE
| CALL (target : Z)
| JR (rs : reg)
| RET
| SRET
| MRET.

(** How a run of instructions ends: a jump to an address, a call with the
    instructions after it, [sret] and [mret]. *)
Inductive leave :=
| Jumps (target : Z)
| Calls (target : Z) (rest : list instr)
| Srets
| Mrets.

(** The translation of an address for a load ([false]) or a store ([true]) in
    supervisor mode, with the page tables in memory; [None] is a page fault. *)
Class Mmu := mmu : mem → Z → bool → Z → option Z.

Section Run.
Context {MU : Mmu}.

Definition translate (w : bool) (a : Z) (M : machine) : outcome Z :=
  match mode M with
  | Machine => Done a
  | _ => unwrap "page fault" (mmu (mmem M) (satp (csr_file M)) w a)
  end.

(** Arithmetic wraps. *)
Definition wrap64 (v : Z) : Z := v mod 2 ^ 64.

Fixpoint run (p : list instr) (M : machine) : outcome (leave * machine) :=
  match p with
  | [] => UB "end of the program"
  | i :: p =>
      match i with
      | SD rs off rb =>
          a ← translate true (wrap64 (regs M rb + off)) M;
          run p (set_mmem (write_word (mmem M) a (regs M rs)) M)
      | LD rd off rb =>
          a ← translate false (wrap64 (regs M rb + off)) M;
          run p (set_reg rd (read_word (mmem M) a) M)
      | ADDI rd rs imm => run p (set_reg rd (wrap64 (regs M rs + imm)) M)
      | ADD rd rs1 rs2 => run p (set_reg rd (wrap64 (regs M rs1 + regs M rs2)) M)
      | MUL rd rs1 rs2 => run p (set_reg rd (wrap64 (regs M rs1 * regs M rs2)) M)
      | LI rd imm => run p (set_reg rd imm M)
      | CSRR rd c => run p (set_reg rd (csr_get c M) M)
      | CSRW c rs => run p (csr_set c (regs M rs) M)
      | CSRRW rd c rs => run p (set_reg rd (csr_get c M) (csr_set c (regs M rs) M))
      | SFENCE => run p M
      | CALL f => Done (Calls f p, M)
      | JR rs => Done (Jumps (regs M rs), M)
      | RET => Done (Jumps (regs M RA), M)
      | SRET => Done (Srets, M)
      | MRET => Done (Mrets, M)
      end
  end.
End Run.

(** ** Traps and returns of the hardware *)

Definition SPP_BIT : Z := 8.
Definition SPIE_BIT : Z := 5.
Definition SIE_BIT : Z := 1.

(** A trap into supervisor mode; the result is the address it continues at. *)
Definition take_trap (pc cause_code : Z) (M : machine) : Z * machine :=
  let r := csr_file M in
  let st := sstatus r in
  let st := put_bit st SPIE_BIT (Z.testbit st SIE_BIT) in
  let st := put_bit st SIE_BIT false in
  let st := put_bit st SPP_BIT (match mode M with User => false | _ => true end) in
  let r := mkCsrs st (sie r) (sip r) cause_code pc (stval r) (stvec r) (satp r) (mstatus r) (mie r) (mepc r)
             (medeleg r) (mideleg r) (mtvec r) (mscratch r) (mhartid r) (pmpcfg0 r) (pmpaddr0 r) (tp r) in
  (stvec r, set_mode Supervisor (set_csrs r M)).

Definition do_sret (M : machine) : Z * machine :=
  let r := csr_file M in
  let st := sstatus r in
  let p := if Z.testbit st SPP_BIT then Supervisor else User in
  let st := put_bit st SIE_BIT (Z.testbit st SPIE_BIT) in
  let st := put_bit st SPIE_BIT true in
  let st := put_bit st SPP_BIT false in
  (sepc r, set_mode p (set_csrs (set_sstatus st r) M)).

(** ** The programs *)

(** [entry.S]; [stack0] and [start] are addresses the linker assigns. *)
Definition entry_code (stack0 start : Z) : list instr := [
  LI SP stack0;
  LI A0 16384;
  CSRR A1 MHARTID;
  ADDI A1 A1 1;
  MUL A0 A0 A1;
  ADD SP SP A0;
  CALL start].

(** [switch.S]. *)
Definition switch : list instr := [
  SD RA 0 A0; SD SP 8 A0; SD S0 16 A0; SD S1 24 A0; SD S2 32 A0; SD S3 40 A0; SD S4 48 A0;
  SD S5 56 A0; SD S6 64 A0; SD S7 72 A0; SD S8 80 A0; SD S9 88 A0; SD S10 96 A0; SD S11 104 A0;
  LD RA 0 A1; LD SP 8 A1; LD S0 16 A1; LD S1 24 A1; LD S2 32 A1; LD S3 40 A1; LD S4 48 A1;
  LD S5 56 A1; LD S6 64 A1; LD S7 72 A1; LD S8 80 A1; LD S9 88 A1; LD S10 96 A1; LD S11 104 A1;
  RET].

(** [kernelvec.S]. *)
Definition kernelvec (kernel_trap : Z) : list instr := [
  ADDI SP SP (-256);
  SD RA 0 SP; SD SP 8 SP; SD GP 16 SP; SD TP 24 SP; SD T0 32 SP; SD T1 40 SP; SD T2 48 SP;
  SD S0 56 SP; SD S1 64 SP; SD A0 72 SP; SD A1 80 SP; SD A2 88 SP; SD A3 96 SP; SD A4 104 SP;
  SD A5 112 SP; SD A6 120 SP; SD A7 128 SP; SD S2 136 SP; SD S3 144 SP; SD S4 152 SP; SD S5 160 SP;
  SD S6 168 SP; SD S7 176 SP; SD S8 184 SP; SD S9 192 SP; SD S10 200 SP; SD S11 208 SP;
  SD T3 216 SP; SD T4 224 SP; SD T5 232 SP; SD T6 240 SP;
  CALL kernel_trap;
  LD RA 0 SP; LD SP 8 SP; LD GP 16 SP; LD T0 32 SP; LD T1 40 SP; LD T2 48 SP;
  LD S0 56 SP; LD S1 64 SP; LD A0 72 SP; LD A1 80 SP; LD A2 88 SP; LD A3 96 SP; LD A4 104 SP;
  LD A5 112 SP; LD A6 120 SP; LD A7 128 SP; LD S2 136 SP; LD S3 144 SP; LD S4 152 SP; LD S5 160 SP;
  LD S6 168 SP; LD S7 176 SP; LD S8 184 SP; LD S9 192 SP; LD S10 200 SP; LD S11 208 SP;
  LD T3 216 SP; LD T4 224 SP; LD T5 232 SP; LD T6 240 SP;
  ADDI SP SP 256;
  SRET].

Definition timervec : list instr := [
  CSRRW A0 MSCRATCH A0;
  SD A1 0 A0;
  SD A2 8 A0;
  SD A3 16 A0;
  LD A1 24 A0;
  LD A2 32 A0;
  LD A3 0 A1;
  ADD A3 A3 A2;
  SD A3 0 A1;
  LI A1 2;
  CSRW SIP A1;
  LD A3 16 A0;
  LD A2 8 A0;
  LD A1 0 A0;
  CSRRW A0 MSCRATCH A0;
  MRET].

(** [trampoline.S]. *)
Definition uservec : list instr := [
  CSRRW A0 SSCRATCH A0;
  SD RA 40 A0; SD SP 48 A0; SD GP 56 A0; SD TP 64 A0; SD T0 72 A0; SD T1 80 A0; SD T2 88 A0;
  SD S0 96 A0; SD S1 104 A0; SD A1 120 A0; SD A2 128 A0; SD A3 136 A0; SD A4 144 A0; SD A5 152 A0;
  SD A6 160 A0; SD A7 168 A0; SD S2 176 A0; SD S3 184 A0; SD S4 192 A0; SD S5 200 A0; SD S6 208 A0;
  SD S7 216 A0; SD S8 224 A0; SD S9 232 A0; SD S10 240 A0; SD S11 248 A0; SD T3 256 A0; SD T4 264 A0;
  SD T5 272 A0; SD T6 280 A0;
  CSRR T0 SSCRATCH; SD T0 112 A0;
  CSRR T0 SEPC; SD T0 24 A0;
  LD SP 8 A0;
  LD TP 32 A0;
  LD T0 16 A0;
  LD T1 0 A0;
  CSRW SATP T1;
  SFENCE;
  JR T0].

Definition userret : list instr := [
  CSRW SATP A1;
  SFENCE;
  LD T0 112 A0;
  CSRW SSCRATCH T0;
  LD RA 40 A0; LD SP 48 A0; LD GP 56 A0; LD TP 64 A0; LD T0 72 A0; LD T1 80 A0; LD T2 88 A0;
  LD S0 96 A0; LD S1 104 A0; LD A1 120 A0; LD A2 128 A0; LD A3 136 A0; LD A4 144 A0; LD A5 152 A0;
  LD A6 160 A0; LD A7 168 A0; LD S2 176 A0; LD S3 184 A0; LD S4 192 A0; LD S5 200 A0; LD S6 208 A0;
  LD S7 216 A0; LD S8 224 A0; LD S9 232 A0; LD S10 240 A0; LD S11 248 A0; LD T3 256 A0; LD T4 264 A0;
  LD T5 272 A0; LD T6 280 A0;
  CSRRW A0 SSCRATCH A0;
  SRET].
