(* ===== verification/AsmSpec.v ===== *)
(** * Saving and restoring registers

    The assembly programs store tables of registers at offsets from a base and
    load them again.  The lemmas run such tables at once, and say what the
    memory and the registers hold afterwards. *)

From Stdlib Require Import ZArith Lia.
From stdpp Require Import base functions gmap strings numbers list.
From S2P Require Import Prelude Address Pte PhysMem PageTable Registers Trap Asm PageTableSpec.

Local Open Scope Z_scope.

(** Registers with the offsets they are saved at. *)
Definition slots : Type := list (reg * Z).

Definition saves (b : reg) (l : slots) : list instr := (λ s : reg * Z, SD s.1 s.2 b) <$> l.
Definition loads (b : reg) (l : slots) : list instr := (λ s : reg * Z, LD s.1 s.2 b) <$> l.

Definition save_regs (rf : reg → Z) (base : Z) (l : slots) (m : mem) : mem :=
  foldl (λ m s, write_word m (base + s.2) (rf s.1)) m l.
Definition load_regs (m : mem) (base : Z) (l : slots) (rf : reg → Z) : reg → Z :=
  foldl (λ rf s, <[s.1 := read_word m (base + s.2)]> rf) rf l.

(** Different registers at different words of [0, n). *)
Record slots_ok (l : slots) (n : Z) : Prop := {
  so_regs : NoDup l.*1;
  so_offs : NoDup l.*2;
  so_words : Forall (λ s : reg * Z, s.2 mod 8 = 0 ∧ 0 ≤ s.2 ∧ s.2 + 8 ≤ n) l;
}.

(** ** What memory and registers hold *)

Lemma save_regs_cons rf base s l m :
  save_regs rf base (s :: l) m = save_regs rf base l (write_word m (base + s.2) (rf s.1)).
Proof. done. Qed.
Lemma load_regs_cons m base s l rf :
  load_regs m base (s :: l) rf = load_regs m base l (<[s.1 := read_word m (base + s.2)]> rf).
Proof. done. Qed.

Lemma save_regs_other rf base l : ∀ m x,
  (∀ s, s ∈ l → ¬ (base + s.2 ≤ x < base + s.2 + 8)) → save_regs rf base l m x = m x.
Proof.
  induction l as [|s l IH]; intros m x Hx; [done|]. rewrite save_regs_cons, IH by (intros; apply Hx; by right).
  apply write_word_other. apply Hx. by left.
Qed.

Lemma save_regs_word_ne rf base l m o :
  (∀ s, s ∈ l → o + 8 ≤ s.2 ∨ s.2 + 8 ≤ o) → read_word (save_regs rf base l m) (base + o) = read_word m (base + o).
Proof. intros Ho. apply read_word_ext. intros x Hx. apply save_regs_other. intros s Hs. specialize (Ho s Hs). lia. Qed.

Lemma save_regs_word rf base l m n r o :
  slots_ok l n → (∀ r, 0 ≤ rf r < 2 ^ 64) → (r, o) ∈ l → read_word (save_regs rf base l m) (base + o) = rf r.
Proof.
  intros [_ Ho Hw] Hr. revert m. induction l as [|s l IH]; intros m Hin; [by apply elem_of_nil in Hin|].
  apply NoDup_cons in Ho as [Hn Ho]. apply Forall_cons in Hw as [Hs Hw].
  apply elem_of_cons in Hin as [<-|Hin]; [|by apply IH].
  rewrite save_regs_cons, save_regs_word_ne; [by apply read_word_write|].
  intros s' Hs'. rewrite Forall_forall in Hw. specialize (Hw s' Hs'). cbn in Hs.
  assert (s'.2 ≠ o) as Hne. { intros E. apply Hn. cbn. rewrite <- E. by apply list_elem_of_fmap_2. }
  pose proof (Z.div_mod s'.2 8). pose proof (Z.div_mod o 8). lia.
Qed.

Lemma load_regs_out m base l : ∀ rf r, r ∉ l.*1 → load_regs m base l rf r = rf r.
Proof.
  induction l as [|s l IH]; intros rf r Hr; [done|]. cbn in Hr. apply not_elem_of_cons in Hr as [Hne Hr].
  rewrite load_regs_cons, IH by done. by apply fn_lookup_insert_ne.
Qed.

Lemma load_regs_in m base l : ∀ rf r o, NoDup l.*1 → (r, o) ∈ l → load_regs m base l rf r = read_word m (base + o).
Proof.
  induction l as [|s l IH]; intros rf r o Hnd Hin; [by apply elem_of_nil in Hin|].
  cbn in Hnd. apply NoDup_cons in Hnd as [Hn Hnd]. rewrite load_regs_cons. apply elem_of_cons in Hin as [<-|Hin]; [|by apply IH].
  rewrite load_regs_out by done. by rewrite fn_lookup_insert.
Qed.

(** Loading back what was saved. *)
Lemma load_save rf base l m n rf' :
  slots_ok l n → (∀ r, 0 ≤ rf r < 2 ^ 64) →
  ∀ r, load_regs (save_regs rf base l m) base l rf' r = if decide (r ∈ l.*1) then rf r else rf' r.
Proof.
  intros Hok Hr r. case_decide as Hin.
  - apply list_elem_of_fmap in Hin as ([r' o] & -> & Hin). rewrite (load_regs_in _ _ _ _ _ o) by (done || apply Hok).
    by apply (save_regs_word rf base l m n).
  - by apply load_regs_out.
Qed.

(** ** Running them *)

Create Rewrite HintDb asm.

Section Run.
Context {MU : Mmu}.

(** One instruction at a time; [run] itself stays folded. *)
Lemma run_addi d s imm p M : run (ADDI d s imm :: p) M = run p (set_reg d (wrap64 (regs M s + imm)) M).
Proof. done. Qed.
Lemma run_add d s1 s2 p M : run (ADD d s1 s2 :: p) M = run p (set_reg d (wrap64 (regs M s1 + regs M s2)) M).
Proof. done. Qed.
Lemma run_mul d s1 s2 p M : run (MUL d s1 s2 :: p) M = run p (set_reg d (wrap64 (regs M s1 * regs M s2)) M).
Proof. done. Qed.
Lemma run_li d imm p M : run (LI d imm :: p) M = run p (set_reg d imm M).
Proof. done. Qed.
Lemma run_csrr d c p M : run (CSRR d c :: p) M = run p (set_reg d (csr_get c M) M).
Proof. done. Qed.
Lemma run_csrw c s p M : run (CSRW c s :: p) M = run p (csr_set c (regs M s) M).
Proof. done. Qed.
Lemma run_csrrw d c s p M : run (CSRRW d c s :: p) M = run p (set_reg d (csr_get c M) (csr_set c (regs M s) M)).
Proof. done. Qed.
Lemma run_sd s o b p M :
  run (SD s o b :: p) M =
    (a ← translate true (wrap64 (regs M b + o)) M; run p (set_mmem (write_word (mmem M) a (regs M s)) M)).
Proof. done. Qed.
Lemma run_ld d o b p M :
  run (LD d o b :: p) M =
    (a ← translate false (wrap64 (regs M b + o)) M; run p (set_reg d (read_word (mmem M) a) M)).
Proof. done. Qed.
Lemma run_sfence p M : run (SFENCE :: p) M = run p M.
Proof. done. Qed.
Lemma run_call f p M : run (CALL f :: p) M = Done (Calls f p, M).
Proof. done. Qed.
Lemma run_jr s p M : run (JR s :: p) M = Done (Jumps (regs M s), M).
Proof. done. Qed.
Lemma run_ret p M : run (RET :: p) M = Done (Jumps (regs M RA), M).
Proof. done. Qed.
Lemma run_sret p M : run (SRET :: p) M = Done (Srets, M).
Proof. done. Qed.
Lemma run_mret p M : run (MRET :: p) M = Done (Mrets, M).
Proof. done. Qed.

(** The [n] bytes at virtual address [va] are those at [pa], and stay so when
    memory changes inside of [D]. *)
Definition window (D : Z → Prop) (sat va pa n : Z) (m : mem) : Prop :=
  ∀ m', (∀ x, ¬ D x → m' x = m x) → ∀ w o, 0 ≤ o → o + 8 ≤ n → mmu m' sat w (va + o) = Some (pa + o).

(** What the machine finds at [va]. *)
Definition reaches (D : Z → Prop) (va pa n : Z) (M : machine) : Prop :=
  if decide (mode M = Machine) then va = pa else window D (satp (csr_file M)) va pa n (mmem M).

Lemma window_stable D sat va pa n m m' :
  (∀ x, ¬ D x → m' x = m x) → window D sat va pa n m → window D sat va pa n m'.
Proof. intros Hm Hw m'' Hm''. apply Hw. intros x Hx. rewrite Hm'' by done. by apply Hm. Qed.

Lemma reaches_mem D va pa n m M :
  (∀ x, ¬ D x → m x = mmem M x) → reaches D va pa n M → reaches D va pa n (set_mmem m M).
Proof. unfold reaches. intros Hm Hr. cbn. case_decide; [done|]. by apply (window_stable _ _ _ _ _ (mmem M)). Qed.

Lemma translate_ok D w va pa n o M :
  reaches D va pa n M → 0 ≤ va → va + n ≤ 2 ^ 64 → 0 ≤ o → o + 8 ≤ n →
  translate w (wrap64 (va + o)) M = Done (pa + o).
Proof.
  intros Hr Hv Hn H0 H8. unfold wrap64. rewrite Z.mod_small by lia. unfold translate, reaches in *.
  case_decide as E; [rewrite E; by subst|]. rewrite (Hr (mmem M)) by done. by destruct (mode M).
Qed.

(** Single accesses through a window. *)
Lemma run_sd_at D s o b p va pa n M :
  regs M b = va → reaches D va pa n M → 0 ≤ va → va + n ≤ 2 ^ 64 → 0 ≤ o → o + 8 ≤ n →
  run (SD s o b :: p) M = run p (set_mmem (write_word (mmem M) (pa + o) (regs M s)) M).
Proof. intros Hb Hr Hv Hn H0 H8. by rewrite run_sd, Hb, (translate_ok D true va pa n). Qed.
Lemma run_ld_at D d o b p va pa n M :
  regs M b = va → reaches D va pa n M → 0 ≤ va → va + n ≤ 2 ^ 64 → 0 ≤ o → o + 8 ≤ n →
  run (LD d o b :: p) M = run p (set_reg d (read_word (mmem M) (pa + o)) M).
Proof. intros Hb Hr Hv Hn H0 H8. by rewrite run_ld, Hb, (translate_ok D false va pa n). Qed.

(** Machine mode does not translate. *)
Lemma run_sd_machine s o b p M :
  mode M = Machine → 0 ≤ regs M b + o < 2 ^ 64 →
  run (SD s o b :: p) M = run p (set_mmem (write_word (mmem M) (regs M b + o) (regs M s)) M).
Proof. intros Hm Ha. rewrite run_sd. unfold translate, wrap64. by rewrite Hm, Z.mod_small. Qed.
Lemma run_ld_machine d o b p M :
  mode M = Machine → 0 ≤ regs M b + o < 2 ^ 64 →
  run (LD d o b :: p) M = run p (set_reg d (read_word (mmem M) (regs M b + o)) M).
Proof. intros Hm Ha. rewrite run_ld. unfold translate, wrap64. by rewrite Hm, Z.mod_small. Qed.

Lemma run_saves D b l p va pa n : ∀ M,
  regs M b = va → reaches D va pa n M → (∀ x, pa ≤ x < pa + n → D x) → 0 ≤ va → va + n ≤ 2 ^ 64 →
  Forall (λ s : reg * Z, 0 ≤ s.2 ∧ s.2 + 8 ≤ n) l →
  run (saves b l ++ p) M = run p (set_mmem (save_regs (regs M) pa l (mmem M)) M).
Proof.
  induction l as [|s l IH]; intros M Hb Hr HD Hv Hn Hl.
  { by destruct M. }
  apply Forall_cons in Hl as [[H0 H8] Hl]. cbn [saves fmap list_fmap app run]. rewrite Hb.
  rewrite (translate_ok D true va pa n) by done. cbn [mbind outcome_bind]. fold (saves b l).
  rewrite IH; try done. apply reaches_mem; [|done]. intros x Hx. apply write_word_other. intros Hw. apply Hx, HD. lia.
Qed.

Lemma run_loads D b l p va pa n : ∀ M,
  regs M b = va → reaches D va pa n M → 0 ≤ va → va + n ≤ 2 ^ 64 → Forall (λ s : reg * Z, 0 ≤ s.2 ∧ s.2 + 8 ≤ n) l →
  (∀ o, (b, o) ∈ l → read_word (mmem M) (pa + o) = va) →
  run (loads b l ++ p) M =
    run p (mkM (load_regs (mmem M) pa l (regs M)) (csr_file M) (sscratch M) (mode M) (mmem M)).
Proof.
  induction l as [|s l IH]; intros M Hb Hr Hv Hn Hl Hsame.
  { by destruct M. }
  apply Forall_cons in Hl as [[H0 H8] Hl]. cbn [loads fmap list_fmap app run]. rewrite Hb.
  rewrite (translate_ok D false va pa n) by done. cbn [mbind outcome_bind]. fold (loads b l). rewrite IH; try done.
  - cbn. destruct (decide (s.1 = b)) as [E|Hne].
    + rewrite <- E, fn_lookup_insert. apply Hsame. rewrite <- E, <- surjective_pairing. by left.
    + by rewrite fn_lookup_insert_ne.
  - intros o Ho. apply Hsame. by right.
Qed.

Lemma slots_bounds l n : slots_ok l n → Forall (λ s : reg * Z, 0 ≤ s.2 ∧ s.2 + 8 ≤ n) l.
Proof. intros [_ _ Hw]. eapply Forall_impl; [exact Hw|]. by intros s (_ & ? & ?). Qed.

Lemma slot_bounds l n r o : slots_ok l n → (r, o) ∈ l → 0 ≤ o ∧ o + 8 ≤ n.
Proof. intros Hok Hin. by apply (proj1 (Forall_forall _ _) (slots_bounds l n Hok) (r, o)). Qed.

Lemma save_regs_frame rf base l m n x :
  slots_ok l n → ¬ (base ≤ x < base + n) → save_regs rf base l m x = m x.
Proof.
  intros [_ _ Hw] Hx. apply save_regs_other. intros s Hs. rewrite Forall_forall in Hw. specialize (Hw s Hs). cbn in Hw. lia.
Qed.
End Run.

(** ** Sv39 *)

(** The entries a walk goes through, from the root to the page. *)
Definition walk (m : mem) (root va : Z) : Z * Z * Z :=
  let e2 := read_word m (entry root (page_num va 2)) in
  let e1 := read_word m (entry (as_pagetable e2) (page_num va 1)) in
  (e2, e1, read_word m (entry (as_pagetable e1) (page_num va 0))).

(** A valid entry without permissions points to the next table. *)
Definition points (e : Z) : bool := Z.testbit e 0 && negb (Z.testbit e 1 || Z.testbit e 2 || Z.testbit e 3).
(** A page the supervisor reads and writes. *)
Definition kernel_page (e : Z) : bool := Z.testbit e 0 && Z.testbit e 1 && Z.testbit e 2 && negb (Z.testbit e 4).

(** Translation as the privileged specification has it, for the cases the
    programs meet: paging off, and a page of the supervisor that can be read and
    written.  The accessed and dirty bits are the hardware's business. *)
Class MmuLaws `{!Mmu} : Prop := {
  mmu_bare m w a : mmu m 0 w a = Some a;
  mmu_sv39 m root w va : page_ok root → root < 2 ^ 56 → 0 ≤ va < 2 ^ 38 →
    (let '(e2, e1, e0) := walk m root va in points e2 = true ∧ points e1 = true ∧ kernel_page e0 = true) →
    mmu m (as_satp root) w va = Some (as_pagetable (walk m root va).2 + va mod PGSIZE);
}.

(** An executable translation with these laws. *)
Definition sv39_mmu : Mmu := λ m sat w va,
  if sat =? 0 then Some va
  else if negb (Z.shiftr sat 60 =? 8) then None
  else
    let '(e2, e1, e0) := walk m (sat mod 2 ^ 44 * PGSIZE) va in
    if points e2 && points e1 && kernel_page e0 then Some (as_pagetable e0 + va mod PGSIZE) else None.

Lemma as_satp_root root : page_ok root → root < 2 ^ 56 → as_satp root = 8 * 2 ^ 60 + root / PGSIZE.
Proof.
  intros (Ha & H0 & _) H. unfold as_satp, SATP_SV39. rewrite Z.shiftr_div_pow2 by (by vm_compute).
  change (2 ^ PGSHIFT) with PGSIZE. change (Z.shiftl 8 60) with (8 * 2 ^ 60).
  assert (0 ≤ root / PGSIZE < 2 ^ 44) as Hr by (unfold PGSIZE in *; divlia).
  apply lor_disjoint; lia.
Qed.

Lemma sv39_mmu_laws : @MmuLaws sv39_mmu.
Proof.
  split; [done|]. intros m root w va Hp H56 Hva Hw. unfold mmu, sv39_mmu. rewrite (as_satp_root root Hp H56).
  destruct Hp as (Ha & H0 & _). assert (0 ≤ root / PGSIZE < 2 ^ 44) as Hr by (unfold PGSIZE in *; divlia).
  destruct (Z.eqb_spec (8 * 2 ^ 60 + root / PGSIZE) 0); [lia|]. rewrite Z.shiftr_div_pow2 by lia.
  rewrite Z.div_add_l, (Z.div_small (root / PGSIZE)) by lia. cbn [negb Z.eqb Z.add Pos.eqb].
  replace ((8 * 2 ^ 60 + root / PGSIZE) mod 2 ^ 44 * PGSIZE) with root.
  - destruct (walk m root va) as [[e2 e1] e0]. destruct Hw as (-> & -> & ->). done.
  - replace (8 * 2 ^ 60) with (2 ^ 19 * 2 ^ 44) by lia. rewrite Z.add_comm, Z.mod_add, Z.mod_small by lia.
    unfold PGSIZE in *. divlia.
Qed.

(** Tables of slots are checked by computation. *)
Ltac slots_check := split; apply (bool_decide_unpack _); by vm_compute.

(** Registers hold 64-bit values. *)
Definition regs_ok (M : machine) : Prop := ∀ r, 0 ≤ regs M r < 2 ^ 64.

Global Opaque run.

(** Straight-line instructions without memory accesses. *)
#[export] Hint Rewrite @run_addi @run_add @run_mul @run_li @run_csrr @run_csrw @run_csrrw @run_sfence @run_call
  @run_jr @run_ret @run_sret @run_mret : asm.
