(* ===== verification/AsmTheorems.v ===== *)
(** * What the assembly does

    The context switch, the trap vectors of kernel and timer, and the entry
    point. *)

From Stdlib Require Import ZArith Lia.
From stdpp Require Import base functions gmap strings numbers list.
From S2P Require Import Prelude Address Pte PhysMem PageTable Registers Trap Asm AsmSpec.

Local Open Scope Z_scope.

(** ** The context switch *)

(** The fields of [Context]. *)
Definition ctx_slots : slots :=
  [(RA, 0); (SP, 8); (S0, 16); (S1, 24); (S2, 32); (S3, 40); (S4, 48); (S5, 56); (S6, 64); (S7, 72);
   (S8, 80); (S9, 88); (S10, 96); (S11, 104)].
Definition CONTEXT_SIZE : Z := 112.

Lemma ctx_slots_ok : slots_ok ctx_slots CONTEXT_SIZE.
Proof. slots_check. Qed.

Lemma switch_split : switch = saves A0 ctx_slots ++ loads A1 ctx_slots ++ [RET].
Proof. done. Qed.

Definition in_range (a n x : Z) : Prop := a ≤ x < a + n.

Section Switch.
Context {MU : Mmu}.

(** A call [switch(old, new)] on contexts the kernel can reach at their
    addresses. *)
Record switch_call (old new : Z) (M : machine) : Prop := {
  sc_old : regs M A0 = old;
  sc_new : regs M A1 = new;
  sc_regs : regs_ok M;
  sc_range : 0 ≤ old ∧ old + CONTEXT_SIZE ≤ 2 ^ 64 ∧ 0 ≤ new ∧ new + CONTEXT_SIZE ≤ 2 ^ 64;
  sc_apart : old + CONTEXT_SIZE ≤ new ∨ new + CONTEXT_SIZE ≤ old;
  sc_old_at : reaches (in_range old CONTEXT_SIZE) old old CONTEXT_SIZE M;
  sc_new_at : reaches (in_range old CONTEXT_SIZE) new new CONTEXT_SIZE M;
}.

Lemma switch_ok old new M :
  switch_call old new M →
  let m := save_regs (regs M) old ctx_slots (mmem M) in
  run switch M = Done (Jumps (load_regs m new ctx_slots (regs M) RA),
    mkM (load_regs m new ctx_slots (regs M)) (csr_file M) (sscratch M) (mode M) m).
Proof.
  intros [Ho Hn Hr (H1 & H2 & H3 & H4) Ha Hao Han] m. rewrite switch_split.
  rewrite (run_saves (in_range old CONTEXT_SIZE) A0 ctx_slots _ old old CONTEXT_SIZE)
    by (done || apply slots_bounds, ctx_slots_ok). fold m.
  rewrite (run_loads (in_range old CONTEXT_SIZE) A1 ctx_slots [RET] new new CONTEXT_SIZE); [by rewrite run_ret|done| |done|done| |].
  - apply reaches_mem; [|done]. intros x Hx. by apply (save_regs_frame _ _ _ _ _ _ ctx_slots_ok).
  - apply slots_bounds, ctx_slots_ok.
  - intros o Hin. exfalso. apply (list_elem_of_fmap_2 fst) in Hin. revert Hin. apply (bool_decide_unpack _). by vm_compute.
Qed.

Lemma ctx_value m base rf r o : (r, o) ∈ ctx_slots → load_regs m base ctx_slots rf r = read_word m (base + o).
Proof. intros Hin. apply load_regs_in; [apply ctx_slots_ok|done]. Qed.

(** C16 The context switch.  [switch(a, b)] continues at the return address of
    context [b] with its stack and its saved registers, leaves all other
    registers and all memory but context [a] as they are, and when anybody later
    switches to [a], its words being as they were left, the caller continues
    behind its call with its stack pointer and saved registers. *)
Theorem switch_resumes a b c M1 M2
    (H1 : switch_call a b M1) (H2 : switch_call c a M2) :
  ∃ M1', run switch M1 = Done (Jumps (regs M1' RA), M1') ∧
    (∀ r o, (r, o) ∈ ctx_slots → regs M1' r = read_word (mmem M1) (b + o)) ∧
    (∀ r, r ∉ ctx_slots.*1 → regs M1' r = regs M1 r) ∧
    (∀ x, ¬ in_range a CONTEXT_SIZE x → mmem M1' x = mmem M1 x) ∧ csr_file M1' = csr_file M1 ∧
    ((∀ x, in_range a CONTEXT_SIZE x → mmem M2 x = mmem M1' x) →
     ∃ M2', run switch M2 = Done (Jumps (regs M1 RA), M2') ∧ ∀ r, r ∈ ctx_slots.*1 → regs M2' r = regs M1 r).
Proof.
  rewrite (switch_ok a b M1 H1), (switch_ok c a M2 H2). eexists (mkM _ _ _ _ _). split; [done|]. cbn [regs mmem csr_file].
  set (m1 := save_regs (regs M1) a ctx_slots (mmem M1)). set (m2 := save_regs (regs M2) c ctx_slots (mmem M2)).
  split. { intros r o Hin. rewrite (ctx_value _ _ _ _ o Hin). apply read_word_ext. intros x Hx.
    apply (save_regs_frame _ _ _ _ _ _ ctx_slots_ok). pose proof (slot_bounds _ _ _ _ ctx_slots_ok Hin) as Hw. pose proof (sc_apart _ _ _ H1). lia. }
  split; [intros r Hr; by apply load_regs_out|].
  split; [intros x Hx; by apply (save_regs_frame _ _ _ _ _ _ ctx_slots_ok)|]. split; [done|]. intros Hsame.
  assert (∀ r, r ∈ ctx_slots.*1 → load_regs m2 a ctx_slots (regs M2) r = regs M1 r) as Hall.
  { intros r Hr. apply list_elem_of_fmap in Hr as ([r' o] & -> & Hin). cbn [fst]. rewrite (ctx_value _ _ _ _ o Hin).
    rewrite <- (save_regs_word (regs M1) a ctx_slots (mmem M1) CONTEXT_SIZE r' o ctx_slots_ok (sc_regs _ _ _ H1) Hin).
    pose proof (slot_bounds _ _ _ _ ctx_slots_ok Hin) as Hw.
    apply read_word_ext. intros x Hx. unfold m2. rewrite (save_regs_frame _ _ _ _ _ _ ctx_slots_ok).
    - apply Hsame. unfold in_range. lia.
    - pose proof (sc_apart _ _ _ H2). lia. }
  eexists (mkM _ _ _ _ _). split; [|exact Hall]. rewrite Hall; [done|by left].
Qed.
End Switch.

(** ** Traps in the kernel *)

Definition frame_slots : slots :=
  [(RA, 0); (SP, 8); (GP, 16); (TP, 24); (T0, 32); (T1, 40); (T2, 48); (S0, 56); (S1, 64); (A0, 72); (A1, 80);
   (A2, 88); (A3, 96); (A4, 104); (A5, 112); (A6, 120); (A7, 128); (S2, 136); (S3, 144); (S4, 152); (S5, 160);
   (S6, 168); (S7, 176); (S8, 184); (S9, 192); (S10, 200); (S11, 208); (T3, 216); (T4, 224); (T5, 232); (T6, 240)].
Definition FRAME_SIZE : Z := 256.
(** All but [tp] are loaded again. *)
Definition frame_loads : slots := filter (λ s : reg * Z, s.1 ≠ TP) frame_slots.

Lemma frame_slots_ok : slots_ok frame_slots FRAME_SIZE.
Proof. slots_check. Qed.
Lemma frame_loads_ok : slots_ok frame_loads FRAME_SIZE.
Proof. slots_check. Qed.
Lemma frame_regs r : r ∈ frame_slots.*1.
Proof. apply (bool_decide_unpack _). by destruct r; vm_compute. Qed.

(** The instructions after the call of [kernel_trap]. *)
Definition kernelvec_end : list instr := loads SP frame_loads ++ [ADDI SP SP 256; SRET].

Lemma kernelvec_split f : kernelvec f = ADDI SP SP (-256) :: saves SP frame_slots ++ CALL f :: kernelvec_end.
Proof. done. Qed.

Section Kernelvec.
Context {MU : Mmu} (D : Z → Prop) (pa : Z).

(** The machine when [kernel_trap] is called. *)
Definition framed (M : machine) : machine :=
  let M0 := set_reg SP (regs M SP - FRAME_SIZE) M in
  set_mmem (save_regs (regs M0) pa frame_slots (mmem M)) M0.

Lemma framed_reg M r : regs (framed M) r = if decide (r = SP) then regs M SP - FRAME_SIZE else regs M r.
Proof. unfold framed. cbn [regs set_mmem set_reg]. unfold insert, fn_insert. by repeat case_decide; subst. Qed.

Lemma framed_regs_ok M : regs_ok M → FRAME_SIZE ≤ regs M SP → regs_ok (framed M).
Proof. intros Hr Hs r. rewrite framed_reg. pose proof (Hr SP). case_decide; [unfold FRAME_SIZE in *; lia|apply Hr]. Qed.

Lemma framed_word M r o :
  regs_ok M → FRAME_SIZE ≤ regs M SP → (r, o) ∈ frame_slots → read_word (mmem (framed M)) (pa + o) = regs (framed M) r.
Proof.
  intros Hr Hs Hin. apply (save_regs_word _ pa frame_slots (mmem M) FRAME_SIZE r o frame_slots_ok); [|done].
  intros r'. exact (framed_regs_ok M Hr Hs r').
Qed.

Lemma framed_other M x : ¬ in_range pa FRAME_SIZE x → mmem (framed M) x = mmem M x.
Proof. apply (save_regs_frame _ _ _ _ _ _ frame_slots_ok). Qed.

Lemma kernelvec_enter f M :
  regs_ok M → FRAME_SIZE ≤ regs M SP → reaches D (regs M SP - FRAME_SIZE) pa FRAME_SIZE M →
  (∀ x, in_range pa FRAME_SIZE x → D x) →
  run (kernelvec f) M = Done (Calls f kernelvec_end, framed M).
Proof.
  intros Hr Hs Hf HD. rewrite kernelvec_split, run_addi. pose proof (Hr SP) as Hsp.
  assert (wrap64 (regs M SP + -256) = regs M SP - FRAME_SIZE) as ->
    by (unfold wrap64, FRAME_SIZE in *; rewrite Z.mod_small; lia).
  rewrite (run_saves D SP frame_slots _ (regs M SP - FRAME_SIZE) pa FRAME_SIZE);
    [by rewrite run_call|by apply fn_lookup_insert|done|done|lia|lia|apply slots_bounds, frame_slots_ok].
Qed.

Lemma kernelvec_leave sp M :
  regs M SP = sp → 0 ≤ sp → sp + FRAME_SIZE < 2 ^ 64 → reaches D sp pa FRAME_SIZE M → read_word (mmem M) (pa + 8) = sp →
  ∃ M', run kernelvec_end M = Done (Srets, M') ∧ csr_file M' = csr_file M ∧ mmem M' = mmem M ∧
    regs M' TP = regs M TP ∧ regs M' SP = sp + FRAME_SIZE ∧
    ∀ r o, (r, o) ∈ frame_slots → r ≠ TP → r ≠ SP → regs M' r = read_word (mmem M) (pa + o).
Proof.
  intros Hsp H0 H1 Hr Hs8. unfold kernelvec_end.
  assert (∀ s, s ∈ frame_loads → s.1 = SP → s.2 = 8) as Ho.
  { apply (Forall_forall (λ s : reg * Z, s.1 = SP → s.2 = 8) frame_loads). apply (bool_decide_unpack _). by vm_compute. }
  rewrite (run_loads D SP frame_loads _ sp pa FRAME_SIZE);
    [|done|done|lia|lia|apply slots_bounds, frame_loads_ok|intros o Hin; by rewrite (Ho _ Hin eq_refl : o = 8)].
  set (rf := load_regs (mmem M) pa frame_loads (regs M)).
  assert (∀ r o, (r, o) ∈ frame_loads → rf r = read_word (mmem M) (pa + o)) as Hl.
  { intros r o Hin. apply load_regs_in; [apply frame_loads_ok|done]. }
  assert (rf SP = sp) as Es. { rewrite (Hl SP 8); [done|]. apply (bool_decide_unpack _). by vm_compute. }
  eexists. split; [by rewrite run_addi, run_sret|]. cbn [csr_file mmem regs set_reg]. split; [done|]. split; [done|]. split; [|split].
  - rewrite fn_lookup_insert_ne by done. apply load_regs_out. apply (bool_decide_unpack _). by vm_compute.
  - rewrite fn_lookup_insert, Es. unfold wrap64, FRAME_SIZE in *. apply Z.mod_small. lia.
  - intros r o Hin Ht Hp. rewrite fn_lookup_insert_ne by done. apply Hl. by apply list_elem_of_filter.
Qed.
End Kernelvec.

(** C21 A trap in the kernel is invisible to what it interrupted.  [kernelvec]
    calls [kernel_trap] with all registers saved on the stack, and when
    [kernel_trap] returns with the stack pointer and the saved frame as they were,
    [kernelvec] returns with every register as it was at the trap, except [tp],
    which is the one of the hart that runs it now. *)
Theorem kernelvec_transparent {MU : Mmu} D f pa M
    (Hregs : regs_ok M) (Hsp : FRAME_SIZE ≤ regs M SP)
    (Hframe : reaches D (regs M SP - FRAME_SIZE) pa FRAME_SIZE M) (HD : ∀ x, in_range pa FRAME_SIZE x → D x) :
  ∃ M1, run (kernelvec f) M = Done (Calls f kernelvec_end, M1) ∧
    regs M1 SP = regs M SP - FRAME_SIZE ∧ (∀ r, r ≠ SP → regs M1 r = regs M r) ∧ csr_file M1 = csr_file M ∧
    (∀ x, ¬ in_range pa FRAME_SIZE x → mmem M1 x = mmem M x) ∧
    ∀ M2, regs M2 SP = regs M1 SP → (∀ x, in_range pa FRAME_SIZE x → mmem M2 x = mmem M1 x) →
      reaches D (regs M1 SP) pa FRAME_SIZE M2 →
      ∃ M3, run kernelvec_end M2 = Done (Srets, M3) ∧
        (∀ r, regs M3 r = if decide (r = TP) then regs M2 TP else regs M r) ∧
        csr_file M3 = csr_file M2 ∧ mmem M3 = mmem M2.
Proof.
  exists (framed pa M). split; [by apply (kernelvec_enter D)|]. rewrite framed_reg, decide_True by done.
  split; [done|]. split; [intros r Hne; by rewrite framed_reg, decide_False|]. split; [done|].
  split; [apply framed_other|]. intros M2 E2 Hsame Hr2.
  assert (∀ r o, (r, o) ∈ frame_slots → read_word (mmem M2) (pa + o) = regs (framed pa M) r) as Hw.
  { intros r o Hin. rewrite <- (framed_word pa M r o Hregs Hsp Hin). pose proof (slot_bounds _ _ _ _ frame_slots_ok Hin).
    apply read_word_ext. intros x Hx. apply Hsame. unfold in_range. lia. }
  pose proof (Hregs SP). destruct (kernelvec_leave D pa (regs M SP - FRAME_SIZE) M2) as (M3 & Hrun & Hc & Hm & Htp & Hsp3 & Hrest);
    try done; try lia.
  { rewrite (Hw SP 8), framed_reg, decide_True; [done..|]. apply (bool_decide_unpack _). by vm_compute. }
  exists M3. split; [done|]. split; [|done]. intros r. case_decide as E; [by subst|].
  destruct (decide (r = SP)) as [->|Hne]; [rewrite Hsp3; lia|].
  destruct (proj1 (list_elem_of_fmap _ _ _) (frame_regs r)) as ([r' o] & -> & Hin). cbn [fst] in *.
  rewrite (Hrest r' o Hin E Hne), (Hw _ _ Hin), framed_reg. by rewrite decide_False.
Qed.

(** ** The timer *)

(** Registers and fields of a machine after a few updates. *)
Ltac machine_simpl :=
  cbn [regs csr_file sscratch mode mmem set_reg set_mmem set_csrs set_sscratch csr_get csr_set mscratch set_mscratch
       set_sip sip satp];
  repeat first [rewrite fn_lookup_insert|rewrite fn_lookup_insert_ne by discriminate].

Definition TIMER_SCRATCH_SIZE : Z := 40.

Section Timer.
Context {MU : Mmu}.

(** What [timervec] leaves, for the scratch area [s] with the address [c] of the
    compare register and the interval [d]. *)
Lemma timervec_ok M s c d :
  mode M = Machine → regs_ok M → mscratch (csr_file M) = s → 0 ≤ s → s + TIMER_SCRATCH_SIZE ≤ 2 ^ 64 →
  read_word (mmem M) (s + 24) = c → read_word (mmem M) (s + 32) = d → c + 8 ≤ 2 ^ 64 →
  c + 8 ≤ s ∨ s + TIMER_SCRATCH_SIZE ≤ c →
  ∃ M', run timervec M = Done (Mrets, M') ∧ (∀ r, regs M' r = regs M r) ∧ mode M' = Machine ∧
    csr_file M' = set_sip (put_bit (sip (csr_file M)) 1 true) (csr_file M) ∧
    read_word (mmem M') c = wrap64 (read_word (mmem M) c + d) ∧
    (∀ x, ¬ in_range s 24 x → ¬ in_range c 8 x → mmem M' x = mmem M x).
Proof.
  intros Hm Hr Hs H0 H1 Hc Hd Hc1 Hap. unfold TIMER_SCRATCH_SIZE in *. pose proof (read_word_range (mmem M) (s + 24)) as Hcr. rewrite Hc in Hcr.
  unfold timervec. rewrite run_csrrw. machine_simpl. rewrite Hs.
  do 3 (rewrite run_sd_machine by (machine_simpl; done || lia); machine_simpl).
  do 2 (rewrite run_ld_machine by (machine_simpl; done || lia); machine_simpl).
  rewrite !read_word_write_ne by lia. rewrite Hc, Hd.
  rewrite run_ld_machine by (machine_simpl; done || lia). machine_simpl. rewrite run_add. machine_simpl.
  rewrite !read_word_write_ne by lia. rewrite run_sd_machine by (machine_simpl; done || lia). machine_simpl.
  rewrite run_li, run_csrw. machine_simpl. rewrite (Z.add_0_r c). set (v := wrap64 _).
  set (m := write_word _ c v).
  assert (read_word m (s + 16) = regs M A3 ∧ read_word m (s + 8) = regs M A2 ∧ read_word m (s + 0) = regs M A1) as (E3 & E2 & E1).
  { unfold m. split; [|split]; repeat first [rewrite read_word_write by apply Hr|rewrite read_word_write_ne by lia]; done. }
  do 3 (rewrite run_ld_machine by (machine_simpl; done || lia); machine_simpl).
  rewrite E1, E2, E3, run_csrrw, run_mret. machine_simpl. eexists. split; [done|]. machine_simpl. split; [|split; [|split; [|split]]].
  - intros r. unfold insert, fn_insert. by repeat case_decide; subst.
  - done.
  - subst s. by destruct (csr_file M).
  - apply read_word_write. unfold v, wrap64. by apply Z.mod_pos_bound.
  - intros x Hx Hx'. unfold in_range, m in *. by rewrite !write_word_other by lia.
Qed.

Lemma timer_init_ok {BF : BitField} tv scratch mtime r r' t :
  timer_init tv scratch mtime r = Done (r', t) → 0 ≤ mhartid r →
  mhartid r < NCPU ∧ mscratch r' = scratch ∧ t_scratch3 t = (t_mtimecmp t).1 ∧ t_scratch4 t = INTERVAL ∧
  (t_mtimecmp t).1 = CLINT_MTIMECMP + 8 * mhartid r.
Proof.
  unfold timer_init, add_mtimecmp, count_mtiecmp, ensure. intros H H0. destruct (Z.ltb_spec (mhartid r) NCPU) as [Hn|]; revert H.
  - assert (NCPU = 8) as E8 by done. assert (0 ≤ CLINT ∧ CLINT + 0x10000 < 2 ^ 64 ∧ CLINT_MTIMECMP = CLINT + 0x4000) as (Hc0 & Hc1 & Hc2) by by vm_compute.
    rewrite (umul_ok 8 (mhartid r)) by lia. cbn [mbind outcome_bind]. rewrite (uadd_ok CLINT_MTIMECMP) by lia. cbn [mbind outcome_bind].
    destruct (uadd mtime INTERVAL); [|done..]. cbn [mbind outcome_bind]. rewrite (uadd_ok CLINT) by lia. cbn [mbind outcome_bind].
    rewrite uadd_ok by lia. cbn [mbind outcome_bind]. intros [= <- <-]. cbn. split; [done|]. split; [done|]. split; [lia|done].
  - destruct (umul 8 (mhartid r)); cbn [mbind outcome_bind]; [|done..]. destruct (uadd CLINT_MTIMECMP a); cbn [mbind outcome_bind]; [|done..].
    by destruct (uadd mtime INTERVAL).
Qed.
End Timer.

(** C32 The timer.  On a hart that [timer_init] has prepared, the timer interrupt
    moves the hart's own compare register on by the interval, raises the
    supervisor software interrupt that [user_trap] and [kernel_trap] take for the
    clock, and returns with all registers as they were, having written to
    nothing but the hart's scratch area. *)
Theorem timer_ticks {MU : Mmu} {BF : BitField} tv scratch mtime r r' t M
    (Hinit : timer_init tv scratch mtime r = Done (r', t)) (Hid : 0 ≤ mhartid r)
    (Hmode : mode M = Machine) (Hregs : regs_ok M) (Hcsr : mscratch (csr_file M) = mscratch r')
    (Hscr : 0 ≤ scratch ∧ scratch + TIMER_SCRATCH_SIZE ≤ 2 ^ 64)
    (Hram : CLINT + 0x10000 ≤ scratch)
    (Hcmp : read_word (mmem M) (scratch + 24) = t_scratch3 t) (Hint : read_word (mmem M) (scratch + 32) = t_scratch4 t) :
  ∃ M', run timervec M = Done (Mrets, M') ∧ (∀ g, regs M' g = regs M g) ∧ mode M' = Machine ∧
    csr_file M' = set_sip (put_bit (sip (csr_file M)) 1 true) (csr_file M) ∧
    read_word (mmem M') (CLINT_MTIMECMP + 8 * mhartid r) =
      wrap64 (read_word (mmem M) (CLINT_MTIMECMP + 8 * mhartid r) + INTERVAL) ∧
    (∀ x, ¬ in_range scratch 24 x → ¬ in_range (CLINT_MTIMECMP + 8 * mhartid r) 8 x → mmem M' x = mmem M x).
Proof.
  destruct (timer_init_ok _ _ _ _ _ _ Hinit Hid) as (Hn & Es & E3 & E4 & Ec). rewrite E3, Ec in Hcmp. rewrite E4 in Hint.
  assert (CLINT_MTIMECMP = CLINT + 0x4000 ∧ CLINT = 0x2000000 ∧ NCPU = 8) as (Hc & HC & E8) by done.
  apply (timervec_ok M scratch); try done; [congruence|lia..].
Qed.

(** ** The entry point *)

(** Each hart starts on its own stack: [_entry] calls [start] with the stack
    pointer at the top of the hart's 16384 bytes of [stack0], and the stacks of
    different harts do not overlap. *)
Theorem entry_stacks {MU : Mmu} stack0 start M1 M2
    (Hs : 0 ≤ stack0 ∧ stack0 + 16384 * NCPU < 2 ^ 64)
    (H1 : 0 ≤ mhartid (csr_file M1) < NCPU) (H2 : 0 ≤ mhartid (csr_file M2) < NCPU)
    (Hne : mhartid (csr_file M1) ≠ mhartid (csr_file M2)) :
  ∃ M1' M2', run (entry_code stack0 start) M1 = Done (Calls start [], M1') ∧
    run (entry_code stack0 start) M2 = Done (Calls start [], M2') ∧
    (∀ x, in_range (regs M1' SP - 16384) 16384 x → in_range stack0 (16384 * NCPU) x ∧ ¬ in_range (regs M2' SP - 16384) 16384 x).
Proof.
  assert (∀ M, 0 ≤ mhartid (csr_file M) < NCPU → ∃ M', run (entry_code stack0 start) M = Done (Calls start [], M') ∧
    regs M' SP = stack0 + 16384 * (mhartid (csr_file M) + 1)) as Hrun.
  { intros M HM. assert (NCPU = 8) as E8 by done. eexists. split.
    - unfold entry_code. autorewrite with asm. done.
    - machine_simpl. unfold wrap64. rewrite (Z.mod_small (_ + 1)) by lia. rewrite (Z.mod_small (16384 * _)) by lia. apply Z.mod_small. lia. }
  destruct (Hrun M1 H1) as (M1' & R1 & E1), (Hrun M2 H2) as (M2' & R2 & E2). exists M1', M2'. split; [done|]. split; [done|].
  rewrite E1, E2. assert (NCPU = 8) as E8 by done. unfold in_range. intros x Hx. lia.
Qed.

(** ** Instances *)

Definition demo_csrs : csrs := mkCsrs 0 0 0 0 0 0 0 0 0 0 0 0 0 0 0x80009000 1 0 0 0.

(** A hart with translation off. *)
Lemma bare_reaches D a n rf r sc p m :
  satp r = 0 → @reaches sv39_mmu D a a n (mkM rf r sc p m).
Proof. intros Hs. unfold reaches. case_decide; [done|]. cbn [csr_file mmem]. rewrite Hs. by intros m' _ w o _ _. Qed.

Definition demo_switch (a b : Z) (m : mem) : machine :=
  mkM (<[A0 := a]> (<[A1 := b]> (λ _, 7))) demo_csrs 0 Supervisor m.

Lemma demo_switch_call a b m :
  0 ≤ a → a + CONTEXT_SIZE ≤ b → b + CONTEXT_SIZE ≤ 2 ^ 64 → @switch_call sv39_mmu a b (demo_switch a b m) ∧
  @switch_call sv39_mmu b a (demo_switch b a m).
Proof.
  assert (CONTEXT_SIZE = 112) as E by done. intros H0 H1 H2.
  assert (∀ a b, 0 ≤ a < 2 ^ 64 → 0 ≤ b < 2 ^ 64 → regs_ok (demo_switch a b m)) as Hr.
  { intros x y Hx Hy r. cbn [demo_switch regs]. unfold insert, fn_insert. repeat case_decide; lia. }
  split; split; (done || lia || (apply Hr; lia) || by apply bare_reaches).
Qed.

Lemma switch_resumes_witness :
  ∃ M1', run (MU := sv39_mmu) switch (demo_switch 0x1000 0x2000 (λ _, 0)) = Done (Jumps (regs M1' RA), M1') ∧
    regs M1' SP = 0 ∧
    ∃ M2', run (MU := sv39_mmu) switch (demo_switch 0x2000 0x1000 (mmem M1')) = Done (Jumps 7, M2') ∧ regs M2' SP = 7.
Proof.
  assert (CONTEXT_SIZE = 112) as E by done.
  destruct (demo_switch_call 0x1000 0x2000 (λ _, 0)) as [H1 _]; [lia..|].
  set (M1 := demo_switch 0x1000 0x2000 (λ _, 0)) in *.
  set (M1' := mkM (load_regs (save_regs (regs M1) 0x1000 ctx_slots (mmem M1)) 0x2000 ctx_slots (regs M1)) (csr_file M1) (sscratch M1)
    (mode M1) (save_regs (regs M1) 0x1000 ctx_slots (mmem M1))).
  destruct (demo_switch_call 0x1000 0x2000 (mmem M1')) as [_ H2]; [lia..|].
  destruct (switch_resumes (MU := sv39_mmu) 0x1000 0x2000 0x2000 M1 _ H1 H2) as (M & Hrun & Hregs & _ & _ & _ & Hback).
  assert (M = M1') as ->. { rewrite (switch_ok (MU := sv39_mmu) _ _ _ H1) in Hrun. by injection Hrun. }
  exists M1'. split; [exact Hrun|]. split; [rewrite (Hregs SP 8); [done|by right; left]|].
  destruct Hback as (M2' & Hrun2 & Hr2); [done|]. exists M2'. split; [exact Hrun2|]. apply (Hr2 SP). by right; left.
Defined.

Definition demo_kernel_hart : machine := mkM (λ _, 0x80100000) demo_csrs 0 Supervisor (λ _, 0).

Lemma kernelvec_transparent_witness :
  ∃ M1 M3, run (MU := sv39_mmu) (kernelvec 0x80003000) demo_kernel_hart = Done (Calls 0x80003000 kernelvec_end, M1) ∧
    run (MU := sv39_mmu) kernelvec_end (set_reg TP 2 (set_reg A0 5 M1)) = Done (Srets, M3) ∧
    regs M3 A0 = 0x80100000 ∧ regs M3 TP = 2 ∧ regs M3 SP = 0x80100000.
Proof.
  destruct (kernelvec_transparent (MU := sv39_mmu) (λ _, True) 0x80003000 (0x80100000 - FRAME_SIZE) demo_kernel_hart)
    as (M1 & Hrun & Hsp & _ & Hc & _ & Hback).
  - intros r. cbn. lia.
  - by vm_compute.
  - by apply bare_reaches.
  - done.
  - destruct (Hback (set_reg TP 2 (set_reg A0 5 M1))) as (M3 & Hrun3 & Hr & _).
    + by machine_simpl.
    + done.
    + rewrite Hsp. unfold set_reg. apply bare_reaches. cbn [csr_file]. by rewrite Hc.
    + exists M1, M3. split; [exact Hrun|]. split; [exact Hrun3|]. repeat split; by rewrite Hr.
Defined.

Definition demo_timer_regs : csrs := mkCsrs 0 0 0 0 0 0 0 0 0 0 0 0 0 0 0 1 0 0 0.

Lemma demo_timer_init :
  ∃ r' t, timer_init (BF := bit_field_std) 0x80003000 0x80009000 500 demo_timer_regs = Done (r', t) ∧
    t_scratch3 t = CLINT_MTIMECMP + 8 ∧ t_scratch4 t = INTERVAL ∧ mscratch r' = 0x80009000 ∧ sip r' = 0.
Proof. eexists _, _. split; [vm_compute; reflexivity|by vm_compute]. Qed.

Lemma demo_timer_compare a b :
  wrap64 (read_word (write_word (write_word (λ _, 0) 0x80009018 a) 0x80009020 b) (CLINT_MTIMECMP + 8) + INTERVAL) = INTERVAL.
Proof.
  assert (CLINT_MTIMECMP + 8 = 0x2004008) as -> by done. rewrite !read_word_write_ne by lia.
  assert (read_word (λ _, 0) 0x2004008 = 0) as -> by by vm_compute. by vm_compute.
Qed.

Lemma timer_ticks_witness :
  ∃ r' t, timer_init (BF := bit_field_std) 0x80003000 0x80009000 500 demo_timer_regs = Done (r', t) ∧
  let m := write_word (write_word (λ _, 0) 0x80009018 (t_scratch3 t)) 0x80009020 (t_scratch4 t) in
  ∃ M', run (MU := sv39_mmu) timervec (mkM (λ _, 7) r' 0 Machine m) = Done (Mrets, M') ∧
    read_word (mmem M') (CLINT_MTIMECMP + 8) = INTERVAL ∧ Z.testbit (sip (csr_file M')) 1 = true.
Proof.
  destruct demo_timer_init as (r' & t & E & E3 & E4 & Es & Ei). exists r', t. split; [exact E|]. cbn zeta. set (m := write_word _ _ _).
  destruct (timer_ticks (MU := sv39_mmu) (BF := bit_field_std) 0x80003000 0x80009000 500 demo_timer_regs r' t (mkM (λ _, 7) r' 0 Machine m))
    as (M' & Hrun & _ & _ & Hc & Hw & _);
    [done|done|done|by intros g; vm_compute|done|by vm_compute|by vm_compute|..].
  - cbn [mmem]. unfold m. rewrite read_word_write_ne, read_word_write; [done| |right; lia]. rewrite E3. by vm_compute.
  - cbn [mmem]. unfold m. rewrite read_word_write; [done|]. rewrite E4. by vm_compute.
  - exists M'. split; [exact Hrun|]. split; [|by rewrite Hc; cbn; rewrite Ei].
    assert (CLINT_MTIMECMP + 8 * mhartid demo_timer_regs = CLINT_MTIMECMP + 8) as Ea by done. rewrite Ea in Hw. rewrite Hw.
    apply demo_timer_compare.
Defined.

Lemma entry_stacks_witness :
  ∃ M', run (MU := sv39_mmu) (entry_code 0x80010000 0x80000100) (mkM (λ _, 0) demo_timer_regs 0 Machine (λ _, 0)) = Done (Calls 0x80000100 [], M') ∧
    ∀ x, in_range (regs M' SP - 16384) 16384 x → 0x80010000 ≤ x.
Proof.
  destruct (entry_stacks (MU := sv39_mmu) 0x80010000 0x80000100 (mkM (λ _, 0) demo_timer_regs 0 Machine (λ _, 0))
    (mkM (λ _, 0) (mkCsrs 0 0 0 0 0 0 0 0 0 0 0 0 0 0 0 0 0 0 0) 0 Machine (λ _, 0))) as (M' & M2' & Hrun & _ & Hs);
    [by vm_compute..|].
  exists M'. split; [exact Hrun|]. intros x Hx. apply (Hs x Hx).
Defined.
