(* ===== verification/AsmUser.v ===== *)
(** * From user mode into the kernel and back

    An [ecall] from its first to its last instruction: the trap of the hardware,
    [uservec], [user_trap], [userret] and [sret]. *)

From Stdlib Require Import ZArith Lia.
From stdpp Require Import base functions gmap strings numbers list.
From S2P Require Import Prelude Address Pte PhysMem PageTable Bytes Bio DiskLayout Log Bitmap Inode Path File Registers Cpu Proc Kernel Exec.
From S2P Require Import Syscall Trap BioClient PageTableTheorems PageTableSpec TrapTheorems Asm AsmSpec AsmTheorems.

Local Open Scope Z_scope.

(** ** The user's registers in the trap frame *)

(** All but [a0], which goes through [sscratch]. *)
Definition tf_slots : slots :=
  [(RA, 40); (SP, 48); (GP, 56); (TP, 64); (T0, 72); (T1, 80); (T2, 88); (S0, 96); (S1, 104); (A1, 120); (A2, 128);
   (A3, 136); (A4, 144); (A5, 152); (A6, 160); (A7, 168); (S2, 176); (S3, 184); (S4, 192); (S5, 200); (S6, 208);
   (S7, 216); (S8, 224); (S9, 232); (S10, 240); (S11, 248); (T3, 256); (T4, 264); (T5, 272); (T6, 280)].

Lemma tf_slots_ok : slots_ok tf_slots Tf.TRAPFRAME_SIZE.
Proof. slots_check. Qed.

(** The fields of [Trapframe]. *)
Definition tf_off (r : reg) : Z :=
  match r with
  | RA => 40 | SP => 48 | GP => 56 | TP => 64 | T0 => 72 | T1 => 80 | T2 => 88 | S0 => 96 | S1 => 104 | A0 => 112
  | A1 => 120 | A2 => 128 | A3 => 136 | A4 => 144 | A5 => 152 | A6 => 160 | A7 => 168 | S2 => 176 | S3 => 184
  | S4 => 192 | S5 => 200 | S6 => 208 | S7 => 216 | S8 => 224 | S9 => 232 | S10 => 240 | S11 => 248 | T3 => 256
  | T4 => 264 | T5 => 272 | T6 => 280
  end.

Lemma tf_slot r : r ≠ A0 → (r, tf_off r) ∈ tf_slots.
Proof. intros Hr. apply (bool_decide_unpack _). destruct r; by vm_compute || done. Qed.

Lemma tf_off_range r : 40 ≤ tf_off r ∧ tf_off r + 8 ≤ Tf.TRAPFRAME_SIZE.
Proof. change Tf.TRAPFRAME_SIZE with 288. destruct r; cbn; lia. Qed.

Lemma tf_off_a0 r : r ≠ A0 → tf_off r + 8 ≤ Tf.a0 ∨ Tf.a0 + 8 ≤ tf_off r.
Proof. change Tf.a0 with 112. destruct r; cbn; done || lia. Qed.

(** ** The window onto the trap frame *)

(** The table [pt] maps [TRAPFRAME] to the page [tf], which is not part of the
    walk. *)
Record frame_mapped (m : mem) (pt tf : Z) : Prop := {
  fm_root : page_ok pt ∧ pt < 2 ^ 56;
  fm_page : page_ok tf;
  fm_walk : let '(e2, e1, e0) := walk m pt TRAPFRAME in
    points e2 = true ∧ points e1 = true ∧ kernel_page e0 = true ∧ as_pagetable e0 = tf ∧
    Forall (λ a, a + 8 ≤ tf ∨ tf + PGSIZE ≤ a)
      [entry pt (page_num TRAPFRAME 2); entry (as_pagetable e2) (page_num TRAPFRAME 1);
       entry (as_pagetable e1) (page_num TRAPFRAME 0)];
}.

Lemma walk_ext m m' pt tf :
  frame_mapped m pt tf → (∀ x, ¬ in_range tf PGSIZE x → m' x = m x) → walk m' pt TRAPFRAME = walk m pt TRAPFRAME.
Proof.
  intros [_ _ Hw] Hm. unfold walk in *. cbn zeta in *. destruct Hw as (_ & _ & _ & _ & Hf).
  apply Forall_cons in Hf as [H2 Hf]. apply Forall_cons in Hf as [H1 Hf]. apply Forall_cons in Hf as [H0 _].
  assert (∀ a, a + 8 ≤ tf ∨ tf + PGSIZE ≤ a → read_word m' a = read_word m a) as He.
  { intros a Ha. apply read_word_ext. intros x Hx. apply Hm. unfold in_range. lia. }
  by rewrite (He _ H2), (He _ H1), (He _ H0).
Qed.

Lemma frame_mapped_ext m m' pt tf :
  frame_mapped m pt tf → (∀ x, ¬ in_range tf PGSIZE x → m' x = m x) → frame_mapped m' pt tf.
Proof. intros Hf Hm. pose proof (walk_ext m m' pt tf Hf Hm) as E. destruct Hf as [H1 H2 H3]. split; [done..|]. by rewrite E. Qed.

Lemma frame_window {MU : Mmu} {ML : MmuLaws} m pt tf :
  frame_mapped m pt tf → window (in_range tf PGSIZE) (as_satp pt) TRAPFRAME tf PGSIZE m.
Proof.
  intros Hf m' Hm w o H0 H8. apply (frame_mapped_ext m m') in Hf; [|done]. destruct Hf as [[Hr H56] _ Hw].
  assert (TRAPFRAME mod PGSIZE = 0 ∧ 0 ≤ TRAPFRAME ∧ TRAPFRAME + PGSIZE ≤ 2 ^ 38) as (Ha & Ht0 & Ht1) by by vm_compute.
  assert (page_of (TRAPFRAME + o) = page_of TRAPFRAME) as Hp by (unfold page_of, PGSIZE in *; divlia).
  assert (walk m' pt (TRAPFRAME + o) = walk m' pt TRAPFRAME) as E.
  { unfold walk. by rewrite !(page_num_cong (TRAPFRAME + o) TRAPFRAME) by (done || lia). }
  rewrite mmu_sv39; [|done|done|lia|].
  - rewrite E. destruct (walk m' pt TRAPFRAME) as [[e2 e1] e0]. destruct Hw as (_ & _ & _ & Et & _). cbn [snd].
    rewrite Et.     f_equal. unfold PGSIZE in *. divlia.
  - rewrite E. destruct (walk m' pt TRAPFRAME) as [[e2 e1] e0]. tauto.
Qed.

(** ** [uservec] *)

Section Vectors.
Context {MU : Mmu} {ML : MmuLaws} (pt tf : Z).

Abbreviation frame := (in_range tf PGSIZE).

Lemma uservec_split :
  uservec = CSRRW A0 SSCRATCH A0 :: saves A0 tf_slots ++
    [CSRR T0 SSCRATCH; SD T0 112 A0; CSRR T0 SEPC; SD T0 24 A0; LD SP 8 A0; LD TP 32 A0; LD T0 16 A0; LD T1 0 A0;
     CSRW SATP T1; SFENCE; JR T0].
Proof. done. Qed.

Lemma trapframe_va : 0 ≤ TRAPFRAME ∧ TRAPFRAME + PGSIZE ≤ 2 ^ 64.
Proof. by vm_compute. Qed.

(** The memory [uservec] leaves. *)
Definition saved_user (M : machine) : mem :=
  let m := save_regs (<[A0 := TRAPFRAME]> (regs M)) tf tf_slots (mmem M) in
  Tf.put (Tf.put m tf Tf.a0 (regs M A0)) tf Tf.epc (sepc (csr_file M)).

Lemma saved_user_reg M r : regs_ok M → Tf.get (saved_user M) tf (tf_off r) = regs M r.
Proof.
  intros Hr. unfold saved_user. destruct (tf_off_range r) as [H40 _].
  rewrite tf_get_put_ne by (unfold Tf.epc; lia). destruct (decide (r = A0)) as [->|Hne]; [by apply tf_get_put|].
  rewrite tf_get_put_ne by (pose proof (tf_off_a0 r Hne); lia). unfold Tf.get.
  rewrite (save_regs_word _ tf tf_slots (mmem M) Tf.TRAPFRAME_SIZE r (tf_off r) tf_slots_ok); [|..].
  - by apply fn_lookup_insert_ne.
  - intros r'. destruct (decide (r' = A0)) as [->|Hn]; [rewrite fn_lookup_insert; by vm_compute|].
    rewrite fn_lookup_insert_ne by done. apply Hr.
  - by apply tf_slot.
Qed.

Lemma saved_user_epc M : 0 ≤ sepc (csr_file M) < 2 ^ 64 → Tf.get (saved_user M) tf Tf.epc = sepc (csr_file M).
Proof. intros H. by apply tf_get_put. Qed.

(** The fields for the kernel stay. *)
Lemma saved_user_kernel M o : o + 8 ≤ Tf.epc ∨ o = Tf.kernel_hartid → Tf.get (saved_user M) tf o = Tf.get (mmem M) tf o.
Proof.
  unfold Tf.epc, Tf.kernel_hartid. intros Ho. unfold saved_user. rewrite !tf_get_put_ne by (unfold Tf.epc, Tf.a0; lia).
  apply save_regs_word_ne. intros s Hs. pose proof (proj1 (Forall_forall (λ s : reg * Z, 40 ≤ s.2) tf_slots)) as Hf.
  specialize (Hf ltac:(apply (bool_decide_unpack _); by vm_compute) s Hs). cbn in Hf. lia.
Qed.

Lemma saved_user_frame M x : ¬ (tf ≤ x < tf + Tf.TRAPFRAME_SIZE) → saved_user M x = mmem M x.
Proof.
  intros Hx. unfold saved_user, Tf.put. change Tf.TRAPFRAME_SIZE with 288 in Hx.
  rewrite !write_word_other by (unfold Tf.epc, Tf.a0; lia). by apply (save_regs_frame _ _ _ _ 288 _ tf_slots_ok).
Qed.

Lemma frame_sub x : tf ≤ x < tf + Tf.TRAPFRAME_SIZE → frame x.
Proof. unfold in_range. change Tf.TRAPFRAME_SIZE with 288. unfold PGSIZE. lia. Qed.

Lemma frame_reaches M :
  mode M = Supervisor → satp (csr_file M) = as_satp pt → frame_mapped (mmem M) pt tf → reaches frame TRAPFRAME tf PGSIZE M.
Proof. intros Hm Hs Hf. unfold reaches. rewrite decide_False by congruence. rewrite Hs. by apply frame_window. Qed.

(** Saving the registers, and the value of [a0] and the program counter. *)
Lemma uservec_saves M p :
  mode M = Supervisor → sscratch M = TRAPFRAME → satp (csr_file M) = as_satp pt → frame_mapped (mmem M) pt tf →
  run (CSRRW A0 SSCRATCH A0 :: saves A0 tf_slots ++ [CSRR T0 SSCRATCH; SD T0 112 A0; CSRR T0 SEPC; SD T0 24 A0] ++ p) M =
    run p (mkM (<[T0 := sepc (csr_file M)]> (<[T0 := regs M A0]> (<[A0 := TRAPFRAME]> (regs M)))) (csr_file M) (regs M A0) Supervisor (saved_user M)).
Proof.
  intros Hm Hs Hsat Hf. destruct trapframe_va as [Hv0 Hv1]. rewrite run_csrrw. cbn [csr_get csr_set]. rewrite Hs.
  set (M0 := set_reg A0 _ _).
  assert (∀ m rf, (∀ x, ¬ frame x → m x = mmem M x) →
    reaches frame TRAPFRAME tf PGSIZE (mkM rf (csr_file M) (regs M A0) Supervisor m)) as Hre.
  { intros m rf Hx. apply frame_reaches; [done..|]. by apply (frame_mapped_ext (mmem M)). }
  assert (∀ rf l, slots_ok l Tf.TRAPFRAME_SIZE → ∀ x, ¬ frame x → save_regs rf tf l (mmem M) x = mmem M x) as Hsv.
  { intros rf l Hl x Hx. apply (save_regs_frame _ _ _ _ _ _ Hl). intros Hi. by apply Hx, frame_sub. }
  rewrite (run_saves frame A0 tf_slots _ TRAPFRAME tf PGSIZE); [|done| |done|done|done|].
  2: { rewrite <- Hm in Hre. by apply (Hre (mmem M) (<[A0 := TRAPFRAME]> (regs M))). }
  2: { eapply Forall_impl; [apply (slots_bounds _ _ tf_slots_ok)|]. intros s [? ?]. change Tf.TRAPFRAME_SIZE with 288 in *. unfold PGSIZE. lia. }
  unfold M0, set_reg, set_mmem, set_sscratch. cbn [app regs csr_file sscratch mode mmem]. rewrite Hm.
  rewrite run_csrr. unfold set_reg. cbn [csr_get regs csr_file sscratch mode mmem].
  rewrite (run_sd_at frame T0 112 A0 _ TRAPFRAME tf PGSIZE); [|done| |done|done|lia|by vm_compute].
  2: { apply Hre. by apply Hsv, tf_slots_ok. }
  unfold set_mmem. cbn [regs csr_file sscratch mode mmem]. rewrite run_csrr. unfold set_reg. cbn [csr_get regs csr_file sscratch mode mmem].
  rewrite (run_sd_at frame T0 24 A0 _ TRAPFRAME tf PGSIZE); [|done| |done|done|lia|by vm_compute].
  2: { apply Hre. intros x Hx. rewrite write_word_other; [by apply Hsv; [apply tf_slots_ok|]|]. intros Hi. apply Hx, frame_sub. change Tf.TRAPFRAME_SIZE with 288. lia. }
  unfold set_mmem. cbn [regs csr_file sscratch mode mmem]. rewrite !fn_lookup_insert.
  done.
Qed.

Lemma uservec_ok M :
  mode M = Supervisor → sscratch M = TRAPFRAME → satp (csr_file M) = as_satp pt → frame_mapped (mmem M) pt tf →
  ∃ M', run uservec M = Done (Jumps (Tf.get (mmem M) tf Tf.kernel_trap), M') ∧ mmem M' = saved_user M ∧
    csr_file M' = set_satp (Tf.get (mmem M) tf Tf.kernel_satp) (csr_file M) ∧
    regs M' SP = Tf.get (mmem M) tf Tf.kernel_sp ∧ regs M' TP = Tf.get (mmem M) tf Tf.kernel_hartid ∧ mode M' = Supervisor.
Proof.
  intros Hm Hs Hsat Hf. destruct trapframe_va as [Hv0 Hv1].
  assert (uservec = CSRRW A0 SSCRATCH A0 :: saves A0 tf_slots ++ [CSRR T0 SSCRATCH; SD T0 112 A0; CSRR T0 SEPC; SD T0 24 A0] ++
    loads A0 [(SP, 8); (TP, 32); (T0, 16); (T1, 0)] ++ [CSRW SATP T1; SFENCE; JR T0]) as -> by done.
  rewrite uservec_saves by done. rewrite (run_loads frame A0 _ _ TRAPFRAME tf PGSIZE); [|done| |done|done| |].
  - cbn [regs csr_file sscratch mode mmem]. set (l := [(SP, 8); (TP, 32); (T0, 16); (T1, 0)]).
    set (rf := load_regs (saved_user M) tf l _).
    assert (∀ r o, (r, o) ∈ l → o + 8 ≤ Tf.epc ∨ o = Tf.kernel_hartid → rf r = Tf.get (mmem M) tf o) as Hl.
    { intros r o Hin Ho. unfold rf. rewrite (load_regs_in _ _ _ _ _ o); [by apply saved_user_kernel| |done].
      apply (bool_decide_unpack _). by vm_compute. }
    rewrite run_csrw, run_sfence, run_jr. eexists (mkM _ _ _ _ _). cbn [regs csr_file mmem mode csr_set set_csrs].
    rewrite (Hl T0 16), (Hl T1 0), (Hl SP 8), (Hl TP 32); [|unfold l; set_solver|by right|unfold l; set_solver|by left
      |unfold l; set_solver|by left|unfold l; set_solver|by left]. done.
  - apply frame_reaches; [done..|]. apply (frame_mapped_ext (mmem M)); [done|]. intros x Hx. apply saved_user_frame.
    intros Hi. by apply Hx, frame_sub.
  - apply (bool_decide_unpack _). by vm_compute.
  - intros o Hin. exfalso. apply (list_elem_of_fmap_2 fst) in Hin. revert Hin. apply (bool_decide_unpack _). by vm_compute.
Qed.

(** ** [userret] *)

Lemma userret_ok M :
  mode M = Supervisor → regs M A0 = TRAPFRAME → regs M A1 = as_satp pt → frame_mapped (mmem M) pt tf →
  ∃ M', run userret M = Done (Srets, M') ∧ mmem M' = mmem M ∧ mode M' = Supervisor ∧ sscratch M' = TRAPFRAME ∧
    csr_file M' = set_satp (as_satp pt) (csr_file M) ∧ ∀ r, regs M' r = Tf.get (mmem M) tf (tf_off r).
Proof.
  intros Hm Ha0 Ha1 Hf. destruct trapframe_va as [Hv0 Hv1].
  assert (userret = CSRW SATP A1 :: SFENCE :: LD T0 112 A0 :: CSRW SSCRATCH T0 ::
    loads A0 tf_slots ++ [CSRRW A0 SSCRATCH A0; SRET]) as -> by done.
  rewrite run_csrw, run_sfence, Ha1. cbn [csr_set].
  assert (∀ rf sc, reaches frame TRAPFRAME tf PGSIZE (mkM rf (set_satp (as_satp pt) (csr_file M)) sc (mode M) (mmem M))) as Hre
    by (intros rf sc; by apply frame_reaches).
  rewrite (run_ld_at frame T0 112 A0 _ TRAPFRAME tf PGSIZE); [|done|apply Hre|done|done|lia|by vm_compute].
  rewrite run_csrw. cbn [csr_set]. unfold set_sscratch, set_reg, set_csrs. cbn [regs csr_file sscratch mode mmem].
  rewrite fn_lookup_insert.
  rewrite (run_loads frame A0 tf_slots _ TRAPFRAME tf PGSIZE); [|by machine_simpl|apply Hre|done|done| |].
  - cbn [regs csr_file sscratch mode mmem]. set (rf := load_regs (mmem M) tf tf_slots _).
    rewrite run_csrrw, run_sret. eexists (mkM _ _ _ _ _). split; [done|]. cbn [regs csr_file sscratch mode mmem csr_set set_sscratch csr_get].
    split; [done|]. split; [done|]. assert (rf A0 = TRAPFRAME) as ->.
    { unfold rf. rewrite load_regs_out; [by rewrite fn_lookup_insert_ne|]. apply (bool_decide_unpack _). by vm_compute. }
    split; [done|]. split; [done|]. intros r. destruct (decide (r = A0)) as [->|Hne]; [by rewrite fn_lookup_insert|].
    rewrite fn_lookup_insert_ne by done. apply load_regs_in; [apply tf_slots_ok|by apply tf_slot].
  - eapply Forall_impl; [apply (slots_bounds _ _ tf_slots_ok)|]. intros s [? ?]. change Tf.TRAPFRAME_SIZE with 288 in *. unfold PGSIZE. lia.
  - intros o Hin. exfalso. apply (list_elem_of_fmap_2 fst) in Hin. revert Hin. apply (bool_decide_unpack _). by vm_compute.
Qed.
End Vectors.

(** ** The whole way *)

(** The hart's [tp] is a register here and a field of the control registers in
    the model of the kernel. *)
Definition with_tp (v : Z) (r : csrs) : csrs :=
  mkCsrs (sstatus r) (sie r) (sip r) (scause r) (sepc r) (stval r) (stvec r) (satp r) (mstatus r) (mie r) (mepc r)
    (medeleg r) (mideleg r) (mtvec r) (mscratch r) (mhartid r) (pmpcfg0 r) (pmpaddr0 r) v.

Definition ECALL_FROM_USER : Z := 8.

Section Path.
Context {MU : Mmu} {ML : MmuLaws}.
Context {D : Type} {BD : BlockDevice D} {BF : BitField} {BFB : BitFieldBits} {BFl : BitFlags} {H : Type} {PS : PageSource H} {PF : PageFree H}.
Context (me : nat) (proc_addr : nat → Z) (kbuf log_chan : Z) (fork_ret : Z).
Context (devices : list (@DeviceFns mem)) (rchan wchan : Z → Z).
Context (bytes_of : VFile → list Z) (slot : Z).
Context (kernelvec_a trampoline uservec_a userret_a user_trap_addr : Z).
Context (plic_claim : @kernel D H → outcome (option Z * @kernel D H)) (plic_complete : Z → @kernel D H → outcome (@kernel D H)).
Context (disk_intr uart_intr : @kernel D H → outcome (@kernel D H)).

Abbreviation the_syscall := (syscall me proc_addr kbuf log_chan trampoline fork_ret devices rchan wchan bytes_of slot).

(** An [ecall] at [pc], up to the first instruction after it.  [rf] is what the
    kernel leaves in the registers that are not arguments of [userret]. *)
Definition back_to_user (l : leave) (M : machine) (k : @kernel D H) : outcome (Z * machine * @kernel D H) :=
  match l with
  | Srets => Done ((do_sret M).1, (do_sret M).2, k)
  | _ => UB "userret ends in sret"
  end.

Definition leave_kernel (rf : reg → Z) (sc : Z) (t : tresult) (r : csrs) (k : @kernel D H) : outcome (Z * machine * @kernel D H) :=
  match t with
  | ToUser frame sat =>
      '(l, M) ← run userret (mkM (<[A0 := frame]> (<[A1 := sat]> rf)) r sc Supervisor (kmem k));
      back_to_user l M k
  | _ => Panic "the system call does not return at once"
  end.

Definition in_kernel (rf : reg → Z) (k : @kernel D H) (l : leave) (M : machine) : outcome (Z * machine * @kernel D H) :=
  match l with
  | Jumps _ =>
      '(t, r, k) ← user_trap me proc_addr kbuf log_chan fork_ret devices rchan wchan bytes_of slot kernelvec_a trampoline
        uservec_a userret_a user_trap_addr plic_claim plic_complete disk_intr uart_intr
        (with_tp (regs M TP) (csr_file M)) (with_kmem k (mmem M));
      leave_kernel rf (sscratch M) t r k
  | _ => UB "uservec ends in a jump"
  end.

Definition user_ecall (pc : Z) (rf : reg → Z) (k : @kernel D H) (M : machine) : outcome (Z * machine * @kernel D H) :=
  '(l, M) ← run uservec (take_trap pc ECALL_FROM_USER M).2;
  in_kernel rf k l M.

(** A process in user mode, ready to trap. *)
Record user_running (ksatp hart : Z) (M : machine) (k : @kernel D H) (x : Process) (pt : Z) : Prop := {
  un_mode : mode M = User;
  un_mem : mmem M = kmem k;
  un_regs : regs_ok M;
  un_ready : user_ready me k x pt;
  un_name : utf8_valid (length (p_name (pdata x))) (p_name (pdata x)) = true;
  un_stvec : stvec (csr_file M) = TRAMPOLINE + (uservec_a - trampoline);
  un_sscratch : sscratch M = TRAPFRAME;
  un_satp : satp (csr_file M) = as_satp pt;
  un_frame : frame_mapped (mmem M) pt (p_trapframe (pdata x));
  un_kernel : kernel_fields ksatp user_trap_addr hart (pdata x) (mmem M);
}.

(** The user's state in the trap frame. *)
Definition in_frame (x : Process) (k : @kernel D H) (pc : Z) (rf : reg → Z) : Prop :=
  Tf.get (kmem k) (p_trapframe (pdata x)) Tf.epc = pc ∧
  ∀ r, Tf.get (kmem k) (p_trapframe (pdata x)) (tf_off r) = rf r.

Lemma trap_status st m : Sstatus.is_from_user (put_bit (put_bit st m false) SPP_BIT false) = true.
Proof.
  unfold Sstatus.is_from_user, put_bit, SPP_BIT. apply Z.eqb_eq. apply Z.bits_inj'. intros i Hi.
  rewrite Z.land_spec, Z.bits_0, Z.clearbit_eqb by lia. change Sstatus.SPP with (2 ^ 8). rewrite Z.pow2_bits_eqb by lia.
  destruct (Z.eqb_spec 8 i); cbn; [by rewrite andb_false_r|by rewrite andb_false_r].
Qed.

(** The system call starts with the user's registers in the trap frame. *)
Lemma ecall_enters_kernel ksatp hart pc M k x pt :
  user_running ksatp hart M k x pt → 0 ≤ pc → pc + 4 < 2 ^ 64 →
  ∃ M2, run uservec (take_trap pc ECALL_FROM_USER M).2 = Done (Jumps user_trap_addr, M2) ∧
    regs M2 TP = hart ∧ satp (csr_file M2) = ksatp ∧ sepc (csr_file M2) = pc ∧ scause (csr_file M2) = ECALL_FROM_USER ∧
    Sstatus.is_from_user (sstatus (csr_file M2)) = true ∧
    outside_frame (pdata x) (mmem M2) (kmem k) ∧
    in_frame x (ecall_state (with_tp (regs M2 TP) (csr_file M2)) x (with_kmem k (mmem M2))) (pc + 4) (regs M).
Proof using ML BFB.
  intros [Hm Hmem Hr Hrd Hn Hv Hss Hs Hf [K1 K2 K3 K4]] H0 H4. set (M1 := (take_trap _ _ M).2).
  set (tf := p_trapframe (pdata x)) in *.
  destruct (uservec_ok pt tf M1) as (M2 & Hrun & Hm2 & Hc & Hsp & Htp & Hmode); try done.
  change (mmem M1) with (mmem M) in *. rewrite K3 in Hrun. exists M2. split; [done|]. split; [congruence|].
  rewrite Hc. cbn [satp sepc scause sstatus set_satp]. split; [done|]. split; [done|]. split; [done|].
  split. { cbn. rewrite Hm. apply trap_status. }
  split. { intros y Hy. rewrite Hm2, <- Hmem. change (mmem M) with (mmem M1). by apply saved_user_frame. }
  assert (∀ o, o = Tf.epc ∨ o + 8 ≤ Tf.epc ∨ Tf.epc + 8 ≤ o →
    Tf.get (kmem (ecall_state (with_tp (regs M2 TP) (csr_file M2)) x (with_kmem k (mmem M2)))) tf o =
      if decide (o = Tf.epc) then pc + 4 else Tf.get (saved_user tf M1) tf o) as He.
  { intros o Ho. unfold tf. rewrite ecall_state_fields; rewrite ?Hc; cbn [sepc with_tp set_satp]; try done.
    change (kmem (with_kmem k (mmem M2))) with (mmem M2). by rewrite Hm2. }
  rewrite Hc in He. split.
  - unfold tf. fold tf. rewrite He by (by left). by rewrite decide_True.
  - intros r. pose proof (tf_off_range r). rewrite He by (unfold Tf.epc; lia). rewrite decide_False by (unfold Tf.epc; lia).
    change (regs M r) with (regs M1 r). by apply saved_user_reg.
Qed.

Lemma sret_user M r : csr_file M = r → Sstatus.is_from_user (sstatus r) = true → mode (do_sret M).2 = User.
Proof.
  intros <- Hu. unfold do_sret. cbn [snd mode set_mode]. enough (Z.testbit (sstatus (csr_file M)) SPP_BIT = false) as -> by done.
  apply Z.eqb_eq in Hu. apply (f_equal (λ z, Z.testbit z 8)) in Hu. rewrite Z.land_spec, Z.bits_0 in Hu.
  change (Z.testbit Sstatus.SPP 8) with true in Hu. by rewrite andb_true_r in Hu.
Qed.

(** From [userret] on. *)
Lemma ecall_leaves_kernel ksatp hart k2 x2 pt2 v r' m' rf sc :
  user_ready me k2 x2 pt2 → utf8_valid (length (p_name (pdata x2))) (p_name (pdata x2)) = true →
  frame_mapped (kmem k2) pt2 (p_trapframe (pdata x2)) → outside_frame (pdata x2) m' (kmem k2) →
  Sstatus.is_from_user (sstatus r') = true → stvec r' = TRAMPOLINE + (uservec_a - trampoline) →
  kernel_fields ksatp user_trap_addr hart (pdata x2) m' → Tf.get m' (p_trapframe (pdata x2)) Tf.a0 = v →
  (∀ o, saved_field o → o + 8 ≤ Tf.a0 ∨ Tf.a0 + 8 ≤ o →
     Tf.get m' (p_trapframe (pdata x2)) o = Tf.get (kmem k2) (p_trapframe (pdata x2)) o) →
  ∃ M4, run userret (mkM (<[A0 := TRAPFRAME]> (<[A1 := as_satp pt2]> rf)) r' sc Supervisor m') = Done (Srets, M4) ∧
    sepc (csr_file M4) = sepc r' ∧
    (∀ r, regs M4 r = if decide (r = A0) then v else Tf.get (kmem k2) (p_trapframe (pdata x2)) (tf_off r)) ∧
    user_running ksatp hart (do_sret M4).2 (with_kmem k2 m') x2 pt2.
Proof using ML.
  intros Hrd Hn Hf Hfr Hu Hv Hk Ha0 Hsv. set (tf2 := p_trapframe (pdata x2)) in *.
  assert (frame_mapped m' pt2 tf2) as Hf'.
  { apply (frame_mapped_ext (kmem k2)); [done|]. intros y Hy. apply Hfr. intros Hi. by apply Hy, frame_sub. }
  destruct (userret_ok pt2 tf2 (mkM (<[A0 := TRAPFRAME]> (<[A1 := as_satp pt2]> rf)) r' sc Supervisor m'))
    as (M4 & Hr4 & Hm4 & Hmode4 & Hss4 & Hc4 & Hregs4); [done|by machine_simpl|by machine_simpl|done|].
  cbn [csr_file mmem] in *. exists M4. split; [done|]. split; [by rewrite Hc4|]. split.
  - intros r. rewrite Hregs4. case_decide as E; [by subst|]. apply Hsv; [right; apply tf_off_range|by apply tf_off_a0].
  - split.
    + by apply (sret_user M4 _ Hc4).
    + exact Hm4.
    + intros r. change (regs (do_sret M4).2 r) with (regs M4 r). rewrite Hregs4. apply read_word_range.
    + by apply user_ready_mem.
    + done.
    + change (stvec (csr_file M4) = TRAMPOLINE + (uservec_a - trampoline)). by rewrite Hc4.
    + exact Hss4.
    + change (satp (csr_file M4) = as_satp pt2). by rewrite Hc4.
    + change (frame_mapped (mmem M4) pt2 tf2). by rewrite Hm4.
    + change (kernel_fields ksatp user_trap_addr hart (pdata x2) (mmem M4)). by rewrite Hm4.
Qed.

(** The parts of [user_ecall] put together. *)
Lemma leave_kernel_eq rf sc sat r k M4 :
  run userret (mkM (<[A0 := TRAPFRAME]> (<[A1 := sat]> rf)) r sc Supervisor (kmem k)) = Done (Srets, M4) →
  leave_kernel rf sc (ToUser TRAPFRAME sat) r k = Done (sepc (csr_file M4), (do_sret M4).2, k).
Proof using. unfold leave_kernel. by intros ->. Qed.

Lemma in_kernel_eq rf k a M2 t r' k3 :
  user_trap me proc_addr kbuf log_chan fork_ret devices rchan wchan bytes_of slot kernelvec_a trampoline
    uservec_a userret_a user_trap_addr plic_claim plic_complete disk_intr uart_intr
    (with_tp (regs M2 TP) (csr_file M2)) (with_kmem k (mmem M2)) = Done (t, r', k3) →
  in_kernel rf k (Jumps a) M2 = leave_kernel rf (sscratch M2) t r' k3.
Proof using. unfold in_kernel. by intros ->. Qed.

Lemma user_ecall_eq pc rf k M l M2 :
  run uservec (take_trap pc ECALL_FROM_USER M).2 = Done (l, M2) → user_ecall pc rf k M = in_kernel rf k l M2.
Proof using. unfold user_ecall. by intros ->. Qed.

(** C7 An [ecall], from the user's instruction to the next.  The trap and
    [uservec] bring all the user's registers to the trap frame unchanged, with the
    program counter behind the [ecall]; the system call runs on exactly that.  When
    it finishes with a value, or with an error, which is -1, the process continues
    in user mode at the program counter and with the registers that the system call
    left in the trap frame, and the value in [a0], whatever the kernel did with the
    registers in between; and it is ready for the next trap. *)
Theorem ecall_roundtrip ksatp hart pc rf M k x pt
    (Htr : trampoline_ok trampoline uservec_a userret_a user_trap_addr)
    (Hrun : user_running ksatp hart M k x pt) (Hpc0 : 0 ≤ pc) (Hpc1 : pc + 4 < 2 ^ 64)
    (Hks : 0 ≤ ksatp < 2 ^ 64) (Hh : 0 ≤ hart < 2 ^ 64) :
  ∃ k1, in_frame x k1 (pc + 4) (regs M) ∧ k1 = with_kmem k (kmem k1) ∧ outside_frame (pdata x) (kmem k1) (kmem k) ∧
    ∀ s v k2 x2 pt2, the_syscall k1 = Done (s, k2) → syscall_value s = Some v → 0 ≤ v < 2 ^ 64 →
      user_ready me k2 x2 pt2 → utf8_valid (length (p_name (pdata x2))) (p_name (pdata x2)) = true →
      frame_mapped (kmem k2) pt2 (p_trapframe (pdata x2)) →
      ∃ M' k', user_ecall pc rf k M = Done (Tf.get (kmem k2) (p_trapframe (pdata x2)) Tf.epc, M', k') ∧
        (∀ r, regs M' r = if decide (r = A0) then v else Tf.get (kmem k2) (p_trapframe (pdata x2)) (tf_off r)) ∧
        user_running ksatp hart M' k' x2 pt2 ∧ k' = with_kmem k2 (kmem k') ∧ outside_frame (pdata x2) (kmem k') (kmem k2).
Proof using ML BFB.
  destruct (ecall_enters_kernel ksatp hart pc M k x pt Hrun Hpc0 Hpc1)
    as (M2 & Hu & Htp & Hsat & Hsepc & Hsc & Hfu & Hout & Hin).
  set (r2 := with_tp (regs M2 TP) (csr_file M2)) in *. set (k0 := with_kmem k (mmem M2)) in *.
  exists (ecall_state r2 x k0). split; [done|]. split; [done|].
  split. { do 2 (apply outside_frame_put; [|by vm_compute|by vm_compute]). done. }
  intros s v k2 x2 pt2 Hsys Hv Hvr Hrd2 Hn2 Hf2.
  destruct (ecall_returns me proc_addr kbuf log_chan fork_ret devices rchan wchan bytes_of slot kernelvec_a trampoline uservec_a
      userret_a user_trap_addr plic_claim plic_complete disk_intr uart_intr r2 k0 x s v k2 x2 pt2)
    as (_ & r' & m' & Ht & Epc & Eu & _ & _ & Ev & Ek & Ea0 & Esv & Efr); try done.
  - by rewrite <- Hsat in Hks.
  - by rewrite <- Htp in Hh.
  - change (cause (scause (csr_file M2)) = TrapException UserEnvCall). rewrite Hsc. unfold cause, is_interrupt. by rewrite (get_bit_bits 64).
  - by rewrite <- Hsepc in Hpc0.
  - by rewrite <- Hsepc in Hpc1.
  - apply (ur_proc _ _ _ _ (un_ready _ _ _ _ _ _ Hrun)).
  - apply (ur_alive _ _ _ _ (un_ready _ _ _ _ _ _ Hrun)).
  - apply (un_name _ _ _ _ _ _ Hrun).
  - assert (kernel_fields ksatp user_trap_addr hart (pdata x2) m') as Ek' by (rewrite <- Hsat, <- Htp; exact Ek).
    destruct (ecall_leaves_kernel ksatp hart k2 x2 pt2 v r' m' rf (sscratch M2)) as (M4 & H4 & Es & Hregs & Hrun'); try done.
    exists (do_sret M4).2, (with_kmem k2 m'). split; [|done].
    rewrite <- Epc, <- Es, (user_ecall_eq _ _ _ _ _ _ Hu), (in_kernel_eq _ _ _ _ _ _ _ Ht).
    by apply leave_kernel_eq.
Qed.
End Path.

(** ** A process that asks for the time *)

(** Its page table maps [TRAPFRAME]; the rest of its memory does not matter. *)
Definition demo_frame : mem :=
  let w a v m := write_word m a v in
  w 0x870007f8 (0x87003000 / 4 + 1) (w 0x87003ff8 (0x87004000 / 4 + 1) (w 0x87004ff0 (0x87001000 / 4 + 7)
    (w 0x87001000 (as_satp 0x87fff000) (w 0x87001008 0x4000001000 (w 0x87001010 0x80003000 (w 0x87001020 1 (λ _, 0))))))).

Definition demo_user_kernel : @kernel fdisk Z := with_kmem demo_kernel demo_frame.

Definition demo_user : machine :=
  mkM (<[A7 := 14]> (λ _, 77)) (mkCsrs 0 0 0 0 0 0 (TRAMPOLINE + 0) (as_satp 0x87000000) 0 0 0 0 0 0 0 0 0 0 0) TRAPFRAME User demo_frame.

Lemma demo_frame_mapped : frame_mapped demo_frame 0x87000000 0x87001000.
Proof. split; apply (bool_decide_unpack _); by vm_compute. Qed.

Lemma demo_user_running :
  user_running 0%nat 0x80002000 0x80002000 0x80003000 (as_satp 0x87fff000) 1 demo_user demo_user_kernel demo_proc 0x87000000.
Proof.
  split; try done.
  - intros r. cbn [demo_user regs]. unfold insert, fn_insert. case_decide; lia.
  - apply demo_frame_mapped.
Qed.

Lemma ecall_roundtrip_witness :
  ∃ M' k', user_ecall (MU := sv39_mmu) (BF := bit_field_std) (BFl := bit_flags_std) (PF := λ _ h, Done h) 0%nat (λ _, 0) 0 0 0 [] (λ _, 0) (λ _, 0)
      (λ _, []) 0 0x80001000 0x80002000 0x80002000 0x80002090 0x80003000 (λ k, Done (None, k)) (λ _, Done) Done Done 100 (λ _, 0) demo_user_kernel demo_user =
      Done (104, M', k') ∧ regs M' A0 = 0 ∧ regs M' SP = 77 ∧ mode M' = User.
Proof.
  pose proof demo_user_running as Hrun.
  destruct (ecall_roundtrip (MU := sv39_mmu) (ML := sv39_mmu_laws) (BF := bit_field_std) (BFB := bit_field_std_bits) (BFl := bit_flags_std)
      (PF := λ _ h, Done h) 0%nat (λ _, 0) 0 0 0 [] (λ _, 0) (λ _, 0)
      (λ _, []) 0 0x80001000 0x80002000 0x80002000 0x80002090 0x80003000 (λ k, Done (None, k)) (λ _, Done) Done Done (as_satp 0x87fff000) 1 100 (λ _, 0)
      demo_user demo_user_kernel demo_proc 0x87000000) as (k1 & [Hpc Hin] & Ek & Hout & Hret).
  - split; unfold PGSIZE; lia.
  - exact Hrun.
  - lia.
  - lia.
  - by vm_compute.
  - lia.
  - assert (user_ready 0%nat k1 demo_proc 0x87000000) as Hrd by (rewrite Ek; apply user_ready_mem, Hrun).
    destruct (Hret (SRet 0) 0 k1 demo_proc 0x87000000) as (M' & k' & Hr & Hregs & Hrun' & _).
    + apply (uptime_ok _ _ _ _ _ _ _ _ _ _ _ _ demo_proc); [apply Hrd|]. by rewrite (Hin A7 : Tf.get _ _ Tf.a7 = _).
    + done.
    + lia.
    + exact Hrd.
    + done.
    + apply (frame_mapped_ext demo_frame); [apply demo_frame_mapped|]. intros y Hy. apply Hout. intros Hi. by apply Hy, frame_sub.
    + exists M', k'. rewrite Hpc in Hr. split; [exact Hr|]. split; [by rewrite Hregs|]. split; [by rewrite Hregs, Hin|apply Hrun'].
Defined.
