(* ===== verification/ForkReturn.v ===== *)
(** * The first run of a process

    [fork_ret] of [process/mod.rs], where the scheduler's first switch to a
    process ends, and the way of a forked child from there into user mode. *)

From Stdlib Require Import ZArith Lia.
From stdpp Require Import base functions gmap strings numbers list.
From S2P Require Import Prelude Address Pte PhysMem PageTable PageTableSpec UserCopy PageTableTheorems UvmCopy Bytes Bio DiskLayout Log Bitmap.
From S2P Require Import Inode Path File Registers Cpu Proc ForkMemory Kernel Syscall Trap BioClient TrapTheorems ForkTheorems Asm AsmSpec.
From S2P Require Import AsmTheorems AsmUser.

Local Open Scope Z_scope.

Section Model.
Context {D : Type} {BD : BlockDevice D} {BF : BitField} {BFl : BitFlags} {H : Type} {PS : PageSource H} {PF : PageFree H}.
Context (trampoline uservec_a userret_a user_trap_addr : Z).

(** [fork_ret] on hart [id], which still holds the lock [l] of the process;
    [first] is the static flag of the file-system initialization. *)
Definition fork_ret (id : Z) (first : bool) (l : Spinlock) (h : hart) (r : csrs) (k : @kernel D H) :
    outcome (tresult * csrs * @kernel D H * Spinlock * hart) :=
  '(me, h) ← myproc h;
  '(l, h) ← release id l h;
  k ← (if first then
         '(sb, lg, b) ← fs_init (d_sb (k_d k)) (d_log (k_d k)) ROOTDEV (d_b (k_d k));
         Done (with_ifs k (k_ic k) (mkD sb lg b))
       else Done k);
  '(t, r, k) ← user_trap_ret me trampoline uservec_a userret_a user_trap_addr (set_sstatus (h_sstatus h) r) k;
  Done (t, r, k, l, h).
End Model.

(** ** The trap frame in the page table *)

Section Frame.
Context {H : Type} {PS : PageSource H} {PSL : PageSourceLaws H}.

Lemma walk_tbl_at m root va p2 :
  tbl_at m root [page_num va 2; page_num va 1] = Some p2 →
  ∃ p1, tbl_at m root [page_num va 2] = Some p1 ∧
    is_valid (read_word m (entry root (page_num va 2))) = true ∧ as_pagetable (read_word m (entry root (page_num va 2))) = p1 ∧
    is_valid (read_word m (entry p1 (page_num va 1))) = true ∧ as_pagetable (read_word m (entry p1 (page_num va 1))) = p2.
Proof.
  cbn [tbl_at]. destruct (is_valid (read_word m (entry root (page_num va 2)))) eqn:E2; [|done].
  destruct (is_valid (read_word m (entry (as_pagetable _) (page_num va 1)))) eqn:E1; [|done]. intros [= <-]. eexists. by rewrite E1.
Qed.

Lemma valid_bit e : is_valid e = true → Z.testbit e 0 = true.
Proof. intros Hv. pose proof (flags_valid e Hv) as Hf. apply (f_equal (λ z, Z.testbit z 0)) in Hf.
  unfold as_flags in Hf. rewrite Z.lor_spec, Z.land_spec in Hf. change (Z.testbit 1023 0) with true in Hf. change (Z.testbit PTE_V 0) with true in Hf.
  by destruct (Z.testbit e 0). Qed.

(** What the kernel's page tables say is what the hardware finds. *)
Lemma mapped_frame m pt tf h :
  pt_inv m pt h → page_ok tf → ¬ table_of m pt tf →
  mapping m pt TRAPFRAME = Some (leaf_pte tf (Z.lor PTE_R PTE_W)) → frame_mapped m pt tf.
Proof.
  intros Hi Htf Hnt Hm. assert (∀ l, 0 ≤ l → index_ok (page_num TRAPFRAME l)) as Hidx by (intros l Hl; by apply page_num_range).
  assert (path_ok [] ∧ path_ok [page_num TRAPFRAME 2]) as [Hk0 Hk1].
  { split; (split; [cbn; lia|]); repeat constructor; by apply Hidx. }
  unfold mapping in Hm. destruct (tbl_at m pt [page_num TRAPFRAME 2; page_num TRAPFRAME 1]) as [p2|] eqn:E2; [|done].
  destruct (walk_tbl_at m pt TRAPFRAME p2 E2) as (p1 & E1 & V2 & A2 & V1 & A1). cbn [mbind option_bind] in Hm.
  destruct (is_valid (read_word m (entry p2 (page_num TRAPFRAME 0)))) eqn:V0; [|done]. injection Hm as Hm.
  assert (∀ path p l, path_ok path → tbl_at m pt path = Some p → 0 ≤ l →
    entry p (page_num TRAPFRAME l) + 8 ≤ tf ∨ tf + PGSIZE ≤ entry p (page_num TRAPFRAME l)) as Hap.
  { intros path p l Hok Hp Hl. destruct (pi_table _ _ _ Hi path p Hok Hp) as [Hpo _]. pose proof (entry_in_page p _ Hpo (Hidx l Hl)).
    assert (p ≠ tf) by (intros ->; apply Hnt; by exists path). unfold page_ok, PGSIZE in *. divlia. }
  destruct (leaf_pte_fields tf (Z.lor PTE_R PTE_W)) as (_ & F1 & _ & F3); [unfold page_ok, PGSIZE in *; lia|apply Htf|by vm_compute|].
  destruct (pi_table _ _ _ Hi [] pt Hk0 eq_refl) as [Hpt _].
  split; [split; [done|unfold page_ok, PGSIZE in *; lia]|done|]. unfold walk. cbn zeta. rewrite A2, A1, Hm, F1.
  unfold points, kernel_page. rewrite !(valid_bit _ V2), !(valid_bit _ V1), (valid_bit _ F3). cbn [andb].
  rewrite !leaf_pte_bit by (by vm_compute). split_and!; try done.
  - apply (pi_pointer _ _ _ Hi []); [exact Hk1|done|done].
  - apply (pi_pointer _ _ _ Hi [page_num TRAPFRAME 2]); [apply va_path|done|done].
  - repeat (apply Forall_cons; split); [by apply (Hap [])|by apply (Hap [page_num TRAPFRAME 2])|by apply (Hap [page_num TRAPFRAME 2; page_num TRAPFRAME 1]); [apply va_path|..]|done].
Qed.
End Frame.

(** ** Locks and fields *)

Lemma myproc_ok h p : hart_ok h → 0 < noff (h_cpu h) → c_process (h_cpu h) = Some p → myproc h = Done (p, h).
Proof.
  intros Hok Hn Hp. unfold myproc. destruct (push_off_ok h Hok) as (h1 & E & _ & _ & _ & Hp1 & _). pose proof (pop_push h Hok) as Hpp.
  rewrite E in Hpp |- *. cbn [mbind outcome_bind] in Hpp |- *. rewrite Hp1, Hp. cbn [unwrap]. rewrite Hpp.
  destruct (Z.eqb_spec (noff (h_cpu h)) 0); [lia|]. rewrite Hp. destruct h as [[] ]; cbn in *. by subst.
Qed.

Lemma release_ok id h :
  hart_ok h → noff (h_cpu h) = 1 →
  ∃ h', release id (mkSpin true id) h = Done (new_spinlock, h') ∧ c_process (h_cpu h') = c_process (h_cpu h) ∧ noff (h_cpu h') = 0.
Proof.
  intros [_ _ Hoff] Hn. unfold release, holding. cbn [locked cpu_id]. rewrite Z.eqb_refl. cbn [andb negb]. unfold pop_off.
  unfold intr_enabled in Hoff. rewrite Hoff, Hn by lia. rewrite usub_ok by lia. rewrite !bind_Done_l. by eexists.
Qed.

Section Return.
Context {MU : Mmu} {ML : MmuLaws}.
Context {D : Type} {BD : BlockDevice D} {BF : BitField} {BFl : BitFlags} {BFlL : BitFlagsLaws}.
Context {H : Type} {PS : PageSource H} {PSL : PageSourceLaws H} {PF : PageFree H}.
Context (trampoline uservec_a userret_a user_trap_addr fr : Z).

(** The fields of a trap frame in use. *)
Lemma keeps_field s s' tf o :
  page_ok tf → ps_page (pheap s) tf → keeps (pheap s) s s' → 0 ≤ o → o + 8 ≤ Tf.TRAPFRAME_SIZE →
  Tf.get (pmem s') tf o = Tf.get (pmem s) tf o.
Proof using.
  change Tf.TRAPFRAME_SIZE with 288. intros Hp Hu Hk H0 H8. apply read_word_ext. intros y Hy. apply (kp_frame _ _ _ Hk).
  rewrite (proj1 (in_page_of tf y (proj1 Hp))); [done|]. unfold in_page, PGSIZE. lia.
Qed.

(** The memory of a process that can run in user mode: its own pages and tables,
    and above them trap frame and trampoline. *)
Record process_memory (pt tf size : Z) (s : pstate H) : Prop := {
  py_ok : mem_ok pt tf size s;
  py_own v : 0 ≤ v < size → v mod PGSIZE = 0 → ∃ pte, mapping (pmem s) pt v = Some pte ∧ as_pagetable pte ≠ tf;
  py_rest v : 0 ≤ v < 2 ^ 39 → size ≤ v → mapping (pmem s) pt v = process_pages trampoline tf v;
  py_frame : ¬ table_of (pmem s) pt tf;
}.

(** It stays so while its pages keep their bytes. *)
Lemma process_memory_keeps pt tf size s s' :
  process_memory pt tf size s → ps_inv (pheap s') → keeps (pheap s) s s' →
  process_memory pt tf size s' ∧ (∀ a, 0 ≤ a < size → user_byte (pmem s') pt a = user_byte (pmem s) pt a) ∧
  ∀ o, 0 ≤ o → o + 8 ≤ Tf.TRAPFRAME_SIZE → Tf.get (pmem s') tf o = Tf.get (pmem s) tf o.
Proof using.
  intros [Hok Hown Hrest Hnt] Hi Hk. destruct (mem_ok_keeps _ _ _ _ _ Hok Hi Hk) as (Hok2 & Hm2 & Ht2 & Hv2).
  destruct (mo_frame _ _ _ _ Hok) as [Htf Htu]. split; [split|split].
  - done.
  - intros v Hr Hal. destruct (Hown v Hr Hal) as (pte & E & Hne). exists pte. by rewrite Hm2.
  - intros v Hr Hle. rewrite Hm2. by apply Hrest.
  - by rewrite Ht2.
  - done.
  - intros o H0 H8. by apply keeps_field.
Qed.

(** Writing to a process's trap frame does not change what the process sees. *)
Lemma frame_invisible pt tf size s m' a :
  process_memory pt tf size s → (∀ y, ¬ (tf ≤ y < tf + Tf.TRAPFRAME_SIZE) → m' y = pmem s y) → 0 ≤ a < size →
  user_byte m' pt a = user_byte (pmem s) pt a.
Proof using.
  intros [Hok Hown _ Hnt] Hout Ha. destruct (mo_frame _ _ _ _ Hok) as [Htf _].
  assert (∀ y, page_of y ≠ tf → m' y = pmem s y) as Hpage.
  { intros y Hy. apply Hout. intros Hr. apply Hy, (in_page_of tf y (proj1 Htf)). revert Hr. unfold in_page. change Tf.TRAPFRAME_SIZE with 288. unfold PGSIZE. lia. }
  destruct (tree_same (pmem s) m' pt (pheap s) (pheap s)) as (_ & _ & Hm); [apply Hok| |done|].
  { intros q y Hq Hy. apply Hpage. destruct (table_page _ _ _ _ (mo_tree _ _ _ _ Hok) Hq) as [[Hal _] _].
    apply in_page_of in Hy as ->; [|done]. by intros ->. }
  pose proof (page_of_bounds a) as [Hb Hal].
  destruct (Hown (page_of a)) as (pte & E & Hne); [unfold page_of, PGSIZE in *; divlia|done|].
  destruct (mo_user _ _ _ _ Hok (page_of a)) as (pte' & E' & Hp & _); [unfold page_of, PGSIZE in *; divlia|done|].
  rewrite E in E'. injection E' as <-.
  rewrite (user_byte_page m' pt a pte), (user_byte_page (pmem s) pt a pte) by (rewrite ?Hm; done). f_equal. unfold read_byte. rewrite Hpage; [done|].
  rewrite (proj1 (in_page_of (as_pagetable pte) _ (proj1 Hp))); [done|]. unfold in_page, PGSIZE. divlia.
Qed.

Lemma process_frame pt tf size s : process_memory pt tf size s → frame_mapped (pmem s) pt tf.
Proof using.
  intros [Hok _ Hrest Hnt]. apply (mapped_frame _ _ _ (pheap s)); [apply Hok|apply Hok|done|]. rewrite Hrest.
  - unfold process_pages. by rewrite decide_True by by vm_compute.
  - by vm_compute.
  - apply (mo_size _ _ _ _ Hok).
Qed.

(** ** The first run *)

(** A hart that the scheduler has switched to process [p] for the first time: it
    holds the lock of the process and nothing else. *)
Record first_run (id : Z) (p : nat) (l : Spinlock) (h : hart) : Prop := {
  fr_ok : hart_ok h;
  fr_noff : noff (h_cpu h) = 1;
  fr_proc : c_process (h_cpu h) = Some p;
  fr_lock : l = mkSpin true id;
}.

(** The kernel after the initialization of the file system, if it is due. *)
Definition fs_ready (first : bool) (k k1 : @kernel D H) : Prop :=
  if first then ∃ sb lg b, fs_init (d_sb (k_d k)) (d_log (k_d k)) ROOTDEV (d_b (k_d k)) = Done (sb, lg, b) ∧
    k1 = with_ifs k (k_ic k) (mkD sb lg b)
  else k1 = k.

Lemma fork_ret_ok id p l h r first (k k1 : @kernel D H) x pt :
  trampoline_ok trampoline uservec_a userret_a user_trap_addr → first_run id p l h → fs_ready first k k1 → user_ready p k1 x pt →
  0 ≤ satp r < 2 ^ 64 → 0 ≤ tp r < 2 ^ 64 →
  ∃ r' m' h', fork_ret trampoline uservec_a userret_a user_trap_addr id first l h r k =
      Done (ToUser TRAPFRAME (as_satp pt), r', with_kmem k1 m', new_spinlock, h') ∧ noff (h_cpu h') = 0 ∧
    enters_user trampoline uservec_a user_trap_addr (set_sstatus (h_sstatus h') r) r' x (kmem k1) m'.
Proof using.
  intros Htr [Hok Hn Hp ->] Hfs Hrd Hs Ht. unfold fork_ret. rewrite (myproc_ok h p Hok ltac:(lia) Hp), bind_Done_l. cbv beta iota.
  destruct (release_ok id h Hok Hn) as (h' & -> & Hp' & Hn'). rewrite bind_Done_l. cbv beta iota.
  destruct (user_trap_ret_ok p trampoline uservec_a userret_a user_trap_addr (set_sstatus (h_sstatus h') r) k1 x pt Htr Hrd Hs Ht)
    as (r' & m' & Hret & He). exists r', m', h'. split; [|done].
  destruct first; cbn in Hfs; [destruct Hfs as (sb & lg & b & -> & ->)|subst k1]; rewrite !bind_Done_l, Hret, bind_Done_l; done.
Qed.

(** The first run of a process brings it into user mode with the registers of
    its trap frame and the memory of its page table. *)
Lemma first_run_ok id p l h r first (k k1 : @kernel D H) c pt rf sc :
  trampoline_ok trampoline uservec_a userret_a user_trap_addr → first_run id p l h → fs_ready first k k1 → user_ready p k1 c pt →
  process_memory pt (p_trapframe (pdata c)) (p_size (pdata c)) (k_ps k1) →
  utf8_valid (length (p_name (pdata c))) (p_name (pdata c)) = true → 0 ≤ satp r < 2 ^ 64 → 0 ≤ tp r < 2 ^ 64 →
  ∃ t r' k3 h' M, fork_ret trampoline uservec_a userret_a user_trap_addr id first l h r k = Done (t, r', k3, new_spinlock, h') ∧
    leave_kernel rf sc t r' k3 = Done (Tf.get (kmem k1) (p_trapframe (pdata c)) Tf.epc, M, k3) ∧
    mode M = User ∧ mmem M = kmem k3 ∧ satp (csr_file M) = as_satp pt ∧
    (∀ g, regs M g = Tf.get (kmem k1) (p_trapframe (pdata c)) (tf_off g)) ∧
    ∀ a, 0 ≤ a < p_size (pdata c) → user_byte (mmem M) pt a = user_byte (kmem k1) pt a.
Proof using ML.
  intros Htr Hfr Hfs Hrd Hpy Hname Hs Ht.
  destruct (fork_ret_ok id p l h r first k k1 c pt Htr Hfr Hfs Hrd Hs Ht) as (r' & m' & h' & Hret & _ & [Epc Eu _ Ev Ek Es Eo]).
  destruct (ecall_leaves_kernel p trampoline uservec_a user_trap_addr (satp r) (tp r) k1 c pt (Tf.get (kmem k1) (p_trapframe (pdata c)) Tf.a0) r' m' rf sc)
    as (M4 & H4 & Esp & Hr4 & Hrun); try done.
  - by apply process_frame in Hpy.
  - apply Es. right. by vm_compute.
  - intros o Ho _. by apply Es.
  - eexists _, r', _, h', (do_sret M4).2. split; [exact Hret|]. split; [|split; [apply Hrun|split; [apply Hrun|split; [apply Hrun|split]]]].
    + rewrite <- Epc, <- Esp. by apply leave_kernel_eq.
    + intros g. change (regs (do_sret M4).2 g) with (regs M4 g). rewrite Hr4. by destruct (decide (g = A0)) as [->|].
    + intros a Ha. rewrite (un_mem _ _ _ _ _ _ _ _ _ _ Hrun). change (kmem (with_kmem k1 m')) with m'.
      by apply (frame_invisible pt (p_trapframe (pdata c)) (p_size (pdata c)) (k_ps k1)).
Qed.

(** C6 Fork returns twice.  When a process whose trap frame holds the program
    counter [pc] and the registers [rf0] forks, its own trap frame and memory are
    as before, so that it returns from the system call with the number of the
    child.  And whenever a hart runs the child for the first time, its memory not
    having been touched since, [fork_ret], [userret] and [sret] bring it into user
    mode at the same [pc] with the same registers, except 0 in [a0], and with the
    memory that its parent had at the fork. *)
Theorem fork_returns_twice me (k k' : @kernel D H) x pt pc rf0 pid
    (Htr : trampoline_ok trampoline uservec_a userret_a user_trap_addr) (Htop : trampoline + PGSIZE < 2 ^ 64)
    (Hk : can_fork me k x pt) (Hin : in_frame x k pc rf0)
    (Hname : utf8_valid (length (p_name (pdata x))) (p_name (pdata x)) = true)
    (Hrun : sys_fork me trampoline fr k = Done (SRet pid, k')) :
  in_frame x k' pc rf0 ∧ (∀ a, 0 ≤ a < p_size (pdata x) → user_byte (kmem k') pt a = user_byte (kmem k) pt a) ∧
  ∃ child c cpt, child ≠ me ∧ procs (k_pm k') !! child = Some c ∧ p_pid (meta c) = pid ∧ p_state (meta c) = RUNNABLE ∧
    p_killed (meta c) = false ∧ p_pagetable (pdata c) = Some cpt ∧
    ∀ k2 c2 id l h r rf sc, procs (k_pm k2) !! child = Some c2 → pdata c2 = pdata c → p_killed (meta c2) = false →
      ps_inv (pheap (k_ps k2)) → keeps (pheap (k_ps k')) (k_ps k') (k_ps k2) →
      first_run id child l h → 0 ≤ satp r < 2 ^ 64 → 0 ≤ tp r < 2 ^ 64 →
      ∃ t r' k3 h' M, fork_ret trampoline uservec_a userret_a user_trap_addr id false l h r k2 = Done (t, r', k3, new_spinlock, h') ∧
        leave_kernel rf sc t r' k3 = Done (pc, M, k3) ∧ mode M = User ∧ mmem M = kmem k3 ∧ satp (csr_file M) = as_satp cpt ∧
        (∀ g, regs M g = if decide (g = A0) then 0 else rf0 g) ∧
        ∀ a, 0 ≤ a < p_size (pdata x) → user_byte (mmem M) cpt a = user_byte (kmem k) pt a.
Proof using ML BFlL.
  destruct (sys_fork_run me trampoline fr k x pt) as [E|[[E _]|(child & c & cpt & ctf & k1 & E & Hf)]];
    [split; [apply Htr|done]|done|by rewrite E in Hrun..|]. rewrite E in Hrun. injection Hrun as <- ->.
  destruct Hin as [Hpc Hrf]. destruct (mo_frame _ _ _ _ (cf_memory _ _ _ _ Hk)) as [Htf Htu].
  assert (0 ≤ Tf.epc ∧ Tf.epc + 8 ≤ Tf.a0 ∧ Tf.a0 + 8 ≤ Tf.TRAPFRAME_SIZE) as (L1 & L2 & L3) by by vm_compute.
  split. { split; [|intros g; pose proof (tf_off_range g)]; rewrite (keeps_field (k_ps k) (k_ps k')); try done; try lia; by apply Hf. }
  split; [apply Hf|]. exists child, c, cpt. pose proof (fd_record _ _ _ _ _ _ _ _ _ _ _ Hf) as Hc.
  split; [apply Hf|]. split; [apply Hf|]. split; [apply Hc|]. split; [apply Hc|]. split; [apply Hc|]. split; [apply Hc|].
  intros k2 c2 id l h r rf sc Hc2 Ed Hal Hi Hkp Hfr Hs Ht.
  pose proof (fd_memory _ _ _ _ _ _ _ _ _ _ _ Hf) as Hcm.
  destruct (process_memory_keeps cpt ctf (p_size (pdata x)) (k_ps k') (k_ps k2)) as (Hpy & Hv & Hfl); [|done|done|].
  { split; [apply Hcm| |apply Hcm|apply Hcm]. intros v Hr Hal'. destruct (cm_own _ _ _ _ _ _ _ _ Hcm v Hr Hal') as (pte & E' & _ & Hne). by exists pte. }
  assert (user_ready child k2 c2 cpt) as Hrd.
  { split; [unfold my_proc, get_proc; by rewrite Hc2|rewrite Ed; apply Hc|done|rewrite Ed; apply Hc]. }
  assert (p_trapframe (pdata c2) = ctf ∧ p_size (pdata c2) = p_size (pdata x)) as [Ec Ez] by (rewrite Ed; split; apply Hc).
  destruct (first_run_ok id child l h r false k2 k2 c2 cpt rf sc) as (t & r' & k3 & h' & M & H1 & H2 & H3 & H4 & H5 & Hg & Hb);
    rewrite ?Ec, ?Ez; try done; [rewrite Ed, (ic_name _ _ _ _ _ _ _ Hc); done|].
  rewrite Ec in H2, Hg. rewrite Ez in Hb. change (kmem k2) with (pmem (k_ps k2)) in *.
  exists t, r', k3, h', M. split; [done|]. split; [|split; [done|split; [done|split; [done|split]]]].
  - rewrite H2, Hfl, (cm_regs _ _ _ _ _ _ _ _ Hcm) by lia. f_equal. f_equal. f_equal. exact Hpc.
  - intros g. pose proof (tf_off_range g). rewrite Hg, Hfl by lia. destruct (decide (g = A0)) as [->|Hg']; [apply Hcm|].
    rewrite (cm_regs _ _ _ _ _ _ _ _ Hcm); [apply Hrf|lia|lia|by apply tf_off_a0].
  - intros a Ha. rewrite Hb, (Hv a Ha) by done. by apply Hcm.
Qed.
End Return.

(** ** The process of one page *)

Lemma demo_fork_runs :
  ∃ k', sys_fork (BFl := bit_flags_std) 0%nat 0x80002000 0x80001000 demo_fork_kernel = Done (SRet 2, k') ∧ ps_inv (pheap (k_ps k')).
Proof.
  destruct (sys_fork_run (BFl := bit_flags_std) (BFlL := bit_flags_std_laws) 0%nat 0x80002000 0x80001000
    demo_fork_kernel demo_parent 0x1000) as [E|[[_ Hfull]|(child & c & cpt & ctf & k' & E & Hf)]].
  - by vm_compute.
  - exact demo_can_fork.
  - assert (match sys_fork (BFl := bit_flags_std) 0%nat 0x80002000 0x80001000 demo_fork_kernel with Panic _ => false | _ => true end = true)
      as Hd by by vm_compute. by rewrite E in Hd.
  - by destruct (Hfull 1%nat new_process).
  - exists k'. split; [exact E|]. apply (mo_heap _ _ _ _ (fd_parent _ _ _ _ _ _ _ _ _ _ _ Hf)).
Qed.

Lemma demo_in_frame : in_frame demo_parent demo_fork_kernel 0 (λ _, 0).
Proof. split; [by vm_compute|]. intros r. by destruct r; vm_compute. Qed.

Lemma fork_returns_twice_witness :
  ∃ k' child cpt t r' k3 h' M,
    sys_fork (BFl := bit_flags_std) 0%nat 0x80002000 0x80001000 demo_fork_kernel = Done (SRet 2, k') ∧
    fork_ret 0x80002000 0x80002000 0x80002090 0x80003000 0 false (mkSpin true 0)
      (mkHart (mkCPU (Some child) new_context 1 1) 0) demo_regs k' = Done (t, r', k3, new_spinlock, h') ∧
    leave_kernel (MU := sv39_mmu) (λ _, 5) 0 t r' k3 = Done (0, M, k3) ∧ regs M A0 = 0 ∧ user_byte (mmem M) cpt 8 = Some 42.
Proof.
  destruct demo_fork_runs as (k' & Hrun & Hi).
  destruct (fork_returns_twice (MU := sv39_mmu) (ML := sv39_mmu_laws) (BFl := bit_flags_std) (BFlL := bit_flags_std_laws)
    0x80002000 0x80002000 0x80002090 0x80003000 0x80001000 0%nat demo_fork_kernel k' demo_parent 0x1000 0 (λ _, 0) 2)
    as (_ & _ & child & c & cpt & _ & Hc & _ & _ & Hal & Hpt & Hchild).
  - split; unfold PGSIZE; lia.
  - unfold PGSIZE; lia.
  - exact demo_can_fork.
  - exact demo_in_frame.
  - done.
  - exact Hrun.
  - destruct (Hchild k' c 0 (mkSpin true 0) (mkHart (mkCPU (Some child) new_context 1 1) 0) demo_regs (λ _, 5) 0)
      as (t & r' & k3 & h' & M & H1 & H2 & _ & _ & _ & Hregs & Hmem).
    + exact Hc.
    + done.
    + exact Hal.
    + exact Hi.
    + by split.
    + clear. split; [split; cbn [h_sstatus h_cpu noff]; [lia|lia|by intros _]|done|done|done].
    + clear. by vm_compute.
    + clear. by vm_compute.
    + exists k', child, cpt, t, r', k3, h', M. split; [exact Hrun|]. split; [exact H1|]. split; [exact H2|]. split; [by rewrite Hregs|].
      transitivity (user_byte (pmem demo_fork_state) 0x1000 8); [|apply demo_forkable].
      apply (Hmem 8). unfold demo_parent; cbn [pdata p_size]; unfold PGSIZE; lia.
Defined.
