(* ===== verification/Boot.v ===== *)
(** * Booting the kernel

    Models [rust_main] of [main.rs], where [start] sends every hart in supervisor
    mode: hart 0 initializes heap, page table, process table, trap vector,
    interrupt controller, buffer cache and disk and sets up the first process,
    the other harts wait for it.  What it prints is not modelled.  The addresses
    of the image ([etext], [end], [kernelvec], the static page table and the
    static disk) come from the linker. *)

From Stdlib Require Import ZArith Lia.
From stdpp Require Import base functions gmap strings numbers list.
From S2P Require Import Prelude Buddy KernelHeap Address Pte PhysMem PageTable PageTableSpec KernelMap Bytes Bio DiskLayout Log Bitmap Inode.
From S2P Require Import Path File Registers Cpu Proc Kernel Syscall Uart Console Virtio Trap Asm.

Local Open Scope Z_scope.

(** Where the linker has put the parts of the kernel. *)
Record image := mkImage {
  im_etext : Z;        (** end of the code *)
  im_end : Z;          (** end of the image *)
  im_trampoline : Z;
  im_kernelvec : Z;
  im_fork_ret : Z;
  im_pagetable : Z;    (** [KERNEL_PAGETABLE] *)
  im_disk : Z;         (** [DISK] *)
}.

(** The major number of the console. *)
Definition CONSOLE : Z := 1.

Section Boot.
Context {D : Type} {BD : BlockDevice D} {BF : BitField} {BFl : BitFlags} {U : Type} {MM : Mmio U}.
Context (img : image).
(** [console_read] and [console_write]. *)
Context (console_read console_write : bool → Z → Z → mem → outcome (option Z * mem)).

(** What the harts share: the devices and their drivers, the kernel's data, and
    the flag [STARTED]. *)
Record boot_state := mkBoot {
  bt_u : U;
  bt_devices : list (@DeviceFns mem);
  bt_disk : Disk;
  bt_kernel : @kernel D BuddySystem;
  bt_started : bool;
}.

(** The statics of the kernel before anything has run: memory and the blocks on
    the disk are as they are. *)
Definition boot_kernel (m : mem) (blocks : D) : @kernel D BuddySystem :=
  mkK new_proc_manager (mkP m uninit) ∅ 0 new_icache (mkD sb_uninit log_uninit (mkB new_bcache blocks)) ∅ 0.
Definition boot_start (u : U) (m : mem) (blocks : D) : boot_state :=
  mkBoot u device_list_uninit new_disk (boot_kernel m blocks) false.

Definition console_init (st : boot_state) : outcome boot_state :=
  let u := uart_init (bt_u st) in
  dv ← unwrap "index out of bounds" (bt_devices st !! Z.to_nat CONSOLE);
  let ds := <[Z.to_nat CONSOLE := mkDevice (dv_read dv) (Some console_write)]> (bt_devices st) in
  let ds := <[Z.to_nat CONSOLE := mkDevice (Some console_read) (Some console_write)]> ds in
  Done (mkBoot u ds (bt_disk st) (bt_kernel st) (bt_started st)).

(** Hart 0, up to its scheduler. *)
Definition rust_main_first (r : csrs) (st : boot_state) : outcome (csrs * boot_state) :=
  st ← console_init st;
  let k := bt_kernel st in
  b ← kinit (pheap (k_ps k)) (im_end img);
  s ← kvm_init (im_pagetable img) (im_etext img) (im_trampoline img) (mkP (pmem (k_ps k)) b);
  let r := set_satp (kvm_init_hart (im_pagetable img)) r in
  pm ← pm_init (k_pm k);
  let r := trap_init_hart (im_kernelvec img) r in
  u ← plic_init_hart (tp r) (plic_init (bt_u st));
  let d := k_d k in
  let d := mkD (d_sb d) (d_log d) (mkB (binit (cache (d_b d))) (disk (d_b d))) in
  '(vd, u) ← disk_init (im_disk img) (bt_disk st) u;
  k ← pm_user_init (im_trampoline img) (im_fork_ret img) (with_ifs (with_ps (with_pm k pm) s) (k_ic k) d);
  let r := set_sstatus (Sstatus.intr_on (sstatus r)) r in
  Done (r, mkBoot u (bt_devices st) vd k true).

(** The other harts, once [STARTED] is set. *)
Definition rust_main_other (r : csrs) (st : boot_state) : outcome (csrs * boot_state) :=
  let r := set_satp (kvm_init_hart (im_pagetable img)) r in
  let r := trap_init_hart (im_kernelvec img) r in
  u ← plic_init_hart (tp r) (plic_init (bt_u st));
  Done (r, mkBoot u (bt_devices st) (bt_disk st) (bt_kernel st) (bt_started st)).

(** [None] while a hart waits for hart 0. *)
Definition rust_main (r : csrs) (st : boot_state) : outcome (option (csrs * boot_state)) :=
  if tp r =? 0 then o ← rust_main_first r st; Done (Some o)
  else if bt_started st then o ← rust_main_other r st; Done (Some o)
  else Done None.
End Boot.
