(* ===== verification/BootTheorems.v ===== *)
(** * The boot

    What [rust_main] leaves behind: the kernel's page table, and a first process
    that enters user mode at its first run. *)

From Stdlib Require Import ZArith Lia.
From stdpp Require Import base functions gmap strings numbers list.
From S2P Require Import Prelude BuddyTree BuddyRep Buddy BuddySpec BuddyInit BuddyBoot KernelHeap Address Pte PhysMem PageTable PageTableSpec.
From S2P Require Import UserCopy PageTableTheorems UvmCopy KernelMap MemoryRoom Bytes Bio DiskLayout Log Bitmap Inode Path File Registers Cpu.
From S2P Require Import Proc ForkMemory Kernel Syscall Uart Console Virtio BioClient Trap TrapTheorems ForkTheorems Asm AsmSpec AsmTheorems.
From S2P Require Import AsmUser ForkReturn Boot.

Local Open Scope Z_scope.

#[local] Opaque map.

(** ** The heap *)

(** The image ends in the first 32 of the 128 megabytes of memory. *)
Definition image_end_ok (end_ : Z) : Prop := KERNEL_BASE < end_ ≤ KERNEL_BASE + 0x2000000.

Lemma boot_geometry end_ :
  image_end_ok end_ →
  first_addr end_ 4 12 = cdiv end_ 4096 * 4096 ∧ last_addr PHYSTOP 4 12 = PHYSTOP ∧ root_size end_ PHYSTOP 4 12 = 23 ∧
  n_leaves end_ PHYSTOP 4 12 < 2 ^ 23 ∧ end_ ≤ first_addr end_ 4 12 < end_ + 4096.
Proof.
  unfold image_end_ok. change KERNEL_BASE with 0x80000000. change PHYSTOP with 0x88000000. intros He.
  assert (first_addr end_ 4 12 = cdiv end_ 4096 * 4096) as Ef by done.
  assert (last_addr 0x88000000 4 12 = 0x88000000) as El by done.
  pose proof (cdiv_bounds end_ 4096 ltac:(lia)) as Hc.
  assert (2 ^ 22 < n_leaves end_ 0x88000000 4 12 < 2 ^ 23) as Hn.
  { unfold n_leaves. rewrite Ef, El. change (2 ^ 4) with 16. change (2 ^ 22) with 4194304. change (2 ^ 23) with 8388608. divlia. }
  split_and!; [done|done| |lia|lia|lia].
  unfold root_size. apply Z.log2_up_unique; [lia|]. change (Z.pred 23) with 22. lia.
Qed.

(** The metadata takes less than eight megabytes. *)
Lemma boot_meta end_ : image_end_ok end_ → meta_len end_ PHYSTOP 4 12 ≤ 2 ^ 23.
Proof.
  intros He. destruct (boot_geometry end_ He) as (_ & _ & Er & _ & _).
  unfold meta_len, meta_end. rewrite Er. change (2 ^ 4) with 16.
  set (a := sum_slices 23 0 (23 + 1)). set (b := sum_slices 23 1 23). vm_compute in a, b. subst a b.
  match goal with |- context [cdiv ?x 16] => pose proof (cdiv_bounds x 16 ltac:(lia)) end. lia.
Qed.

Lemma boot_region end_ : image_end_ok end_ → BuddyBoot.region_ok end_ PHYSTOP 4 12.
Proof.
  intros He. destruct (boot_geometry end_ He) as (Ef & El & Er & Hn & Hf).
  pose proof (boot_meta end_ He) as Hm.
  unfold image_end_ok in He. change KERNEL_BASE with 0x80000000 in He. change PHYSTOP with 0x88000000 in *.
  unfold BuddyBoot.region_ok. rewrite Er, El. change (2 ^ 4) with 16 in *. change (2 ^ 23) with 8388608 in *. lia.
Qed.

Section Heap.
Context {BF : BitField} {BFL : BitFieldLaws}.

(** Chunks above the metadata and below the end are free. *)
Definition BOOT_ROOM : nat := 4096.

Lemma boot_room b v c :
  heap b v c → mx b = 23 → leaf_size b = 16 → c ≤ 2 ^ 23 → base b + 0x5000000 ≤ actual_end b →
  (∀ k i, bblock b k i → bused b v k i ↔ k = 0 ∧ (bbaddr b 0 i < base b + c ∨ actual_end b ≤ bbaddr b 0 i)) →
  kheap_room b BOOT_ROOM.
Proof.
  intros Hh Hm Hl Hc He Hu. exists (seqZ 512 4096). split; [apply NoDup_seqZ|]. split; [rewrite length_seqZ; done|].
  intros i Hi%elem_of_seqZ. apply (chunk_free_used b v c i Hh). split.
  { split; [unfold CHUNK; lia|]. unfold nblk. rewrite Hm. change (2 ^ (23 - CHUNK)) with 8192. lia. }
  intros k' i' Hb' [-> Hr]%Hu; [|done]. intros [[_ Hi']|[Hlt _]]; [|unfold CHUNK in Hlt; lia].
  unfold baddr, bsize in Hr. rewrite Hl in Hr. change (2 ^ 0 * 16) with 16 in Hr. change (2 ^ (CHUNK - 0)) with 1024 in Hi'.
  change (2 ^ 23) with 8388608 in Hc. divlia.
Qed.

Lemma kinit_ok end_ :
  image_end_ok end_ → ∃ b, kinit uninit end_ = Done b ∧ kheap_inv b ∧ end_ ≤ base b ∧ kheap_room b BOOT_ROOM.
Proof.
  intros He. destruct (boot_geometry end_ He) as (Ef & El & Er & Hn & Hf).
  destruct (init_heap end_ PHYSTOP 4 12 (boot_region end_ He)) as (b & v & Hb & _ & _ & Hg & Hh & Hu).
  exists b. unfold kinit, kernel_heap_init. change LEAF_SIZE with (2 ^ 4). change MAX_ALIGNMENT with (2 ^ 12).
  rewrite Hb, bind_Done_l. split; [done|]. unfold geom in Hg. injection Hg as E1 E2 E3 E4 E5 E6.
  split; [|split; [lia|]].
  2: { apply (boot_room b v (meta_len end_ PHYSTOP 4 12)); [done|unfold mx; lia|done|by apply boot_meta| |done].
       rewrite E1, E2, El. unfold image_end_ok in He. change KERNEL_BASE with 0x80000000 in He. change PHYSTOP with 0x88000000. lia. }
  exists v, (meta_len end_ PHYSTOP 4 12). split; [done|]. split; [done|]. split; [done|].
  split; [rewrite E1, Ef; unfold PGSIZE; by apply Z.mod_mul|].
  unfold mx, bsize. rewrite E3, E1, E4, Er. unfold image_end_ok in He. change KERNEL_BASE with 0x80000000 in He.
  change (2 ^ (23 + 1 - 1)) with 8388608. change (2 ^ 4) with 16. lia.
Qed.
End Heap.

(** ** The tables *)

Section Tables.
Context {BFl : BitFlags} {BFlL : BitFlagsLaws} {H : Type} {PS : PageSource H} {PSL : PageSourceLaws H}.

(** The kernel's page table stays while pages in use keep their bytes. *)
Lemma maps_keeps root rs s s' :
  maps root rs s → ps_inv (pheap s') → keeps (pheap s) s s' → maps root rs s'.
Proof using.
  intros [Hi Hh Hm] Hi' Hk. destruct (tree_same (pmem s) (pmem s') root (pheap s) (pheap s')) as (Ht & _ & Hmap); [done| |apply Hk|].
  { intros q x Hq Hx. destruct (table_page _ _ _ _ Hi Hq) as [[Hal _] Hu]. apply in_page_of in Hx as <-; [|done]. by apply (kp_frame _ _ _ Hk). }
  split; [done|done|]. intros va Hva. rewrite Hmap. by apply Hm.
Qed.
End Tables.

(** The slot of a process after [pm_init]. *)
Definition boot_slot (i : nat) : Process :=
  mkProc new_pmeta (mkPData (stack_va (Z.of_nat i)) 0 None 0 new_context (replicate 16 0) None (replicate (Z.to_nat NFILE) None) None).
Definition boot_pm : ProcManager := mkPm (boot_slot <$> seq 0 (Z.to_nat NPROC)) None 0.

Lemma pm_init_ok : pm_init new_proc_manager = Done boot_pm.
Proof. by vm_compute. Qed.

Lemma boot_pm_lookup i p : procs boot_pm !! i = Some p → p = boot_slot i ∧ (i < 64)%nat.
Proof.
  cbn [procs boot_pm]. rewrite list_lookup_fmap. intros (j & Hj & ->)%fmap_Some. apply lookup_seq in Hj as [-> Hj].
  change (Z.to_nat NPROC) with 64%nat in Hj. split; [done|lia].
Qed.

Lemma stack_va_range i : (i < 64)%nat → 0 ≤ stack_va (Z.of_nat i) ∧ stack_va (Z.of_nat i) + PGSIZE * 4 < 2 ^ 64.
Proof. intros Hi. unfold stack_va. change TRAMPOLINE with (2 ^ 38 - 4096). unfold PGSIZE. lia. Qed.

(** The root directory's inode is the first in the cache; the disk is not read. *)
Definition root_inode : Inode := mkInode ROOTDEV ROOTINUM 0.
Definition boot_icache : InodeCache :=
  match get ROOTDEV ROOTINUM new_icache with Done (_, ic) => ic | _ => new_icache end.

Lemma boot_namei {D} `{BlockDevice D} {BF : BitField} (d : dstate D) :
  namei ROOTIPATH None new_icache d = Done (Some root_inode, boot_icache, d).
Proof. by vm_compute. Qed.

(** ** The first process *)

Definition boot_frame (m : mem) (tf : Z) : mem := Tf.put (Tf.put m tf Tf.epc 0) tf Tf.sp (4 * PGSIZE).

Lemma boot_frame_other m tf x : ¬ in_page tf x → boot_frame m tf x = m x.
Proof.
  intros Hx. unfold boot_frame, Tf.put. change Tf.epc with 24. change Tf.sp with 48. unfold in_page, PGSIZE in *.
  by rewrite !write_word_other by lia.
Qed.

(** The registers with which the first process starts. *)
Definition boot_regs (g : reg) : Z := if decide (g = SP) then 4 * PGSIZE else 0.

Lemma boot_frame_regs m tf :
  (∀ x, in_page tf x → m x = 0) →
  Tf.get (boot_frame m tf) tf Tf.epc = 0 ∧ ∀ g, Tf.get (boot_frame m tf) tf (tf_off g) = boot_regs g.
Proof.
  intros Hz. assert (∀ o, 0 ≤ o → o + 8 ≤ 288 → read_word m (tf + o) = 0) as Hw.
  { intros o H0 H8. rewrite (read_word_ext m (λ _, 0)); [done|]. intros x Hx. apply Hz. unfold in_page, PGSIZE. lia. }
  unfold Tf.get, boot_frame, Tf.put. change Tf.epc with 24. change Tf.sp with 48.
  split; [rewrite read_word_write_ne by lia; by apply read_word_write|].
  intros g. unfold boot_regs. destruct (decide (g = SP)) as [->|Hg]; [by apply read_word_write|].
  destruct g; try done; (rewrite !read_word_write_ne by (cbn [tf_off]; lia)); apply Hw; cbn [tf_off]; lia.
Qed.

Section First.
Context {BFl : BitFlags} {BFlL : BitFlagsLaws} {H : Type} {PS : PageSource H} {PSL : PageSourceLaws H}.
Context (tr ctf cpt q : Z) (s s1 s2 s3 : pstate H) (src : list Z).
Context (Hnew : new_memory tr s s1 s2 ctf cpt).
Context (Ha : apart_from cpt s2 s3) (Ht3 : pt_inv (pmem s3) cpt (pheap s3)) (Hi3 : ps_inv (pheap s3)).
Context (Hq : page_ok q) (Hqn : ¬ ps_page (pheap s2) q) (Hqu : ps_page (pheap s3) q).
Context (Hsrc : ∀ o, 0 ≤ o < PGSIZE → pmem s3 (q + o) = nth (Z.to_nat o) src 0).
Context (Hm3 : ∀ v, 0 ≤ v < 2 ^ 39 → mapping (pmem s3) cpt v = if decide (page_of v = 0) then Some (leaf_pte q USER_FLAGS) else mapping (pmem s2) cpt v).

Lemma first_frame_used : page_ok ctf ∧ ps_page (pheap s2) ctf ∧ ps_page (pheap s3) ctf ∧ ¬ table_of (pmem s2) cpt ctf ∧ ¬ table_of (pmem s3) cpt ctf.
Proof using Hnew Ha.
  destruct Hnew as ((Hctf & Hcn & Hcu & Hk1 & Hz) & Hi2 & Ht2 & Hk2 & Hf2 & Hm2).
  assert (ps_page (pheap s2) ctf) as Hu2 by (apply Hk2; [apply Hctf|done]).
  assert (¬ table_of (pmem s2) cpt ctf) as Hn2 by (intros Ht; by apply (Hf2 _ Ht)).
  split; [done|]. split; [done|]. split; [by apply (af_pages _ _ _ Ha); [apply Hctf|]|]. split; [done|].
  intros Ht. by destruct (af_fresh _ _ _ Ha _ Ht).
Qed.

Lemma first_frame_zero x : in_page ctf x → pmem s3 x = 0.
Proof using Hnew Ha.
  intros Hx. destruct first_frame_used as (Hctf & Hu2 & _ & Hn2 & _). pose proof (proj1 (in_page_of ctf x (proj1 Hctf)) Hx) as Ex.
  destruct Hnew as ((_ & Hcn & Hcu & Hk1 & Hz) & Hi2 & Ht2 & Hk2 & Hf2 & Hm2).
  rewrite (af_frame _ _ _ Ha), (kp_frame _ _ _ Hk2) by (by rewrite Ex). by apply Hz.
Qed.

Abbreviation m' := (boot_frame (pmem s3) ctf).

Lemma first_keeps : keeps (pheap s) s (with_mem s3 m').
Proof using Hnew Ha.
  destruct first_frame_used as (Hctf & _ & _ & _ & _).
  destruct Hnew as ((_ & Hcn & Hcu & Hk1 & Hz) & Hi2 & Ht2 & Hk2 & Hf2 & Hm2). split; cbn [pheap pmem with_mem].
  - intros r Hr Hu. by apply (af_pages _ _ _ Ha), Hk2, Hk1.
  - intros x Hx. pose proof (page_of_bounds x) as [_ Hal]. rewrite boot_frame_other.
    2: { intros Hin. apply in_page_of in Hin; [|apply Hctf]. by rewrite Hin in Hx. }
    rewrite (af_frame _ _ _ Ha).
    + rewrite (kp_frame _ _ _ Hk2) by (by apply Hk1). by apply Hk1.
    + by apply Hk2, Hk1.
    + intros Ht. by apply (Hf2 _ Ht), Hk1.
Qed.

Lemma first_tree :
  pt_inv m' cpt (pheap s3) ∧ (∀ r, table_of m' cpt r ↔ table_of (pmem s3) cpt r) ∧ ∀ v, mapping m' cpt v = mapping (pmem s3) cpt v.
Proof using Hnew Ha Ht3.
  destruct first_frame_used as (Hctf & _ & _ & _ & Hn3). apply tree_same with (h := pheap s3); [done| |done].
  intros r x Hr Hx. apply boot_frame_other. intros Hx'. destruct (table_page _ _ _ _ Ht3 Hr) as [Hro _].
  by rewrite (in_page_unique r ctf x Hro Hctf Hx Hx') in Hr.
Qed.

Lemma first_page v : 0 ≤ v < PGSIZE → mapping m' cpt v = Some (leaf_pte q USER_FLAGS).
Proof using Hnew Ha Ht3 Hm3.
  intros Hv. destruct first_tree as (_ & _ & Hm). rewrite Hm, Hm3 by (unfold PGSIZE in *; lia).
  by rewrite decide_True by (unfold page_of, PGSIZE in *; divlia).
Qed.

Lemma first_page_fields : as_pagetable (leaf_pte q USER_FLAGS) = q ∧ as_flags (leaf_pte q USER_FLAGS) = Z.lor USER_FLAGS PTE_V.
Proof using Hq.
  destruct (leaf_pte_fields q USER_FLAGS) as (_ & F1 & F2 & _); [unfold page_ok, PGSIZE in *; lia|apply Hq|by vm_compute|done].
Qed.

Lemma first_process_memory : process_memory tr cpt ctf PGSIZE (with_mem s3 m').
Proof using All.
  destruct first_frame_used as (Hctf & Hu2 & Hu3 & Hn2 & Hn3). destruct first_tree as (Ht & Htab & Hm). destruct first_page_fields as [F1 _].
  assert (∀ v, 0 ≤ v < PGSIZE → mapping m' cpt v = Some (leaf_pte q USER_FLAGS)) as Hp by (intros v Hv; by apply first_page).
  split; [split|..]; cbn [pheap pmem with_mem].
  - done.
  - done.
  - intros v Hv _. eexists. split; [by apply Hp|]. by rewrite F1.
  - done.
  - by vm_compute.
  - intros v Hv _. eexists. split; [by apply Hp|]. rewrite F1. intros ->. done.
  - intros v Hv Hle. rewrite Hm, Hm3 by done. rewrite decide_False by (unfold page_of, PGSIZE in *; divlia). by apply Hnew.
  - by rewrite Htab.
Qed.

Lemma first_bytes a :
  Forall (λ b, 0 ≤ b < 256) src → 0 ≤ a < PGSIZE →
  user_byte m' cpt a = Some (nth (Z.to_nat a) src 0) ∧ as_flags <$> mapping m' cpt a = Some (Z.lor USER_FLAGS PTE_V).
Proof using All.
  intros Hf Ha'. destruct first_page_fields as [F1 F2]. destruct first_frame_used as (Hctf & Hu2 & _ & _ & _).
  rewrite (first_page a Ha'). cbn [fmap option_fmap option_map]. rewrite F2. split; [|done].
  assert (page_of a = 0) as Ea by (unfold page_of, PGSIZE in *; divlia).
  rewrite (user_byte_page _ _ _ (leaf_pte q USER_FLAGS)) by (rewrite Ea; by apply first_page). f_equal.
  rewrite F1, Z.mod_small by done. unfold read_byte. rewrite boot_frame_other, Hsrc by (try done;
    rewrite (in_page_of _ _ (proj1 Hctf)), (proj1 (in_page_of q (q + a) (proj1 Hq))) by (unfold in_page; lia); by intros ->).
  apply Z.mod_small. destruct (nth_in_or_default (Z.to_nat a) src 0) as [Hin| ->]; [|lia].
  rewrite Forall_forall in Hf. apply Hf. by apply list_elem_of_In.
Qed.
End First.

(** ** Memory for the first process *)

(** The tables of a process with one page at address 0. *)
Definition process_paths : list (list Z) := [[255]; [255; 511]; [0]; [0; 0]].

Lemma process_paths_ok : Forall path_ok process_paths.
Proof. repeat constructor; cbn; unfold index_ok; lia. Qed.

Lemma process_covered va : 2 ^ 38 - 2 ^ 21 ≤ va < 2 ^ 38 ∨ 0 ≤ va < 2 ^ 21 → covered process_paths va.
Proof.
  intros Hva. unfold covered. rewrite !page_num_ok by lia. change (2 ^ (12 + 9 * 2)) with (2 ^ 30). change (2 ^ (12 + 9 * 1)) with (2 ^ 21).
  assert ((va / 2 ^ 30 mod 512 = 255 ∧ va / 2 ^ 21 mod 512 = 511) ∨ (va / 2 ^ 30 mod 512 = 0 ∧ va / 2 ^ 21 mod 512 = 0)) as Hc by divlia.
  unfold process_paths. destruct Hc as [[-> ->]|[-> ->]]; set_solver.
Qed.

Section Total.
Context {BFl : BitFlags} {BFlL : BitFlagsLaws} {H : Type} {PS : PageSource H} {PSL : PageSourceLaws H} {PR : PageRoom H}.

(** A fresh page changes no table. *)
Lemma missing_fresh root s q m' h' :
  pt_inv (pmem s) root (pheap s) → page_ok q → ¬ ps_page (pheap s) q → (∀ x, ¬ in_page q x → m' x = pmem s x) →
  missing root process_paths (pmem (mkP (H := H) m' h')) = missing root process_paths (pmem s).
Proof using.
  intros Hi Hq Hnew Hm'. apply missing_ext. intros path Hp. pose proof (proj1 (Forall_forall _ _) process_paths_ok path Hp) as Hok.
  apply (tables_same (pmem s) m' root (pheap s)); [done| |done]. intros r x Hr Hx. apply Hm'. intros Hx'.
  destruct (table_page _ _ _ _ Hi Hr) as [Hro Hru]. by rewrite (in_page_unique r q x Hro Hq Hx Hx') in Hru.
Qed.

(** One page at the ends of the address space. *)
Lemma map_one_room n root va pa perm s :
  pt_inv (pmem s) root (pheap s) → ps_inv (pheap s) → va mod PGSIZE = 0 → 2 ^ 38 - 2 ^ 21 ≤ va ≤ 2 ^ 38 - PGSIZE ∨ va = 0 →
  0 ≤ pa → pa + PGSIZE < 2 ^ 64 → 0 ≤ perm < 2 ^ 10 → roomy root process_paths n s →
  map root va pa PGSIZE perm s ≠ Panic alloc_error ∧ ∀ b s', map root va pa PGSIZE perm s = Done (b, s') → roomy root process_paths n s'.
Proof using BFlL.
  intros Hi Hps Hal Hva Hpa Hpa' Hperm Hr. assert (MAXVA = 2 ^ 38) as Emax by done.
  assert (page_of va = va ∧ page_of (va + PGSIZE + PGSIZE - 1) = va + PGSIZE) as [E1 E2] by (unfold page_of, PGSIZE in *; divlia).
  apply map_room; [apply process_paths_ok|done|done|unfold PGSIZE in *; lia|unfold PGSIZE; lia|rewrite Emax; unfold PGSIZE in *; lia|done|rewrite E1, E2; lia|done| |done].
  intros v Hv. unfold PageTableSpec.in_range in Hv. rewrite E1, E2 in Hv. apply process_covered. unfold PGSIZE in *. lia.
Qed.

Lemma proc_pagetable_total n tr x s :
  ps_inv (pheap s) → 0 ≤ tr → tr + PGSIZE < 2 ^ 64 → page_ok (p_trapframe x) → ps_room (pheap s) (5 + n) →
  ∃ pt s', proc_pagetable tr x s = Done (set_pagetable (Some pt) x, s') ∧ roomy pt process_paths n s'.
Proof using BFlL.
  intros Hi Htr Htr' (Hal & Htf & Htf') Hr.
  destruct (new_zeroed_room s (4 + n) Hi Hr) as (pt & h1 & E & Hr1).
  destruct (new_page_step s Hi) as [E'|(pt' & s1 & E' & Hi1 & Hpt & Hnew & Hu & Hk1 & Hz)]; rewrite E in E'; [done|].
  injection E' as <- Es. rewrite Es in E. assert (ps_room (pheap s1) (4 + n)) as Hr2 by (by rewrite <- Es).
  destruct (empty_tree (pmem s1) pt (pheap s1) Hpt Hu Hz) as (Ht1 & Hroot & Hm1).
  destruct (proc_pagetable_eq tr x s pt s1 _ E eq_refl) as [_ Hrest]. rewrite !flags_or_bits in *.
  assert (roomy pt process_paths n s1) as Hr1'.
  { apply (ps_room_less _ (4 + n)); [|done]. unfold missing. pose proof (length_filter (λ path, tbl_at (pmem s1) pt path = None) process_paths).
    cbn [process_paths length] in *. lia. }
  destruct (map_one_room n pt TRAMPOLINE tr (Z.lor PTE_R PTE_X) s1) as [Hn2 Hm2]; [done|done|done|left; by vm_compute|done|done|by vm_compute|done|].
  destruct (map_one pt TRAMPOLINE tr (Z.lor PTE_R PTE_X) s1) as [E2|(s2 & E2 & He2 & Hmp2)]; [done|done|done|done|done|done|done|by vm_compute|done|done|].
  destruct (Hrest s2 _ E2 eq_refl) as [_ Hdone].
  destruct (map_one_room n pt TRAPFRAME (p_trapframe x) (Z.lor PTE_R PTE_W) s2) as [Hn3 Hm3];
    [apply He2|apply He2|done|left; by vm_compute|lia|lia|by vm_compute|by eapply Hm2|].
  destruct (map_one pt TRAPFRAME (p_trapframe x) (Z.lor PTE_R PTE_W) s2) as [E3|(s3 & E3 & He3 & Hmp3)];
    [apply He2|apply He2|done|done|done|lia|lia|by vm_compute| |done|].
  { rewrite Hmp2 by (by vm_compute). rewrite decide_False by by vm_compute. apply Hm1. }
  exists pt, s3. split; [by apply Hdone|]. by eapply Hm3.
Qed.

Lemma uvm_init_total n pt src s :
  pt_inv (pmem s) pt (pheap s) → ps_inv (pheap s) → Z.of_nat (length src) < PGSIZE → roomy pt process_paths (S n) s →
  uvm_init pt src s ≠ Panic alloc_error.
Proof using BFlL.
  intros Hi Hps Hl Hr. unfold roomy in Hr. rewrite <- plus_n_Sm in Hr. destruct (new_zeroed_room s _ Hps Hr) as (q & h' & E & Hr').
  destruct (new_zeroed_ok s Hps) as [E'|(q' & h2 & E' & Hps' & Hq & Hnew & Hh')]; rewrite E in E'; [done|].
  assert (q' = q ∧ h2 = h') as [-> ->] by (split; congruence). clear E'. unfold uvm_init. destruct (Z.leb_spec PGSIZE (Z.of_nat (length src))); [lia|].
  rewrite E, bind_Done_l. unfold with_mem. cbn [pmem pheap]. set (m0 := write_bytes (write_bytes (pmem s) q 0 PGSIZE) q 0 PGSIZE) in *.
  assert (∀ x, ¬ in_page q x → m0 x = pmem s x) as Hm0 by (intros x Hx; unfold m0; by rewrite !zero_page_other).
  destruct (copy_fresh pt s Hi q h' m0 Hq Hnew Hh' Hm0) as (_ & Hi1 & _ & _).
  assert (user_perm = USER_FLAGS) as Ep by (unfold user_perm, USER_FLAGS; by rewrite !flags_or_bits). rewrite Ep.
  destruct (map_one_room n pt 0 q USER_FLAGS (mkP m0 h')) as [Hn _];
    [done|done|done|by right|unfold page_ok in *; lia|unfold page_ok in *; lia|by vm_compute| |].
  { unfold roomy. by rewrite (missing_fresh pt s q m0 h'). }
  destruct (map pt 0 q PGSIZE USER_FLAGS (mkP m0 h')) as [[b s2]|msg| |]; [done|..]; cbn [mbind outcome_bind]; congruence.
Qed.
End Total.

(** ** [user_init] *)

Section UserInit.
Context {BFl : BitFlags} {BFlL : BitFlagsLaws} {H : Type} {PS : PageSource H} {PSL : PageSourceLaws H} {PR : PageRoom H}.
Context {D : Type} {BD : BlockDevice D} {BF : BitField}.
Context (tr fr : Z) (Htr : 0 ≤ tr ∧ tr + PGSIZE < 2 ^ 64).

Lemma boot_slot_free : list_find (λ p, p_state (meta p) = UNUSED) (procs boot_pm) = Some (0%nat, boot_slot 0).
Proof using. by vm_compute. Qed.

Definition boot_alloc_pm (ctf cpt : Z) : ProcManager :=
  upd_proc 0 (λ _, allocated fr (boot_slot 0) 1 ctf cpt) (mkPm (procs boot_pm) None 1).

Lemma boot_alloc n s :
  ps_inv (pheap s) → ps_room (pheap s) (6 + n) →
  ∃ ctf cpt s1 s2, alloc_proc tr fr boot_pm s = Done (Some 0%nat, boot_alloc_pm ctf cpt, s2) ∧
    new_memory tr s s1 s2 ctf cpt ∧ roomy cpt process_paths n s2.
Proof using Htr BFlL.
  intros Hi Hr. destruct (new_zeroed_room s (5 + n) Hi Hr) as (ctf & h1 & E & Hr1).
  destruct (new_page_step s Hi) as [E'|(ctf' & s1 & E' & Hi1 & Hctf & Hnew & Hu & Hk1 & Hz)]; rewrite E in E'; [done|].
  injection E' as <- Es. rewrite Es in E. assert (ps_room (pheap s1) (5 + n)) as Hr2 by (by rewrite <- Es). clear Es.
  set (x := set_trapframe ctf (pdata (boot_slot 0))).
  destruct (proc_pagetable_total n tr x s1) as (cpt & s2 & Ep & Hr3); [done|lia|lia|done|done|].
  destruct (proc_pagetable_ok tr x s1) as [Ep'|(cpt' & s2' & Ep' & Hi2 & Ht2 & Hk2 & Hf2 & Hm2)]; [done|lia|lia|done|..]; rewrite Ep in Ep'; [done|].
  injection Ep' as <- <-. exists ctf, cpt, s1, s2. split; [|split; [|done]].
  - unfold alloc_proc. change (alloc_pid boot_pm) with (Done (1, mkPm (procs boot_pm) None 1)). rewrite bind_Done_l. cbv beta iota.
    change (procs (mkPm (procs boot_pm) None 1)) with (procs boot_pm).
    rewrite boot_slot_free, E, bind_Done_l. cbv beta iota. fold x. rewrite Ep, bind_Done_l. done.
  - split; [by split_and!|]. by split_and!.
Qed.

(** The record of the first process. *)
Definition first_process (ctf cpt : Z) : Process :=
  mkProc (mkPMeta RUNNABLE 0 false 0 1)
    (mkPData (stack_va 0) PGSIZE (Some cpt) ctf (mkContext fr (stack_va 0 + PGSIZE) (replicate 12 0))
       (put_bytes (replicate 16 0) 0 INITNAME) None (replicate (Z.to_nat NFILE) None) (Some root_inode)).

(** The parts of [pm_user_init] put together. *)
Lemma pm_user_init_eq (k : @kernel D H) ctf cpt s2 s3 :
  k_pm k = boot_pm → k_ic k = new_icache →
  alloc_proc tr fr boot_pm (k_ps k) = Done (Some 0%nat, boot_alloc_pm ctf cpt, s2) → uvm_init cpt INITCODE s2 = Done s3 →
  pm_user_init tr fr k =
    Done (mkK (mkPm (<[0%nat := first_process ctf cpt]> (procs boot_pm)) (Some 0%nat) 1) (with_mem s3 (boot_frame (pmem s3) ctf))
            (k_files k) (k_next k) boot_icache (k_d k) (k_pipes k) (k_ticks k)).
Proof using.
  intros Epm Eic H1 H2. unfold pm_user_init. rewrite Epm, H1, bind_Done_l. cbv beta iota. cbn [unwrap]. rewrite bind_Done_l.
  change (get_proc 0 (boot_alloc_pm ctf cpt)) with (Done (allocated fr (boot_slot 0) 1 ctf cpt)). rewrite bind_Done_l.
  cbn [allocated pdata set_context set_pagetable p_pagetable unwrap]. rewrite bind_Done_l, H2, bind_Done_l. cbv zeta.
  unfold set_name. change (16 <? Z.of_nat (length INITNAME)) with false. cbv iota. rewrite bind_Done_l.
  cbn [k_ic k_d with_ps with_pm]. rewrite Eic, boot_namei, bind_Done_l. cbv beta iota. cbn [unwrap]. rewrite bind_Done_l. done.
Qed.
End UserInit.

(** ** [rust_main] *)

(** Where the linker puts things: the code first, page tables and the trampoline
    in pages of their own, and everything in the first 32 megabytes. *)
Record image_ok (img : image) : Prop := {
  io_etext : im_etext img mod PGSIZE = 0 ∧ KERNEL_BASE ≤ im_etext img ≤ im_end img;
  io_end : image_end_ok (im_end img);
  io_trampoline : im_trampoline img mod PGSIZE = 0 ∧ KERNEL_BASE ≤ im_trampoline img ∧ im_trampoline img + PGSIZE ≤ im_etext img;
  io_table : im_pagetable img mod PGSIZE = 0 ∧ KERNEL_BASE ≤ im_pagetable img ∧ im_pagetable img + PGSIZE ≤ im_end img;
}.

Section Main.
Context {D : Type} {BD : BlockDevice D} {BF : BitField} {BFL : BitFieldLaws} {BFl : BitFlags} {BFlL : BitFlagsLaws} {U : Type} {MM : Mmio U}.
Context (img : image) (console_read console_write : bool → Z → Z → mem → outcome (option Z * mem)).
Context (Himg : image_ok img).
Abbreviation root := (im_pagetable img).
Abbreviation etext := (im_etext img).
Abbreviation tr := (im_trampoline img).

(** The interrupt controller after [plic_init_hart] of hart 0. *)
Definition plic_ready (u : U) : U :=
  mmio_write 0x0c201000 0 (mmio_write 0x0c002080 (Z.lor (Z.shiftl 1 UART0_IRQ) (Z.shiftl 1 VIRTIO0_IRQ)) u).

Lemma plic_init_hart_0 u : plic_init_hart 0 u = Done (plic_ready u).
Proof using. reflexivity. Qed.

Definition boot_device_list : list (@DeviceFns mem) :=
  <[1%nat := mkDevice (Some console_read) (Some console_write)]> device_list_uninit.

(** The registers of hart 0 when it enters the scheduler. *)
Definition boot_csrs (r : csrs) : csrs :=
  let r := set_stvec (im_kernelvec img) (set_satp (as_satp root) r) in set_sstatus (Sstatus.intr_on (sstatus r)) r.

(** The parts of [rust_main] put together. *)
Lemma rust_main_eq r u m (blocks : D) b s vd u' k :
  tp r = 0 → kinit uninit (im_end img) = Done b → kvm_init root etext tr (mkP m b) = Done s →
  disk_init (im_disk img) new_disk (plic_ready (plic_init (uart_init u))) = Done (vd, u') →
  pm_user_init tr (im_fork_ret img) (mkK boot_pm s ∅ 0 new_icache (mkD sb_uninit log_uninit (boot blocks)) ∅ 0) = Done k →
  rust_main img console_read console_write r (boot_start u m blocks) =
    Done (Some (boot_csrs r, mkBoot u' boot_device_list vd k true)).
Proof using.
  intros Htp H1 H2 H3 H4. unfold rust_main. rewrite Htp. change (0 =? 0) with true. cbv iota. unfold rust_main_first.
  change (console_init console_read console_write (boot_start u m blocks)) with
    (Done (mkBoot (uart_init u) boot_device_list new_disk (boot_kernel m blocks) false)). rewrite bind_Done_l. cbv zeta.
  cbn [bt_kernel boot_kernel k_ps pheap pmem k_pm k_d k_ic bt_u bt_disk bt_devices d_sb d_log d_b cache disk].
  rewrite H1, bind_Done_l, H2, bind_Done_l, pm_init_ok, bind_Done_l.
  change (tp (trap_init_hart (im_kernelvec img) (set_satp (kvm_init_hart root) r))) with (tp r).
  rewrite Htp, plic_init_hart_0, bind_Done_l, H3, bind_Done_l. cbv beta iota.
  lazymatch goal with |- context [pm_user_init ?t ?f ?k0] =>
    change k0 with (mkK boot_pm s ∅ 0 new_icache (mkD sb_uninit log_uninit (boot blocks)) ∅ 0) end.
  rewrite H4, !bind_Done_l. done.
Qed.

(** The kernel page table before anything is mapped, with room in the heap. *)
Lemma boot_table m b :
  (∀ x, in_page root x → m x = 0) → kheap_inv b → im_end img ≤ base b → kheap_room b BOOT_ROOM →
  maps root [] (mkP m b) ∧ roomy root kernel_paths (64 + 100) (mkP m b).
Proof using Himg BFL.
  intros Hz Hi Hb Hr. destruct (io_table _ Himg) as (Hal & Hlo & Hhi). pose proof (io_end _ Himg) as He.
  unfold image_end_ok in He. change KERNEL_BASE with 0x80000000 in *.
  destruct (empty_tree m root b) as (Ht & _ & Hm); [unfold page_ok, PGSIZE in *; lia|right; lia|done|]. split.
  - split; [done|done|]. intros va _. apply Hm.
  - apply (ps_room_less _ BOOT_ROOM); [|done]. unfold missing.
    pose proof (length_filter (λ path, tbl_at m root path = None) kernel_paths) as Hl. cbn [pmem].
    assert (length kernel_paths = 2052%nat) as El by by vm_compute. unfold BOOT_ROOM. lia.
Qed.

(** Heap, page table and first process. *)
Lemma boot_memory m :
  (∀ x, in_page root x → m x = 0) →
  ∃ b s stacks ctf cpt s', kinit uninit (im_end img) = Done b ∧ kvm_init root etext tr (mkP m b) = Done s ∧
    (∀ (d : dstate D), pm_user_init tr (im_fork_ret img) (mkK boot_pm s ∅ 0 new_icache d ∅ 0) =
      Done (mkK (mkPm (<[0%nat := first_process (im_fork_ret img) ctf cpt]> (procs boot_pm)) (Some 0%nat) 1) s' ∅ 0 boot_icache d ∅ 0)) ∧
    maps root (stack_regions stacks ++ kernel_regions etext tr) s' ∧ Z.of_nat (length stacks) = NPROC ∧ ForallOrdPairs apart stacks ∧
    process_memory tr cpt ctf PGSIZE s' ∧
    (∀ a, 0 ≤ a < PGSIZE → user_byte (pmem s') cpt a = Some (nth (Z.to_nat a) INITCODE 0)) ∧
    Tf.get (pmem s') ctf Tf.epc = 0 ∧ ∀ g, Tf.get (pmem s') ctf (tf_off g) = boot_regs g.
Proof using Himg BFL BFlL.
  intros Hz. destruct (io_etext _ Himg) as [Hea He]. destruct (io_trampoline _ Himg) as (Hta & Ht & Ht').
  pose proof (io_end _ Himg) as Hend. pose proof Hend as [_ Hend']. assert (KERNEL_BASE + 0x2000000 < PHYSTOP ∧ 0 ≤ KERNEL_BASE) as [Hph Hkb] by by vm_compute.
  destruct (kinit_ok (im_end img) Hend) as (b & E1 & Hi & Hb & Hr).
  destruct (boot_table m b Hz Hi Hb Hr) as [Hm0 Hr0].
  destruct (kernel_map_all_total root 100 etext tr (mkP m b)) as (stacks & s & E2 & Hm & Hl & Hap & Hr1);
    [done|done|lia|done|unfold PGSIZE in *; lia|done|].
  assert (ps_room (pheap s) (6 + 1)) as Hr2 by (eapply ps_room_less; [|exact Hr1]; lia).
  destruct (boot_alloc tr (im_fork_ret img) ltac:(change PHYSTOP with 0x88000000 in *; unfold PGSIZE in *; lia) 1 s) as (ctf & cpt & s1 & s2 & E3 & Hnew & Hr3);
    [apply Hm|done|].
  pose proof Hnew as (_ & Hi2 & Ht2 & _ & _ & Hm2).
  destruct (uvm_init_ok cpt INITCODE s2) as [E4|(q & s3 & E4 & Ha & Ht3 & Hi3 & Hq & Hqn & Hqu & _ & Hsrc & Hm3)];
    [done|done|rewrite Hm2 by (by vm_compute); by apply process_pages_low|done| |].
  { by destruct (uvm_init_total 0 cpt INITCODE s2 Ht2 Hi2 ltac:(done) Hr3). }
  exists b, s, stacks, ctf, cpt, (with_mem s3 (boot_frame (pmem s3) ctf)).
  split; [done|]. split; [done|]. split; [intros d; exact (pm_user_init_eq tr (im_fork_ret img) (mkK boot_pm s ∅ 0 new_icache d ∅ 0) ctf cpt s2 s3 eq_refl eq_refl E3 E4)|].
  split; [by apply (maps_keeps _ _ s); [..|by eapply first_keeps]|]. split; [done|]. split; [done|].
  split; [by apply (first_process_memory tr ctf cpt q s s1 s2 s3 INITCODE)|]. split.
  - intros a Ha'. eapply (first_bytes tr ctf cpt q s s1 s2 s3 INITCODE); try done. by repeat constructor.
  - apply boot_frame_regs. intros x Hx. by eapply first_frame_zero.
Qed.

Context {MU : Mmu} {ML : MmuLaws}.
Context (uservec_a userret_a user_trap_addr : Z).

(** C1 The machine boots.  With the image in the first 32 megabytes, a kernel page
    table of zeros, and a disk that answers, hart 0 gets through [rust_main]: no
    allocation fails, and it enters its scheduler with paging and interrupts on
    and the kernel's trap vector.  The page table maps devices, memory one to one,
    trampoline and a stack of its own for each process.  There is one process,
    which is runnable, has the initial program in its only page and nothing
    mapped at its stack pointer.  And whenever a hart runs it for the first time,
    its memory not having been touched, and the file system can be initialized,
    it enters user mode at address 0 with that program. *)
Theorem boot_correct r u m (blocks : D) vd u' :
  trampoline_ok tr uservec_a userret_a user_trap_addr → (∀ x, in_page root x → m x = 0) → tp r = 0 →
  disk_init (im_disk img) new_disk (plic_ready (plic_init (uart_init u))) = Done (vd, u') →
  ∃ r' st stacks cpt c, rust_main img console_read console_write r (boot_start u m blocks) = Done (Some (r', st)) ∧
    bt_started st = true ∧ satp r' = as_satp root ∧ stvec r' = im_kernelvec img ∧ Sstatus.intr_get (sstatus r') = true ∧
    bt_devices st !! Z.to_nat CONSOLE = Some (mkDevice (Some console_read) (Some console_write)) ∧
    let k := bt_kernel st in
    k_d k = mkD sb_uninit log_uninit (boot blocks) ∧
    maps root (stack_regions stacks ++ kernel_regions etext tr) (k_ps k) ∧ Z.of_nat (length stacks) = NPROC ∧ ForallOrdPairs apart stacks ∧
    (∀ va, KERNEL_BASE ≤ va < PHYSTOP → pgt_translate root va (kmem k) = Some (page_of va)) ∧
    procs (k_pm k) !! 0%nat = Some c ∧ init_proc (k_pm k) = Some 0%nat ∧ p_state (meta c) = RUNNABLE ∧ p_killed (meta c) = false ∧
    (∀ i p, procs (k_pm k) !! S i = Some p → p_state (meta p) = UNUSED) ∧
    p_pagetable (pdata c) = Some cpt ∧ mapping (kmem k) cpt (boot_regs SP - 8) = None ∧
    ∀ k2 k3 c2 id l h r1 rf sc, procs (k_pm k2) !! 0%nat = Some c2 → pdata c2 = pdata c → p_killed (meta c2) = false →
      kheap_inv (pheap (k_ps k2)) → keeps (pheap (k_ps k)) (k_ps k) (k_ps k2) → fs_ready true k2 k3 →
      first_run id 0 l h → 0 ≤ satp r1 < 2 ^ 64 → 0 ≤ tp r1 < 2 ^ 64 →
      ∃ t r2 k4 h' M, fork_ret tr uservec_a userret_a user_trap_addr id true l h r1 k2 = Done (t, r2, k4, new_spinlock, h') ∧
        leave_kernel rf sc t r2 k4 = Done (0, M, k4) ∧ mode M = User ∧ satp (csr_file M) = as_satp cpt ∧
        (∀ g, regs M g = boot_regs g) ∧ ∀ a, 0 ≤ a < PGSIZE → user_byte (mmem M) cpt a = Some (nth (Z.to_nat a) INITCODE 0).
Proof using Himg BFL BFlL ML.
  intros Htr Hz Htp Hdisk.
  destruct (boot_memory m Hz) as (b & s & stacks & ctf & cpt & s' & E1 & E2 & E3 & Hm & Hl & Hap & Hpy & Hbytes & Hepc & Hregs).
  set (c := first_process (im_fork_ret img) ctf cpt) in *.
  eexists (boot_csrs r), _, stacks, cpt, c. split; [by eapply (rust_main_eq r u m blocks b s vd u')|].
  split; [done|]. split; [done|]. split; [done|]. split; [apply intr_on_get|]. split; [done|]. cbn [bt_kernel k_ps k_pm k_d]. cbv zeta. split; [done|].
  split; [done|]. split; [done|]. split; [done|].
  split; [intros va Hva; apply (maps_ram root etext tr stacks s'); [done|done| |done]; destruct (io_etext _ Himg), (io_end _ Himg); change PHYSTOP with 0x88000000; change KERNEL_BASE with 0x80000000 in *; lia|].
  split; [done|]. split; [done|]. split; [done|]. split; [done|]. split.
  { intros i p Hp. cbn [procs] in Hp. rewrite list_lookup_insert_ne in Hp by done. by apply boot_pm_lookup in Hp as [-> _]. }
  split; [done|]. split.
  { change (boot_regs SP - 8) with 16376. change (kmem _) with (pmem s'). rewrite (py_rest _ _ _ _ _ Hpy); [|lia|by vm_compute]. apply process_pages_low. by vm_compute. }
  intros k2 k3 c2 id l h r1 rf sc Hc2 Ed Hal Hi Hkp Hfs Hfr Hs Ht.
  destruct (process_memory_keeps tr cpt ctf PGSIZE s' (k_ps k2) Hpy Hi Hkp) as (Hpy2 & Hv & Hfl).
  assert (k_ps k3 = k_ps k2 ∧ k_pm k3 = k_pm k2) as [Eps Epm] by (destruct Hfs as (sb & lg & b' & _ & ->); done).
  assert (user_ready 0 k3 c2 cpt) as Hrd.
  { split; [unfold my_proc, get_proc; by rewrite Epm, Hc2|by rewrite Ed|done|rewrite Ed; by apply (stack_va_range 0); lia]. }
  assert (p_trapframe (pdata c2) = ctf ∧ p_size (pdata c2) = PGSIZE ∧ p_name (pdata c2) = p_name (pdata c)) as (Ec & Ez & En) by by rewrite Ed.
  destruct (first_run_ok tr uservec_a userret_a user_trap_addr id 0 l h r1 true k2 k3 c2 cpt rf sc) as (t & r2 & k4 & h' & M & H1 & H2 & H3 & _ & H5 & Hg & Hb);
    rewrite ?Ec, ?Ez, ?En, ?Eps; try done. rewrite Ec in H2, Hg. rewrite Ez in Hb. change (kmem k3) with (pmem (k_ps k3)) in *. rewrite Eps in *.
  exists t, r2, k4, h', M. split; [done|]. rewrite H2, Hfl by by vm_compute. split; [by rewrite Hepc|]. split; [done|]. split; [done|]. split.
  - intros g. pose proof (tf_off_range g). rewrite Hg, Hfl by lia. apply Hregs.
  - intros a Ha. rewrite Hb, Hv by done. by apply Hbytes.
Qed.
End Main.

(** ** A machine *)

(** A disk that identifies itself, with a queue of eight entries. *)
Instance boot_device : Mmio unit := {|
  mmio_read a u := (match list_find (λ x, x.1 = a - VIRTIO0)
      [(VIRTIO_MMIO_MAGIC_VALUE, 0x74726976); (VIRTIO_MMIO_VERSION, 1); (VIRTIO_MMIO_DEVICE_ID, 2);
       (VIRTIO_MMIO_VENDOR_ID, 0x554d4551); (VIRTIO_MMIO_QUEUE_NUM_MAX, 8)] with Some (_, (_, v)) => v | None => 0 end, u);
  mmio_write _ _ u := u;
|}.

Definition demo_image : image := mkImage 0x80020000 0x80200000 0x8001f000 0x80001000 0x80002000 0x80100000 0x80110000.

Lemma demo_image_ok : image_ok demo_image.
Proof. repeat split; by vm_compute. Qed.

(** A file system of 1000 blocks, with an empty log. *)
Definition boot_blocks : fdisk :=
  mkFd (λ n, if n =? 1 then put_bytes (replicate (Z.to_nat BSIZE) 0) 0 (encode_u32s [FSMAGIC; 1000; 941; 200; 30; 2; 32; 58])
             else replicate (Z.to_nat BSIZE) 0).

Lemma demo_fs_init : ∃ sb lg b, fs_init sb_uninit log_uninit ROOTDEV (boot boot_blocks) = Done (sb, lg, b).
Proof.
  assert (match fs_init sb_uninit log_uninit ROOTDEV (boot boot_blocks) with Done _ => true | _ => false end = true) as Hd by by vm_compute.
  destruct (fs_init sb_uninit log_uninit ROOTDEV (boot boot_blocks)) as [[[sb lg] b]| | |]; [by eexists _, _, _|done..].
Qed.

Lemma demo_disk_init : ∃ vd, disk_init (im_disk demo_image) new_disk (plic_ready (plic_init (uart_init tt))) = Done (vd, tt).
Proof. eexists. by vm_compute. Qed.

Definition no_fn : bool → Z → Z → mem → outcome (option Z * mem) := λ _ _ _ m, Done (None, m).

Lemma boot_correct_witness :
  ∃ r' st cpt t r2 k4 h' M,
    rust_main (BF := bit_field_std) (BFl := bit_flags_std) demo_image no_fn no_fn (set_satp 0 demo_regs) (boot_start tt (λ _, 0) boot_blocks) = Done (Some (r', st)) ∧
    fork_ret 0x8001f000 0x8001f000 0x8001f090 0x80003000 0 true (mkSpin true 0)
      (mkHart (mkCPU (Some 0%nat) new_context 1 1) 0) demo_regs (bt_kernel st) = Done (t, r2, k4, new_spinlock, h') ∧
    leave_kernel (MU := sv39_mmu) (λ _, 5) 0 t r2 k4 = Done (0, M, k4) ∧ regs M SP = 16384 ∧ user_byte (mmem M) cpt 16 = Some 0x9d.
Proof.
  destruct demo_disk_init as (vd & Hdisk). destruct demo_fs_init as (sb & lg & b & Hfs).
  destruct (boot_correct (BF := bit_field_std) (BFL := bit_field_std_laws) (BFl := bit_flags_std) (BFlL := bit_flags_std_laws) (MM := boot_device)
    demo_image no_fn no_fn demo_image_ok (MU := sv39_mmu) (ML := sv39_mmu_laws) 0x8001f000 0x8001f090 0x80003000
    (set_satp 0 demo_regs) tt (λ _, 0) boot_blocks vd tt)
    as (r' & st & stacks & cpt & c & Hrun & _ & _ & _ & _ & _ & Hd & Hm & _ & _ & _ & Hc & _ & _ & Hal & _ & _ & _ & Huser).
  - split; cbn; unfold PGSIZE; lia.
  - done.
  - done.
  - exact Hdisk.
  - destruct (Huser (bt_kernel st) (with_ifs (bt_kernel st) (k_ic (bt_kernel st)) (mkD sb lg b)) c 0 (mkSpin true 0)
      (mkHart (mkCPU (Some 0%nat) new_context 1 1) 0) demo_regs (λ _, 5) 0) as (t & r2 & k4 & h' & M & H1 & H2 & _ & _ & Hregs & Hmem).
    + exact Hc.
    + reflexivity.
    + exact Hal.
    + exact (mp_heap _ _ _ Hm).
    + by split.
    + exists sb, lg, b. rewrite Hd. split; [exact Hfs|reflexivity].
    + clear. split; [split; cbn [h_sstatus h_cpu noff]; [lia|lia|by intros _]|done|done|done].
    + clear. by vm_compute.
    + clear. by vm_compute.
    + exists r', st, cpt, t, r2, k4, h', M. split; [exact Hrun|]. split; [exact H1|]. split; [exact H2|]. split; [exact (Hregs SP)|].
      apply (Hmem 16). unfold PGSIZE. lia.
Defined.
